(* ===== verification/_CoqProject ===== *)
-Q . S2P
Base.v
Riscv.v
Mem.v
Kstring.v
Spinlock.v
Kalloc.v
Vm.v
VmSpec.v
VmMap.v
VmUser.v
VmAlloc.v
VmCopy.v
VmFork.v
VmTheorems.v
VmKernel.v
Asm.v
AsmSpec.v
Start.v
Ring.v
Kernel.v
Pipe.v
Console.v
ConsoleSpec.v
Printf.v
Sleeplock.v
FsState.v
Bio.v
BioList.v
BioSpec.v
Virtio.v
Log.v
LogSpec.v
LogCrash.v
LogOps.v
Fs.v
FsLogic.v
FsBoot.v
FsAlloc.v
FsInode.v
FsFile.v
FsData.v
FsOps.v
FsDir.v
FsPath.v
Mkfs.v
MkfsSpec.v
MkfsImage.v
MkfsBoot.v
Kstate.v
KstateLaws.v
Proc.v
File.v
Life.v
Args.v
Exec.v
Sysproc.v
Sysfile.v
Syscall.v
Trap.v
Discipline.v
DisciplineFs.v
DisciplineSys.v
Sched.v
ProcSpec.v
SysSpec.v
Main.v
MainSpec.v
User.v
Ulib.v
Uprintf.v
Grep.v
Umalloc.v
UmallocSpec.v
Sh.v
ShSpec.v
ShShow.v
Programs.v
