(* ===== verification/Base.v ===== *)
(** * A verification development for the xv6 system of this repository

    The program is a Unix-like operating system for RISC-V: a kernel
    ([src/kernel]), user programs with their library ([src/user]) and a tool
    that makes disk images ([src/mkfs]).  The kernel has two additions: the
    system calls [trace] and [sysinfo].  The development is a shallow
    embedding: each C function is a definition with the name of the function,
    the state it works on is a record, and theorems are about these
    definitions.

    ** How code is modelled

    Kernel code is in the monad [M S A] of this file: in a state [S] it
    returns ([Ok]), calls [panic] ([Panic]), gives the CPU away in [swtch]
    ([Swtch], with the continuation of the thread), or does not end
    ([Diverge]).  Integers are [Z], with the width of the C type written out
    ([u8], [u32], [u64], [i32], ...) wherever a value can wrap.  Memory
    is a map from addresses to bytes ([Mem]); page tables, the free list,
    trapframes, user memory and the headers of the user allocator are in it.
    User programs are trees of system calls ([User]).  Assembly is a list of
    instructions run by a small machine ([Asm]).

    Components that sleep and wake are written once against the interface
    [KernelOps] ([Kernel]: [acquire], [release], [sleep], [wakeup], [pid]).
    It has two implementations: [solo], one process on its own, where the
    components' theorems are proved; and the whole kernel, [kst] of [Kstate].
    [sim] transfers runs from the first to every implementation that satisfies
    [KernelLaws], and [KstateLaws] shows that the kernel does.

    ** Parts and files

    Machine: [Riscv] (param.h, memlayout.h, riscv.h), [Mem], [Kstring]
    (string.c), [Asm] and [AsmSpec] (trampoline.S, swtch.S, kernelvec.S,
    entry.S), [Start] (start.c and the control registers of riscv.h).

    Locks: [Spinlock] (spinlock.c): the code on any number of harts at the
    granularity of memory operations, and the flag the other components use
    for a lock.  [Sleeplock] (sleeplock.c).

    Memory: [Kalloc] (kalloc.c); [Vm] (vm.c and the page tables of proc.c),
    with [VmSpec] (the hardware's walk and the invariant of page tables),
    [VmMap], [VmUser], [VmAlloc], [VmCopy], [VmFork], [VmTheorems] and
    [VmKernel] (the kernel's own page table).

    Devices: [Console], [ConsoleSpec] (console.c, uart.c), [Printf]
    (printf.c), [Virtio] (virtio_disk.c).  [Ring] is the ring buffer that the
    console, the UART and pipes have in common.  [Pipe] (pipe.c).

    File system: [FsState] (buf.h, fs.h, file.h, the log's records and the
    disk); [Bio], [BioList], [BioSpec] (bio.c); [Log], [LogSpec], [LogCrash],
    [LogOps] (log.c); [Fs] (fs.c).  [FsLogic] is a program logic for code
    inside a transaction: its assertions speak of the blocks as the code sees
    them, and its rules carry the buffer cache, the log and the locks.  With
    it: [FsBoot] (fsinit and recovery), [FsAlloc] (balloc), [FsInode]
    (ilock, iupdate), [FsFile] (bmap), [FsData] (readi, writei), [FsOps]
    (whole operations and crashes), [FsDir] (directories), [FsPath] (paths).
    [Mkfs] (mkfs.c) makes the image; [MkfsSpec], [MkfsImage], [MkfsBoot] say
    what is in it and that the kernel reads it.

    Processes and system calls: [Kstate], [KstateLaws] (the kernel's state;
    sched, sleep and wakeup of proc.c), [Proc], [Life] (the rest of proc.c),
    [File] (file.c), [Exec] (exec.c), [Args] and [Syscall] (syscall.c),
    [Sysproc] (sysproc.c), [Sysfile] (sysfile.c), [Trap] (trap.c, plic.c),
    [Sched] (the scheduler, and the kernel as a step relation), [ProcSpec],
    [SysSpec]; [Discipline], [DisciplineFs], [DisciplineSys] (the lock
    discipline of every function); [Main], [MainSpec] (main.c).

    User level: [User] (user.h), [Ulib] (ulib.c), [Uprintf] (printf.c),
    [Umalloc], [UmallocSpec] (umalloc.c), [Grep] (grep.c), [Sh], [ShSpec],
    [ShShow] (sh.c), [Programs] (cat, echo, init, kill, ln, ls, mkdir, rm,
    trace, wc, zombie).

    ** What the theorems show

    - Crash safety: whichever prefix of an operation's disk writes reaches the
      disk, recovery leaves all of its blocks old or all new
      ([transaction_crash_atomic]); for a write to a file, with all code from
      [begin_op] to [end_op], this is [write_crash_atomic].  The buffer cache
      is transparent ([cache_transparent]).  Three operations can overflow the
      log ([log_one_block_short]).
    - Files: what was written is read back and other files are unchanged
      ([write_then_read]); a name added to a directory is found and no other
      name changes ([dirlink_adds]); a path is resolved by the walk its
      elements describe, without a lost reference ([namei_walks]).
    - The image: what [mkfs] writes ([mkfs_image]), that the kernel boots from
      it and finds each file's contents by its path ([mkfs_boots]), and the
      hole it can leave in the root directory ([mkfs_root_hole]).
    - Start-up: a hart enters [main] in supervisor mode with its timer set
      ([start_timer]); [main] returns with paging on and the first process
      ready ([main_boots]), which is where the scheduler's theorems begin; the
      kernel's page table maps exactly what it should ([kvmmake_maps]).
    - Locks: mutual exclusion on any number of harts ([mutual_exclusion]);
      over every interleaving of system calls, interrupts and switches no lock
      is leaked or taken twice and exactly the current process is running
      ([kernel_discipline], [no_lock_panic]); no wake-up is lost
      ([sleep_wakeup]); a timer interrupt takes the CPU away
      ([timer_preempts]).
    - Memory: all memory is found at start ([kinit_getfreemem]) and pages are
      given back exactly ([uvm_no_leak]); [fork] copies memory
      ([uvmcopy_copies]); copying in and out ([copyout_copyin]).
    - Registers: traps, context switches and interrupts restore them
      ([trap_roundtrip], [swtch_switches], [kernelvec_restores]).
    - Devices and pipes as queues: [consoleintr_edits], [consoleread_reads],
      [pipe_roundtrip], [piperead_takes], [printf_renders],
      [printint_denotes].
    - The added system calls: [syscall_traces], [sysinfo_reports].
    - User level: allocations are isolated and the allocator's loops end
      ([malloc_isolates], [malloc_returns]), except that huge requests wrap
      ([malloc_huge_wraps]); [grep] decides the language of its pattern and
      prints the matching lines ([match_language], [grep_filters]); the
      shell's parser ends on every line ([parsecmd_total]) and inverts
      printing ([show_parses]).

    ** Bounds

    Loops without a structural bound take fuel.  Loops over tables and
    lists use the table's size, which is always enough; a page-table walk has
    three levels.  [wait], [sleep]ing loops and spinning loops run as often
    as they are woken: their fuel is the number of wake-ups, theorems hold
    for every number, and running out is [Diverge], which no theorem counts
    as a result.  User programs that read input use one turn per byte, the
    allocator [3 n + 5] turns with [n] free blocks; both are proved enough.

    ** Not modelled

    The device side of the UART, the interrupt controller and the disk is
    outside the program; they are parameters or queues of answers.
    Instruction-level interleaving of several harts is modelled for spin
    locks only: other kernel code runs atomically between the points where it
    switches, justified by the locks it holds; interrupts arrive in user mode
    and in the scheduler.  Caches of translations are not modelled, so that
    [sfence_vma] does nothing.  [panic] is an outcome; what it prints is not
    modelled.  In [Fs] the two messages printed when the disk is full are
    left out.  [ramdisk.c] is not linked into the kernel and does not fit the
    present [struct buf].  The test programs ([usertests.c], [grind.c],
    [stressfs.c], [forktest.c], [sysinfotest.c]) are tests of the system;
    [initcode.S] is in the model as the bytes [proc.c] has of it. *)

From Stdlib Require Export ZArith Lia.
From stdpp Require Export gmap strings list fin_maps.

#[global] Open Scope Z_scope.

(** ** Results of running kernel code

    A piece of kernel code run in a state of type [S] either returns, calls
    [panic], or gives the CPU away in [swtch] (inside [sched]); in the last
    case the continuation says how it goes on from the state in which the
    scheduler resumes it.  [Diverge] is a loop that never ends (or whose
    bound on the number of wake-ups is used up). *)
Inductive res (S A : Type) : Type :=
| Ok (a : A) (s : S)
| Panic (msg : string)
| Swtch (s : S) (k : S → res S A)
| Diverge.
Arguments Ok {S A} a s.
Arguments Panic {S A} msg.
Arguments Swtch {S A} s k.
Arguments Diverge {S A}.

Definition M (S A : Type) : Type := S → res S A.

Fixpoint res_bind {S A B} (r : res S A) (f : A → S → res S B) : res S B :=
  match r with
  | Ok a s => f a s
  | Panic msg => Panic msg
  | Swtch s k => Swtch s (λ s', res_bind (k s') f)
  | Diverge => Diverge
  end.

Definition ret {S A} (a : A) : M S A := λ s, Ok a s.
Definition bind {S A B} (m : M S A) (f : A → M S B) : M S B := λ s, res_bind (m s) f.

Declare Scope kernel_scope.
Delimit Scope kernel_scope with K.
Notation "x ← y ; z" := (bind y (λ x, z))
  (at level 20, y at level 100, z at level 200, only parsing) : kernel_scope.
Notation "' x ← y ; z" := (bind y (λ x, z))
  (at level 20, x pattern, y at level 100, z at level 200, only parsing) : kernel_scope.
Notation "x ;; z" := (bind x (λ _, z))
  (at level 100, z at level 200, only parsing, right associativity) : kernel_scope.
#[global] Open Scope kernel_scope.

Definition panic {S A} (msg : string) : M S A := λ _, Panic msg.
Definition gets {S A} (f : S → A) : M S A := λ s, Ok (f s) s.
Definition modify {S} (f : S → S) : M S unit := λ s, Ok tt (f s).
Definition diverge {S A} : M S A := λ _, Diverge.

(** A [for] loop whose body never leaves the loop early. *)
Fixpoint mfor {S A} (l : list A) (body : A → M S unit) : M S unit :=
  match l with
  | [] => ret tt
  | x :: l => body x ;; mfor l body
  end.

(** [mfold] threads the locals of a loop through its iterations. *)
Fixpoint mfold {S A B} (l : list A) (body : B → A → M S B) (b : B) : M S B :=
  match l with
  | [] => ret b
  | x :: l => b ← body b x; mfold l body b
  end.

(** ** Lenses: code of one component run inside a larger state *)
Record lens (S A : Type) := Lens { lget : S → A; lput : A → S → S }.
Arguments Lens {S A}.
Arguments lget {S A}.
Arguments lput {S A}.

Class LensLaws {S A} (l : lens S A) := {
  lget_put : ∀ a s, lget l (lput l a s) = a;
  lput_get : ∀ s, lput l (lget l s) s = s;
  lput_put : ∀ a b s, lput l a (lput l b s) = lput l a s;
}.

Fixpoint zoom_res {S A X} (l : lens S A) (s : S) (r : res A X) : res S X :=
  match r with
  | Ok x a => Ok x (lput l a s)
  | Panic msg => Panic msg
  | Swtch a k => Swtch (lput l a s) (λ s', zoom_res l s' (k (lget l s')))
  | Diverge => Diverge
  end.

Definition zoom {S A X} (l : lens S A) (m : M A X) : M S X :=
  λ s, zoom_res l s (m (lget l s)).

(** ** Machine integers

    Values are kept as [Z]; each C operation that can leave its type's range
    is followed by the conversion to that type. *)
Definition u8 (x : Z) : Z := x mod 2 ^ 8.
Definition u16 (x : Z) : Z := x mod 2 ^ 16.
Definition u32 (x : Z) : Z := x mod 2 ^ 32.
Definition u64 (x : Z) : Z := x mod 2 ^ 64.
Definition i16 (x : Z) : Z := (x + 2 ^ 15) mod 2 ^ 16 - 2 ^ 15.
Definition i32 (x : Z) : Z := (x + 2 ^ 31) mod 2 ^ 32 - 2 ^ 31.
Definition i64 (x : Z) : Z := (x + 2 ^ 63) mod 2 ^ 64 - 2 ^ 63.

(** C truth of an integer. *)
Definition nonzero (x : Z) : bool := negb (x =? 0).

(** [zseq a n] is [a; a+1; ...], [n] numbers. *)
Fixpoint zseq (a : Z) (n : nat) : list Z :=
  match n with O => [] | S n => a :: zseq (a + 1) n end.

(** ** Tactics *)
Ltac unfold_int := unfold u8, u16, u32, u64, i16, i32, i64 in *.

(** Linear arithmetic with division and modulo by constants. *)
Ltac zlia := Z.div_mod_to_equations; lia.
Ltac ilia := unfold_int; Z.div_mod_to_equations; lia.

(** Turn boolean comparisons on [Z] into propositions. *)
Ltac bool_to_prop :=
  repeat match goal with
  | H : _ && _ = true |- _ => apply andb_true_iff in H as [? ?]
  | H : _ || _ = false |- _ => apply orb_false_iff in H as [? ?]
  | H : negb _ = true |- _ => apply negb_true_iff in H
  | H : negb _ = false |- _ => apply negb_false_iff in H
  | H : (_ =? _) = true |- _ => apply Z.eqb_eq in H
  | H : (_ =? _) = false |- _ => apply Z.eqb_neq in H
  | H : (_ <? _) = true |- _ => apply Z.ltb_lt in H
  | H : (_ <? _) = false |- _ => apply Z.ltb_ge in H
  | H : (_ <=? _) = true |- _ => apply Z.leb_le in H
  | H : (_ <=? _) = false |- _ => apply Z.leb_gt in H
  | H : (_ >? _) = _ |- _ => rewrite Z.gtb_ltb in H
  | H : (_ >=? _) = _ |- _ => rewrite Z.geb_leb in H
  | H : bool_decide _ = true |- _ => apply bool_decide_eq_true in H
  | H : bool_decide _ = false |- _ => apply bool_decide_eq_false in H
  end.

(** Split on the test of an innermost [if] of the goal. *)
Ltac case_if :=
  match goal with
  | |- context [if ?b then _ else _] =>
      lazymatch b with
      | context [if _ then _ else _] => fail
      | _ => let E := fresh "E" in destruct b eqn:E
      end
  end.

Ltac mred := unfold bind, ret, panic, gets, modify, diverge; simpl.
Ltac mred_in H :=
  unfold bind, ret, panic, gets, modify, diverge in H; simpl in H.

(** ** Running code: equations and inversion *)
Section running.
  Context {S : Type}.

Lemma bind_ok {A B} (m : M S A) (f : A → M S B) s a s' :
  m s = Ok a s' → (bind m f) s = f a s'.
Proof. intros H. mred. by rewrite H. Qed.

Lemma bind_ret {A B} (a : A) (f : A → M S B) s : bind (ret a) f s = f a s.
Proof. done. Qed.

Lemma bind_gets {A B} (g : S → A) (f : A → M S B) s : bind (gets g) f s = f (g s) s.
Proof. done. Qed.

Lemma bind_modify {B} (g : S → S) (f : unit → M S B) s : bind (modify g) f s = f tt (g s).
Proof. done. Qed.

Lemma bind_panic {A B} (m : M S A) (f : A → M S B) s msg :
  m s = Panic msg → (bind m f) s = Panic msg.
Proof. intros H. mred. by rewrite H. Qed.

Lemma bind_inv {A B} (m : M S A) (f : A → M S B) s b s'' :
  (bind m f) s = Ok b s'' →
  ∃ a s', m s = Ok a s' ∧ f a s' = Ok b s''.
Proof. mred. destruct (m s); simpl; intros H; naive_solver. Qed.

Lemma mfor_app {A} (l k : list A) (f : A → M S unit) s s' :
  mfor l f s = Ok tt s' → mfor (l ++ k) f s = mfor k f s'.
Proof.
  revert s. induction l as [|x l IH]; intros s; simpl.
  - mred. by intros [= ->].
  - intros ([] & t & Hx & Hl)%bind_inv. rewrite (bind_ok _ _ _ _ _ Hx). auto.
Qed.
End running.

#[export] Hint Rewrite @bind_ret @bind_gets @bind_modify : krun.
Ltac krun := autorewrite with krun.

(** ** Total-correctness triples

    [triple P m Q]: from a state satisfying [P] the code returns (it neither
    panics nor blocks), with a result and state satisfying [Q]. *)
Definition triple {S A} (P : S → Prop) (m : M S A) (Q : A → S → Prop) : Prop :=
  ∀ s, P s → ∃ a s', m s = Ok a s' ∧ Q a s'.

(** Code keeps [I] whenever it returns. *)
Definition keeps {S A} (I : S → Prop) (m : M S A) : Prop :=
  ∀ s a s', I s → m s = Ok a s' → I s'.

Create HintDb kernel.

Section triples.
  Context {S : Type}.

Lemma triple_ret {A} (P : S → Prop) (a : A) (Q : A → S → Prop) :
  (∀ s, P s → Q a s) → triple P (ret a) Q.
Proof. intros H s Hs. exists a, s. split; [done | auto]. Qed.

Lemma triple_bind {A B} P (m : M S A) (f : A → M S B) R Q :
  triple P m R → (∀ a, triple (R a) (f a) Q) → triple P (bind m f) Q.
Proof.
  intros Hm Hf s Hs. destruct (Hm s Hs) as (a & s' & E & Ha).
  destruct (Hf a s' Ha) as (b & s'' & E' & Hb).
  exists b, s''. split; [|done]. by rewrite (bind_ok _ _ _ _ _ E).
Qed.

Lemma triple_weaken {A} (P P' : S → Prop) (m : M S A) (Q Q' : A → S → Prop) :
  triple P' m Q' → (∀ s, P s → P' s) → (∀ a s, Q' a s → Q a s) → triple P m Q.
Proof. intros H HP HQ s Hs. destruct (H s (HP s Hs)) as (a & s' & ? & ?); eauto. Qed.

(** A loop over a list with an invariant indexed by what is still to do. *)
Lemma triple_mfor {A} (I : list A → S → Prop) (l : list A) (f : A → M S unit) :
  (∀ x k, triple (I (x :: k)) (f x) (λ _, I k)) →
  triple (I l) (mfor l f) (λ _, I []).
Proof.
  intros H. induction l as [|x l IH]; simpl; [by apply triple_ret|].
  eapply triple_bind; [apply H | intros ?; apply IH].
Qed.

Lemma keeps_ret {A} I (a : A) : keeps I (ret a : M S A).
Proof. intros s ? ? ? [= <- <-]. done. Qed.

Lemma keeps_panic {A} I msg : keeps I (panic msg : M S A).
Proof. intros s ? ? ? [=]. Qed.

Lemma keeps_gets {A} I (f : S → A) : keeps I (gets f).
Proof. intros s ? ? ? [= <- <-]. done. Qed.

Lemma keeps_bind {A B} I (m : M S A) (f : A → M S B) :
  keeps I m → (∀ a, keeps I (f a)) → keeps I (bind m f).
Proof. intros Hm Hf s b s' Hs (a & t & E & E')%bind_inv.
  exact (Hf a t b s' (Hm s a t Hs E) E').
Qed.

Lemma keeps_mfor {A} I (l : list A) (f : A → M S unit) :
  (∀ x, keeps I (f x)) → keeps I (mfor l f).
Proof.
  intros H. induction l; simpl; [apply keeps_ret | by apply keeps_bind].
Qed.
End triples.
#[export] Hint Resolve keeps_ret keeps_panic keeps_gets keeps_bind keeps_mfor : kernel.

Lemma zoom_ok {S A X} (l : lens S A) (m : M A X) s x a :
  m (lget l s) = Ok x a → zoom l m s = Ok x (lput l a s).
Proof. unfold zoom. by intros ->. Qed.

(** ** Integers *)
Lemma u64_small x : 0 ≤ x < 2 ^ 64 → u64 x = x.
Proof. apply Z.mod_small. Qed.
Lemma u32_small x : 0 ≤ x < 2 ^ 32 → u32 x = x.
Proof. apply Z.mod_small. Qed.
Lemma u16_small x : 0 ≤ x < 2 ^ 16 → u16 x = x.
Proof. apply Z.mod_small. Qed.
Lemma u8_small x : 0 ≤ x < 2 ^ 8 → u8 x = x.
Proof. apply Z.mod_small. Qed.
Lemma u64_bound x : 0 ≤ u64 x < 2 ^ 64.
Proof. apply Z.mod_pos_bound. lia. Qed.
Lemma u32_bound x : 0 ≤ u32 x < 2 ^ 32.
Proof. apply Z.mod_pos_bound. lia. Qed.
Lemma u8_bound x : 0 ≤ u8 x < 2 ^ 8.
Proof. apply Z.mod_pos_bound. lia. Qed.
Lemma i32_small x : - 2 ^ 31 ≤ x < 2 ^ 31 → i32 x = x.
Proof. intros. unfold i32. rewrite Z.mod_small; lia. Qed.

Lemma zseq_length a n : length (zseq a n) = n.
Proof. revert a; induction n; intros; simpl; auto. Qed.

Lemma zseq_app a n k : zseq a (n + k) = zseq a n ++ zseq (a + Z.of_nat n) k.
Proof.
  revert a. induction n as [|n IH]; intros a; simpl; [by rewrite Z.add_0_r|].
  rewrite IH. do 3 f_equal. lia.
Qed.

Lemma elem_of_zseq x a n : x ∈ zseq a n ↔ a ≤ x < a + Z.of_nat n.
Proof.
  revert a. induction n as [|n IH]; intros a; simpl.
  - rewrite elem_of_nil. lia.
  - rewrite elem_of_cons, IH. lia.
Qed.

Lemma zseq_NoDup a n : NoDup (zseq a n).
Proof.
  revert a. induction n as [|n IH]; intros a; simpl; constructor; [|apply IH].
  rewrite elem_of_zseq. lia.
Qed.

Lemma zseq_lookup a n i : (i < n)%nat → zseq a n !! i = Some (a + Z.of_nat i).
Proof.
  revert a i. induction n as [|n IH]; intros a [|i] Hi; simpl; try lia.
  - f_equal. lia.
  - rewrite IH by lia. f_equal. lia.
Qed.
