(* ===== verification/Riscv.v ===== *)
(** * Machine constants and page-table arithmetic

    The numeric constants of [kernel/param.h], [kernel/memlayout.h] and
    [kernel/riscv.h], and the macros that cut virtual addresses and page-table
    entries into fields.  The macros are written with the bit operations of
    the source; the lemmas give their arithmetic meaning. *)

From S2P Require Import Base.
Local Open Scope Z_scope.
Local Open Scope kernel_scope.

(** ** kernel/param.h *)
Definition NPROC : Z := 64.
Definition NCPU : Z := 8.
Definition NOFILE : Z := 16.
Definition NFILE : Z := 100.
Definition NINODE : Z := 50.
Definition NDEV : Z := 10.
Definition ROOTDEV : Z := 1.
Definition MAXARG : Z := 32.
Definition MAXOPBLOCKS : Z := 10.
Definition LOGSIZE : Z := MAXOPBLOCKS * 3.
Definition NBUF : Z := MAXOPBLOCKS * 3.
Definition FSSIZE : Z := 2000.
Definition MAXPATH : Z := 128.

(** ** kernel/riscv.h: pages, page-table entries, virtual addresses *)
Definition PGSIZE : Z := 4096.
Definition PGSHIFT : Z := 12.

Definition PGROUNDUP (sz : Z) : Z := Z.land (u64 (sz + PGSIZE - 1)) (Z.lnot (PGSIZE - 1)).
Definition PGROUNDDOWN (a : Z) : Z := Z.land a (Z.lnot (PGSIZE - 1)).

Definition PTE_V : Z := Z.shiftl 1 0.
Definition PTE_R : Z := Z.shiftl 1 1.
Definition PTE_W : Z := Z.shiftl 1 2.
Definition PTE_X : Z := Z.shiftl 1 3.
Definition PTE_U : Z := Z.shiftl 1 4.

Definition PA2PTE (pa : Z) : Z := u64 (Z.shiftl (Z.shiftr pa 12) 10).
Definition PTE2PA (pte : Z) : Z := u64 (Z.shiftl (Z.shiftr pte 10) 12).
Definition PTE_FLAGS (pte : Z) : Z := Z.land pte 0x3FF.

Definition PXMASK : Z := 0x1FF.
Definition PXSHIFT (level : Z) : Z := PGSHIFT + 9 * level.
Definition PX (level va : Z) : Z := Z.land (Z.shiftr va (PXSHIFT level)) PXMASK.

Definition MAXVA : Z := Z.shiftl 1 (9 + 9 + 9 + 12 - 1).

Definition SATP_SV39 : Z := Z.shiftl 8 60.
Definition MAKE_SATP (pagetable : Z) : Z := Z.lor SATP_SV39 (Z.shiftr pagetable 12).

Definition SSTATUS_SPP : Z := Z.shiftl 1 8.
Definition SSTATUS_SPIE : Z := Z.shiftl 1 5.
Definition SSTATUS_SIE : Z := Z.shiftl 1 1.

(** ** kernel/memlayout.h *)
Definition UART0 : Z := 0x10000000.
Definition UART0_IRQ : Z := 10.
Definition VIRTIO0 : Z := 0x10001000.
Definition VIRTIO0_IRQ : Z := 1.
Definition PLIC : Z := 0x0c000000.
Definition PLIC_SENABLE (hart : Z) : Z := PLIC + 0x2080 + hart * 0x100.
Definition PLIC_SPRIORITY (hart : Z) : Z := PLIC + 0x201000 + hart * 0x2000.
Definition PLIC_SCLAIM (hart : Z) : Z := PLIC + 0x201004 + hart * 0x2000.
Definition KERNBASE : Z := 0x80000000.
Definition PHYSTOP : Z := KERNBASE + 128 * 1024 * 1024.
Definition TRAMPOLINE : Z := MAXVA - PGSIZE.
Definition KSTACK (p : Z) : Z := TRAMPOLINE - (p + 1) * 2 * PGSIZE.
Definition TRAPFRAME : Z := TRAMPOLINE - PGSIZE.

Ltac unfold_consts :=
  unfold TRAPFRAME, TRAMPOLINE, KSTACK, PHYSTOP, KERNBASE, MAXVA, PGSIZE, PGSHIFT,
    PXMASK, PXSHIFT in *.

(** ** Arithmetic meaning of the macros *)

(** Clearing the low [n] bits rounds down to a multiple of [2 ^ n]. *)
Lemma land_lnot_ones a n : 0 ≤ n → Z.land a (Z.lnot (Z.ones n)) = a - a mod 2 ^ n.
Proof.
  intros Hn. rewrite <- Z.ldiff_land, Z.ldiff_ones_r by done.
  rewrite Z.shiftl_mul_pow2, Z.shiftr_div_pow2 by done.
  pose proof (Z.div_mod a (2 ^ n)). lia.
Qed.

Lemma PGROUNDDOWN_eq a : PGROUNDDOWN a = a - a mod 4096.
Proof. exact (land_lnot_ones a 12 ltac:(lia)). Qed.

Lemma PGROUNDUP_eq sz : PGROUNDUP sz = u64 (sz + 4095) - u64 (sz + 4095) mod 4096.
Proof.
  unfold PGROUNDUP, PGSIZE. replace (sz + 4096 - 1) with (sz + 4095) by lia.
  exact (land_lnot_ones _ 12 ltac:(lia)).
Qed.

Lemma PGROUNDUP_spec sz :
  0 ≤ sz < 2 ^ 64 - 4095 →
  PGROUNDUP sz mod 4096 = 0 ∧ sz ≤ PGROUNDUP sz < sz + 4096.
Proof. intros. rewrite PGROUNDUP_eq, u64_small by lia. zlia. Qed.

Lemma PGROUNDUP_aligned sz : 0 ≤ sz < 2 ^ 64 - 4095 → sz mod 4096 = 0 → PGROUNDUP sz = sz.
Proof. intros. rewrite PGROUNDUP_eq, u64_small by lia. zlia. Qed.

Lemma PX_eq level va : 0 ≤ level → PX level va = va / 2 ^ (12 + 9 * level) mod 512.
Proof.
  intros. unfold PX, PXMASK, PXSHIFT, PGSHIFT. change 0x1FF with (Z.ones 9).
  by rewrite Z.land_ones, Z.shiftr_div_pow2 by lia.
Qed.

Lemma PX_bound level va : 0 ≤ level → 0 ≤ PX level va < 512.
Proof. intros. rewrite PX_eq by done. apply Z.mod_pos_bound. lia. Qed.

Lemma PX0_eq va : PX 0 va = va / 4096 mod 512.
Proof. exact (PX_eq 0 va ltac:(lia)). Qed.
Lemma PX1_eq va : PX 1 va = va / 2097152 mod 512.
Proof. exact (PX_eq 1 va ltac:(lia)). Qed.
Lemma PX2_eq va : PX 2 va = va / 1073741824 mod 512.
Proof. exact (PX_eq 2 va ltac:(lia)). Qed.

Lemma PTE_FLAGS_eq pte : PTE_FLAGS pte = pte mod 1024.
Proof. unfold PTE_FLAGS. change 0x3FF with (Z.ones 10). by rewrite Z.land_ones. Qed.

Lemma PTE2PA_eq pte : PTE2PA pte = u64 (pte / 1024 * 4096).
Proof.
  unfold PTE2PA. by rewrite Z.shiftl_mul_pow2, Z.shiftr_div_pow2 by lia.
Qed.

Lemma PA2PTE_eq pa : PA2PTE pa = u64 (pa / 4096 * 1024).
Proof.
  unfold PA2PTE. by rewrite Z.shiftl_mul_pow2, Z.shiftr_div_pow2 by lia.
Qed.

(** Or-ing a value below [2 ^ n] into a multiple of [2 ^ n] is addition. *)
Lemma lor_add_low a b n : 0 ≤ n → 0 ≤ b < 2 ^ n → Z.lor (a * 2 ^ n) b = a * 2 ^ n + b.
Proof.
  intros Hn Hb. rewrite <- Z.shiftl_mul_pow2 by done.
  rewrite <- Z.lxor_lor, <- Z.add_nocarry_lxor; [done|..];
    apply Z.bits_inj'; intros i Hi; rewrite Z.land_spec, Z.bits_0;
    (destruct (decide (i < n));
      [rewrite Z.shiftl_spec_low by lia; done
      |rewrite <- (Z.mod_small b (2 ^ n)), Z.mod_pow2_bits_high by lia;
       apply andb_false_r]).
Qed.

Lemma PA2PTE_flags pa f :
  0 ≤ pa < 2 ^ 56 → 0 ≤ f < 1024 → Z.lor (PA2PTE pa) f = pa / 4096 * 1024 + f.
Proof.
  intros Hpa Hf. rewrite PA2PTE_eq, u64_small by zlia.
  exact (lor_add_low _ f 10 ltac:(lia) ltac:(lia)).
Qed.

Lemma PTE2PA_lor pa f :
  0 ≤ pa < 2 ^ 56 → pa mod 4096 = 0 → 0 ≤ f < 1024 → PTE2PA (Z.lor (PA2PTE pa) f) = pa.
Proof.
  intros Hpa Hal Hf. rewrite PA2PTE_flags, PTE2PA_eq by done.
  rewrite u64_small; zlia.
Qed.

Lemma PTE_FLAGS_lor pa f :
  0 ≤ pa < 2 ^ 56 → 0 ≤ f < 1024 → PTE_FLAGS (Z.lor (PA2PTE pa) f) = f.
Proof. intros Hpa Hf. rewrite PA2PTE_flags, PTE_FLAGS_eq by done. zlia. Qed.

(** The bit-test form in which the code looks at a flag. *)
Lemma land_flag_mod pte f : 0 ≤ f < 1024 → Z.land pte f = Z.land (PTE_FLAGS pte) f.
Proof.
  intros Hf. unfold PTE_FLAGS. rewrite <- Z.land_assoc. f_equal.
  change 0x3FF with (Z.ones 10). rewrite Z.land_comm, Z.land_ones by lia.
  rewrite Z.mod_small; [done|]. change (2 ^ 10) with 1024. done.
Qed.

Lemma MAXVA_eq : MAXVA = 2 ^ 38.
Proof. done. Qed.

Lemma PX_decompose va :
  0 ≤ va < 2 ^ 39 →
  va = PX 2 va * 1073741824 + PX 1 va * 2097152 + PX 0 va * 4096 + va mod 4096.
Proof. intros. rewrite PX0_eq, PX1_eq, PX2_eq. zlia. Qed.

Lemma PX_inj a b :
  0 ≤ a < 2 ^ 39 → 0 ≤ b < 2 ^ 39 → a mod 4096 = b mod 4096 →
  PX 2 a = PX 2 b → PX 1 a = PX 1 b → PX 0 a = PX 0 b → a = b.
Proof.
  intros Ha Hb Hm H2 H1 H0. rewrite (PX_decompose a Ha), (PX_decompose b Hb). congruence.
Qed.

(** ** Symbols of the kernel image

    Addresses fixed by the linker script [kernel/kernel.ld] and by the
    assembly files: the end of the kernel image, the end of its text, and the
    trampoline page with the two entry points in it.  They are parameters of
    the model; [LinkOk] is what the script guarantees about them. *)
Class Link := {
  kend : Z;        (* [end]: first address after the kernel *)
  etext : Z;
  trampoline : Z;
  uservec : Z;
  userret : Z;
  kernelvec : Z;
  forkret_addr : Z;
  usertrap_addr : Z;
  sched_ra : Z;    (* where [swtch] in [sched] returns to *)
}.

Class LinkOk `{Link} := {
  kend_range : KERNBASE < kend < PHYSTOP;
  etext_range : KERNBASE < etext ≤ kend;
  etext_aligned : etext mod PGSIZE = 0;
  trampoline_range : KERNBASE ≤ trampoline < etext;
  trampoline_aligned : trampoline mod PGSIZE = 0;
  sched_ra_other : sched_ra ≠ forkret_addr;
}.

(** Distinct pages do not overlap. *)
Lemma page_disjoint p q :
  p mod 4096 = 0 → q mod 4096 = 0 → p ≠ q → p + 4096 ≤ q ∨ q + 4096 ≤ p.
Proof. intros. zlia. Qed.

(** A kernel image that leaves sixteen pages of memory, for examples. *)
Definition ex_link : Link := {|
  kend := PHYSTOP - 16 * 4096; etext := KERNBASE + 8 * 4096; trampoline := KERNBASE + 7 * 4096;
  uservec := KERNBASE + 7 * 4096; userret := KERNBASE + 7 * 4096 + 0x9c; kernelvec := KERNBASE + 0x100;
  forkret_addr := KERNBASE + 0x200; usertrap_addr := KERNBASE + 0x300;
  sched_ra := KERNBASE + 0x400 |}.
Lemma ex_link_ok : @LinkOk ex_link.
Proof. split; vm_compute; intuition congruence. Qed.
