(* ===== verification/Mem.v ===== *)
(** * Physical memory

    RAM is a finite map from byte addresses to bytes; a byte that was never
    written reads as 0, and a cell is read through [u8], so that no
    well-formedness condition on the map is needed.  Words are stored little
    endian, as on RISC-V.  Everything the kernel keeps in allocated pages
    (the free list, page tables, trapframes, user pages) is read and written
    through these functions. *)

From S2P Require Import Base.
Local Open Scope Z_scope.
Local Open Scope kernel_scope.

Abbreviation mem := (gmap Z Z).

Definition ld8 (m : mem) (a : Z) : Z := u8 (default 0 (m !! a)).
Definition st8 (m : mem) (a v : Z) : mem := <[a := u8 v]> m.

(** [n]-byte little-endian loads and stores. *)
Fixpoint ldle (m : mem) (a : Z) (n : nat) : Z :=
  match n with
  | O => 0
  | S n => ld8 m a + 256 * ldle m (a + 1) n
  end.

Fixpoint stle (m : mem) (a : Z) (n : nat) (v : Z) : mem :=
  match n with
  | O => m
  | S n => stle (st8 m a v) (a + 1) n (v / 256)
  end.

Definition ld32 (m : mem) (a : Z) : Z := ldle m a 4.
Definition ld64 (m : mem) (a : Z) : Z := ldle m a 8.
Definition st32 (m : mem) (a v : Z) : mem := stle m a 4 v.
Definition st64 (m : mem) (a v : Z) : mem := stle m a 8 v.

Definition load_bytes (m : mem) (a : Z) (n : nat) : list Z := ld8 m <$> zseq a n.

Fixpoint store_bytes (m : mem) (a : Z) (l : list Z) : mem :=
  match l with
  | [] => m
  | b :: l => store_bytes (st8 m a b) (a + 1) l
  end.

(** The bytes of an [n]-byte little-endian integer, and back. *)
Fixpoint le_bytes (n : nat) (v : Z) : list Z :=
  match n with O => [] | S n => u8 v :: le_bytes n (v / 256) end.
Fixpoint le_val (l : list Z) : Z :=
  match l with [] => 0 | b :: l => u8 b + 256 * le_val l end.

(** Two memories agree on a set of addresses. *)
Definition agree_on (P : Z → Prop) (m m' : mem) : Prop := ∀ a, P a → ld8 m a = ld8 m' a.

(** ** Lemmas *)
Lemma ld8_bound m a : 0 ≤ ld8 m a < 256.
Proof. apply u8_bound. Qed.

Lemma ld8_st8_eq m a v : ld8 (st8 m a v) a = u8 v.
Proof. unfold ld8, st8. rewrite lookup_insert_eq. simpl. ilia. Qed.

Lemma ld8_st8_ne m a b v : a ≠ b → ld8 (st8 m a v) b = ld8 m b.
Proof. intros. unfold ld8, st8. by rewrite lookup_insert_ne. Qed.

Lemma ld8_stle_out m a n v b :
  ¬ (a ≤ b < a + Z.of_nat n) → ld8 (stle m a n v) b = ld8 m b.
Proof.
  revert m a v. induction n as [|n IH]; intros m a v Hb; simpl; [done|].
  rewrite IH by lia. apply ld8_st8_ne. lia.
Qed.

Lemma ldle_agree m m' a n :
  (∀ b, a ≤ b < a + Z.of_nat n → ld8 m b = ld8 m' b) → ldle m a n = ldle m' a n.
Proof.
  revert a. induction n as [|n IH]; intros a H; simpl; [done|].
  rewrite (H a), IH; [done | intros; apply H; lia | lia].
Qed.

Lemma ldle_stle m a n v : ldle (stle m a n v) a n = v mod 256 ^ Z.of_nat n.
Proof.
  revert m a v. induction n as [|n IH]; intros m a v; simpl ldle; simpl stle.
  - by rewrite Z.mod_1_r.
  - rewrite IH, ld8_stle_out, ld8_st8_eq by lia.
    rewrite Nat2Z.inj_succ, Z.pow_succ_r by lia.
    rewrite Z.rem_mul_r by (try apply Z.pow_nonzero; lia). done.
Qed.

Lemma ldle_stle_out m a n v b k :
  (b + Z.of_nat k ≤ a ∨ a + Z.of_nat n ≤ b) → ldle (stle m a n v) b k = ldle m b k.
Proof. intros H. apply ldle_agree. intros c Hc. apply ld8_stle_out. lia. Qed.

Lemma ldle_bound m a n : 0 ≤ ldle m a n < 256 ^ Z.of_nat n.
Proof.
  revert a. induction n as [|n IH]; intros a; simpl ldle; [simpl; lia|].
  rewrite Nat2Z.inj_succ, Z.pow_succ_r by lia.
  pose proof (ld8_bound m a). specialize (IH (a + 1)). lia.
Qed.

Lemma ld64_bound m a : 0 ≤ ld64 m a < 2 ^ 64.
Proof. exact (ldle_bound m a 8). Qed.

Lemma ld64_st64_eq m a v : ld64 (st64 m a v) a = u64 v.
Proof. exact (ldle_stle m a 8 v). Qed.

Lemma ld64_st64_ne m a b v :
  (b + 8 ≤ a ∨ a + 8 ≤ b) → ld64 (st64 m a v) b = ld64 m b.
Proof. intros. apply ldle_stle_out. simpl. lia. Qed.

Lemma ld8_st64_ne m a b v : ¬ (a ≤ b < a + 8) → ld8 (st64 m a v) b = ld8 m b.
Proof. intros. apply ld8_stle_out. simpl. lia. Qed.

Lemma ld64_empty a : ld64 ∅ a = 0.
Proof.
  assert (H : ∀ n a, ldle ∅ a n = 0).
  { induction n as [|n IH]; intros b; simpl; [done|]. rewrite IH. unfold ld8. by rewrite lookup_empty. }
  apply H.
Qed.

Lemma ld64_agree m m' a :
  (∀ b, a ≤ b < a + 8 → ld8 m b = ld8 m' b) → ld64 m a = ld64 m' a.
Proof. intros. apply ldle_agree. simpl. auto. Qed.

Lemma ld32_agree m m' a :
  (∀ b, a ≤ b < a + 4 → ld8 m b = ld8 m' b) → ld32 m a = ld32 m' a.
Proof. intros. apply ldle_agree. simpl. auto. Qed.

Lemma ld32_st32_eq m a v : ld32 (st32 m a v) a = u32 v.
Proof. exact (ldle_stle m a 4 v). Qed.

Lemma ld8_st32_ne m a b v : ¬ (a ≤ b < a + 4) → ld8 (st32 m a v) b = ld8 m b.
Proof. intros. apply ld8_stle_out. simpl. lia. Qed.

Lemma ld32_bound m a : 0 ≤ ld32 m a < 2 ^ 32.
Proof. exact (ldle_bound m a 4). Qed.

Lemma ld8_store_bytes_out m a l b :
  ¬ (a ≤ b < a + Z.of_nat (length l)) → ld8 (store_bytes m a l) b = ld8 m b.
Proof.
  revert m a. induction l as [|x l IH]; intros m a Hb; simpl in *; [done|].
  rewrite IH by lia. apply ld8_st8_ne. lia.
Qed.

Lemma ld8_store_bytes_in m a l i x :
  l !! i = Some x → ld8 (store_bytes m a l) (a + Z.of_nat i) = u8 x.
Proof.
  revert m a i. induction l as [|y l IH]; intros m a [|i] Hi; simplify_eq/=.
  - rewrite ld8_store_bytes_out, Z.add_0_r by lia. apply ld8_st8_eq.
  - replace (a + Z.of_nat (S i)) with (a + 1 + Z.of_nat i) by lia. eauto.
Qed.

Lemma load_bytes_length m a n : length (load_bytes m a n) = n.
Proof. unfold load_bytes. by rewrite length_fmap, zseq_length. Qed.

Lemma load_bytes_lookup m a n i :
  (i < n)%nat → load_bytes m a n !! i = Some (ld8 m (a + Z.of_nat i)).
Proof. intros. unfold load_bytes. by rewrite list_lookup_fmap, zseq_lookup. Qed.

Lemma load_bytes_agree m m' a n :
  (∀ b, a ≤ b < a + Z.of_nat n → ld8 m b = ld8 m' b) →
  load_bytes m a n = load_bytes m' a n.
Proof.
  intros H. apply list_eq_same_length with n; rewrite ?load_bytes_length; try done.
  intros i x y Hi. rewrite !load_bytes_lookup by done. intros [= <-] [= <-].
  apply H. lia.
Qed.

Lemma load_bytes_app m a n k :
  load_bytes m a (n + k) = load_bytes m a n ++ load_bytes m (a + Z.of_nat n) k.
Proof. unfold load_bytes. by rewrite zseq_app, fmap_app. Qed.

Lemma load_store_bytes m a l :
  load_bytes (store_bytes m a l) a (length l) = u8 <$> l.
Proof.
  apply list_eq. intros i. rewrite list_lookup_fmap.
  destruct (l !! i) as [x|] eqn:E; simpl.
  - rewrite load_bytes_lookup by eauto using lookup_lt_Some.
    by erewrite ld8_store_bytes_in.
  - apply lookup_ge_None_2. rewrite load_bytes_length. by apply lookup_ge_None.
Qed.

Lemma le_bytes_length n v : length (le_bytes n v) = n.
Proof. revert v. induction n; intros; simpl; auto. Qed.

Lemma le_val_bytes n v : le_val (le_bytes n v) = v mod 256 ^ Z.of_nat n.
Proof.
  revert v. induction n as [|n IH]; intros v; simpl le_bytes; simpl le_val.
  - by rewrite Z.mod_1_r.
  - rewrite IH, Nat2Z.inj_succ, Z.pow_succ_r by lia.
    rewrite Z.rem_mul_r by (try apply Z.pow_nonzero; lia).
    unfold u8. rewrite Z.mod_mod by lia. done.
Qed.

Lemma le_val_load m a n : le_val (load_bytes m a n) = ldle m a n.
Proof.
  unfold load_bytes. revert a. induction n as [|n IH]; intros a; simpl; [done|].
  rewrite IH. f_equal. apply u8_small, ld8_bound.
Qed.

Lemma stle_store_bytes m a n v : stle m a n v = store_bytes m a (le_bytes n v).
Proof.
  revert m a v. induction n as [|n IH]; intros; simpl; [done|].
  rewrite IH. f_equal. unfold st8. f_equal. unfold u8. by rewrite Z.mod_mod.
Qed.

(** Words are used through the lemmas above. *)
#[global] Opaque ld32 ld64 st32 st64.
