(* ===== verification/Kstring.v ===== *)
(** * The kernel's string routines ([kernel/string.c])

    Each routine works on RAM and returns the new RAM (and a value where the
    C function returns one).  Pointers are addresses; a loop that counts
    [n] down is a recursion on [n].  [strlen], whose loop has no bound, takes
    fuel and returns [None] when no NUL was found within it. *)

From S2P Require Import Base Mem.
Local Open Scope Z_scope.
Local Open Scope kernel_scope.

(** [for(i = 0; i < n; i++) cdst[i] = c;] *)
Fixpoint memset_loop (m : mem) (p c : Z) (n : nat) : mem :=
  match n with
  | O => m
  | S n => memset_loop (st8 m p c) (p + 1) c n
  end.
Definition memset (m : mem) (dst c n : Z) : mem := memset_loop m dst c (Z.to_nat (u32 n)).

Fixpoint memcmp_loop (m : mem) (s1 s2 : Z) (n : nat) : Z :=
  match n with
  | O => 0
  | S n =>
      if negb (ld8 m s1 =? ld8 m s2) then ld8 m s1 - ld8 m s2
      else memcmp_loop m (s1 + 1) (s2 + 1) n
  end.
Definition memcmp (m : mem) (v1 v2 n : Z) : Z := memcmp_loop m v1 v2 (Z.to_nat (u32 n)).

(** The loop that copies from the end downwards. *)
Fixpoint move_down (m : mem) (d s : Z) (n : nat) : mem :=
  match n with
  | O => m
  | S n => move_down (st8 m (d - 1) (ld8 m (s - 1))) (d - 1) (s - 1) n
  end.
(** The loop that copies upwards. *)
Fixpoint move_up (m : mem) (d s : Z) (n : nat) : mem :=
  match n with
  | O => m
  | S n => move_up (st8 m d (ld8 m s)) (d + 1) (s + 1) n
  end.
Definition memmove (m : mem) (dst src n : Z) : mem :=
  let n := u32 n in
  if n =? 0 then m
  else if (src <? dst) && (src + n >? dst)
  then move_down m (dst + n) (src + n) (Z.to_nat n)
  else move_up m dst src (Z.to_nat n).

Definition memcpy (m : mem) (dst src n : Z) : mem := memmove m dst src n.

Fixpoint strncmp_loop (m : mem) (p q : Z) (n : nat) : Z :=
  match n with
  | O => 0
  | S n' =>
      if nonzero (ld8 m p) && (ld8 m p =? ld8 m q)
      then strncmp_loop m (p + 1) (q + 1) n'
      else ld8 m p - ld8 m q
  end.
Definition strncmp (m : mem) (p q n : Z) : Z := strncmp_loop m p q (Z.to_nat (u32 n)).

(** The second loop of [strncpy]: zero the rest of the buffer. *)
Fixpoint strncpy_pad (m : mem) (s : Z) (n : nat) : mem :=
  match n with
  | O => m
  | S n => strncpy_pad (st8 m s 0) (s + 1) n
  end.
Fixpoint strncpy_loop (m : mem) (s t : Z) (n : nat) : mem :=
  match n with
  | O => m
  | S n =>
      let c := ld8 m t in
      let m := st8 m s c in
      if nonzero c then strncpy_loop m (s + 1) (t + 1) n
      else strncpy_pad m (s + 1) n
  end.
Definition strncpy (m : mem) (s t n : Z) : mem := strncpy_loop m s t (Z.to_nat n).

(** The copy loop of [safestrcpy]: the memory and where [s] ends up;
    [n] counts the remaining tests of [--n > 0] that succeed. *)
Fixpoint safestrcpy_loop (m : mem) (s t : Z) (n : nat) : mem * Z :=
  match n with
  | O => (m, s)
  | S n =>
      let c := ld8 m t in
      let m := st8 m s c in
      if nonzero c then safestrcpy_loop m (s + 1) (t + 1) n else (m, s + 1)
  end.
Definition safestrcpy (m : mem) (s t n : Z) : mem :=
  if n <=? 0 then m
  else let '(m, s) := safestrcpy_loop m s t (Z.to_nat (n - 1)) in st8 m s 0.

Fixpoint strlen_loop (m : mem) (s n : Z) (fuel : nat) : option Z :=
  match fuel with
  | O => None
  | S fuel => if nonzero (ld8 m (s + n)) then strlen_loop m s (n + 1) fuel else Some n
  end.
Definition strlen (m : mem) (s : Z) (fuel : nat) : option Z := strlen_loop m s 0 fuel.

(** ** The C string in a buffer: the bytes before the first NUL *)
Fixpoint cstr (l : list Z) : list Z :=
  match l with
  | [] => []
  | b :: l => if nonzero b then b :: cstr l else []
  end.

(** [l] cut or zero-padded to [n] bytes. *)
Fixpoint zpad (n : nat) (l : list Z) : list Z :=
  match n, l with
  | O, _ => []
  | S n, [] => 0 :: zpad n []
  | S n, b :: l => b :: zpad n l
  end.

Lemma zpad_length n l : length (zpad n l) = n.
Proof. revert l. induction n; intros []; simpl; auto. Qed.

Lemma cstr_length l : (length (cstr l) ≤ length l)%nat.
Proof. induction l as [|b l IH]; simpl; [lia|]. case_if; simpl; lia. Qed.

(** ** Functional specifications *)
Lemma ld8_memset_loop m p c n a :
  ld8 (memset_loop m p c n) a =
    if decide (p ≤ a < p + Z.of_nat n) then u8 c else ld8 m a.
Proof.
  revert m p. induction n as [|n IH]; intros m p; simpl.
  - rewrite decide_False by lia. done.
  - rewrite IH. destruct (decide (a = p)) as [->|Ha].
    + rewrite decide_False, decide_True by lia. apply ld8_st8_eq.
    + rewrite ld8_st8_ne by done. repeat case_decide; lia || done.
Qed.

Lemma ld8_memset m dst c n a :
  0 ≤ n < 2 ^ 32 →
  ld8 (memset m dst c n) a = if decide (dst ≤ a < dst + n) then u8 c else ld8 m a.
Proof.
  intros. unfold memset. rewrite u32_small, ld8_memset_loop, Z2Nat.id by lia. done.
Qed.

Lemma ld8_move_up m d s n a :
  ¬ (s < d < s + Z.of_nat n) →
  ld8 (move_up m d s n) a =
    if decide (d ≤ a < d + Z.of_nat n) then ld8 m (s + (a - d)) else ld8 m a.
Proof.
  revert m d s. induction n as [|n IH]; intros m d s Hov; simpl.
  - rewrite decide_False by lia. done.
  - rewrite IH by lia. destruct (decide (a = d)) as [->|Ha].
    + rewrite decide_False, decide_True, ld8_st8_eq by lia.
      rewrite Z.sub_diag, Z.add_0_r. apply u8_small, ld8_bound.
    + repeat case_decide; try lia.
      * rewrite ld8_st8_ne by lia. f_equal. lia.
      * by rewrite ld8_st8_ne by lia.
Qed.

Lemma ld8_move_down m d s n a :
  s < d →
  ld8 (move_down m d s n) a =
    if decide (d - Z.of_nat n ≤ a < d) then ld8 m (s + (a - d)) else ld8 m a.
Proof.
  revert m d s. induction n as [|n IH]; intros m d s Hsd; simpl.
  - rewrite decide_False by lia. done.
  - rewrite IH by lia. destruct (decide (a = d - 1)) as [->|Ha].
    + rewrite decide_False, decide_True, ld8_st8_eq by lia.
      replace (s + (d - 1 - d)) with (s - 1) by lia. apply u8_small, ld8_bound.
    + repeat case_decide; try lia.
      * rewrite ld8_st8_ne by lia. f_equal. lia.
      * by rewrite ld8_st8_ne by lia.
Qed.

Lemma ld8_memmove m dst src n a :
  0 ≤ n < 2 ^ 32 →
  ld8 (memmove m dst src n) a =
    if decide (dst ≤ a < dst + n) then ld8 m (src + (a - dst)) else ld8 m a.
Proof.
  intros Hn. unfold memmove. rewrite u32_small by done.
  destruct (n =? 0) eqn:E; [|destruct ((src <? dst) && _) eqn:E2]; bool_to_prop.
  - rewrite decide_False by lia. done.
  - rewrite ld8_move_down, Z2Nat.id by lia.
    replace (dst + n - n) with dst by lia. case_decide; [|done]. f_equal. lia.
  - apply andb_false_iff in E2. rewrite Z.gtb_ltb, !Z.ltb_ge in E2.
    rewrite ld8_move_up, Z2Nat.id by lia. done.
Qed.

(** [memmove] copies the block that was at [src], also when the two ranges
    overlap: [load_bytes] form. *)
Lemma load_bytes_memmove m dst src n :
  0 ≤ n < 2 ^ 32 →
  load_bytes (memmove m dst src n) dst (Z.to_nat n) = load_bytes m src (Z.to_nat n).
Proof.
  intros Hn. apply list_eq_same_length with (Z.to_nat n); rewrite ?load_bytes_length; try done.
  intros i x y Hi. rewrite !load_bytes_lookup by done. intros [= <-] [= <-].
  rewrite ld8_memmove, decide_True by lia. f_equal. lia.
Qed.

Lemma memcmp_loop_zero m s1 s2 n :
  memcmp_loop m s1 s2 n = 0 ↔ load_bytes m s1 n = load_bytes m s2 n.
Proof.
  unfold load_bytes. revert s1 s2. induction n as [|n IH]; intros s1 s2; simpl; [done|].
  destruct (ld8 m s1 =? ld8 m s2) eqn:E; bool_to_prop; simpl.
  - rewrite IH, E. split; [intros H; by f_equal | by intros [= H]].
  - split; [lia | intros [= ?]; done].
Qed.

Lemma strncmp_loop_zero m p q n :
  strncmp_loop m p q n = 0 ↔ cstr (load_bytes m p n) = cstr (load_bytes m q n).
Proof.
  unfold load_bytes, nonzero. revert p q. induction n as [|n IH]; intros p q; simpl; [done|].
  unfold nonzero. destruct (ld8 m p =? 0) eqn:Ep, (ld8 m q =? 0) eqn:Eq;
    destruct (ld8 m p =? ld8 m q) eqn:E; bool_to_prop; simpl;
    try (rewrite IH, E; split; [intros H; by f_equal | by intros [= H]]);
    try (split; [intros; exfalso; lia | intros [=]; exfalso; lia]); try lia.
  split; [done | lia].
Qed.

(** The sign of [memcmp] and [strncmp] is that of the first difference. *)
Lemma strncmp_loop_range m p q n : -255 ≤ strncmp_loop m p q n ≤ 255.
Proof.
  revert p q. induction n as [|n IH]; intros p q; simpl; [lia|].
  case_if; [apply IH|]. pose proof (ld8_bound m p). pose proof (ld8_bound m q). lia.
Qed.

Lemma ld8_strncpy_pad m s n a :
  ld8 (strncpy_pad m s n) a = if decide (s ≤ a < s + Z.of_nat n) then 0 else ld8 m a.
Proof.
  revert m s. induction n as [|n IH]; intros m s; simpl.
  - rewrite decide_False by lia. done.
  - rewrite IH. destruct (decide (a = s)) as [->|Ha].
    + rewrite decide_False, decide_True, ld8_st8_eq by lia. done.
    + rewrite ld8_st8_ne by done. repeat case_decide; lia || done.
Qed.

Lemma ld8_strncpy_loop_out m s t n a :
  ¬ (s ≤ a < s + Z.of_nat n) → ld8 (strncpy_loop m s t n) a = ld8 m a.
Proof.
  revert m s t. induction n as [|n IH]; intros m s t Ha; simpl; [done|].
  case_if; [rewrite IH by lia | rewrite ld8_strncpy_pad, decide_False by lia];
    apply ld8_st8_ne; lia.
Qed.

Lemma load_bytes_cons m a n : load_bytes m a (S n) = ld8 m a :: load_bytes m (a + 1) n.
Proof. done. Qed.

Lemma load_bytes_pad m s n : load_bytes (strncpy_pad m s n) s n = zpad n [].
Proof.
  revert m s. induction n as [|n IH]; intros m s; [done|].
  rewrite load_bytes_cons. simpl strncpy_pad. simpl zpad. rewrite IH. f_equal.
  rewrite ld8_strncpy_pad, decide_False, ld8_st8_eq by lia. done.
Qed.

Lemma load_bytes_strncpy_loop m s t n :
  (s + Z.of_nat n ≤ t ∨ t + Z.of_nat n ≤ s) →
  load_bytes (strncpy_loop m s t n) s n = zpad n (cstr (load_bytes m t n)).
Proof.
  revert m s t. induction n as [|n IH]; intros m s t Hd; [done|].
  rewrite !load_bytes_cons. simpl strncpy_loop. simpl cstr.
  pose proof (ld8_bound m t) as Hb.
  destruct (nonzero (ld8 m t)) eqn:E; simpl zpad.
  - rewrite ld8_strncpy_loop_out, ld8_st8_eq, u8_small, IH by lia. do 3 f_equal.
    apply load_bytes_agree. intros b Hb'. apply ld8_st8_ne. lia.
  - rewrite ld8_strncpy_pad, decide_False, ld8_st8_eq, load_bytes_pad by lia.
    unfold nonzero in E. bool_to_prop. by rewrite E.
Qed.

Lemma strlen_loop_spec m s n k fuel :
  (k < fuel)%nat → (∀ i, 0 ≤ i < Z.of_nat k → ld8 m (s + n + i) ≠ 0) →
  ld8 m (s + n + Z.of_nat k) = 0 →
  strlen_loop m s n fuel = Some (n + Z.of_nat k).
Proof.
  revert n k. induction fuel as [|fuel IH]; intros n k Hk Hnz Hz; [lia|]. simpl.
  destruct k as [|k]; simpl in Hz; unfold nonzero.
  - rewrite Z.add_0_r in Hz. rewrite Hz. simpl. f_equal. lia.
  - destruct (ld8 m (s + n) =? 0) eqn:E; bool_to_prop.
    + destruct (Hnz 0); [lia|]. by rewrite Z.add_0_r.
    + simpl. rewrite (IH _ k); [f_equal; lia | lia | |].
      * intros i Hi. replace (s + (n + 1) + i) with (s + n + (i + 1)) by lia. apply Hnz. lia.
      * replace (s + (n + 1) + Z.of_nat k) with (s + n + Z.of_nat (S k)) by lia. done.
Qed.

(** ** [safestrcpy] always leaves a NUL-terminated string *)
Lemma safestrcpy_loop_out m s t n a :
  ¬ (s ≤ a < s + Z.of_nat n) → ld8 (safestrcpy_loop m s t n).1 a = ld8 m a.
Proof.
  revert m s t. induction n as [|n IH]; intros m s t Ha; simpl; [done|].
  case_if; simpl; [rewrite IH by lia|]; apply ld8_st8_ne; lia.
Qed.

Lemma safestrcpy_loop_end m s t n :
  s ≤ (safestrcpy_loop m s t n).2 ≤ s + Z.of_nat n.
Proof.
  revert m s t. induction n as [|n IH]; intros m s t; simpl; [lia|].
  case_if; simpl; [|lia]. specialize (IH (st8 m s (ld8 m t)) (s + 1) (t + 1)). lia.
Qed.

Lemma safestrcpy_loop_str m s t n :
  (s + Z.of_nat n ≤ t ∨ t + Z.of_nat n ≤ s) →
  let '(m', e) := safestrcpy_loop m s t n in
  cstr (load_bytes (st8 m' e 0) s (S n)) = cstr (load_bytes m t n).
Proof.
  revert m s t. induction n as [|n IH]; intros m s t Hd.
  - simpl. by rewrite ld8_st8_eq.
  - rewrite (load_bytes_cons m t). simpl safestrcpy_loop. simpl (cstr (ld8 m t :: _)).
    pose proof (ld8_bound m t) as Hb.
    destruct (nonzero (ld8 m t)) eqn:E.
    + specialize (IH (st8 m s (ld8 m t)) (s + 1) (t + 1) ltac:(lia)).
      pose proof (safestrcpy_loop_end (st8 m s (ld8 m t)) (s + 1) (t + 1) n) as He.
      pose proof (safestrcpy_loop_out (st8 m s (ld8 m t)) (s + 1) (t + 1) n s ltac:(lia)) as Hs.
      destruct (safestrcpy_loop _ _ _ _) as [m' e]. simpl in He, Hs.
      rewrite load_bytes_cons, ld8_st8_ne, Hs, ld8_st8_eq, u8_small by lia.
      cbn [cstr]. rewrite E. f_equal. rewrite IH. f_equal.
      apply load_bytes_agree. intros b Hb'. apply ld8_st8_ne. lia.
    + rewrite load_bytes_cons, ld8_st8_ne, ld8_st8_eq, u8_small by lia. simpl. by rewrite E.
Qed.

(** ** The same functions on buffers given as lists of bytes

    Reading past the end of a list reads NUL. *)
Fixpoint strncmp_bytes (s t : list Z) (n : nat) : Z :=
  match n with
  | O => 0
  | S n =>
      let c := default 0 (head s) in
      let d := default 0 (head t) in
      if nonzero c && (c =? d) then strncmp_bytes (tail s) (tail t) n else c - d
  end.

Lemma strncmp_bytes_load m p q n :
  strncmp_loop m p q n = strncmp_bytes (load_bytes m p n) (load_bytes m q n) n.
Proof.
  revert p q. induction n as [|n IH]; intros p q; [done|].
  rewrite !load_bytes_cons. cbn [strncmp_loop strncmp_bytes head tail]. rewrite IH. done.
Qed.

Lemma strncmp_bytes_zero s t n :
  Forall (λ c, 0 ≤ c < 256) s → Forall (λ c, 0 ≤ c < 256) t →
  strncmp_bytes s t n = 0 ↔ cstr (take n s) = cstr (take n t).
Proof.
  revert s t. induction n as [|n IH]; intros s t Hs Ht; [done|].
  destruct s as [|c s], t as [|d t]; cbn [strncmp_bytes take cstr head tail default];
    try (apply Forall_cons in Hs as [Hc Hs]); try (apply Forall_cons in Ht as [Hd Ht]); unfold nonzero in *.
  - done.
  - simpl. destruct (d =? 0) eqn:E; bool_to_prop; simpl; split; try done; lia.
  - simpl. destruct (c =? 0) eqn:E; bool_to_prop; simpl; split; try done; lia.
  - unfold id.
    destruct (c =? 0) eqn:E1, (d =? 0) eqn:E2, (c =? d) eqn:E3; cbn [negb andb]; bool_to_prop; subst;
      rewrite ?IH by done; split; try done; try lia; congruence.
Qed.

(** Memory is used through the lemmas above. *)
#[global] Opaque memset memmove.
