(* ===== verification/Spinlock.v ===== *)
(** * Spin locks ([kernel/spinlock.c]) and interrupt masking

    Two views of the same code.

    - [Hart] is the code as it runs on a hart: the [sstatus] register, the
      per-CPU [noff]/[intena] counters, and a lock's [locked] word and [cpu]
      field.  [Interleave] runs it on any number of harts, one atomic memory
      operation at a time, and proves mutual exclusion.
    - [lock_acquire]/[lock_release] is what the other components use: a lock
      is a flag, taking a lock one already holds is a panic.
      [acquire_flag] and [release_flag] justify it.

    Harts and locks are numbered by [nat]; [mycpu()] is the hart's entry of
    [cpus]. *)

From S2P Require Import Base Riscv.
From stdpp Require Import functions.
Local Open Scope Z_scope.
Local Open Scope kernel_scope.

(** ** The data *)

(** The fields of [struct cpu] this file uses, with the hart's [sstatus]. *)
Record cpu := Cpu { noff : Z; intena : Z; sstatus : Z }.

(** [struct spinlock]: [lkcpu] is the CPU holding the lock. *)
Record spinlock := Spinlock { locked : Z; lkname : string; lkcpu : option nat }.

Record hw := Hw { cpus : nat → cpu; locks : nat → spinlock }.

Definition set_cpu (h : nat) (c : cpu) (s : hw) : hw := Hw (<[h := c]> (cpus s)) (locks s).
Definition set_lock (l : nat) (k : spinlock) (s : hw) : hw := Hw (cpus s) (<[l := k]> (locks s)).

(** ** kernel/riscv.h: the interrupt-enable bit *)
Definition intr_get (c : cpu) : bool := nonzero (Z.land (sstatus c) SSTATUS_SIE).
Definition intr_on (c : cpu) : cpu := Cpu (noff c) (intena c) (Z.lor (sstatus c) SSTATUS_SIE).
Definition intr_off (c : cpu) : cpu :=
  Cpu (noff c) (intena c) (Z.land (sstatus c) (Z.lnot SSTATUS_SIE)).

(** ** push_off and pop_off *)
Definition push_off_cpu (c : cpu) : cpu :=
  let old := if intr_get c then 1 else 0 in
  let c := intr_off c in
  let c := if noff c =? 0 then Cpu (noff c) old (sstatus c) else c in
  Cpu (i32 (noff c + 1)) (intena c) (sstatus c).

Definition push_off (h : nat) : M hw unit :=
  modify (λ s, set_cpu h (push_off_cpu (cpus s h)) s).

Definition pop_off (h : nat) : M hw unit :=
  c ← gets (λ s, cpus s h);
  if intr_get c then panic "pop_off - interruptible" else
  if noff c <? 1 then panic "pop_off" else
  let c := Cpu (noff c - 1) (intena c) (sstatus c) in
  let c := if (noff c =? 0) && nonzero (intena c) then intr_on c else c in
  modify (set_cpu h c).

(** ** Locks *)
Definition initlock (l : nat) (name : string) : M hw unit :=
  modify (set_lock l (Spinlock 0 name None)).

Definition holding (h l : nat) (s : hw) : bool :=
  nonzero (locked (locks s l)) && bool_decide (lkcpu (locks s l) = Some h).

(** The parts of [acquire] and [release] that touch the lock, one memory
    operation each. *)
Definition acquire_enter (h l : nat) : M hw unit :=
  push_off h ;;
  b ← gets (holding h l);
  if b then panic "acquire" else ret tt.

(** [__sync_lock_test_and_set(&lk->locked, 1)]: returns the old value. *)
Definition test_and_set (l : nat) : M hw Z := λ s,
  let k := locks s l in
  Ok (locked k) (set_lock l (Spinlock 1 (lkname k) (lkcpu k)) s).

Definition set_owner (l : nat) (o : option nat) : M hw unit :=
  modify (λ s, let k := locks s l in set_lock l (Spinlock (locked k) (lkname k) o) s).

(** [__sync_lock_release(&lk->locked)] *)
Definition sync_lock_release (l : nat) : M hw unit :=
  modify (λ s, let k := locks s l in set_lock l (Spinlock 0 (lkname k) (lkcpu k)) s).

(** [acquire] with no other hart running: a lock that is taken stays taken, so
    the spin loop then never ends. *)
Definition acquire (h l : nat) : M hw unit :=
  acquire_enter h l ;;
  old ← test_and_set l;
  if nonzero old then diverge else set_owner l (Some h).

Definition release (h l : nat) : M hw unit :=
  b ← gets (holding h l);
  if negb b then panic "release" else
  set_owner l None ;;
  sync_lock_release l ;;
  pop_off h.

(** ** The interrupt-enable bit *)
Lemma intr_get_bit c : intr_get c = Z.testbit (sstatus c) 1.
Proof.
  unfold intr_get, nonzero. change SSTATUS_SIE with (2 ^ 1).
  rewrite <- Z.shiftl_1_l.
  destruct (Z.testbit (sstatus c) 1) eqn:E.
  - destruct (Z.land _ _ =? 0) eqn:E2; [|done]. apply Z.eqb_eq in E2.
    assert (Z.testbit (Z.land (sstatus c) (Z.shiftl 1 1)) 1 = false) as H by by rewrite E2.
    rewrite Z.land_spec, E in H. done.
  - assert (Z.land (sstatus c) (Z.shiftl 1 1) = 0) as ->; [|done].
    apply Z.bits_inj'. intros i Hi. rewrite Z.land_spec, Z.bits_0.
    destruct (decide (i = 1)) as [->|]; [by rewrite E|].
    change (Z.shiftl 1 1) with (2 ^ 1). rewrite Z.pow2_bits_false by lia.
    apply andb_false_r.
Qed.

Lemma intr_get_off c : intr_get (intr_off c) = false.
Proof.
  rewrite intr_get_bit. unfold intr_off. cbn [sstatus].
  by rewrite Z.land_spec, Z.lnot_spec, andb_false_r by lia.
Qed.

Lemma intr_get_on c : intr_get (intr_on c) = true.
Proof.
  rewrite intr_get_bit. unfold intr_on. cbn [sstatus]. by rewrite Z.lor_spec, orb_true_r.
Qed.

Lemma push_off_masks c : intr_get (push_off_cpu c) = false.
Proof. unfold push_off_cpu. pose proof (intr_get_off c). by case_if. Qed.

(** ** Matched push_off/pop_off pairs

    [nest h n] runs [n] times [push_off], then [n] times [pop_off]. *)
Fixpoint nest (h : nat) (n : nat) : M hw unit :=
  match n with
  | O => ret tt
  | S n => push_off h ;; nest h n ;; pop_off h
  end.

(** What a matched section may leave behind: everything as before, except
    that [intena] is scratch when no section is active. *)
Definition same_masking (c c' : cpu) : Prop :=
  noff c' = noff c ∧ intr_get c' = intr_get c ∧ (noff c ≠ 0 → intena c' = intena c).

(** [noff] counts active sections, and interrupts are off inside one. *)
Definition cpu_ok (c : cpu) : Prop :=
  0 ≤ noff c < 2 ^ 31 - 1 ∧ (noff c ≠ 0 → intr_get c = false).

Lemma push_off_noff c : 0 ≤ noff c < 2 ^ 31 - 1 → noff (push_off_cpu c) = noff c + 1.
Proof. intros. unfold push_off_cpu. case_if; simpl; apply i32_small; lia. Qed.

Lemma push_off_intena c :
  intena (push_off_cpu c) =
    if noff c =? 0 then (if intr_get c then 1 else 0) else intena c.
Proof. unfold push_off_cpu. simpl. by case_if. Qed.

Lemma pop_off_ok h s :
  intr_get (cpus s h) = false → 1 ≤ noff (cpus s h) →
  let c := cpus s h in
  pop_off h s = Ok tt (set_cpu h
    (let c := Cpu (noff c - 1) (intena c) (sstatus c) in
     if (noff c =? 0) && nonzero (intena c) then intr_on c else c) s).
Proof.
  intros Hi Hn. unfold pop_off. mred. rewrite Hi.
  destruct (noff (cpus s h) <? 1) eqn:E; bool_to_prop; [lia|]. done.
Qed.

(** A [push_off]/[pop_off] pair around code that ends with the masking state
    it started from restores the masking state. *)
Lemma push_pop_same c c' :
  cpu_ok c → same_masking (push_off_cpu c) c' →
  intr_get c' = false ∧ 1 ≤ noff c' ∧
  same_masking c
    (let d := Cpu (noff c' - 1) (intena c') (sstatus c') in
     if (noff d =? 0) && nonzero (intena d) then intr_on d else d).
Proof.
  intros [Hn Hoff] (Hn' & Hi' & Ha'). rewrite push_off_masks in Hi'.
  rewrite push_off_noff in * by lia. rewrite push_off_intena in Ha'.
  specialize (Ha' ltac:(lia)). split; [done|]. split; [lia|].
  cbn [noff intena]. rewrite Hn'. replace (noff c + 1 - 1) with (noff c) by lia.
  destruct (noff c =? 0) eqn:E; bool_to_prop.
  - rewrite Ha'. destruct (intr_get c) eqn:Ei; simpl.
    + split; [simpl; lia|]. split; [|lia]. by rewrite intr_get_on.
    + split; [simpl; lia|]. split; [|lia]. rewrite Ei. exact Hi'.
  - simpl. split; [simpl; lia|]. split; [|done]. rewrite (Hoff ltac:(lia)). exact Hi'.
Qed.

Lemma cpus_set_cpu h c s : cpus (set_cpu h c s) h = c.
Proof. simpl. by rewrite fn_lookup_insert. Qed.

Lemma nest_same h n s :
  noff (cpus s h) + Z.of_nat n < 2 ^ 31 - 1 → cpu_ok (cpus s h) →
  ∃ s', nest h n s = Ok tt s' ∧ same_masking (cpus s h) (cpus s' h) ∧ locks s' = locks s.
Proof.
  revert s. induction n as [|n IH]; intros s Hn Hok.
  - exists s. split; [done|]. split; [|done]. done.
  - destruct Hok as [Hn0 Hoff].
    destruct (IH (set_cpu h (push_off_cpu (cpus s h)) s)) as (s' & E & Hs & Hl).
    + rewrite cpus_set_cpu, push_off_noff by lia. lia.
    + rewrite cpus_set_cpu. split; [rewrite push_off_noff by lia; lia|].
      intros _. apply push_off_masks.
    + rewrite cpus_set_cpu in Hs.
      destruct (push_pop_same (cpus s h) (cpus s' h) (conj Hn0 Hoff) Hs) as (Hi & H1 & H2).
      simpl nest. eexists. split.
      * rewrite (bind_ok _ _ s tt (set_cpu h (push_off_cpu (cpus s h)) s)) by done.
        rewrite (bind_ok _ _ _ _ _ E). by apply pop_off_ok.
      * rewrite cpus_set_cpu. done.
Qed.

(** ** Interleaved execution on several harts

    A hart is outside the lock code, or at one of the points between two
    memory operations of [acquire]/[release].  [held] records the critical
    sections a hart is in: entered when [acquire] returns, left when [release]
    starts to give the lock up. *)
Inductive pc := Running | Spinning (l : nat) | Swapped (l : nat) | Releasing (l : nat).

Record machine := Machine { hwst : hw; pcs : nat → pc; held : nat → list nat }.

(** The nesting depth the [int] counter [noff] can count. *)
Definition depth_ok (h : nat) (s : hw) : Prop := noff (cpus s h) < 2 ^ 31 - 2.

Inductive step : machine → machine → Prop :=
| St_push h s s' p g :
    p h = Running → depth_ok h s → push_off h s = Ok tt s' →
    step (Machine s p g) (Machine s' p g)
| St_pop h s s' p g :
    p h = Running → Z.of_nat (length (g h)) < noff (cpus s h) → pop_off h s = Ok tt s' →
    step (Machine s p g) (Machine s' p g)
| St_acquire h l s s' p g :
    p h = Running → depth_ok h s → acquire_enter h l s = Ok tt s' →
    step (Machine s p g) (Machine s' (<[h := Spinning l]> p) g)
| St_spin h l old s s' p g :
    p h = Spinning l → test_and_set l s = Ok old s' → old ≠ 0 →
    step (Machine s p g) (Machine s' p g)
| St_win h l old s s' p g :
    p h = Spinning l → test_and_set l s = Ok old s' → old = 0 →
    step (Machine s p g) (Machine s' (<[h := Swapped l]> p) g)
| St_owner h l s s' p g :
    p h = Swapped l → set_owner l (Some h) s = Ok tt s' →
    step (Machine s p g) (Machine s' (<[h := Running]> p) (<[h := l :: g h]> g))
| St_release h l s s' p g :
    p h = Running → holding h l s = true → set_owner l None s = Ok tt s' →
    step (Machine s p g)
      (Machine s' (<[h := Releasing l]> p) (<[h := filter (λ x, x ≠ l) (g h)]> g))
| St_free h l s s' p g :
    p h = Releasing l → (sync_lock_release l ;; pop_off h) s = Ok tt s' →
    step (Machine s p g) (Machine s' (<[h := Running]> p) g).

(** All locks initialised and free, no section active. *)
Definition machine_init (m : machine) : Prop :=
  (∀ l, locked (locks (hwst m) l) = 0 ∧ lkcpu (locks (hwst m) l) = None) ∧
  ∀ h, pcs m h = Running ∧ held m h = [] ∧ noff (cpus (hwst m) h) = 0.

Definition reachable (m : machine) : Prop := ∃ m0, machine_init m0 ∧ rtc step m0 m.

(** Between the swap that took [l] and the store that releases it. *)
Definition in_transit (m : machine) (h l : nat) : Prop :=
  pcs m h = Swapped l ∨ pcs m h = Releasing l.

(** [h] owns [l]: it won the lock and has not yet released it. *)
Definition owns (m : machine) (h l : nat) : Prop := l ∈ held m h ∨ in_transit m h l.

Definition pending (p : pc) : Z := match p with Running => 0 | _ => 1 end.

Record lock_inv (m : machine) : Prop := {
  li_held : ∀ h l, l ∈ held m h ↔ lkcpu (locks (hwst m) l) = Some h;
  li_locked : ∀ h l, l ∈ held m h → locked (locks (hwst m) l) ≠ 0;
  li_transit : ∀ h l, in_transit m h l →
    locked (locks (hwst m) l) ≠ 0 ∧ lkcpu (locks (hwst m) l) = None;
  li_unique : ∀ h h' l, in_transit m h l → in_transit m h' l → h = h';
  li_noff : ∀ h, Z.of_nat (length (held m h)) + pending (pcs m h) ≤ noff (cpus (hwst m) h);
  li_cpu : ∀ h, cpu_ok (cpus (hwst m) h);
}.

Lemma lock_inv_init m : machine_init m → lock_inv m.
Proof.
  intros [Hl Hh]. split.
  - intros h l. destruct (Hh h) as (_ & -> & _), (Hl l) as [_ ->]. set_solver.
  - intros h l. destruct (Hh h) as (_ & -> & _). set_solver.
  - intros h l [E|E]; destruct (Hh h) as [E' _]; congruence.
  - intros h h' l [E|E]; destruct (Hh h) as [E' _]; congruence.
  - intros h. destruct (Hh h) as (-> & -> & ->). simpl. lia.
  - intros h. unfold cpu_ok. destruct (Hh h) as (_ & _ & ->). lia.
Qed.

(** Case analysis on updates of functions on harts and locks. *)
Ltac fn_cases :=
  unfold insert, fn_insert in *; repeat (case_decide; subst); simpl in *.

(** A hart that is not in the middle of taking or giving up a lock moves to
    another such point, and changes its masking state. *)
Lemma lock_inv_cpu s p p' g h c :
  lock_inv (Machine s p g) →
  (∀ h', h' ≠ h → p' h' = p h') →
  (∀ l, p' h ≠ Swapped l ∧ p' h ≠ Releasing l) →
  cpu_ok c → Z.of_nat (length (g h)) + pending (p' h) ≤ noff c →
  lock_inv (Machine (set_cpu h c s) p' g).
Proof.
  intros [] Hp Hq Hc Hn.
  assert (∀ h' l, in_transit (Machine (set_cpu h c s) p' g) h' l →
    in_transit (Machine s p g) h' l) as Ht.
  { intros h' l H. unfold in_transit in *. simpl in *. destruct (Hq l).
    destruct (decide (h' = h)) as [->|]; [naive_solver|]. by rewrite <- !Hp. }
  split; try done; eauto; intros h'; simpl; fn_cases; auto. rewrite Hp by done. auto.
Qed.

Lemma push_off_cpu_ok c : cpu_ok c → noff c < 2 ^ 31 - 2 → cpu_ok (push_off_cpu c).
Proof.
  intros [? ?] ?. split; [rewrite push_off_noff; lia|]. intros _. apply push_off_masks.
Qed.

(** What [pop_off] does when it returns. *)
Lemma pop_off_inv h s s' :
  pop_off h s = Ok tt s' → cpu_ok (cpus s h) →
  ∃ c, s' = set_cpu h c s ∧ cpu_ok c ∧ noff c = noff (cpus s h) - 1.
Proof.
  unfold pop_off. mred. intros E [Hn Hi].
  destruct (intr_get _) eqn:Ei; [done|]. destruct (noff _ <? 1) eqn:En; [done|].
  bool_to_prop. injection E as <-. eexists. split; [done|]. cbn [noff intena].
  destruct ((noff (cpus s h) - 1 =? 0) && _) eqn:E; bool_to_prop; unfold cpu_ok; simpl.
  - split; lia.
  - split; [|done]. split; [lia|]. intros _. exact Ei.
Qed.

(** Nobody owns a lock whose word is 0. *)
Lemma lock_inv_free m l :
  lock_inv m → locked (locks (hwst m) l) = 0 →
  lkcpu (locks (hwst m) l) = None ∧ ∀ h, ¬ in_transit m h l.
Proof.
  intros [I1 I2 I3 _ _ _] H0. split.
  - destruct (lkcpu _) as [h|] eqn:E; [|done]. exfalso. apply (I2 h l); [by apply I1 | done].
  - intros h Ht. by destruct (I3 h l Ht).
Qed.

Lemma lock_inv_win s p g h l :
  lock_inv (Machine s p g) → p h = Spinning l → locked (locks s l) = 0 →
  lock_inv (Machine (set_lock l (Spinlock 1 (lkname (locks s l)) (lkcpu (locks s l))) s)
    (<[h := Swapped l]> p) g).
Proof.
  intros Inv Hp H0. destruct (lock_inv_free _ l Inv H0) as [HN HT].
  destruct Inv as [I1 I2 I3 I4 I5 I6]. unfold in_transit in *. simpl in *.
  split; unfold in_transit; simpl.
  - intros h' l'. rewrite I1. fn_cases; done.
  - intros h' l' Hin. fn_cases; [done | by eapply I2].
  - intros h' l' Ht. fn_cases; try naive_solver.
  - intros h1 h2 l' H1 H2. fn_cases; try naive_solver.
  - intros h'. specialize (I5 h'). fn_cases; [|done]. rewrite Hp in I5. done.
  - done.
Qed.

Lemma lock_inv_owner s p g h l :
  lock_inv (Machine s p g) → p h = Swapped l →
  lock_inv (Machine (set_lock l (Spinlock (locked (locks s l)) (lkname (locks s l)) (Some h)) s)
    (<[h := Running]> p) (<[h := l :: g h]> g)).
Proof.
  intros [I1 I2 I3 I4 I5 I6] Hp. unfold in_transit in *. simpl in *.
  destruct (I3 h l (or_introl Hp)) as [HL HN]. split; unfold in_transit; simpl.
  - intros h' l'. specialize (I1 h' l'). fn_cases; rewrite ?elem_of_cons, ?I1, ?HN; naive_solver.
  - intros h' l' Hin. fn_cases; eauto. rewrite elem_of_cons in Hin. naive_solver.
  - intros h' l' Ht. fn_cases; naive_solver.
  - intros h1 h2 l' H1 H2. fn_cases; naive_solver.
  - intros h'. specialize (I5 h'). fn_cases; [|done]. rewrite Hp in I5. simpl in I5. lia.
  - done.
Qed.

Lemma filter_neq_length (l : nat) k :
  l ∈ k → (length (filter (λ x, x ≠ l) k) < length k)%nat.
Proof.
  induction k as [|x k IH]; [set_solver|]. intros Hin. rewrite filter_cons.
  pose proof (length_filter (λ x, x ≠ l) k). case_decide; simpl; [|lia].
  rewrite elem_of_cons in Hin. destruct Hin as [?|Hin]; [congruence|]. specialize (IH Hin). lia.
Qed.

Lemma lock_inv_release s p g h l :
  lock_inv (Machine s p g) → p h = Running → lkcpu (locks s l) = Some h →
  lock_inv (Machine (set_lock l (Spinlock (locked (locks s l)) (lkname (locks s l)) None) s)
    (<[h := Releasing l]> p) (<[h := filter (λ x, x ≠ l) (g h)]> g)).
Proof.
  intros [I1 I2 I3 I4 I5 I6] Hp Hl. unfold in_transit in *. simpl in *.
  assert (l ∈ g h) as Hin by by apply I1.
  split; unfold in_transit; simpl.
  - intros h' l'. specialize (I1 h' l'). fn_cases; rewrite ?list_elem_of_filter, ?I1, ?Hl; naive_solver.
  - intros h' l'. fn_cases; rewrite ?list_elem_of_filter; naive_solver.
  - intros h' l' Ht. fn_cases; naive_solver.
  - intros h1 h2 l' H1 H2. fn_cases; naive_solver.
  - intros h'. specialize (I5 h'). fn_cases; [|done].
    pose proof (filter_neq_length l (g h') Hin). rewrite Hp in I5. simpl in *. lia.
  - done.
Qed.

Lemma lock_inv_freed s p g h l :
  lock_inv (Machine s p g) → p h = Releasing l →
  lock_inv (Machine (set_lock l (Spinlock 0 (lkname (locks s l)) (lkcpu (locks s l))) s)
    (<[h := Spinning l]> p) g).
Proof.
  intros [I1 I2 I3 I4 I5 I6] Hp. unfold in_transit in *. simpl in *.
  destruct (I3 h l (or_intror Hp)) as [HL HN]. split; unfold in_transit; simpl.
  - intros h' l'. rewrite I1. fn_cases; done.
  - intros h' l' Hin. fn_cases; [|by eapply I2]. apply I1 in Hin. congruence.
  - intros h' l' Ht. fn_cases; naive_solver.
  - intros h1 h2 l' H1 H2. fn_cases; naive_solver.
  - intros h'. specialize (I5 h'). fn_cases; [|done]. rewrite Hp in I5. done.
  - done.
Qed.

Lemma lock_inv_spin s p g l :
  lock_inv (Machine s p g) → locked (locks s l) ≠ 0 →
  lock_inv (Machine (set_lock l (Spinlock 1 (lkname (locks s l)) (lkcpu (locks s l))) s) p g).
Proof.
  intros [I1 I2 I3 I4 I5 I6] HL. unfold in_transit in *. simpl in *.
  split; unfold in_transit; simpl; try done.
  - intros h' l'. rewrite I1. fn_cases; done.
  - intros h' l' Hin. fn_cases; [done | by eapply I2].
  - intros h' l' Ht. fn_cases; naive_solver.
Qed.

Lemma lock_inv_step m m' : lock_inv m → step m m' → lock_inv m'.
Proof.
  intros Inv Hs. destruct Hs as
    [h s s' p g Hp Hd E | h s s' p g Hp Hd E | h l s s' p g Hp Hd E
    |h l old s s' p g Hp E Ho | h l old s s' p g Hp E Ho
    |h l s s' p g Hp E | h l s s' p g Hp Hh E | h l s s' p g Hp E];
    pose proof (li_cpu _ Inv h) as Hc; pose proof (li_noff _ Inv h) as Hn;
    unfold depth_ok in *; simpl in *; rewrite Hp in Hn; simpl in Hn.
  - (* push_off *)
    injection E as <-. destruct Hc as [? ?].
    eapply lock_inv_cpu; [done | done | by rewrite Hp | by apply push_off_cpu_ok |].
    rewrite push_off_noff, Hp; simpl; lia.
  - (* pop_off *)
    destruct (pop_off_inv _ _ _ E Hc) as (c & -> & Hc' & Hn').
    eapply lock_inv_cpu; [done | done | by rewrite Hp | done |]. rewrite Hn', Hp. simpl. lia.
  - (* acquire: push_off and the test of holding *)
    revert E. unfold acquire_enter. intros ([] & s1 & E1 & E)%bind_inv.
    injection E1 as <-. mred_in E. destruct (holding _ _ _); [done|]. injection E as <-.
    eapply lock_inv_cpu; [done | | | by apply push_off_cpu_ok |].
    + intros h' Hh. by rewrite fn_lookup_insert_ne.
    + intros l'. by rewrite fn_lookup_insert.
    + rewrite fn_lookup_insert, push_off_noff by (destruct Hc; lia). simpl. lia.
  - injection E as <- <-. by apply lock_inv_spin.
  - injection E as <- <-. by apply lock_inv_win.
  - injection E as <-. by apply lock_inv_owner.
  - injection E as <-. unfold holding in Hh. bool_to_prop. by apply lock_inv_release.
  - (* release: clear the word, then pop_off *)
    apply bind_inv in E as ([] & s1 & E1 & E). injection E1 as <-.
    destruct (pop_off_inv _ _ _ E Hc) as (c & -> & Hc' & Hn').
    eapply lock_inv_cpu; [by apply lock_inv_freed | | | done |].
    + intros h' Hh. by rewrite !fn_lookup_insert_ne.
    + intros l'. by rewrite fn_lookup_insert.
    + rewrite Hn', fn_lookup_insert. simpl. lia.
Qed.

Lemma lock_inv_reachable m : reachable m → lock_inv m.
Proof.
  intros (m0 & H0 & Hs). apply lock_inv_init in H0.
  induction Hs; eauto using lock_inv_step.
Qed.

(** The hart that owns a lock is determined. *)
Lemma owns_unique m h h' l : lock_inv m → owns m h l → owns m h' l → h = h'.
Proof.
  intros [I1 I2 I3 I4 _ _] [H|H] [H'|H']; eauto.
  - apply I1 in H, H'. congruence.
  - apply I1 in H. apply I3 in H' as [_ H']. congruence.
  - apply I1 in H'. apply I3 in H as [_ H]. congruence.
Qed.

Lemma holding_exact m h l :
  lock_inv m → holding h l (hwst m) = true ↔ l ∈ held m h.
Proof.
  intros [I1 I2 _ _ _ _]. unfold holding, nonzero.
  rewrite andb_true_iff, negb_true_iff, Z.eqb_neq, bool_decide_eq_true, I1.
  split; [tauto|]. intros H. split; [|done]. apply (I2 h l). by apply I1.
Qed.

(** A hart in a critical section has its interrupts off. *)
Lemma held_noff m h l : lock_inv m → l ∈ held m h → 1 ≤ noff (cpus (hwst m) h).
Proof.
  intros Inv Hin. pose proof (li_noff _ Inv h) as Hn.
  assert (0 < length (held m h))%nat by (destruct (held m h); [set_solver | simpl; lia]).
  destruct (pcs m h); simpl in Hn; lia.
Qed.

Lemma held_masked m h l : lock_inv m → l ∈ held m h → intr_get (cpus (hwst m) h) = false.
Proof.
  intros Inv Hin. pose proof (held_noff m h l Inv Hin).
  destruct (li_cpu _ Inv h) as [_ Hi]. apply Hi. lia.
Qed.

Lemma acquire_held h l s : holding h l s = true → acquire h l s = Panic "acquire".
Proof.
  intros Hh. unfold acquire, acquire_enter. mred.
  assert (holding h l (set_cpu h (push_off_cpu (cpus s h)) s) = true) as -> by done. done.
Qed.

(** A hart that holds a lock can release it: neither [release] nor the
    [pop_off] in it panics. *)
Lemma release_returns m h l :
  lock_inv m → l ∈ held m h →
  ∃ s', release h l (hwst m) = Ok tt s' ∧ locked (locks s' l) = 0 ∧
    ∀ l', l' ≠ l → locks s' l' = locks (hwst m) l'.
Proof.
  intros Inv Hin. pose proof (proj2 (holding_exact m h l Inv) Hin) as Hh.
  unfold release. rewrite (bind_ok _ _ _ true (hwst m)) by (unfold gets; by rewrite Hh).
  simpl. eexists.
  rewrite (bind_ok (set_owner l None) _ _ _ _ eq_refl).
  rewrite (bind_ok (sync_lock_release l) _ _ _ _ eq_refl). split_and!.
  - apply pop_off_ok; [by eapply (held_masked m h l)|by eapply (held_noff m h l)].
  - simpl. by rewrite fn_lookup_insert.
  - intros l' Hl. simpl. by rewrite !fn_lookup_insert_ne.
Qed.

(** ** Locks as the other components see them

    One CPU runs, so a lock is free or held by the running code: it is a flag
    of the component's state, reached through its getter and setter. *)
Definition lock_acquire {S} (get : S → bool) (set : bool → S → S) : M S unit := λ s,
  if get s then Panic "acquire" else Ok tt (set true s).

Definition lock_release {S} (get : S → bool) (set : bool → S → S) : M S unit := λ s,
  if get s then Ok tt (set false s) else Panic "release".

(** The flag [b] describes lock [l] as hart [h] sees it. *)
Definition lock_flag (h l : nat) (s : hw) (b : bool) : Prop :=
  locked (locks s l) = (if b then 1 else 0) ∧
  lkcpu (locks s l) = (if b then Some h else None).

(** Same outcome for a call on the flag and on the lock: both return, with
    the flag still describing the lock and all other locks unchanged, or
    both panic with the same message. *)
Definition same_outcome (h l : nat) (s : hw) (r : res bool unit) (r' : res hw unit) : Prop :=
  match r, r' with
  | Ok _ b, Ok _ s' =>
      lock_flag h l s' b ∧ ∀ l', l' ≠ l → locks s' l' = locks s l'
  | Panic m, Panic m' => m = m'
  | _, _ => False
  end.

Lemma acquire_flag h l s b :
  lock_flag h l s b →
  same_outcome h l s (lock_acquire id (λ b _, b) b) (acquire h l s).
Proof.
  intros [HL HC]. unfold acquire, acquire_enter, lock_acquire, holding, nonzero.
  mred. rewrite HL, HC. destruct b; simpl.
  - rewrite bool_decide_true by done. done.
  - unfold set_owner, set_lock. mred. unfold same_outcome, lock_flag. simpl.
    rewrite HL. simpl. split; [by fn_cases|]. intros l' Hl. by fn_cases.
Qed.

Lemma release_flag h l s b :
  lock_flag h l s b → cpu_ok (cpus s h) → (b = true → 1 ≤ noff (cpus s h)) →
  same_outcome h l s (lock_release id (λ b _, b) b) (release h l s).
Proof.
  intros [HL HC] [Hn Hi] Hb. unfold release, lock_release.
  assert (holding h l s = b) as Hh.
  { unfold holding, nonzero. rewrite HL, HC.
    destruct b; [by rewrite bool_decide_true | done]. }
  mred. rewrite Hh. destruct b; simpl; [|done].
  erewrite pop_off_ok; [|apply Hi; simpl; specialize (Hb eq_refl); lia | by apply Hb].
  unfold same_outcome, lock_flag. simpl. split; [by fn_cases|]. intros l' Hl. by fn_cases.
Qed.

(** C3: Mutual exclusion, on any number of harts and for every interleaving
    of the memory operations of [acquire] and [release]: a lock has at most
    one owner; [holding] answers exactly for the hart that is in the critical
    section; interrupts are off there; taking a lock again panics instead of
    spinning for ever; and the holder can always give the lock up, which
    leaves it free. *)
Theorem mutual_exclusion m :
  reachable m →
  (∀ h h' l, owns m h l → owns m h' l → h = h') ∧
  (∀ h l, holding h l (hwst m) = true ↔ l ∈ held m h) ∧
  ∀ h l, l ∈ held m h →
    intr_get (cpus (hwst m) h) = false ∧
    acquire h l (hwst m) = Panic "acquire" ∧
    ∃ s', release h l (hwst m) = Ok tt s' ∧ locked (locks s' l) = 0 ∧
      ∀ l', l' ≠ l → locks s' l' = locks (hwst m) l'.
Proof.
  intros Inv%lock_inv_reachable.
  split; [intros; by eapply owns_unique|]. split; [intros; by apply holding_exact|].
  intros h l Hin. split_and!.
  - by eapply held_masked.
  - apply acquire_held. by apply holding_exact.
  - by apply release_returns.
Qed.

(** Two harts: hart 0 is inside lock 5, hart 1 spins on it. *)
Definition ex_cpu0 : cpu := Cpu 0 0 2.
Definition ex_hw0 : hw := Hw (λ _, ex_cpu0) (λ _, Spinlock 0 "lock" None).
Definition ex_machine0 : machine := Machine ex_hw0 (λ _, Running) (λ _, []).

Definition ex_taken : res hw unit :=
  (acquire_enter 0 5 ;; (_ ← test_and_set 5; set_owner 5 (Some 0%nat)) ;; acquire_enter 1 5) ex_hw0.
Definition ex_machine : machine :=
  match ex_taken with
  | Ok _ s => Machine s (<[1%nat := Spinning 5]> (<[0%nat := Running]> (<[0%nat := Swapped 5]>
      (<[0%nat := Spinning 5]> (λ _, Running))))) (<[0%nat := [5%nat]]> (λ _, []))
  | _ => ex_machine0
  end.

Lemma ex_machine_reachable : reachable ex_machine.
Proof.
  exists ex_machine0. split; [by repeat split|].
  eapply rtc_l; [by apply (St_acquire 0 5); [|vm_compute|]|].
  eapply rtc_l; [by eapply (St_win 0 5)|].
  eapply rtc_l; [by apply (St_owner 0 5)|].
  eapply rtc_l; [by apply (St_acquire 1 5); [|vm_compute|]|].
  apply rtc_refl.
Qed.

Lemma mutual_exclusion_witness :
  reachable ex_machine ∧ holding 0 5 (hwst ex_machine) = true ∧
  intr_get (cpus (hwst ex_machine) 0) = false ∧ ¬ owns ex_machine 1 5.
Proof.
  split; [apply ex_machine_reachable|].
  destruct (mutual_exclusion ex_machine ex_machine_reachable) as (Hu & Hh & Hi).
  assert (5%nat ∈ held ex_machine 0) as Hin by (by left).
  split; [by apply Hh|]. split; [exact (proj1 (Hi 0%nat 5%nat Hin))|].
  intros Ho. specialize (Hu 0%nat 1%nat 5%nat (or_introl Hin) Ho). discriminate Hu.
Defined.

(** The two views of a lock agree.  On one CPU [acquire] and [release] on
    the lock's words behave as the flag the other components use: both return
    and the flag still describes the lock, or both panic with the same
    message; no other lock changes. *)
Theorem locks_are_flags h l s b :
  lock_flag h l s b → cpu_ok (cpus s h) → (b = true → 1 ≤ noff (cpus s h)) →
  same_outcome h l s (lock_acquire id (λ b _, b) b) (acquire h l s) ∧
  same_outcome h l s (lock_release id (λ b _, b) b) (release h l s).
Proof. intros Hf Hc Hb. split; [by apply acquire_flag|by apply release_flag]. Qed.

Lemma locks_are_flags_witness :
  same_outcome 0 5 ex_hw0 (lock_acquire id (λ b _, b) false) (acquire 0 5 ex_hw0) ∧
  release 0 5 ex_hw0 = Panic "release".
Proof.
  assert (lock_flag 0 5 ex_hw0 false) as Hf by done.
  destruct (locks_are_flags 0 5 ex_hw0 false Hf) as [Ha Hr].
  - split; [vm_compute; done|]. by intros [].
  - done.
  - split; [exact Ha|reflexivity].
Defined.
