(* ===== verification/Kalloc.v ===== *)
(** * The physical page allocator ([kernel/kalloc.c])

    The free list is threaded through the free pages themselves: the first
    eight bytes of a free page hold the address of the next one.  The state
    is RAM, the [kmem.freelist] pointer and the [kmem.lock] flag.  [free_list]
    relates a state to the list of free pages; every operation is specified
    against that list. *)

From S2P Require Import Base Riscv Mem Kstring Spinlock.
Local Open Scope Z_scope.
Local Open Scope kernel_scope.

Record kmem := Kmem { ram : mem; kmem_lock : bool; freelist : Z }.

Definition set_ram (m : mem) (s : kmem) : kmem := Kmem m (kmem_lock s) (freelist s).
Definition set_kmem_lock (b : bool) (s : kmem) : kmem := Kmem (ram s) b (freelist s).
Definition set_freelist (p : Z) (s : kmem) : kmem := Kmem (ram s) (kmem_lock s) p.

Lemma set_ram_set_ram m m' s : set_ram m (set_ram m' s) = set_ram m s.
Proof. done. Qed.
Lemma ram_set_ram m s : ram (set_ram m s) = m.
Proof. done. Qed.

Definition acquire_kmem : M kmem unit := lock_acquire kmem_lock set_kmem_lock.
Definition release_kmem : M kmem unit := lock_release kmem_lock set_kmem_lock.

(** Memory operations as kernel code. *)
Definition kread64 (a : Z) : M kmem Z := gets (λ s, ld64 (ram s) a).
Definition kwrite64 (a v : Z) : M kmem unit := modify (λ s, set_ram (st64 (ram s) a v) s).
Definition kmemset (dst c n : Z) : M kmem unit := modify (λ s, set_ram (memset (ram s) dst c n) s).
Definition kmemmove (dst src n : Z) : M kmem unit :=
  modify (λ s, set_ram (memmove (ram s) dst src n) s).

Lemma bind_kread64 {B} a (f : Z → M kmem B) s : bind (kread64 a) f s = f (ld64 (ram s) a) s.
Proof. done. Qed.
Lemma bind_kwrite64 {B} a v (f : unit → M kmem B) s :
  bind (kwrite64 a v) f s = f tt (set_ram (st64 (ram s) a v) s).
Proof. done. Qed.
Lemma bind_kmemset {B} p c n (f : unit → M kmem B) s :
  bind (kmemset p c n) f s = f tt (set_ram (memset (ram s) p c n) s).
Proof. done. Qed.
Lemma bind_kmemmove {B} d p n (f : unit → M kmem B) s :
  bind (kmemmove d p n) f s = f tt (set_ram (memmove (ram s) d p n) s).
Proof. done. Qed.
#[export] Hint Rewrite @bind_kread64 @bind_kwrite64 @bind_kmemset @bind_kmemmove : krun.

Section kalloc.
  Context {LK : Link}.

Definition kfree (pa : Z) : M kmem unit :=
  if negb (pa mod PGSIZE =? 0) || (pa <? kend) || (pa >=? PHYSTOP) then panic "kfree" else
  kmemset pa 1 PGSIZE ;;
  acquire_kmem ;;
  next ← gets freelist;
  kwrite64 pa next ;;
  modify (set_freelist pa) ;;
  release_kmem.

Definition kalloc : M kmem Z :=
  acquire_kmem ;;
  r ← gets freelist;
  (if nonzero r then next ← kread64 r; modify (set_freelist next) else ret tt) ;;
  release_kmem ;;
  (if nonzero r then kmemset r 5 PGSIZE else ret tt) ;;
  ret r.

(** [for(; p + PGSIZE <= pa_end; p += PGSIZE) kfree(p);] *)
Fixpoint freerange_loop (fuel : nat) (p pa_end : Z) : M kmem unit :=
  match fuel with
  | O => diverge
  | S fuel =>
      if p + PGSIZE <=? pa_end
      then kfree p ;; freerange_loop fuel (p + PGSIZE) pa_end
      else ret tt
  end.

Definition freerange (pa_start pa_end : Z) : M kmem unit :=
  let p := PGROUNDUP pa_start in
  freerange_loop (S (Z.to_nat ((pa_end - p) / PGSIZE))) p pa_end.

Definition kinit : M kmem unit :=
  modify (set_kmem_lock false) ;;
  freerange kend PHYSTOP.

(** The number of pages of RAM; a list of distinct pages is not longer. *)
Definition NPAGES : Z := (PHYSTOP - KERNBASE) / PGSIZE.

Fixpoint getfreemem_loop (fuel : nat) (r bytes : Z) : M kmem Z :=
  match fuel with
  | O => diverge
  | S fuel =>
      if nonzero r
      then let bytes := u64 (bytes + PGSIZE) in
           next ← kread64 r; getfreemem_loop fuel next bytes
      else ret bytes
  end.

Definition getfreemem : M kmem Z :=
  acquire_kmem ;;
  r ← gets freelist;
  bytes ← getfreemem_loop (S (Z.to_nat NPAGES)) r 0;
  release_kmem ;;
  ret bytes.

(** ** The free pages *)
Definition page_ok (p : Z) : Prop := p mod 4096 = 0 ∧ kend ≤ p < PHYSTOP.

(** [flist m p l]: the chain starting at [p] visits exactly the pages [l]. *)
Fixpoint flist (m : mem) (p : Z) (l : list Z) : Prop :=
  match l with
  | [] => p = 0
  | x :: l => p = x ∧ flist m (ld64 m x) l
  end.

Record free_list (s : kmem) (l : list Z) : Prop := {
  fl_chain : flist (ram s) (freelist s) l;
  fl_nodup : NoDup l;
  fl_pages : Forall page_ok l;
  fl_lock : kmem_lock s = false;
}.

(** RAM is unchanged outside the page [p]. *)
Definition same_but_page (p : Z) (m m' : mem) : Prop :=
  ∀ a, ¬ (p ≤ a < p + 4096) → ld8 m' a = ld8 m a.

Context {LKO : LinkOk}.

Lemma page_ok_bound p : page_ok p → KERNBASE < p < PHYSTOP ∧ p mod 4096 = 0.
Proof. intros [? ?]. pose proof kend_range. lia. Qed.

Lemma page_ok_nonzero p : page_ok p → nonzero p = true.
Proof.
  intros Hp%page_ok_bound. unfold nonzero. destruct (p =? 0) eqn:E; [|done].
  apply Z.eqb_eq in E. unfold KERNBASE in *. lia.
Qed.

Lemma flist_agree m m' p l :
  (∀ x, x ∈ l → ld64 m' x = ld64 m x) → flist m p l → flist m' p l.
Proof.
  revert p. induction l as [|x l IH]; intros p Hm; simpl; [done|].
  intros [-> Hl]. split; [done|]. rewrite Hm by set_solver. apply IH; [|done]. set_solver.
Qed.

Lemma same_but_page_ld64 p m m' x :
  same_but_page p m m' → p mod 4096 = 0 → x mod 4096 = 0 → x ≠ p → ld64 m' x = ld64 m x.
Proof.
  intros Hm Hp Hx Hne. apply ld64_agree. intros b Hb. apply Hm.
  destruct (page_disjoint p x); lia.
Qed.

Lemma flist_same_but_page p m m' q l :
  same_but_page p m m' → p mod 4096 = 0 → p ∉ l → Forall page_ok l →
  flist m q l → flist m' q l.
Proof.
  intros Hm Hp Hin Hl. apply flist_agree. intros x Hx.
  rewrite Forall_forall in Hl. destruct (Hl x Hx) as [? _].
  apply (same_but_page_ld64 p); [done..|]. intros ->. done.
Qed.

Lemma same_but_page_trans p m1 m2 m3 :
  same_but_page p m1 m2 → same_but_page p m2 m3 → same_but_page p m1 m3.
Proof. intros H1 H2 a Ha. rewrite H2, H1; done. Qed.

Lemma same_but_page_memset p c m : same_but_page p m (memset m p c PGSIZE).
Proof.
  intros a Ha. rewrite ld8_memset by (unfold PGSIZE; lia).
  rewrite decide_False; [done|]. unfold PGSIZE. lia.
Qed.

Lemma same_but_page_st64 p i v m :
  0 ≤ i ≤ 4088 → same_but_page p m (st64 m (p + i) v).
Proof. intros Hi a Ha. apply ld8_st64_ne. lia. Qed.

(** ** kfree *)
Lemma kfree_spec s l p :
  free_list s l → page_ok p → p ∉ l →
  ∃ s', kfree p s = Ok tt s' ∧ free_list s' (p :: l) ∧ same_but_page p (ram s) (ram s').
Proof.
  intros [Hc Hd Hp Hk] Hpg Hin. pose proof Hpg as [Hal Hr].
  set (m1 := memset (ram s) p 1 PGSIZE).
  exists (Kmem (st64 m1 p (freelist s)) false p).
  assert (same_but_page p (ram s) (st64 m1 p (freelist s))) as Hsame.
  { eapply same_but_page_trans; [apply same_but_page_memset|].
    pose proof (same_but_page_st64 p 0 (freelist s) m1 ltac:(lia)) as Hs.
    by rewrite Z.add_0_r in Hs. }
  split; [|split; [split|done]].
  - unfold kfree, PGSIZE.
    destruct (negb _ || _ || _) eqn:E.
    { apply orb_true_iff in E as [[E|E]%orb_true_iff|E]; bool_to_prop; lia. }
    unfold kmemset, acquire_kmem, lock_acquire, kwrite64, release_kmem, lock_release. mred.
    rewrite Hk. done.
  - simpl. split; [done|]. rewrite ld64_st64_eq, u64_small.
    + by apply (flist_same_but_page p (ram s)).
    + destruct l as [|x l]; simpl in Hc; [lia|]. destruct Hc as [-> _].
      apply Forall_cons in Hp as [Hx%page_ok_bound _]. unfold PHYSTOP, KERNBASE in *. lia.
  - by constructor.
  - by constructor.
  - done.
Qed.

(** A page that is misaligned or outside the allocator's range is refused. *)
Lemma kfree_bad p s : ¬ page_ok p → kfree p s = Panic "kfree".
Proof.
  intros Hbad. unfold kfree. destruct (negb _ || _ || _) eqn:E; [done|].
  destruct Hbad. unfold PGSIZE in *. bool_to_prop. unfold page_ok. lia.
Qed.

(** ** kalloc *)
Lemma kalloc_some s p l :
  free_list s (p :: l) →
  kalloc s = Ok p (Kmem (memset (ram s) p 5 PGSIZE) false (ld64 (ram s) p)) ∧
  free_list (Kmem (memset (ram s) p 5 PGSIZE) false (ld64 (ram s) p)) l ∧ page_ok p ∧ p ∉ l.
Proof.
  intros [Hc Hd Hp Hk]. simpl in Hc. destruct Hc as [Hf Hc].
  apply NoDup_cons in Hd as [Hin Hd]. apply Forall_cons in Hp as [Hpg Hp].
  split; [|split; [split|]]; try done.
  - unfold kalloc, acquire_kmem, lock_acquire, release_kmem, lock_release, kread64, kmemset. mred.
    rewrite Hk. simpl. rewrite Hf, page_ok_nonzero by done. simpl. done.
  - simpl. eapply flist_same_but_page; [apply same_but_page_memset | apply Hpg | done..].
Qed.

Lemma kalloc_none s : free_list s [] → kalloc s = Ok 0 s.
Proof.
  intros [Hc Hd Hp Hk]. simpl in Hc.
  unfold kalloc, acquire_kmem, lock_acquire, release_kmem, lock_release. mred.
  rewrite Hk. simpl. rewrite Hc. simpl. destruct s; simpl in *. by subst.
Qed.

(** ** getfreemem *)
Lemma getfreemem_loop_spec fuel s r l bytes :
  flist (ram s) r l → Forall page_ok l → (length l < fuel)%nat →
  0 ≤ bytes → bytes + 4096 * Z.of_nat (length l) < 2 ^ 64 →
  getfreemem_loop fuel r bytes s = Ok (bytes + 4096 * Z.of_nat (length l)) s.
Proof.
  revert r l bytes. induction fuel as [|fuel IH]; intros r l bytes Hl Hp Hf H0 Hb; [lia|].
  destruct l as [|x l]; simpl in Hl; simpl.
  - subst. simpl. mred. f_equal. lia.
  - destruct Hl as [-> Hl]. apply Forall_cons in Hp as [Hpg Hp].
    rewrite page_ok_nonzero by done. unfold kread64. mred.
    simpl length in *. unfold PGSIZE. rewrite u64_small, (IH _ l) by (done || lia).
    f_equal. lia.
Qed.

(** Distinct pages of RAM: at most [NPAGES] of them. *)
Lemma pages_bounded l : NoDup l → Forall page_ok l → (length l ≤ Z.to_nat NPAGES)%nat.
Proof.
  intros Hd Hp. rewrite Forall_forall in Hp.
  assert (NoDup ((λ x, x / 4096) <$> l)) as Hd'.
  { apply NoDup_fmap_2_strong; [|done]. intros x y Hx Hy E.
    destruct (Hp x Hx), (Hp y Hy). zlia. }
  rewrite <- (length_fmap (λ x, x / 4096) l).
  rewrite <- (zseq_length (KERNBASE / 4096) (Z.to_nat NPAGES)).
  apply submseteq_length, NoDup_submseteq; [done|].
  intros y (x & -> & Hx)%list_elem_of_fmap.
  destruct (page_ok_bound x (Hp x Hx)) as [Hb Hm]. apply elem_of_zseq.
  unfold NPAGES, PHYSTOP, KERNBASE, PGSIZE in *. zlia.
Qed.

Lemma getfreemem_spec s l :
  free_list s l → getfreemem s = Ok (PGSIZE * Z.of_nat (length l)) s.
Proof.
  intros [Hc Hd Hp Hk]. pose proof (pages_bounded l Hd Hp) as Hlen.
  assert (NPAGES = 32768) as HN by done.
  unfold getfreemem, acquire_kmem, lock_acquire, release_kmem, lock_release, PGSIZE.
  remember (S (Z.to_nat NPAGES)) as n eqn:En. mred. rewrite Hk. cbn -[getfreemem_loop].
  rewrite (getfreemem_loop_spec _ _ _ l 0); simpl; try done; try lia.
  destruct s; simpl in *. by subst.
Qed.

(** ** Boot: kinit frees every page between the kernel and PHYSTOP *)
Definition boot_pages : list Z :=
  (λ i, PGROUNDUP kend + 4096 * i) <$>
    reverse (zseq 0 (Z.to_nat ((PHYSTOP - PGROUNDUP kend) / 4096))).

Lemma kend_round : kend ≤ PGROUNDUP kend < kend + 4096 ∧ PGROUNDUP kend mod 4096 = 0.
Proof.
  pose proof kend_range. unfold PHYSTOP, KERNBASE in *.
  destruct (PGROUNDUP_spec kend); lia.
Qed.

Lemma freerange_loop_spec n fuel s l p e :
  free_list s l → p mod 4096 = 0 → kend ≤ p → e ≤ PHYSTOP → (n < fuel)%nat →
  p + 4096 * Z.of_nat n ≤ e < p + 4096 * (Z.of_nat n + 1) →
  Forall (λ x, x < p) l →
  ∃ s', freerange_loop fuel p e s = Ok tt s' ∧
    free_list s' (((λ i, p + 4096 * i) <$> reverse (zseq 0 n)) ++ l).
Proof.
  revert fuel s l p. induction n as [|n IH]; intros fuel s l p Hl Hal Hk He Hf Hn Hlt;
    (destruct fuel as [|fuel]; [lia|]); cbn [freerange_loop]; unfold PGSIZE.
  - destruct (p + 4096 <=? e) eqn:E; bool_to_prop; [lia|]. eauto.
  - destruct (p + 4096 <=? e) eqn:E; bool_to_prop; [|lia].
    destruct (kfree_spec s l p Hl) as (s1 & E1 & Hl1 & _).
    { split; [done|]. lia. }
    { intros Hin. rewrite Forall_forall in Hlt. specialize (Hlt p Hin). lia. }
    destruct (IH fuel s1 (p :: l) (p + 4096) Hl1) as (s2 & E2 & Hl2); [zlia | lia.. | |].
    { constructor; [lia|]. eapply Forall_impl; [done|]. simpl. lia. }
    exists s2. split; [by rewrite (bind_ok _ _ _ _ _ E1)|].
    replace (_ ++ l) with (((λ i, p + 4096 + 4096 * i) <$> reverse (zseq 0 n)) ++ p :: l); [done|].
    replace (S n) with (1 + n)%nat by lia. rewrite zseq_app, reverse_app, fmap_app, <- app_assoc.
    f_equal; [|simpl; f_equal; lia].
    rewrite (fmap_reverse _ (zseq 0 n)), (fmap_reverse _ (zseq (0 + Z.of_nat 1) n)). f_equal.
    apply list_eq_same_length with n; rewrite ?length_fmap, ?zseq_length; try done.
    intros i x y Hi. rewrite !list_lookup_fmap, !zseq_lookup by lia. simpl.
    intros [= <-] [= <-]. lia.
Qed.

Lemma kinit_spec s :
  freelist s = 0 → ∃ s', kinit s = Ok tt s' ∧ free_list s' boot_pages.
Proof.
  intros Hf. pose proof kend_round as [Hr Hm]. pose proof kend_range as Hk.
  unfold kinit, freerange. mred.
  destruct (freerange_loop_spec (Z.to_nat ((PHYSTOP - PGROUNDUP kend) / 4096))
    (S (Z.to_nat ((PHYSTOP - PGROUNDUP kend) / PGSIZE)))
    (set_kmem_lock false s) [] (PGROUNDUP kend) PHYSTOP) as (s' & E & Hl);
    try done; unfold PGSIZE in *; try lia.
  - split; simpl; try done. apply NoDup_nil_2.
  - unfold PHYSTOP, KERNBASE in *. rewrite Z2Nat.id by zlia. zlia.
  - exists s'. split; [done|]. by rewrite app_nil_r in Hl.
Qed.

(** ** Theorems *)

(** [n] calls of [kalloc] in a row. *)
Fixpoint kalloc_many (n : nat) : M kmem (list Z) :=
  match n with
  | O => ret []
  | S n => p ← kalloc; l ← kalloc_many n; ret (p :: l)
  end.

(** C38: at boot [kinit] makes every page between the end of the kernel and
    [PHYSTOP] available, each once: [getfreemem] then reports exactly their
    bytes. *)
Theorem kinit_getfreemem s (Hboot : freelist s = 0) :
  ∃ s', (kinit ;; getfreemem) s =
          Ok (PGSIZE * ((PHYSTOP - PGROUNDUP kend) / PGSIZE)) s' ∧ free_list s' boot_pages.
Proof.
  destruct (kinit_spec s Hboot) as (s' & E & F). exists s'. split; [|done].
  rewrite (bind_ok _ _ _ _ _ E), (getfreemem_spec s' _ F). f_equal.
  unfold boot_pages. rewrite length_fmap, length_reverse, zseq_length. unfold PGSIZE in *.
  rewrite Z2Nat.id; [done|]. apply Z.div_pos; [|lia].
  pose proof kend_round as [? Hm]. pose proof kend_range.
  assert (PHYSTOP mod 4096 = 0) by done. unfold PHYSTOP, KERNBASE in *. zlia.
Qed.

(** Pages handed out by successive calls of [kalloc] are distinct, aligned
    and within physical memory, they are the free ones in list order, and when
    these are used up [kalloc] returns 0 and changes nothing. *)
Theorem kalloc_hands_out s l n (HF : free_list s l) :
  ∃ s', kalloc_many n s = Ok (take n l ++ replicate (n - length l) 0) s' ∧
    free_list s' (drop n l) ∧ NoDup (take n l) ∧ Forall page_ok (take n l) ∧
    ((length l ≤ n)%nat → ∀ k, kalloc_many k s' = Ok (replicate k 0) s').
Proof.
  assert (Hnil : ∀ k s, free_list s [] → kalloc_many k s = Ok (replicate k 0) s).
  { induction k as [|k IH]; intros s0 F0; simpl; [done|].
    by rewrite (bind_ok _ _ _ _ _ (kalloc_none s0 F0)), (bind_ok _ _ _ _ _ (IH s0 F0)). }
  assert (∃ s', kalloc_many n s = Ok (take n l ++ replicate (n - length l) 0) s' ∧ free_list s' (drop n l))
    as (s' & E & F').
  { clear Hnil. revert s l HF. induction n as [|n IH]; intros s l F; [by exists s|].
    destruct l as [|p l]; simpl.
    - destruct (IH s [] F) as (s' & E & F'). exists s'. rewrite (bind_ok _ _ _ _ _ (kalloc_none s F)).
      rewrite (bind_ok _ _ _ _ _ E). rewrite take_nil, drop_nil in *. simpl. by rewrite Nat.sub_0_r.
    - destruct (kalloc_some s p l F) as (E1 & F1 & _). destruct (IH _ l F1) as (s' & E & F').
      exists s'. by rewrite (bind_ok _ _ _ _ _ E1), (bind_ok _ _ _ _ _ E). }
  exists s'. destruct HF as [_ Hnd Hpg _]. split_and!; [done|done| | |].
  - rewrite <- (take_drop n l) in Hnd. by apply NoDup_app in Hnd as (? & _).
  - by apply Forall_take.
  - intros Hl k. apply Hnil. by rewrite drop_ge in F'.
Qed.

(** [kfree] accepts exactly the addresses of whole pages between the end of
    the kernel and [PHYSTOP] and panics on every other; the page it takes is
    the next one handed out, filled with junk (the byte 5) and with the rest of
    memory untouched, so that nothing of its old contents can be read. *)
Theorem kfree_kalloc s l p (HF : free_list s l) (Hp : p ∉ l) :
  (page_ok p → ∃ s', (kfree p ;; kalloc) s = Ok p s' ∧ free_list s' l ∧
     ∀ a, ld8 (ram s') a = if decide (p ≤ a < p + 4096) then 5 else ld8 (ram s) a) ∧
  (¬ page_ok p → kfree p s = Panic "kfree").
Proof.
  split; [|apply kfree_bad]. intros Hok. destruct (kfree_spec s l p HF Hok Hp) as (s1 & E1 & F1 & S1).
  destruct (kalloc_some s1 p l F1) as (E2 & F2 & _). eexists.
  rewrite (bind_ok _ _ _ _ _ E1). split_and!; [exact E2 | exact F2 |].
  intros a. cbn [ram]. rewrite ld8_memset by (unfold PGSIZE; lia). unfold PGSIZE.
  destruct (decide (p ≤ a < p + 4096)); [done|]. by apply S1.
Qed.
End kalloc.

#[local] Existing Instances ex_link ex_link_ok.

Lemma kinit_getfreemem_witness :
  ∃ s', (kinit ;; getfreemem) (Kmem ∅ false 0) = Ok 65536 s' ∧ free_list s' boot_pages.
Proof.
  assert (E : PGSIZE * ((PHYSTOP - PGROUNDUP kend) / PGSIZE) = 65536) by (vm_compute; reflexivity).
  rewrite <- E. apply (kinit_getfreemem (Kmem ∅ false 0)). reflexivity.
Defined.

(** A free list of one page. *)
Definition ex_free : kmem := Kmem ∅ false (PHYSTOP - 4096).
Lemma ex_free_list : free_list ex_free [PHYSTOP - 4096].
Proof.
  split.
  - vm_compute. intuition.
  - apply NoDup_singleton.
  - repeat constructor; vm_compute; congruence.
  - reflexivity.
Qed.

Lemma kalloc_hands_out_witness :
  ∃ s', kalloc_many 3 ex_free = Ok [PHYSTOP - 4096; 0; 0] s' ∧ free_list s' [].
Proof.
  destruct (kalloc_hands_out ex_free [PHYSTOP - 4096] 3 ex_free_list) as (s' & E & F & _).
  exists s'. split; [exact E | exact F].
Defined.

Lemma kfree_kalloc_witness :
  ∃ s', (kfree (PHYSTOP - 8192) ;; kalloc) ex_free = Ok (PHYSTOP - 8192) s' ∧
    ld8 (ram s') (PHYSTOP - 8192) = 5.
Proof.
  destruct (kfree_kalloc ex_free [PHYSTOP - 4096] (PHYSTOP - 8192) ex_free_list) as [H _].
  - rewrite list_elem_of_singleton. vm_compute. congruence.
  - destruct H as (s' & E & _ & V); [split; vm_compute; intuition congruence|].
    exists s'. split; [exact E|]. rewrite V. reflexivity.
Defined.
