(* ===== verification/Vm.v ===== *)
(** * Virtual memory ([kernel/vm.c])

    Sv39 page tables live in RAM pages from the allocator; a page-table
    pointer is the physical address of its root page, a PTE pointer the
    address of the PTE.  All functions run on the allocator's state [kmem]
    (RAM and the free list).  Null is 0; [int] results are 0 or -1 as in C.

    A kernel buffer that [copyout] reads or [copyin]/[copyinstr] fill is the
    list of its bytes: [copyin] returns the C result with the bytes it stored
    (also when it fails half way), [copyinstr] the string, or [None] where the
    C function returns -1. *)

From S2P Require Import Base Riscv Mem Kstring Spinlock Kalloc.
Local Open Scope Z_scope.
Local Open Scope kernel_scope.

Section vm.
  Context {LK : Link}.

(** [&pagetable[PX(level, va)]] *)
Definition pte_addr (pagetable level va : Z) : Z := pagetable + 8 * PX level va.

(** The loop of [walk] over the levels that are left, then the level-0 entry. *)
Fixpoint walk_loop (levels : list Z) (pagetable va : Z) (alloc : bool) : M kmem Z :=
  match levels with
  | [] => ret (pte_addr pagetable 0 va)
  | level :: levels =>
      let pte := pte_addr pagetable level va in
      e ← kread64 pte;
      if nonzero (Z.land e PTE_V) then
        walk_loop levels (PTE2PA e) va alloc
      else if negb alloc then ret 0
      else
        pagetable ← kalloc;
        if pagetable =? 0 then ret 0
        else
          kmemset pagetable 0 PGSIZE ;;
          kwrite64 pte (Z.lor (PA2PTE pagetable) PTE_V) ;;
          walk_loop levels pagetable va alloc
  end.

Definition walk (pagetable va : Z) (alloc : bool) : M kmem Z :=
  if va >=? MAXVA then panic "walk" else walk_loop [2; 1] pagetable va alloc.

Definition walkaddr (pagetable va : Z) : M kmem Z :=
  if va >=? MAXVA then ret 0 else
  pte ← walk pagetable va false;
  if pte =? 0 then ret 0 else
  e ← kread64 pte;
  if Z.land e PTE_V =? 0 then ret 0 else
  if Z.land e PTE_U =? 0 then ret 0 else
  ret (PTE2PA e).

(** One iteration of [mappages] maps the page [a] to [pa]. *)
Fixpoint mappages_loop (fuel : nat) (pagetable a last pa perm : Z) : M kmem Z :=
  match fuel with
  | O => diverge
  | S fuel =>
      pte ← walk pagetable a true;
      if pte =? 0 then ret (-1) else
      e ← kread64 pte;
      if nonzero (Z.land e PTE_V) then panic "mappages: remap" else
      kwrite64 pte (Z.lor (Z.lor (PA2PTE pa) perm) PTE_V) ;;
      if a =? last then ret 0
      else mappages_loop fuel pagetable (u64 (a + PGSIZE)) last (u64 (pa + PGSIZE)) perm
  end.

Definition mappages (pagetable va size pa perm : Z) : M kmem Z :=
  if size =? 0 then panic "mappages: size" else
  let a := PGROUNDDOWN va in
  let last := PGROUNDDOWN (u64 (va + size - 1)) in
  let top := if last <? a then MAXVA else last in
  mappages_loop (S (S (Z.to_nat ((top - a) / PGSIZE)))) pagetable a last pa perm.

Definition kvmmap (kpgtbl va pa sz perm : Z) : M kmem unit :=
  r ← mappages kpgtbl va sz pa perm;
  if negb (r =? 0) then panic "kvmmap" else ret tt.

Fixpoint uvmunmap_loop (fuel : nat) (pagetable a aend : Z) (do_free : bool) : M kmem unit :=
  match fuel with
  | O => diverge
  | S fuel =>
      if a <? aend then
        pte ← walk pagetable a false;
        if pte =? 0 then panic "uvmunmap: walk" else
        e ← kread64 pte;
        if Z.land e PTE_V =? 0 then panic "uvmunmap: not mapped" else
        if PTE_FLAGS e =? PTE_V then panic "uvmunmap: not a leaf" else
        (if do_free then kfree (PTE2PA e) else ret tt) ;;
        kwrite64 pte 0 ;;
        uvmunmap_loop fuel pagetable (u64 (a + PGSIZE)) aend do_free
      else ret tt
  end.

Definition uvmunmap (pagetable va npages : Z) (do_free : bool) : M kmem unit :=
  if negb (va mod PGSIZE =? 0) then panic "uvmunmap: not aligned" else
  uvmunmap_loop (S (Z.to_nat npages)) pagetable va (u64 (va + npages * PGSIZE)) do_free.

Definition uvmcreate : M kmem Z :=
  pagetable ← kalloc;
  if pagetable =? 0 then ret 0 else
  kmemset pagetable 0 PGSIZE ;;
  ret pagetable.

(** [src] is the program image, [sz] its size. *)
Definition uvmfirst (pagetable : Z) (src : list Z) (sz : Z) : M kmem unit :=
  if sz >=? PGSIZE then panic "uvmfirst: more than a page" else
  mem ← kalloc;
  kmemset mem 0 PGSIZE ;;
  mappages pagetable 0 PGSIZE mem (Z.lor (Z.lor (Z.lor PTE_W PTE_R) PTE_X) PTE_U) ;;
  modify (λ s, set_ram (store_bytes (ram s) mem (take (Z.to_nat sz) src)) s).

Definition uvmdealloc (pagetable oldsz newsz : Z) : M kmem Z :=
  if newsz >=? oldsz then ret oldsz else
  (if PGROUNDUP newsz <? PGROUNDUP oldsz then
     let npages := i32 ((PGROUNDUP oldsz - PGROUNDUP newsz) / PGSIZE) in
     uvmunmap pagetable (PGROUNDUP newsz) (u64 npages) true
   else ret tt) ;;
  ret newsz.

Fixpoint uvmalloc_loop (fuel : nat) (pagetable a oldsz newsz xperm : Z) : M kmem Z :=
  match fuel with
  | O => diverge
  | S fuel =>
      if a <? newsz then
        mem ← kalloc;
        if mem =? 0 then
          uvmdealloc pagetable a oldsz ;; ret 0
        else
          kmemset mem 0 PGSIZE ;;
          r ← mappages pagetable a PGSIZE mem (Z.lor (Z.lor PTE_R PTE_U) xperm);
          if negb (r =? 0) then
            kfree mem ;; uvmdealloc pagetable a oldsz ;; ret 0
          else uvmalloc_loop fuel pagetable (u64 (a + PGSIZE)) oldsz newsz xperm
      else ret newsz
  end.

Definition uvmalloc (pagetable oldsz newsz xperm : Z) : M kmem Z :=
  if newsz <? oldsz then ret oldsz else
  let oldsz := PGROUNDUP oldsz in
  uvmalloc_loop (S (S (Z.to_nat ((newsz - oldsz) / PGSIZE)))) pagetable oldsz oldsz newsz xperm.

(** Page-table pages are at most three levels deep; [fuel] is the number of
    levels left. *)
Fixpoint freewalk (fuel : nat) (pagetable : Z) : M kmem unit :=
  match fuel with
  | O => diverge
  | S fuel =>
      mfor (zseq 0 512) (λ i,
        pte ← kread64 (pagetable + 8 * i);
        if nonzero (Z.land pte PTE_V) &&
           (Z.land pte (Z.lor (Z.lor PTE_R PTE_W) PTE_X) =? 0) then
          freewalk fuel (PTE2PA pte) ;;
          kwrite64 (pagetable + 8 * i) 0
        else if nonzero (Z.land pte PTE_V) then panic "freewalk: leaf"
        else ret tt) ;;
      kfree pagetable
  end.

Definition uvmfree (pagetable sz : Z) : M kmem unit :=
  (if sz >? 0 then uvmunmap pagetable 0 (PGROUNDUP sz / PGSIZE) true else ret tt) ;;
  freewalk 3 pagetable.

Fixpoint uvmcopy_loop (fuel : nat) (old new i sz : Z) : M kmem Z :=
  match fuel with
  | O => diverge
  | S fuel =>
      if i <? sz then
        pte ← walk old i false;
        if pte =? 0 then panic "uvmcopy: pte should exist" else
        e ← kread64 pte;
        if Z.land e PTE_V =? 0 then panic "uvmcopy: page not present" else
        let pa := PTE2PA e in
        let flags := PTE_FLAGS e in
        mem ← kalloc;
        if mem =? 0 then
          uvmunmap new 0 (i / PGSIZE) true ;; ret (-1)
        else
          kmemmove mem pa PGSIZE ;;
          r ← mappages new i PGSIZE mem flags;
          if negb (r =? 0) then
            kfree mem ;; uvmunmap new 0 (i / PGSIZE) true ;; ret (-1)
          else uvmcopy_loop fuel old new (u64 (i + PGSIZE)) sz
      else ret 0
  end.

Definition uvmcopy (old new sz : Z) : M kmem Z :=
  uvmcopy_loop (S (S (Z.to_nat (sz / PGSIZE)))) old new 0 sz.

Definition uvmclear (pagetable va : Z) : M kmem unit :=
  pte ← walk pagetable va false;
  if pte =? 0 then panic "uvmclear" else
  e ← kread64 pte;
  kwrite64 pte (Z.land e (Z.lnot PTE_U)).

(** ** Copying between kernel and user space *)
Fixpoint copyout_loop (fuel : nat) (pagetable dstva : Z) (src : list Z) (len : Z) : M kmem Z :=
  match fuel with
  | O => diverge
  | S fuel =>
      if len >? 0 then
        let va0 := PGROUNDDOWN dstva in
        pa0 ← walkaddr pagetable va0;
        if pa0 =? 0 then ret (-1) else
        let n := PGSIZE - (dstva - va0) in
        let n := if n >? len then len else n in
        modify (λ s, set_ram
          (store_bytes (ram s) (pa0 + (dstva - va0)) (take (Z.to_nat n) src)) s) ;;
        copyout_loop fuel pagetable (u64 (va0 + PGSIZE)) (drop (Z.to_nat n) src) (len - n)
      else ret 0
  end.

Definition copyout (pagetable dstva : Z) (src : list Z) (len : Z) : M kmem Z :=
  copyout_loop (Z.to_nat (len / PGSIZE + 3)) pagetable dstva src len.

(** [acc] holds the bytes already copied to [dst]. *)
Fixpoint copyin_loop (fuel : nat) (pagetable srcva len : Z) (acc : list Z) :
    M kmem (Z * list Z) :=
  match fuel with
  | O => diverge
  | S fuel =>
      if len >? 0 then
        let va0 := PGROUNDDOWN srcva in
        pa0 ← walkaddr pagetable va0;
        if pa0 =? 0 then ret (-1, acc) else
        let n := PGSIZE - (srcva - va0) in
        let n := if n >? len then len else n in
        bytes ← gets (λ s, load_bytes (ram s) (pa0 + (srcva - va0)) (Z.to_nat n));
        copyin_loop fuel pagetable (u64 (va0 + PGSIZE)) (len - n) (acc ++ bytes)
      else ret (0, acc)
  end.

Definition copyin (pagetable srcva len : Z) : M kmem (Z * list Z) :=
  copyin_loop (Z.to_nat (len / PGSIZE + 3)) pagetable srcva len [].

(** The inner loop of [copyinstr] over the [n] bytes at [p] in one page: the
    bytes copied (with the NUL when it is found), and whether it was found. *)
Fixpoint copyinstr_page (m : mem) (p : Z) (n : nat) : list Z * bool :=
  match n with
  | O => ([], false)
  | S n =>
      let c := ld8 m p in
      if c =? 0 then ([0], true)
      else let '(l, b) := copyinstr_page m (p + 1) n in (c :: l, b)
  end.

Fixpoint copyinstr_loop (fuel : nat) (pagetable srcva max : Z) (acc : list Z) :
    M kmem (option (list Z)) :=
  match fuel with
  | O => diverge
  | S fuel =>
      if max >? 0 then
        let va0 := PGROUNDDOWN srcva in
        pa0 ← walkaddr pagetable va0;
        if pa0 =? 0 then ret None else
        let n := PGSIZE - (srcva - va0) in
        let n := if n >? max then max else n in
        '(l, got_null) ← gets (λ s, copyinstr_page (ram s) (pa0 + (srcva - va0)) (Z.to_nat n));
        if (got_null : bool) then ret (Some (acc ++ l))
        else copyinstr_loop fuel pagetable (u64 (va0 + PGSIZE)) (max - n) (acc ++ l)
      else ret None
  end.

Definition copyinstr (pagetable srcva max : Z) : M kmem (option (list Z)) :=
  copyinstr_loop (Z.to_nat (max / PGSIZE + 3)) pagetable srcva max [].

(** ** The kernel's own page table *)

(** [proc_mapstacks] of [kernel/proc.c]: a page for each process's kernel
    stack, mapped high in memory. *)
Definition proc_mapstacks (kpgtbl : Z) : M kmem unit :=
  mfor (zseq 0 (Z.to_nat NPROC)) (λ i,
    pa ← kalloc;
    if pa =? 0 then panic "kalloc" else
    kvmmap kpgtbl (KSTACK i) pa PGSIZE (Z.lor PTE_R PTE_W)).

Definition kvmmake : M kmem Z :=
  kpgtbl ← kalloc;
  kmemset kpgtbl 0 PGSIZE ;;
  kvmmap kpgtbl UART0 UART0 PGSIZE (Z.lor PTE_R PTE_W) ;;
  kvmmap kpgtbl VIRTIO0 VIRTIO0 PGSIZE (Z.lor PTE_R PTE_W) ;;
  kvmmap kpgtbl PLIC PLIC 0x400000 (Z.lor PTE_R PTE_W) ;;
  kvmmap kpgtbl KERNBASE KERNBASE (etext - KERNBASE) (Z.lor PTE_R PTE_X) ;;
  kvmmap kpgtbl etext etext (PHYSTOP - etext) (Z.lor PTE_R PTE_W) ;;
  kvmmap kpgtbl TRAMPOLINE trampoline PGSIZE (Z.lor PTE_R PTE_X) ;;
  proc_mapstacks kpgtbl ;;
  ret kpgtbl.
End vm.
