(* ===== verification/VmSpec.v ===== *)
(** * Page tables: representation and the walk

    [sv39] is what the MMU does with a page table: it follows the entries of
    the three levels and yields the leaf entry, 0 when a level is missing.
    All specifications of [Vm] are stated with it.

    [aspace s l root tr] is the invariant under which the kernel edits a page
    table: [l] are the free pages, [tr] maps each path of indices (from the
    root) to the page-table page found there; these pages are distinct,
    disjoint from the free pages, and each non-leaf entry either points to the
    page [tr] gives or is zero. *)

From S2P Require Import Base Riscv Mem Kstring Spinlock Kalloc Vm.
Local Open Scope Z_scope.
Local Open Scope kernel_scope.

(** ** Address translation by the hardware *)
Definition pte_valid (e : Z) : bool := nonzero (Z.land e PTE_V).

Definition sv39 (m : mem) (root va : Z) : Z :=
  let e2 := ld64 m (pte_addr root 2 va) in
  if negb (pte_valid e2) then 0 else
  let e1 := ld64 m (pte_addr (PTE2PA e2) 1 va) in
  if negb (pte_valid e1) then 0 else
  ld64 m (pte_addr (PTE2PA e1) 0 va).

(** ** Page-table trees *)
Abbreviation ptree := (gmap (list Z) Z).

Definition idx_ok (i : Z) : Prop := 0 ≤ i < 512.

Section vmspec.
  Context {LK : Link} {LKO : LinkOk}.

Record pt_wf (m : mem) (tr : ptree) (root : Z) : Prop := {
  pw_root : tr !! [] = Some root;
  pw_inj : ∀ k k' p, tr !! k = Some p → tr !! k' = Some p → k = k';
  pw_page : ∀ k p, tr !! k = Some p → page_ok p;
  pw_short : ∀ k p, tr !! k = Some p → (length k ≤ 2)%nat;
  pw_edge : ∀ k p i, tr !! k = Some p → (length k < 2)%nat → idx_ok i →
    ld64 m (p + 8 * i) =
      match tr !! (k ++ [i]) with Some q => Z.lor (PA2PTE q) PTE_V | None => 0 end;
  pw_parent : ∀ k i q, tr !! (k ++ [i]) = Some q → idx_ok i ∧ is_Some (tr !! k);
}.

(** [a] lies in no page of the tree. *)
Definition outside (tr : ptree) (a : Z) : Prop :=
  ∀ k p, tr !! k = Some p → ¬ (p ≤ a < p + 4096).

Record aspace (s : kmem) (l : list Z) (root : Z) (tr : ptree) : Prop := {
  as_free : free_list s l;
  as_pt : pt_wf (ram s) tr root;
  as_disj : ∀ k p, tr !! k = Some p → p ∉ l;
}.

(** The leaf entry of [va], read off the tree. *)
Definition leaf (m : mem) (tr : ptree) (va : Z) : Z :=
  match tr !! [PX 2 va; PX 1 va] with
  | Some p => ld64 m (p + 8 * PX 0 va)
  | None => 0
  end.

(** ** Basic facts *)
Lemma PTE_V_eq : PTE_V = 1.
Proof. done. Qed.

Lemma pte_valid_0 : pte_valid 0 = false.
Proof. done. Qed.

Lemma idx_PX level va : 0 ≤ level → idx_ok (PX level va).
Proof. apply PX_bound. Qed.

Lemma page_ok_pa p : page_ok p → 0 ≤ p < 2 ^ 56 ∧ p mod 4096 = 0.
Proof. intros Hp%page_ok_bound. unfold PHYSTOP, KERNBASE in *. lia. Qed.

Lemma pte_node p : page_ok p → pte_valid (Z.lor (PA2PTE p) PTE_V) = true.
Proof.
  intros [Hb Hm]%page_ok_pa. unfold pte_valid, nonzero.
  rewrite land_flag_mod, PTE_FLAGS_lor by (rewrite ?PTE_V_eq; lia). done.
Qed.

Lemma pte_node_pa p : page_ok p → PTE2PA (Z.lor (PA2PTE p) PTE_V) = p.
Proof. intros [Hb Hm]%page_ok_pa. apply PTE2PA_lor; rewrite ?PTE_V_eq; lia. Qed.

Lemma pte_node_u64 p : page_ok p → u64 (Z.lor (PA2PTE p) PTE_V) = Z.lor (PA2PTE p) PTE_V.
Proof.
  intros [Hb Hm]%page_ok_pa. rewrite PA2PTE_flags by (rewrite ?PTE_V_eq; lia).
  rewrite PTE_V_eq. apply u64_small. zlia.
Qed.

Lemma pte_node_nonzero p : page_ok p → Z.lor (PA2PTE p) PTE_V ≠ 0.
Proof. intros Hp E. pose proof (pte_node p Hp) as Hv. by rewrite E in Hv. Qed.

(** Entries of the same or of different pages do not overlap. *)
Lemma entry_disjoint p q i j :
  p mod 4096 = 0 → q mod 4096 = 0 → idx_ok i → idx_ok j → (p, i) ≠ (q, j) →
  p + 8 * i + 8 ≤ q + 8 * j ∨ q + 8 * j + 8 ≤ p + 8 * i.
Proof.
  unfold idx_ok. intros Hp Hq Hi Hj Hne.
  destruct (decide (p = q)) as [->|Hpq]; [|destruct (page_disjoint p q); lia].
  assert (i ≠ j) by congruence. lia.
Qed.

Lemma same_but_page_ld64_entry q m m' p j :
  same_but_page q m m' → q mod 4096 = 0 → p mod 4096 = 0 → p ≠ q → idx_ok j →
  ld64 m' (p + 8 * j) = ld64 m (p + 8 * j).
Proof.
  intros Hm Hq Hp Hne Hj. apply ld64_agree. intros b Hb. apply Hm.
  unfold idx_ok in Hj. destruct (page_disjoint q p); lia.
Qed.

Section wf.
  Context {m : mem} {tr : ptree} {root : Z} (W : pt_wf m tr root).

Lemma pw_aligned k p : tr !! k = Some p → p mod 4096 = 0.
Proof. intros Hk. destruct (pw_page _ _ _ W _ _ Hk). done. Qed.

Lemma sv39_leaf va : sv39 m root va = leaf m tr va.
Proof.
  pose proof (idx_PX 2 va ltac:(lia)). pose proof (idx_PX 1 va ltac:(lia)).
  unfold sv39, leaf, pte_addr.
  pose proof (pw_root _ _ _ W) as Hr.
  rewrite (pw_edge _ _ _ W [] root) by (simpl; auto with lia). simpl.
  destruct (tr !! [PX 2 va]) as [p1|] eqn:E1.
  - rewrite pte_node, pte_node_pa by eauto using pw_page. simpl.
    rewrite (pw_edge _ _ _ W [PX 2 va] p1) by (simpl; auto with lia). simpl.
    destruct (tr !! [PX 2 va; PX 1 va]) as [p0|] eqn:E0; [|done].
    by rewrite pte_node, pte_node_pa by eauto using pw_page.
  - destruct (tr !! [PX 2 va; PX 1 va]) as [p0|] eqn:E0; [|done].
    destruct (pw_parent _ _ _ W [PX 2 va] (PX 1 va) p0 E0) as [_ [? ?]]. congruence.
Qed.

Lemma wf_agree m' :
  (∀ k p a, tr !! k = Some p → p ≤ a < p + 4096 → ld8 m' a = ld8 m a) →
  pt_wf m' tr root ∧ ∀ va, leaf m' tr va = leaf m tr va.
Proof.
  intros Hag.
  assert (∀ k p i, tr !! k = Some p → idx_ok i → ld64 m' (p + 8 * i) = ld64 m (p + 8 * i)) as H.
  { intros k p i Hk Hi. apply ld64_agree. intros b Hb. eapply Hag; [done|].
    unfold idx_ok in Hi. lia. }
  destruct W as [W1 W2 W3 W4 W5 W6]. split; [split; try done|].
  - intros k p i Hk Hl Hi. rewrite (H k p i Hk Hi). by apply W5.
  - intros va. unfold leaf. destruct (tr !! [PX 2 va; PX 1 va]) eqn:E; [|done].
    apply (H _ _ _ E). by apply idx_PX.
Qed.

(** Writing a leaf entry. *)
Lemma wf_set_leaf p va v :
  0 ≤ va < MAXVA → va mod 4096 = 0 → 0 ≤ v < 2 ^ 64 →
  tr !! [PX 2 va; PX 1 va] = Some p →
  let m' := st64 m (p + 8 * PX 0 va) v in
  pt_wf m' tr root ∧
  ∀ va', 0 ≤ va' < 2 ^ 39 → va' mod 4096 = 0 →
    leaf m' tr va' = if decide (va' = va) then v else leaf m tr va'.
Proof.
  intros Hva Hal Hv Hp m'. pose proof (idx_PX 0 va ltac:(lia)) as H0.
  assert (∀ k q j, tr !! k = Some q → idx_ok j → (k, j) ≠ ([PX 2 va; PX 1 va], PX 0 va) →
    ld64 m' (q + 8 * j) = ld64 m (q + 8 * j)) as Hne.
  { intros k q j Hk Hj Hn. apply ld64_st64_ne. apply entry_disjoint; eauto using pw_aligned.
    intros [= -> ->]. apply Hn. f_equal. eapply pw_inj; eauto. }
  split.
  - destruct W as [W1 W2 W3 W4 W5 W6]. split; try done.
    intros k q j Hk Hl Hj. rewrite (Hne k); [by apply W5 | done..|].
    intros [= -> ->]. simpl in Hl. lia.
  - intros va' Hva' Hal'. unfold leaf.
    destruct (tr !! [PX 2 va'; PX 1 va']) as [q|] eqn:Eq.
    + pose proof (idx_PX 0 va' ltac:(lia)) as H0'. case_decide as Hd.
      * subst va'. rewrite Eq in Hp. injection Hp as ->. unfold m'.
        rewrite ld64_st64_eq. by apply u64_small.
      * apply (Hne _ _ _ Eq H0'). intros [= E2 E1 E0]. apply Hd.
        rewrite MAXVA_eq in *. apply PX_inj; lia.
    + case_decide as Hd; [|done]. subst. congruence.
Qed.
End wf.

(** ** Adding a page-table page *)

(** [tr] with a zeroed page [q] hung under entry [i] of the page at [k]. *)
Lemma wf_add_node m tr root k p i q :
  pt_wf m tr root → tr !! k = Some p → (length k < 2)%nat → idx_ok i →
  tr !! (k ++ [i]) = None → page_ok q → (∀ k' p', tr !! k' = Some p' → p' ≠ q) →
  let m' := st64 (memset m q 0 PGSIZE) (p + 8 * i) (Z.lor (PA2PTE q) PTE_V) in
  pt_wf m' (<[k ++ [i] := q]> tr) root ∧
  ∀ va, leaf m' (<[k ++ [i] := q]> tr) va = leaf m tr va.
Proof.
  intros W Hk Hl Hi Hn Hq Hfresh m'.
  pose proof (page_ok_pa q Hq) as [Hqb Hqa].
  pose proof (pw_aligned W k p Hk) as Hpa.
  assert (p ≠ q) as Hpq by (by apply (Hfresh k)).
  (* the new page reads as zero *)
  assert (∀ j, idx_ok j → ld64 m' (q + 8 * j) = 0) as Hzero.
  { intros j Hj. unfold m'. rewrite ld64_st64_ne.
    2: { destruct (entry_disjoint q p j i); auto with congruence; lia. }
    rewrite (ld64_agree _ ∅); [done|]. intros b Hb. rewrite ld8_memset by (unfold PGSIZE; lia).
    unfold idx_ok in Hj. rewrite decide_True by (unfold PGSIZE; lia). done. }
  (* entries of old pages, other than the new edge, are unchanged *)
  assert (∀ k' p' j, tr !! k' = Some p' → idx_ok j → (k', j) ≠ (k, i) →
    ld64 m' (p' + 8 * j) = ld64 m (p' + 8 * j)) as Hold.
  { intros k' p' j Hk' Hj Hne. pose proof (pw_aligned W k' p' Hk') as Hp'.
    unfold m'. rewrite ld64_st64_ne.
    2: { destruct (entry_disjoint p' p j i); auto; [|lia..]. intros [= -> ->].
         apply Hne. f_equal. by eapply pw_inj. }
    apply (same_but_page_ld64_entry q); auto using same_but_page_memset.
    by apply (Hfresh k'). }
  split.
  - destruct W as [W1 W2 W3 W4 W5 W6]. split.
    + rewrite lookup_insert_ne; [done|]. by destruct k.
    + intros k1 k2 r. rewrite !lookup_insert. repeat case_decide; subst; intros H1 H2.
      * done.
      * injection H1 as <-. by destruct (Hfresh _ _ H2).
      * injection H2 as <-. by destruct (Hfresh _ _ H1).
      * by eapply W2.
    + intros k1 r. rewrite lookup_insert. case_decide; [by intros [= <-] | apply W3].
    + intros k1 r. rewrite lookup_insert. case_decide as Hd; [|by apply W4].
      subst. intros _. rewrite length_app. simpl. lia.
    + intros k1 r j. rewrite lookup_insert. case_decide as Hd.
      * (* an entry of the new page *)
        subst. intros [= <-] Hl' Hj. rewrite Hzero by done.
        rewrite lookup_insert_ne by (intros E%(f_equal length); rewrite !length_app in E; simpl in E; lia).
        destruct (tr !! ((k ++ [i]) ++ [j])) eqn:E; [|done].
        apply W6 in E as [_ [? E]]. congruence.
      * intros Hk1 Hl1 Hj. destruct (decide ((k1, j) = (k, i))) as [[= -> ->]|Hne].
        -- rewrite lookup_insert_eq. rewrite Hk in Hk1. injection Hk1 as ->.
           unfold m'. rewrite ld64_st64_eq. by apply pte_node_u64.
        -- rewrite (Hold k1 r j), (W5 k1 r j) by done.
           rewrite lookup_insert_ne; [done|]. intros [? E]%app_inj_tail. by subst.
    + intros k1 j r. rewrite !lookup_insert. case_decide as Hd.
      * apply app_inj_tail in Hd as [<- <-]. intros _. split; [done|].
        case_decide; eauto.
      * intros Hr. destruct (W6 _ _ _ Hr) as [? [? ?]]. split; [done|]. case_decide; eauto.
  - intros va. unfold leaf. rewrite lookup_insert. case_decide as Hd.
    + rewrite Hd in Hn. rewrite Hn. apply Hzero. by apply idx_PX.
    + destruct (tr !! [PX 2 va; PX 1 va]) eqn:E; [|done].
      apply (Hold [PX 2 va; PX 1 va]); [done | by apply idx_PX|].
      intros [= <- _]. simpl in Hl. lia.
Qed.

(** ** The walk *)

(** RAM is unchanged outside the pages of the tree and the pages that were
    free. *)
Definition same_outside (tr : ptree) (l : list Z) (m m' : mem) : Prop :=
  ∀ a, outside tr a → (∀ q, q ∈ l → ¬ (q ≤ a < q + 4096)) → ld8 m' a = ld8 m a.

(** The address of the leaf entry of [va]; 0 when there is no level-0 page. *)
Definition pte_ptr (tr : ptree) (va : Z) : Z :=
  match tr !! [PX 2 va; PX 1 va] with Some p => p + 8 * PX 0 va | None => 0 end.

Lemma pte_ptr_nonzero m tr root va p :
  pt_wf m tr root → tr !! [PX 2 va; PX 1 va] = Some p → (p + 8 * PX 0 va =? 0) = false.
Proof.
  intros W Hp. apply Z.eqb_neq. pose proof (idx_PX 0 va ltac:(lia)) as Hi.
  destruct (page_ok_bound p (pw_page _ _ _ W _ _ Hp)).
  unfold idx_ok, PHYSTOP, KERNBASE in *. lia.
Qed.

Lemma walk_noalloc s tr root va :
  pt_wf (ram s) tr root → 0 ≤ va < MAXVA → walk root va false s = Ok (pte_ptr tr va) s.
Proof.
  intros W Hva. unfold walk. destruct (va >=? MAXVA) eqn:E; bool_to_prop; [lia|].
  pose proof (idx_PX 2 va ltac:(lia)). pose proof (idx_PX 1 va ltac:(lia)).
  pose proof (pw_root _ _ _ W) as Hr. unfold pte_ptr.
  cbn [walk_loop]. unfold kread64, pte_addr. mred.
  rewrite (pw_edge _ _ _ W [] root) by (simpl; auto with lia). simpl.
  destruct (tr !! [PX 2 va]) as [p1|] eqn:E1.
  - change (nonzero (Z.land ?e PTE_V)) with (pte_valid e).
    rewrite pte_node, pte_node_pa by eauto using pw_page. simpl.
    rewrite (pw_edge _ _ _ W [PX 2 va] p1) by (simpl; auto with lia). simpl.
    destruct (tr !! [PX 2 va; PX 1 va]) as [p0|] eqn:E0; [|done].
    change (nonzero (Z.land ?e PTE_V)) with (pte_valid e).
    by rewrite pte_node, pte_node_pa by eauto using pw_page.
  - destruct (tr !! [PX 2 va; PX 1 va]) as [p0|] eqn:E0; [|done].
    destruct (pw_parent _ _ _ W [PX 2 va] (PX 1 va) p0 E0) as [_ [? ?]]. congruence.
Qed.

(** The tree may have grown by pages taken from the free list, and RAM changed
    only in the tree and in those pages. *)
Record grows (root : Z) (s : kmem) (l : list Z) (tr : ptree)
    (s' : kmem) (l' : list Z) (tr' : ptree) : Prop := {
  gr_as : aspace s' l' root tr';
  gr_tree : ∀ k p, tr !! k = Some p → tr' !! k = Some p;
  gr_new : ∀ k p, tr' !! k = Some p → tr !! k = Some p ∨ p ∈ l;
  gr_free : ∃ new, l = new ++ l';
  gr_used : ∀ q, q ∈ l → q ∈ l' ∨ ∃ k, tr' !! k = Some q;
  gr_ram : same_outside tr l (ram s) (ram s');
}.

(** ... and every translation is as before. *)
Definition extends root s l tr s' l' tr' : Prop :=
  grows root s l tr s' l' tr' ∧ ∀ va, sv39 (ram s') root va = sv39 (ram s) root va.

Lemma grows_refl root s l tr : aspace s l root tr → grows root s l tr s l tr.
Proof. intros A. split; auto. - by exists []. - done. Qed.

Lemma grows_trans root s l tr s1 l1 tr1 s2 l2 tr2 :
  grows root s l tr s1 l1 tr1 → grows root s1 l1 tr1 s2 l2 tr2 →
  grows root s l tr s2 l2 tr2.
Proof.
  intros [A1 T1 N1 [n1 F1] U1 R1] [A2 T2 N2 [n2 F2] U2 R2]. subst. split; auto.
  - intros k p Hk. destruct (N2 k p Hk) as [Hk'|Hin]; [by apply N1|].
    right. set_solver.
  - exists (n1 ++ n2). by rewrite app_assoc.
  - intros q [Hq|[k Hk]]%U1; [by apply U2|]. right. exists k. auto.
  - intros a Ha Hf. rewrite R2; [by apply R1| |set_solver].
    intros k p Hk. destruct (N1 k p Hk) as [Hk'|Hin]; [by apply (Ha k)|]. apply Hf. set_solver.
Qed.

Lemma extends_refl root s l tr : aspace s l root tr → extends root s l tr s l tr.
Proof. split; [by apply grows_refl | done]. Qed.

Lemma extends_trans root s l tr s1 l1 tr1 s2 l2 tr2 :
  extends root s l tr s1 l1 tr1 → extends root s1 l1 tr1 s2 l2 tr2 →
  extends root s l tr s2 l2 tr2.
Proof.
  intros [G1 V1] [G2 V2]. split; [by eapply grows_trans|]. intros va. by rewrite V2, V1.
Qed.

(** The free list only depends on the first words of the free pages. *)
Lemma free_list_ram s l m :
  free_list s l → (∀ x, x ∈ l → ld64 m x = ld64 (ram s) x) → free_list (set_ram m s) l.
Proof. intros [C1 C2 C3 C4] H. split; try done. by eapply flist_agree. Qed.

(** Writing an entry of a page of the tree leaves the free list alone. *)
Lemma aspace_free_entry s l root tr k p i v :
  aspace s l root tr → tr !! k = Some p → idx_ok i →
  free_list (set_ram (st64 (ram s) (p + 8 * i) v) s) l.
Proof.
  intros [F W D] Hk Hi. apply free_list_ram; [done|]. intros x Hx.
  pose proof (pw_aligned W _ _ Hk). destruct F as [_ _ F _]. rewrite Forall_forall in F.
  destruct (F x Hx) as [Hxa _].
  assert (x ≠ p) by (intros ->; by apply (D _ _ Hk)).
  unfold idx_ok in Hi. apply ld64_st64_ne. destruct (page_disjoint x p); auto; lia.
Qed.

(** A page taken from the free list, still unused: it is disjoint from the
    tree, and the tree is as before. *)
Lemma aspace_take s q l root tr :
  aspace s (q :: l) root tr →
  let s' := Kmem (memset (ram s) q 5 PGSIZE) false (ld64 (ram s) q) in
  kalloc s = Ok q s' ∧ aspace s' l root tr ∧ page_ok q ∧ q ∉ l ∧
  (∀ k p, tr !! k = Some p → p ≠ q) ∧
  ∀ va, sv39 (ram s') root va = sv39 (ram s) root va.
Proof.
  intros [F W D]. destruct (kalloc_some s q l F) as (E & F' & Hq & Hin). intros s'.
  assert (∀ k' p', tr !! k' = Some p' → p' ≠ q) as Hfresh.
  { intros k' p' Hk' ->. apply (D _ _ Hk'). set_solver. }
  destruct (wf_agree W (ram s')) as [W1 L1].
  { intros k' p' a Hk' Ha. apply same_but_page_memset.
    pose proof (pw_aligned W _ _ Hk'). destruct Hq as [Hqa _].
    destruct (page_disjoint p' q); auto; try lia. by apply (Hfresh k'). }
  split_and!; try done.
  - split; [done..|]. intros k p Hk Hp. apply (D _ _ Hk). set_solver.
  - intros va. by rewrite (sv39_leaf W1), (sv39_leaf W), L1.
Qed.

(** Hanging a page just taken from the free list under an entry. *)
Lemma grow_node s q l root tr k p i :
  aspace s (q :: l) root tr → tr !! k = Some p → (length k < 2)%nat → idx_ok i →
  tr !! (k ++ [i]) = None →
  let s1 := Kmem (memset (ram s) q 5 PGSIZE) false (ld64 (ram s) q) in
  let s2 := set_ram (memset (ram s1) q 0 PGSIZE) s1 in
  extends root s (q :: l) tr
    (set_ram (st64 (ram s2) (p + 8 * i) (Z.lor (PA2PTE q) PTE_V)) s2) l (<[k ++ [i] := q]> tr).
Proof.
  intros A Hk Hl Hi Hn s1 s2.
  destruct (aspace_take s q l root tr A) as (_ & A1 & Hq & Hin & Hfresh & V1).
  pose proof A1 as [F1 W1 D1].
  destruct (wf_add_node (ram s1) tr root k p i q W1 Hk Hl Hi Hn Hq Hfresh) as [W2 L2].
  split; [split|].
  - split; [|exact W2|].
    + unfold s2. rewrite set_ram_set_ram, ram_set_ram. apply free_list_ram; [done|]. intros x Hx.
      destruct F1 as [_ _ F1 _]. rewrite Forall_forall in F1. destruct (F1 x Hx) as [Hxa _].
      pose proof (pw_aligned W1 _ _ Hk).
      assert (x ≠ p) by (intros ->; by apply (D1 _ _ Hk)).
      unfold idx_ok in Hi. rewrite ld64_st64_ne by (destruct (page_disjoint x p); auto; lia).
      apply (same_but_page_ld64 q); [apply same_but_page_memset | apply Hq | done|].
      intros ->. done.
    + intros k' p'. rewrite lookup_insert. case_decide; [intros [= <-]; done|]. apply D1.
  - intros k' p' Hk'. rewrite lookup_insert_ne; [done|]. intros <-. congruence.
  - intros k' p'. rewrite lookup_insert. case_decide; [intros [= <-]; right; set_solver | auto].
  - by exists [q].
  - intros q' [->|?]%elem_of_cons; [right|by left]. eexists. apply lookup_insert_eq.
  - intros a Ho Ha. specialize (Ha q ltac:(set_solver)). specialize (Ho k p Hk).
    unfold idx_ok in Hi. cbn [ram set_ram]. rewrite ld8_st64_ne by lia.
    unfold s2, s1. cbn [ram set_ram]. rewrite !same_but_page_memset by done. done.
  - intros va'. rewrite <- V1. fold s1. cbn [ram set_ram].
    by rewrite (sv39_leaf W2), (sv39_leaf W1), <- L2.
Qed.

(** The tree has grown on the way to pages that satisfy [P] only. *)
Definition paths (P : Z → Prop) (tr tr' : ptree) : Prop :=
  ∀ k, is_Some (tr' !! k) →
    is_Some (tr !! k) ∨ ∃ v, P v ∧ (k = [PX 2 v] ∨ k = [PX 2 v; PX 1 v]).

Lemma paths_trans (P : Z → Prop) tr1 tr2 tr3 : paths P tr1 tr2 → paths P tr2 tr3 → paths P tr1 tr3.
Proof. intros H1 H2 k [Hk|?]%H2; [by apply H1|by right]. Qed.

Lemma paths_mono (P Q : Z → Prop) tr tr' : (∀ v, P v → Q v) → paths P tr tr' → paths Q tr tr'.
Proof. intros HP H k [?|(v & ? & ?)]%H; [by left|right; eauto]. Qed.

(** One level of [walk] with [alloc] set. *)
Lemma walk_level s l root tr k p level levels va :
  aspace s l root tr → tr !! k = Some p → (length k < 2)%nat → 0 ≤ level →
  (∃ q s1 l1 tr1,
     walk_loop (level :: levels) p va true s = walk_loop levels q va true s1 ∧
     extends root s l tr s1 l1 tr1 ∧ tr1 !! (k ++ [PX level va]) = Some q ∧
     ∀ k', is_Some (tr1 !! k') → is_Some (tr !! k') ∨ k' = k ++ [PX level va])
  ∨ (l = [] ∧ walk_loop (level :: levels) p va true s = Ok 0 s).
Proof.
  intros A Hk Hl Hlev. pose proof A as [F W D]. pose proof (idx_PX level va Hlev) as Hi.
  pose proof (pw_edge _ _ _ W k p _ Hk Hl Hi) as He.
  change (p + 8 * PX level va) with (pte_addr p level va) in He.
  cbn [walk_loop]. krun. rewrite !He.
  change (nonzero (Z.land ?e PTE_V)) with (pte_valid e).
  destruct (tr !! (k ++ [PX level va])) as [q|] eqn:Eq.
  - left. exists q, s, l, tr. rewrite pte_node, pte_node_pa by eauto using pw_page.
    auto 6 using extends_refl.
  - rewrite pte_valid_0. cbn [negb]. destruct l as [|q l].
    + right. split; [done|]. by rewrite (bind_ok _ _ _ _ _ (kalloc_none s F)).
    + left. destruct (aspace_take s q l root tr A) as (E & A1 & Hq & Hin & Hfresh & V1).
      rewrite (bind_ok _ _ _ _ _ E).
      pose proof (page_ok_nonzero q Hq) as Hnz. unfold nonzero in Hnz.
      destruct (q =? 0); [done|]. krun.
      eexists q, _, l, (<[k ++ [PX level va] := q]> tr).
      split; [reflexivity|]. split; [by apply grow_node|]. split; [apply lookup_insert_eq|].
      intros k'. rewrite lookup_insert. case_decide; [by right|by left].
Qed.

Lemma walk_alloc s l root tr va :
  aspace s l root tr → 0 ≤ va < MAXVA →
  ∃ r s' l' tr', walk root va true s = Ok r s' ∧ extends root s l tr s' l' tr' ∧
    paths (λ v, v = va) tr tr' ∧
    ((r = 0 ∧ l' = []) ∨
     ∃ p, tr' !! [PX 2 va; PX 1 va] = Some p ∧ r = p + 8 * PX 0 va).
Proof.
  intros A Hva. unfold walk. destruct (va >=? MAXVA) eqn:E; bool_to_prop; [lia|].
  pose proof (pw_root _ _ _ (as_pt _ _ _ _ A)) as Hr.
  destruct (walk_level s l root tr [] root 2 [1] va A Hr) as
    [(p1 & s1 & l1 & tr1 & E1 & X1 & H1 & P1)|[-> E1]]; [simpl; lia | lia | |].
  2: { exists 0, s, [], tr. split; [done|]. split; [by apply extends_refl|]. split; [|auto]. by left. }
  destruct (walk_level s1 l1 root tr1 [PX 2 va] p1 1 [] va (gr_as _ _ _ _ _ _ _ (proj1 X1)) H1) as
    [(p0 & s2 & l2 & tr2 & E2 & X2 & H2 & P2)|[-> E2]]; [simpl; lia | lia | |].
  - exists (p0 + 8 * PX 0 va), s2, l2, tr2. rewrite E1, E2.
    split; [done|]. split; [by eapply extends_trans|]. split; [|eauto].
    intros k [[?| ->]%P1| ->]%P2; eauto.
  - exists 0, s1, [], tr1. rewrite E1, E2. split; [done|]. split; [done|]. split; [|auto].
    intros k [?| ->]%P1; eauto.
Qed.
End vmspec.
