(* ===== verification/VmMap.v ===== *)
(** * Page tables: mapping and unmapping

    What [mappages], [uvmunmap], [walkaddr] and [uvmclear] do to the
    translation [sv39], under the invariant of [VmSpec]. *)

From S2P Require Import Base Riscv Mem Kstring Spinlock Kalloc Vm VmSpec.
Local Open Scope Z_scope.
Local Open Scope kernel_scope.

(** The address of a page of the virtual address space. *)
Definition vpage (va : Z) : Prop := 0 ≤ va < MAXVA ∧ va mod 4096 = 0.

(** A page that has a slot in a page table; the upper half of the slots is
    never used ([MAXVA] is one bit less than the tables allow). *)
Definition vslot (va : Z) : Prop := 0 ≤ va < 2 ^ 39 ∧ va mod 4096 = 0.

Lemma vpage_vslot va : vpage va → vslot va.
Proof. unfold vpage, vslot. rewrite MAXVA_eq. lia. Qed.
#[export] Hint Resolve vpage_vslot : core.

(** The entry [mappages] installs. *)
Definition mk_pte (pa perm : Z) : Z := Z.lor (Z.lor (PA2PTE pa) perm) PTE_V.

Lemma lor_bound a b : 0 ≤ a < 1024 → 0 ≤ b < 1024 → 0 ≤ Z.lor a b < 1024.
Proof.
  intros Ha Hb. assert (0 ≤ Z.lor a b) by (apply Z.lor_nonneg; lia).
  split; [done|]. destruct (decide (Z.lor a b = 0)) as [->|]; [lia|].
  apply Z.log2_lt_pow2 with (b := 10); [lia|]. rewrite Z.log2_lor by lia.
  apply Z.max_lub_lt.
  - destruct (decide (a = 0)) as [->|]; [simpl; lia|]. apply Z.log2_lt_pow2; lia.
  - destruct (decide (b = 0)) as [->|]; [simpl; lia|]. apply Z.log2_lt_pow2; lia.
Qed.

Lemma mk_pte_eq pa perm :
  0 ≤ pa < 2 ^ 56 → pa mod 4096 = 0 → 0 ≤ perm < 1024 →
  mk_pte pa perm = Z.lor (PA2PTE pa) (Z.lor perm PTE_V) ∧ 0 ≤ Z.lor perm PTE_V < 1024.
Proof.
  intros Hpa Hal Hp. unfold mk_pte. rewrite Z.lor_assoc. split; [done|].
  apply lor_bound; rewrite ?PTE_V_eq; lia.
Qed.

Lemma mk_pte_facts pa perm :
  0 ≤ pa < 2 ^ 56 → pa mod 4096 = 0 → 0 ≤ perm < 1024 →
  pte_valid (mk_pte pa perm) = true ∧ PTE2PA (mk_pte pa perm) = pa ∧
  PTE_FLAGS (mk_pte pa perm) = Z.lor perm PTE_V ∧ 0 ≤ mk_pte pa perm < 2 ^ 64.
Proof.
  intros Hpa Hal Hp. destruct (mk_pte_eq pa perm Hpa Hal Hp) as [-> Hf].
  rewrite PTE_V_eq in *. split_and!.
  - unfold pte_valid. rewrite PTE_V_eq, land_flag_mod, PTE_FLAGS_lor by lia.
    rewrite Z.land_lor_distr_l. unfold nonzero.
    rewrite negb_true_iff, Z.eqb_neq. rewrite Z.land_diag. intros H%Z.lor_eq_0_iff. lia.
  - by apply PTE2PA_lor.
  - by apply PTE_FLAGS_lor.
  - rewrite PA2PTE_flags by lia. zlia.
  - rewrite PA2PTE_flags by lia. zlia.
Qed.

Section vmmap.
  Context {LK : Link} {LKO : LinkOk}.

(** Writing the leaf entry of a page. *)
Lemma set_pte s l root tr va p v :
  aspace s l root tr → vpage va → tr !! [PX 2 va; PX 1 va] = Some p → 0 ≤ v < 2 ^ 64 →
  let s' := set_ram (st64 (ram s) (p + 8 * PX 0 va) v) s in
  grows root s l tr s' l tr ∧
  (∀ va', vslot va' →
     sv39 (ram s') root va' = if decide (va' = va) then v else sv39 (ram s) root va') ∧
  same_outside tr [] (ram s) (ram s').
Proof.
  intros A [Hva Hal] Hp Hv s'. pose proof A as [F W D].
  pose proof (idx_PX 0 va ltac:(lia)) as Hi.
  destruct (wf_set_leaf W p va v Hva Hal Hv Hp) as [W' L'].
  assert (same_outside tr [] (ram s) (ram s')) as HR.
  { intros a Ho _. unfold idx_ok in Hi. specialize (Ho _ _ Hp). apply ld8_st64_ne. lia. }
  split_and!; [split|..]; try done.
  - split; [by eapply aspace_free_entry | exact W' | exact D].
  - auto.
  - by exists [].
  - auto.
  - intros a Ho _. apply HR; [done|]. set_solver.
  - intros va' [Hva' Hal']. change (ram s') with (st64 (ram s) (p + 8 * PX 0 va) v).
    rewrite (sv39_leaf W'), (sv39_leaf W). by apply L'.
Qed.

Lemma sv39_pte_ptr s l root tr va p :
  aspace s l root tr → tr !! [PX 2 va; PX 1 va] = Some p →
  ld64 (ram s) (p + 8 * PX 0 va) = sv39 (ram s) root va.
Proof. intros [_ W _] Hp. rewrite (sv39_leaf W). unfold leaf. by rewrite Hp. Qed.

(** A valid translation has a level-0 page. *)
Lemma sv39_valid s l root tr va :
  aspace s l root tr → pte_valid (sv39 (ram s) root va) = true →
  ∃ p, tr !! [PX 2 va; PX 1 va] = Some p.
Proof.
  intros [_ W _]. rewrite (sv39_leaf W). unfold leaf.
  destruct (tr !! [PX 2 va; PX 1 va]); [eauto|done].
Qed.

(** ** mappages *)
Lemma mappages_step fuel s l root tr a last pa perm :
  aspace s l root tr → vpage a → 0 ≤ pa < 2 ^ 56 → pa mod 4096 = 0 → 0 ≤ perm < 1024 →
  pte_valid (sv39 (ram s) root a) = false →
  (∃ s' tr', mappages_loop (S fuel) root a last pa perm s = Ok (-1) s' ∧
     extends root s l tr s' [] tr' ∧ paths (λ v, v = a) tr tr')
  ∨ (∃ s' l' tr', mappages_loop (S fuel) root a last pa perm s =
       (if a =? last then Ok 0 s'
        else mappages_loop fuel root (u64 (a + PGSIZE)) last (u64 (pa + PGSIZE)) perm s') ∧
     grows root s l tr s' l' tr' ∧
     (∀ va, vslot va → sv39 (ram s') root va =
       if decide (va = a) then mk_pte pa perm else sv39 (ram s) root va) ∧
     paths (λ v, v = a) tr tr').
Proof.
  intros A Ha Hpa Hal Hperm Hinv. cbn [mappages_loop].
  destruct (walk_alloc s l root tr a A (proj1 Ha)) as (r & s1 & l1 & tr1 & E & X & Pt & Hr).
  rewrite (bind_ok _ _ _ _ _ E). pose proof X as [G V].
  pose proof (gr_as _ _ _ _ _ _ _ G) as A1.
  destruct Hr as [[-> ->]|(p & Hp & ->)]; [left; by exists s1, tr1|right].
  rewrite (pte_ptr_nonzero _ _ _ _ _ (as_pt _ _ _ _ A1) Hp). krun.
  rewrite (sv39_pte_ptr s1 l1 root tr1 a p A1 Hp), V.
  change (nonzero (Z.land ?e PTE_V)) with (pte_valid e). rewrite Hinv. krun.
  destruct (mk_pte_facts pa perm Hpa Hal Hperm) as (_ & _ & _ & Hb).
  destruct (set_pte s1 l1 root tr1 a p _ A1 Ha Hp Hb) as (G' & V' & _).
  eexists _, l1, tr1. split; [by destruct (a =? last)|]. split; [by eapply grows_trans|].
  split; [|done].
  intros va Hva. fold (mk_pte pa perm). rewrite (V' va Hva). case_decide; [done|]. apply V.
Qed.

(** The translation after the pages [a, a+4096, ...] below [b] were mapped. *)
Definition mapped_to (T : Z → Z) (a b pa perm va : Z) : Z :=
  if decide (a ≤ va < b) then mk_pte (pa + (va - a)) perm else T va.

Lemma mappages_loop_spec n fuel s l root tr a last pa perm :
  aspace s l root tr → vpage a → vpage last → last = a + 4096 * Z.of_nat n →
  0 ≤ pa → pa + (last - a) < 2 ^ 56 → pa mod 4096 = 0 → 0 ≤ perm < 1024 →
  (n < fuel)%nat →
  (∀ va, vpage va → a ≤ va ≤ last → pte_valid (sv39 (ram s) root va) = false) →
  ∃ r b s' l' tr', mappages_loop fuel root a last pa perm s = Ok r s' ∧
    grows root s l tr s' l' tr' ∧
    (∀ va, vslot va → sv39 (ram s') root va = mapped_to (sv39 (ram s) root) a b pa perm va) ∧
    paths (λ v, vpage v ∧ a ≤ v ≤ last) tr tr' ∧
    (r = 0 ∧ b = last + 4096 ∨
     r = -1 ∧ l' = [] ∧ a ≤ b ≤ last ∧ b mod 4096 = 0).
Proof.
  revert fuel s l tr a pa. induction n as [|n IH];
    intros fuel s l tr a pa A Ha Hl En Hpa Hpl Hal Hperm Hf Hinv;
    (destruct fuel as [|fuel]; [lia|]);
    destruct (mappages_step fuel s l root tr a last pa perm A Ha)
      as [(s1 & tr1 & E & [G V] & Pt)|(s1 & l1 & tr1 & E & G & V & Pt)];
    try done; try lia; try (apply Hinv; [done | lia]);
    (assert (paths (λ v, vpage v ∧ a ≤ v ≤ last) tr tr1) as Pt'
       by (eapply paths_mono; [|exact Pt]; intros v ->; split; [done|lia])).
  1, 3: exists (-1), a, s1, [], tr1; split_and!; try done;
    [ intros va Hva; unfold mapped_to; rewrite decide_False by lia; apply V
    | right; destruct Ha; split_and!; (done || lia) ].
  - exists 0, (last + 4096), s1, l1, tr1. rewrite E.
    replace (a =? last) with true by (symmetry; apply Z.eqb_eq; lia).
    split_and!; try done; [|by left]. intros va Hva. rewrite (V va Hva). unfold mapped_to.
    destruct Hva, Ha. repeat case_decide; subst; try done; try lia.
    f_equal. lia. exfalso. zlia.
  - rewrite E. replace (a =? last) with false by (symmetry; apply Z.eqb_neq; lia).
    unfold vpage in Ha, Hl. rewrite MAXVA_eq in *. unfold PGSIZE.
    rewrite !u64_small by lia.
    destruct (IH fuel s1 l1 tr1 (a + 4096) (pa + 4096)) as
      (r & b & s2 & l2 & tr2 & E2 & G2 & V2 & Pt2 & Hr); clear IH; try lia.
    + apply (gr_as _ _ _ _ _ _ _ G).
    + unfold vpage. rewrite MAXVA_eq. zlia.
    + unfold vpage. by rewrite MAXVA_eq.
    + zlia.
    + intros va Hva Hb. rewrite V by auto. rewrite decide_False by lia. apply Hinv; [done|lia].
    + exists r, b, s2, l2, tr2. split; [done|]. split; [by eapply grows_trans|].
      split; [|split; [|destruct Hr as [?|?]; [by left | right; intuition lia]]].
      2: { eapply paths_trans; [exact Pt'|]. eapply paths_mono; [|exact Pt2]. intros v []. split; [done|lia]. }
      intros va Hva. rewrite V2 by done. unfold mapped_to. rewrite V by done.
      assert (a < b) by (destruct Hr; lia).
      destruct Hva. repeat case_decide; subst; try done; try lia; f_equal; try lia.
      all: exfalso; zlia.
Qed.

Lemma PGROUNDDOWN_vpage va : 0 ≤ va < MAXVA → vpage (PGROUNDDOWN va).
Proof. intros. unfold vpage. rewrite PGROUNDDOWN_eq. zlia. Qed.

(** [mappages] installs the entries of all pages of the range, or runs out of
    memory after some of them. *)
Lemma mappages_spec s l root tr va size pa perm :
  aspace s l root tr → 0 ≤ va → 0 < size → va + size ≤ MAXVA →
  0 ≤ pa → pa mod 4096 = 0 → pa + size < 2 ^ 55 → 0 ≤ perm < 1024 →
  let a := PGROUNDDOWN va in
  let last := PGROUNDDOWN (va + size - 1) in
  (∀ v, vpage v → a ≤ v ≤ last → pte_valid (sv39 (ram s) root v) = false) →
  ∃ r b s' l' tr', mappages root va size pa perm s = Ok r s' ∧
    grows root s l tr s' l' tr' ∧
    (∀ v, vslot v → sv39 (ram s') root v = mapped_to (sv39 (ram s) root) a b pa perm v) ∧
    paths (λ v, vpage v ∧ a ≤ v ≤ last) tr tr' ∧
    (r = 0 ∧ b = last + 4096 ∨
     r = -1 ∧ l' = [] ∧ a ≤ b ≤ last ∧ b mod 4096 = 0).
Proof.
  intros A Hva Hsz Hmax Hpa Hal Hpl Hperm a last Hinv.
  assert (vpage a) as Ha by (apply PGROUNDDOWN_vpage; lia).
  assert (vpage last) as Hl by (apply PGROUNDDOWN_vpage; lia).
  assert (a ≤ last < a + size + 4096) as Hle.
  { unfold a, last. rewrite !PGROUNDDOWN_eq. zlia. }
  unfold mappages. destruct (size =? 0) eqn:E; bool_to_prop; [lia|].
  rewrite MAXVA_eq in *. rewrite u64_small by lia. fold a last. unfold PGSIZE.
  destruct (last <? a) eqn:E'; bool_to_prop; [lia|].
  destruct Ha as [Ha Ham], Hl as [Hl Hlm].
  apply (mappages_loop_spec (Z.to_nat ((last - a) / 4096))); try done; try lia; try zlia.
Qed.

(** A single page. *)
Lemma mappages_page s l root tr va pa perm :
  aspace s l root tr → vpage va → 0 ≤ pa < 2 ^ 54 → pa mod 4096 = 0 → 0 ≤ perm < 1024 →
  pte_valid (sv39 (ram s) root va) = false →
  (∃ s' tr', mappages root va PGSIZE pa perm s = Ok (-1) s' ∧ extends root s l tr s' [] tr' ∧
     paths (λ v, v = va) tr tr') ∨
  (∃ s' l' tr', mappages root va PGSIZE pa perm s = Ok 0 s' ∧ grows root s l tr s' l' tr' ∧
     (∀ v, vslot v → sv39 (ram s') root v =
       if decide (v = va) then mk_pte pa perm else sv39 (ram s) root v) ∧
     paths (λ v, v = va) tr tr').
Proof.
  intros A Hva Hpa Hal Hperm Hinv. pose proof Hva as [Hr Hm].
  unfold mappages. change (PGSIZE =? 0) with false. cbv iota. unfold PGSIZE.
  assert (PGROUNDDOWN va = va) as -> by (rewrite PGROUNDDOWN_eq; lia).
  assert (PGROUNDDOWN (u64 (va + 4096 - 1)) = va) as ->.
  { rewrite MAXVA_eq in Hr. rewrite u64_small, PGROUNDDOWN_eq by lia. zlia. }
  destruct (va <? va) eqn:E'; bool_to_prop; [lia|]. clear E'.
  destruct (mappages_step (S (Z.to_nat ((va - va) / 4096))) s l root tr va va pa perm)
    as [?|(s1 & l1 & tr1 & E & ? & ? & ?)]; try done; try lia; [by left|right].
  rewrite Z.eqb_refl in E. eauto 10.
Qed.

(** ** walkaddr *)

(** The physical page a user access to [va] reaches; 0 when there is none. *)
Definition user_pa (m : mem) (root va : Z) : Z :=
  if va >=? MAXVA then 0 else
  let e := sv39 m root va in
  if pte_valid e && nonzero (Z.land e PTE_U) then PTE2PA e else 0.

Lemma walkaddr_spec s l root tr va :
  aspace s l root tr → 0 ≤ va → walkaddr root va s = Ok (user_pa (ram s) root va) s.
Proof.
  intros A Hva. pose proof (as_pt _ _ _ _ A) as W. unfold walkaddr, user_pa.
  destruct (va >=? MAXVA) eqn:E; [done|]. bool_to_prop.
  rewrite (bind_ok _ _ _ _ _ (walk_noalloc s tr root va W ltac:(lia))). unfold pte_ptr.
  pose proof (sv39_leaf W va) as Hs. unfold leaf in Hs.
  destruct (tr !! [PX 2 va; PX 1 va]) as [p|] eqn:Hp; [|by rewrite Hs].
  rewrite (pte_ptr_nonzero _ _ _ _ _ W Hp). krun. rewrite <- !Hs.
  unfold pte_valid, nonzero. by repeat case_if.
Qed.

(** ** Data pages of an address space

    [um] maps the pages of the address space that hold user memory to the
    physical pages behind them, which the address space owns: they are
    distinct, not free, and not page-table pages.  Pages the kernel maps
    without [PTE_U] (trampoline, trapframe) are not in [um]. *)
Definition leaf_pte (e : Z) : bool :=
  pte_valid e && negb (Z.land e (Z.lor (Z.lor PTE_R PTE_W) PTE_X) =? 0).
Definition user_pte (e : Z) : bool := pte_valid e && nonzero (Z.land e PTE_U).

Record uspace (s : kmem) (l : list Z) (root : Z) (tr : ptree) (um : gmap Z Z) : Prop := {
  us_as : aspace s l root tr;
  us_pte : ∀ va pa, um !! va = Some pa →
    vpage va ∧ PTE2PA (sv39 (ram s) root va) = pa ∧ leaf_pte (sv39 (ram s) root va) = true;
  us_page : ∀ va pa, um !! va = Some pa →
    page_ok pa ∧ pa ∉ l ∧ ∀ k p, tr !! k = Some p → p ≠ pa;
  us_inj : ∀ va va' pa, um !! va = Some pa → um !! va' = Some pa → va = va';
  us_user : ∀ va, vslot va → user_pte (sv39 (ram s) root va) = true → is_Some (um !! va);
}.

Lemma leaf_pte_valid e : leaf_pte e = true → pte_valid e = true.
Proof. unfold leaf_pte. by intros [? ?]%andb_true_iff. Qed.

Lemma leaf_pte_flags e : leaf_pte e = true → (PTE_FLAGS e =? PTE_V) = false.
Proof.
  unfold leaf_pte. intros [_ H%negb_true_iff]%andb_true_iff. apply Z.eqb_neq. intros E.
  change (Z.lor (Z.lor PTE_R PTE_W) PTE_X) with 14 in H.
  rewrite land_flag_mod, E in H by lia. done.
Qed.

(** RAM may change freely outside the tree and the free pages. *)
Lemma aspace_ram s l root tr m :
  aspace s l root tr →
  (∀ k p a, tr !! k = Some p → p ≤ a < p + 4096 → ld8 m a = ld8 (ram s) a) →
  (∀ p a, p ∈ l → p ≤ a < p + 4096 → ld8 m a = ld8 (ram s) a) →
  aspace (set_ram m s) l root tr ∧ ∀ va, sv39 m root va = sv39 (ram s) root va.
Proof.
  intros [F W D] Ht Hl. destruct (wf_agree W m Ht) as [W' L']. split.
  - split; [|done..]. apply free_list_ram; [done|]. intros x Hx.
    apply ld64_agree. intros b Hb. apply (Hl x); [done|]. lia.
  - intros va. by rewrite (sv39_leaf W'), (sv39_leaf W).
Qed.

Lemma uspace_ram s l root tr um m :
  uspace s l root tr um →
  (∀ k p a, tr !! k = Some p → p ≤ a < p + 4096 → ld8 m a = ld8 (ram s) a) →
  (∀ p a, p ∈ l → p ≤ a < p + 4096 → ld8 m a = ld8 (ram s) a) →
  uspace (set_ram m s) l root tr um ∧ ∀ va, sv39 m root va = sv39 (ram s) root va.
Proof.
  intros [A P O I U] Ht Hl. destruct (aspace_ram s l root tr m A Ht Hl) as [A' V]. split; [|done].
  split; try done.
  - intros va pa Hva. cbn [ram set_ram]. rewrite V. auto.
  - intros va Hva. cbn [ram set_ram]. rewrite V. auto.
Qed.
End vmmap.
