(* ===== verification/VmUser.v ===== *)
(** * User address spaces: unmapping, freeing, growing

    [uvmunmap], [freewalk], [uvmfree], [uvmdealloc] and [uvmalloc] against
    the ownership invariant [uspace]: every page they release goes back to
    the free list exactly once, and every page they map comes from it. *)

From S2P Require Import Base Riscv Mem Kstring Spinlock Kalloc Vm VmSpec VmMap.
Local Open Scope Z_scope.
Local Open Scope kernel_scope.

Section vmuser.
  Context {LK : Link} {LKO : LinkOk}.

(** ** Releasing a page the address space does not use any more *)
Lemma aspace_kfree s l root tr pa :
  aspace s l root tr → page_ok pa → pa ∉ l → (∀ k p, tr !! k = Some p → p ≠ pa) →
  ∃ s', kfree pa s = Ok tt s' ∧ aspace s' (pa :: l) root tr ∧
    (∀ va, sv39 (ram s') root va = sv39 (ram s) root va) ∧ same_but_page pa (ram s) (ram s').
Proof.
  intros [F W D] Hp Hin Ht. destruct (kfree_spec s l pa F Hp Hin) as (s' & E & F' & R).
  exists s'. destruct (wf_agree W (ram s')) as [W' L'].
  { intros k p a Hk Ha. apply R. pose proof (pw_aligned W _ _ Hk).
    destruct Hp as [Hpa _]. destruct (page_disjoint p pa); auto; try lia. by apply (Ht k). }
  split_and!; try done.
  - split; [done..|]. intros k p Hk [->|?]%elem_of_cons; [by apply (Ht k pa)|by apply (D k p)].
  - intros va. by rewrite (sv39_leaf W'), (sv39_leaf W).
Qed.

(** ** One iteration of uvmunmap *)
Lemma uvmunmap_step fuel s l root tr a aend (do_free : bool) s1 :
  aspace s l root tr → vpage a → a < aend ≤ MAXVA →
  leaf_pte (sv39 (ram s) root a) = true →
  (if do_free then kfree (PTE2PA (sv39 (ram s) root a)) s else Ok tt s) = Ok tt s1 →
  (∃ l1, aspace s1 l1 root tr) →
  ∃ s', uvmunmap_loop (S fuel) root a aend do_free s =
          uvmunmap_loop fuel root (a + 4096) aend do_free s' ∧
    (∀ l1, aspace s1 l1 root tr → aspace s' l1 root tr) ∧
    (∀ va, vslot va → sv39 (ram s') root va = if decide (va = a) then 0 else sv39 (ram s1) root va) ∧
    same_outside tr [] (ram s1) (ram s').
Proof.
  intros A Ha Hend Hleaf E1 [l1 A1]. cbn [uvmunmap_loop].
  pose proof Ha as [Hr _]. pose proof (as_pt _ _ _ _ A) as W.
  destruct (a <? aend) eqn:E; bool_to_prop; [|lia].
  rewrite (bind_ok _ _ _ _ _ (walk_noalloc s tr root a W Hr)). unfold pte_ptr.
  destruct (sv39_valid s l root tr a A (leaf_pte_valid _ Hleaf)) as [p Hp]. rewrite Hp.
  rewrite (pte_ptr_nonzero _ _ _ _ _ W Hp). krun.
  rewrite (sv39_pte_ptr s l root tr a p A Hp).
  pose proof (leaf_pte_valid _ Hleaf) as Hv. unfold pte_valid, nonzero in Hv.
  destruct (Z.land _ PTE_V =? 0); [done|]. rewrite (leaf_pte_flags _ Hleaf).
  assert ((if do_free then kfree (PTE2PA (sv39 (ram s) root a)) else ret tt) s = Ok tt s1) as E1'.
  { by destruct do_free. }
  rewrite (bind_ok _ _ _ _ _ E1'). krun.
  destruct (set_pte s1 l1 root tr a p 0 A1 Ha Hp ltac:(lia)) as (G & V & R).
  rewrite MAXVA_eq in *. unfold PGSIZE. rewrite u64_small by lia.
  eexists. split; [done|]. split_and!; try done.
  intros l2 A2. destruct (set_pte s1 l2 root tr a p 0 A2 Ha Hp ltac:(lia)) as (G2 & _ & _).
  apply (gr_as _ _ _ _ _ _ _ G2).
Qed.

(** The pages of a range of virtual addresses. *)
Definition vpages (a : Z) (n : nat) : list Z := (λ i, a + 4096 * i) <$> zseq 0 n.

Lemma vpages_S a n : vpages a (S n) = a :: vpages (a + 4096) n.
Proof.
  unfold vpages. cbn [zseq fmap list_fmap]. f_equal; [lia|].
  apply list_eq_same_length with n; rewrite ?length_fmap, ?zseq_length; try done.
  intros i x y Hi. rewrite !list_lookup_fmap, !zseq_lookup by lia.
  cbn [fmap option_fmap option_map]. intros [= <-] [= <-]. lia.
Qed.

Lemma elem_of_vpages va a n :
  va ∈ vpages a n ↔ (va - a) mod 4096 = 0 ∧ a ≤ va < a + 4096 * Z.of_nat n.
Proof.
  unfold vpages. rewrite list_elem_of_fmap. split.
  - intros (i & -> & Hi%elem_of_zseq). replace (a + 4096 * i - a) with (i * 4096) by lia.
    rewrite Z.mod_mul by lia. lia.
  - intros [Hm Hr]. exists ((va - a) / 4096). rewrite elem_of_zseq. zlia.
Qed.

Lemma vpages_app a n k va :
  va ∈ vpages a (n + k) ↔ va ∈ vpages a n ∨ va ∈ vpages (a + 4096 * Z.of_nat n) k.
Proof. rewrite !elem_of_vpages. split; [intros; zlia|]. intros [?|?]; zlia. Qed.

Lemma vpages_slot a n va :
  0 ≤ a → a mod 4096 = 0 → a + 4096 * Z.of_nat n < MAXVA + 4096 → va ∈ vpages a n → vslot va.
Proof. rewrite elem_of_vpages, MAXVA_eq. unfold vslot. intros. zlia. Qed.

(** [um] without the pages of a range. *)
Definition um_drop (um : gmap Z Z) (a : Z) (n : nat) : gmap Z Z :=
  foldr delete um (vpages a n).

Lemma foldr_delete_lookup (um : gmap Z Z) ks va :
  foldr delete um ks !! va = if decide (va ∈ ks) then None else um !! va.
Proof.
  induction ks as [|k ks IH]; cbn [foldr].
  - by rewrite decide_False by set_solver.
  - rewrite lookup_delete, IH. clear IH. repeat case_decide; set_solver.
Qed.

Lemma um_drop_S um a n : um_drop (delete a um) (a + 4096) n = um_drop um a (S n).
Proof.
  apply map_eq. intros va. unfold um_drop. rewrite vpages_S, !foldr_delete_lookup, lookup_delete.
  repeat case_decide; set_solver.
Qed.

(** Freeing one data page. *)
Lemma uvmunmap_free_step fuel s l root tr um a pa aend :
  uspace s l root tr um → um !! a = Some pa → a < aend ≤ MAXVA →
  ∃ s', uvmunmap_loop (S fuel) root a aend true s =
          uvmunmap_loop fuel root (a + 4096) aend true s' ∧
    uspace s' (pa :: l) root tr (delete a um) ∧
    (∀ va, vslot va → sv39 (ram s') root va = if decide (va = a) then 0 else sv39 (ram s) root va) ∧
    same_outside tr [pa] (ram s) (ram s').
Proof.
  intros [A P O I U] Ha Hend. destruct (P _ _ Ha) as (Hva & Hpa & Hleaf).
  destruct (O _ _ Ha) as (Hok & Hin & Htr).
  destruct (aspace_kfree s l root tr pa A Hok Hin Htr) as (s1 & E1 & A1 & V1 & R1).
  destruct (uvmunmap_step fuel s l root tr a aend true s1 A Hva Hend Hleaf)
    as (s2 & E2 & A2 & V2 & R2); [by rewrite Hpa | eauto |].
  exists s2. split; [done|].
  assert (∀ va, vslot va →
    sv39 (ram s2) root va = if decide (va = a) then 0 else sv39 (ram s) root va) as V.
  { intros va Hv. rewrite V2 by done. by rewrite V1. }
  split_and!; [split|..]; try done.
  - by apply A2.
  - intros va pa'. rewrite lookup_delete. case_decide as Hd; [done|]. intros Hl.
    destruct (P _ _ Hl) as (Hv & Hp' & Hf'). rewrite V by auto. by rewrite decide_False by done.
  - intros va pa'. rewrite lookup_delete. case_decide as Hd; [done|]. intros Hl.
    destruct (O _ _ Hl) as (Hok' & Hin' & Htr'). split_and!; try done.
    apply not_elem_of_cons. split; [|done]. intros ->. apply Hd. by eapply I.
  - intros va va' p. rewrite !lookup_delete. repeat case_decide; try done. apply I.
  - intros va Hv. rewrite V by done. rewrite lookup_delete. repeat case_decide; try done.
    by apply U.
  - intros b Hb Hf. rewrite R2; [|done|set_solver]. apply R1. apply Hf. set_solver.
Qed.

Lemma uvmunmap_free_loop n fuel s l root tr um a :
  uspace s l root tr um → (n < fuel)%nat → a + 4096 * Z.of_nat n ≤ MAXVA →
  (∀ va, va ∈ vpages a n → is_Some (um !! va)) →
  ∃ s' pas, uvmunmap_loop fuel root a (a + 4096 * Z.of_nat n) true s = Ok tt s' ∧
    Forall2 (λ va pa, um !! va = Some pa) (vpages a n) pas ∧
    uspace s' (reverse pas ++ l) root tr (um_drop um a n) ∧
    (∀ va, vslot va →
      sv39 (ram s') root va = if decide (va ∈ vpages a n) then 0 else sv39 (ram s) root va) ∧
    same_outside tr pas (ram s) (ram s').
Proof.
  revert fuel s l um a. induction n as [|n IH]; intros fuel s l um a U Hf Hmax Hum;
    (destruct fuel as [|fuel]; [lia|]).
  - exists s, []. cbn [uvmunmap_loop]. destruct (a <? _) eqn:E; bool_to_prop; [lia|].
    split_and!; try done.
  - rewrite vpages_S in *. destruct (Hum a) as [pa Hpa]; [set_solver|].
    destruct (uvmunmap_free_step fuel s l root tr um a pa (a + 4096 * Z.of_nat (S n)) U Hpa)
      as (s1 & E1 & U1 & V1 & R1); [lia|].
    destruct (IH fuel s1 (pa :: l) (delete a um) (a + 4096) U1)
      as (s2 & pas & E2 & F2 & U2 & V2 & R2); [lia..| |].
    { intros va Hva. rewrite lookup_delete_ne; [apply Hum; set_solver|].
      apply elem_of_vpages in Hva. lia. }
    replace (a + 4096 + 4096 * Z.of_nat n) with (a + 4096 * Z.of_nat (S n)) in E2 by lia.
    exists s2, (pa :: pas). rewrite E1, E2. split_and!; try done.
    + constructor; [done|]. eapply Forall2_impl; [done|]. intros va p.
      cbv beta. rewrite lookup_delete. by case_decide.
    + rewrite um_drop_S in U2. by rewrite reverse_cons, <- app_assoc.
    + intros va Hva. rewrite V2, V1 by done. repeat case_decide; set_solver.
    + intros b Hb Hq. rewrite R2; [|done|set_solver]. apply R1; [done|set_solver].
Qed.

Lemma uvmunmap_free_spec s l root tr um a n :
  uspace s l root tr um → a mod 4096 = 0 → 0 ≤ a → a + 4096 * Z.of_nat n ≤ MAXVA →
  (∀ va, va ∈ vpages a n → is_Some (um !! va)) →
  ∃ s' pas, uvmunmap root a (Z.of_nat n) true s = Ok tt s' ∧
    Forall2 (λ va pa, um !! va = Some pa) (vpages a n) pas ∧
    uspace s' (reverse pas ++ l) root tr (um_drop um a n) ∧
    (∀ va, vslot va →
      sv39 (ram s') root va = if decide (va ∈ vpages a n) then 0 else sv39 (ram s) root va) ∧
    same_outside tr pas (ram s) (ram s').
Proof.
  intros U Ham Ha Hmax Hum. unfold uvmunmap, PGSIZE. rewrite Ham. simpl negb. cbv iota.
  rewrite MAXVA_eq in *. rewrite u64_small by lia. rewrite Nat2Z.id.
  rewrite (Z.mul_comm (Z.of_nat n)).
  apply uvmunmap_free_loop; try done; rewrite ?MAXVA_eq; lia.
Qed.

(** A kernel mapping (trampoline, trapframe) is removed without freeing. *)
Lemma uvmunmap_nofree_spec s l root tr um a :
  uspace s l root tr um → vpage a → um !! a = None → leaf_pte (sv39 (ram s) root a) = true →
  ∃ s', uvmunmap root a 1 false s = Ok tt s' ∧ uspace s' l root tr um ∧
    (∀ va, vslot va →
      sv39 (ram s') root va = if decide (va = a) then 0 else sv39 (ram s) root va) ∧
    same_outside tr [] (ram s) (ram s').
Proof.
  intros [A P O I U] Ha Hum Hleaf. pose proof Ha as [Hr Hm].
  unfold uvmunmap, PGSIZE. rewrite Hm. change (negb (0 =? 0)) with false. cbv iota.
  rewrite MAXVA_eq in *. rewrite u64_small by zlia. change (S (Z.to_nat 1)) with 2%nat.
  destruct (uvmunmap_step 1 s l root tr a (a + 1 * 4096) false s A Ha)
    as (s2 & E2 & A2 & V2 & R2); [rewrite MAXVA_eq; zlia | done..| eauto |].
  exists s2. rewrite E2. cbn [uvmunmap_loop].
  destruct (a + 4096 <? _) eqn:E; bool_to_prop; [lia|].
  split_and!; [done|split|..]; try done.
  - by apply A2.
  - intros va pa Hl. destruct (P _ _ Hl) as (Hv & Hp & Hf). rewrite V2 by auto.
    rewrite decide_False by congruence. done.
  - intros va Hv. rewrite V2 by auto. case_decide; [done|]. by apply U.
Qed.

(** ** Freeing the page-table pages *)

(** The pages of the subtree at path [k]. *)
Definition under (tr : ptree) (k : list Z) (q : Z) : Prop :=
  ∃ k', k `prefix_of` k' ∧ tr !! k' = Some q.

(** What [freewalk] expects of an entry: inner entries as in [pt_wf], no
    valid entry at the last level. *)
Definition entry_ok (m : mem) (tr : ptree) (k : list Z) (p i : Z) : Prop :=
  if (length k <? 2)%nat
  then ld64 m (p + 8 * i) =
         match tr !! (k ++ [i]) with Some q => Z.lor (PA2PTE q) PTE_V | None => 0 end
  else pte_valid (ld64 m (p + 8 * i)) = false.

Definition sub_ok (m : mem) (tr : ptree) (k : list Z) : Prop :=
  ∀ k' p i, k `prefix_of` k' → tr !! k' = Some p → idx_ok i → entry_ok m tr k' p i.

(** [a] is in no page of a set. *)
Definition off (Q : Z → Prop) (a : Z) : Prop := ∀ q, Q q → ¬ (q ≤ a < q + 4096).

Section freewalk.
  Context {m0 : mem} {tr : ptree} {root : Z} (W : pt_wf m0 tr root).

Lemma under_page k q : under tr k q → page_ok q.
Proof. intros (k' & _ & Hk). by eapply (pw_page _ _ _ W). Qed.

Lemma prefix_snoc_ne (k k' : list Z) i j :
  i ≠ j → (k ++ [i]) `prefix_of` k' → ¬ (k ++ [j]) `prefix_of` k'.
Proof.
  intros Hne [x ->] [y E]. rewrite <- !app_assoc in E. simplify_list_eq.
Qed.

Lemma under_disj k i j q q' :
  i ≠ j → under tr (k ++ [i]) q → under tr (k ++ [j]) q' → q ≠ q'.
Proof.
  intros Hne (k1 & P1 & H1) (k2 & P2 & H2) ->.
  rewrite (pw_inj _ _ _ W _ _ _ H1 H2) in P1. by eapply prefix_snoc_ne.
Qed.

Lemma under_self k p i q : tr !! k = Some p → under tr (k ++ [i]) q → q ≠ p.
Proof.
  intros Hk (k' & [x ->] & H') ->. pose proof (pw_inj _ _ _ W _ _ _ Hk H') as E.
  apply (f_equal length) in E. rewrite !length_app in E. simpl in E. lia.
Qed.

Lemma under_anc k x q : tr !! (k ++ x) = Some q → is_Some (tr !! k).
Proof.
  revert q. induction x as [|y x IH] using rev_ind; intros q Hq.
  - rewrite app_nil_r in Hq. eauto.
  - rewrite app_assoc in Hq. by destruct (pw_parent _ _ _ W _ _ _ Hq) as [_ [? ?%IH]].
Qed.

(** Entries of a page survive changes elsewhere. *)
Lemma entry_agree m m' k p i :
  (∀ a, p ≤ a < p + 4096 → ld8 m' a = ld8 m a) → idx_ok i →
  entry_ok m tr k p i → entry_ok m' tr k p i.
Proof.
  intros H Hi. unfold entry_ok. rewrite (ld64_agree m' m); [done|].
  intros b Hb. apply H. unfold idx_ok in Hi. lia.
Qed.

Lemma sub_agree m m' k :
  (∀ q a, under tr k q → q ≤ a < q + 4096 → ld8 m' a = ld8 m a) →
  sub_ok m tr k → sub_ok m' tr k.
Proof.
  intros H S k' p i Hp Hk Hi. eapply entry_agree; [|done|by apply S].
  intros a. apply H. by exists k'.
Qed.

(** What freeing subtree [k] from a state with free pages [l] achieves. *)
Definition freed (Q : Z → Prop) (Q' : Z → Prop) (s : kmem) (l : list Z) (s' : kmem) (l' : list Z) :=
  free_list s' l' ∧ (∀ q, q ∈ l' ↔ q ∈ l ∨ Q q) ∧
  ∀ a, off Q' a → ld8 (ram s') a = ld8 (ram s) a.

Definition freewalk_body fuel (p i : Z) : M kmem unit :=
  pte ← kread64 (p + 8 * i);
  if nonzero (Z.land pte PTE_V) &&
     (Z.land pte (Z.lor (Z.lor PTE_R PTE_W) PTE_X) =? 0) then
    freewalk fuel (PTE2PA pte) ;; kwrite64 (p + 8 * i) 0
  else if nonzero (Z.land pte PTE_V) then panic "freewalk: leaf"
  else ret tt.

(** One entry; [IH] is the specification of the recursive call. *)
Lemma freewalk_entry fuel k p i s l :
  (∀ q s l, tr !! (k ++ [i]) = Some q → free_list s l → sub_ok (ram s) tr (k ++ [i]) →
     (∀ q, under tr (k ++ [i]) q → q ∉ l) →
     ∃ s' l', freewalk fuel q s = Ok tt s' ∧
       freed (under tr (k ++ [i])) (under tr (k ++ [i])) s l s' l') →
  tr !! k = Some p → idx_ok i → free_list s l → p ∉ l →
  entry_ok (ram s) tr k p i → sub_ok (ram s) tr (k ++ [i]) →
  (∀ q, under tr (k ++ [i]) q → q ∉ l) →
  ∃ s' l', freewalk_body fuel p i s = Ok tt s' ∧
    free_list s' l' ∧ (∀ q, q ∈ l' ↔ q ∈ l ∨ under tr (k ++ [i]) q) ∧
    ∀ a, off (under tr (k ++ [i])) a → ¬ (p + 8 * i ≤ a < p + 8 * i + 8) →
      ld8 (ram s') a = ld8 (ram s) a.
Proof.
  intros IH Hk Hi F Hp He Hs Hd. unfold freewalk_body. krun. unfold entry_ok in He.
  change (nonzero (Z.land ?e PTE_V)) with (pte_valid e).
  destruct (tr !! (k ++ [i])) as [q|] eqn:Eq.
  - destruct (length k <? 2)%nat eqn:El.
    2: { pose proof (pw_short _ _ _ W _ _ Eq) as Hsh. rewrite length_app in Hsh. simpl in Hsh.
         apply Nat.ltb_ge in El. lia. }
    pose proof (pw_page _ _ _ W _ _ Eq) as Hq. rewrite !He, pte_node, pte_node_pa by done.
    change (Z.lor (Z.lor PTE_R PTE_W) PTE_X) with 14. rewrite land_flag_mod by lia. destruct (page_ok_pa q Hq).
    rewrite PTE_FLAGS_lor by (rewrite ?PTE_V_eq; lia).
    change (true && (Z.land PTE_V 14 =? 0)) with true. cbv iota.
    destruct (IH q s l eq_refl F Hs Hd) as (s1 & l1 & E1 & F1 & M1 & R1).
    rewrite (bind_ok _ _ _ _ _ E1).
    exists (set_ram (st64 (ram s1) (p + 8 * i) 0) s1), l1. split_and!; try done.
    + apply free_list_ram; [done|]. intros x Hx. apply ld64_st64_ne.
      destruct F1 as [_ _ F1 _]. rewrite Forall_forall in F1. destruct (F1 x Hx) as [Hxa _].
      pose proof (pw_aligned W _ _ Hk) as Hpa.
      assert (x ≠ p) as Hxp.
      { intros ->. apply M1 in Hx as [Hx|Hx]; [done|]. by eapply under_self. }
      unfold idx_ok in Hi. destruct (page_disjoint x p); auto; lia.
    + intros a Ho Ha. cbn [ram set_ram]. rewrite ld8_st64_ne by lia. by apply R1.
  - exists s, l. assert (pte_valid (ld64 (ram s) (p + 8 * i)) = false) as ->.
    { destruct (length k <? 2)%nat; [by rewrite He | done]. }
    split_and!; try done. intros q. split; [auto|]. intros [?|(k' & [x ->] & Hk')]; [done|].
    destruct (under_anc _ _ _ Hk'). congruence.
Qed.

(** The entries [ids] of page [p], one after the other. *)
Lemma freewalk_loop fuel k p ids s l :
  (∀ i q s l, tr !! (k ++ [i]) = Some q → free_list s l → sub_ok (ram s) tr (k ++ [i]) →
     (∀ q, under tr (k ++ [i]) q → q ∉ l) →
     ∃ s' l', freewalk fuel q s = Ok tt s' ∧
       freed (under tr (k ++ [i])) (under tr (k ++ [i])) s l s' l') →
  tr !! k = Some p → NoDup ids → Forall idx_ok ids → free_list s l → p ∉ l →
  (∀ i, i ∈ ids → entry_ok (ram s) tr k p i ∧ sub_ok (ram s) tr (k ++ [i]) ∧
     ∀ q, under tr (k ++ [i]) q → q ∉ l) →
  ∃ s' l', mfor ids (freewalk_body fuel p) s = Ok tt s' ∧
    freed (λ q, ∃ i, i ∈ ids ∧ under tr (k ++ [i]) q) (under tr k) s l s' l' ∧ p ∉ l'.
Proof.
  intros IH Hk. revert s l. induction ids as [|i ids IHis]; intros s l Hnd Hidx F Hp Hok.
  { exists s, l. split_and!; try done. split_and!; try done. set_solver. }
  apply NoDup_cons in Hnd as [Hni Hnd]. apply Forall_cons in Hidx as [Hi Hidx].
  destruct (Hok i) as (He & Hs & Hd); [set_solver|].
  destruct (freewalk_entry fuel k p i s l (IH i) Hk Hi F Hp He Hs Hd)
    as (s1 & l1 & E1 & F1 & M1 & R1).
  pose proof (pw_aligned W _ _ Hk) as Hpa.
  destruct (IHis s1 l1 Hnd Hidx F1) as (s2 & l2 & E2 & (F2 & M2 & R2) & Hp2).
  - rewrite M1. intros [?|Hu]; [done|]. by eapply under_self.
  - intros j Hj. assert (i ≠ j) as Hij by set_solver.
    destruct (Hok j) as (He' & Hs' & Hd'); [set_solver|].
    rewrite Forall_forall in Hidx. specialize (Hidx j Hj). split_and!.
    + unfold entry_ok. rewrite (ld64_agree (ram s1) (ram s)); [done|]. intros b Hb.
      unfold idx_ok in Hi, Hidx. apply R1; [|lia]. intros q Hq.
      pose proof (under_self k p i q Hk Hq). destruct (under_page _ _ Hq).
      destruct (page_disjoint q p); auto; lia.
    + apply (sub_agree (ram s)); [|done]. intros q a Hq Ha. apply R1.
      * intros q' Hq'. pose proof (under_disj k i j q' q Hij Hq' Hq).
        destruct (under_page _ _ Hq), (under_page _ _ Hq'). destruct (page_disjoint q q'); auto; lia.
      * pose proof (under_self k p j q Hk Hq). destruct (under_page _ _ Hq).
        unfold idx_ok in Hi. destruct (page_disjoint q p); auto; lia.
    + intros q Hq. rewrite M1. intros [?|Hq']; [by apply (Hd' q)|].
      by destruct (under_disj k i j q q Hij Hq' Hq).
  - exists s2, l2. cbn [mfor]. rewrite (bind_ok _ _ _ _ _ E1).
    split; [done|]. split; [|done]. split_and!; [done|..].
    + intros q. rewrite M2, M1. set_solver.
    + intros a Ha. rewrite R2 by done. apply R1.
      * intros q (k' & Hk' & Hq). apply Ha. exists k'. split; [|done].
        etransitivity; [|exact Hk']. by apply prefix_app_r.
      * unfold idx_ok in Hi. specialize (Ha p ltac:(by exists k)). lia.
Qed.

Lemma under_split k p q :
  tr !! k = Some p → under tr k q ↔ q = p ∨ ∃ i, i ∈ zseq 0 512 ∧ under tr (k ++ [i]) q.
Proof.
  intros Hk. split.
  - intros (k' & [[|i x] ->] & Hq).
    + left. rewrite app_nil_r in Hq. congruence.
    + right. exists i. change (i :: x) with ([i] ++ x) in Hq. rewrite app_assoc in Hq.
      destruct (under_anc _ _ _ Hq) as [r Hr].
      destruct (pw_parent _ _ _ W _ _ _ Hr) as [Hi _]. split; [|by exists ((k ++ [i]) ++ x); split; [by eexists|]].
      apply elem_of_zseq. unfold idx_ok in Hi. lia.
  - intros [->|(i & _ & k' & Hk' & Hq)]; [by exists k|]. exists k'. split; [|done].
    etransitivity; [|exact Hk']. by apply prefix_app_r.
Qed.

Lemma freewalk_finish fuel k p s l s1 l1 :
  tr !! k = Some p →
  mfor (zseq 0 512) (freewalk_body fuel p) s = Ok tt s1 →
  freed (λ q, ∃ i, i ∈ zseq 0 512 ∧ under tr (k ++ [i]) q) (under tr k) s l s1 l1 → p ∉ l1 →
  ∃ s' l', freewalk (S fuel) p s = Ok tt s' ∧ freed (under tr k) (under tr k) s l s' l'.
Proof.
  intros Hk E1 (F1 & M1 & R1) Hp1.
  destruct (kfree_spec s1 l1 p F1 (pw_page _ _ _ W _ _ Hk) Hp1) as (s2 & E2 & F2 & R2).
  exists s2, (p :: l1). split.
  - change (freewalk (S fuel) p) with (mfor (zseq 0 512) (freewalk_body fuel p) ;; kfree p).
    by rewrite (bind_ok _ _ _ _ _ E1).
  - split_and!; [done| |].
    + intros q. rewrite elem_of_cons, M1, (under_split k p q Hk). tauto.
    + intros a Ha. rewrite R2; [by apply R1|]. apply Ha. by exists k.
Qed.

Lemma under_child k i q : under tr (k ++ [i]) q → under tr k q.
Proof.
  intros (k' & Hk' & Hq). exists k'. split; [|done].
  etransitivity; [|exact Hk']. by apply prefix_app_r.
Qed.

Lemma sub_child m k i : sub_ok m tr k → sub_ok m tr (k ++ [i]).
Proof.
  intros Hs k' q j Hk' Hq Hj. apply Hs; try done.
  etransitivity; [|exact Hk']. by apply prefix_app_r.
Qed.

Lemma freewalk_sub n k p s l :
  (length k + n = 2)%nat → tr !! k = Some p → free_list s l → sub_ok (ram s) tr k →
  (∀ q, under tr k q → q ∉ l) →
  ∃ s' l', freewalk (S n) p s = Ok tt s' ∧ freed (under tr k) (under tr k) s l s' l'.
Proof.
  revert k p s l. induction n as [|n IH]; intros k p s l Hlen Hk F Hs Hd.
  all: assert (Forall idx_ok (zseq 0 512)) as Hidx
    by (apply Forall_forall; intros i Hi%elem_of_zseq; unfold idx_ok; lia).
  all: assert (p ∉ l) as Hp by (apply Hd; by exists k).
  all: assert (∀ i, i ∈ zseq 0 512 → entry_ok (ram s) tr k p i ∧ sub_ok (ram s) tr (k ++ [i]) ∧
     ∀ q, under tr (k ++ [i]) q → q ∉ l) as Hall.
  1, 3: intros i Hi; rewrite Forall_forall in Hidx; split_and!;
    [apply Hs; auto | by apply sub_child | eauto using under_child].
  - destruct (freewalk_loop 0 k p (zseq 0 512) s l) with (2 := Hk) (3 := zseq_NoDup 0 512)
      as (s1 & l1 & E1 & H1 & Hp1); try done.
    + intros i q s1 l1 Hq. exfalso. pose proof (pw_short _ _ _ W _ _ Hq) as Hsh.
      rewrite length_app in Hsh. simpl in Hsh. lia.
    + by eapply freewalk_finish.
  - destruct (freewalk_loop (S n) k p (zseq 0 512) s l) with (2 := Hk) (3 := zseq_NoDup 0 512)
      as (s1 & l1 & E1 & H1 & Hp1); try done.
    + intros i q s1 l1 Hq F1 Hs1 Hd1. apply IH; try done. rewrite length_app. simpl. lia.
    + by eapply freewalk_finish.
Qed.
End freewalk.

(** The entries of a level-0 page are the leaves of the addresses under it. *)
Lemma leaf_entry_invalid s root tr k p i :
  pt_wf (ram s) tr root → (∀ va, vslot va → pte_valid (sv39 (ram s) root va) = false) →
  tr !! k = Some p → (2 ≤ length k)%nat → idx_ok i →
  pte_valid (ld64 (ram s) (p + 8 * i)) = false.
Proof.
  intros W Hv Hk Hl Hi. pose proof (pw_short _ _ _ W _ _ Hk).
  destruct k as [|i2 [|i1 [|]]]; simpl in *; try lia.
  destruct (pw_parent _ _ _ W [i2] i1 p Hk) as [Hi1 [q Hq]].
  destruct (pw_parent _ _ _ W [] i2 q Hq) as [Hi2 _]. unfold idx_ok in *.
  set (va := i2 * 1073741824 + i1 * 2097152 + i * 4096).
  assert (PX 2 va = i2) as E2 by (rewrite PX2_eq; unfold va; zlia).
  assert (PX 1 va = i1) as E1 by (rewrite PX1_eq; unfold va; zlia).
  assert (PX 0 va = i) as E0 by (rewrite PX0_eq; unfold va; zlia).
  rewrite <- (Hv va) by (unfold vslot, va; zlia).
  rewrite (sv39_leaf W). unfold leaf. by rewrite E2, E1, E0, Hk.
Qed.

(** All page-table pages of an address space without valid leaves are freed,
    and nothing else. *)
Lemma freewalk_spec s l root tr :
  aspace s l root tr → (∀ va, vslot va → pte_valid (sv39 (ram s) root va) = false) →
  ∃ s' l', freewalk 3 root s = Ok tt s' ∧ free_list s' l' ∧
    (∀ q, q ∈ l' ↔ q ∈ l ∨ ∃ k, tr !! k = Some q) ∧
    ∀ a, outside tr a → ld8 (ram s') a = ld8 (ram s) a.
Proof.
  intros [F W D] Hv.
  destruct (freewalk_sub W 2 [] root s l) as (s' & l' & E & F' & M & R);
    [done | by apply pw_root with (1 := W) | done | | |].
  - intros k p i _ Hk Hi. unfold entry_ok. case_if.
    + apply Nat.ltb_lt in E. by apply (pw_edge _ _ _ W).
    + apply Nat.ltb_ge in E. by apply (leaf_entry_invalid s root tr k p i W).
  - intros q (k & _ & Hk). by apply (D k).
  - exists s', l'. split_and!; try done.
    + intros q. rewrite M. split; (intros [?|(k & ?)]; [by left|right; exists k]); [by destruct_and!|].
      split; [apply prefix_nil|done].
    + intros a Ha. apply R. intros q (k & _ & Hk). by apply (Ha k).
Qed.
End vmuser.
