(* ===== verification/VmAlloc.v ===== *)
(** * Growing, shrinking and destroying a user address space

    [uvmalloc], [uvmdealloc], [uvmfree] of [kernel/vm.c] against [uspace].
    [accounts] says that the pages that are free, hold the page table or hold
    user data are the same before and after: nothing is leaked, nothing is
    made up. *)

From S2P Require Import Base Riscv Mem Kstring Spinlock Kalloc Vm VmSpec VmMap VmUser.
Local Open Scope Z_scope.
Local Open Scope kernel_scope.

Definition held (l : list Z) (tr : ptree) (um : gmap Z Z) (q : Z) : Prop :=
  q ∈ l ∨ (∃ k, tr !! k = Some q) ∨ ∃ va, um !! va = Some q.

Definition accounts (l : list Z) (tr : ptree) (um : gmap Z Z)
    (l' : list Z) (tr' : ptree) (um' : gmap Z Z) : Prop :=
  ∀ q, held l tr um q ↔ held l' tr' um' q.

Section vmalloc.
  Context {LK : Link} {LKO : LinkOk}.

(** The user data of the pages in [um] is untouched. *)
Definition same_data (um : gmap Z Z) (m m' : mem) : Prop :=
  ∀ va pa a, um !! va = Some pa → pa ≤ a < pa + 4096 → ld8 m' a = ld8 m a.

Lemma accounts_refl l tr um : accounts l tr um l tr um.
Proof. done. Qed.

Lemma accounts_trans l tr um l1 tr1 um1 l2 tr2 um2 :
  accounts l tr um l1 tr1 um1 → accounts l1 tr1 um1 l2 tr2 um2 → accounts l tr um l2 tr2 um2.
Proof. unfold accounts. naive_solver. Qed.

Lemma same_data_outside s l root tr um ls m' :
  uspace s l root tr um → (∀ q, q ∈ ls → q ∈ l) → same_outside tr ls (ram s) m' →
  same_data um (ram s) m'.
Proof.
  intros [A P O I U] Hls R va pa a Hva Ha. destruct (O _ _ Hva) as ([Hpa _] & Hin & Htr).
  apply R.
  - intros k p Hk. pose proof (pw_aligned (as_pt _ _ _ _ A) _ _ Hk). pose proof (Htr _ _ Hk).
    destruct (page_disjoint p pa); auto; lia.
  - intros q Hq. assert (q mod 4096 = 0).
    { destruct A as [[_ _ F _] _ _]. rewrite Forall_forall in F. apply (F q). auto. }
    assert (q ≠ pa) by (intros ->; apply Hin; auto). destruct (page_disjoint q pa); auto; lia.
Qed.

(** The tree grew: the data pages are as before. *)
Lemma uspace_grows s l root tr um s' l' tr' :
  uspace s l root tr um → grows root s l tr s' l' tr' →
  (∀ va, vslot va → sv39 (ram s') root va = sv39 (ram s) root va) →
  uspace s' l' root tr' um ∧ accounts l tr um l' tr' um ∧ same_data um (ram s) (ram s').
Proof.
  intros US G V. pose proof US as [A P O I U]. pose proof G as [A' T N [new F] Us R].
  split_and!; [split|..]; try done.
  - intros va pa Hva. destruct (P _ _ Hva) as (Hp & ? & ?). rewrite V by auto. done.
  - intros va pa Hva. destruct (O _ _ Hva) as (Hok & Hin & Htr). split_and!; [done|set_solver|].
    intros k p Hk ->. apply N in Hk as [Hk|Hk]; [by apply (Htr k pa)|done].
  - intros va Hva. rewrite V by auto. by apply U.
  - intros q. unfold held. split.
    + intros [Hq|[[k Hk]|?]]; [|right; left; eauto|auto]. apply Us in Hq as [?|?]; auto.
    + intros [Hq|[[k Hk]|?]]; [left; set_solver| |auto]. apply N in Hk as [?|?]; eauto.
  - eapply same_data_outside; eauto.
Qed.

(** Unmapping keeps the data of the pages that stay. *)
Lemma same_data_unmap s l root tr um pas m' :
  uspace s l root tr um → same_outside tr pas (ram s) m' → (∀ q, q ∈ pas → page_ok q) →
  ∀ va pa a, um !! va = Some pa → pa ∉ pas → pa ≤ a < pa + 4096 → ld8 m' a = ld8 (ram s) a.
Proof.
  intros [A P O I U] R Hok va pa a Hva Hin Ha. destruct (O _ _ Hva) as ([Hpa _] & _ & Htr).
  apply R.
  - intros k p Hk. pose proof (pw_aligned (as_pt _ _ _ _ A) _ _ Hk). pose proof (Htr _ _ Hk).
    destruct (page_disjoint p pa); auto; lia.
  - intros q Hq. destruct (Hok q Hq). assert (q ≠ pa) by (by intros ->).
    destruct (page_disjoint q pa); auto; lia.
Qed.

Lemma Forall2_in_r {A B} (P : A → B → Prop) xs ys y :
  Forall2 P xs ys → y ∈ ys → ∃ x, x ∈ xs ∧ P x y.
Proof.
  intros HF. induction HF as [|x' y' xs ys HP HF IH]; [set_solver|].
  intros [->|Hy]%elem_of_cons; [exists x'; set_solver|].
  destruct (IH Hy) as (x & ? & ?). exists x. set_solver.
Qed.

Lemma Forall2_in_l {A B} (P : A → B → Prop) xs ys x :
  Forall2 P xs ys → x ∈ xs → ∃ y, y ∈ ys ∧ P x y.
Proof. intros HF%Forall2_flip Hx. by apply (Forall2_in_r _ _ _ _ HF). Qed.

Lemma um_drop_lookup um a n va :
  um_drop um a n !! va = if decide (va ∈ vpages a n) then None else um !! va.
Proof. apply foldr_delete_lookup. Qed.

Lemma um_drop_accounts l tr um a n pas :
  Forall2 (λ va pa, um !! va = Some pa) (vpages a n) pas →
  accounts l tr um (reverse pas ++ l) tr (um_drop um a n).
Proof.
  intros HF q. unfold held. setoid_rewrite um_drop_lookup.
  rewrite elem_of_app, elem_of_reverse. split.
  - intros [?|[?|[va Hva]]]; auto. destruct (decide (va ∈ vpages a n)) as [Hin|Hin].
    + destruct (Forall2_in_l _ _ _ _ HF Hin) as (pa & Hpa & Hum). left. left. congruence.
    + right; right. exists va. by rewrite decide_False.
  - intros [[Hq|?]|[?|[va Hva]]]; auto.
    + destruct (Forall2_in_r _ _ _ _ HF Hq) as (va & _ & Hum). eauto.
    + case_decide; [done|]. eauto.
Qed.

(** ** uvmdealloc *)
Lemma PGROUNDUP_pages sz :
  0 ≤ sz ≤ MAXVA → ∃ n : nat, PGROUNDUP sz = 4096 * Z.of_nat n ∧ sz ≤ 4096 * Z.of_nat n < sz + 4096.
Proof.
  intros Hsz. rewrite MAXVA_eq in Hsz. destruct (PGROUNDUP_spec sz) as [Hm Hb]; [lia|].
  exists (Z.to_nat (PGROUNDUP sz / 4096)). zlia.
Qed.

(** The number of pages [uvmdealloc] gives back. *)
Definition npages_between (newsz oldsz : Z) : nat :=
  Z.to_nat ((PGROUNDUP oldsz - PGROUNDUP newsz) / PGSIZE).

Lemma uvmdealloc_spec s l root tr um oldsz newsz :
  uspace s l root tr um → 0 ≤ newsz < oldsz → oldsz ≤ MAXVA →
  (∀ va, va ∈ vpages (PGROUNDUP newsz) (npages_between newsz oldsz) → is_Some (um !! va)) →
  ∃ s' l', uvmdealloc root oldsz newsz s = Ok newsz s' ∧
    let um' := um_drop um (PGROUNDUP newsz) (npages_between newsz oldsz) in
    uspace s' l' root tr um' ∧ accounts l tr um l' tr um' ∧ same_data um' (ram s) (ram s') ∧
    (∀ va, vslot va → sv39 (ram s') root va =
      if decide (va ∈ vpages (PGROUNDUP newsz) (npages_between newsz oldsz)) then 0
      else sv39 (ram s) root va).
Proof.
  intros US Hsz Hmax. unfold npages_between.
  destruct (PGROUNDUP_pages newsz) as (n & En & Hn); [lia|].
  destruct (PGROUNDUP_pages oldsz) as (o & Eo & Ho); [lia|].
  rewrite En, Eo. unfold uvmdealloc. rewrite En, Eo. unfold PGSIZE.
  replace ((4096 * Z.of_nat o - 4096 * Z.of_nat n) / 4096) with (Z.of_nat o - Z.of_nat n) by zlia.
  destruct (newsz >=? oldsz) eqn:E; bool_to_prop; [lia|]. intros Hum.
  destruct (_ <? _) eqn:E'; bool_to_prop.
  - rewrite MAXVA_eq in Hmax.
    replace (u64 (i32 (Z.of_nat o - Z.of_nat n))) with (Z.of_nat (o - n)) by
      (rewrite i32_small, u64_small by lia; lia).
    replace (Z.to_nat (Z.of_nat o - Z.of_nat n)) with (o - n)%nat in * by lia.
    destruct (uvmunmap_free_spec s l root tr um (4096 * Z.of_nat n) (o - n) US) as
      (s' & pas & E1 & F1 & U1 & V1 & R1); [zlia | lia | rewrite MAXVA_eq; zlia | done |].
    exists s', (reverse pas ++ l). rewrite (bind_ok _ _ _ _ _ E1). split; [done|]. cbv zeta.
    split; [done|]. split_and!; [| |done].
    + by apply um_drop_accounts.
    + intros va pa a Hva Ha. rewrite um_drop_lookup in Hva. case_decide as Hd; [done|].
      apply (same_data_unmap s l root tr um pas _ US R1) with (va := va) (pa := pa); try done.
      * intros q Hq. destruct (Forall2_in_r _ _ _ _ F1 Hq) as (v & _ & Hv).
        apply (us_page _ _ _ _ _ US v q Hv).
      * intros Hin. destruct (Forall2_in_r _ _ _ _ F1 Hin) as (v & Hv & Hp').
        apply Hd. by rewrite (us_inj _ _ _ _ _ US _ _ _ Hva Hp').
  - replace (Z.to_nat (Z.of_nat o - Z.of_nat n)) with 0%nat by lia.
    exists s, l. split; [done|]. cbv zeta. by split_and!.
Qed.

(** ** A page on its way into the address space *)

(** A page from the free list filled with anything. *)
Lemma uspace_take s q l root tr um :
  uspace s (q :: l) root tr um →
  let s0 := Kmem (memset (ram s) q 5 PGSIZE) false (ld64 (ram s) q) in
  kalloc s = Ok q s0 ∧ page_ok q ∧ q ∉ l ∧ (∀ k p, tr !! k = Some p → p ≠ q) ∧
  (∀ va pa, um !! va = Some pa → pa ≠ q) ∧ same_but_page q (ram s) (ram s0) ∧
  ∀ m, same_but_page q (ram s0) m →
    uspace (set_ram m s0) l root tr um ∧
    (∀ va, sv39 m root va = sv39 (ram s) root va) ∧ same_data um (ram s) m.
Proof.
  intros [A P O I U] s0. destruct (aspace_take s q l root tr A) as (E & A0 & Hq & Hin & Hfr & V0).
  assert (∀ va pa, um !! va = Some pa → pa ≠ q) as Hum.
  { intros va pa Hva ->. destruct (O _ _ Hva) as (_ & Hn & _). set_solver. }
  split_and!; try done; [apply same_but_page_memset|].
  intros m Hm. pose proof Hq as [Hqa _].
  assert (∀ p a, p mod 4096 = 0 → p ≠ q → p ≤ a < p + 4096 → ld8 m a = ld8 (ram s0) a) as Hag.
  { intros p a Hp Hne Ha. apply Hm. destruct (page_disjoint p q); auto; lia. }
  destruct (aspace_ram s0 l root tr m A0) as [A1 V1].
  { intros k p a Hk. apply Hag; [|by apply (Hfr k)]. by apply (pw_aligned (as_pt _ _ _ _ A0) k). }
  { intros p a Hp. apply Hag; [|set_solver]. destruct A0 as [[_ _ F _] _ _].
    rewrite Forall_forall in F. by apply F. }
  split_and!; [split|..]; try done.
  - intros va pa Hva. cbn [ram set_ram]. rewrite V1, V0. by apply P.
  - intros va pa Hva. destruct (O _ _ Hva) as (? & ? & ?). split_and!; try done. set_solver.
  - intros va Hva. cbn [ram set_ram]. rewrite V1, V0. by apply U.
  - intros va. by rewrite V1, V0.
  - intros va pa a Hva Ha. destruct (O _ _ Hva) as ([Hpa _] & _ & _). pose proof (Hum _ _ Hva).
    rewrite (Hag pa) by done. apply same_but_page_memset. destruct (page_disjoint pa q); auto; lia.
Qed.

(** Giving such a page back. *)
Lemma uspace_kfree s l root tr um q :
  uspace s l root tr um → page_ok q → q ∉ l → (∀ k p, tr !! k = Some p → p ≠ q) →
  (∀ va pa, um !! va = Some pa → pa ≠ q) →
  ∃ s', kfree q s = Ok tt s' ∧ uspace s' (q :: l) root tr um ∧
    (∀ va, sv39 (ram s') root va = sv39 (ram s) root va) ∧ same_data um (ram s) (ram s').
Proof.
  intros [A P O I U] Hq Hin Htr Hum.
  destruct (aspace_kfree s l root tr q A Hq Hin Htr) as (s' & E & A' & V & R).
  exists s'. split_and!; [|split|..]; try done.
  - intros va pa Hva. rewrite V. by apply P.
  - intros va pa Hva. destruct (O _ _ Hva) as (? & ? & ?). split_and!; try done.
    apply not_elem_of_cons. split; [|done]. by apply (Hum va).
  - intros va Hva. rewrite V. by apply U.
  - intros va pa a Hva Ha. destruct (O _ _ Hva) as ([Hpa _] & _ & _). pose proof (Hum _ _ Hva).
    apply R. destruct Hq as [Hqa _]. destruct (page_disjoint pa q); auto; lia.
Qed.

(** [mappages] of such a page as a data page. *)
Lemma uspace_map s l root tr um s' l' tr' a q perm :
  uspace s l root tr um → grows root s l tr s' l' tr' → vpage a → um !! a = None →
  page_ok q → q ∉ l → (∀ k p, tr !! k = Some p → p ≠ q) →
  (∀ va pa, um !! va = Some pa → pa ≠ q) → 0 ≤ perm < 1024 → leaf_pte (mk_pte q perm) = true →
  (∀ va, vslot va → sv39 (ram s') root va =
     if decide (va = a) then mk_pte q perm else sv39 (ram s) root va) →
  uspace s' l' root tr' (<[a := q]> um) ∧
  accounts (q :: l) tr um l' tr' (<[a := q]> um) ∧ same_data um (ram s) (ram s') ∧
  ∀ b, q ≤ b < q + 4096 → ld8 (ram s') b = ld8 (ram s) b.
Proof.
  intros US G Ha Hna Hq Hin Htr Hum Hperm Hleaf V. pose proof US as [A P O I U].
  pose proof G as [A' T N [new F] Us R]. pose proof (page_ok_pa q Hq) as [Hqb Hqa].
  assert (∀ k p, tr' !! k = Some p → p ≠ q) as Htr'.
  { intros k p Hk ->. apply N in Hk as [Hk|Hk]; [by apply (Htr k q)|done]. }
  split_and!; [split|..]; try done.
  - intros va pa. rewrite lookup_insert. case_decide as Hd.
    + intros [= <-]. subst va. rewrite V by auto. rewrite decide_True by done.
      destruct (mk_pte_facts q perm) as (_ & -> & _); auto.
    + intros Hva. destruct (P _ _ Hva) as (Hp & ? & ?). rewrite V by auto.
      by rewrite decide_False.
  - intros va pa. rewrite lookup_insert. case_decide as Hd.
    + intros [= <-]. split_and!; try done. set_solver.
    + intros Hva. destruct (O _ _ Hva) as (? & Hn & Ht). split_and!; try done; [set_solver|].
      intros k p Hk ->. apply N in Hk as [Hk|Hk]; [by apply (Ht k pa)|done].
  - intros va va' pa. rewrite !lookup_insert. repeat case_decide; subst; try done.
    + intros [= <-] Hva. by destruct (Hum _ _ Hva).
    + intros Hva [= <-]. by destruct (Hum _ _ Hva).
    + apply I.
  - intros va Hva. rewrite V by done. rewrite lookup_insert. repeat case_decide; subst; try done.
    by apply U.
  - intros x. unfold held. split.
    + intros [[->|Hx]%elem_of_cons|[[k Hk]|[va Hva]]].
      * right; right. exists a. apply lookup_insert_eq.
      * apply Us in Hx as [?|?]; auto.
      * right; left. eauto.
      * right; right. exists va. rewrite lookup_insert_ne by congruence. done.
    + rewrite elem_of_cons. intros [Hx|[[k Hk]|[va Hva]]].
      * left; right. set_solver.
      * apply N in Hk as [?|?]; eauto.
      * rewrite lookup_insert in Hva. case_decide; [|eauto]. left; left. congruence.
  - eapply same_data_outside; eauto.
  - intros b Hb. apply R.
    + intros k p Hk. pose proof (pw_aligned (as_pt _ _ _ _ A) _ _ Hk). pose proof (Htr _ _ Hk).
      destruct (page_disjoint p q); auto; lia.
    + intros x Hx. destruct A as [[_ _ FF _] _ _]. rewrite Forall_forall in FF.
      destruct (FF x Hx). assert (x ≠ q) by (by intros ->). destruct (page_disjoint x q); auto; lia.
Qed.

Lemma um_unmapped s l root tr um a :
  uspace s l root tr um → pte_valid (sv39 (ram s) root a) = false → um !! a = None.
Proof.
  intros US Hv. destruct (um !! a) as [pa|] eqn:E; [|done].
  destruct (us_pte _ _ _ _ _ US a pa E) as (_ & _ & Hl%leaf_pte_valid). congruence.
Qed.

Lemma same_data_trans um m1 m2 m3 :
  same_data um m1 m2 → same_data um m2 m3 → same_data um m1 m3.
Proof. intros H1 H2 va pa a Hva Ha. rewrite (H2 va pa), (H1 va pa); done. Qed.

Lemma same_outside_trans tr l m1 m2 m3 :
  same_outside tr l m1 m2 → same_outside tr l m2 m3 → same_outside tr l m1 m3.
Proof. intros H1 H2 a Ha Hl. rewrite H2, H1; done. Qed.

Lemma same_outside_page tr l q m m' :
  q ∈ l → same_but_page q m m' → same_outside tr l m m'.
Proof. intros Hq H a _ Hl. apply H. by apply Hl. Qed.

Lemma same_outside_mono tr l l' m m' :
  (∀ q, q ∈ l → q ∈ l') → same_outside tr l m m' → same_outside tr l' m m'.
Proof. intros Hl H a Ha Hn. apply H; auto. Qed.

(** The step that [uvmalloc] and [uvmcopy] share: a page [q] taken from the
    free list and filled (memory [m]) is mapped at [a]; when [mappages] runs
    out of memory, [kfree] gives [q] back. *)
Lemma map_new_page s q l root tr um a m perm :
  uspace s (q :: l) root tr um → vpage a → pte_valid (sv39 (ram s) root a) = false →
  0 ≤ perm < 1024 → leaf_pte (mk_pte q perm) = true →
  let s0 := Kmem (memset (ram s) q 5 PGSIZE) false (ld64 (ram s) q) in
  same_but_page q (ram s0) m →
  (∃ s2 s3 tr', mappages root a PGSIZE q perm (set_ram m s0) = Ok (-1) s2 ∧
     kfree q s2 = Ok tt s3 ∧ uspace s3 [q] root tr' um ∧ accounts (q :: l) tr um [q] tr' um ∧
     same_data um (ram s) (ram s3) ∧ same_outside tr (q :: l) (ram s) (ram s3) ∧
     (∀ k p, tr' !! k = Some p → tr !! k = Some p ∨ p ∈ q :: l) ∧
     ∀ va, vslot va → sv39 (ram s3) root va = sv39 (ram s) root va) ∨
  (∃ s2 l2 tr2, mappages root a PGSIZE q perm (set_ram m s0) = Ok 0 s2 ∧
     uspace s2 l2 root tr2 (<[a := q]> um) ∧ accounts (q :: l) tr um l2 tr2 (<[a := q]> um) ∧
     same_data um (ram s) (ram s2) ∧ same_outside tr (q :: l) (ram s) (ram s2) ∧
     (∀ k p, tr2 !! k = Some p → tr !! k = Some p ∨ p ∈ q :: l) ∧
     (∀ x, x ∈ l2 → x ∈ q :: l) ∧
     (∀ b, q ≤ b < q + 4096 → ld8 (ram s2) b = ld8 m b) ∧
     ∀ va, vslot va → sv39 (ram s2) root va =
       if decide (va = a) then mk_pte q perm else sv39 (ram s) root va).
Proof.
  intros US Ha Hinv Hperm Hleaf s0 Hm.
  destruct (uspace_take s q l root tr um US) as (_ & Hq & Hin & Htr & Hum & R0 & Hfill).
  fold s0 in R0, Hfill. destruct (Hfill m Hm) as (US1 & V1 & D1). set (s1 := set_ram m s0) in *.
  assert (same_outside tr (q :: l) (ram s) m) as R1.
  { apply same_outside_page with q; [set_solver|]. by eapply same_but_page_trans. }
  destruct (page_ok_pa q Hq) as [_ Hqa]. pose proof (page_ok_bound q Hq) as [Hqb _].
  unfold PHYSTOP, KERNBASE in Hqb.
  destruct (mappages_page s1 l root tr a q perm (us_as _ _ _ _ _ US1) Ha)
    as [(s2 & tr' & E & [G V] & _)|(s2 & l2 & tr2 & E & G & V & _)]; try done; try lia.
  { cbn [ram set_ram s1]. by rewrite V1. }
  - left. destruct (uspace_grows s1 l root tr um s2 [] tr' US1 G) as (US2 & Ac & D2); [done|].
    destruct (uspace_kfree s2 [] root tr' um q US2 Hq) as (s3 & E3 & US3 & V3 & D3).
    { set_solver. }
    { intros k p Hk ->. destruct (gr_new _ _ _ _ _ _ _ G k q Hk); [by apply (Htr k q)|done]. }
    { done. }
    destruct (kfree_spec s2 [] q) as (s3' & E3' & _ & R3);
      [apply (as_free _ _ _ _ (us_as _ _ _ _ _ US2)) | done | set_solver |].
    rewrite E3 in E3'. injection E3' as <-.
    exists s2, s3, tr'. split_and!; try done.
    + intros x. specialize (Ac x). unfold held in *. rewrite !elem_of_cons, !elem_of_nil in *. tauto.
    + exact (same_data_trans _ _ m _ D1 (same_data_trans _ _ _ _ D2 D3)).
    + eapply same_outside_trans; [exact R1|]. eapply same_outside_trans.
      * eapply same_outside_mono; [|exact (gr_ram _ _ _ _ _ _ _ G)]. set_solver.
      * eapply same_outside_page; [|done]. set_solver.
    + intros k p Hk. destruct (gr_new _ _ _ _ _ _ _ G k p Hk); [auto|]. right. set_solver.
    + intros va Hva. rewrite V3, V. apply V1.
  - right. destruct (uspace_map s1 l root tr um s2 l2 tr2 a q perm US1 G Ha)
      as (US2 & Ac & D2 & B2); try done.
    { exact (um_unmapped s _ root tr um a US Hinv). }
    exists s2, l2, tr2. split_and!; try done.
    + by eapply same_data_trans.
    + eapply same_outside_trans; [exact R1|].
      eapply same_outside_mono; [|exact (gr_ram _ _ _ _ _ _ _ G)]. set_solver.
    + intros k p Hk. destruct (gr_new _ _ _ _ _ _ _ G k p Hk); [auto|]. right. set_solver.
    + destruct (gr_free _ _ _ _ _ _ _ G) as [new ->]. set_solver.
    + intros va Hva. rewrite V by done. cbn [ram set_ram s1]. by rewrite V1.
Qed.

(** ** uvmalloc *)
Lemma leaf_pte_perm q perm :
  page_ok q → 0 ≤ perm < 1024 → Z.land perm PTE_R = PTE_R → leaf_pte (mk_pte q perm) = true.
Proof.
  intros Hq Hp HR. destruct (page_ok_pa q Hq) as [Hb Ha].
  destruct (mk_pte_facts q perm Hb Ha Hp) as (Hv & _ & Hf & _).
  unfold leaf_pte. rewrite Hv. cbn [andb]. apply negb_true_iff, Z.eqb_neq.
  change (Z.lor (Z.lor PTE_R PTE_W) PTE_X) with 14. rewrite land_flag_mod, Hf by lia.
  intros E%(f_equal (λ x, Z.land x PTE_R)). rewrite <- Z.land_assoc in E.
  change (Z.land 14 PTE_R) with PTE_R in E. rewrite Z.land_lor_distr_l, HR in E. done.
Qed.

Lemma uvmalloc_step fuel s l root tr um a oldsz newsz xperm :
  uspace s l root tr um → vpage a → a < newsz → pte_valid (sv39 (ram s) root a) = false →
  0 ≤ xperm < 1024 →
  let perm := Z.lor (Z.lor PTE_R PTE_U) xperm in
  (∃ s1 l1 tr1, uvmalloc_loop (S fuel) root a oldsz newsz xperm s =
       (uvmdealloc root a oldsz ;; ret 0) s1 ∧
     uspace s1 l1 root tr1 um ∧ accounts l tr um l1 tr1 um ∧ same_data um (ram s) (ram s1) ∧
     ∀ va, vslot va → sv39 (ram s1) root va = sv39 (ram s) root va) ∨
  (∃ q s1 l1 tr1, uvmalloc_loop (S fuel) root a oldsz newsz xperm s =
       uvmalloc_loop fuel root (a + 4096) oldsz newsz xperm s1 ∧
     uspace s1 l1 root tr1 (<[a := q]> um) ∧ accounts l tr um l1 tr1 (<[a := q]> um) ∧
     same_data um (ram s) (ram s1) ∧ (∀ b, q ≤ b < q + 4096 → ld8 (ram s1) b = 0) ∧
     ∀ va, vslot va → sv39 (ram s1) root va =
       if decide (va = a) then mk_pte q perm else sv39 (ram s) root va).
Proof.
  intros US Ha Hlt Hinv Hx perm.
  assert (0 ≤ perm < 1024 ∧ Z.land perm PTE_R = PTE_R) as [Hperm HR].
  { unfold perm. change (Z.lor PTE_R PTE_U) with 18. split; [apply lor_bound; lia|].
    rewrite Z.land_lor_distr_l. change (Z.land 18 PTE_R) with PTE_R.
    apply Z.bits_inj'. intros n Hn. rewrite Z.lor_spec, Z.land_spec.
    by destruct (Z.testbit PTE_R n), (Z.testbit xperm n). }
  cbn [uvmalloc_loop]. destruct (a <? newsz) eqn:E; bool_to_prop; [|lia].
  destruct l as [|q l].
  { left. rewrite (bind_ok _ _ _ _ _ (kalloc_none s (as_free _ _ _ _ (us_as _ _ _ _ _ US)))).
    exists s, [], tr. by split_and!. }
  destruct (uspace_take s q l root tr um US) as (Ek & Hq & _ & _ & _ & _ & _).
  rewrite (bind_ok _ _ _ _ _ Ek).
  pose proof (page_ok_nonzero q Hq) as Hnz. unfold nonzero in Hnz. destruct (q =? 0); [done|].
  krun. destruct (map_new_page s q l root tr um a
      (memset (memset (ram s) q 5 PGSIZE) q 0 PGSIZE) perm US Ha Hinv Hperm)
    as [(s2 & s3 & tr' & E2 & E3 & US3 & Ac & D & _ & _ & V)
       |(s2 & l2 & tr2 & E2 & US2 & Ac & D & _ & _ & _ & B & V)].
  { by apply leaf_pte_perm. }
  { apply same_but_page_memset. }
  - left. rewrite (bind_ok _ _ _ _ _ E2). change (negb (-1 =? 0)) with true. cbv iota.
    rewrite (bind_ok _ _ _ _ _ E3). exists s3, [q], tr'. by split_and!.
  - right. rewrite (bind_ok _ _ _ _ _ E2). change (negb (0 =? 0)) with false. cbv iota.
    exists q, s2, l2, tr2. destruct Ha as [Ha _]. rewrite MAXVA_eq in Ha. unfold PGSIZE.
    rewrite u64_small by lia. split_and!; try done.
    intros b Hb. rewrite B by done. rewrite ld8_memset by (unfold PGSIZE; lia).
    by rewrite decide_True by (unfold PGSIZE; lia).
Qed.

(** Rolling back: the pages added since [base] go. *)
Lemma uvmdealloc_rollback s l root tr um base k :
  uspace s l root tr um → 0 ≤ base → base mod 4096 = 0 → base + 4096 * Z.of_nat k ≤ MAXVA →
  (∀ va, va ∈ vpages base k → is_Some (um !! va)) →
  ∃ r s' l', uvmdealloc root (base + 4096 * Z.of_nat k) base s = Ok r s' ∧
    uspace s' l' root tr (um_drop um base k) ∧
    accounts l tr um l' tr (um_drop um base k) ∧
    same_data (um_drop um base k) (ram s) (ram s') ∧
    ∀ va, vslot va → sv39 (ram s') root va =
      if decide (va ∈ vpages base k) then 0 else sv39 (ram s) root va.
Proof.
  intros US Hb Hal Hmax Hum. destruct k as [|k].
  - exists (base + 4096 * 0), s, l. unfold uvmdealloc.
    destruct (base >=? _) eqn:E; bool_to_prop; [|lia]. by split_and!.
  - assert (npages_between base (base + 4096 * Z.of_nat (S k)) = S k) as En.
    { unfold npages_between, PGSIZE. rewrite MAXVA_eq in Hmax.
      rewrite !PGROUNDUP_aligned by zlia. zlia. }
    assert (PGROUNDUP base = base) as Eb.
    { rewrite MAXVA_eq in Hmax. by rewrite PGROUNDUP_aligned by lia. }
    destruct (uvmdealloc_spec s l root tr um (base + 4096 * Z.of_nat (S k)) base US)
      as (s' & l' & E & H); [lia | done | by rewrite En, Eb |].
    rewrite En, Eb in H. destruct H as (H1 & H2 & H3 & H4). exists base, s', l'. by split_and!.
Qed.

Definition zero_page (m : mem) (q : Z) : Prop := ∀ b, q ≤ b < q + 4096 → ld8 m b = 0.

Lemma um_drop_extend um a q base k :
  a = base + 4096 * Z.of_nat k → um !! a = None →
  um_drop (<[a := q]> um) base (S k) = um_drop um base k.
Proof.
  intros -> Hn. apply map_eq. intros va. rewrite !um_drop_lookup, lookup_insert.
  assert (va ∈ vpages base (S k) ↔ va ∈ vpages base k ∨ va = base + 4096 * Z.of_nat k) as Hv.
  { rewrite !elem_of_vpages. split; [intros; zlia|]. intros [?| ->]; zlia. }
  repeat case_decide; subst; naive_solver.
Qed.

(** The loop when the pages of [base, a) were already added: either the pages
    up to [newsz] are mapped to zeroed pages, or memory ran out and all pages
    since [base] are gone. *)
Lemma uvmalloc_loop_spec n fuel s l root tr um base k newsz xperm :
  let a := base + 4096 * Z.of_nat k in
  uspace s l root tr um → (n < fuel)%nat → 0 ≤ base → base mod 4096 = 0 →
  a + 4096 * (Z.of_nat n - 1) < newsz ≤ a + 4096 * Z.of_nat n → newsz ≤ MAXVA →
  0 ≤ xperm < 1024 →
  (∀ va, va ∈ vpages base k → is_Some (um !! va)) →
  (∀ va, va ∈ vpages a n → pte_valid (sv39 (ram s) root va) = false) →
  ∃ r s' l' tr' um', uvmalloc_loop fuel root a base newsz xperm s = Ok r s' ∧
    uspace s' l' root tr' um' ∧ accounts l tr um l' tr' um' ∧
    ((r = 0 ∧ um' = um_drop um base k ∧ same_data um' (ram s) (ram s') ∧
      (∀ va, va ∈ vpages base (k + n) → pte_valid (sv39 (ram s') root va) = false) ∧
      ∀ va, vslot va → va ∉ vpages base (k + n) → sv39 (ram s') root va = sv39 (ram s) root va) ∨
     (r = newsz ∧ same_data um (ram s) (ram s') ∧
      (∀ va, va ∈ vpages a n → ∃ q, um' !! va = Some q ∧ zero_page (ram s') q ∧
         sv39 (ram s') root va = mk_pte q (Z.lor (Z.lor PTE_R PTE_U) xperm)) ∧
      (∀ va, va ∉ vpages a n → um' !! va = um !! va) ∧
      ∀ va, vslot va → va ∉ vpages a n → sv39 (ram s') root va = sv39 (ram s) root va)).
Proof.
  revert fuel s l tr um k. induction n as [|n IH];
    intros fuel s l tr um k a US Hf Hb Hal Hn Hmax Hx Hum Hinv; (destruct fuel as [|fuel]; [lia|]).
  { exists newsz, s, l, tr, um. cbn [uvmalloc_loop].
    destruct (a <? newsz) eqn:E; bool_to_prop; [lia|]. split_and!; try done. right.
    split_and!; try done. intros va Hva%elem_of_vpages. lia. }
  assert (vpage a) as Ha by (unfold vpage; rewrite MAXVA_eq in *; unfold a in *; zlia).
  assert (∀ va, va ∈ vpages a (S n) ↔ va = a ∨ va ∈ vpages (a + 4096) n) as Hsplit
    by (intros va; rewrite vpages_S; set_solver).
  destruct (uvmalloc_step fuel s l root tr um a base newsz xperm US Ha)
    as [(s1 & l1 & tr1 & E1 & US1 & Ac & D & V)
       |(q & s1 & l1 & tr1 & E1 & US1 & Ac & D & Z0 & V)];
    [lia | apply Hinv, Hsplit; by left | done | |].
  - destruct (uvmdealloc_rollback s1 l1 root tr1 um base k US1 Hb Hal) as
      (r & s2 & l2 & E2 & US2 & Ac2 & D2 & V2); [unfold a in *; lia | done |].
    exists 0, s2, l2, tr1, (um_drop um base k). rewrite E1, (bind_ok _ _ _ _ _ E2).
    split_and!; try done; [by eapply accounts_trans|]. left. split_and!; try done.
    + intros va pa b Hva Hp. rewrite (D2 va pa b Hva Hp). apply (D va pa b); [|done].
      rewrite um_drop_lookup in Hva. by case_decide.
    + intros va Hva. assert (vslot va) as Hs by (eapply vpages_slot; [..|exact Hva]; lia).
      rewrite V2 by done. case_decide as Hd; [done|]. rewrite V by done. apply Hinv.
      apply (vpages_app base k (S n)) in Hva as [?|?]; done.
    + intros va Hva Hnv. rewrite V2 by done. rewrite decide_False; [by apply V|].
      intros Hk. apply Hnv. apply vpages_app. by left.
  - assert (um !! a = None) as Hna by (eapply um_unmapped; [done|apply Hinv, Hsplit; by left]).
    destruct (IH fuel s1 l1 tr1 (<[a := q]> um) (S k)) as
      (r & s2 & l2 & tr2 & um' & E2 & US2 & Ac2 & Hr); clear IH; try done; try lia.
    { intros va Hva. rewrite lookup_insert_is_Some. destruct (decide (a = va)); [by left|].
      right. split; [done|]. apply Hum. apply elem_of_vpages. apply elem_of_vpages in Hva.
      unfold a in *. zlia. }
    { intros va Hva. replace (base + 4096 * Z.of_nat (S k)) with (a + 4096) in Hva by (unfold a; lia).
      assert (va ≠ a) by (apply elem_of_vpages in Hva; lia).
      rewrite V, decide_False; [apply Hinv, Hsplit; by right | done |].
      apply elem_of_vpages in Hva. unfold vslot. rewrite MAXVA_eq in *. unfold a in *. zlia. }
    replace (base + 4096 * Z.of_nat (S k)) with (a + 4096) in * by (unfold a; lia).
    exists r, s2, l2, tr2, um'. rewrite E1. split_and!; try done; [by eapply accounts_trans|].
    destruct Hr as [(-> & -> & D2 & I2 & V2)|(-> & D2 & M2 & O2 & V2)].
    + left. rewrite (um_drop_extend um a q base k) in * by done.
      replace (S k + n)%nat with (k + S n)%nat in * by lia. split_and!; try done.
      * intros va pa b Hva Hp. rewrite (D2 va pa b Hva Hp). apply (D va pa b); [|done].
        rewrite um_drop_lookup in Hva. by case_decide.
      * intros va Hva Hnv. rewrite V2, V, decide_False; try done. intros ->. apply Hnv.
        apply vpages_app. right. apply Hsplit. by left.
    + right. split_and!; try done.
      * intros va pa b Hva Hp. rewrite (D2 va pa b); [by apply (D va pa)| |done].
        rewrite lookup_insert_ne by congruence. done.
      * intros va [->|Hva]%Hsplit; [|by apply M2]. exists q.
        assert (a ∉ vpages (a + 4096) n) as Hnin by (rewrite elem_of_vpages; lia).
        rewrite O2, lookup_insert_eq by done. split_and!; [done| |].
        -- intros b Hp. rewrite (D2 a q b); [by apply Z0|apply lookup_insert_eq|done].
        -- rewrite V2, V by auto. by rewrite decide_True.
      * intros va Hn'. rewrite O2 by set_solver. rewrite lookup_insert_ne; [done|].
        intros <-. apply Hn', Hsplit. by left.
      * intros va Hva Hn'. rewrite V2, V by set_solver. rewrite decide_False; [done|].
        intros ->. apply Hn', Hsplit. by left.
Qed.

(** The pages [uvmalloc] adds. *)
Definition npages_added (oldsz newsz : Z) : nat := Z.to_nat ((newsz - PGROUNDUP oldsz + 4095) / 4096).

Lemma uvmalloc_spec s l root tr um oldsz newsz xperm :
  uspace s l root tr um → 0 ≤ oldsz ≤ newsz → newsz ≤ MAXVA → 0 ≤ xperm < 1024 →
  let a := PGROUNDUP oldsz in
  let n := npages_added oldsz newsz in
  (∀ va, va ∈ vpages a n → pte_valid (sv39 (ram s) root va) = false) →
  ∃ r s' l' tr' um', uvmalloc root oldsz newsz xperm s = Ok r s' ∧
    uspace s' l' root tr' um' ∧ accounts l tr um l' tr' um' ∧ same_data um (ram s) (ram s') ∧
    (∀ va, vslot va → va ∉ vpages a n → sv39 (ram s') root va = sv39 (ram s) root va) ∧
    ((r = 0 ∧ um' = um ∧
      ∀ va, va ∈ vpages a n → pte_valid (sv39 (ram s') root va) = false) ∨
     (r = newsz ∧ (∀ va, va ∉ vpages a n → um' !! va = um !! va) ∧
      ∀ va, va ∈ vpages a n → ∃ q, um' !! va = Some q ∧ zero_page (ram s') q ∧
         sv39 (ram s') root va = mk_pte q (Z.lor (Z.lor PTE_R PTE_U) xperm))).
Proof.
  intros US Hsz Hmax Hx a n Hinv. unfold uvmalloc. fold a.
  destruct (newsz <? oldsz) eqn:E; bool_to_prop; [lia|]. rewrite MAXVA_eq in *.
  destruct (PGROUNDUP_spec oldsz) as [Hm Hb]; [lia|]. fold a in Hm, Hb.
  destruct (uvmalloc_loop_spec n (S (S (Z.to_nat ((newsz - a) / PGSIZE)))) s l root tr um a 0 newsz xperm)
    as (r & s' & l' & tr' & um' & E1 & US' & Ac & Hr);
    rewrite ?Z.add_0_r in *; try done; try lia.
  - unfold n, npages_added, PGSIZE. fold a. zlia.
  - unfold n, npages_added. fold a. zlia.
  - intros va. rewrite elem_of_vpages. lia.
  - exists r, s', l', tr', um'. split_and!; try done.
    + by destruct Hr as [(_ & -> & ? & _)|(_ & ? & _)].
    + destruct Hr as [(_ & _ & _ & _ & V)|(_ & _ & _ & _ & V)]; exact V.
    + destruct Hr as [(-> & -> & _ & I & _)|(-> & _ & M & O & _)]; [by left|by right].
Qed.

(** ** uvmfree *)

(** The address space is destroyed: its data pages and its page-table pages
    are free, and nothing else changed hands. *)
Lemma uvmfree_spec s l root tr um sz :
  uspace s l root tr um → 0 ≤ sz ≤ MAXVA →
  (∀ va, is_Some (um !! va) ↔ va ∈ vpages 0 (Z.to_nat (PGROUNDUP sz / PGSIZE))) →
  (∀ va, vslot va → pte_valid (sv39 (ram s) root va) = true → is_Some (um !! va)) →
  ∃ s' l', uvmfree root sz s = Ok tt s' ∧ free_list s' l' ∧ ∀ q, q ∈ l' ↔ held l tr um q.
Proof.
  intros US Hsz Hdom Hval. destruct (PGROUNDUP_pages sz Hsz) as (n & En & Hn).
  unfold uvmfree. unfold PGSIZE in *. rewrite En in *.
  replace (4096 * Z.of_nat n / 4096) with (Z.of_nat n) in * by zlia. rewrite Nat2Z.id in Hdom.
  assert (∃ s1 l1, (if sz >? 0 then uvmunmap root 0 (Z.of_nat n) true else ret tt) s = Ok tt s1 ∧
    uspace s1 l1 root tr (um_drop um 0 n) ∧ accounts l tr um l1 tr (um_drop um 0 n) ∧
    ∀ va, vslot va → sv39 (ram s1) root va =
      if decide (va ∈ vpages 0 n) then 0 else sv39 (ram s) root va) as (s1 & l1 & E1 & US1 & Ac & V).
  { destruct (sz >? 0) eqn:E; bool_to_prop.
    - destruct (uvmunmap_free_spec s l root tr um 0 n US) as
        (s1 & pas & E1 & F1 & U1 & V1 & R1); [done | lia | rewrite MAXVA_eq in *; zlia | |].
      { intros va. by rewrite Hdom. }
      exists s1, (reverse pas ++ l). split_and!; try done. by apply um_drop_accounts.
    - assert (n = 0%nat) as -> by lia. by exists s, l. }
  rewrite (bind_ok _ _ _ _ _ E1).
  destruct (freewalk_spec s1 l1 root tr (us_as _ _ _ _ _ US1)) as (s2 & l2 & E2 & F2 & M2 & _).
  { intros va Hva. rewrite V by done. case_decide as Hd; [done|].
    destruct (pte_valid _) eqn:Ev; [|done]. by apply Hval in Ev; [rewrite Hdom in Ev|]. }
  exists s2, l2. split_and!; try done. intros q. rewrite (Ac q), M2. unfold held.
  split; [tauto|]. intros [?|[?|[va Hva]]]; auto.
  rewrite um_drop_lookup in Hva. case_decide as Hd; [done|]. exfalso. apply Hd, Hdom. eauto.
Qed.
End vmalloc.
