(* ===== verification/VmFork.v ===== *)
(** * Copying an address space ([uvmcopy])

    The memory a forked child starts with: each page of the parent has a
    fresh page in the child with the same bytes and the same permissions, and
    the parent is untouched; when memory runs out, every page taken for the
    child's data is free again. *)

From S2P Require Import Base Riscv Mem Kstring Spinlock Kalloc Vm VmSpec VmMap VmUser VmAlloc VmCopy.
Local Open Scope Z_scope.
Local Open Scope kernel_scope.

Section vmfork.
  Context {LK : Link} {LKO : LinkOk}.

(** A page belongs to an address space. *)
Definition owned (tr : ptree) (um : gmap Z Z) (q : Z) : Prop :=
  (∃ k, tr !! k = Some q) ∨ ∃ va, um !! va = Some q.

(** An address space is untouched by changes to other pages. *)
Lemma uspace_frame s l root tr um s' l' :
  uspace s l root tr um → free_list s' l' → (∀ q, q ∈ l' → ¬ owned tr um q) →
  (∀ q a, owned tr um q → q ≤ a < q + 4096 → ld8 (ram s') a = ld8 (ram s) a) →
  uspace s' l' root tr um ∧ (∀ va, sv39 (ram s') root va = sv39 (ram s) root va) ∧
  same_data um (ram s) (ram s').
Proof.
  intros [[F W D] P O I U] F' Hl' Hag.
  destruct (wf_agree W (ram s')) as [W' L'].
  { intros k p a Hk. apply Hag. left. eauto. }
  assert (∀ va, sv39 (ram s') root va = sv39 (ram s) root va) as V.
  { intros va. by rewrite (sv39_leaf W'), (sv39_leaf W). }
  split_and!; [split|..]; try done.
  - split; try done. intros k p Hk Hp. apply (Hl' p Hp). left. eauto.
  - intros va pa Hva. rewrite V. by apply P.
  - intros va pa Hva. destruct (O _ _ Hva) as (? & ? & ?). split_and!; try done.
    intros Hp. apply (Hl' pa Hp). right. eauto.
  - intros va Hva. rewrite V. by apply U.
  - intros va pa a Hva. apply Hag. right. eauto.
Qed.

Lemma owned_page s l root tr um q : uspace s l root tr um → owned tr um q → page_ok q ∧ q ∉ l.
Proof.
  intros [[F W D] P O I U] [[k Hk]|[va Hva]].
  - split; [by eapply pw_page|by eapply D].
  - by destruct (O _ _ Hva) as (? & ? & ?).
Qed.

(** The bytes of pages another address space owns survive [same_outside]. *)
Lemma same_outside_owned tr ls m m' q a :
  same_outside tr ls m m' → q mod 4096 = 0 → q ≤ a < q + 4096 →
  (∀ k p, tr !! k = Some p → p mod 4096 = 0 ∧ p ≠ q) → (∀ p, p ∈ ls → p mod 4096 = 0 ∧ p ≠ q) →
  ld8 m' a = ld8 m a.
Proof.
  intros R Hq Ha Ht Hl. apply R.
  - intros k p Hk. destruct (Ht k p Hk). destruct (page_disjoint p q); auto; lia.
  - intros p Hp. destruct (Hl p Hp). destruct (page_disjoint p q); auto; lia.
Qed.

(** The flags of a copied entry. *)
Lemma mk_pte_copy q e :
  page_ok q → leaf_pte e = true →
  leaf_pte (mk_pte q (PTE_FLAGS e)) = true ∧ PTE_FLAGS (mk_pte q (PTE_FLAGS e)) = PTE_FLAGS e ∧
  0 ≤ PTE_FLAGS e < 1024.
Proof.
  intros Hq Hl. destruct (page_ok_pa q Hq) as [Hb Ha].
  assert (0 ≤ PTE_FLAGS e < 1024) as Hf by (rewrite PTE_FLAGS_eq; zlia).
  destruct (mk_pte_facts q (PTE_FLAGS e) Hb Ha Hf) as (Hv & _ & Hfl & _).
  assert (Z.lor (PTE_FLAGS e) PTE_V = PTE_FLAGS e) as HV.
  { apply leaf_pte_valid in Hl. unfold pte_valid, nonzero in Hl. bool_to_prop.
    rewrite land_flag_mod in Hl by (rewrite PTE_V_eq; lia). rewrite PTE_V_eq in *.
    apply Z.bits_inj'. intros n Hn. rewrite Z.lor_spec.
    destruct (decide (n = 0)) as [->|Hn0].
    - change (Z.testbit 1 0) with true. rewrite orb_true_r. symmetry.
      destruct (Z.testbit (PTE_FLAGS e) 0) eqn:Et; [done|]. exfalso. apply Hl.
      rewrite Z.bit0_odd, <- Z.negb_even in Et. change 1 with (Z.ones 1).
      rewrite Z.land_ones by lia. change (2 ^ 1) with 2. rewrite Zmod_even.
      by destruct (Z.even (PTE_FLAGS e)).
    - replace (Z.testbit 1 n) with false; [by rewrite orb_false_r|].
      symmetry. apply Z.bits_above_log2; simpl; lia. }
  rewrite HV in Hfl. split_and!; try done; try lia.
  unfold leaf_pte in *. rewrite Hv. cbn [andb]. apply andb_true_iff in Hl as [_ Hl].
  change (Z.lor (Z.lor PTE_R PTE_W) PTE_X) with 14 in *.
  rewrite land_flag_mod, Hfl, <- land_flag_mod by lia. done.
Qed.

Section copy.
  Context (m0 : mem) (l0 : list Z) (tr0 : ptree) (old new : Z) (trO : ptree) (umO : gmap Z Z).

(** The child [new] has copies of the first [k] pages of [old]; [m0], [l0] and
    [tr0] are RAM, the free pages and the child's page table at the start. *)
Record copy_inv (s : kmem) (l : list Z) (trN : ptree) (umN : gmap Z Z) (k : nat) : Prop := {
  ci_old : uspace s l old trO umO;
  ci_new : uspace s l new trN umN;
  ci_sep : ∀ q, owned trO umO q → ¬ owned trN umN q;
  ci_dom : ∀ va, is_Some (umN !! va) ↔ va ∈ vpages 0 k;
  ci_copy : ∀ va pa', umN !! va = Some pa' → ∃ pa, umO !! va = Some pa ∧
    (∀ j, 0 ≤ j < 4096 → ld8 (ram s) (pa' + j) = ld8 m0 (pa + j)) ∧
    PTE_FLAGS (sv39 (ram s) new va) = PTE_FLAGS (sv39 m0 old va);
  ci_data : same_data umO m0 (ram s);
  ci_sv39 : ∀ va, sv39 (ram s) old va = sv39 m0 old va;
  ci_kept : ∀ va, vslot va → va ∉ vpages 0 k → sv39 (ram s) new va = sv39 m0 new va;
  ci_acct : accounts l0 tr0 ∅ l trN umN;
}.

(** The old address space across a step of the new one. *)
Lemma copy_old_frame s l trN umN k s' l' ls :
  copy_inv s l trN umN k → free_list s' l' →
  (∀ q, q ∈ l' → q ∈ l ∨ owned trN umN q) → (∀ q, q ∈ ls → q ∈ l ∨ owned trN umN q) →
  same_outside trN ls (ram s) (ram s') →
  uspace s' l' old trO umO ∧ same_data umO m0 (ram s') ∧
  ∀ va, sv39 (ram s') old va = sv39 m0 old va.
Proof.
  intros [CO CN Csep Cdom Ccopy Cdata Csv Ckept Cacct] F' Hl' Hls R.
  assert (∀ q, q ∈ l ∨ owned trN umN q → page_ok q ∧ ¬ owned trO umO q) as Hq.
  { intros q [Hq|Hq].
    - split.
      + destruct CO as [[[_ _ F _] _ _] _ _ _ _]. rewrite Forall_forall in F. by apply F.
      + intros Ho. by apply (owned_page _ _ _ _ _ _ CO Ho).
    - split; [by apply (owned_page _ _ _ _ _ _ CN Hq)|]. intros Ho. by apply (Csep q). }
  destruct (uspace_frame s l old trO umO s' l' CO F') as (US & V & D).
  - intros q Hq'. apply Hq, Hl', Hq'.
  - intros q a Ho Ha. pose proof (owned_page _ _ _ _ _ _ CO Ho) as [[Hqa _] _].
    apply (same_outside_owned trN ls _ _ q); try done.
    + intros k' p Hk. destruct (Hq p) as [[? _] Hn]; [right; left; eauto|].
      split; [done|]. intros ->. done.
    + intros p Hp. destruct (Hq p (Hls p Hp)) as [[? _] Hn]. split; [done|]. by intros ->.
  - split_and!; [done|by eapply same_data_trans|]. intros va. by rewrite V.
Qed.

(** A step that maps [extra] (nothing, or one page) into the child: the parts
    of the invariant about separation, copies and accounting. *)
Lemma copy_sep s q l trN umN k trN' umN' :
  copy_inv s (q :: l) trN umN k →
  (∀ k' p, trN' !! k' = Some p → trN !! k' = Some p ∨ p ∈ q :: l) →
  (∀ va p, umN' !! va = Some p → umN !! va = Some p ∨ p = q) →
  ∀ x, owned trO umO x → ¬ owned trN' umN' x.
Proof.
  intros C Ht Hu x Ho Hn. pose proof (owned_page _ _ _ _ _ _ (ci_old _ _ _ _ _ C) Ho) as [_ Hnl].
  destruct Hn as [[k' Hk]|[va Hva]].
  - destruct (Ht _ _ Hk) as [?|?]; [|done]. eapply (ci_sep _ _ _ _ _ C x Ho). left. eauto.
  - destruct (Hu _ _ Hva) as [?| ->]; [|set_solver]. eapply (ci_sep _ _ _ _ _ C x Ho). right. eauto.
Qed.

Lemma copy_kept_copy s l trN umN k s' :
  copy_inv s l trN umN k → same_data umN (ram s) (ram s') →
  (∀ va, vslot va → is_Some (umN !! va) → sv39 (ram s') new va = sv39 (ram s) new va) →
  ∀ va pa', umN !! va = Some pa' → ∃ pa, umO !! va = Some pa ∧
    (∀ j, 0 ≤ j < 4096 → ld8 (ram s') (pa' + j) = ld8 m0 (pa + j)) ∧
    PTE_FLAGS (sv39 (ram s') new va) = PTE_FLAGS (sv39 m0 old va).
Proof.
  intros C D V va pa' Hva. destruct (ci_copy _ _ _ _ _ C va pa' Hva) as (pa & Hpa & Hb & Hf).
  exists pa. destruct (us_pte _ _ _ _ _ (ci_new _ _ _ _ _ C) va pa' Hva) as (Hvp & _ & _).
  split_and!; [done| |by rewrite V by eauto].
  intros j Hj. rewrite (D va pa' _ Hva) by lia. by apply Hb.
Qed.

Lemma vpages_last k va : va ∈ vpages 0 (S k) ↔ va ∈ vpages 0 k ∨ va = 4096 * Z.of_nat k.
Proof. rewrite !elem_of_vpages. split; [intros; zlia|]. intros [?| ->]; zlia. Qed.

(** Memory ran out while page [q] was being mapped. *)
Lemma copy_step_fail s q l trN umN k s3 tr' :
  copy_inv s (q :: l) trN umN k → uspace s3 [q] new tr' umN →
  accounts (q :: l) trN umN [q] tr' umN → same_data umN (ram s) (ram s3) →
  same_outside trN (q :: l) (ram s) (ram s3) →
  (∀ k p, tr' !! k = Some p → trN !! k = Some p ∨ p ∈ q :: l) →
  (∀ va, vslot va → sv39 (ram s3) new va = sv39 (ram s) new va) →
  copy_inv s3 [q] tr' umN k.
Proof.
  intros C US Ac D R T V.
  destruct (copy_old_frame s (q :: l) trN umN k s3 [q] (q :: l) C) as (CO & CD & CV); auto.
  { apply (as_free _ _ _ _ (us_as _ _ _ _ _ US)). }
  { intros x ->%list_elem_of_singleton. left. set_solver. }
  split; try done.
  - eapply copy_sep; [exact C|exact T|auto].
  - apply (ci_dom _ _ _ _ _ C).
  - eapply copy_kept_copy; [exact C|done|auto].
  - intros va Hva Hn. rewrite V by done. by apply (ci_kept _ _ _ _ _ C).
  - eapply accounts_trans; [apply (ci_acct _ _ _ _ _ C)|done].
Qed.

(** Page [q], filled with the bytes of the parent's page, was mapped. *)
Lemma copy_step_ok s q l trN umN k s2 l2 tr2 pa :
  let va := 4096 * Z.of_nat k in
  copy_inv s (q :: l) trN umN k → vpage va → umO !! va = Some pa → umN !! va = None →
  uspace s2 l2 new tr2 (<[va := q]> umN) →
  accounts (q :: l) trN umN l2 tr2 (<[va := q]> umN) → same_data umN (ram s) (ram s2) →
  same_outside trN (q :: l) (ram s) (ram s2) →
  (∀ k p, tr2 !! k = Some p → trN !! k = Some p ∨ p ∈ q :: l) →
  (∀ x, x ∈ l2 → x ∈ q :: l) →
  (∀ j, 0 ≤ j < 4096 → ld8 (ram s2) (q + j) = ld8 (ram s) (pa + j)) →
  (∀ v, vslot v → sv39 (ram s2) new v =
     if decide (v = va) then mk_pte q (PTE_FLAGS (sv39 m0 old va)) else sv39 (ram s) new v) →
  copy_inv s2 l2 tr2 (<[va := q]> umN) (S k).
Proof.
  intros va C Hvp Hpa Hna US Ac D R T L B V. pose proof C as [CO CN _ Cdom _ Cdata Csv _ _].
  destruct (copy_old_frame s (q :: l) trN umN k s2 l2 (q :: l) C) as (CO' & CD & CV); auto.
  { apply (as_free _ _ _ _ (us_as _ _ _ _ _ US)). }
  destruct (us_pte _ _ _ _ _ CO va pa Hpa) as (_ & _ & Hleaf). rewrite Csv in Hleaf.
  destruct (us_page _ _ _ _ _ US va q) as (Hq & _ & _); [apply lookup_insert_eq|].
  destruct (mk_pte_copy q _ Hq Hleaf) as (_ & Hfl & _).
  split; try done.
  - eapply copy_sep; [exact C|exact T|]. intros v p. rewrite lookup_insert. case_decide; [|auto].
    intros [= <-]. auto.
  - intros v. rewrite vpages_last, lookup_insert_is_Some', Cdom. naive_solver.
  - intros v p. rewrite lookup_insert. case_decide as Hd.
    + intros [= <-]. subst v. exists pa. split_and!; [done| |].
      * intros j Hj. rewrite B by done. apply (Cdata va pa); [done|lia].
      * rewrite V by auto. by rewrite decide_True.
    + intros Hv. eapply copy_kept_copy; [exact C|done| |done].
      intros v' Hs [p' Hp']. rewrite V by done. rewrite decide_False; [done|]. congruence.
  - intros v Hv Hn. rewrite vpages_last in Hn. rewrite V by done.
    rewrite decide_False by tauto. apply (ci_kept _ _ _ _ _ C); tauto.
  - eapply accounts_trans; [apply (ci_acct _ _ _ _ _ C)|done].
Qed.

Lemma uvmcopy_step fuel s l trN umN k pa sz :
  let va := 4096 * Z.of_nat k in
  copy_inv s l trN umN k → vpage va → va < sz → umO !! va = Some pa →
  pte_valid (sv39 m0 new va) = false →
  (∃ s1 l1 trN1, uvmcopy_loop (S fuel) old new va sz s =
       (uvmunmap new 0 (Z.of_nat k) true ;; ret (-1)) s1 ∧ copy_inv s1 l1 trN1 umN k) ∨
  (∃ q s1 l1 trN1, uvmcopy_loop (S fuel) old new va sz s =
       uvmcopy_loop fuel old new (va + 4096) sz s1 ∧ copy_inv s1 l1 trN1 (<[va := q]> umN) (S k)).
Proof.
  intros va C Hvp Hlt Hpa Hinv. pose proof C as [CO CN _ Cdom _ Cdata Csv Ckept _].
  destruct (us_pte _ _ _ _ _ CO va pa Hpa) as (_ & Hpte & Hleaf).
  pose proof (us_as _ _ _ _ _ CO) as AO. pose proof (as_pt _ _ _ _ AO) as WO.
  destruct (us_page _ _ _ _ _ CO va pa Hpa) as (Hpok & Hpl & _).
  assert (va ∉ vpages 0 k) as Hnv by (rewrite elem_of_vpages; unfold va; lia).
  assert (pte_valid (sv39 (ram s) new va) = false) as Hinv' by (by rewrite Ckept by auto).
  cbn [uvmcopy_loop]. destruct (va <? sz) eqn:E; bool_to_prop; [|lia].
  rewrite (bind_ok _ _ _ _ _ (walk_noalloc s trO old va WO (proj1 Hvp))). unfold pte_ptr.
  destruct (sv39_valid s l old trO va AO (leaf_pte_valid _ Hleaf)) as [p Hp]. rewrite Hp.
  rewrite (pte_ptr_nonzero _ _ _ _ _ WO Hp). krun.
  rewrite (sv39_pte_ptr s l old trO va p AO Hp).
  pose proof (leaf_pte_valid _ Hleaf) as Hv. unfold pte_valid, nonzero in Hv.
  destruct (Z.land _ PTE_V =? 0); [done|]. clear Hv.
  replace (va / PGSIZE) with (Z.of_nat k) by (unfold va, PGSIZE; zlia).
  destruct l as [|q l].
  { left. rewrite (bind_ok _ _ _ _ _ (kalloc_none s (as_free _ _ _ _ AO))).
    exists s, [], trN. by split. }
  destruct (uspace_take s q l new trN umN CN) as (Ek & Hq & _ & _ & _ & R0 & _).
  rewrite (bind_ok _ _ _ _ _ Ek).
  pose proof (page_ok_nonzero q Hq) as Hnz. unfold nonzero in Hnz. destruct (q =? 0); [done|].
  krun. cbn [ram]. rewrite Hpte. destruct (mk_pte_copy q _ Hq Hleaf) as (Hleaf' & _ & Hfb).
  set (m5 := memset (ram s) q 5 PGSIZE) in *.
  assert (∀ a, ld8 (memmove m5 q pa PGSIZE) a =
    if decide (q ≤ a < q + 4096) then ld8 m5 (pa + (a - q)) else ld8 m5 a) as HM.
  { intros a. rewrite ld8_memmove by (unfold PGSIZE; lia). done. }
  destruct (map_new_page s q l new trN umN va (memmove m5 q pa PGSIZE)
      (PTE_FLAGS (sv39 (ram s) old va)) CN Hvp Hinv' Hfb Hleaf')
    as [(s2 & s3 & tr' & E2 & E3 & US3 & Ac & D & R & T & V)
       |(s2 & l2 & tr2 & E2 & US2 & Ac & D & R & T & L & B & V)].
  { intros a Ha. rewrite HM. by rewrite decide_False. }
  - left. rewrite (bind_ok _ _ _ _ _ E2). change (negb (-1 =? 0)) with true. cbv iota.
    rewrite (bind_ok _ _ _ _ _ E3). exists s3, [q], tr'. split; [done|].
    by eapply copy_step_fail.
  - right. rewrite (bind_ok _ _ _ _ _ E2). change (negb (0 =? 0)) with false. cbv iota.
    exists q, s2, l2, tr2. destruct Hvp as [Hr Hm]. rewrite MAXVA_eq in Hr. unfold PGSIZE.
    rewrite u64_small by lia. split; [done|].
    eapply copy_step_ok; try done.
    + by eapply um_unmapped.
    + intros j Hj. rewrite B by lia. rewrite HM, decide_True by lia.
      replace (pa + (q + j - q)) with (pa + j) by lia. apply R0.
      destruct Hpok as [Hpa1 _], Hq as [Hqa _].
      assert (pa ≠ q) by set_solver. destruct (page_disjoint pa q); auto; lia.
    + intros v Hv. rewrite <- Csv. by apply V.
Qed.

(** What is common to success and failure. *)
Record copy_frame (n : nat) (s : kmem) (l : list Z) (trN : ptree) (umN : gmap Z Z) : Prop := {
  cf_old : uspace s l old trO umO;
  cf_new : uspace s l new trN umN;
  cf_sep : ∀ q, owned trO umO q → ¬ owned trN umN q;
  cf_data : same_data umO m0 (ram s);
  cf_sv39 : ∀ va, sv39 (ram s) old va = sv39 m0 old va;
  cf_kept : ∀ va, vslot va → va ∉ vpages 0 n → sv39 (ram s) new va = sv39 m0 new va;
  cf_acct : accounts l0 tr0 ∅ l trN umN;
}.

(** The pages the child was given so far are released. *)
Lemma copy_rollback s l trN umN k n :
  copy_inv s l trN umN k → (k ≤ n)%nat → 4096 * Z.of_nat k ≤ MAXVA →
  ∃ s' l', uvmunmap new 0 (Z.of_nat k) true s = Ok tt s' ∧ copy_frame n s' l' trN ∅ ∧
    ∀ va, vslot va → sv39 (ram s') new va =
      if decide (va ∈ vpages 0 k) then 0 else sv39 m0 new va.
Proof.
  intros C Hk Hmax. pose proof C as [CO CN Csep Cdom _ _ _ Ckept Cacct].
  destruct (uvmunmap_free_spec s l new trN umN 0 k CN) as
    (s' & pas & E & F & US & V & R); [done | lia | lia | |].
  { intros va. by rewrite Cdom. }
  assert (um_drop umN 0 k = ∅) as Hempty.
  { apply map_eq. intros va. rewrite um_drop_lookup, lookup_empty. case_decide as Hd; [done|].
    destruct (umN !! va) eqn:Ev; [|done]. exfalso. apply Hd, Cdom. eauto. }
  rewrite Hempty in US. pose proof (um_drop_accounts l trN umN 0 k pas F) as Ac.
  rewrite Hempty in Ac.
  assert (∀ q, q ∈ pas → owned trN umN q) as Hpas.
  { intros q Hq. destruct (Forall2_in_r _ _ _ _ F Hq) as (va & _ & Hva). right. eauto. }
  destruct (copy_old_frame s l trN umN k s' (reverse pas ++ l) pas C) as (CO' & CD & CV); auto.
  { apply (as_free _ _ _ _ (us_as _ _ _ _ _ US)). }
  { intros q. rewrite elem_of_app, elem_of_reverse. intros [?|?]; auto. }
  assert (∀ va, vslot va → sv39 (ram s') new va =
      if decide (va ∈ vpages 0 k) then 0 else sv39 m0 new va) as V'.
  { intros va Hva. rewrite V by done. case_decide; [done|]. by apply Ckept. }
  exists s', (reverse pas ++ l). split_and!; [done| |done]. split; try done.
  - intros q Ho [?|[va Hva]]; [|by rewrite lookup_empty in Hva].
    apply (Csep q Ho). by left.
  - intros va Hva Hn. rewrite V' by done. rewrite decide_False; [done|].
    intros Hd. apply Hn. apply elem_of_vpages. apply elem_of_vpages in Hd. lia.
  - by eapply accounts_trans.
Qed.

Lemma uvmcopy_loop_spec d fuel s l trN umN k sz :
  let n := (k + d)%nat in
  copy_inv s l trN umN k → (d < fuel)%nat → sz ≤ MAXVA →
  4096 * (Z.of_nat n - 1) < sz ≤ 4096 * Z.of_nat n →
  (∀ va, va ∈ vpages 0 n → is_Some (umO !! va) ∧ pte_valid (sv39 m0 new va) = false) →
  ∃ r s' l' trN' umN', uvmcopy_loop fuel old new (4096 * Z.of_nat k) sz s = Ok r s' ∧
    copy_frame n s' l' trN' umN' ∧
    ((r = 0 ∧ copy_inv s' l' trN' umN' n) ∨
     (r = -1 ∧ umN' = ∅ ∧ ∀ va, va ∈ vpages 0 n → pte_valid (sv39 (ram s') new va) = false)).
Proof.
  revert fuel s l trN umN k. induction d as [|d IH]; intros fuel s l trN umN k n C Hf Hmax Hsz Hall;
    (destruct fuel as [|fuel]; [lia|]).
  { exists 0, s, l, trN, umN. cbn [uvmcopy_loop]. unfold n in *. rewrite Nat.add_0_r in *.
    destruct (_ <? sz) eqn:E; bool_to_prop; [lia|]. destruct C. split_and!; [done|by split|]. left.
    split; [done|]. by split. }
  assert (vpage (4096 * Z.of_nat k)) as Hvp.
  { unfold vpage. rewrite MAXVA_eq in *. unfold n in *. zlia. }
  destruct (Hall (4096 * Z.of_nat k)) as [[pa Hpa] Hinv]; [apply elem_of_vpages; unfold n; zlia|].
  destruct (uvmcopy_step fuel s l trN umN k pa sz C Hvp) as
    [(s1 & l1 & tr1 & E1 & C1)|(q & s1 & l1 & tr1 & E1 & C1)]; try done; [unfold n in *; lia|..].
  - destruct (copy_rollback s1 l1 tr1 umN k n C1) as (s2 & l2 & E2 & CF & V2);
      [unfold n; lia | unfold n in *; lia |].
    exists (-1), s2, l2, tr1, ∅. rewrite E1, (bind_ok _ _ _ _ _ E2). split_and!; try done.
    right. split_and!; try done. intros va Hva.
    rewrite V2 by (eapply (vpages_slot 0 n); try done; rewrite MAXVA_eq in *; lia).
    case_decide; [done|]. by apply Hall.
  - destruct (IH fuel s1 l1 tr1 (<[4096 * Z.of_nat k := q]> umN) (S k) C1) as
      (r & s2 & l2 & tr2 & um2 & E2 & H2); clear IH.
    all: replace (S k + d)%nat with n in * by (unfold n; lia); try done; try lia.
    replace (4096 * Z.of_nat (S k)) with (4096 * Z.of_nat k + 4096) in E2 by lia.
    exists r, s2, l2, tr2, um2. by rewrite E1, E2.
Qed.
End copy.

Lemma uvmcopy_spec s l old new trO umO trN sz n :
  uspace s l old trO umO → uspace s l new trN ∅ →
  (∀ q, owned trO umO q → ¬ owned trN ∅ q) → sz ≤ MAXVA →
  4096 * (Z.of_nat n - 1) < sz ≤ 4096 * Z.of_nat n → 0 ≤ sz →
  (∀ va, va ∈ vpages 0 n → is_Some (umO !! va) ∧ pte_valid (sv39 (ram s) new va) = false) →
  ∃ r s' l' trN' umN', uvmcopy old new sz s = Ok r s' ∧
    copy_frame (ram s) l trN old new trO umO n s' l' trN' umN' ∧
    ((r = 0 ∧ copy_inv (ram s) l trN old new trO umO s' l' trN' umN' n) ∨
     (r = -1 ∧ umN' = ∅ ∧ ∀ va, va ∈ vpages 0 n → pte_valid (sv39 (ram s') new va) = false)).
Proof.
  intros UO UN Hsep Hmax Hn Hsz Hall. unfold uvmcopy.
  change 0 with (4096 * Z.of_nat 0) at 1.
  apply (uvmcopy_loop_spec (ram s) l trN old new trO umO n _ s l trN ∅ 0); try done;
    [|unfold PGSIZE; zlia].
  split; try done.
  intros va. rewrite lookup_empty, elem_of_vpages. split; [by intros [? ?]|lia].
Qed.
End vmfork.
