(* ===== verification/VmTheorems.v ===== *)
(** * Virtual memory: what the operations guarantee together

    A fresh page table, the life of an address space, the copy that [fork]
    makes, and copying in and out, on the representation of [VmSpec] to
    [VmFork]. *)

From S2P Require Import Base Riscv Mem Kstring Kalloc Vm VmSpec VmMap VmUser VmAlloc VmCopy VmFork.
Local Open Scope Z_scope.
Local Open Scope kernel_scope.

Section vm.
  Context {LK : Link} {LKO : LinkOk}.

(** ** uvmcreate *)

(** A page of zeros is an empty page table. *)
Lemma zero_table m p :
  page_ok p → (∀ b, p ≤ b < p + 4096 → ld8 m b = 0) →
  pt_wf m {[ [] := p ]} p ∧ ∀ va, sv39 m p va = 0.
Proof.
  intros Hp Hz.
  assert (H0 : ∀ i, idx_ok i → ld64 m (p + 8 * i) = 0).
  { intros i Hi. unfold idx_ok in Hi. transitivity (ld64 ∅ (p + 8 * i)).
    - apply ld64_agree. intros b Hb. rewrite Hz by lia. unfold ld8. by rewrite lookup_empty.
    - apply ld64_empty. }
  assert (W : pt_wf m {[ [] := p ]} p).
  { split.
    - apply lookup_singleton_eq.
    - intros k k' q [<- _]%lookup_singleton_Some [<- _]%lookup_singleton_Some. done.
    - by intros k q [_ <-]%lookup_singleton_Some.
    - intros k q [<- _]%lookup_singleton_Some. simpl. lia.
    - intros k q i [<- <-]%lookup_singleton_Some _ Hi. rewrite H0 by done. simpl.
      by rewrite lookup_singleton_ne.
    - intros k i q [E _]%lookup_singleton_Some. by destruct k. }
  split; [done|]. intros va. rewrite (sv39_leaf W). unfold leaf. by rewrite lookup_singleton_ne.
Qed.

Lemma uvmcreate_ok s p l :
  free_list s (p :: l) →
  ∃ s', uvmcreate s = Ok p s' ∧ uspace s' l p {[ [] := p ]} ∅ ∧
    (∀ va, sv39 (ram s') p va = 0) ∧ same_but_page p (ram s) (ram s').
Proof.
  intros F. destruct (kalloc_some s p l F) as (E & F1 & Hp & Hin).
  set (s1 := Kmem _ _ _) in *. unfold uvmcreate. rewrite (bind_ok _ _ _ _ _ E).
  rewrite (proj2 (Z.eqb_neq p 0)) by (pose proof (page_ok_bound p Hp); unfold KERNBASE in *; lia).
  rewrite bind_kmemset. eexists. split; [reflexivity|]. rewrite ram_set_ram.
  assert (Hsb : same_but_page p (ram s1) (memset (ram s1) p 0 PGSIZE)) by apply same_but_page_memset.
  destruct (zero_table (memset (ram s1) p 0 PGSIZE) p Hp) as [W V].
  { intros b Hb. rewrite ld8_memset by (unfold PGSIZE; lia). by rewrite decide_True by (unfold PGSIZE; lia). }
  split_and!; [|done|].
  - split; rewrite ?ram_set_ram.
    + split; [|rewrite ram_set_ram; exact W|].
      * apply free_list_ram; [done|]. intros x Hx. destruct F1 as [_ _ F1 _]. rewrite Forall_forall in F1.
        apply (same_but_page_ld64 p); [done | apply Hp | by apply F1 | intros ->; done].
      * by intros k q [_ <-]%lookup_singleton_Some.
    + intros va pa Hva. rewrite lookup_empty in Hva. discriminate.
    + intros va pa Hva. rewrite lookup_empty in Hva. discriminate.
    + intros va va' pa Hva. rewrite lookup_empty in Hva. discriminate.
    + intros va _. rewrite V. discriminate.
  - eapply same_but_page_trans; [|exact Hsb]. apply same_but_page_memset.
Qed.

Lemma uvmcreate_none s : free_list s [] → uvmcreate s = Ok 0 s.
Proof. intros F. unfold uvmcreate. by rewrite (bind_ok _ _ _ _ _ (kalloc_none s F)). Qed.

Lemma PGROUNDUP_0 : PGROUNDUP 0 = 0.
Proof. done. Qed.

(** All and only the pages of an address space of [sz] bytes are mapped. *)
Definition exact_size (m : mem) (root sz : Z) (um : gmap Z Z) : Prop :=
  (∀ va, is_Some (um !! va) ↔ va ∈ vpages 0 (Z.to_nat (PGROUNDUP sz / PGSIZE))) ∧
  ∀ va, vslot va → pte_valid (sv39 m root va) = true → is_Some (um !! va).

Lemma npages_added_0 sz :
  0 ≤ sz ≤ MAXVA → npages_added 0 sz = Z.to_nat (PGROUNDUP sz / PGSIZE).
Proof.
  intros Hs. rewrite MAXVA_eq in Hs. unfold npages_added. rewrite PGROUNDUP_0.
  destruct (PGROUNDUP_spec sz) as [Hm Hr]; [lia|]. unfold PGSIZE. f_equal. zlia.
Qed.

(** A new address space of [sz] bytes, or none when memory runs out. *)
Lemma uvmnew_ok s p l sz xperm :
  free_list s (p :: l) → 0 ≤ sz ≤ MAXVA → 0 ≤ xperm < 1024 →
  ∃ r s' l' tr um, (root ← uvmcreate; uvmalloc root 0 sz xperm) s = Ok r s' ∧
    uspace s' l' p tr um ∧ (∀ q, q ∈ p :: l ↔ held l' tr um q) ∧
    (r = 0 ∧ um = ∅ ∨ r = sz) ∧ exact_size (ram s') p r um ∧
    ∀ va, va ∈ vpages 0 (Z.to_nat (PGROUNDUP r / PGSIZE)) →
      ∃ q, um !! va = Some q ∧ zero_page (ram s') q ∧
        sv39 (ram s') p va = mk_pte q (Z.lor (Z.lor PTE_R PTE_U) xperm).
Proof.
  intros F Hsz Hx. destruct (uvmcreate_ok s p l F) as (s1 & E1 & U1 & V1 & _).
  destruct (uvmalloc_spec s1 l p _ ∅ 0 sz xperm U1) as (r & s' & l' & tr & um & E & U & A & _ & K & R);
    [lia | lia | done | intros va _; by rewrite V1 |].
  rewrite PGROUNDUP_0, npages_added_0 in K, R by done.
  exists r, s', l', tr, um. rewrite (bind_ok _ _ _ _ _ E1). split_and!; try done.
  - intros q. rewrite <- (A q). unfold held. rewrite elem_of_cons. split.
    + intros [->|?]; [|by left]. right. left. exists []. apply lookup_singleton_eq.
    + intros [?|[(k & [_ <-]%lookup_singleton_Some)|(va & Hva)]]; [by right | by left |].
      by rewrite lookup_empty in Hva.
  - destruct R as [(-> & -> & _)|(-> & _)]; [by left | by right].
  - destruct R as [(-> & -> & Hinv)|(-> & Hout & Hin)]; split.
    + intros va. rewrite lookup_empty. change (Z.to_nat (PGROUNDUP 0 / PGSIZE)) with 0%nat.
      rewrite elem_of_nil. split; [by intros []|done].
    + intros va Hva Hv. exfalso. destruct (decide (va ∈ vpages 0 (Z.to_nat (PGROUNDUP sz / PGSIZE)))) as [Hi|Hi].
      * rewrite Hinv in Hv by done. done.
      * rewrite K, V1 in Hv by done. done.
    + intros va. split.
      * intros Hs. destruct (decide (va ∈ vpages 0 (Z.to_nat (PGROUNDUP sz / PGSIZE)))) as [|Hi]; [done|].
        rewrite Hout, lookup_empty in Hs by done. by destruct Hs.
      * intros Hi. destruct (Hin va Hi) as (q & Hq & _). by exists q.
    + intros va Hva Hv. destruct (decide (va ∈ vpages 0 (Z.to_nat (PGROUNDUP sz / PGSIZE)))) as [Hi|Hi].
      * destruct (Hin va Hi) as (q & Hq & _). by exists q.
      * rewrite K, V1 in Hv by done. done.
  - destruct R as [(-> & _)|(-> & _ & Hin)]; [|exact Hin].
    intros va. change (Z.to_nat (PGROUNDUP 0 / PGSIZE)) with 0%nat. by intros ?%elem_of_nil.
Qed.

(** C13: no page is lost or freed twice in the life of an address space: when a
    page table is created, memory of any size is allocated in it (which may
    fail half way for lack of pages) and all of it is freed again, the free
    list has exactly the pages it had before. *)
Theorem uvm_no_leak s p l sz xperm
    (HF : free_list s (p :: l)) (Hsz : 0 ≤ sz ≤ MAXVA) (Hx : 0 ≤ xperm < 1024) :
  ∃ s' l', (root ← uvmcreate; r ← uvmalloc root 0 sz xperm; uvmfree root r) s = Ok tt s' ∧
    free_list s' l' ∧ l' ≡ₚ p :: l.
Proof.
  destruct (uvmnew_ok s p l sz xperm HF Hsz Hx) as (r & s1 & l1 & tr & um & E & U & A & Hr & [D1 D2] & _).
  destruct (uvmcreate_ok s p l HF) as (s0 & E0 & _). rewrite (bind_ok _ _ _ _ _ E0) in E.
  destruct (uvmfree_spec s1 l1 p tr um r U) as (s' & l' & Ef & F' & H'); [|done|done|].
  { destruct Hr as [[-> _]| ->]; lia. }
  exists s', l'. rewrite (bind_ok _ _ _ _ _ E0), (bind_ok _ _ _ _ _ E). split_and!; [done..|].
  apply NoDup_Permutation; [apply F' | apply HF |]. intros q. rewrite H'. symmetry. apply A.
Qed.

(** ** Copies *)

(** The byte at a mapped user address. *)
Lemma ubyte_via s l root tr um va v pa :
  uspace s l root tr um → 0 ≤ va → v = PGROUNDDOWN va → um !! v = Some pa →
  ubyte (ram s) root va =
    if nonzero (Z.land (sv39 (ram s) root v) PTE_U) then Some (ld8 (ram s) (pa + va mod 4096)) else None.
Proof.
  intros U Hva -> Hpa. destruct (us_pte _ _ _ _ _ U _ _ Hpa) as ([Hv1 Hv2] & Hp & Hl%leaf_pte_valid).
  unfold ubyte, user_pa. destruct (PGROUNDDOWN va >=? MAXVA) eqn:E; bool_to_prop.
  { unfold vpage in *. lia. }
  rewrite Hl. cbn [andb]. destruct (nonzero _); [|done]. rewrite Hp.
  destruct (us_page _ _ _ _ _ U _ _ Hpa) as (Hok & _).
  rewrite (proj2 (Z.eqb_neq pa 0)); [done|]. pose proof (page_ok_bound pa Hok). unfold KERNBASE in *. lia.
Qed.

(** The same address reads the same byte through two page tables. *)
Lemma ubyte_same s l root tr um s0 l0 root0 tr0 um0 va v pa pa0 :
  uspace s l root tr um → uspace s0 l0 root0 tr0 um0 → 0 ≤ va → v = PGROUNDDOWN va →
  um !! v = Some pa → um0 !! v = Some pa0 →
  ld8 (ram s) (pa + va mod 4096) = ld8 (ram s0) (pa0 + va mod 4096) →
  PTE_FLAGS (sv39 (ram s) root v) = PTE_FLAGS (sv39 (ram s0) root0 v) →
  ubyte (ram s) root va = ubyte (ram s0) root0 va.
Proof.
  intros U U0 Hva Hv Hpa Hpa0 Hb Hf.
  rewrite (ubyte_via s l root tr um va v pa), (ubyte_via s0 l0 root0 tr0 um0 va v pa0) by done.
  change PTE_U with 16.
  rewrite (land_flag_mod (sv39 (ram s) root v)), (land_flag_mod (sv39 (ram s0) root0 v)) by lia.
  by rewrite Hf, Hb.
Qed.

(** C12: [fork]'s copy of memory: when [uvmcopy] succeeds, every user address of
    the parent reads the same byte in the child; the parent's memory and page
    table are unchanged, and the two share no page.  When it fails for lack of
    memory the child is left with no user page and the parent is unchanged.
    In both cases no page is lost. *)
Theorem uvmcopy_copies s l old new trO umO trN sz
    (HO : uspace s l old trO umO) (HN : uspace s l new trN ∅)
    (Hsep : ∀ q, owned trO umO q → ¬ owned trN ∅ q) (Hsz : 0 ≤ sz ≤ MAXVA)
    (Hmap : ∀ va, va ∈ vpages 0 (Z.to_nat (PGROUNDUP sz / PGSIZE)) →
       is_Some (umO !! va) ∧ pte_valid (sv39 (ram s) new va) = false) :
  ∃ r s' l' trN' umN', uvmcopy old new sz s = Ok r s' ∧
    uspace s' l' old trO umO ∧ uspace s' l' new trN' umN' ∧
    (∀ q, owned trO umO q → ¬ owned trN' umN' q) ∧ accounts l trN ∅ l' trN' umN' ∧
    (∀ va, 0 ≤ va < PGROUNDUP sz → ubyte (ram s') old va = ubyte (ram s) old va) ∧
    (r = 0 ∧ (∀ va, 0 ≤ va < PGROUNDUP sz → ubyte (ram s') new va = ubyte (ram s) old va) ∨
     r = -1 ∧ umN' = ∅).
Proof.
  set (n := Z.to_nat (PGROUNDUP sz / PGSIZE)) in *.
  pose proof MAXVA_eq as HM. destruct (PGROUNDUP_spec sz) as [Hm Hr]; [lia|].
  assert (Hn : PGROUNDUP sz = 4096 * Z.of_nat n) by (unfold n, PGSIZE; zlia).
  assert (Hpg : ∀ va, 0 ≤ va < PGROUNDUP sz → PGROUNDDOWN va ∈ vpages 0 n).
  { intros va Hva. rewrite PGROUNDDOWN_eq, elem_of_vpages. zlia. }
  destruct (uvmcopy_spec s l old new trO umO trN sz n HO HN Hsep) as
    (r & s' & l' & trN' & umN' & E & [FO FN Fs Fd Fv Fk Fa] & R); [lia | lia | lia | done |].
  exists r, s', l', trN', umN'. split_and!; try done.
  - intros va Hva. destruct (Hmap _ (Hpg va Hva)) as [[pa Hpa] _].
    eapply (ubyte_same s' l' old trO umO s l old trO umO); try done; [lia| |by rewrite Fv].
    apply (Fd _ _ _ Hpa). zlia.
  - destruct R as [(-> & C)|(-> & -> & _)]; [left|by right]. split; [done|]. intros va Hva.
    destruct C as [_ CN _ Cdom Ccopy _ _ _ _].
    destruct (proj2 (Cdom (PGROUNDDOWN va)) (Hpg va Hva)) as [pa' Hpa'].
    destruct (Ccopy _ _ Hpa') as (pa & Hpa & Hb & Hf).
    eapply (ubyte_same s' l' new trN' umN' s l old trO umO); try done; [lia|]. apply Hb. zlia.
Qed.

Lemma uprefix_mapped m root va n :
  length (uprefix m root va n) = n → ∀ j, (j < n)%nat → ubyte m root (va + Z.of_nat j) ≠ None.
Proof.
  revert va. induction n as [|n IH]; intros va Hl j Hj; [lia|]. simpl in Hl.
  destruct (ubyte m root va) as [b|] eqn:E; simpl in Hl; [|lia]. injection Hl as Hl.
  destruct j as [|j]; [rewrite Z.add_0_r; congruence|].
  replace (va + Z.of_nat (S j)) with (va + 1 + Z.of_nat j) by lia. apply IH; [done|lia].
Qed.

(** C14: what [copyout] stores in a process's memory [copyin] reads back, byte
    for byte, whatever pages the range spans. *)
Theorem copyout_copyin s l root tr um va src
    (HU : uspace s l root tr um) (Hva : 0 ≤ va) (Hend : va + Z.of_nat (length src) ≤ 2 ^ 64 - 4096)
    (Hb : Forall (λ b, 0 ≤ b < 256) src)
    (Hm : length (uprefix (ram s) root va (length src)) = length src) :
  ∃ s', copyout root va src (Z.of_nat (length src)) s = Ok 0 s' ∧ uspace s' l root tr um ∧
    copyin root va (Z.of_nat (length src)) s' = Ok (0, src) s'.
Proof.
  destruct (copyout_spec s l root tr um va src HU Hva Hend) as (r & k & s' & E & U' & _ & V & R).
  assert (Hall : ∀ j, (j < length src)%nat → ubyte (ram s) root (va + Z.of_nat j) ≠ None).
  { intros j Hj. by apply (uprefix_mapped _ _ _ _ Hm). }
  destruct R as [(-> & ->)|(-> & Hk & Hnone)]; [|by apply Hall in Hnone].
  exists s'. split_and!; [done..|]. rewrite firstn_all in V.
  pose proof (us_as _ _ _ _ _ U') as A'. rewrite (copyin_spec s' l root tr va _ A') by lia.
  cbn zeta. rewrite Nat2Z.id.
  assert (Hb' : u8 <$> src = src).
  { clear -Hb. induction Hb as [|b bs Hb _ IH]; simpl; [done|]. rewrite u8_small by done. by f_equal. }
  assert (Hu : ubytes (ram s') root va (length src) = Some src).
  { rewrite <- Hb' at 2. apply ubytes_patched. intros i b Hi. rewrite V by lia. unfold patched.
    pose proof (lookup_lt_Some _ _ _ Hi). rewrite decide_True by lia.
    replace (Z.to_nat (va + Z.of_nat i - va)) with i by lia. by rewrite Hi. }
  rewrite uprefix_ubytes in Hu. destruct (decide _) as [Hl|]; [|discriminate].
  injection Hu as Hu. by rewrite Hu.
Qed.
End vm.

(** ** Examples: a kernel image that leaves sixteen pages *)
#[local] Existing Instances ex_link ex_link_ok.

Definition ex_page (i : Z) : Z := PHYSTOP - 4096 * (i + 1).
Definition ex_rest : list Z := ex_page <$> zseq 1 15.
Definition ex_pages : list Z := ex_page 0 :: ex_rest.

(** Physical memory after [kinit]. *)
Lemma ex_kinit : ∃ s, kinit (Kmem ∅ false 0) = Ok tt s ∧ free_list s ex_pages.
Proof.
  destruct (kinit_spec (Kmem ∅ false 0)) as (s & E & F); [done|]. exists s. split; [done|].
  replace ex_pages with boot_pages by (vm_compute; reflexivity). done.
Qed.

Lemma uvm_no_leak_witness :
  ∃ s s' l', kinit (Kmem ∅ false 0) = Ok tt s ∧
    (root ← uvmcreate; r ← uvmalloc root 0 10000 PTE_W; uvmfree root r) s = Ok tt s' ∧
    free_list s' l' ∧ l' ≡ₚ ex_pages.
Proof.
  destruct ex_kinit as (s & E & F).
  destruct (uvm_no_leak s (ex_page 0) ex_rest 10000 PTE_W F)
    as (s' & l' & E' & F' & P'); [vm_compute; split; congruence | vm_compute; split; congruence |].
  exists s, s', l'. split; [exact E|]. split; [exact E'|]. split; [exact F' | exact P'].
Defined.

(** An address space of two pages, and what is then free, by running the code. *)
Lemma ex_new_run :
  match (kinit ;; root ← uvmcreate; r ← uvmalloc root 0 8192 PTE_W; n ← getfreemem; ret (root, r, n))
          (Kmem ∅ false 0) with
  | Ok x _ => x = (ex_page 0, 8192, 11 * 4096)
  | _ => False
  end.
Proof. vm_compute. reflexivity. Qed.

Lemma new_run s00 s0 s1 s root r n sz xperm :
  kinit s00 = Ok tt s0 → uvmcreate s0 = Ok root s1 → uvmalloc root 0 sz xperm s1 = Ok r s →
  getfreemem s = Ok n s →
  (kinit ;; root ← uvmcreate; r ← uvmalloc root 0 sz xperm; n ← getfreemem; ret (root, r, n)) s00 =
    Ok (root, r, n) s.
Proof. intros E0 E1 E2 E3. by do 4 erewrite bind_ok by done. Qed.

Lemma ex_space : ∃ s l tr um,
  (kinit ;; root ← uvmcreate; uvmalloc root 0 8192 PTE_W) (Kmem ∅ false 0) = Ok 8192 s ∧
  uspace s l (ex_page 0) tr um ∧ exact_size (ram s) (ex_page 0) 8192 um ∧ length l = 11%nat ∧
  ∀ va, va ∈ vpages 0 2 → ∃ q, um !! va = Some q ∧
    sv39 (ram s) (ex_page 0) va = mk_pte q (Z.lor (Z.lor PTE_R PTE_U) PTE_W).
Proof.
  destruct ex_kinit as (s0 & E0 & F0).
  destruct (uvmnew_ok s0 (ex_page 0) ex_rest 8192 PTE_W F0)
    as (r & s & l & tr & um & E & U & A & Hr & X & Hpg);
    [vm_compute; split; congruence | vm_compute; split; congruence |].
  destruct (uvmcreate_ok s0 _ _ F0) as (s1 & E1 & _). rewrite (bind_ok _ _ _ _ _ E1) in E.
  pose proof ex_new_run as R. rewrite (new_run _ _ _ _ _ _ _ _ _ E0 E1 E
    (getfreemem_spec s l (as_free _ _ _ _ (us_as _ _ _ _ _ U)))) in R.
  injection R as Er En. subst r. exists s, l, tr, um.
  split; [by rewrite (bind_ok _ _ _ _ _ E0), (bind_ok _ _ _ _ _ E1)|]. split; [done|]. split; [done|].
  split; [unfold PGSIZE in En; lia|]. intros va Hva. destruct (Hpg va Hva) as (q & Hq & _ & Hs). exists q. split; assumption.
Qed.

(** A second, empty address space beside it. *)
Lemma ex_two_spaces : ∃ s l trO umO new trN,
  uspace s l (ex_page 0) trO umO ∧ uspace s l new trN ∅ ∧
  (∀ q, owned trO umO q → ¬ owned trN ∅ q) ∧
  (∀ va, va ∈ vpages 0 2 → is_Some (umO !! va) ∧ pte_valid (sv39 (ram s) new va) = false) ∧
  ∀ va, va ∈ vpages 0 2 → ∃ q, umO !! va = Some q ∧
    sv39 (ram s) (ex_page 0) va = mk_pte q (Z.lor (Z.lor PTE_R PTE_U) PTE_W).
Proof.
  destruct ex_space as (s0 & l0 & tr & um & _ & U & X & Hl & Hpg).
  destruct l0 as [|p l]; [discriminate|].
  pose proof (us_as _ _ _ _ _ U) as [F _ D].
  destruct (uvmcreate_ok s0 p l F) as (s & E & UN & VN & Hsame).
  assert (Hown : ∀ q, owned tr um q → q ∉ p :: l).
  { intros q [(k & Hk)|(va & Hva)]; [by apply (D k)|]. by apply (us_page _ _ _ _ _ U) in Hva as (_ & ? & _). }
  destruct (uspace_frame s0 (p :: l) (ex_page 0) tr um s l U) as (U' & V' & _).
  - apply (us_as _ _ _ _ _ UN).
  - intros q Hq Ho. apply (Hown q Ho). by right.
  - intros q a Ho Ha. apply Hsame. intros Hb.
    assert (q mod 4096 = 0 ∧ p mod 4096 = 0) as [Hq Hp].
    { destruct F as [_ _ F _]. rewrite Forall_forall in F. split; [|apply F; by left].
      destruct Ho as [(k & Hk)|(va & Hva)].
      - by apply (pw_page _ _ _ (as_pt _ _ _ _ (us_as _ _ _ _ _ U)) k q Hk).
      - by apply (us_page _ _ _ _ _ U) in Hva as ([? _] & _). }
    assert (q ≠ p) by (intros ->; apply (Hown p Ho); by left). destruct (page_disjoint q p); auto; lia.
  - exists s, l, tr, um, p, {[ [] := p ]}. split; [exact U'|]. split; [exact UN|]. split.
    { intros q Ho [(k & [_ <-]%lookup_singleton_Some)|(va & Hva)].
      - apply (Hown p Ho). by left.
      - by rewrite lookup_empty in Hva. }
    split.
    + intros va Hva. split; [exact (proj2 (proj1 X va) Hva) | by rewrite VN].
    + intros va Hva. rewrite V'. by apply Hpg.
Qed.

Lemma uvmcopy_copies_witness : ∃ s l old new trO umO trN,
  uspace s l old trO umO ∧ is_Some (umO !! 4096) ∧
  ∃ r s' l' trN' umN', uvmcopy old new 8192 s = Ok r s' ∧ uspace s' l' new trN' umN' ∧
    accounts l trN ∅ l' trN' umN' ∧
    (r = 0 ∧ (∀ va, 0 ≤ va < 8192 → ubyte (ram s') new va = ubyte (ram s) old va) ∨
     r = -1 ∧ umN' = ∅).
Proof.
  destruct ex_two_spaces as (s & l & trO & umO & new & trN & UO & UN & Hsep & Hm & _).
  destruct (uvmcopy_copies s l (ex_page 0) new trO umO trN 8192 UO UN Hsep)
    as (r & s' & l' & trN' & umN' & E & _ & UN' & _ & Ha & _ & R);
    [vm_compute; split; congruence | exact Hm |].
  exists s, l, (ex_page 0), new, trO, umO, trN. split; [exact UO|]. split.
  { apply Hm. apply elem_of_vpages. vm_compute. intuition congruence. }
  exists r, s', l', trN', umN'. split; [exact E|]. split; [exact UN'|]. split; [exact Ha | exact R].
Defined.

(** Two mapped pages can be written and read. *)
Lemma ex_prefix s l root tr um va n :
  uspace s l root tr um →
  (∀ va, va ∈ vpages 0 2 → ∃ q, um !! va = Some q ∧
     sv39 (ram s) root va = mk_pte q (Z.lor (Z.lor PTE_R PTE_U) PTE_W)) →
  0 ≤ va → va + Z.of_nat n ≤ 8192 → length (uprefix (ram s) root va n) = n.
Proof.
  intros U Hpg. revert va. induction n as [|n IH]; intros va Hva Hn; simpl; [done|].
  destruct (Hpg (PGROUNDDOWN va)) as (q & Hq & Hs).
  { rewrite PGROUNDDOWN_eq, elem_of_vpages. zlia. }
  rewrite (ubyte_via s l root tr um va _ q) by done. rewrite Hs.
  replace (nonzero _) with true.
  2:{ change PTE_U with 16. rewrite land_flag_mod by lia.
      destruct (us_page _ _ _ _ _ U _ _ Hq) as (Hok & _). pose proof (page_ok_pa q Hok).
      destruct (mk_pte_facts q (Z.lor (Z.lor PTE_R 16) PTE_W)) as (_ & _ & -> & _);
        [lia | tauto | vm_compute; split; congruence | reflexivity]. }
  cbn [length]. f_equal. apply IH; lia.
Qed.

Lemma copyout_copyin_witness : ∃ s l tr um s', uspace s l (ex_page 0) tr um ∧
  copyout (ex_page 0) 4095 [1; 2; 3] 3 s = Ok 0 s' ∧
  copyin (ex_page 0) 4095 3 s' = Ok (0, [1; 2; 3]) s'.
Proof.
  destruct ex_two_spaces as (s & l & tr & um & new & trN & U & _ & _ & _ & Hpg).
  destruct (copyout_copyin s l (ex_page 0) tr um 4095 [1; 2; 3] U) as (s' & E & _ & Ei).
  - lia.
  - simpl. lia.
  - repeat (apply Forall_cons; split; [lia|]). apply Forall_nil. exact I.
  - apply (ex_prefix s l (ex_page 0) tr um 4095 3 U Hpg); simpl; lia.
  - exists s, l, tr, um, s'. split; [exact U|]. split; [exact E | exact Ei].
Defined.
