(* ===== verification/VmKernel.v ===== *)
(** * The kernel's page table

    [kvmmake] builds the page table the kernel runs on.  [kmap] says what it
    maps: devices and RAM at their physical addresses, the trampoline at the
    top of the address space, and below it the kernel stack of each process,
    with an unmapped page under every stack.  Page-table pages are counted by
    their paths ([kkeys]): 72 pages of tables and 64 of stacks are enough. *)

From S2P Require Import Base Riscv Mem Kstring Spinlock Kalloc Vm VmSpec VmMap VmUser VmAlloc VmTheorems.
Local Open Scope Z_scope.
Local Open Scope kernel_scope.

Section counting.
  Context {LK : Link} {LKO : LinkOk}.

(** ** Pages and paths *)

(** Every page taken from the free list is a new page of the tree. *)
Lemma grows_count root s l tr s' l' tr' :
  aspace s l root tr → grows root s l tr s' l' tr' →
  (length l + size tr ≤ length l' + size tr')%nat.
Proof.
  intros A [A' T N [new ->] Us _]. pose proof (fl_nodup _ _ (as_free _ _ _ _ A)) as ND.
  apply NoDup_app in ND as (ND & Hd & _).
  assert (Hin : ∀ q, q ∈ new → ∃ k, (tr' ∖ tr) !! k = Some q).
  { intros q Hq. destruct (Us q) as [Hl|[k Hk]]; [set_solver|by destruct (Hd q)|].
    exists k. apply lookup_difference_Some. split; [done|].
    destruct (tr !! k) as [p|] eqn:E; [|done]. pose proof (T _ _ E) as E'.
    rewrite Hk in E'. injection E' as ->. destruct (as_disj _ _ _ _ A _ _ E). set_solver. }
  assert (Hs : size tr' = (size tr + size (tr' ∖ tr))%nat).
  { rewrite <- map_size_disj_union by (by apply map_disjoint_difference_r1).
    f_equal. symmetry. apply map_difference_union. by apply map_subseteq_spec. }
  assert (Hn : (length new ≤ length (map_to_list (tr' ∖ tr)).*2)%nat).
  { apply submseteq_length, NoDup_submseteq; [done|]. intros q [k Hk]%Hin.
    apply list_elem_of_fmap. exists (k, q). split; [done|]. by apply elem_of_map_to_list. }
  rewrite length_fmap, length_map_to_list in Hn. rewrite length_app. lia.
Qed.

Lemma keys_size (K : list (list Z)) (tr : ptree) :
  (∀ k, is_Some (tr !! k) → k ∈ K) → (size tr ≤ length K)%nat.
Proof.
  intros H. rewrite <- length_map_to_list, <- (length_fmap fst).
  apply submseteq_length, NoDup_submseteq; [apply NoDup_fst_map_to_list|].
  intros k ([k' p] & -> & Hk%elem_of_map_to_list)%list_elem_of_fmap. by apply H; eexists.
Qed.
End counting.

Section kernel_table.
  Context {LK : Link} {LKO : LinkOk}.

(** The paths of the page-table pages: the root; one page of level 1 for the
    devices, for RAM and for the top of the address space; the pages of level
    0, each of which maps 2 MiB. *)
Definition kkeys : list (list Z) :=
  [[]; [0]; [2]; [255]; [0; 96]; [0; 97]; [0; 128]; [255; 511]] ++ ((λ i, [2; i]) <$> zseq 0 64).

Lemma kkeys_length : length kkeys = 72%nat.
Proof. done. Qed.

Definition kpath (v : Z) : Prop := [PX 2 v] ∈ kkeys ∧ [PX 2 v; PX 1 v] ∈ kkeys.

Lemma kpath_low v : PLIC ≤ v < PLIC + 0x400000 ∨ UART0 ≤ v < UART0 + 0x2000 → kpath v.
Proof.
  unfold PLIC, UART0. intros Hv. unfold kpath. rewrite PX2_eq, PX1_eq.
  replace (v / 1073741824 mod 512) with 0 by zlia.
  assert (v / 2097152 mod 512 = 96 ∨ v / 2097152 mod 512 = 97 ∨ v / 2097152 mod 512 = 128)
    as [-> | [-> | ->]] by zlia; unfold kkeys; set_solver.
Qed.

Lemma kpath_ram v : KERNBASE ≤ v < PHYSTOP → kpath v.
Proof.
  unfold PHYSTOP, KERNBASE. intros Hv. unfold kpath. rewrite PX2_eq, PX1_eq.
  replace (v / 1073741824 mod 512) with 2 by zlia.
  split; [unfold kkeys; set_solver|]. apply elem_of_app. right. apply list_elem_of_fmap.
  exists (v / 2097152 mod 512). split; [done|]. apply elem_of_zseq. zlia.
Qed.

Lemma kpath_high v : TRAMPOLINE - 128 * 4096 ≤ v ≤ TRAMPOLINE → kpath v.
Proof.
  unfold TRAMPOLINE, PGSIZE. rewrite MAXVA_eq. intros Hv. unfold kpath. rewrite PX2_eq, PX1_eq.
  replace (v / 1073741824 mod 512) with 255 by zlia.
  replace (v / 2097152 mod 512) with 511 by zlia. unfold kkeys. set_solver.
Qed.

(** ** kvmmap *)

(** A kernel page table under construction, with the translation [T]. *)
Record ktable (s : kmem) (l : list Z) (root : Z) (tr : ptree) (T : Z → Z) : Prop := {
  kt_as : aspace s l root tr;
  kt_keys : ∀ k, is_Some (tr !! k) → k ∈ kkeys;
  kt_map : ∀ v, vslot v → sv39 (ram s) root v = T v;
}.

Lemma kvmmap_ok s l root tr T va pa sz perm :
  ktable s l root tr T → (72 < length l + size tr)%nat →
  0 ≤ va → va mod 4096 = 0 → 0 < sz → sz mod 4096 = 0 → va + sz ≤ MAXVA →
  0 ≤ pa → pa mod 4096 = 0 → pa + sz < 2 ^ 55 → 0 ≤ perm < 1024 →
  (∀ v, vpage v → va ≤ v < va + sz → T v = 0 ∧ kpath v) →
  ∃ s' l' tr', kvmmap root va pa sz perm s = Ok tt s' ∧
    ktable s' l' root tr' (mapped_to T va (va + sz) pa perm) ∧
    grows root s l tr s' l' tr'.
Proof.
  intros [A K M] Hlen Hva Hal Hsz Hsa Hmax Hpa Hpal Hpb Hperm Hnew.
  assert (PGROUNDDOWN va = va) as Ea by (rewrite PGROUNDDOWN_eq; lia).
  assert (PGROUNDDOWN (va + sz - 1) = va + sz - 4096) as El by (rewrite PGROUNDDOWN_eq; zlia).
  destruct (mappages_spec s l root tr va sz pa perm A) as (r & b & s' & l' & tr' & E & G & V & P & Hr);
    try done; try lia.
  { intros v Hv Hb. rewrite Ea, El in Hb. rewrite M by auto. by destruct (Hnew v Hv) as [-> _]; [lia|]. }
  rewrite Ea in V, P, Hr. rewrite El in P, Hr.
  assert (K' : ∀ k, is_Some (tr' !! k) → k ∈ kkeys).
  { intros k [?|(v & [Hv Hb] & Hk)]%P; [by apply K|]. destruct (Hnew v Hv) as [_ [? ?]]; [lia|].
    by destruct Hk as [-> | ->]. }
  pose proof (grows_count _ _ _ _ _ _ _ A G). pose proof (keys_size kkeys tr' K') as Hs.
  rewrite kkeys_length in Hs.
  destruct Hr as [[-> ->]|(_ & -> & _)]; [|simpl in *; lia].
  exists s', l', tr'. unfold kvmmap. rewrite (bind_ok _ _ _ _ _ E). split; [done|].
  split; [|done]. split; [apply (gr_as _ _ _ _ _ _ _ G)|done|].
  intros v Hv. rewrite V by done. unfold mapped_to. case_decide; case_decide; try lia; auto.
Qed.

Lemma ktable_ext s l root tr T T' :
  ktable s l root tr T → (∀ v, vslot v → T v = T' v) → ktable s l root tr T'.
Proof. intros [A K M] H. split; [done..|]. intros v Hv. rewrite M by done. by apply H. Qed.

(** ** What the kernel's page table maps *)

(** The entry of [v] as a page of a kernel stack: [KSTACK i] is the page
    [stacks !! i], and every second page is left unmapped. *)
Definition stack_pte (stacks : list Z) (v : Z) : Z :=
  let d := TRAMPOLINE - v in
  if (0 <? d) && (d mod (2 * PGSIZE) =? 0) then
    match stacks !! Z.to_nat (d / (2 * PGSIZE) - 1) with
    | Some pa => mk_pte pa (Z.lor PTE_R PTE_W)
    | None => 0
    end
  else 0.

Definition kmap (stacks : list Z) (v : Z) : Z :=
  if decide (v = UART0 ∨ v = VIRTIO0 ∨ PLIC ≤ v < PLIC + 0x400000 ∨ etext ≤ v < PHYSTOP)
  then mk_pte v (Z.lor PTE_R PTE_W)
  else if decide (KERNBASE ≤ v < etext) then mk_pte v (Z.lor PTE_R PTE_X)
  else if decide (v = TRAMPOLINE) then mk_pte trampoline (Z.lor PTE_R PTE_X)
  else stack_pte stacks v.

Lemma TRAMPOLINE_eq : TRAMPOLINE = 274877902848.
Proof. done. Qed.

Lemma KSTACK_eq i : KSTACK i = 274877902848 - (i + 1) * 8192.
Proof. unfold KSTACK, PGSIZE. rewrite TRAMPOLINE_eq. lia. Qed.

Lemma kmap_low stacks v : v < TRAMPOLINE - 128 * 4096 → (length stacks ≤ 64)%nat →
  kmap stacks v = kmap [] v.
Proof.
  intros Hv Hl. unfold kmap. repeat case_decide; try done. unfold stack_pte, PGSIZE.
  case_match eqn:E; [|done]. bool_to_prop. rewrite lookup_ge_None_2 by zlia. by rewrite lookup_nil.
Qed.

Lemma kmap_high stacks v : TRAMPOLINE - 128 * 4096 ≤ v < TRAMPOLINE → kmap stacks v = stack_pte stacks v.
Proof.
  intros Hv. pose proof etext_range as He. pose proof kend_range as Hk. rewrite TRAMPOLINE_eq in *.
  unfold kmap, UART0, VIRTIO0, PLIC, PHYSTOP, KERNBASE in *.
  by rewrite !decide_False by (rewrite ?TRAMPOLINE_eq; lia).
Qed.

(** The entry of a stack, and of the page below it. *)
Lemma kmap_KSTACK stacks i :
  0 ≤ i < 64 → kmap stacks (KSTACK i) =
    match stacks !! Z.to_nat i with Some pa => mk_pte pa (Z.lor PTE_R PTE_W) | None => 0 end.
Proof.
  intros Hi. rewrite kmap_high by (rewrite KSTACK_eq, TRAMPOLINE_eq; lia).
  unfold stack_pte. rewrite KSTACK_eq, TRAMPOLINE_eq. unfold PGSIZE. case_match eqn:E; bool_to_prop.
  - by replace (Z.to_nat _) with (Z.to_nat i) by zlia.
  - apply andb_false_iff in E as [E|E]; bool_to_prop; zlia.
Qed.

Lemma kmap_guard stacks i : 0 ≤ i < 64 → kmap stacks (KSTACK i - PGSIZE) = 0.
Proof.
  intros Hi. rewrite KSTACK_eq. unfold PGSIZE. destruct (decide (i < 63)).
  - rewrite kmap_high by (rewrite TRAMPOLINE_eq; lia). unfold stack_pte, PGSIZE. rewrite TRAMPOLINE_eq.
    case_match eqn:E; bool_to_prop; [zlia|done].
  - pose proof etext_range as He. pose proof kend_range as Hk.
    unfold kmap, UART0, VIRTIO0, PLIC, PHYSTOP, KERNBASE in *.
    rewrite !decide_False by (rewrite ?TRAMPOLINE_eq; lia). unfold stack_pte, PGSIZE. rewrite TRAMPOLINE_eq.
    case_match eqn:E; bool_to_prop; [zlia|done].
Qed.

(** No entry is for user mode. *)
Lemma mk_pte_supervisor pa perm :
  0 ≤ pa < 2 ^ 56 → pa mod 4096 = 0 → 0 ≤ perm < 1024 → Z.land (Z.lor perm PTE_V) PTE_U = 0 →
  user_pte (mk_pte pa perm) = false.
Proof.
  intros Hpa Ha Hp Hu. destruct (mk_pte_facts pa perm Hpa Ha Hp) as (_ & _ & Hf & _).
  unfold user_pte. change PTE_U with 16 in *. rewrite land_flag_mod, Hf, Hu by lia. apply andb_false_r.
Qed.

Lemma kmap_supervisor stacks v : vslot v → Forall page_ok stacks → user_pte (kmap stacks v) = false.
Proof.
  intros [Hv Ha] Hs. pose proof trampoline_range as Ht. pose proof trampoline_aligned as Hta.
  pose proof etext_range. pose proof kend_range. unfold PHYSTOP, KERNBASE, PGSIZE in *.
  unfold kmap. repeat case_decide; [apply mk_pte_supervisor; first [done | lia | by (split; vm_compute)] ..|].
  unfold stack_pte. case_match; [|done]. case_match eqn:E; [|done].
  pose proof (Forall_lookup_1 _ _ _ _ Hs E) as [? ?]%page_ok_pa.
  apply mk_pte_supervisor; first [done | lia | by (split; vm_compute)].
Qed.

(** A stack mapped. *)
Lemma kmap_stack stacks pa v :
  vslot v → let i := Z.of_nat (length stacks) in i < 64 →
  mapped_to (kmap stacks) (KSTACK i) (KSTACK i + PGSIZE) pa (Z.lor PTE_R PTE_W) v =
    kmap (stacks ++ [pa]) v.
Proof.
  intros [Hv Hal] i Hi. pose proof etext_range as He. pose proof kend_range as Hk.
  unfold mapped_to. case_decide as Hd.
  - assert (v = KSTACK i) as ->. { rewrite KSTACK_eq in *. unfold PGSIZE in *. zlia. }
    rewrite Z.sub_diag, Z.add_0_r. rewrite KSTACK_eq. unfold kmap.
    rewrite !decide_False by (unfold UART0, VIRTIO0, PLIC, PHYSTOP, KERNBASE in *; rewrite ?TRAMPOLINE_eq; lia).
    unfold stack_pte. rewrite TRAMPOLINE_eq. unfold PGSIZE.
    case_match eqn:E; bool_to_prop.
    + rewrite lookup_app_r by zlia.
      replace (Z.to_nat _ - length stacks)%nat with 0%nat by zlia. done.
    + apply andb_false_iff in E as [E|E]; bool_to_prop; zlia.
  - unfold kmap. repeat (case_decide; [done|]). unfold stack_pte.
    case_match eqn:E; [|done]. bool_to_prop. rewrite KSTACK_eq in Hd.
    rewrite TRAMPOLINE_eq in *. unfold PGSIZE in *.
    destruct (decide (Z.to_nat ((274877902848 - v) / (2 * 4096) - 1) < length stacks)%nat) as [Hlt|Hge].
    + by rewrite lookup_app_l.
    + rewrite (lookup_ge_None_2 stacks) by lia. rewrite lookup_ge_None_2; [done|].
      rewrite length_app. simpl. zlia.
Qed.

(** ** proc_mapstacks *)
Lemma elem_of_suffix {A} (l l' : list A) x : x ∈ l → l `suffix_of` l' → x ∈ l'.
Proof. intros Hx [k ->]. apply elem_of_app. by right. Qed.

(** The pages of stacks are pages nothing else uses. *)
Record stacks_ok (stacks l : list Z) (tr : ptree) : Prop := {
  so_nodup : NoDup (stacks ++ l);
  so_pages : Forall page_ok stacks;
  so_tree : ∀ k p, tr !! k = Some p → p ∉ stacks;
}.

Lemma stacks_ok_grows root s l tr s' l' tr' stacks :
  grows root s l tr s' l' tr' → stacks_ok stacks l tr → stacks_ok stacks l' tr'.
Proof.
  intros [A T N [new ->] _ _] [ND P Ht]. apply NoDup_app in ND as (H1 & H2 & H3). split; [|done|].
  - apply NoDup_app. apply NoDup_app in H3 as (_ & _ & H3). split_and!; [done| |done].
    intros q Hq Hl. apply (H2 q Hq). set_solver.
  - intros k p [Hk|Hp]%N Hin; [by apply (Ht k p)|]. by apply (H2 p).
Qed.

Lemma stacks_ok_take s q l root tr stacks :
  aspace s (q :: l) root tr → stacks_ok stacks (q :: l) tr → stacks_ok (stacks ++ [q]) l tr.
Proof.
  intros A [ND P Ht]. split.
  - by rewrite <- app_assoc.
  - apply Forall_app. split; [done|]. apply Forall_singleton.
    apply (proj1 (Forall_cons _ _ _) (fl_pages _ _ (as_free _ _ _ _ A))).
  - intros k p Hk [Hin|Hin]%elem_of_app; [by apply (Ht k p)|].
    apply list_elem_of_singleton in Hin as ->. destruct (as_disj _ _ _ _ A k q Hk). set_solver.
Qed.

Lemma mapstacks_ok n s l root tr stacks :
  ktable s l root tr (kmap stacks) → stacks_ok stacks l tr → (length stacks + n = 64)%nat →
  (72 + n < length l + size tr)%nat →
  ∃ s' l' tr' new, mfor (zseq (Z.of_nat (length stacks)) n) (λ i,
      pa ← kalloc;
      if pa =? 0 then panic "kalloc" else
      kvmmap root (KSTACK i) pa PGSIZE (Z.lor PTE_R PTE_W)) s = Ok tt s' ∧
    ktable s' l' root tr' (kmap (stacks ++ new)) ∧ stacks_ok (stacks ++ new) l' tr' ∧
    length new = n ∧ (length l + size tr ≤ length l' + size tr' + n)%nat ∧ l' `suffix_of` l ∧
    (∀ q, q ∈ new → q ∈ l).
Proof.
  revert s l tr stacks. induction n as [|n IH]; intros s l tr stacks KT SO Hn Hlen.
  - exists s, l, tr, []. rewrite app_nil_r. split_and!; try done; [lia|set_solver].
  - pose proof (keys_size kkeys tr (kt_keys _ _ _ _ _ KT)) as Hs. rewrite kkeys_length in Hs.
    destruct l as [|q l]; [simpl in Hlen; lia|].
    pose proof KT as [A K M]. destruct (aspace_take s q l root tr A) as (E & A1 & Hq & Hin & Hfr & V).
    set (s1 := Kmem _ _ _) in *.
    assert (KT1 : ktable s1 l root tr (kmap stacks)). { split; [done..|]. intros v Hv. rewrite V. auto. }
    pose proof (page_ok_bound q Hq) as Hqb. pose proof (page_ok_pa q Hq) as [_ Hqa].
    set (i := Z.of_nat (length stacks)) in *.
    assert (Hi : 0 ≤ i < 64) by lia.
    destruct (kvmmap_ok s1 l root tr _ (KSTACK i) q PGSIZE (Z.lor PTE_R PTE_W) KT1)
      as (s2 & l2 & tr2 & E2 & KT2 & G2); rewrite ?KSTACK_eq; unfold PGSIZE, PHYSTOP, KERNBASE in *;
      try done; try lia; try zlia; [simpl in Hlen; lia | by rewrite MAXVA_eq; lia | |].
    { intros v [Hv Hva] Hb. assert (v = KSTACK i) as -> by (rewrite KSTACK_eq; zlia).
      split; [|apply kpath_high; rewrite KSTACK_eq, TRAMPOLINE_eq; lia].
      rewrite kmap_KSTACK by done. by rewrite lookup_ge_None_2 by lia. }
    assert (KT3 : ktable s2 l2 root tr2 (kmap (stacks ++ [q]))).
    { apply (ktable_ext _ _ _ _ _ _ KT2). intros v Hv. apply (kmap_stack stacks q v Hv). fold i. lia. }
    pose proof (stacks_ok_grows _ _ _ _ _ _ _ _ G2 (stacks_ok_take s q l root tr stacks A SO)) as SO2.
    pose proof (grows_count _ _ _ _ _ _ _ A1 G2) as Hc.
    destruct (IH s2 l2 tr2 (stacks ++ [q]) KT3 SO2) as (s3 & l3 & tr3 & new & E3 & KT4 & SO3 & Hl & Hc3 & U3 & Hn3);
      [rewrite length_app; simpl; lia | cbn [length] in Hlen; lia |].
    pose proof (gr_free _ _ _ _ _ _ _ G2) as U2.
    exists s3, l3, tr3, (q :: new). rewrite <- app_assoc in KT4, SO3. split_and!; try done.
    + cbn [zseq mfor]. rewrite (bind_ok _ _ _ tt s2).
      * rewrite length_app in E3. simpl in E3. by replace (i + 1) with (Z.of_nat (length stacks + 1)) by lia.
      * rewrite (bind_ok _ _ _ _ _ E). by rewrite (proj2 (Z.eqb_neq q 0)) by lia.
    + simpl. lia.
    + simpl in *. lia.
    + apply suffix_cons_r. by etrans.
    + intros x [->|Hx%Hn3]%elem_of_cons; [set_solver|]. apply list_elem_of_further. by apply (elem_of_suffix l2).
Qed.

(** ** kvmmake *)
Lemma new_table s p l :
  free_list s (p :: l) →
  ∃ s1 s2, kalloc s = Ok p s1 ∧ kmemset p 0 PGSIZE s1 = Ok tt s2 ∧
    ktable s2 l p {[ [] := p ]} (λ _, 0).
Proof.
  intros F. destruct (kalloc_some s p l F) as (E & _ & Hp & _).
  destruct (uvmcreate_ok s p l F) as (s2 & E2 & U & V & _).
  eexists _, s2. split; [exact E|]. unfold uvmcreate in E2. rewrite (bind_ok _ _ _ _ _ E) in E2.
  rewrite (proj2 (Z.eqb_neq p 0)) in E2 by (pose proof (page_ok_bound p Hp); unfold KERNBASE in *; lia).
  rewrite bind_kmemset in E2. injection E2 as <-. split; [done|].
  split; [apply U| |by intros v _]. intros k [q [<- _]%lookup_singleton_Some]. unfold kkeys. set_solver.
Qed.

(** The six mappings of devices, RAM and the trampoline. *)
Lemma kmap_fixed v :
  vslot v →
  mapped_to (mapped_to (mapped_to (mapped_to (mapped_to (mapped_to (λ _, 0)
    UART0 (UART0 + PGSIZE) UART0 (Z.lor PTE_R PTE_W))
    VIRTIO0 (VIRTIO0 + PGSIZE) VIRTIO0 (Z.lor PTE_R PTE_W))
    PLIC (PLIC + 0x400000) PLIC (Z.lor PTE_R PTE_W))
    KERNBASE (KERNBASE + (etext - KERNBASE)) KERNBASE (Z.lor PTE_R PTE_X))
    etext (etext + (PHYSTOP - etext)) etext (Z.lor PTE_R PTE_W))
    TRAMPOLINE (TRAMPOLINE + PGSIZE) trampoline (Z.lor PTE_R PTE_X) v = kmap [] v.
Proof.
  intros [Hv Ha]. pose proof etext_range as He. pose proof kend_range as Hk.
  assert (stack_pte [] v = 0) as Hs by (unfold stack_pte; rewrite lookup_nil; by case_match).
  unfold mapped_to, kmap. rewrite Hs, TRAMPOLINE_eq in *.
  unfold UART0, VIRTIO0, PLIC, PGSIZE, PHYSTOP, KERNBASE in *.
  repeat case_decide; try done; try lia; try (f_equal; lia); exfalso; zlia.
Qed.

(** The next call of [kvmmap]. *)
Ltac map_range K va pa sz perm s' l' tr' E' K' N' U' :=
  let G := fresh "G" in let H := fresh "H" in
  destruct (kvmmap_ok _ _ _ _ _ va pa sz perm K) as (s' & l' & tr' & E' & K' & G);
  [ lia
  | unfold UART0, VIRTIO0, PLIC, PGSIZE, PHYSTOP, KERNBASE in *; rewrite ?TRAMPOLINE_eq, ?MAXVA_eq; first [done | zlia | by (split; vm_compute)] ..
  | intros v [? ?] ?; split;
    [ unfold mapped_to; unfold UART0, VIRTIO0, PLIC, PGSIZE, PHYSTOP, KERNBASE in *; rewrite ?TRAMPOLINE_eq in *;
      by rewrite ?decide_False by zlia
    | unfold UART0, VIRTIO0, PLIC, PGSIZE, PHYSTOP, KERNBASE in *;
      first [ apply kpath_low; unfold PLIC, UART0; lia
            | apply kpath_ram; unfold PHYSTOP, KERNBASE; lia
            | apply kpath_high; rewrite TRAMPOLINE_eq in *; zlia ] ]
  | pose proof (grows_count _ _ _ _ _ _ _ (kt_as _ _ _ _ _ K) G) as N';
    pose proof (gr_free _ _ _ _ _ _ _ G) as U'; clear G ].

Lemma kvmmake_ok s l :
  free_list s l → (136 < length l)%nat →
  ∃ root s' l' tr stacks, kvmmake s = Ok root s' ∧ ktable s' l' root tr (kmap stacks) ∧
    stacks_ok stacks l' tr ∧ length stacks = 64%nat ∧ (length l ≤ length l' + 136)%nat ∧
    l' `suffix_of` l ∧
    ∀ q, q ∈ root :: stacks → q ∈ l.
Proof.
  intros F Hl. destruct l as [|p l]; [simpl in Hl; lia|].
  destruct (new_table s p l F) as (s0 & s1 & E0 & E1 & K1).
  pose proof etext_range as He. pose proof kend_range as Hk. pose proof etext_aligned as Hea.
  pose proof trampoline_range as Ht. pose proof trampoline_aligned as Hta.
  assert (Hz : size ({[ [] := p ]} : ptree) = 1%nat) by apply map_size_singleton.
  simpl in Hl. assert (N1 : (137 ≤ length l + size ({[ [] := p ]} : ptree))%nat) by lia.
  map_range K1 UART0 UART0 PGSIZE (Z.lor PTE_R PTE_W) s2 l2 tr2 E2 K2 N2 U2.
  map_range K2 VIRTIO0 VIRTIO0 PGSIZE (Z.lor PTE_R PTE_W) s3 l3 tr3 E3 K3 N3 U3.
  map_range K3 PLIC PLIC 0x400000 (Z.lor PTE_R PTE_W) s4 l4 tr4 E4 K4 N4 U4.
  map_range K4 KERNBASE KERNBASE (etext - KERNBASE) (Z.lor PTE_R PTE_X) s5 l5 tr5 E5 K5 N5 U5.
  map_range K5 etext etext (PHYSTOP - etext) (Z.lor PTE_R PTE_W) s6 l6 tr6 E6 K6 N6 U6.
  map_range K6 TRAMPOLINE trampoline PGSIZE (Z.lor PTE_R PTE_X) s7 l7 tr7 E7 K7 N7 U7.
  assert (U : l7 `suffix_of` l).
  { etrans; [exact U7|]. etrans; [exact U6|]. etrans; [exact U5|]. etrans; [exact U4|]. etrans; [exact U3|]. exact U2. }
  assert (K8 : ktable s7 l7 p tr7 (kmap [])) by (apply (ktable_ext _ _ _ _ _ _ K7), kmap_fixed).
  destruct (mapstacks_ok 64 s7 l7 p tr7 [] K8) as (s8 & l8 & tr8 & st & E8 & K9 & SO & Hs & N8 & U8 & Hn8);
    [ | done | lia |].
  { split; [apply (as_free _ _ _ _ (kt_as _ _ _ _ _ K8)) | apply Forall_nil_2 | set_solver]. }
  pose proof (keys_size kkeys tr8 (kt_keys _ _ _ _ _ K9)) as Hz8. rewrite kkeys_length in Hz8.
  exists p, s8, l8, tr8, st. simpl in K9, SO. split; [|split_and!; try done; [simpl; lia|..]].
  - unfold kvmmake. rewrite (bind_ok _ _ _ _ _ E0), (bind_ok _ _ _ _ _ E1), (bind_ok _ _ _ _ _ E2),
      (bind_ok _ _ _ _ _ E3), (bind_ok _ _ _ _ _ E4), (bind_ok _ _ _ _ _ E5), (bind_ok _ _ _ _ _ E6),
      (bind_ok _ _ _ _ _ E7). unfold proc_mapstacks. by rewrite (bind_ok _ _ _ _ _ E8).
  - apply suffix_cons_r. by etrans.
  - intros q [->|Hq%Hn8]%elem_of_cons; [set_solver|]. apply list_elem_of_further.
    by apply (elem_of_suffix l7).
Qed.

(** C11: [kvmmake] returns a page table which maps exactly what [kmap] says, for
    every page of the address space: each device and all RAM at its physical
    address, kernel code read-only and executable and the rest of RAM
    writable but not executable, the trampoline, and a stack for each process
    on a page of its own, below which nothing is mapped.  No entry is
    accessible from user mode.  At most 136 pages are taken from the free
    list, in order; none of the pages in use is still free. *)
Theorem kvmmake_maps s l (HF : free_list s l) (Hl : (136 < length l)%nat) :
  ∃ root s' l' stacks, kvmmake s = Ok root s' ∧ free_list s' l' ∧
    l' `suffix_of` l ∧ (length l ≤ length l' + 136)%nat ∧
    length stacks = Z.to_nat NPROC ∧ NoDup (stacks ++ l') ∧ (∀ q, q ∈ root :: stacks → q ∈ l ∧ q ∉ l') ∧
    (∀ v, vslot v → sv39 (ram s') root v = kmap stacks v) ∧
    (∀ i pa, stacks !! i = Some pa →
       sv39 (ram s') root (KSTACK (Z.of_nat i)) = mk_pte pa (Z.lor PTE_R PTE_W) ∧
       sv39 (ram s') root (KSTACK (Z.of_nat i) - PGSIZE) = 0) ∧
    (∀ v, vslot v → user_pte (sv39 (ram s') root v) = false).
Proof.
  destruct (kvmmake_ok s l HF Hl) as (root & s' & l' & tr & stacks & E & KT & SO & Hs & Hc & Hsuf & Hin).
  pose proof KT as [A K M]. exists root, s', l', stacks. split_and!; try done.
  - apply A.
  - apply SO.
  - intros q Hq. split; [by apply Hin|]. apply elem_of_cons in Hq as [->|Hq].
    + apply (as_disj _ _ _ _ A []), (pw_root _ _ _ (as_pt _ _ _ _ A)).
    + intros Hl'. pose proof (so_nodup _ _ _ SO) as (_ & Hd & _)%NoDup_app. by apply (Hd q).
  - intros i pa Hi. pose proof (lookup_lt_Some _ _ _ Hi) as Hlt. rewrite Hs in Hlt.
    split; rewrite M by (unfold vslot; rewrite KSTACK_eq; unfold PGSIZE; zlia).
    + rewrite kmap_KSTACK by lia. by rewrite Nat2Z.id, Hi.
    + by apply kmap_guard; lia.
  - intros v Hv. rewrite M by done. apply kmap_supervisor; [done|]. exact (so_pages _ _ _ SO).
Qed.
End kernel_table.

(** ** An example: a kernel that leaves a megabyte of memory *)
Definition ex_link_large : Link := {|
  kend := PHYSTOP - 256 * 4096; etext := KERNBASE + 8 * 4096; trampoline := KERNBASE + 7 * 4096;
  uservec := KERNBASE + 7 * 4096; userret := KERNBASE + 7 * 4096 + 0x9c; kernelvec := KERNBASE + 0x100;
  forkret_addr := KERNBASE + 0x200; usertrap_addr := KERNBASE + 0x300;
  sched_ra := KERNBASE + 0x400 |}.
Lemma ex_link_large_ok : @LinkOk ex_link_large.
Proof. split; vm_compute; intuition congruence. Qed.

Section example.
#[local] Existing Instances ex_link_large ex_link_large_ok.

Lemma ex_boot_length : length boot_pages = 256%nat.
Proof. unfold boot_pages. by rewrite length_fmap, length_reverse, zseq_length. Qed.

Lemma kvmmake_maps_witness :
  ∃ s root s' stacks, free_list s boot_pages ∧ kvmmake s = Ok root s' ∧
    (∀ v, vslot v → sv39 (ram s') root v = kmap stacks v) ∧
    sv39 (ram s') root KERNBASE = mk_pte KERNBASE (Z.lor PTE_R PTE_X).
Proof.
  destruct (kinit_spec (Kmem ∅ false 0) eq_refl) as (s & _ & F).
  destruct (kvmmake_maps s boot_pages F) as (root & s' & l' & stacks & E & _ & _ & _ & _ & _ & _ & V & _).
  - rewrite ex_boot_length. lia.
  - exists s, root, s', stacks. split; [exact F|]. split; [exact E|]. split; [exact V|].
    rewrite V by (vm_compute; intuition congruence). unfold kmap.
    rewrite decide_False by (vm_compute; intuition congruence).
    by rewrite decide_True by (vm_compute; intuition congruence).
Defined.
End example.
