(* ===== verification/Asm.v ===== *)
(** * The kernel's assembly ([kernel/trampoline.S], [kernel/swtch.S],
    [kernel/kernelvec.S], [kernel/entry.S])

    The four files as lists of instructions, and a small machine that runs
    them: registers, control and status registers, physical memory, the
    privilege mode.  Loads and stores go through the page table that [satp]
    selects, as the hardware walks it ([sv39] of [VmSpec]); an access that
    the page table does not allow is a fault, and the code does not go on.

    [run] executes straight-line code up to the jump that leaves it.  Called
    C functions and symbol addresses are given by an environment. *)

From stdpp Require Import functions.
From S2P Require Import Base Riscv Mem Kalloc Vm VmSpec.
Local Open Scope Z_scope.

(** ** The machine *)
Inductive reg :=
| RA | SP | GP | TP | T0 | T1 | T2 | S0 | S1
| A0 | A1 | A2 | A3 | A4 | A5 | A6 | A7
| S2 | S3 | S4 | S5 | S6 | S7 | S8 | S9 | S10 | S11 | T3 | T4 | T5 | T6.
#[export] Instance reg_eq_dec : EqDecision reg.
Proof. solve_decision. Defined.

(** [Sstatus], [Sie] and [Sip] are registers of their own: the parts of
    [Mstatus], [Mie] and [mip] that the kernel uses in machine mode are not
    visible in them. *)
Inductive csr :=
| Sscratch | Satp | Sip | Sie | Sepc | Sstatus | Stvec | Scause | Stval
| Mscratch | Mepc | Mhartid | Mstatus | Mie | Mtvec | Medeleg | Mideleg
| Pmpaddr0 | Pmpcfg0 | Mcounteren | Time.
#[export] Instance csr_eq_dec : EqDecision csr.
Proof. solve_decision. Defined.

Inductive mode := Machine | Supervisor | User.

Record hstate := HState {
  x : reg → Z;
  csrs : csr → Z;
  hmem : mem;
  hmode : mode;
}.
Definition set_x (v : reg → Z) (s : hstate) : hstate := HState v (csrs s) (hmem s) (hmode s).
Definition set_csrs (v : csr → Z) (s : hstate) : hstate := HState (x s) v (hmem s) (hmode s).
Definition set_hmem (v : mem) (s : hstate) : hstate := HState (x s) (csrs s) v (hmode s).

(** The physical address of an aligned double word at [va]; [perm] is the
    permission the access needs.  Supervisor code may not touch user pages,
    user code no others. *)
Definition satp_root (satp : Z) : Z := Z.shiftl (Z.land satp (Z.ones 44)) 12.
Definition translate (md : mode) (satp : Z) (m : mem) (perm va : Z) : option Z :=
  if negb (va mod 8 =? 0) then None else
  match md with
  | Machine => Some va
  | _ =>
      if Z.shiftr satp 60 =? 0 then Some va else
      let e := sv39 m (satp_root satp) va in
      if (0 <=? va) && (va <? MAXVA) && pte_valid e && nonzero (Z.land e perm) &&
         match md with
         | User => nonzero (Z.land e PTE_U)
         | _ => negb (nonzero (Z.land e PTE_U))
         end
      then Some (PTE2PA e + va mod 4096) else None
  end.

Inductive instr :=
| Sd (src : reg) (off : Z) (base : reg)
| Ld (dst : reg) (off : Z) (base : reg)
| Li (dst : reg) (imm : Z)
| La (dst : reg) (symbol : string)
| Addi (dst src : reg) (imm : Z)
| Add (dst src1 src2 : reg)
| Mul (dst src1 src2 : reg)
| Csrw (c : csr) (src : reg)
| Csrr (dst : reg) (c : csr)
| Csrrw (dst : reg) (c : csr) (src : reg)
| Sfence_vma
| Call (symbol : string)
| Jr (src : reg)
| Ret
| Sret
| Mret.

(** What the assembler and the linker know: the address of a symbol, and what
    calling a C function does. *)
Record senv := SEnv { symbol_of : string → Z; call_of : string → hstate → option hstate }.

Definition setr (r : reg) (v : Z) (s : hstate) : hstate := set_x (<[r := u64 v]> (x s)) s.

Definition exec_instr (env : senv) (i : instr) (s : hstate) : option hstate :=
  match i with
  | Sd src off base =>
      translate (hmode s) (csrs s Satp) (hmem s) PTE_W (u64 (x s base + off)) ≫= λ a,
      Some (set_hmem (st64 (hmem s) a (x s src)) s)
  | Ld dst off base =>
      translate (hmode s) (csrs s Satp) (hmem s) PTE_R (u64 (x s base + off)) ≫= λ a,
      Some (setr dst (ld64 (hmem s) a) s)
  | Li dst imm => Some (setr dst imm s)
  | La dst l => Some (setr dst (symbol_of env l) s)
  | Addi dst src imm => Some (setr dst (x s src + imm) s)
  | Add dst a b => Some (setr dst (x s a + x s b) s)
  | Mul dst a b => Some (setr dst (x s a * x s b) s)
  | Csrw c src => Some (set_csrs (<[c := x s src]> (csrs s)) s)
  | Csrr dst c => Some (setr dst (csrs s c) s)
  | Csrrw dst c src =>
      Some (setr dst (csrs s c) (set_csrs (<[c := x s src]> (csrs s)) s))
  | Sfence_vma => Some s
  | Call f => call_of env f s
  | Jr _ | Ret | Sret | Mret => Some s
  end.

(** Where an instruction that leaves the code goes to. *)
Definition jumps (i : instr) (s : hstate) : option Z :=
  match i with
  | Jr r => Some (x s r)
  | Ret => Some (x s RA)
  | Sret => Some (csrs s Sepc)
  | Mret => Some (csrs s Mepc)
  | _ => None
  end.

Fixpoint run (env : senv) (code : list instr) (s : hstate) : option (Z * hstate) :=
  match code with
  | [] => None
  | i :: code =>
      match jumps i s with
      | Some target => Some (target, s)
      | None =>
          match exec_instr env i s with
          | Some s => run env code s
          | None => None
          end
      end
  end.

(** ** kernel/trampoline.S *)
Definition uservec_code : list instr := [
  Csrw Sscratch A0;
  Li A0 TRAPFRAME;
  Sd RA 40 A0; Sd SP 48 A0; Sd GP 56 A0; Sd TP 64 A0;
  Sd T0 72 A0; Sd T1 80 A0; Sd T2 88 A0; Sd S0 96 A0; Sd S1 104 A0;
  Sd A1 120 A0; Sd A2 128 A0; Sd A3 136 A0; Sd A4 144 A0; Sd A5 152 A0;
  Sd A6 160 A0; Sd A7 168 A0;
  Sd S2 176 A0; Sd S3 184 A0; Sd S4 192 A0; Sd S5 200 A0; Sd S6 208 A0;
  Sd S7 216 A0; Sd S8 224 A0; Sd S9 232 A0; Sd S10 240 A0; Sd S11 248 A0;
  Sd T3 256 A0; Sd T4 264 A0; Sd T5 272 A0; Sd T6 280 A0;
  Csrr T0 Sscratch;
  Sd T0 112 A0;
  Ld SP 8 A0;
  Ld TP 32 A0;
  Ld T0 16 A0;
  Ld T1 0 A0;
  Sfence_vma;
  Csrw Satp T1;
  Sfence_vma;
  Jr T0 ].

Definition userret_code : list instr := [
  Sfence_vma;
  Csrw Satp A0;
  Sfence_vma;
  Li A0 TRAPFRAME;
  Ld RA 40 A0; Ld SP 48 A0; Ld GP 56 A0; Ld TP 64 A0;
  Ld T0 72 A0; Ld T1 80 A0; Ld T2 88 A0; Ld S0 96 A0; Ld S1 104 A0;
  Ld A1 120 A0; Ld A2 128 A0; Ld A3 136 A0; Ld A4 144 A0; Ld A5 152 A0;
  Ld A6 160 A0; Ld A7 168 A0;
  Ld S2 176 A0; Ld S3 184 A0; Ld S4 192 A0; Ld S5 200 A0; Ld S6 208 A0;
  Ld S7 216 A0; Ld S8 224 A0; Ld S9 232 A0; Ld S10 240 A0; Ld S11 248 A0;
  Ld T3 256 A0; Ld T4 264 A0; Ld T5 272 A0; Ld T6 280 A0;
  Ld A0 112 A0;
  Sret ].

(** ** kernel/swtch.S *)
Definition swtch_code : list instr := [
  Sd RA 0 A0; Sd SP 8 A0; Sd S0 16 A0; Sd S1 24 A0; Sd S2 32 A0; Sd S3 40 A0;
  Sd S4 48 A0; Sd S5 56 A0; Sd S6 64 A0; Sd S7 72 A0; Sd S8 80 A0; Sd S9 88 A0;
  Sd S10 96 A0; Sd S11 104 A0;
  Ld RA 0 A1; Ld SP 8 A1; Ld S0 16 A1; Ld S1 24 A1; Ld S2 32 A1; Ld S3 40 A1;
  Ld S4 48 A1; Ld S5 56 A1; Ld S6 64 A1; Ld S7 72 A1; Ld S8 80 A1; Ld S9 88 A1;
  Ld S10 96 A1; Ld S11 104 A1;
  Ret ].

(** ** kernel/kernelvec.S *)
Definition kernelvec_code : list instr := [
  Addi SP SP (-256);
  Sd RA 0 SP; Sd SP 8 SP; Sd GP 16 SP; Sd TP 24 SP; Sd T0 32 SP; Sd T1 40 SP;
  Sd T2 48 SP; Sd S0 56 SP; Sd S1 64 SP; Sd A0 72 SP; Sd A1 80 SP; Sd A2 88 SP;
  Sd A3 96 SP; Sd A4 104 SP; Sd A5 112 SP; Sd A6 120 SP; Sd A7 128 SP;
  Sd S2 136 SP; Sd S3 144 SP; Sd S4 152 SP; Sd S5 160 SP; Sd S6 168 SP;
  Sd S7 176 SP; Sd S8 184 SP; Sd S9 192 SP; Sd S10 200 SP; Sd S11 208 SP;
  Sd T3 216 SP; Sd T4 224 SP; Sd T5 232 SP; Sd T6 240 SP;
  Call "kerneltrap";
  Ld RA 0 SP; Ld SP 8 SP; Ld GP 16 SP;
  Ld T0 32 SP; Ld T1 40 SP; Ld T2 48 SP; Ld S0 56 SP; Ld S1 64 SP; Ld A0 72 SP;
  Ld A1 80 SP; Ld A2 88 SP; Ld A3 96 SP; Ld A4 104 SP; Ld A5 112 SP; Ld A6 120 SP;
  Ld A7 128 SP; Ld S2 136 SP; Ld S3 144 SP; Ld S4 152 SP; Ld S5 160 SP;
  Ld S6 168 SP; Ld S7 176 SP; Ld S8 184 SP; Ld S9 192 SP; Ld S10 200 SP;
  Ld S11 208 SP; Ld T3 216 SP; Ld T4 224 SP; Ld T5 232 SP; Ld T6 240 SP;
  Addi SP SP 256;
  Sret ].

Definition timervec_code : list instr := [
  Csrrw A0 Mscratch A0;
  Sd A1 0 A0; Sd A2 8 A0; Sd A3 16 A0;
  Ld A1 24 A0; Ld A2 32 A0; Ld A3 0 A1;
  Add A3 A3 A2;
  Sd A3 0 A1;
  Li A1 2;
  Csrw Sip A1;
  Ld A3 16 A0; Ld A2 8 A0; Ld A1 0 A0;
  Csrrw A0 Mscratch A0;
  Mret ].

(** ** kernel/entry.S *)
Definition entry_code : list instr := [
  La SP "stack0";
  Li A0 (1024 * 4);
  Csrr A1 Mhartid;
  Addi A1 A1 1;
  Mul A0 A0 A1;
  Add SP SP A0;
  Call "start" ].

(** ** Saving and restoring a table of registers

    [saves] and [loads] are the blocks of [sd] and [ld] of the code, one
    instruction per entry of a table of registers and offsets. *)
Definition rtable : Type := list (reg * Z).
Definition saves (base : reg) (t : rtable) : list instr := (λ p, Sd p.1 p.2 base) <$> t.
Definition loads (base : reg) (t : rtable) : list instr := (λ p, Ld p.1 p.2 base) <$> t.

(** Offsets are multiples of 8 below [n], all different. *)
Definition table_ok (n : Z) (t : rtable) : bool :=
  bool_decide (NoDup (t.*2)) && forallb (λ p, (p.2 mod 8 =? 0) && (0 <=? p.2) && (p.2 <? n)) t.

Definition save_regs (f : reg → Z) (a : Z) (t : rtable) (m : mem) : mem :=
  foldl (λ m p, st64 m (a + p.2) (f p.1)) m t.
Definition load_regs (m : mem) (a : Z) (t : rtable) (f : reg → Z) : reg → Z :=
  foldl (λ f p, <[p.1 := ld64 m (a + p.2)]> f) f t.

(** The [n] bytes at virtual address [va] are the physical bytes at [pa], for
    reading and writing, and stay so as long as only bytes in [C] change. *)
Definition frame_at (md : mode) (satp : Z) (m : mem) (C : Z → Prop) (va pa n : Z) : Prop :=
  0 ≤ va ∧ va + n ≤ 2 ^ 64 ∧
  ∀ m' perm o, (∀ a, ¬ C a → ld8 m' a = ld8 m a) → (perm = PTE_R ∨ perm = PTE_W) →
    0 ≤ o < n → o mod 8 = 0 → translate md satp m' perm (va + o) = Some (pa + o).

Lemma frame_at_change md satp m m' C va pa n :
  frame_at md satp m C va pa n → (∀ a, ¬ C a → ld8 m' a = ld8 m a) →
  frame_at md satp m' C va pa n.
Proof.
  intros (H1 & H2 & H3) Hm. split_and!; try done. intros m2 perm o Hm2. apply H3.
  intros a Ha. by rewrite Hm2, Hm.
Qed.

Lemma table_ok_cons n p t :
  table_ok n (p :: t) = true →
  table_ok n t = true ∧ p.2 ∉ t.*2 ∧ p.2 mod 8 = 0 ∧ 0 ≤ p.2 < n.
Proof.
  unfold table_ok. cbn [forallb fmap list_fmap].
  intros [Hn%bool_decide_eq_true [Hp Ht]%andb_true_iff]%andb_true_iff.
  apply NoDup_cons in Hn as [Hp2 Hn]. bool_to_prop. split_and!; try done.
  by apply andb_true_iff; rewrite bool_decide_eq_true.
Qed.

Lemma ld8_save_regs_out f a t m b :
  (∀ p, p ∈ t → ¬ (a + p.2 ≤ b < a + p.2 + 8)) → ld8 (save_regs f a t m) b = ld8 m b.
Proof.
  revert m. induction t as [|p t IH]; intros m Ht; [done|]. simpl.
  rewrite IH by (intros q Hq; apply Ht; by right). apply ld8_st64_ne, Ht. by left.
Qed.

Lemma table_range n t p : table_ok n t = true → p ∈ t → p.2 mod 8 = 0 ∧ 0 ≤ p.2 < n.
Proof.
  induction t as [|q t IH]; intros Ht Hp; [set_solver|].
  apply table_ok_cons in Ht as (Ht & _ & ? & ?). apply elem_of_cons in Hp as [->|Hp]; auto.
Qed.

Lemma ld64_save_regs_other f a t n m o :
  table_ok n t = true → o ∉ t.*2 → o mod 8 = 0 → ld64 (save_regs f a t m) (a + o) = ld64 m (a + o).
Proof.
  revert m. induction t as [|p t IH]; intros m Ht Ho Hm; [done|].
  apply table_ok_cons in Ht as (Ht & _ & Hp & Hr). simpl in Ho |- *.
  rewrite not_elem_of_cons in Ho. destruct Ho as [Hne Ho].
  rewrite IH by done. apply ld64_st64_ne. zlia.
Qed.

Lemma ld64_save_regs f a t n m r o :
  table_ok n t = true → (r, o) ∈ t → ld64 (save_regs f a t m) (a + o) = u64 (f r).
Proof.
  revert m. induction t as [|p t IH]; intros m Ht Hin; [set_solver|].
  apply table_ok_cons in Ht as (Ht & Hn & Hp & Hr). simpl.
  apply elem_of_cons in Hin as [<-|Hin]; [|by apply IH].
  simpl in *. erewrite ld64_save_regs_other by done. apply ld64_st64_eq.
Qed.

Lemma load_regs_other m a t f r : r ∉ t.*1 → load_regs m a t f r = f r.
Proof.
  revert f. induction t as [|p t IH]; intros f Hr; [done|].
  simpl in *. rewrite not_elem_of_cons in Hr. destruct Hr. rewrite IH by done.
  by rewrite fn_lookup_insert_ne.
Qed.

Lemma load_regs_in m a t f r o :
  NoDup (t.*1) → (r, o) ∈ t → load_regs m a t f r = ld64 m (a + o).
Proof.
  revert f. induction t as [|p t IH]; intros f Hn Hin; [set_solver|].
  simpl in Hn |- *. apply NoDup_cons in Hn as [Hp Hn].
  apply elem_of_cons in Hin as [<-|Hin]; [|by apply IH].
  simpl in *. rewrite load_regs_other by done. by rewrite fn_lookup_insert.
Qed.

Section blocks.
  Context (env : senv).

Lemma run_saves base t n C pa code s :
  frame_at (hmode s) (csrs s Satp) (hmem s) C (x s base) pa n → (∀ a, pa ≤ a < pa + n → C a) →
  table_ok n t = true → n mod 8 = 0 →
  run env (saves base t ++ code) s = run env code (set_hmem (save_regs (x s) pa t (hmem s)) s).
Proof.
  revert s. induction t as [|p t IH]; intros s Hf HC Ht Hn.
  - destruct s. done.
  - apply table_ok_cons in Ht as (Ht & _ & Hp & Hr). pose proof Hf as (H1 & H2 & H3).
    cbn [saves fmap list_fmap app run jumps exec_instr].
    rewrite u64_small, (H3 (hmem s) PTE_W p.2) by (auto || lia).
    cbn [mbind option_bind].
    rewrite IH; [destruct s; done| |done|done|done].
    simpl. eapply frame_at_change; [done|]. intros a Ha. apply ld8_st64_ne.
    intros Hb. apply Ha, HC. zlia.
Qed.

Lemma run_loads base t n C pa code s :
  frame_at (hmode s) (csrs s Satp) (hmem s) C (x s base) pa n → table_ok n t = true →
  base ∉ t.*1 →
  run env (loads base t ++ code) s = run env code (set_x (load_regs (hmem s) pa t (x s)) s).
Proof.
  revert s. induction t as [|p t IH]; intros s Hf Ht Hb.
  - destruct s. done.
  - apply table_ok_cons in Ht as (Ht & _ & Hp & Hr). pose proof Hf as (H1 & H2 & H3).
    simpl in Hb. rewrite not_elem_of_cons in Hb. destruct Hb as [Hb1 Hb2].
    cbn [loads fmap list_fmap app run jumps exec_instr].
    rewrite u64_small, (H3 (hmem s) PTE_R p.2) by (auto || lia).
    cbn [mbind option_bind]. unfold setr.
    rewrite IH; [|simpl; by rewrite fn_lookup_insert_ne|done|done].
    simpl. by rewrite (u64_small (ld64 _ _)) by apply ld64_bound.
Qed.
End blocks.
