(* ===== verification/AsmSpec.v ===== *)
(** * What the assembly code does

    - [page_frame], [direct_frame]: the page tables the kernel builds map the
      memory that the assembly works on;
    - [trap_roundtrip]: [uservec] and [userret] save and restore all user
      registers;
    - [swtch_switches], [kernelvec_restores], [timervec_runs]. *)

From stdpp Require Import functions.
From S2P Require Import Base Riscv Mem Kalloc Vm VmSpec VmMap VmTheorems Asm.
Local Open Scope kernel_scope.
Local Open Scope Z_scope.

(** ** satp and page tables *)
Lemma MAKE_SATP_eq root : 0 ≤ root < 2 ^ 56 → MAKE_SATP root = 8 * 2 ^ 60 + root / 4096.
Proof.
  intros Hr. unfold MAKE_SATP, SATP_SV39. rewrite Z.shiftl_mul_pow2, Z.shiftr_div_pow2 by lia.
  change (2 ^ 12) with 4096. apply (lor_add_low 8 (root / 4096) 60); zlia.
Qed.

Lemma satp_root_make root : 0 ≤ root < 2 ^ 56 → root mod 4096 = 0 → satp_root (MAKE_SATP root) = root.
Proof.
  intros Hr Hm. unfold satp_root. rewrite MAKE_SATP_eq by done.
  rewrite Z.land_ones, Z.shiftl_mul_pow2 by lia. change (2 ^ 12) with 4096. zlia.
Qed.

Lemma satp_mode_make root : 0 ≤ root < 2 ^ 56 → Z.shiftr (MAKE_SATP root) 60 = 8.
Proof. intros Hr. rewrite MAKE_SATP_eq, Z.shiftr_div_pow2 by lia. zlia. Qed.

Lemma PX_page l va o : 0 ≤ l → va mod 4096 = 0 → 0 ≤ o < 4096 → PX l (va + o) = PX l va.
Proof.
  intros Hl Hv Ho. rewrite !PX_eq by done. rewrite Z.pow_add_r by lia. change (2 ^ 12) with 4096.
  rewrite <- !Z.div_div by lia. do 2 f_equal. zlia.
Qed.

Section spec.
  Context {LK : Link} {LKO : LinkOk}.

Lemma rw_flags pa :
  0 ≤ pa < 2 ^ 56 → pa mod 4096 = 0 →
  let e := mk_pte pa (Z.lor PTE_R PTE_W) in
  Z.land e PTE_U = 0 ∧ Z.land e PTE_R ≠ 0 ∧ Z.land e PTE_W ≠ 0.
Proof.
  intros Hp Hm e. destruct (mk_pte_facts pa (Z.lor PTE_R PTE_W) Hp Hm) as (_ & _ & Hf & _);
    [by vm_compute|].
  unfold e. rewrite !(land_flag_mod (mk_pte _ _)) by (vm_compute; intuition congruence).
  rewrite Hf. vm_compute. intuition congruence.
Qed.

(** A page mapped for reading and writing in a well-formed page table is a
    frame, as long as the page table itself does not change. *)
Lemma page_frame m tr root va pa :
  pt_wf m tr root → vpage va → 0 ≤ pa < 2 ^ 56 → pa mod 4096 = 0 →
  sv39 m root va = mk_pte pa (Z.lor PTE_R PTE_W) →
  frame_at Supervisor (MAKE_SATP root) m (outside tr) va pa 4096.
Proof.
  intros W [Hva Hal] Hpa Hpal He.
  destruct (page_ok_pa root (pw_page _ _ _ W [] root (pw_root _ _ _ W))) as [Hr Hrm].
  rewrite MAXVA_eq in Hva. split; [lia|]. split; [lia|]. intros m' perm o Hm' Hperm Ho Ho8.
  destruct (wf_agree W m') as [W' Hl].
  { intros k p a Hk Ha. apply Hm'. intros Hout. by apply (Hout k p Hk). }
  assert (sv39 m' (satp_root (MAKE_SATP root)) (va + o) = mk_pte pa (Z.lor PTE_R PTE_W)) as E.
  { rewrite satp_root_make by done. rewrite (sv39_leaf W'). rewrite Hl.
    rewrite (sv39_leaf W) in He. rewrite <- He. unfold leaf. by rewrite !PX_page by lia. }
  destruct (mk_pte_facts pa (Z.lor PTE_R PTE_W) Hpa Hpal) as (Hv & Ha & _); [by vm_compute|].
  destruct (rw_flags pa Hpa Hpal) as (HU & HR & HW).
  unfold translate. rewrite E, satp_mode_make, Hv, Ha, HU by done.
  rewrite MAXVA_eq. replace ((va + o) mod 8 =? 0) with true by (symmetry; apply Z.eqb_eq; zlia).
  replace (0 <=? va + o) with true by (symmetry; apply Z.leb_le; lia).
  replace (va + o <? 2 ^ 38) with true by (symmetry; apply Z.ltb_lt; zlia).
  cbn [negb Z.eqb nonzero andb]. unfold nonzero.
  destruct Hperm as [->| ->]; rewrite (proj2 (Z.eqb_neq _ _)) by done; cbn; f_equal; zlia.
Qed.

(** Memory mapped to itself, as the kernel's page table maps its data. *)
Lemma direct_frame m tr root lo hi a n :
  pt_wf m tr root → 0 ≤ lo → hi ≤ MAXVA → lo mod 4096 = 0 →
  (∀ v, vpage v → lo ≤ v < hi → sv39 m root v = mk_pte v (Z.lor PTE_R PTE_W)) →
  lo ≤ a → a + n ≤ hi → a mod 8 = 0 →
  frame_at Supervisor (MAKE_SATP root) m (outside tr) a a n.
Proof.
  intros W Hlo Hhi Hlm He Ha Hn Ha8. rewrite MAXVA_eq in *.
  split; [lia|]. split; [lia|]. intros m' perm o Hm' Hperm Ho Ho8.
  set (v := a + o - (a + o) mod 4096).
  assert (vpage v ∧ lo ≤ v < hi) as [Hv Hvr] by (unfold vpage, v; rewrite MAXVA_eq; zlia).
  destruct (page_frame m tr root v v W Hv) as (_ & _ & H).
  - destruct Hv as [Hv _]. rewrite MAXVA_eq in Hv. lia.
  - apply Hv.
  - by apply He.
  - replace (a + o) with (v + (a + o) mod 4096) by (unfold v; lia).
    rewrite (H m' perm ((a + o) mod 4096)) by (done || zlia). done.
Qed.

(** ** User registers *)

(** The user registers in the trapframe. *)
Definition tf_regs : rtable := [
  (RA, 40); (SP, 48); (GP, 56); (TP, 64); (T0, 72); (T1, 80); (T2, 88); (S0, 96); (S1, 104);
  (A0, 112); (A1, 120); (A2, 128); (A3, 136); (A4, 144); (A5, 152); (A6, 160); (A7, 168);
  (S2, 176); (S3, 184); (S4, 192); (S5, 200); (S6, 208); (S7, 216); (S8, 224); (S9, 232);
  (S10, 240); (S11, 248); (T3, 256); (T4, 264); (T5, 272); (T6, 280) ].

(** All but [a0], which needs special care. *)
Definition tf_others : rtable := filter (λ p, p.1 ≠ A0) tf_regs.

Lemma tf_regs_all r : ∃ o, (r, o) ∈ tf_regs.
Proof.
  destruct r; eexists; unfold tf_regs; repeat (apply list_elem_of_here || apply list_elem_of_further).
Qed.

Lemma tf_others_in r o : (r, o) ∈ tf_regs → r ≠ A0 → (r, o) ∈ tf_others.
Proof. intros. by apply list_elem_of_filter. Qed.

Lemma tf_others_ok :
  table_ok 288 tf_others = true ∧ NoDup (tf_others.*1) ∧ A0 ∉ tf_others.*1 ∧ 112 ∉ tf_others.*2.
Proof.
  split; [by vm_compute|]. split_and!; apply (bool_decide_unpack _); by vm_compute.
Qed.

Lemma tf_others_user p : p ∈ tf_others → 40 ≤ p.2 < 288 ∧ p.2 mod 8 = 0.
Proof.
  assert (Forall (λ p, 40 ≤ p.2 < 288 ∧ p.2 mod 8 = 0) tf_others) as H.
  { repeat constructor; cbn; lia. }
  rewrite Forall_forall in H. auto.
Qed.

(** In page table [root] the trapframe at physical page [tf] is mapped where
    the trampoline expects it. *)
Record trapframe_mapped (m : mem) (tr : ptree) (root tf : Z) : Prop := {
  tm_pt : pt_wf m tr root;
  tm_page : page_ok tf;
  tm_leaf : sv39 m root TRAPFRAME = mk_pte tf (Z.lor PTE_R PTE_W);
  tm_other : ∀ k p, tr !! k = Some p → p ≠ tf;
}.

(** Storing to the trapframe does not unmap it. *)
Lemma trapframe_mapped_agree m m' tr root tf :
  trapframe_mapped m tr root tf → (∀ a, ¬ (tf ≤ a < tf + 4096) → ld8 m' a = ld8 m a) →
  trapframe_mapped m' tr root tf.
Proof.
  intros [W Hp He Hne] Hm. destruct (page_ok_pa tf Hp). destruct (wf_agree W m') as [W' Hl].
  { intros k p a Hk Ha. apply Hm. pose proof (pw_aligned W _ _ Hk). pose proof (Hne k p Hk).
    destruct (page_disjoint p tf); lia. }
  split; try done. by rewrite (sv39_leaf W'), Hl, <- (sv39_leaf W).
Qed.

Lemma trapframe_frame m tr root tf :
  trapframe_mapped m tr root tf →
  frame_at Supervisor (MAKE_SATP root) m (outside tr) TRAPFRAME tf 4096 ∧
  ∀ a, tf ≤ a < tf + 4096 → outside tr a.
Proof.
  intros [W Hp He Hne]. destruct (page_ok_pa tf Hp). split.
  - by apply page_frame.
  - intros a Ha k p Hk Hin. pose proof (pw_aligned W _ _ Hk). pose proof (Hne k p Hk).
    destruct (page_disjoint p tf); lia.
Qed.

Lemma frame_shrink md satp m C va pa n n' :
  frame_at md satp m C va pa n → 0 ≤ n' ≤ n → frame_at md satp m C va pa n'.
Proof.
  intros (H1 & H2 & H3) Hn. split; [done|]. split; [lia|]. intros. apply H3; auto with lia.
Qed.

Lemma uservec_blocks :
  uservec_code = [Csrw Sscratch A0; Li A0 TRAPFRAME] ++ saves A0 tf_others ++
    Csrr T0 Sscratch :: saves A0 [(T0, 112)] ++ loads A0 [(SP, 8); (TP, 32); (T0, 16); (T1, 0)] ++
    [Sfence_vma; Csrw Satp T1; Sfence_vma; Jr T0].
Proof. reflexivity. Qed.

Lemma userret_blocks :
  userret_code = [Sfence_vma; Csrw Satp A0; Sfence_vma; Li A0 TRAPFRAME] ++
    loads A0 tf_others ++ [Ld A0 112 A0; Sret].
Proof. reflexivity. Qed.

(** Memory after [uservec]: the other registers are stored first, then [a0]. *)
Lemma uservec_memory (f g : reg → Z) m tf :
  (∀ r, 0 ≤ f r < 2 ^ 64) → (∀ r, r ≠ A0 → g r = f r) →
  let m' := st64 (save_regs g tf tf_others m) (tf + 112) (f A0) in
  (∀ a, ¬ (tf + 40 ≤ a < tf + 288) →
     ld8 (save_regs g tf tf_others m) a = ld8 m a ∧ ld8 m' a = ld8 m a) ∧
  (∀ o, 0 ≤ o ≤ 32 → ld64 m' (tf + o) = ld64 m (tf + o)) ∧
  ∀ r o, (r, o) ∈ tf_regs → ld64 m' (tf + o) = f r.
Proof.
  intros Hf Hg m'. destruct tf_others_ok as (T1' & T2' & T3' & T4').
  assert (∀ a, ¬ (tf + 40 ≤ a < tf + 288) →
     ld8 (save_regs g tf tf_others m) a = ld8 m a ∧ ld8 m' a = ld8 m a) as M.
  { intros a Ha. assert (ld8 (save_regs g tf tf_others m) a = ld8 m a) as E.
    { apply ld8_save_regs_out. intros p Hp%tf_others_user. zlia. }
    split; [done|]. unfold m'. by rewrite ld8_st64_ne by lia. }
  split; [done|]. split; [intros o Ho; apply ld64_agree; intros b Hb; apply M; lia|].
  intros r o Hin. unfold m'. destruct (decide (r = A0)) as [->|Hr].
  - assert (o = 112) as -> by (revert Hin; unfold tf_regs; clear; set_solver).
    rewrite ld64_st64_eq. by apply u64_small.
  - apply tf_others_in in Hin; [|done]. pose proof (tf_others_user _ Hin) as Ho. cbn in Ho.
    assert (o ≠ 112) by (intros ->; apply T4'; by apply (list_elem_of_fmap_2 snd) in Hin).
    rewrite ld64_st64_ne by zlia. erewrite ld64_save_regs by done. rewrite Hg by done. by apply u64_small.
Qed.

Lemma uservec_saves env u root tr tf :
  hmode u = Supervisor → csrs u Satp = MAKE_SATP root → (∀ r, 0 ≤ x u r < 2 ^ 64) →
  trapframe_mapped (hmem u) tr root tf →
  ∃ k, run env uservec_code u = Some (ld64 (hmem u) (tf + 16), k) ∧
    x k SP = ld64 (hmem u) (tf + 8) ∧ x k TP = ld64 (hmem u) (tf + 32) ∧
    csrs k Satp = ld64 (hmem u) tf ∧ hmode k = Supervisor ∧
    (∀ r o, (r, o) ∈ tf_regs → ld64 (hmem k) (tf + o) = x u r) ∧
    ∀ a, ¬ (tf + 40 ≤ a < tf + 288) → ld8 (hmem k) a = ld8 (hmem u) a.
Proof.
  intros Hmd Hsatp Hx HT. destruct (trapframe_frame _ _ _ _ HT) as [F HC].
  rewrite uservec_blocks. cbn [app run jumps exec_instr].
  set (s1 := setr A0 TRAPFRAME _).
  assert (x s1 A0 = TRAPFRAME) as E0 by (cbn; by rewrite fn_lookup_insert).
  assert (∀ r, r ≠ A0 → x s1 r = x u r) as E1 by (intros r Hr; cbn; by rewrite fn_lookup_insert_ne).
  assert (csrs s1 Sscratch = x u A0) as E2 by (cbn; by rewrite fn_lookup_insert).
  assert (csrs s1 Satp = MAKE_SATP root) as E3 by (cbn; by rewrite fn_lookup_insert_ne).
  assert (hmode s1 = Supervisor ∧ hmem s1 = hmem u) as [E4 E5] by done.
  clearbody s1. apply (frame_shrink _ _ _ _ _ _ _ 288) in F; [|lia].
  destruct (uservec_memory (x u) (x s1) (hmem u) tf Hx E1) as (M & L & R).
  assert (∀ m, (∀ a, ¬ (tf + 40 ≤ a < tf + 288) → ld8 m a = ld8 (hmem u) a) →
    frame_at Supervisor (MAKE_SATP root) m (outside tr) TRAPFRAME tf 288) as F'.
  { intros m Hm. eapply frame_at_change; [done|]. intros a Ha. apply Hm. intros Hb. apply Ha, HC. lia. }
  rewrite (run_saves env A0 tf_others 288 (outside tr) tf);
    [|by rewrite E0, E3, E4, E5|intros; apply HC; lia|apply tf_others_ok|done].
  cbn [run jumps exec_instr setr set_x set_hmem csrs x hmem hmode]. rewrite E5, E2.
  rewrite (run_saves env A0 [(T0, 112)] 288 (outside tr) tf); cbn [setr set_x set_hmem csrs x hmem hmode];
    [|rewrite fn_lookup_insert_ne, E0, E3, E4 by done; apply F'; apply M|intros; apply HC; lia|done|done].
  cbn [save_regs foldl fst snd]. rewrite fn_lookup_insert, (u64_small (x u A0)) by done.
  set (m3 := st64 _ _ _) in *.
  rewrite (run_loads env A0 _ 288 (outside tr) tf); cbn [setr set_x set_hmem hmode csrs hmem x];
    [|rewrite fn_lookup_insert_ne, E0, E3, E4 by done; apply F'; apply M
     |by vm_compute|by apply (bool_decide_unpack _); vm_compute].
  cbn [run jumps exec_instr load_regs foldl set_x x csrs hmem hmode fst snd set_csrs].
  rewrite !fn_lookup_insert_ne, fn_lookup_insert by done.
  rewrite (L 16) by done. eexists. split; [reflexivity|].
  cbn [setr set_csrs set_x set_hmem csrs x hmem hmode]. split_and!; try done.
  - rewrite !fn_lookup_insert_ne, fn_lookup_insert by done. by rewrite L.
  - rewrite !fn_lookup_insert_ne, fn_lookup_insert by done. by rewrite L.
  - rewrite !fn_lookup_insert. rewrite L by done. by rewrite Z.add_0_r.
  - intros a Ha. by apply M.
Qed.

Lemma userret_restores env k root tr tf :
  hmode k = Supervisor → x k A0 = MAKE_SATP root → trapframe_mapped (hmem k) tr root tf →
  ∃ u, run env userret_code k = Some (csrs k Sepc, u) ∧ hmem u = hmem k ∧
    csrs u Satp = MAKE_SATP root ∧ ∀ r o, (r, o) ∈ tf_regs → x u r = ld64 (hmem k) (tf + o).
Proof.
  intros Hmd Ha0 HT. destruct (trapframe_frame _ _ _ _ HT) as [F _].
  destruct tf_others_ok as (T1' & T2' & T3' & T4').
  rewrite userret_blocks. cbn [app run jumps exec_instr].
  set (s1 := setr A0 TRAPFRAME _).
  assert (x s1 A0 = TRAPFRAME) as E0 by (cbn; by rewrite fn_lookup_insert).
  assert (csrs s1 Satp = MAKE_SATP root) as E1 by (cbn; by rewrite fn_lookup_insert).
  assert (csrs s1 Sepc = csrs k Sepc) as E2 by (cbn; by rewrite fn_lookup_insert_ne).
  assert (hmode s1 = Supervisor ∧ hmem s1 = hmem k) as [E3 E4] by done.
  clearbody s1. apply (frame_shrink _ _ _ _ _ _ _ 288) in F; [|lia].
  rewrite (run_loads env A0 tf_others 288 (outside tr) tf);
    [|rewrite E0, E1, E3, E4; exact F|exact T1'|exact T3'].
  cbn [run jumps exec_instr set_x x csrs hmem hmode]. rewrite E1, E3, E4.
  rewrite load_regs_other, E0 by done. destruct F as (_ & _ & F).
  rewrite u64_small, F by (auto || by vm_compute). cbn [mbind option_bind].
  cbn [run jumps setr set_x csrs hmem x]. rewrite E2. eexists. split; [reflexivity|].
  split; [exact E4|]. split; [exact E1|]. cbn [setr set_x x].
  intros r o Hin. destruct (decide (r = A0)) as [->|Hr].
  - assert (o = 112) as -> by (revert Hin; unfold tf_regs; clear; set_solver).
    rewrite fn_lookup_insert. apply u64_small, ld64_bound.
  - rewrite fn_lookup_insert_ne by done. apply load_regs_in; [done|]. by apply tf_others_in.
Qed.

(** C5: A trap from user space and the return to it keep the user's registers.
    [uservec] enters the kernel through the trapframe: it loads the kernel's
    stack, hart id and page table from it, goes to the address the kernel
    stored there, and saves each of the 31 registers in its slot, changing no
    other byte of memory.  [userret], called with the [satp] of a page table
    that maps the trapframe, loads every register from its slot, also if the
    process runs in another page table (after [exec]) or with another
    trapframe, and leaves for [sepc]: a register whose slot the kernel did
    not change has its old value. *)
Theorem trap_roundtrip env u root tr tf :
  hmode u = Supervisor → csrs u Satp = MAKE_SATP root → (∀ r, 0 ≤ x u r < 2 ^ 64) →
  trapframe_mapped (hmem u) tr root tf →
  ∃ k, run env uservec_code u = Some (ld64 (hmem u) (tf + 16), k) ∧
    x k SP = ld64 (hmem u) (tf + 8) ∧ x k TP = ld64 (hmem u) (tf + 32) ∧
    csrs k Satp = ld64 (hmem u) tf ∧
    (∀ a, ¬ (tf + 40 ≤ a < tf + 288) → ld8 (hmem k) a = ld8 (hmem u) a) ∧
    ∀ k' root' tr' tf',
      hmode k' = Supervisor → x k' A0 = MAKE_SATP root' →
      trapframe_mapped (hmem k') tr' root' tf' →
      ∃ u', run env userret_code k' = Some (csrs k' Sepc, u') ∧ csrs u' Satp = MAKE_SATP root' ∧
        hmem u' = hmem k' ∧
        ∀ r, ∃ o, (r, o) ∈ tf_regs ∧ x u' r = ld64 (hmem k') (tf' + o) ∧
          (ld64 (hmem k') (tf' + o) = ld64 (hmem k) (tf + o) → x u' r = x u r).
Proof.
  intros Hmd Hs Hx HT.
  destruct (uservec_saves env u root tr tf Hmd Hs Hx HT) as (k & E & H1 & H2 & H3 & H4 & H5 & H6).
  exists k. split_and!; try done. intros k' root' tr' tf' Hmd' Ha0 HT'.
  destruct (userret_restores env k' root' tr' tf' Hmd' Ha0 HT') as (u' & E' & Hm & Hs' & Hr).
  exists u'. split_and!; try done. intros r. destruct (tf_regs_all r) as [o Ho].
  exists o. rewrite (Hr r o Ho). split_and!; try done. intros ->. by apply H5.
Qed.

(** ** Context switch *)

(** [struct context] *)
Definition context_regs : rtable := [
  (RA, 0); (SP, 8); (S0, 16); (S1, 24); (S2, 32); (S3, 40); (S4, 48); (S5, 56); (S6, 64);
  (S7, 72); (S8, 80); (S9, 88); (S10, 96); (S11, 104) ].

Lemma context_regs_ok :
  table_ok 112 context_regs = true ∧ NoDup (context_regs.*1) ∧ A1 ∉ context_regs.*1.
Proof. split; [by vm_compute|]. split; apply (bool_decide_unpack _); by vm_compute. Qed.

Lemma swtch_blocks : swtch_code = saves A0 context_regs ++ loads A1 context_regs ++ [Ret].
Proof. reflexivity. Qed.

(** C21: [swtch(old, new)] stores the callee-saved registers, [ra] and [sp] in
    the context at [old], loads them from the one at [new] and returns to the
    [ra] found there; the other registers and all other memory stay.  So a
    thread that is switched back to with an unchanged context goes on where it
    called [swtch], with its own stack and callee-saved registers. *)
Theorem swtch_switches env s C :
  let old := x s A0 in
  let new := x s A1 in
  (∀ r, 0 ≤ x s r < 2 ^ 64) →
  frame_at (hmode s) (csrs s Satp) (hmem s) C old old 112 →
  frame_at (hmode s) (csrs s Satp) (hmem s) C new new 112 →
  (∀ a, old ≤ a < old + 112 → C a) → (old + 112 ≤ new ∨ new + 112 ≤ old) →
  ∃ s', run env swtch_code s = Some (ld64 (hmem s) new, s') ∧
    (∀ r o, (r, o) ∈ context_regs →
       x s' r = ld64 (hmem s) (new + o) ∧ ld64 (hmem s') (old + o) = x s r) ∧
    (∀ r, r ∉ context_regs.*1 → x s' r = x s r) ∧
    (∀ a, ¬ (old ≤ a < old + 112) → ld8 (hmem s') a = ld8 (hmem s) a) ∧
    csrs s' = csrs s ∧ hmode s' = hmode s.
Proof.
  intros old new Hx Fo Fn HC Hd. destruct context_regs_ok as (T1' & T2' & T3').
  rewrite swtch_blocks. rewrite (run_saves env A0 _ 112 C old) by done.
  set (m' := save_regs _ _ _ _).
  assert (∀ a, ¬ (old ≤ a < old + 112) → ld8 m' a = ld8 (hmem s) a) as Hm.
  { intros a Ha. apply ld8_save_regs_out. intros p Hp. apply (table_range 112) in Hp; [|done]. zlia. }
  assert (∀ o, 0 ≤ o ≤ 104 → ld64 m' (new + o) = ld64 (hmem s) (new + o)) as Hn.
  { intros o Ho. apply ld64_agree. intros b Hb. apply Hm. lia. }
  rewrite (run_loads env A1 _ 112 C new); [|eapply frame_at_change; [done|]|done|done].
  2: { intros a Ha. apply Hm. intros Hb. by apply Ha, HC. }
  cbn [run jumps set_x set_hmem x csrs hmem hmode].
  eexists. split; [|split_and!].
  - rewrite (load_regs_in _ _ _ _ _ 0) by (done || by left). rewrite Hn by lia. by rewrite Z.add_0_r.
  - intros r o Hin. cbn [set_x set_hmem x hmem]. pose proof (table_range _ _ _ T1' Hin) as Ho. cbn in Ho. split.
    + rewrite (load_regs_in _ _ _ _ _ o) by done. apply Hn. zlia.
    + unfold m'. cbn [set_hmem hmem]. erewrite ld64_save_regs by done. by apply u64_small.
  - intros r Hr. by apply load_regs_other.
  - done.
  - done.
  - done.
Qed.
End spec.

(** ** Interrupts in the kernel *)

(** Where [kernelvec] saves the registers on the stack. *)
Definition kv_regs : rtable := [
  (RA, 0); (SP, 8); (GP, 16); (TP, 24); (T0, 32); (T1, 40); (T2, 48); (S0, 56); (S1, 64);
  (A0, 72); (A1, 80); (A2, 88); (A3, 96); (A4, 104); (A5, 112); (A6, 120); (A7, 128);
  (S2, 136); (S3, 144); (S4, 152); (S5, 160); (S6, 168); (S7, 176); (S8, 184); (S9, 192);
  (S10, 200); (S11, 208); (T3, 216); (T4, 224); (T5, 232); (T6, 240) ].
Definition kv_rest : rtable := filter (λ p, p.1 ≠ RA ∧ p.1 ≠ SP ∧ p.1 ≠ TP) kv_regs.

Lemma kernelvec_blocks :
  kernelvec_code = Addi SP SP (-256) :: saves SP kv_regs ++ Call "kerneltrap" ::
    loads SP [(RA, 0)] ++ Ld SP 8 SP :: loads SP kv_rest ++ [Addi SP SP 256; Sret].
Proof. reflexivity. Qed.

Lemma kv_regs_ok :
  table_ok 256 kv_regs = true ∧ table_ok 256 kv_rest = true ∧ NoDup (kv_rest.*1) ∧
  SP ∉ kv_rest.*1 ∧ RA ∉ kv_rest.*1 ∧ TP ∉ kv_rest.*1.
Proof.
  split; [by vm_compute|]. split; [by vm_compute|].
  split_and!; apply (bool_decide_unpack _); by vm_compute.
Qed.

Lemma kv_regs_all r : ∃ o, (r, o) ∈ kv_regs.
Proof.
  destruct r; eexists; unfold kv_regs; repeat (apply list_elem_of_here || apply list_elem_of_further).
Qed.

(** The second half of [kernelvec], after [kerneltrap] has returned. *)
Lemma kernelvec_back env s f sp pa C :
  x s SP = sp → (∀ r, 0 ≤ f r < 2 ^ 64) → f SP = sp → sp + 256 < 2 ^ 64 →
  frame_at (hmode s) (csrs s Satp) (hmem s) C sp pa 256 →
  (∀ r o, (r, o) ∈ kv_regs → ld64 (hmem s) (pa + o) = f r) →
  ∃ s', run env (loads SP [(RA, 0)] ++ Ld SP 8 SP :: loads SP kv_rest ++ [Addi SP SP 256; Sret]) s =
      Some (csrs s Sepc, s') ∧ hmem s' = hmem s ∧ x s' TP = x s TP ∧ x s' SP = sp + 256 ∧
    ∀ r, r ≠ TP → r ≠ SP → x s' r = f r.
Proof.
  intros Hsp Hf Hfs Hlt F Hm. destruct kv_regs_ok as (T1' & T2' & T3' & T4' & T5' & T6').
  pose proof F as (F1 & F2 & F3).
  rewrite (run_loads env SP [(RA, 0)] 256 C pa); [|by rewrite Hsp|by vm_compute|by apply (bool_decide_unpack _)].
  cbn [run jumps exec_instr load_regs foldl set_x x hmode csrs hmem fst snd].
  rewrite fn_lookup_insert_ne, Hsp by done. rewrite u64_small by lia.
  rewrite (F3 (hmem s) PTE_R 8) by (auto || lia). cbn [mbind option_bind].
  set (s2 := setr SP _ _).
  assert (x s2 SP = sp) as E1.
  { cbn. rewrite fn_lookup_insert. rewrite (Hm SP 8), Hfs by (right; by left). apply u64_small. lia. }
  assert (x s2 RA = f RA) as E2.
  { cbn. rewrite fn_lookup_insert_ne, fn_lookup_insert by done. apply (Hm RA 0). by left. }
  assert (x s2 TP = x s TP) as E3 by (cbn; by rewrite !fn_lookup_insert_ne).
  assert (hmode s2 = hmode s ∧ csrs s2 = csrs s ∧ hmem s2 = hmem s) as (E4 & E5 & E6) by done.
  clearbody s2.
  rewrite (run_loads env SP kv_rest 256 C pa); [|rewrite E1, E4, E5, E6; exact F|exact T2'|exact T4'].
  cbn [run jumps exec_instr setr set_x x hmode csrs hmem]. rewrite load_regs_other, E1, E5, E6 by done.
  eexists. split; [reflexivity|]. cbn [setr set_x x hmem]. split; [done|].
  split; [rewrite fn_lookup_insert_ne, load_regs_other by done; done|].
  split; [rewrite fn_lookup_insert; apply u64_small; lia|].
  intros r Hr1 Hr2. rewrite fn_lookup_insert_ne by done.
  destruct (decide (r = RA)) as [->|Hr3]; [by rewrite load_regs_other|].
  destruct (kv_regs_all r) as [o Ho].
  rewrite (load_regs_in _ _ _ _ _ o); [by apply Hm|done|].
  apply list_elem_of_filter. split; [split_and!; assumption|exact Ho].
Qed.

(** What a C function that is called with stack pointer [sp] keeps: the
    stack pointer and the bytes above it that its caller saved there. *)
Definition callee_keeps (pa n : Z) (C : Z → Prop) (va : Z) (s s' : hstate) : Prop :=
  x s' SP = x s SP ∧ (∀ a, pa ≤ a < pa + n → ld8 (hmem s') a = ld8 (hmem s) a) ∧
  frame_at (hmode s') (csrs s' Satp) (hmem s') C va pa n.

(** C22: An interrupt in kernel code is transparent.  Whatever registers
    [kerneltrap] changes, [kernelvec] gives back to the interrupted code all of
    them except [tp], which holds the hart the code now runs on, and goes to
    [sepc]; all it needs is 256 bytes below the stack pointer, and that
    [kerneltrap] respects the calling convention. *)
Theorem kernelvec_restores env s C pa :
  (∀ r, 0 ≤ x s r < 2 ^ 64) → 256 ≤ x s SP →
  frame_at (hmode s) (csrs s Satp) (hmem s) C (x s SP - 256) pa 256 →
  (∀ a, pa ≤ a < pa + 256 → C a) →
  (∀ s1, x s1 SP = x s SP - 256 → hmode s1 = hmode s → csrs s1 = csrs s →
     (∀ a, ¬ (pa ≤ a < pa + 256) → ld8 (hmem s1) a = ld8 (hmem s) a) →
     ∃ s2, call_of env "kerneltrap" s1 = Some s2 ∧ callee_keeps pa 256 C (x s SP - 256) s1 s2) →
  ∃ s1 s2 s3, call_of env "kerneltrap" s1 = Some s2 ∧
    run env kernelvec_code s = Some (csrs s2 Sepc, s3) ∧
    (∀ r, r ≠ TP → x s3 r = x s r) ∧ x s3 TP = x s2 TP ∧ hmem s3 = hmem s2.
Proof.
  intros Hx Hsp F HC Hcall. destruct kv_regs_ok as (T1' & _).
  rewrite kernelvec_blocks. cbn [run jumps exec_instr].
  set (s0 := setr SP _ _).
  assert (x s0 SP = x s SP - 256) as E0.
  { cbn. rewrite fn_lookup_insert, u64_small; [lia|]. specialize (Hx SP). lia. }
  assert (∀ r, r ≠ SP → x s0 r = x s r) as E1 by (intros r Hr; cbn; by rewrite fn_lookup_insert_ne).
  assert (hmode s0 = hmode s ∧ csrs s0 = csrs s ∧ hmem s0 = hmem s) as (E2 & E3 & E4) by done.
  clearbody s0.
  rewrite (run_saves env SP kv_regs 256 C pa); [|rewrite E0, E2, E3, E4; exact F|exact HC|exact T1'|done].
  set (s1 := set_hmem _ s0). cbn [run jumps exec_instr].
  destruct (Hcall s1) as (s2 & Ec & K1 & K2 & K3); try done.
  { intros a Ha. change (hmem s1) with (save_regs (x s0) pa kv_regs (hmem s0)).
    rewrite ld8_save_regs_out, E4; [done|].
    intros p Hp. apply (table_range 256) in Hp; [|done]. zlia. }
  destruct (kernelvec_back env s2 (x s0) (x s SP - 256) pa C) as (s3 & E & Hm & Ht & Hs & Hr).
  - by rewrite K1.
  - intros r. destruct (decide (r = SP)) as [->|?]; [rewrite E0; specialize (Hx SP); lia|by rewrite E1].
  - done.
  - specialize (Hx SP). lia.
  - done.
  - intros r o Hin. pose proof (table_range _ _ _ T1' Hin) as Ho. cbn in Ho.
    rewrite (ld64_agree (hmem s2) (hmem s1)) by (intros b Hb; apply K2; zlia).
    change (hmem s1) with (save_regs (x s0) pa kv_regs (hmem s0)).
    erewrite ld64_save_regs by done. apply u64_small.
    destruct (decide (r = SP)) as [->|?]; [rewrite E0; specialize (Hx SP); lia|by rewrite E1].
  - exists s1, s2, s3. rewrite Ec. split; [done|]. split; [exact E|]. split; [|done].
    intros r Hr'. destruct (decide (r = SP)) as [->|?]; [rewrite Hs; lia|].
    rewrite Hr by done. by apply E1.
Qed.

(** ** Timer interrupts in machine mode *)
Lemma machine_frame satp m a n :
  0 ≤ a → a + n ≤ 2 ^ 64 → a mod 8 = 0 → frame_at Machine satp m (λ _, True) a a n.
Proof.
  intros Ha Hn Hm. split; [done|]. split; [done|]. intros m' perm o _ _ Ho Ho8.
  unfold translate. replace ((a + o) mod 8 =? 0) with true; [done|]. symmetry. apply Z.eqb_eq. zlia.
Qed.

Lemma timervec_blocks :
  timervec_code = Csrrw A0 Mscratch A0 :: saves A0 [(A1, 0); (A2, 8); (A3, 16)] ++
    loads A0 [(A1, 24); (A2, 32)] ++ loads A1 [(A3, 0)] ++ Add A3 A3 A2 :: saves A1 [(A3, 0)] ++
    Li A1 2 :: Csrw Sip A1 :: loads A0 [(A3, 16); (A2, 8); (A1, 0)] ++ [Csrrw A0 Mscratch A0; Mret].
Proof. reflexivity. Qed.

Definition timer_saved : rtable := [(A1, 0); (A2, 8); (A3, 16)].
Definition timer_rest : list instr :=
  loads A0 [(A3, 16); (A2, 8); (A1, 0)] ++ [Csrrw A0 Mscratch A0; Mret].

(** Registers other than the four that [timervec] uses. *)
Definition timer_keeps (s s' : hstate) : Prop := ∀ r, r ∉ [A0; A1; A2; A3] → x s' r = x s r.

(** The end of [timervec]: the saved registers come back. *)
Lemma timervec_back env s (f : reg → Z) :
  let sc := x s A0 in
  hmode s = Machine → 0 ≤ sc → sc + 40 ≤ 2 ^ 64 → sc mod 8 = 0 →
  (∀ r, 0 ≤ f r < 2 ^ 64) → csrs s Mscratch = f A0 →
  (∀ r o, (r, o) ∈ timer_saved → ld64 (hmem s) (sc + o) = f r) →
  (∀ r, r ∉ [A0; A1; A2; A3] → x s r = f r) →
  ∃ s', run env timer_rest s = Some (csrs s Mepc, s') ∧ (∀ r, x s' r = f r) ∧
    csrs s' = <[Mscratch := sc]> (csrs s) ∧ hmem s' = hmem s.
Proof.
  intros sc Hmd H0 H1 H8 Hf Hm R Hk. unfold timer_rest.
  rewrite (run_loads env A0 _ 40 (λ _, True) sc);
    [|rewrite Hmd; by apply machine_frame|by vm_compute|by apply (bool_decide_unpack _); vm_compute].
  cbn [load_regs foldl fst snd run jumps exec_instr setr set_x set_csrs x csrs hmem].
  rewrite (R A3 16), (R A2 8), (R A1 0) by (unfold timer_saved; clear; set_solver).
  rewrite !fn_lookup_insert_ne, Hm by done. fold sc.
  eexists. split; [reflexivity|]. cbn [set_csrs set_x x csrs hmem]. split_and!; try done.
  intros r. cbn [setr set_csrs set_x x]. destruct (decide (r = A0)) as [->|R0]; [rewrite fn_lookup_insert; by apply u64_small|].
  rewrite fn_lookup_insert_ne by done.
  destruct (decide (r = A1)) as [->|R1]; [by rewrite fn_lookup_insert|rewrite fn_lookup_insert_ne by done].
  destruct (decide (r = A2)) as [->|R2]; [by rewrite fn_lookup_insert|rewrite fn_lookup_insert_ne by done].
  destruct (decide (r = A3)) as [->|R3]; [by rewrite fn_lookup_insert|rewrite fn_lookup_insert_ne by done].
  apply Hk. rewrite !not_elem_of_cons. split_and!; try done. apply not_elem_of_nil.
Qed.

(** The beginning: save three registers, load the two parameters. *)
Lemma timervec_enter env s code :
  let sc := csrs s Mscratch in
  hmode s = Machine → (∀ r, 0 ≤ x s r < 2 ^ 64) → 0 ≤ sc → sc + 40 ≤ 2 ^ 64 → sc mod 8 = 0 →
  ∃ s', run env (Csrrw A0 Mscratch A0 :: saves A0 timer_saved ++ loads A0 [(A1, 24); (A2, 32)] ++ code) s =
      run env code s' ∧ hmode s' = Machine ∧ csrs s' = <[Mscratch := x s A0]> (csrs s) ∧
    x s' A0 = sc ∧ x s' A1 = ld64 (hmem s) (sc + 24) ∧ x s' A2 = ld64 (hmem s) (sc + 32) ∧
    timer_keeps s s' ∧ (∀ r o, (r, o) ∈ timer_saved → ld64 (hmem s') (sc + o) = x s r) ∧
    ∀ a, ¬ (sc ≤ a < sc + 24) → ld8 (hmem s') a = ld8 (hmem s) a.
Proof.
  intros sc Hmd Hx H0 H1 H8. cbn [run jumps exec_instr].
  set (s1 := setr A0 _ _).
  assert (x s1 A0 = sc) as X0 by (cbn; rewrite fn_lookup_insert; apply u64_small; fold sc; lia).
  assert (∀ r, r ≠ A0 → x s1 r = x s r) as X1 by (intros r Hr; cbn; by rewrite fn_lookup_insert_ne).
  assert (hmode s1 = Machine ∧ hmem s1 = hmem s ∧ csrs s1 = <[Mscratch := x s A0]> (csrs s)) as (X2 & X3 & X4) by done.
  clearbody s1.
  assert (∀ m, frame_at (hmode s1) (csrs s1 Satp) m (λ _, True) (x s1 A0) sc 40) as F.
  { intros m. rewrite X2, X0. by apply machine_frame. }
  rewrite (run_saves env A0 _ 40 (λ _, True) sc) by (apply F || by vm_compute).
  set (m2 := save_regs _ _ _ _).
  assert (∀ a, ¬ (sc ≤ a < sc + 24) → ld8 m2 a = ld8 (hmem s) a) as M2.
  { intros a Ha. unfold m2. rewrite ld8_save_regs_out, X3; [done|].
    intros p Hp. assert (0 ≤ p.2 ≤ 16) by (clear -Hp; unfold timer_saved in Hp; set_solver by lia). lia. }
  rewrite (run_loads env A0 _ 40 (λ _, True) sc);
    [|apply F|by vm_compute|by apply (bool_decide_unpack _); vm_compute].
  eexists. split; [reflexivity|].
  cbn [load_regs foldl fst snd set_hmem set_x hmode csrs hmem x].
  rewrite !fn_lookup_insert_ne, !fn_lookup_insert by done. split_and!; try done.
  - apply ld64_agree. intros b Hb. apply M2. lia.
  - apply ld64_agree. intros b Hb. apply M2. lia.
  - intros r Hr. cbn [set_x set_hmem x]. rewrite !fn_lookup_insert_ne by set_solver. apply X1. set_solver.
  - intros r o Hin. unfold m2. rewrite (ld64_save_regs _ _ _ 40 _ r o) by (done || by vm_compute).
    rewrite X1; [by apply u64_small|]. unfold timer_saved in Hin. clear -Hin. set_solver.
Qed.

(** A timer interrupt in machine mode gives every register and [mscratch]
    back, moves the hart's next timer interrupt on by the interval stored in its
    scratch area, leaves a supervisor software interrupt pending, and
    changes no memory but its scratch area and [mtimecmp]. *)
Lemma timervec_runs env s :
  let sc := csrs s Mscratch in
  let cmp := ld64 (hmem s) (sc + 24) in
  hmode s = Machine → (∀ r, 0 ≤ x s r < 2 ^ 64) → 0 ≤ sc → sc + 40 ≤ 2 ^ 64 → sc mod 8 = 0 →
  cmp mod 8 = 0 → (cmp + 8 ≤ sc ∨ sc + 40 ≤ cmp) →
  ∃ s', run env timervec_code s = Some (csrs s Mepc, s') ∧ (∀ r, x s' r = x s r) ∧
    csrs s' Mscratch = sc ∧ csrs s' Sip = 2 ∧
    ld64 (hmem s') cmp = u64 (ld64 (hmem s) cmp + ld64 (hmem s) (sc + 32)) ∧
    ∀ a, ¬ (sc ≤ a < sc + 24) → ¬ (cmp ≤ a < cmp + 8) → ld8 (hmem s') a = ld8 (hmem s) a.
Proof.
  intros sc cmp Hmd Hx Hs0 Hs1 Hs8 Hc8 Hd. pose proof (ld64_bound (hmem s) (sc + 24)) as Hcb. fold cmp in Hcb.
  rewrite timervec_blocks.
  destruct (timervec_enter env s (loads A1 [(A3, 0)] ++ Add A3 A3 A2 :: saves A1 [(A3, 0)] ++
    Li A1 2 :: Csrw Sip A1 :: timer_rest)) as (s1 & E1 & X1 & X2 & X3 & X4 & X5 & X6 & X7 & X8); try done.
  unfold timer_saved, timer_rest in E1. rewrite E1. clear E1. fold sc cmp in X3, X4, X5, X7, X8.
  assert (∀ m satp, frame_at Machine satp m (λ _, True) cmp cmp 8) as G.
  { intros m satp. apply machine_frame; [lia| |done]. zlia. }
  assert (ld64 (hmem s1) cmp = ld64 (hmem s) cmp) as V by (apply ld64_agree; intros b Hb; apply X8; lia).
  rewrite (run_loads env A1 _ 8 (λ _, True) cmp);
    [|rewrite X1, X4; apply G|by vm_compute|by apply (bool_decide_unpack _); vm_compute].
  cbn [load_regs foldl fst snd run jumps exec_instr]. rewrite Z.add_0_r, V.
  rewrite (run_saves env A1 _ 8 (λ _, True) cmp); cbn [setr set_x hmode csrs hmem x];
    [|rewrite X1, !fn_lookup_insert_ne, X4 by done; apply G|done|by vm_compute|done].
  cbn [save_regs foldl fst snd run jumps exec_instr setr set_x set_hmem set_csrs hmode csrs hmem x].
  rewrite !fn_lookup_insert, !fn_lookup_insert_ne, X5, Z.add_0_r by done.
  set (m5 := st64 (hmem s1) cmp _). set (s6 := set_csrs _ _).
  assert (∀ a, ¬ (cmp ≤ a < cmp + 8) → ld8 m5 a = ld8 (hmem s1) a) as M5 by (intros a Ha; by apply ld8_st64_ne).
  destruct (timervec_back env s6 (x s)) as (s7 & E7 & Y1 & Y2 & Y3); try done.
  all: cbn [s6 setr set_x set_csrs set_hmem x csrs hmem hmode]; rewrite ?fn_lookup_insert_ne, ?X3, ?X2 by done.
  all: try (done || by rewrite ?fn_lookup_insert).
  - intros r o Hin. rewrite <- (X7 r o Hin). apply ld64_agree. intros b Hb. apply M5.
    assert (0 ≤ o ≤ 16) by (unfold timer_saved in Hin; clear -Hin; set_solver by lia). lia.
  - intros r Hr. rewrite !fn_lookup_insert_ne by (clear -Hr; set_solver). by apply X6.
  - exists s7. unfold timer_rest in E7. rewrite E7. split_and!; rewrite ?Y2, ?Y3; try done.
    + cbn [s6 set_csrs csrs]. rewrite X2. by rewrite !fn_lookup_insert_ne.
    + change (hmem s6) with m5. unfold m5. rewrite ld64_st64_eq. apply u64_small, u64_bound.
    + intros a H1 H2. change (hmem s6) with m5. rewrite M5 by done. by apply X8.
Qed.

(** ** Start of a hart

    [_entry] gives each hart its own page of [stack0], and calls [start] with
    the stack pointer at its top. *)
Lemma entry_stack env s :
  0 ≤ symbol_of env "stack0" → symbol_of env "stack0" + 4096 * NCPU < 2 ^ 64 → 0 ≤ csrs s Mhartid < NCPU →
  ∃ s', foldl (λ o i, o ≫= exec_instr env i) (Some s) (take 6 entry_code) = Some s' ∧
    drop 6 entry_code = [Call "start"] ∧
    x s' SP = symbol_of env "stack0" + 4096 * (csrs s Mhartid + 1).
Proof.
  unfold NCPU. intros H0 H1 Hh. eexists. split; [reflexivity|]. split; [reflexivity|].
  cbn [setr set_x x csrs]. repeat (rewrite fn_lookup_insert || rewrite fn_lookup_insert_ne by done).
  rewrite (u64_small (1024 * 4)), (u64_small (csrs s Mhartid)), (u64_small (symbol_of _ _)) by lia.
  rewrite (u64_small (_ + 1)) by lia. rewrite (u64_small (_ * _)) by lia. rewrite u64_small; lia.
Qed.

(** ** Examples *)
#[local] Existing Instances ex_link ex_link_ok.

(** A process page table with its trapframe, made by the kernel's code. *)
Definition ex_trap_prog : M kmem (Z * Z * Z) :=
  kinit ;; root ← uvmcreate; tf ← kalloc;
  r ← mappages root TRAPFRAME PGSIZE tf (Z.lor PTE_R PTE_W); ret (root, tf, r).

Lemma ex_trap_run :
  match ex_trap_prog (Kmem ∅ false 0) with Ok a _ => a = (ex_page 0, ex_page 1, 0) | _ => False end.
Proof. vm_compute. reflexivity. Qed.

Lemma trap_prog_run s00 s0 s1 s2 s3 root tf r :
  kinit s00 = Ok tt s0 → uvmcreate s0 = Ok root s1 → kalloc s1 = Ok tf s2 →
  mappages root TRAPFRAME PGSIZE tf (Z.lor PTE_R PTE_W) s2 = Ok r s3 →
  ex_trap_prog s00 = Ok (root, tf, r) s3.
Proof. intros E0 E1 E2 E3. unfold ex_trap_prog. by do 4 erewrite bind_ok by done. Qed.

Lemma ex_trap_args :
  vpage TRAPFRAME ∧ 0 ≤ ex_page 1 < 2 ^ 54 ∧ ex_page 1 mod 4096 = 0 ∧ 0 ≤ Z.lor PTE_R PTE_W < 1024.
Proof. vm_compute. intuition congruence. Qed.

Lemma ex_trapframe : ∃ s tr,
  ex_trap_prog (Kmem ∅ false 0) = Ok (ex_page 0, ex_page 1, 0) s ∧
  trapframe_mapped (ram s) tr (ex_page 0) (ex_page 1).
Proof.
  destruct ex_kinit as (s0 & E0 & F0).
  destruct (uvmcreate_ok s0 _ _ F0) as (s1 & E1 & U1 & V1 & _).
  assert (ex_rest = ex_page 1 :: (ex_page <$> zseq 2 14)) as Er by reflexivity. rewrite Er in U1.
  destruct (aspace_take _ _ _ _ _ (us_as _ _ _ _ _ U1)) as (E2 & A2 & Hp & Hl & Ht & V2).
  set (s2 := Kmem (Kstring.memset _ _ _ _) _ _) in *. clearbody s2.
  pose proof ex_trap_args as (Hva & P1 & P2 & P3).
  destruct (mappages_page s2 _ _ _ TRAPFRAME (ex_page 1) (Z.lor PTE_R PTE_W) A2 Hva P1 P2 P3)
    as [(s3 & tr & E3 & _)|(s3 & l3 & tr & E3 & G & V3 & _)].
  { by rewrite V2, V1. }
  - pose proof ex_trap_run as R. rewrite (trap_prog_run _ _ _ _ _ _ _ _ E0 E1 E2 E3) in R. discriminate R.
  - exists s3, tr. split; [by eapply trap_prog_run|].
    split; [apply (gr_as _ _ _ _ _ _ _ G)|exact Hp| |].
    + rewrite V3 by by apply vpage_vslot. by rewrite decide_True.
    + intros k p Hk. destruct (gr_new _ _ _ _ _ _ _ G k p Hk) as [Hk'|Hin]; [by apply (Ht k)|].
      intros ->. exact (Hl Hin).
Qed.

Definition ex_env : senv := SEnv (λ _, KERNBASE) (λ _ s, Some (set_x (<[A0 := 7]> (<[T0 := 9]> (x s))) s)).

(** A user's registers. *)
Definition ex_user_regs : reg → Z := <[A0 := 1000]> (<[T0 := 55]> (λ _, 3)).

Lemma ex_user_regs_bound r : 0 ≤ ex_user_regs r < 2 ^ 64.
Proof. by destruct r. Qed.

Lemma trap_roundtrip_witness : ∃ m tr k u',
  trapframe_mapped m tr (ex_page 0) (ex_page 1) ∧
  run ex_env uservec_code (HState ex_user_regs (λ _, MAKE_SATP (ex_page 0)) m Supervisor) =
    Some (ld64 m (ex_page 1 + 16), k) ∧
  run ex_env userret_code (HState (<[A0 := MAKE_SATP (ex_page 0)]> (x k)) (csrs k) (hmem k) Supervisor) =
    Some (csrs k Sepc, u') ∧ x u' A0 = 1000 ∧ x u' T0 = 55 ∧ x u' S11 = 3.
Proof.
  destruct ex_trapframe as (s & tr & _ & HT).
  set (u := HState ex_user_regs (λ _, MAKE_SATP (ex_page 0)) (ram s) Supervisor).
  destruct (trap_roundtrip ex_env u (ex_page 0) tr (ex_page 1)) as (k & E & _ & _ & _ & M & H).
  - reflexivity.
  - reflexivity.
  - exact ex_user_regs_bound.
  - exact HT.
  - destruct (H (HState (<[A0 := MAKE_SATP (ex_page 0)]> (x k)) (csrs k) (hmem k) Supervisor)
      (ex_page 0) tr (ex_page 1)) as (u' & E' & _ & _ & R).
    + reflexivity.
    + exact (fn_lookup_insert (x k) A0 _).
    + apply (trapframe_mapped_agree _ _ _ _ _ HT). intros a Ha. apply M. lia.
    + exists (ram s), tr, k, u'. split; [exact HT|]. split; [exact E|]. split; [exact E'|].
      destruct (R A0) as (o1 & _ & _ & R1). destruct (R T0) as (o2 & _ & _ & R2).
      destruct (R S11) as (o3 & _ & _ & R3).
      rewrite (R1 eq_refl), (R2 eq_refl), (R3 eq_refl). split; [reflexivity|]. split; reflexivity.
Defined.

(** Two contexts, 0 and 200, in memory that is not mapped. *)
Definition ex_sw : hstate :=
  HState (<[A0 := 0]> (<[A1 := 200]> (<[S3 := 42]> (λ _, 5)))) (λ _, 0) (st64 ∅ 200 77) Supervisor.

Lemma ex_bare_frame m a n : 0 ≤ a → a + n ≤ 2 ^ 64 → a mod 8 = 0 → frame_at Supervisor 0 m (λ _, True) a a n.
Proof.
  intros Ha Hn Hm. split; [done|]. split; [done|]. intros m' perm o _ _ Ho Ho8.
  unfold translate. replace ((a + o) mod 8 =? 0) with true; [done|]. symmetry. apply Z.eqb_eq. zlia.
Qed.

Lemma swtch_switches_witness : ∃ s',
  run ex_env swtch_code ex_sw = Some (77, s') ∧ ld64 (hmem s') 40 = 42 ∧ x s' S3 = 0.
Proof.
  destruct (swtch_switches ex_env ex_sw (λ _, True)) as (s' & E & R & _).
  - intros r. by destruct r.
  - by apply ex_bare_frame.
  - by apply ex_bare_frame.
  - done.
  - left. by vm_compute.
  - exists s'. split; [exact E|]. destruct (R S3 40) as [R1 R2].
    { unfold context_regs. repeat (apply list_elem_of_here || apply list_elem_of_further). }
    split; [exact R2|]. rewrite R1. vm_compute. reflexivity.
Defined.

Definition ex_kv : hstate := HState (<[SP := 4096]> (<[A0 := 1]> (λ _, 5))) (λ _, 0) ∅ Supervisor.

Lemma kernelvec_restores_witness : ∃ sepc s3,
  run ex_env kernelvec_code ex_kv = Some (sepc, s3) ∧ x s3 A0 = 1 ∧ x s3 T0 = 5 ∧ x s3 SP = 4096.
Proof.
  destruct (kernelvec_restores ex_env ex_kv (λ _, True) 3840) as (s1 & s2 & s3 & Ec & E & R & _).
  - intros r. by destruct r.
  - by vm_compute.
  - by apply ex_bare_frame.
  - done.
  - intros s1 H1 H2 H3 H4. eexists. split; [reflexivity|]. split; [|split].
    + cbn [set_x x]. by rewrite !fn_lookup_insert_ne.
    + done.
    + cbn [set_x hmode csrs hmem]. rewrite H2, H3. by apply ex_bare_frame.
  - exists (csrs s2 Sepc), s3. split; [exact E|]. rewrite !R by discriminate.
    split; [reflexivity|]. split; reflexivity.
Defined.
