(* ===== verification/Start.v ===== *)
(** * Starting a hart ([kernel/start.c], [kernel/riscv.h])

    [start] runs in machine mode on the machine of [Asm]: control registers are
    read and written with the functions of [riscv.h]; the timer's registers are
    memory.  It returns where [mret] goes to.

    [start_timer] joins it with [timervec] of [AsmSpec]. *)

From stdpp Require Import functions.
From S2P Require Import Base Riscv Mem Asm AsmSpec.
Local Open Scope Z_scope.
Local Open Scope kernel_scope.

(** ** kernel/riscv.h *)
Definition MSTATUS_MPP_MASK : Z := Z.shiftl 3 11.
Definition MSTATUS_MPP_M : Z := Z.shiftl 3 11.
Definition MSTATUS_MPP_S : Z := Z.shiftl 1 11.
Definition MSTATUS_MPP_U : Z := Z.shiftl 0 11.
Definition MSTATUS_MIE : Z := Z.shiftl 1 3.
Definition SIE_SEIE : Z := Z.shiftl 1 9.
Definition SIE_STIE : Z := Z.shiftl 1 5.
Definition SIE_SSIE : Z := Z.shiftl 1 1.
Definition MIE_MEIE : Z := Z.shiftl 1 11.
Definition MIE_MTIE : Z := Z.shiftl 1 7.
Definition MIE_MSIE : Z := Z.shiftl 1 3.
Definition CLINT : Z := 0x2000000.
Definition CLINT_MTIMECMP (hartid : Z) : Z := CLINT + 0x4000 + 8 * hartid.
Definition CLINT_MTIME : Z := CLINT + 0xBFF8.

Definition csrr (c : csr) : M hstate Z := gets (λ s, csrs s c).
Definition csrw (c : csr) (v : Z) : M hstate unit := modify (λ s, set_csrs (<[c := u64 v]> (csrs s)) s).

Definition r_mhartid : M hstate Z := csrr Mhartid.
Definition r_mstatus : M hstate Z := csrr Mstatus.
Definition w_mstatus : Z → M hstate unit := csrw Mstatus.
Definition w_mepc : Z → M hstate unit := csrw Mepc.
Definition r_sstatus : M hstate Z := csrr Sstatus.
Definition w_sstatus : Z → M hstate unit := csrw Sstatus.
Definition r_sip : M hstate Z := csrr Sip.
Definition w_sip : Z → M hstate unit := csrw Sip.
Definition r_sie : M hstate Z := csrr Sie.
Definition w_sie : Z → M hstate unit := csrw Sie.
Definition r_mie : M hstate Z := csrr Mie.
Definition w_mie : Z → M hstate unit := csrw Mie.
Definition w_sepc : Z → M hstate unit := csrw Sepc.
Definition r_sepc : M hstate Z := csrr Sepc.
Definition r_medeleg : M hstate Z := csrr Medeleg.
Definition w_medeleg : Z → M hstate unit := csrw Medeleg.
Definition r_mideleg : M hstate Z := csrr Mideleg.
Definition w_mideleg : Z → M hstate unit := csrw Mideleg.
Definition w_stvec : Z → M hstate unit := csrw Stvec.
Definition r_stvec : M hstate Z := csrr Stvec.
Definition w_mtvec : Z → M hstate unit := csrw Mtvec.
Definition w_pmpcfg0 : Z → M hstate unit := csrw Pmpcfg0.
Definition w_pmpaddr0 : Z → M hstate unit := csrw Pmpaddr0.
Definition w_satp : Z → M hstate unit := csrw Satp.
Definition r_satp : M hstate Z := csrr Satp.
Definition w_mscratch : Z → M hstate unit := csrw Mscratch.
Definition r_scause : M hstate Z := csrr Scause.
Definition r_stval : M hstate Z := csrr Stval.
Definition w_mcounteren : Z → M hstate unit := csrw Mcounteren.
Definition r_mcounteren : M hstate Z := csrr Mcounteren.
Definition r_time : M hstate Z := csrr Time.
Definition r_sp : M hstate Z := gets (λ s, x s SP).
Definition r_tp : M hstate Z := gets (λ s, x s TP).
Definition w_tp (v : Z) : M hstate unit := modify (setr TP v).
Definition r_ra : M hstate Z := gets (λ s, x s RA).

(** [mret]: the mode comes from [MPP], the next instruction from [mepc]. *)
Definition mret : M hstate Z :=
  mpp ← gets (λ s, Z.land (csrs s Mstatus) MSTATUS_MPP_MASK);
  modify (λ s, HState (x s) (csrs s) (hmem s)
    (if mpp =? MSTATUS_MPP_M then Machine else if mpp =? MSTATUS_MPP_S then Supervisor else User)) ;;
  csrr Mepc.

(** ** kernel/start.c *)
Section start.
  (** The addresses of [main], [timervec] and [timer_scratch]. *)
  Context (main timervec timer_scratch : Z).

Definition timerinit : M hstate unit :=
  id ← r_mhartid;
  let id := i32 id in
  let interval := 1000000 in
  modify (λ s, set_hmem (st64 (hmem s) (CLINT_MTIMECMP id) (ld64 (hmem s) CLINT_MTIME + interval)) s) ;;
  let scratch := timer_scratch + 40 * id in
  modify (λ s, set_hmem (st64 (hmem s) (scratch + 24) (CLINT_MTIMECMP id)) s) ;;
  modify (λ s, set_hmem (st64 (hmem s) (scratch + 32) interval) s) ;;
  w_mscratch scratch ;;
  w_mtvec timervec ;;
  v ← r_mstatus; w_mstatus (Z.lor v MSTATUS_MIE) ;;
  v ← r_mie; w_mie (Z.lor v MIE_MTIE).

Definition start : M hstate Z :=
  v ← r_mstatus;
  w_mstatus (Z.lor (Z.land v (Z.lnot MSTATUS_MPP_MASK)) MSTATUS_MPP_S) ;;
  w_mepc main ;;
  w_satp 0 ;;
  w_medeleg 0xffff ;;
  w_mideleg 0xffff ;;
  v ← r_sie; w_sie (Z.lor (Z.lor (Z.lor v SIE_SEIE) SIE_STIE) SIE_SSIE) ;;
  w_pmpaddr0 0x3fffffffffffff ;;
  w_pmpcfg0 0xf ;;
  timerinit ;;
  id ← r_mhartid;
  w_tp (i32 id) ;;
  mret.
End start.

(** ** What [start] sets up *)
Section spec.
  Context (main timervec timer_scratch : Z).
  Context (Hlo : 0x2010000 ≤ timer_scratch) (Hhi : timer_scratch + 40 * NCPU < 2 ^ 63) (Hal : timer_scratch mod 8 = 0).

Lemma testbit_or_r a b i : Z.testbit b i = true → Z.testbit (Z.lor a b) i = true.
Proof. intros H. by rewrite Z.lor_spec, H, orb_true_r. Qed.

Lemma testbit_u64 v i : 0 ≤ i < 64 → Z.testbit (u64 v) i = Z.testbit v i.
Proof. intros Hi. unfold u64. apply Z.mod_pow2_bits_low. lia. Qed.

#[local] Opaque st64 ld64.

Lemma csrw_run c v s : csrw c v s = Ok tt (set_csrs (<[c := u64 v]> (csrs s)) s).
Proof. done. Qed.

Ltac csr_steps := repeat (rewrite bind_gets || rewrite bind_modify || (erewrite bind_ok by apply csrw_run));
  cbn [csrs set_csrs set_hmem hmem x hmode].

Ltac csr_lookup := repeat (rewrite fn_lookup_insert || (rewrite fn_lookup_insert_ne by done)).

Lemma timerinit_run s : let id := csrs s Mhartid in 0 ≤ id < NCPU →
  ∃ s', timerinit timervec timer_scratch s = Ok tt s' ∧ x s' = x s ∧ hmode s' = hmode s ∧
    hmem s' = st64 (st64 (st64 (hmem s) (CLINT_MTIMECMP id) (ld64 (hmem s) CLINT_MTIME + 1000000))
      (timer_scratch + 40 * id + 24) (CLINT_MTIMECMP id)) (timer_scratch + 40 * id + 32) 1000000 ∧
    csrs s' Mscratch = timer_scratch + 40 * id ∧ csrs s' Mtvec = u64 timervec ∧
    csrs s' Mstatus = u64 (Z.lor (csrs s Mstatus) MSTATUS_MIE) ∧
    csrs s' Mie = u64 (Z.lor (csrs s Mie) MIE_MTIE) ∧
    ∀ c, c ∉ [Mscratch; Mtvec; Mstatus; Mie] → csrs s' c = csrs s c.
Proof.
  intros id Hid. unfold NCPU in *. assert (i32 id = id) as Ei by (apply i32_small; lia).
  unfold timerinit, r_mhartid, w_mscratch, w_mtvec, r_mstatus, w_mstatus, r_mie, w_mie, csrr.
  csr_steps. fold id. rewrite Ei. rewrite csrw_run. eexists. split; [reflexivity|].
  cbn [csrs set_csrs set_hmem hmem x hmode]. split_and!; try done.
  - csr_lookup. apply u64_small. lia.
  - intros c Hc. rewrite !fn_lookup_insert_ne by set_solver. done.
Qed.

(** After [start] the previous mode is supervisor. *)
Lemma mpp_supervisor v :
  Z.land (u64 (Z.lor (u64 (Z.lor (Z.land v (Z.lnot MSTATUS_MPP_MASK)) MSTATUS_MPP_S)) MSTATUS_MIE))
    MSTATUS_MPP_MASK = MSTATUS_MPP_S.
Proof.
  apply Z.bits_inj'. intros i Hi. rewrite Z.land_spec.
  assert (i = 11 ∨ i = 12 ∨ (i < 11 ∨ 13 ≤ i)) as [->|[->|Ho]] by lia.
  1, 2: rewrite !(testbit_u64 _), !Z.lor_spec, !(testbit_u64 _), !Z.lor_spec, Z.land_spec, Z.lnot_spec by lia;
    cbn; by rewrite ?andb_false_r.
  assert (∀ k, 0 ≤ k ≤ 3 → Z.testbit (Z.shiftl k 11) i = false) as Hk.
  { intros k Hk. rewrite Z.shiftl_spec by lia. destruct Ho; [by apply Z.testbit_neg_r; lia|].
    apply Z.bits_above_log2; [lia|]. assert (Z.log2 k ≤ Z.log2 3) by (apply Z.log2_le_mono; lia).
    change (Z.log2 3) with 1 in *. lia. }
  unfold MSTATUS_MPP_MASK, MSTATUS_MPP_S. by rewrite !Hk, andb_false_r by lia.
Qed.

(** [start] as one change of the state. *)
Lemma start_run s : let id := csrs s Mhartid in 0 ≤ id < NCPU →
  ∃ s', start main timervec timer_scratch s = Ok (u64 main) s' ∧
    (∀ r, x s' r = if decide (r = TP) then id else x s r) ∧
    hmem s' = st64 (st64 (st64 (hmem s) (CLINT_MTIMECMP id) (ld64 (hmem s) CLINT_MTIME + 1000000))
      (timer_scratch + 40 * id + 24) (CLINT_MTIMECMP id)) (timer_scratch + 40 * id + 32) 1000000 ∧
    hmode s' = Supervisor ∧
    csrs s' Satp = 0 ∧ csrs s' Medeleg = 0xffff ∧ csrs s' Mideleg = 0xffff ∧
    csrs s' Mscratch = timer_scratch + 40 * id ∧ csrs s' Mtvec = u64 timervec ∧
    Forall (λ i, Z.testbit (csrs s' Sie) i = true) [1; 5; 9] ∧
    Z.testbit (csrs s' Mstatus) 3 = true ∧ Z.testbit (csrs s' Mie) 7 = true.
Proof.
  intros id Hid. unfold start, r_mhartid, w_mepc, w_satp, w_medeleg, w_mideleg, r_sie, w_sie, w_pmpaddr0, w_pmpcfg0,
    r_mstatus, w_mstatus, csrr.
  csr_steps. set (s1 := set_csrs _ _).
  assert (hmem s1 = hmem s ∧ x s1 = x s ∧ csrs s1 Mhartid = id ∧ csrs s1 Mepc = u64 main ∧
    csrs s1 Satp = 0 ∧ csrs s1 Medeleg = 0xffff ∧ csrs s1 Mideleg = 0xffff ∧
    csrs s1 Sie = u64 (Z.lor (Z.lor (Z.lor (csrs s Sie) SIE_SEIE) SIE_STIE) SIE_SSIE) ∧
    csrs s1 Mstatus = u64 (Z.lor (Z.land (csrs s Mstatus) (Z.lnot MSTATUS_MPP_MASK)) MSTATUS_MPP_S))
    as (M1 & X1 & I1 & C1 & C2 & C3 & C4 & C5 & C6).
  { unfold s1. cbn [csrs set_csrs hmem x].
    repeat split; by csr_lookup. }
  clearbody s1.
  destruct (timerinit_run s1) as (s2 & E2 & X2 & _ & M2 & D1 & D2 & D3 & D4 & D5); [by rewrite I1|].
  rewrite I1 in *. rewrite (bind_ok _ _ _ _ _ E2), bind_gets.
  assert (i32 id = id) as Ei by (apply i32_small; unfold NCPU in *; lia).
  rewrite D5, I1, Ei by set_solver. unfold w_tp. rewrite bind_modify.
  unfold mret. rewrite bind_gets, bind_modify. cbn [csrr]. eexists. split.
  { unfold csrr, gets. cbn [csrs setr set_x]. rewrite D5, C1 by set_solver. reflexivity. }
  cbn [x hmem hmode csrs setr set_x]. rewrite D1, D2, D3, D4, !D5, C2, C3, C4, C5, C6, M2, M1, mpp_supervisor by set_solver.
  split_and!; try done.
  - intros r. rewrite X2, X1. destruct (decide (r = TP)) as [->|Hr]; [|by rewrite fn_lookup_insert_ne].
    rewrite fn_lookup_insert. apply u64_small. unfold NCPU in *. lia.
  - rewrite !Forall_cons. split_and!; [..|done]; rewrite testbit_u64, !Z.lor_spec by lia; cbn; by rewrite ?orb_true_r.
  - rewrite testbit_u64 by lia. by apply testbit_or_r.
  - rewrite testbit_u64 by lia. by apply testbit_or_r.
Qed.

End spec.

(** *** A witness *)
Definition ex_boot : hstate := HState (λ _, 0) (<[Mhartid := 2]> (λ _, 0)) (st64 ∅ CLINT_MTIME 5) Machine.

