(* ===== verification/Ring.v ===== *)
(** * Ring buffers

    Pipes, the console's input and the UART's output keep bytes in an array
    of [size] places and count them with unsigned indices that only ever grow,
    modulo the width of the index type; a byte sits at its index modulo
    [size].  [ring] is the queue such a buffer holds; the lemmas say what one
    step of an index does to it, including when the index wraps around. *)

From S2P Require Import Base.
Local Open Scope Z_scope.

Section ring.
  Context (M size : Z).

(** Entries between the read index [r] and the write index [w]. *)
Definition ring (d : list Z) (r w : Z) : list Z :=
  map (λ k, d !!! Z.to_nat ((r + k) mod size)) (zseq 0 (Z.to_nat ((w - r) mod M))).

(** Sizes for which an index may wrap without losing its place. *)
Definition ring_ok : Prop := 0 < size ∧ (size | M) ∧ 0 < M.

Context (OK : ring_ok).

Lemma ring_mod x : x mod M mod size = x mod size.
Proof using OK. destruct OK as (? & ? & ?). by apply Z.mod_mod_divide. Qed.

Lemma ring_length d r w : length (ring d r w) = Z.to_nat ((w - r) mod M).
Proof using. unfold ring. by rewrite length_map, zseq_length. Qed.

Lemma ring_same d r : ring d r r = [].
Proof using. unfold ring. rewrite Z.sub_diag. by rewrite Zmod_0_l. Qed.

Lemma count_up r w : (w - r) mod M < M - 1 → ((w + 1) mod M - r) mod M = (w - r) mod M + 1.
Proof using OK.
  destruct OK as (? & ? & ?). intros.
  rewrite Zminus_mod_idemp_l. replace (w + 1 - r) with ((w - r) + 1) by lia.
  rewrite <- Zplus_mod_idemp_l. apply Z.mod_small.
  pose proof (Z.mod_pos_bound (w - r) M). lia.
Qed.

Lemma count_down r w : 0 < (w - r) mod M → ((w - 1) mod M - r) mod M = (w - r) mod M - 1.
Proof using OK.
  destruct OK as (? & ? & ?). intros.
  rewrite Zminus_mod_idemp_l. replace (w - 1 - r) with ((w - r) - 1) by lia.
  rewrite <- Zminus_mod_idemp_l. apply Z.mod_small.
  pose proof (Z.mod_pos_bound (w - r) M). lia.
Qed.

Lemma count_pop r w : 0 < (w - r) mod M → (w - (r + 1) mod M) mod M = (w - r) mod M - 1.
Proof using OK.
  intros H. rewrite <- count_down by done. rewrite Zminus_mod_idemp_r, Zminus_mod_idemp_l.
  f_equal. lia.
Qed.

Lemma count_zero r w : 0 ≤ r < M → 0 ≤ w < M → (w - r) mod M = 0 ↔ w = r.
Proof using OK.
  destruct OK as (? & ? & ?). intros. split; [|intros ->; by rewrite Z.sub_diag].
  intros E. apply Z.mod_divide in E; [|lia]. destruct E as [q Hq]. assert (q = 0) by nia. lia.
Qed.

(** A byte stored outside of the queue does not change it. *)
Lemma ring_other d r w x c :
  (w - r) mod M ≤ (x - r) mod M < size →
  ring (<[Z.to_nat (x mod size) := c]> d) r w = ring d r w.
Proof using OK.
  intros Hx. pose proof OK as (? & Hdiv & ?). pose proof (Z.mod_pos_bound (w - r) M).
  apply map_ext_in. intros k Hk%list_elem_of_In%elem_of_zseq.
  rewrite list_lookup_total_insert_ne; [done|]. intros E.
  apply Z2Nat.inj in E; [|apply Z.mod_pos_bound; lia..].
  assert (E' : ((x - r) mod M - k) mod size = 0).
  { rewrite <- Zminus_mod_idemp_l, ring_mod, Zminus_mod_idemp_l.
    replace (x - r - k) with (x - (r + k)) by lia.
    rewrite <- Zminus_mod_idemp_l, <- Zminus_mod_idemp_r, E, Z.sub_diag. done. }
  rewrite Z.mod_small in E' by lia. lia.
Qed.

(** Appending a byte: it goes to the place of the write index. *)
Lemma ring_push d r w c :
  length d = Z.to_nat size → (w - r) mod M < size → size < M →
  ring (<[Z.to_nat (w mod size) := c]> d) r ((w + 1) mod M) = ring d r w ++ [c].
Proof using OK.
  intros Hd Hn Hs. pose proof OK as (? & Hdiv & ?).
  pose proof (Z.mod_pos_bound (w - r) M).
  rewrite <- (ring_other d r w w c) by lia.
  unfold ring. rewrite count_up by lia.
  rewrite Z2Nat.inj_add, zseq_app, map_app by lia. simpl. do 2 f_equal.
  rewrite Z2Nat.id, Z.add_0_l by lia.
  replace ((r + ((w - r) mod M)) mod size) with (w mod size).
  - apply list_lookup_total_insert_eq. rewrite Hd. apply Z2Nat.inj_lt; [..|]; try lia;
      apply Z.mod_pos_bound; lia.
  - rewrite <- Zplus_mod_idemp_r, ring_mod, Zplus_mod_idemp_r. f_equal. lia.
Qed.

(** Taking a byte: it comes from the place of the read index. *)
Lemma ring_pop d r w :
  0 < (w - r) mod M →
  ring d r w = d !!! Z.to_nat (r mod size) :: ring d ((r + 1) mod M) w.
Proof using OK.
  intros Hn. unfold ring. rewrite count_pop by done.
  replace (Z.to_nat ((w - r) mod M)) with (S (Z.to_nat ((w - r) mod M - 1))) by lia.
  cbn [zseq map]. rewrite Z.add_0_r. f_equal. change (0 + 1) with 1.
  generalize (Z.to_nat ((w - r) mod M - 1)). intros n.
  assert (E : ∀ j, zseq (1 + j) n = map (λ k, k + 1) (zseq j n)).
  { induction n as [|n IH]; intros j; simpl; [done|]. rewrite <- IH. f_equal; [lia|]. f_equal. lia. }
  change (zseq 1 n) with (zseq (1 + 0) n). rewrite E, map_map. apply map_ext. intros k. do 2 f_equal.
  rewrite <- (Zplus_mod_idemp_l ((r + 1) mod M)), ring_mod, Zplus_mod_idemp_l. f_equal. lia.
Qed.

(** Taking back the last byte. *)
Lemma ring_unpush d r w :
  0 < (w - r) mod M →
  ring d r w = ring d r ((w - 1) mod M) ++ [d !!! Z.to_nat ((w - 1) mod M mod size)].
Proof using OK.
  intros Hn. unfold ring. rewrite count_down by done.
  set (c := (w - r) mod M) in *.
  replace (Z.to_nat c) with (Z.to_nat (c - 1) + 1)%nat by lia.
  rewrite zseq_app, map_app. cbn [zseq map]. do 3 f_equal. f_equal.
  rewrite ring_mod, Z2Nat.id by lia. rewrite Z.add_0_l. unfold c.
  rewrite <- Zplus_mod_idemp_r, <- (Zminus_mod_idemp_l ((w - r) mod M)), ring_mod.
  rewrite Zminus_mod_idemp_l, Zplus_mod_idemp_r. f_equal. lia.
Qed.

(** The queue up to [e] is the queue up to [w] and the rest. *)
Lemma ring_app d r w e :
  (w - r) mod M + (e - w) mod M < M →
  ring d r e = ring d r w ++ ring d w e.
Proof using OK.
  destruct OK as (? & ? & ?). intros Hn.
  pose proof (Z.mod_pos_bound (w - r) M). pose proof (Z.mod_pos_bound (e - w) M).
  unfold ring. replace ((e - r) mod M) with ((w - r) mod M + (e - w) mod M).
  2:{ replace (e - r) with ((w - r) + (e - w)) by lia. rewrite Zplus_mod.
      symmetry. apply Z.mod_small. lia. }
  rewrite Z2Nat.inj_add, zseq_app, map_app by lia. f_equal.
  generalize (Z.to_nat ((e - w) mod M)). intros n. rewrite Z.add_0_l, Z2Nat.id by lia.
  set (c := (w - r) mod M) in *.
  assert (E : ∀ j, zseq (c + j) n = map (λ k, c + k) (zseq j n)).
  { induction n as [|n IH]; intros j; simpl; [done|]. rewrite <- IH. f_equal. f_equal. lia. }
  rewrite <- (Z.add_0_r c) at 1. rewrite E, map_map. apply map_ext. intros k. do 2 f_equal.
  rewrite Z.add_assoc, <- (Zplus_mod_idemp_l (r + c)). unfold c.
  rewrite <- (Zplus_mod_idemp_r _ r), ring_mod, Zplus_mod_idemp_r, Zplus_mod_idemp_l.
  f_equal. lia.
Qed.
End ring.

(** Ring indices of the kernel's types. *)
Lemma ring_ok_512 : ring_ok (2 ^ 32) 512.
Proof. split; [lia|]. split; [|lia]. by exists (2 ^ 23). Qed.
Lemma ring_ok_128 : ring_ok (2 ^ 32) 128.
Proof. split; [lia|]. split; [|lia]. by exists (2 ^ 25). Qed.
Lemma ring_ok_32 : ring_ok (2 ^ 64) 32.
Proof. split; [lia|]. split; [|lia]. by exists (2 ^ 59). Qed.
