(* ===== verification/Kernel.v ===== *)
(** * What kernel code expects of the process layer

    Code that holds spinlocks and blocks (sleep locks, the buffer cache, the
    log, inodes, pipes, the console) calls [acquire], [release], [sleep],
    [wakeup] and [myproc()->pid].  [KernelOps] is that interface; the code is
    written once for any state [S] with these operations.  Two states
    implement it: [solo], one process on its own, in which theorems are
    proved, and the whole kernel ([Kstate], [Proc]).  [sim] transfers a run
    that returns from [solo] to any implementation that satisfies
    [KernelLaws].

    The spinlocks a CPU holds are the list of their names; [mycpu()->noff] is
    its length (see [Spinlock] for the lock itself). *)

From S2P Require Import Base.
Local Open Scope Z_scope.
Local Open Scope kernel_scope.

(** Sleep locks: one per buffer and one per in-memory inode. *)
Inductive slockid := SLbuf (i : nat) | SLinode (i : nat).

(** Spinlocks. *)
Inductive lockid :=
| Lpid | Lwait | Lproc (i : nat) | Lbcache | Llog | Litable | Lftable | Lcons | Luart
| Lticks | Ldisk | Lpr | Lpipe (p : Z) | Lsleep (l : slockid).

(** Sleep channels: the addresses that are passed to [sleep] and [wakeup]. *)
Inductive chan :=
| ChNone | ChLock (l : slockid) | ChLog | ChProc (i : nat) | ChTicks
| ChPipeRead (p : Z) | ChPipeWrite (p : Z) | ChCons | ChUart | ChDiskFree | ChBuf (i : nat).

#[export] Instance slockid_eq_dec : EqDecision slockid.
Proof. solve_decision. Defined.
#[export] Instance lockid_eq_dec : EqDecision lockid.
Proof. solve_decision. Defined.
#[export] Instance chan_eq_dec : EqDecision chan.
Proof. solve_decision. Defined.

Class KernelOps (S : Type) := {
  acquire : lockid → M S unit;
  release : lockid → M S unit;
  sleep : chan → lockid → M S unit;
  wakeup : chan → M S unit;
  mypid : M S Z;
  mykilled : M S bool;
  (** The running process's memory: [copyout] and [copyin] through its page
      table ([ucopyin] also gives the bytes it stored), and its current
      directory (an index in the inode table). *)
  ucopyout : Z → list Z → M S Z;
  ucopyin : Z → Z → M S (Z * list Z);
  mycwd : M S nat;
  (** Loops around [sleep] are followed for this many wake-ups. *)
  wakeups : nat;
}.

(** [either_copyout] and [either_copyin]: a kernel destination or source is the
    list of its bytes, handled by the caller; a user one is an address. *)
Inductive usrc := FromUser (va : Z) | FromKernel (l : list Z).

Definition either_copyout {S} {KO : KernelOps S} (user_dst : bool) (dst : Z) (src : list Z) : M S Z :=
  if user_dst then ucopyout dst src else ret 0.

Definition either_copyin {S} {KO : KernelOps S} (src : usrc) (len : Z) : M S (Z * list Z) :=
  match src with
  | FromUser va => ucopyin va len
  | FromKernel l => ret (0, take (Z.to_nat len) l)
  end.

(** The source after [n] bytes. *)
Definition usrc_skip (n : Z) (src : usrc) : usrc :=
  match src with
  | FromUser va => FromUser (u64 (va + n))
  | FromKernel l => FromKernel (drop (Z.to_nat n) l)
  end.

(** [while(cond) sleep(c, l);] *)
Fixpoint wait_while {S} {KO : KernelOps S} (fuel : nat) (cond : M S bool) (c : chan) (l : lockid) :
    M S unit :=
  b ← cond;
  if b : bool then
    match fuel with
    | O => diverge
    | Datatypes.S fuel => sleep c l ;; wait_while fuel cond c l
    end
  else ret tt.

(** The state of a component, seen inside a kernel state. *)
Class HasState (S T : Type) := the_lens : lens S T.

Definition get {S T A} `{HasState S T} (f : T → A) : M S A := gets (λ s, f (lget the_lens s)).
Definition upd {S T} `{HasState S T} (f : T → T) : M S unit :=
  modify (λ s, lput the_lens (f (lget the_lens s)) s).

(** Remove one occurrence of a lock. *)
Fixpoint drop_lock (l : lockid) (h : list lockid) : list lockid :=
  match h with
  | [] => []
  | x :: h => if decide (x = l) then h else x :: drop_lock l h
  end.

(** The list of held locks as acquire and release change it. *)
Definition held_acquire {S} (get : S → list lockid) (set : list lockid → S → S)
    (l : lockid) : M S unit := λ s,
  if decide (l ∈ get s) then Panic "acquire" else Ok tt (set (l :: get s) s).
Definition held_release {S} (get : S → list lockid) (set : list lockid → S → S)
    (l : lockid) : M S unit := λ s,
  if decide (l ∈ get s) then Ok tt (set (drop_lock l (get s)) s) else Panic "release".

(** ** One process on its own *)
Record solo (T : Type) := SoloK { so_sub : T; so_held : list lockid; so_pid : Z; so_killed : bool }.
Arguments SoloK {T}.
Arguments so_sub {T}.
Arguments so_held {T}.
Arguments so_pid {T}.
Arguments so_killed {T}.

Definition set_so_sub {T} (t : T) (s : solo T) : solo T :=
  SoloK t (so_held s) (so_pid s) (so_killed s).
Definition set_so_held {T} (h : list lockid) (s : solo T) : solo T :=
  SoloK (so_sub s) h (so_pid s) (so_killed s).

(** A process that has not been killed. *)
Abbreviation Solo t h pid := (SoloK t h pid false).

(** Alone, nobody would ever end a sleep, and there is nobody to wake.  The
    process's own memory and directory are not part of a component's state:
    theorems in [solo] are about runs that do not touch them. *)
#[export] Instance solo_ops {T} : KernelOps (solo T) := {|
  acquire := held_acquire so_held set_so_held;
  release := held_release so_held set_so_held;
  sleep := λ _ _, diverge;
  wakeup := λ _, ret tt;
  mypid := gets so_pid;
  mykilled := gets so_killed;
  ucopyout := λ _ _, diverge;
  ucopyin := λ _ _, diverge;
  mycwd := diverge;
  wakeups := 0;
|}.

#[export] Instance solo_state {T} : HasState (solo T) T := Lens so_sub set_so_sub.

(** ** One process on its own with its memory

    [al_mem] maps the user addresses that are mapped to their bytes. *)
Record alone (T : Type) := Alone {
  al_sub : T; al_held : list lockid; al_pid : Z; al_killed : bool; al_mem : gmap Z Z }.
Arguments Alone {T}.
Arguments al_sub {T}.
Arguments al_held {T}.
Arguments al_pid {T}.
Arguments al_killed {T}.
Arguments al_mem {T}.

Definition set_al_sub {T} (t : T) (s : alone T) : alone T :=
  Alone t (al_held s) (al_pid s) (al_killed s) (al_mem s).
Definition set_al_held {T} (h : list lockid) (s : alone T) : alone T :=
  Alone (al_sub s) h (al_pid s) (al_killed s) (al_mem s).
Definition set_al_mem {T} (m : gmap Z Z) (s : alone T) : alone T :=
  Alone (al_sub s) (al_held s) (al_pid s) (al_killed s) m.

(** Store bytes up to the first address that is not mapped. *)
Fixpoint mem_store (m : gmap Z Z) (va : Z) (l : list Z) : Z * gmap Z Z :=
  match l with
  | [] => (0, m)
  | b :: l => match m !! va with
              | Some _ => mem_store (<[va := b]> m) (va + 1) l
              | None => (-1, m)
              end
  end.

Fixpoint mem_load (m : gmap Z Z) (va : Z) (n : nat) : Z * list Z :=
  match n with
  | O => (0, [])
  | S n => match m !! va with
           | Some b => let '(r, l) := mem_load m (va + 1) n in (r, b :: l)
           | None => (-1, [])
           end
  end.

#[export] Instance alone_ops {T} : KernelOps (alone T) := {|
  acquire := held_acquire al_held set_al_held;
  release := held_release al_held set_al_held;
  sleep := λ _ _, diverge;
  wakeup := λ _, ret tt;
  mypid := gets al_pid;
  mykilled := gets al_killed;
  ucopyout := λ va l s, let '(r, m) := mem_store (al_mem s) va l in Ok r (set_al_mem m s);
  ucopyin := λ va n s, Ok (mem_load (al_mem s) va (Z.to_nat n)) s;
  mycwd := diverge;
  wakeups := 0;
|}.

#[export] Instance alone_state {T} : HasState (alone T) T := Lens al_sub set_al_sub.

Section alone.
  Context {T B : Type}.
  Implicit Types (t : T) (h : list lockid) (pid : Z) (kl : bool) (m : gmap Z Z).

Lemma acquire_alone l t h pid kl m :
  l ∉ h → acquire l (Alone t h pid kl m) = Ok tt (Alone t (l :: h) pid kl m).
Proof. intros Hl. cbn. unfold held_acquire. cbn. by rewrite decide_False. Qed.
Lemma release_alone l t h pid kl m :
  release l (Alone t (l :: h) pid kl m) = Ok tt (Alone t h pid kl m).
Proof.
  cbn. unfold held_release. cbn [al_held]. rewrite decide_True by left.
  unfold set_al_held. cbn. by rewrite decide_True.
Qed.
Lemma bind_acquire_alone l (k : unit → M (alone T) B) t h pid kl m :
  l ∉ h → bind (acquire l) k (Alone t h pid kl m) = k tt (Alone t (l :: h) pid kl m).
Proof. intros Hl. by rewrite (bind_ok _ _ _ _ _ (acquire_alone l t h pid kl m Hl)). Qed.
Lemma bind_release_alone l (k : unit → M (alone T) B) t h pid kl m :
  bind (release l) k (Alone t (l :: h) pid kl m) = k tt (Alone t h pid kl m).
Proof. by rewrite (bind_ok _ _ _ _ _ (release_alone l t h pid kl m)). Qed.
Lemma bind_wakeup_alone c (k : unit → M (alone T) B) t h pid kl m :
  bind (wakeup c) k (Alone t h pid kl m) = k tt (Alone t h pid kl m).
Proof. done. Qed.
Lemma bind_mykilled_alone (k : bool → M (alone T) B) t h pid kl m :
  bind mykilled k (Alone t h pid kl m) = k kl (Alone t h pid kl m).
Proof. done. Qed.
Lemma bind_get_alone {A} (f : T → A) (k : A → M (alone T) B) t h pid kl m :
  bind (get f) k (Alone t h pid kl m) = k (f t) (Alone t h pid kl m).
Proof. done. Qed.
Lemma bind_upd_alone (g : T → T) (k : unit → M (alone T) B) t h pid kl m :
  bind (upd g) k (Alone t h pid kl m) = k tt (Alone (g t) h pid kl m).
Proof. done. Qed.
Lemma bind_ucopyin_alone va (k : Z * list Z → M (alone T) B) t h pid kl m :
  bind (ucopyin va 1) k (Alone t h pid kl m) =
  k (match m !! va with Some b => (0, [b]) | None => (-1, []) end) (Alone t h pid kl m).
Proof. mred. change (Pos.to_nat 1) with 1%nat. simpl. by destruct (m !! va). Qed.
Lemma bind_ucopyout_alone va b (k : Z → M (alone T) B) t h pid kl m :
  bind (ucopyout va [b]) k (Alone t h pid kl m) =
  match m !! va with
  | Some _ => k 0 (Alone t h pid kl (<[va := b]> m))
  | None => k (-1) (Alone t h pid kl m)
  end.
Proof. mred. by destruct (m !! va). Qed.
End alone.

(** Bytes stored in memory and loaded from it. *)
Lemma mem_load_length (m : gmap Z Z) va n : (length (mem_load m va n).2 ≤ n)%nat.
Proof.
  revert va. induction n as [|n IH]; intros va; simpl; [done|].
  destruct (m !! va); simpl; [|lia]. specialize (IH (va + 1)).
  destruct (mem_load m (va + 1) n); simpl in *. lia.
Qed.

(** How many of the next [n] addresses are mapped before the first that is
    not. *)
Fixpoint mem_room (m : gmap Z Z) (va : Z) (n : nat) : nat :=
  match n with
  | O => O
  | S n => match m !! va with Some _ => S (mem_room m (va + 1) n) | None => O end
  end.

Lemma mem_room_le (m : gmap Z Z) va n : (mem_room m va n ≤ n)%nat.
Proof.
  revert va. induction n as [|n IH]; intros va; simpl; [done|].
  destruct (m !! va); [|lia]. specialize (IH (va + 1)). lia.
Qed.

Lemma mem_room_insert (m : gmap Z Z) va b a n :
  is_Some (m !! va) → mem_room (<[va := b]> m) a n = mem_room m a n.
Proof.
  intros [x Hx]. revert a. induction n as [|n IH]; intros a; simpl; [done|].
  rewrite IH. destruct (decide (a = va)) as [->|].
  - by rewrite lookup_insert_eq, Hx.
  - by rewrite lookup_insert_ne.
Qed.

Lemma mem_store_below (m : gmap Z Z) va l a : a < va → (mem_store m va l).2 !! a = m !! a.
Proof.
  revert m va. induction l as [|b l IH]; intros m va Ha; simpl; [done|].
  destruct (m !! va); [|done]. rewrite IH by lia. by rewrite lookup_insert_ne by lia.
Qed.

Lemma mem_load_store (m : gmap Z Z) va l :
  mem_room m va (length l) = length l → mem_load (mem_store m va l).2 va (length l) = (0, l).
Proof.
  revert m va. induction l as [|b l IH]; intros m va; simpl; [done|].
  destruct (m !! va) eqn:E; [|done]. intros [= Hr].
  rewrite mem_store_below, lookup_insert_eq by lia.
  rewrite IH; [done|]. by rewrite mem_room_insert.
Qed.

Lemma mem_load_full (m : gmap Z Z) va n : mem_room m va n = n → length (mem_load m va n).2 = n.
Proof.
  revert va. induction n as [|n IH]; intros va; simpl; [done|].
  destruct (m !! va); [|done]. intros [= Hr%IH].
  destruct (mem_load m (va + 1) n); simpl in *. lia.
Qed.

(** ** What an implementation promises *)
Section sim.
  Context {S T : Type} {KO : KernelOps S} {HS : HasState S T}.

(** [view] is the part of a kernel state that a component's code can see;
    [in_proc] says that a process is running. *)
Class KernelLaws := {
  view : S → solo T;
  in_proc : S → Prop;
  kl_get : ∀ s, lget the_lens s = so_sub (view s);
  kl_put : ∀ t s, in_proc s →
    view (lput the_lens t s) = set_so_sub t (view s) ∧ in_proc (lput the_lens t s);
  kl_acquire : ∀ l s, in_proc s → l ∉ so_held (view s) →
    ∃ s', acquire l s = Ok tt s' ∧
      view s' = set_so_held (l :: so_held (view s)) (view s) ∧ in_proc s';
  kl_release : ∀ l s, in_proc s → l ∈ so_held (view s) →
    ∃ s', release l s = Ok tt s' ∧
      view s' = set_so_held (drop_lock l (so_held (view s))) (view s) ∧ in_proc s';
  kl_wakeup : ∀ c s, in_proc s → (∀ i, Lproc i ∉ so_held (view s)) →
    ∃ s', wakeup c s = Ok tt s' ∧ view s' = view s ∧ in_proc s';
  kl_pid : ∀ s, in_proc s → mypid s = Ok (so_pid (view s)) s;
  kl_killed : ∀ s, in_proc s → (∀ i, Lproc i ∉ so_held (view s)) →
    ∃ s', mykilled s = Ok (so_killed (view s)) s' ∧ view s' = view s ∧ in_proc s';
}.

(** No process lock is held: the condition of [wakeup]. *)
Definition no_plock (h : list lockid) : Prop := ∀ i, Lproc i ∉ h.

Context {KL : KernelLaws}.

(** Whenever the code returns in [solo], it returns the same in [S], and
    leaves the corresponding state. *)
Definition sim {A} (m1 : M (solo T) A) (m2 : M S A) : Prop :=
  ∀ s a v', in_proc s → no_plock (so_held (view s)) → m1 (view s) = Ok a v' →
    no_plock (so_held v') ∧ ∃ s', m2 s = Ok a s' ∧ view s' = v' ∧ in_proc s'.

Lemma sim_ret {A} (a : A) : sim (ret a) (ret a).
Proof. intros s x v Hi Hn [= <- <-]. split; [done|]. exists s. by split. Qed.

Lemma sim_panic {A} msg : sim (panic msg : M _ A) (panic msg).
Proof. intros s x v Hi Hn [=]. Qed.

Lemma sim_diverge {A} (m : M S A) : sim diverge m.
Proof. intros s x v Hi Hn [=]. Qed.

Lemma sim_bind {A B} (m1 : M (solo T) A) (m2 : M S A) (f1 : A → M (solo T) B) f2 :
  sim m1 m2 → (∀ a, sim (f1 a) (f2 a)) → sim (bind m1 f1) (bind m2 f2).
Proof.
  intros Hm Hf s b v Hi Hn (a & v1 & E1 & E2)%bind_inv.
  destruct (Hm s a v1 Hi Hn E1) as (Hn1 & s1 & E & <- & Hi1).
  destruct (Hf a s1 b v Hi1 Hn1 E2) as (Hn2 & s2 & E' & <- & Hi2).
  split; [done|]. exists s2. by rewrite (bind_ok _ _ _ _ _ E).
Qed.

Lemma sim_if {A} (b : bool) (m1 n1 : M (solo T) A) (m2 n2 : M S A) :
  sim m1 m2 → sim n1 n2 → sim (if b then m1 else n1) (if b then m2 else n2).
Proof. by destruct b. Qed.

Lemma sim_mfor {A} (l : list A) f1 f2 :
  (∀ x, sim (f1 x) (f2 x)) → sim (mfor l f1) (mfor l f2).
Proof. intros H. induction l; simpl; [apply sim_ret | by apply sim_bind]. Qed.

Lemma sim_mfold {A B} (l : list A) f1 f2 (b : B) :
  (∀ b x, sim (f1 b x) (f2 b x)) → sim (mfold l f1 b) (mfold l f2 b).
Proof. intros H. revert b. induction l; intros b; simpl; [apply sim_ret | by apply sim_bind]. Qed.

Lemma sim_get {A} (f : T → A) : sim (get f) (get f).
Proof.
  intros s a v Hi Hn [= <- <-]. split; [done|]. exists s. split; [|done].
  unfold get, gets. by rewrite kl_get.
Qed.

Lemma sim_upd (f : T → T) : sim (upd f) (upd f).
Proof.
  intros s a v Hi Hn [= <- <-]. split; [done|]. eexists. split; [reflexivity|].
  rewrite kl_get. by apply kl_put.
Qed.

Definition is_plock (l : lockid) : Prop := ∃ i, l = Lproc i.

Lemma sim_acquire l : ¬ is_plock l → sim (acquire l) (acquire l).
Proof.
  intros Hl s a v Hi Hn. unfold acquire at 1, solo_ops, held_acquire. case_decide as Hd; [done|].
  intros [= <- <-]. split; [|by apply kl_acquire].
  intros i [E|?]%elem_of_cons; [|by apply (Hn i)]. apply Hl. by exists i.
Qed.

Lemma drop_lock_sub l h x : x ∈ drop_lock l h → x ∈ h.
Proof.
  induction h as [|y h IH]; simpl; [done|]. case_decide; [by right|].
  intros [->|?]%elem_of_cons; [by left|right; auto].
Qed.

Lemma sim_release l : sim (release l) (release l).
Proof.
  intros s a v Hi Hn. unfold release at 1, solo_ops, held_release. case_decide as Hd; [|done].
  intros [= <- <-]. split; [|by apply kl_release].
  intros i Hx%drop_lock_sub. by apply (Hn i).
Qed.

Lemma sim_wakeup c : sim (wakeup c) (wakeup c).
Proof. intros s a v Hi Hn [= <- <-]. split; [done|]. by apply kl_wakeup. Qed.

Lemma sim_sleep c l (m : M S unit) : sim (sleep c l) m.
Proof. apply sim_diverge. Qed.

Lemma sim_mypid : sim mypid mypid.
Proof. intros s a v Hi Hn [= <- <-]. split; [done|]. exists s. split; [by apply kl_pid | done]. Qed.

Lemma sim_mykilled : sim mykilled mykilled.
Proof. intros s a v Hi Hn [= <- <-]. split; [done|]. by apply kl_killed. Qed.
Lemma sim_ucopyout va l (m : M S Z) : sim (ucopyout va l) m.
Proof. apply sim_diverge. Qed.
Lemma sim_ucopyin va l (m : M S (Z * list Z)) : sim (ucopyin va l) m.
Proof. apply sim_diverge. Qed.
Lemma sim_mycwd (m : M S nat) : sim mycwd m.
Proof. apply sim_diverge. Qed.
Lemma sim_either_copyout b d l : sim (either_copyout b d l) (either_copyout b d l).
Proof. unfold either_copyout. destruct b; [apply sim_ucopyout|apply sim_ret]. Qed.
Lemma sim_either_copyin c n : sim (either_copyin c n) (either_copyin c n).
Proof. destruct c; [apply sim_ucopyin|apply sim_ret]. Qed.

Lemma sim_wait_while n1 n2 (c1 : M (solo T) bool) (c2 : M S bool) c l :
  sim c1 c2 → sim (wait_while n1 c1 c l) (wait_while n2 c2 c l).
Proof.
  intros Hc. destruct n1, n2; simpl; (apply sim_bind; [done|]; intros []);
    auto using sim_ret, sim_diverge; intros s a v Hi Hn; discriminate.
Qed.
End sim.
Arguments KernelLaws S T {KO HS}.

Create HintDb sim.
#[export] Hint Resolve sim_ret sim_panic sim_diverge
  sim_get sim_upd sim_wait_while sim_release sim_wakeup sim_sleep sim_mypid sim_mykilled
  sim_ucopyout sim_ucopyin sim_mycwd sim_either_copyout sim_either_copyin : sim.
#[export] Hint Extern 2 (sim (acquire _) (acquire _)) =>
  apply sim_acquire; intros [? ?]; discriminate : sim.

(** Walk down the code, one operation at a time. *)
Ltac sim_step :=
  lazymatch goal with
  | |- sim (bind _ _) (bind _ _) => apply sim_bind; [|intros ?]
  | |- sim (if _ then _ else _) _ => apply sim_if
  | |- sim (mfor _ _) _ => apply sim_mfor; intros ?
  | |- sim (mfold _ _ _) _ => apply sim_mfold; intros ? ?
  | |- sim (match ?x with _ => _ end) _ => destruct x
  | |- sim _ _ => solve [eauto 3 with sim nocore]
  end.
Ltac solve_sim := repeat sim_step.
