(* ===== verification/Pipe.v ===== *)
(** * Pipes ([kernel/pipe.c])

    A pipe is a ring of [PIPESIZE] bytes with two counters and two flags that
    say which ends are open; it lives in a page of its own, whose address
    names it.  This file models [pipewrite] and [piperead]; [pipealloc] and
    [pipeclose], which allocate and free the page, are in [File].  The
    theorems are about a process that need not wait. *)

From S2P Require Import Base Ring Kernel.
Local Open Scope Z_scope.
Local Open Scope kernel_scope.

Definition PIPESIZE : Z := 512.

Record pipe := Pipe {
  pi_data : list Z; pi_nread : Z; pi_nwrite : Z; pi_readopen : Z; pi_writeopen : Z }.

Definition set_pi_readopen (v : Z) (p : pipe) : pipe :=
  Pipe (pi_data p) (pi_nread p) (pi_nwrite p) v (pi_writeopen p).
Definition set_pi_writeopen (v : Z) (p : pipe) : pipe :=
  Pipe (pi_data p) (pi_nread p) (pi_nwrite p) (pi_readopen p) v.

(** [pi->data[pi->nwrite++ % PIPESIZE] = ch] *)
Definition pipe_put (ch : Z) (p : pipe) : pipe :=
  Pipe (<[Z.to_nat (pi_nwrite p mod PIPESIZE) := ch]> (pi_data p)) (pi_nread p)
    (u32 (pi_nwrite p + 1)) (pi_readopen p) (pi_writeopen p).

(** [ch = pi->data[pi->nread++ % PIPESIZE]] *)
Definition pipe_peek (p : pipe) : Z := pi_data p !!! Z.to_nat (pi_nread p mod PIPESIZE).
Definition pipe_take (p : pipe) : pipe :=
  Pipe (pi_data p) (u32 (pi_nread p + 1)) (pi_nwrite p) (pi_readopen p) (pi_writeopen p).

(** [pi->nwrite == pi->nread + PIPESIZE] and [pi->nread == pi->nwrite] *)
Definition pipe_full (p : pipe) : bool := pi_nwrite p =? u32 (pi_nread p + PIPESIZE).
Definition pipe_empty (p : pipe) : bool := pi_nread p =? pi_nwrite p.

Abbreviation pipes := (gmap Z pipe).

Section pipe.
  Context {S : Type} {KO : KernelOps S} {HS : HasState S pipes}.

(** Access to a pipe by its address; that of a pipe whose page has been freed
    is an error of the caller. *)
Definition pipe_get {A} (pi : Z) (f : pipe → A) : M S A :=
  o ← get (λ t : pipes, t !! pi);
  match o with Some p => ret (f p) | None => panic "pipe: not allocated" end.

Definition pipe_upd (pi : Z) (f : pipe → pipe) : M S unit :=
  upd (λ t : pipes, alter f pi t).

Definition pipewrite_done (pi i : Z) : M S Z :=
  wakeup (ChPipeRead pi) ;;
  release (Lpipe pi) ;;
  ret i.

Fixpoint pipewrite_loop (fuel : nat) (pi addr n i : Z) : M S Z :=
  if i <? n then
    match fuel with
    | O => diverge
    | Datatypes.S fuel =>
        ro ← pipe_get pi pi_readopen;
        k ← (if ro =? 0 then ret true else mykilled);
        if k : bool then
          release (Lpipe pi) ;;
          ret (-1)
        else
          full ← pipe_get pi pipe_full;
          if full : bool then
            wakeup (ChPipeRead pi) ;;
            sleep (ChPipeWrite pi) (Lpipe pi) ;;
            pipewrite_loop fuel pi addr n i
          else
            ' (r, ch) ← ucopyin (u64 (addr + i)) 1;
            if r =? -1 then pipewrite_done pi i
            else
              pipe_upd pi (pipe_put (hd 0 ch)) ;;
              pipewrite_loop fuel pi addr n (i + 1)
    end
  else pipewrite_done pi i.

Definition pipewrite (pi addr n : Z) : M S Z :=
  acquire (Lpipe pi) ;;
  pipewrite_loop (wakeups + Z.to_nat n) pi addr n 0.

(** The wait for data: [false] when the process has been killed. *)
Fixpoint piperead_wait (fuel : nat) (pi : Z) : M S bool :=
  b ← pipe_get pi (λ p, pipe_empty p && nonzero (pi_writeopen p));
  if b : bool then
    k ← mykilled;
    if k : bool then
      release (Lpipe pi) ;;
      ret false
    else
      match fuel with
      | O => diverge
      | Datatypes.S fuel =>
          sleep (ChPipeRead pi) (Lpipe pi) ;;
          piperead_wait fuel pi
      end
  else ret true.

Fixpoint piperead_loop (fuel : nat) (pi addr n i : Z) : M S Z :=
  match fuel with
  | O => ret i
  | Datatypes.S fuel =>
      if i <? n then
        e ← pipe_get pi pipe_empty;
        if e : bool then ret i
        else
          ch ← pipe_get pi pipe_peek;
          pipe_upd pi pipe_take ;;
          r ← ucopyout (u64 (addr + i)) [ch];
          if r =? -1 then ret i
          else piperead_loop fuel pi addr n (i + 1)
      else ret i
  end.

Definition piperead (pi addr n : Z) : M S Z :=
  acquire (Lpipe pi) ;;
  b ← piperead_wait wakeups pi;
  if b : bool then
    i ← piperead_loop (Z.to_nat n) pi addr n 0;
    wakeup (ChPipeWrite pi) ;;
    release (Lpipe pi) ;;
    ret i
  else ret (-1).
End pipe.

(** ** The queue a pipe holds *)
Definition contents (p : pipe) : list Z :=
  ring (2 ^ 32) PIPESIZE (pi_data p) (pi_nread p) (pi_nwrite p).

Record pipe_wf (p : pipe) : Prop := {
  pw_data : length (pi_data p) = Z.to_nat PIPESIZE;
  pw_nread : 0 ≤ pi_nread p < 2 ^ 32;
  pw_nwrite : 0 ≤ pi_nwrite p < 2 ^ 32;
  pw_count : u32 (pi_nwrite p - pi_nread p) ≤ PIPESIZE;
}.

Lemma contents_length p : length (contents p) = Z.to_nat (u32 (pi_nwrite p - pi_nread p)).
Proof. apply ring_length. Qed.

Lemma pipe_full_spec p :
  pipe_wf p → pipe_full p = true ↔ length (contents p) = Z.to_nat PIPESIZE.
Proof.
  intros [? ? ? ?]. rewrite contents_length. unfold pipe_full, PIPESIZE in *.
  rewrite Z.eqb_eq. ilia.
Qed.

Lemma pipe_empty_spec p : pipe_wf p → pipe_empty p = true ↔ contents p = [].
Proof.
  intros [? ? ? ?]. rewrite <- length_zero_iff_nil, contents_length. unfold pipe_empty, PIPESIZE in *.
  rewrite Z.eqb_eq. ilia.
Qed.

Lemma pipe_put_spec ch p :
  pipe_wf p → (length (contents p) < Z.to_nat PIPESIZE)%nat →
  pipe_wf (pipe_put ch p) ∧ contents (pipe_put ch p) = contents p ++ [ch].
Proof.
  intros [? ? ? ?] Hl. rewrite contents_length in Hl. split.
  - constructor; simpl; [by rewrite length_insert | done | apply u32_bound |].
    unfold PIPESIZE in *. ilia.
  - apply ring_push; [apply ring_ok_512 | done | cbn [pi_nread pipe_put]; unfold PIPESIZE in *; ilia | done].
Qed.

Lemma pipe_take_spec p :
  pipe_wf p → contents p ≠ [] →
  pipe_wf (pipe_take p) ∧ contents p = pipe_peek p :: contents (pipe_take p).
Proof.
  intros [? ? ? ?] Hl. rewrite <- length_zero_iff_nil, contents_length in Hl. split.
  - constructor; simpl; [done | apply u32_bound | done |]. unfold PIPESIZE in *. ilia.
  - apply ring_pop; [apply ring_ok_512 |]. unfold u32 in *. lia.
Qed.

(** ** A process that need not wait *)
Section alone.
  Context (pi : Z).
  Implicit Types (t : pipes) (h : list lockid) (pid : Z) (k : bool) (m : gmap Z Z) (p : pipe).

Lemma pipe_get_ok {A} (f : pipe → A) t h pid k m p :
  t !! pi = Some p → pipe_get pi f (Alone t h pid k m) = Ok (f p) (Alone t h pid k m).
Proof. intros Hp. unfold pipe_get, get. mred. by rewrite Hp. Qed.

Lemma pipe_upd_ok f t h pid k m p :
  t !! pi = Some p →
  pipe_upd pi f (Alone t h pid k m) = Ok tt (Alone (<[pi := f p]> t) h pid k m).
Proof.
  intros Hp. unfold pipe_upd, upd. mred. unfold set_al_sub. cbn.
  by rewrite <- (alter_insert_eq t pi f), insert_id.
Qed.

Lemma pipewrite_done_ok i t h pid k m :
  pipewrite_done pi i (Alone t (Lpipe pi :: h) pid k m) = Ok i (Alone t h pid k m).
Proof.
  unfold pipewrite_done. by rewrite bind_wakeup_alone, bind_release_alone.
Qed.

Lemma pipewrite_loop_ok fuel addr n i t h pid m p :
  t !! pi = Some p → pipe_wf p → pi_readopen p ≠ 0 →
  0 ≤ i → 0 ≤ addr → addr + n ≤ 2 ^ 64 →
  (length (contents p) + Z.to_nat (n - i) ≤ Z.to_nat PIPESIZE)%nat →
  (Z.to_nat (n - i) ≤ fuel)%nat →
  let l := (mem_load m (addr + i) (Z.to_nat (n - i))).2 in
  ∃ p', pipewrite_loop fuel pi addr n i (Alone t (Lpipe pi :: h) pid false m) =
          Ok (i + Z.of_nat (length l)) (Alone (<[pi := p']> t) h pid false m) ∧
        pipe_wf p' ∧ contents p' = contents p ++ l ∧
        pi_readopen p' = pi_readopen p ∧ pi_writeopen p' = pi_writeopen p.
Proof.
  revert i t p. induction fuel as [|fuel IH]; intros i t p Hp Hw Hro Hi Ha Han Hroom Hf;
    cbn [pipewrite_loop]; destruct (i <? n) eqn:Ein; bool_to_prop;
    try (replace (Z.to_nat (n - i)) with 0%nat by lia; cbn zeta; cbn [mem_load snd length];
      exists p; rewrite pipewrite_done_ok, insert_id, app_nil_r, Z.add_0_r by done; done); [lia|].
  rewrite (bind_ok _ _ _ _ _ (pipe_get_ok pi_readopen _ _ _ _ _ _ Hp)).
  apply Z.eqb_neq in Hro as Hro'. rewrite Hro'.
  rewrite bind_mykilled_alone.
  rewrite (bind_ok _ _ _ _ _ (pipe_get_ok pipe_full _ _ _ _ _ _ Hp)).
  destruct (pipe_full p) eqn:Efull; [apply pipe_full_spec in Efull; [lia|done]|].
  replace (Z.to_nat (n - i)) with (S (Z.to_nat (n - (i + 1)))) by lia.
  rewrite u64_small by lia. cbn zeta. cbn [mem_load]. rewrite bind_ucopyin_alone.
  destruct (m !! (addr + i)) as [b|] eqn:Eb.
  - change (0 =? -1) with false. cbn [hd].
    rewrite (bind_ok _ _ _ _ _ (pipe_upd_ok (pipe_put b) _ _ _ _ _ _ Hp)).
    destruct (pipe_put_spec b p) as [Hw' Hc']; [done | lia |].
    destruct (IH (i + 1) (<[pi := pipe_put b p]> t) (pipe_put b p)) as (p' & E & Hwf & Hc & Hr1 & Hr2);
      [by rewrite lookup_insert_eq | done | done | lia | lia | lia | rewrite Hc', length_app; simpl; lia | lia |].
    cbn zeta in E, Hc. rewrite Z.add_assoc in E, Hc.
    destruct (mem_load m (addr + i + 1) _) as [r l] eqn:El. cbn [snd] in *.
    exists p'. rewrite E, insert_insert_eq. split; [f_equal; simpl; lia|]. split; [done|].
    rewrite Hc, Hc', <- app_assoc. done.
  - change (-1 =? -1) with true. cbn [snd length]. exists p.
    rewrite pipewrite_done_ok, insert_id, app_nil_r, Z.add_0_r by done. done.
Qed.

(** The bytes that leave the pipe when [k] are asked for and [j] of them can be
    stored: the byte that could not be stored has already been taken out. *)
Definition taken (j k : nat) : nat := if (j <? k)%nat then S j else k.

Lemma piperead_loop_ok addr n i t h pid kl m p :
  t !! pi = Some p → pipe_wf p → 0 ≤ i → 0 ≤ addr → addr + n ≤ 2 ^ 64 →
  let k := Nat.min (Z.to_nat (n - i)) (length (contents p)) in
  let j := mem_room m (addr + i) k in
  ∃ p', piperead_loop (Z.to_nat (n - i)) pi addr n i (Alone t h pid kl m) =
          Ok (i + Z.of_nat j)
             (Alone (<[pi := p']> t) h pid kl (mem_store m (addr + i) (take k (contents p))).2) ∧
        pipe_wf p' ∧ contents p' = drop (taken j k) (contents p) ∧
        pi_readopen p' = pi_readopen p ∧ pi_writeopen p' = pi_writeopen p.
Proof.
  remember (Z.to_nat (n - i)) as fuel eqn:Hf. revert i t m p Hf.
  induction fuel as [|fuel IH]; intros i t m p Hf Hp Hw Hi Ha Han; cbn [piperead_loop]; cbn zeta.
  { exists p. simpl. by rewrite insert_id, Z.add_0_r. }
  destruct (i <? n) eqn:Ein; bool_to_prop; [|lia].
  rewrite (bind_ok _ _ _ _ _ (pipe_get_ok pipe_empty _ _ _ _ _ _ Hp)).
  destruct (pipe_empty p) eqn:Ee.
  { apply (pipe_empty_spec p Hw) in Ee. exists p. rewrite insert_id, Ee by done.
    rewrite Nat.min_0_r. simpl. by rewrite Z.add_0_r. }
  destruct (pipe_take_spec p Hw) as [Hw' Hc'].
  { intros E%pipe_empty_spec; [congruence | done]. }
  rewrite (bind_ok _ _ _ _ _ (pipe_get_ok pipe_peek _ _ _ _ _ _ Hp)).
  rewrite (bind_ok _ _ _ _ _ (pipe_upd_ok pipe_take _ _ _ _ _ _ Hp)).
  rewrite u64_small by lia. rewrite bind_ucopyout_alone, Hc'. cbn [length Nat.min mem_room take].
  cbn [mem_store]. destruct (m !! (addr + i)) as [x|] eqn:Ex.
  - change (0 =? -1) with false. cbn match.
    destruct (IH (i + 1) (<[pi := pipe_take p]> t) (<[addr + i := pipe_peek p]> m) (pipe_take p))
      as (p' & E & Hwf & Hc & Hr1 & Hr2);
      [lia | by rewrite lookup_insert_eq | done | lia | lia | lia |].
    exists p'. cbn zeta in E, Hc. rewrite Z.add_assoc in E, Hc.
    rewrite mem_room_insert in E, Hc by done. rewrite E, insert_insert_eq.
    split; [f_equal; lia|]. split; [done|]. split; [|done].
    rewrite Hc. unfold taken. change (S ?a <? S ?b)%nat with (a <? b)%nat. by case_if.
  - exists (pipe_take p). change (-1 =? -1) with true. cbn match. rewrite Z.add_0_r. done.
Qed.
End alone.

(** ** Theorems *)

(** A writer that finds room for all its bytes, a reader at the other end
    and is not killed appends to the pipe, in order, every byte up to the
    first address it cannot read, and returns how many these are; its locks,
    its memory and the other pipes are unchanged. *)
Theorem pipewrite_appends pi addr n (t : pipes) h pid m p
    (Hp : t !! pi = Some p) (Hw : pipe_wf p) (Hopen : pi_readopen p ≠ 0)
    (Haddr : 0 ≤ addr ∧ addr + n ≤ 2 ^ 64) (Hlock : Lpipe pi ∉ h)
    (Hroom : (length (contents p) + Z.to_nat n ≤ Z.to_nat PIPESIZE)%nat) :
  let l := (mem_load m addr (Z.to_nat n)).2 in
  ∃ p', pipewrite pi addr n (Alone t h pid false m) =
          Ok (Z.of_nat (length l)) (Alone (<[pi := p']> t) h pid false m) ∧
        pipe_wf p' ∧ contents p' = contents p ++ l ∧
        pi_readopen p' = pi_readopen p ∧ pi_writeopen p' = pi_writeopen p.
Proof.
  unfold pipewrite. rewrite bind_acquire_alone by done. cbn [wakeups alone_ops Nat.add].
  destruct (pipewrite_loop_ok pi (Z.to_nat n) addr n 0 t h pid m p) as (p' & E & H);
    rewrite ?Z.sub_0_r; try done; try lia.
  rewrite ?Z.add_0_r, ?Z.sub_0_r in *. exists p'. by rewrite E.
Qed.

(** C37: a reader that finds bytes in the pipe, or the other end closed, copies
    the oldest ones to its memory, as many as it asks for and there are, and
    returns how many it copied; if it hits an address that is not mapped it
    stops, and the byte that did not fit is gone from the pipe. *)
Theorem piperead_takes pi addr n (t : pipes) h pid kl m p
    (Hp : t !! pi = Some p) (Hw : pipe_wf p) (Hsome : contents p ≠ [] ∨ pi_writeopen p = 0)
    (Haddr : 0 ≤ addr ∧ addr + n ≤ 2 ^ 64) (Hlock : Lpipe pi ∉ h) :
  let k := Nat.min (Z.to_nat n) (length (contents p)) in
  let j := mem_room m addr k in
  ∃ p', piperead pi addr n (Alone t h pid kl m) =
          Ok (Z.of_nat j)
             (Alone (<[pi := p']> t) h pid kl (mem_store m addr (take k (contents p))).2) ∧
        pipe_wf p' ∧ contents p' = drop (if decide (j < k)%nat then S j else k) (contents p) ∧
        pi_readopen p' = pi_readopen p ∧ pi_writeopen p' = pi_writeopen p.
Proof.
  unfold piperead. rewrite bind_acquire_alone by done.
  rewrite (bind_ok _ _ _ true (Alone t (Lpipe pi :: h) pid kl m)).
  2:{ cbn [wakeups alone_ops piperead_wait].
      rewrite (bind_ok _ _ _ _ _ (pipe_get_ok _ _ _ _ _ _ _ _ Hp)).
      destruct (pipe_empty p) eqn:Ee; cbn [andb]; [|done].
      apply (pipe_empty_spec p Hw) in Ee. by destruct Hsome as [?| ->]. }
  destruct (piperead_loop_ok pi addr n 0 t (Lpipe pi :: h) pid kl m p) as (p' & E & Hw' & Hc & H);
    try done; try lia.
  rewrite ?Z.add_0_r, ?Z.sub_0_r in *. cbn zeta in *. exists p'.
  rewrite (bind_ok _ _ _ _ _ E), bind_wakeup_alone, bind_release_alone. split; [done|].
  split; [done|]. split; [|done]. rewrite Hc. f_equal. unfold taken.
  destruct (Nat.ltb_spec (mem_room m addr (Z.to_nat n `min` length (contents p)))
    (Z.to_nat n `min` length (contents p))); case_decide; lia.
Qed.

(** A pipe whose counters are about to wrap, and a process with four bytes of
    memory, two to write from and two to read into. *)
Definition ex_pipe : pipe := Pipe (replicate 512 0) 4294967295 4294967295 1 1.
Definition ex_mem : gmap Z Z := {[ 100 := 7; 101 := 8; 200 := 0; 201 := 0 ]}.

Lemma ex_pipe_wf : pipe_wf ex_pipe.
Proof. constructor; vm_compute; intuition congruence. Qed.

Lemma pipewrite_appends_witness :
  ∃ p', pipewrite 4096 100 2 (Alone {[ 4096 := ex_pipe ]} [] 1 false ex_mem) =
          Ok 2 (Alone (<[4096 := p']> {[ 4096 := ex_pipe ]}) [] 1 false ex_mem) ∧
        contents p' = [7; 8].
Proof.
  destruct (pipewrite_appends 4096 100 2 {[ 4096 := ex_pipe ]} [] 1 ex_mem ex_pipe)
    as (p' & E & _ & Hc & _);
    [done | apply ex_pipe_wf | done | lia | apply not_elem_of_nil | vm_compute; lia |].
  exists p'. split; [exact E | exact Hc].
Defined.

Lemma piperead_takes_witness :
  ∃ p', piperead 4096 201 2 (Alone {[ 4096 := pipe_put 9 (pipe_put 7 ex_pipe) ]} [] 1 false ex_mem) =
          Ok 1 (Alone (<[4096 := p']> {[ 4096 := pipe_put 9 (pipe_put 7 ex_pipe) ]}) [] 1 false
                  (<[201 := 7]> ex_mem)) ∧
        contents p' = [].
Proof.
  destruct (piperead_takes 4096 201 2 {[ 4096 := pipe_put 9 (pipe_put 7 ex_pipe) ]} [] 1 false ex_mem
    (pipe_put 9 (pipe_put 7 ex_pipe))) as (p' & E & _ & Hc & _);
    [done | | left; vm_compute; discriminate | lia | apply not_elem_of_nil |].
  - apply pipe_put_spec; [apply pipe_put_spec; [apply ex_pipe_wf|] |]; vm_compute; lia.
  - exists p'. split; [exact E | exact Hc].
Defined.


