(* ===== verification/Console.v ===== *)
(** * The console and the UART ([kernel/console.c], [kernel/uart.c])

    Input bytes arrive by interrupt ([uartintr]), are edited by
    [consoleintr] in a ring of 128 bytes, and are handed out in lines by
    [consoleread].  Output goes through a ring of 32 bytes that [uartputc]
    fills and [uartstart] empties into the device.

    The 16550 device is outside the program.  Of its registers the code uses:
    the line status register, whose receive bit is set while received bytes
    wait ([dev_rx]) and whose transmit bit is an arbitrary sequence of answers
    ([dev_idle], one per read; a device that has no answer left is busy), and
    the holding registers, one of which hands out the received bytes in order
    and the other sends a byte ([dev_out] is everything sent).  [dev_regs] are
    the writes to control registers. *)

From S2P Require Import Base Ring Kernel.
Local Open Scope Z_scope.
Local Open Scope kernel_scope.

Definition BACKSPACE : Z := 0x100.
(** [C(x)]: control-[x]; [C('@')] is 0. *)
Definition C (x : Z) : Z := x - 64.
Definition NEWLINE : Z := 10.
Definition INPUT_BUF_SIZE : Z := 128.
Definition UART_TX_BUF_SIZE : Z := 32.

(** UART registers and bits. *)
Definition RHR : Z := 0.
Definition THR : Z := 0.
Definition IER : Z := 1.
Definition IER_RX_ENABLE : Z := Z.shiftl 1 0.
Definition IER_TX_ENABLE : Z := Z.shiftl 1 1.
Definition FCR : Z := 2.
Definition FCR_FIFO_ENABLE : Z := Z.shiftl 1 0.
Definition FCR_FIFO_CLEAR : Z := Z.shiftl 3 1.
Definition LCR : Z := 3.
Definition LCR_EIGHT_BITS : Z := Z.shiftl 3 0.
Definition LCR_BAUD_LATCH : Z := Z.shiftl 1 7.

(** The console, the UART driver, [printf]'s lock flag and the device. *)
Record consst := ConsSt {
  cons_buf : list Z;
  cons_r : Z;
  cons_w : Z;
  cons_e : Z;
  uart_tx_buf : list Z;
  uart_tx_w : Z;
  uart_tx_r : Z;
  panicked : bool;
  pr_locking : bool;
  dev_rx : list Z;
  dev_idle : list bool;
  dev_out : list Z;
  dev_regs : list (Z * Z);
}.
Definition set_cons_buf (v : list Z) (r : consst) : consst :=
  ConsSt v (cons_r r) (cons_w r) (cons_e r) (uart_tx_buf r) (uart_tx_w r) (uart_tx_r r) (panicked r) (pr_locking r) (dev_rx r) (dev_idle r) (dev_out r) (dev_regs r).
Definition set_cons_r (v : Z) (r : consst) : consst :=
  ConsSt (cons_buf r) v (cons_w r) (cons_e r) (uart_tx_buf r) (uart_tx_w r) (uart_tx_r r) (panicked r) (pr_locking r) (dev_rx r) (dev_idle r) (dev_out r) (dev_regs r).
Definition set_cons_w (v : Z) (r : consst) : consst :=
  ConsSt (cons_buf r) (cons_r r) v (cons_e r) (uart_tx_buf r) (uart_tx_w r) (uart_tx_r r) (panicked r) (pr_locking r) (dev_rx r) (dev_idle r) (dev_out r) (dev_regs r).
Definition set_cons_e (v : Z) (r : consst) : consst :=
  ConsSt (cons_buf r) (cons_r r) (cons_w r) v (uart_tx_buf r) (uart_tx_w r) (uart_tx_r r) (panicked r) (pr_locking r) (dev_rx r) (dev_idle r) (dev_out r) (dev_regs r).
Definition set_uart_tx_buf (v : list Z) (r : consst) : consst :=
  ConsSt (cons_buf r) (cons_r r) (cons_w r) (cons_e r) v (uart_tx_w r) (uart_tx_r r) (panicked r) (pr_locking r) (dev_rx r) (dev_idle r) (dev_out r) (dev_regs r).
Definition set_uart_tx_w (v : Z) (r : consst) : consst :=
  ConsSt (cons_buf r) (cons_r r) (cons_w r) (cons_e r) (uart_tx_buf r) v (uart_tx_r r) (panicked r) (pr_locking r) (dev_rx r) (dev_idle r) (dev_out r) (dev_regs r).
Definition set_uart_tx_r (v : Z) (r : consst) : consst :=
  ConsSt (cons_buf r) (cons_r r) (cons_w r) (cons_e r) (uart_tx_buf r) (uart_tx_w r) v (panicked r) (pr_locking r) (dev_rx r) (dev_idle r) (dev_out r) (dev_regs r).
Definition set_panicked (v : bool) (r : consst) : consst :=
  ConsSt (cons_buf r) (cons_r r) (cons_w r) (cons_e r) (uart_tx_buf r) (uart_tx_w r) (uart_tx_r r) v (pr_locking r) (dev_rx r) (dev_idle r) (dev_out r) (dev_regs r).
Definition set_pr_locking (v : bool) (r : consst) : consst :=
  ConsSt (cons_buf r) (cons_r r) (cons_w r) (cons_e r) (uart_tx_buf r) (uart_tx_w r) (uart_tx_r r) (panicked r) v (dev_rx r) (dev_idle r) (dev_out r) (dev_regs r).
Definition set_dev_rx (v : list Z) (r : consst) : consst :=
  ConsSt (cons_buf r) (cons_r r) (cons_w r) (cons_e r) (uart_tx_buf r) (uart_tx_w r) (uart_tx_r r) (panicked r) (pr_locking r) v (dev_idle r) (dev_out r) (dev_regs r).
Definition set_dev_idle (v : list bool) (r : consst) : consst :=
  ConsSt (cons_buf r) (cons_r r) (cons_w r) (cons_e r) (uart_tx_buf r) (uart_tx_w r) (uart_tx_r r) (panicked r) (pr_locking r) (dev_rx r) v (dev_out r) (dev_regs r).
Definition set_dev_out (v : list Z) (r : consst) : consst :=
  ConsSt (cons_buf r) (cons_r r) (cons_w r) (cons_e r) (uart_tx_buf r) (uart_tx_w r) (uart_tx_r r) (panicked r) (pr_locking r) (dev_rx r) (dev_idle r) v (dev_regs r).
Definition set_dev_regs (v : list (Z * Z)) (r : consst) : consst :=
  ConsSt (cons_buf r) (cons_r r) (cons_w r) (cons_e r) (uart_tx_buf r) (uart_tx_w r) (uart_tx_r r) (panicked r) (pr_locking r) (dev_rx r) (dev_idle r) (dev_out r) v.

(** [ReadReg(LSR) & LSR_TX_IDLE]: the device's next answer. *)
Definition lsr_idle (t : consst) : bool := hd false (dev_idle t).
Definition lsr_read (t : consst) : consst := set_dev_idle (tl (dev_idle t)) t.

(** The state once a spin on [LSR_TX_IDLE] is over. *)
Fixpoint spin_idle (l : list bool) : option (list bool) :=
  match l with
  | [] => None
  | true :: l => Some l
  | false :: l => spin_idle l
  end.

(** [WriteReg(THR, c)] *)
Definition write_thr (c : Z) (t : consst) : consst := set_dev_out (dev_out t ++ [u8 c]) t.

Definition write_reg (reg v : Z) (t : consst) : consst := set_dev_regs (dev_regs t ++ [(reg, v)]) t.

Section console.
  Context {S : Type} {KO : KernelOps S} {HS : HasState S consst}.

(** ** uart.c *)
Definition uartinit : M S unit :=
  upd (write_reg IER 0x00) ;;
  upd (write_reg LCR LCR_BAUD_LATCH) ;;
  upd (write_reg 0 0x03) ;;
  upd (write_reg 1 0x00) ;;
  upd (write_reg LCR LCR_EIGHT_BITS) ;;
  upd (write_reg FCR (Z.lor FCR_FIFO_ENABLE FCR_FIFO_CLEAR)) ;;
  upd (write_reg IER (Z.lor IER_TX_ENABLE IER_RX_ENABLE)).

(** The loop reads [LSR] once per byte it sends, so that it ends by the time
    the device's answers are used up. *)
Fixpoint uartstart_loop (fuel : nat) : M S unit :=
  match fuel with
  | O => ret tt
  | Datatypes.S fuel =>
      e ← get (λ t, uart_tx_w t =? uart_tx_r t);
      if e : bool then ret tt
      else
        idle ← get lsr_idle;
        upd lsr_read ;;
        if negb idle then ret tt
        else
          c ← get (λ t, uart_tx_buf t !!! Z.to_nat (uart_tx_r t mod UART_TX_BUF_SIZE));
          upd (λ t, set_uart_tx_r (u64 (uart_tx_r t + 1)) t) ;;
          wakeup ChUart ;;
          upd (write_thr c) ;;
          uartstart_loop fuel
  end.

Definition uartstart : M S unit :=
  n ← get (λ t, length (dev_idle t));
  uartstart_loop (Datatypes.S n).

Definition uartputc (c : Z) : M S unit :=
  acquire Luart ;;
  p ← get panicked;
  if p : bool then diverge
  else
    wait_while wakeups (get (λ t, uart_tx_w t =? u64 (uart_tx_r t + UART_TX_BUF_SIZE))) ChUart Luart ;;
    upd (λ t, set_uart_tx_buf (<[Z.to_nat (uart_tx_w t mod UART_TX_BUF_SIZE) := u8 c]> (uart_tx_buf t)) t) ;;
    upd (λ t, set_uart_tx_w (u64 (uart_tx_w t + 1)) t) ;;
    uartstart ;;
    release Luart.

(** [push_off] and [pop_off] around it keep interrupts away, nothing else. *)
Definition uartputc_sync (c : Z) : M S unit :=
  p ← get panicked;
  if p : bool then diverge
  else
    o ← get (λ t, spin_idle (dev_idle t));
    match o with
    | None => diverge
    | Some l =>
        upd (set_dev_idle l) ;;
        upd (write_thr c)
    end.

Definition uartgetc : M S Z :=
  rx ← get dev_rx;
  match rx with
  | c :: rx => upd (set_dev_rx rx) ;; ret c
  | [] => ret (-1)
  end.

(** ** console.c *)
Definition consputc (c : Z) : M S unit :=
  if c =? BACKSPACE then
    uartputc_sync 8 ;; uartputc_sync 32 ;; uartputc_sync 8
  else uartputc_sync c.

Fixpoint consolewrite_loop (fuel : nat) (src : usrc) (n i : Z) : M S Z :=
  match fuel with
  | O => ret i
  | Datatypes.S fuel =>
      if i <? n then
        ' (r, c) ← either_copyin src 1;
        if r =? -1 then ret i
        else
          uartputc (hd 0 c) ;;
          consolewrite_loop fuel (usrc_skip 1 src) n (i + 1)
      else ret i
  end.

Definition consolewrite (src : usrc) (n : Z) : M S Z := consolewrite_loop (Z.to_nat n) src n 0.

(** The wait for input: [false] when the process has been killed. *)
Fixpoint consoleread_wait (fuel : nat) : M S bool :=
  e ← get (λ t, cons_r t =? cons_w t);
  if e : bool then
    k ← mykilled;
    if k : bool then
      release Lcons ;;
      ret false
    else
      match fuel with
      | O => diverge
      | Datatypes.S fuel =>
          sleep ChCons Lcons ;;
          consoleread_wait fuel
      end
  else ret true.

Definition cons_next : M S Z :=
  c ← get (λ t, cons_buf t !!! Z.to_nat (cons_r t mod INPUT_BUF_SIZE));
  upd (λ t, set_cons_r (u32 (cons_r t + 1)) t) ;;
  ret c.

(** The loop: how many bytes are still wanted at its end ([None]: killed), and
    the bytes for a kernel destination. *)
Fixpoint consoleread_loop (fuel : nat) (user_dst : bool) (dst n target : Z) (acc : list Z) :
    M S (option Z * list Z) :=
  match fuel with
  | O => ret (Some n, acc)
  | Datatypes.S fuel =>
      if n >? 0 then
        b ← consoleread_wait wakeups;
        if negb b then ret (None, acc)
        else
          c ← cons_next;
          if c =? C 68 then
            (if u32 n <? target then upd (λ t, set_cons_r (u32 (cons_r t - 1)) t) else ret tt) ;;
            ret (Some n, acc)
          else
            r ← either_copyout user_dst dst [c];
            if r =? -1 then ret (Some n, acc)
            else if c =? NEWLINE then ret (Some (n - 1), acc ++ [c])
            else consoleread_loop fuel user_dst (u64 (dst + 1)) (n - 1) target (acc ++ [c])
      else ret (Some n, acc)
  end.

Definition consoleread (user_dst : bool) (dst n : Z) : M S (Z * list Z) :=
  let target := u32 n in
  acquire Lcons ;;
  ' (o, l) ← consoleread_loop (Z.to_nat n) user_dst dst n target [];
  match o with
  | None => ret (-1, l)
  | Some n =>
      release Lcons ;;
      ret (i32 (u32 (target - n)), l)
  end.

(** [^U]: the ring has [INPUT_BUF_SIZE] places, so that the loop, which stops
    at [cons.w], turns at most that often. *)
Fixpoint kill_line (fuel : nat) : M S unit :=
  match fuel with
  | O => diverge
  | Datatypes.S fuel =>
      go ← get (λ t, negb (cons_e t =? cons_w t) &&
                     negb (cons_buf t !!! Z.to_nat (u32 (cons_e t - 1) mod INPUT_BUF_SIZE) =? NEWLINE));
      if go : bool then
        upd (λ t, set_cons_e (u32 (cons_e t - 1)) t) ;;
        consputc BACKSPACE ;;
        kill_line fuel
      else ret tt
  end.

(** [procdump] is called on [^P]. *)
Definition consoleintr (procdump : M S unit) (c : Z) : M S unit :=
  acquire Lcons ;;
  (if c =? C 80 then procdump
   else if c =? C 85 then kill_line (Datatypes.S (Z.to_nat INPUT_BUF_SIZE))
   else if (c =? C 72) || (c =? 0x7f) then
     ne ← get (λ t, negb (cons_e t =? cons_w t));
     if ne : bool then
       upd (λ t, set_cons_e (u32 (cons_e t - 1)) t) ;;
       consputc BACKSPACE
     else ret tt
   else
     room ← get (λ t, u32 (cons_e t - cons_r t) <? INPUT_BUF_SIZE);
     if negb (c =? 0) && room then
       let c := if c =? 13 then NEWLINE else c in
       consputc c ;;
       upd (λ t, set_cons_buf (<[Z.to_nat (cons_e t mod INPUT_BUF_SIZE) := u8 c]> (cons_buf t)) t) ;;
       upd (λ t, set_cons_e (u32 (cons_e t + 1)) t) ;;
       full ← get (λ t, u32 (cons_e t - cons_r t) =? INPUT_BUF_SIZE);
       if (c =? NEWLINE) || (c =? C 68) || full then
         upd (λ t, set_cons_w (cons_e t) t) ;;
         wakeup ChCons
       else ret tt
     else ret tt) ;;
  release Lcons.

(** Each turn takes one received byte. *)
Fixpoint uartintr_loop (fuel : nat) (procdump : M S unit) : M S unit :=
  match fuel with
  | O => ret tt
  | Datatypes.S fuel =>
      c ← uartgetc;
      if c =? -1 then ret tt
      else
        consoleintr procdump c ;;
        uartintr_loop fuel procdump
  end.

Definition uartintr (procdump : M S unit) : M S unit :=
  n ← get (λ t, length (dev_rx t));
  uartintr_loop (Datatypes.S n) procdump ;;
  acquire Luart ;;
  uartstart ;;
  release Luart.
End console.
