(* ===== verification/ConsoleSpec.v ===== *)
(** * The console: line editing, reading lines, output order

    The input ring, read through [Ring], holds two queues: the lines that are
    ready to be read and the line that is being edited.  [line_step] says what
    a typed character does to them and [read_line] what a read takes; the
    code of [consoleintr] and [consoleread] implements them.  The UART's
    output is a queue: what has been sent, followed by what is waiting, is
    what has been written. *)

From S2P Require Import Base Ring Kernel Console.
Local Open Scope Z_scope.
Local Open Scope kernel_scope.

Definition cring := ring (2 ^ 32) INPUT_BUF_SIZE.
Definition ready (t : consst) : list Z := cring (cons_buf t) (cons_r t) (cons_w t).
Definition edit (t : consst) : list Z := cring (cons_buf t) (cons_w t) (cons_e t).

Record cons_wf (t : consst) : Prop := {
  cw_buf : length (cons_buf t) = Z.to_nat INPUT_BUF_SIZE;
  cw_r : 0 ≤ cons_r t < 2 ^ 32;
  cw_w : 0 ≤ cons_w t < 2 ^ 32;
  cw_e : 0 ≤ cons_e t < 2 ^ 32;
  cw_count : u32 (cons_w t - cons_r t) + u32 (cons_e t - cons_w t) ≤ INPUT_BUF_SIZE;
  cw_line : NEWLINE ∉ edit t;
}.

(** A character typed at a console that holds the lines [rd] and the unfinished
    line [ed]. *)
Definition line_step (rd ed : list Z) (c : Z) : list Z * list Z :=
  if c =? C 80 then (rd, ed)
  else if c =? C 85 then (rd, [])
  else if (c =? C 72) || (c =? 0x7f) then (rd, removelast ed)
  else if negb (c =? 0) && (length rd + length ed <? Z.to_nat INPUT_BUF_SIZE)%nat then
    let c := if c =? 13 then NEWLINE else c in
    if (c =? NEWLINE) || (c =? C 68) ||
       (S (length rd + length ed) =? Z.to_nat INPUT_BUF_SIZE)%nat
    then (rd ++ ed ++ [c], [])
    else (rd, ed ++ [c])
  else (rd, ed).

(** What a read of [n] bytes returns from the ready bytes, and what it leaves;
    [None] when it has to wait for more. *)
Fixpoint read_line (n : nat) (first : bool) (l : list Z) : option (list Z * list Z) :=
  match n with
  | O => Some ([], l)
  | S n =>
      match l with
      | [] => None
      | c :: l' =>
          if c =? C 68 then Some ([], if first then l' else l)
          else if c =? NEWLINE then Some ([c], l')
          else match read_line n false l' with
               | Some (a, r) => Some (c :: a, r)
               | None => None
               end
      end
  end.

Lemma read_line_length n first l a r : read_line n first l = Some (a, r) → (length a ≤ n)%nat.
Proof.
  revert first l a r. induction n as [|n IH]; intros first l a r; simpl; [by intros [= <- <-]|].
  destruct l as [|c l]; [done|]. case_if; [intros [= <- <-]; simpl; lia|].
  case_if; [intros [= <- <-]; simpl; lia|].
  destruct (read_line n false l) as [[a0 r0]|] eqn:E'; [|done].
  intros [= <- <-]. apply IH in E'. simpl. lia.
Qed.

(** How many bytes the device will accept. *)
Fixpoint idle_count (l : list bool) : nat :=
  match l with [] => O | b :: l => (if b then 1 else 0) + idle_count l end%nat.

(** ** Echo *)

(** [t'] is [t] after the bytes [l] have been sent. *)
Record echoed (l : list Z) (t t' : consst) : Prop := {
  ec_buf : cons_buf t' = cons_buf t;
  ec_r : cons_r t' = cons_r t;
  ec_w : cons_w t' = cons_w t;
  ec_e : cons_e t' = cons_e t;
  ec_panicked : panicked t' = panicked t;
  ec_locking : pr_locking t' = pr_locking t;
  ec_out : dev_out t' = dev_out t ++ l;
  ec_idle : idle_count (dev_idle t) = (idle_count (dev_idle t') + length l)%nat;
}.

Lemma echoed_nil t : echoed [] t t.
Proof. constructor; simpl; rewrite ?app_nil_r; lia || done. Qed.

Lemma echoed_trans k l t1 t2 t3 : echoed k t1 t2 → echoed l t2 t3 → echoed (k ++ l) t1 t3.
Proof.
  intros [? ? ? ? ? ? Ho Hi] [? ? ? ? ? ? Ho' Hi']. constructor; try congruence.
  - by rewrite Ho', Ho, app_assoc.
  - rewrite length_app. lia.
Qed.

(** What [consputc] sends. *)
Definition echo_of (c : Z) : list Z := if c =? BACKSPACE then [8; 32; 8] else [u8 c].

Lemma echo_of_length c : (1 ≤ length (echo_of c) ≤ 3)%nat.
Proof. unfold echo_of. case_if; simpl; lia. Qed.

Lemma spin_idle_some l :
  (0 < idle_count l)%nat → ∃ l', spin_idle l = Some l' ∧ S (idle_count l') = idle_count l.
Proof. induction l as [|[] l IH]; simpl; [lia | by exists l | auto]. Qed.

(** ** The two queues *)
Lemma edit_length t : length (edit t) = Z.to_nat (u32 (cons_e t - cons_w t)).
Proof. apply ring_length. Qed.
Lemma ready_length t : length (ready t) = Z.to_nat (u32 (cons_w t - cons_r t)).
Proof. apply ring_length. Qed.

Lemma edit_empty t : cons_wf t → cons_e t = cons_w t ↔ edit t = [].
Proof.
  intros [? ? ? ? ? ?]. rewrite <- length_zero_iff_nil, edit_length.
  unfold INPUT_BUF_SIZE in *. ilia.
Qed.
Lemma ready_empty t : cons_wf t → cons_r t = cons_w t ↔ ready t = [].
Proof.
  intros [? ? ? ? ? ?]. rewrite <- length_zero_iff_nil, ready_length.
  unfold INPUT_BUF_SIZE in *. ilia.
Qed.

Lemma used_count t :
  cons_wf t → u32 (cons_e t - cons_r t) = Z.of_nat (length (ready t) + length (edit t)).
Proof.
  intros [? ? ? ? ? ?]. rewrite Nat2Z.inj_add, edit_length, ready_length.
  unfold INPUT_BUF_SIZE in *. ilia.
Qed.

Lemma echoed_wf k t t' : echoed k t t' → cons_wf t → cons_wf t'.
Proof.
  intros [E1 E2 E3 E4 ? ? ? ?] []. constructor; unfold edit in *; rewrite ?E1, ?E2, ?E3, ?E4; done.
Qed.
Lemma echoed_ready k t t' : echoed k t t' → ready t' = ready t.
Proof. intros [E1 E2 E3 E4 ? ? ? ?]. unfold ready. by rewrite E1, E2, E3. Qed.
Lemma echoed_edit k t t' : echoed k t t' → edit t' = edit t.
Proof. intros [E1 E2 E3 E4 ? ? ? ?]. unfold edit. by rewrite E1, E3, E4. Qed.

(** [cons.e--] takes back the last character of the line. *)
Lemma edit_back t :
  cons_wf t → cons_e t ≠ cons_w t →
  let t' := set_cons_e (u32 (cons_e t - 1)) t in
  cons_wf t' ∧
  edit t = edit t' ++ [cons_buf t !!! Z.to_nat (u32 (cons_e t - 1) mod INPUT_BUF_SIZE)].
Proof.
  intros [? ? ? ? ? Hl] Hne t'.
  assert (E : edit t = edit t' ++ [cons_buf t !!! Z.to_nat (u32 (cons_e t - 1) mod INPUT_BUF_SIZE)]).
  { apply ring_unpush; [apply ring_ok_128|]. unfold INPUT_BUF_SIZE in *. ilia. }
  split; [|done]. constructor; try done; cbn.
  - apply u32_bound.
  - unfold INPUT_BUF_SIZE in *. ilia.
  - rewrite E in Hl. rewrite elem_of_app in Hl. tauto.
Qed.

(** [cons.buf[cons.e++ % INPUT_BUF_SIZE] = c] *)
Definition append (c : Z) (t : consst) : consst :=
  set_cons_e (u32 (cons_e t + 1))
    (set_cons_buf (<[Z.to_nat (cons_e t mod INPUT_BUF_SIZE) := c]> (cons_buf t)) t).

Lemma append_queues c t :
  cons_wf t → (length (ready t) + length (edit t) < Z.to_nat INPUT_BUF_SIZE)%nat →
  ready (append c t) = ready t ∧ edit (append c t) = edit t ++ [c].
Proof.
  intros Hwf Hroom. pose proof (used_count t Hwf) as Hu. destruct Hwf as [? ? ? ? ? ?].
  rewrite edit_length, ready_length in *.
  pose proof (u32_bound (cons_w t - cons_r t)). pose proof (u32_bound (cons_e t - cons_w t)).
  split.
  - apply ring_other; [apply ring_ok_128|].
    change (u32 (cons_w t - cons_r t) ≤ u32 (cons_e t - cons_r t) < INPUT_BUF_SIZE). lia.
  - apply ring_push; [apply ring_ok_128 | done | | done].
    change (u32 (cons_e t - cons_w t) < 128). unfold INPUT_BUF_SIZE in *. lia.
Qed.

(** ** Printing

    Synchronous output needs no locks: what it does is the same in every state
    that contains the console. *)
Section prints.
  Context {S : Type} {KO : KernelOps S} {HS : HasState S consst} {HL : LensLaws (the_lens : lens S consst)}.

(** [f] prints [l]. *)
Definition prints (f : M S unit) (l : list Z) : Prop :=
  ∀ s, panicked (lget the_lens s) = false → (length l ≤ idle_count (dev_idle (lget the_lens s)))%nat →
    ∃ t', f s = Ok tt (lput the_lens t' s) ∧ echoed l (lget the_lens s) t'.

Lemma prints_nil : prints (ret tt) [].
Proof.
  intros s _ _. exists (lget the_lens s). split; [by rewrite lput_get | apply echoed_nil].
Qed.

Lemma prints_bind f g k l : prints f k → prints g l → prints (f ;; g) (k ++ l).
Proof.
  intros Hf Hg s Hp Hi. rewrite length_app in Hi.
  destruct (Hf s) as (t1 & E1 & H1); [done | lia |].
  destruct (Hg (lput the_lens t1 s)) as (t2 & E2 & H2);
    [rewrite lget_put; destruct H1; congruence | rewrite lget_put; destruct H1; lia |].
  rewrite lget_put in H2. rewrite lput_put in E2.
  exists t2. rewrite (bind_ok _ _ _ _ _ E1). split; [done|]. by eapply echoed_trans.
Qed.

Lemma prints_sync c : prints (uartputc_sync c) [u8 c].
Proof.
  intros s Hp Hi. unfold uartputc_sync, get, upd. rewrite bind_gets, Hp, bind_gets.
  destruct (spin_idle_some _ Hi) as (l & -> & Hl). rewrite bind_modify. unfold modify.
  eexists. rewrite lget_put, lput_put. split; [reflexivity|]. constructor; try done. simpl. lia.
Qed.

Lemma prints_consputc c : prints (consputc c) (echo_of c).
Proof.
  unfold consputc, echo_of. destruct (c =? BACKSPACE); [|apply prints_sync].
  apply (prints_bind _ _ [8]); [apply (prints_sync 8)|].
  apply (prints_bind _ _ [32]); [apply (prints_sync 32) | apply (prints_sync 8)].
Qed.

Lemma prints_one c : 0 ≤ c < 256 → prints (consputc c) [c].
Proof.
  intros Hc. assert (Hec : echo_of c = [c]); [|rewrite <- Hec; apply prints_consputc].
  unfold echo_of. rewrite u8_small by lia. case_if; [|done]. unfold BACKSPACE in *. bool_to_prop. lia.
Qed.

Lemma prints_all l : Forall (λ c, 0 ≤ c < 256) l → prints (mfor l consputc) l.
Proof.
  induction 1 as [|c l Hc _ IH]; cbn [mfor]; [apply prints_nil|].
  apply (prints_bind _ _ [c]); [by apply prints_one | done].
Qed.
End prints.

#[export] Instance alone_lens {T} : LensLaws (the_lens : lens (alone T) T).
Proof. split; [done| |done]. by intros []. Qed.

Section alone.
  Implicit Types (t : consst) (h : list lockid) (pid : Z) (kl : bool) (m : gmap Z Z).

Lemma consputc_ok c t h pid kl m :
  panicked t = false → (length (echo_of c) ≤ idle_count (dev_idle t))%nat →
  ∃ t', consputc c (Alone t h pid kl m) = Ok tt (Alone t' h pid kl m) ∧ echoed (echo_of c) t t'.
Proof. exact (prints_consputc c (Alone t h pid kl m)). Qed.

(** One character taken back, with its echo. *)
Lemma erase_ok t h pid kl m :
  cons_wf t → cons_e t ≠ cons_w t → panicked t = false → (3 ≤ idle_count (dev_idle t))%nat →
  ∃ t', (upd (λ t, set_cons_e (u32 (cons_e t - 1)) t) ;; consputc BACKSPACE) (Alone t h pid kl m) =
          Ok tt (Alone t' h pid kl m) ∧
        cons_wf t' ∧ ready t' = ready t ∧ edit t' = removelast (edit t) ∧
        panicked t' = false ∧ (idle_count (dev_idle t) ≤ idle_count (dev_idle t') + 3)%nat.
Proof.
  intros Hwf Hne Hp Hi. destruct (edit_back t Hwf Hne) as [Hwf1 He].
  set (t1 := set_cons_e (u32 (cons_e t - 1)) t) in *.
  destruct (consputc_ok BACKSPACE t1 h pid kl m) as (t' & E & Hec); [done | done |].
  exists t'. rewrite bind_upd_alone. fold t1. split; [done|].
  rewrite (echoed_ready _ _ _ Hec), (echoed_edit _ _ _ Hec), He, removelast_last.
  split; [by eapply echoed_wf|]. destruct Hec as [_ _ _ _ Hpk _ _ Hid].
  rewrite Hpk. change (length (echo_of BACKSPACE)) with 3%nat in Hid.
  change (dev_idle t1) with (dev_idle t) in Hid. do 3 (split; [done|]). lia.
Qed.

Lemma kill_line_ok fuel t h pid kl m :
  cons_wf t → panicked t = false → (3 * length (edit t) ≤ idle_count (dev_idle t))%nat →
  (length (edit t) < fuel)%nat →
  ∃ t', kill_line fuel (Alone t h pid kl m) = Ok tt (Alone t' h pid kl m) ∧
        cons_wf t' ∧ ready t' = ready t ∧ edit t' = [].
Proof.
  revert t. induction fuel as [|fuel IH]; intros t Hwf Hp Hi Hf; [lia|].
  cbn [kill_line]. rewrite bind_get_alone.
  destruct (decide (cons_e t = cons_w t)) as [He|He].
  { rewrite He, Z.eqb_refl. exists t. split; [done|]. split; [done|]. split; [done|].
    by apply edit_empty. }
  destruct (edit_back t Hwf He) as [Hwf1 Hed].
  assert (Hlen : (1 ≤ length (edit t))%nat) by (rewrite Hed, length_app; simpl; lia).
  apply Z.eqb_neq in He as He'. rewrite He'. cbn [negb andb].
  replace (_ =? NEWLINE) with false.
  2:{ symmetry. apply Z.eqb_neq. intros E. destruct Hwf as [_ _ _ _ _ Hl]. apply Hl.
      rewrite Hed, E. apply elem_of_app. right. by apply list_elem_of_singleton. }
  destruct (erase_ok t h pid kl m) as (t1 & E1 & Hwf' & Hr & Hrm & Hp1 & Hi1); [done..|lia|].
  assert (Hl1 : length (edit t1) = (length (edit t) - 1)%nat).
  { rewrite Hrm, Hed, removelast_last, length_app. simpl. lia. }
  destruct (IH t1) as (t' & E' & ? & Hr' & ?); [done | done | lia | lia |].
  exists t'. split; [|by rewrite Hr', Hr].
  cbn [negb]. rewrite bind_upd_alone in E1 |- *. by rewrite (bind_ok _ _ _ _ _ E1).
Qed.

(** The ready bytes include the line once [cons.w] is [cons.e]. *)
Lemma commit_queues t :
  length (cons_buf t) = Z.to_nat INPUT_BUF_SIZE →
  0 ≤ cons_r t < 2 ^ 32 → 0 ≤ cons_w t < 2 ^ 32 → 0 ≤ cons_e t < 2 ^ 32 →
  u32 (cons_w t - cons_r t) + u32 (cons_e t - cons_w t) ≤ INPUT_BUF_SIZE →
  let t' := set_cons_w (cons_e t) t in
  cons_wf t' ∧ ready t' = ready t ++ edit t ∧ edit t' = [].
Proof.
  intros Hb Hr Hw He Hc t'. assert (Hed : edit t' = []) by apply ring_same.
  split; [|split; [|done]].
  - constructor; try done; cbn.
    + unfold INPUT_BUF_SIZE in *. ilia.
    + rewrite Hed. apply not_elem_of_nil.
  - apply ring_app; [apply ring_ok_128|].
    change (u32 (cons_w t - cons_r t) + u32 (cons_e t - cons_w t) < 2 ^ 32).
    unfold INPUT_BUF_SIZE in *. lia.
Qed.

Lemma append_wf c t :
  cons_wf t → c ≠ NEWLINE → (length (ready t) + length (edit t) < Z.to_nat INPUT_BUF_SIZE)%nat →
  cons_wf (append c t).
Proof.
  intros Hwf Hc Hroom. destruct (append_queues c t Hwf Hroom) as [Hr He].
  pose proof Hwf as [? ? ? ? ? ?]. rewrite edit_length, ready_length in Hroom.
  constructor; cbn; try done.
  - by rewrite length_insert.
  - apply u32_bound.
  - unfold INPUT_BUF_SIZE in *. ilia.
  - rewrite He, elem_of_app, list_elem_of_singleton. intuition congruence.
Qed.

Lemma append_commit c t :
  cons_wf t → (length (ready t) + length (edit t) < Z.to_nat INPUT_BUF_SIZE)%nat →
  let t' := set_cons_w (cons_e (append c t)) (append c t) in
  cons_wf t' ∧ ready t' = ready t ++ edit t ++ [c] ∧ edit t' = [].
Proof.
  intros Hwf Hroom t'. destruct (append_queues c t Hwf Hroom) as [Hr He].
  rewrite <- He, <- Hr. destruct Hwf as [? ? ? ? ? ?].
  rewrite edit_length, ready_length in Hroom.
  apply commit_queues; cbn; try done.
  - by rewrite length_insert.
  - apply u32_bound.
  - unfold INPUT_BUF_SIZE in *. ilia.
Qed.

(** The end of a critical section. *)
Lemma finish_ok (l : lockid) (f : M (alone consst) unit) (P : consst → Prop) t h pid kl m :
  (∃ t', f (Alone t (l :: h) pid kl m) = Ok tt (Alone t' (l :: h) pid kl m) ∧ P t') →
  ∃ t', (f ;; release l) (Alone t (l :: h) pid kl m) = Ok tt (Alone t' h pid kl m) ∧ P t'.
Proof. intros (t' & E & H). exists t'. by rewrite (bind_ok _ _ _ _ _ E), release_alone. Qed.

(** The default case of [consoleintr]: a character that is stored. *)
Lemma typed_ok c t h pid kl m :
  cons_wf t → 0 ≤ c < 256 → panicked t = false → (3 ≤ idle_count (dev_idle t))%nat →
  (length (ready t) + length (edit t) < Z.to_nat INPUT_BUF_SIZE)%nat →
  ∃ t', (consputc c ;;
         upd (λ t, set_cons_buf (<[Z.to_nat (cons_e t mod INPUT_BUF_SIZE) := u8 c]> (cons_buf t)) t) ;;
         upd (λ t, set_cons_e (u32 (cons_e t + 1)) t) ;;
         full ← get (λ t, u32 (cons_e t - cons_r t) =? INPUT_BUF_SIZE);
         if (c =? NEWLINE) || (c =? C 68) || full then
           upd (λ t, set_cons_w (cons_e t) t) ;;
           wakeup ChCons
         else ret tt) (Alone t h pid kl m) = Ok tt (Alone t' h pid kl m) ∧
    cons_wf t' ∧
    (ready t', edit t') =
      if (c =? NEWLINE) || (c =? C 68) ||
         (S (length (ready t) + length (edit t)) =? Z.to_nat INPUT_BUF_SIZE)%nat
      then (ready t ++ edit t ++ [c], [])
      else (ready t, edit t ++ [c]).
Proof.
  intros Hwf Hc Hp Hi Hroom.
  destruct (consputc_ok c t h pid kl m) as (t1 & E & Hec);
    [done | pose proof (echo_of_length c); lia |].
  rewrite (bind_ok _ _ _ _ _ E), !bind_upd_alone. rewrite u8_small by lia.
  match goal with |- context [bind _ _ (Alone ?x _ _ _ _)] => change x with (append c t1) end.
  rewrite <- (echoed_ready _ _ _ Hec), <- (echoed_edit _ _ _ Hec) in Hroom |- *.
  assert (Hwf1 : cons_wf t1) by (by eapply echoed_wf).
  destruct (append_queues c t1 Hwf1 Hroom) as [Hr He].
  rewrite bind_get_alone.
  replace (u32 (cons_e (append c t1) - cons_r (append c t1)) =? INPUT_BUF_SIZE) with
    (S (length (ready t1) + length (edit t1)) =? Z.to_nat INPUT_BUF_SIZE)%nat.
  2:{ pose proof (used_count t1 Hwf1) as Hu. destruct Hwf1.
      change (cons_e (append c t1)) with (u32 (cons_e t1 + 1)).
      change (cons_r (append c t1)) with (cons_r t1).
      apply eq_true_iff_eq. rewrite Nat.eqb_eq, Z.eqb_eq.
      unfold INPUT_BUF_SIZE in *. unfold u32 in *. zlia. }
  destruct ((c =? NEWLINE) || (c =? C 68) || _) eqn:Ec.
  - destruct (append_commit c t1 Hwf1 Hroom) as (Hwf2 & Hr2 & He2).
    exists (set_cons_w (cons_e (append c t1)) (append c t1)).
    split; [reflexivity|]. split; [exact Hwf2|]. by rewrite Hr2, He2.
  - exists (append c t1). split; [done|]. rewrite Hr, He. split; [|done].
    apply append_wf; [done | | done]. bool_to_prop. done.
Qed.
End alone.

(** ** Reading *)
Section reading.
  Implicit Types (t : consst) (h : list lockid) (pid : Z) (kl : bool) (m : gmap Z Z).

Lemma cons_next_ok c l t h pid kl m :
  cons_wf t → ready t = c :: l →
  let t' := set_cons_r (u32 (cons_r t + 1)) t in
  cons_next (Alone t h pid kl m) = Ok c (Alone t' h pid kl m) ∧
  cons_wf t' ∧ ready t' = l ∧ edit t' = edit t ∧ set_cons_r (u32 (cons_r t' - 1)) t' = t.
Proof.
  intros Hwf Hr t'. pose proof Hwf as [? ? ? ? ? ?].
  assert (Hpos : 0 < u32 (cons_w t - cons_r t)).
  { pose proof (ready_length t) as Hl. rewrite Hr in Hl. simpl in Hl. lia. }
  pose proof (ring_pop _ _ ring_ok_128 (cons_buf t) _ _ Hpos) as Hp.
  change (ring _ _ _ (cons_r t) (cons_w t)) with (ready t) in Hp. rewrite Hr in Hp.
  injection Hp as Hc Hl. split; [|split; [|split; [|split]]].
  - unfold cons_next. rewrite bind_get_alone, bind_upd_alone. unfold ret. by rewrite Hc.
  - constructor; try done; cbn; [apply u32_bound|]. unfold INPUT_BUF_SIZE in *. ilia.
  - done.
  - done.
  - cbn. replace (u32 (u32 (cons_r t + 1) - 1)) with (cons_r t) by ilia. by destruct t.
Qed.

Lemma consoleread_wait_ok fuel t h pid kl m :
  cons_wf t → ready t ≠ [] → consoleread_wait fuel (Alone t h pid kl m) = Ok true (Alone t h pid kl m).
Proof.
  intros Hwf Hr. destruct fuel; cbn [consoleread_wait]; rewrite bind_get_alone;
    (replace (_ =? _) with false; [done|]); symmetry; apply Z.eqb_neq; intros E; apply Hr;
    by apply ready_empty.
Qed.

Lemma consoleread_loop_ok dst n target acc a l t h pid kl m :
  cons_wf t → 0 ≤ n ≤ target → target < 2 ^ 31 → 0 ≤ dst → dst + n ≤ 2 ^ 64 →
  read_line (Z.to_nat n) (n =? target) (ready t) = Some (a, l) →
  mem_room m dst (length a) = length a →
  ∃ t', consoleread_loop (Z.to_nat n) true dst n target acc (Alone t h pid kl m) =
          Ok (Some (n - Z.of_nat (length a)), acc ++ a) (Alone t' h pid kl (mem_store m dst a).2) ∧
        cons_wf t' ∧ ready t' = l ∧ edit t' = edit t.
Proof.
  remember (Z.to_nat n) as fuel eqn:Hf. revert n dst acc a l t m Hf.
  induction fuel as [|fuel IH]; intros n dst acc a l t m Hf Hwf Hn Ht Hd Hdn Hrl Hm;
    cbn [consoleread_loop read_line] in *.
  { injection Hrl as <- <-. exists t. simpl. rewrite app_nil_r, Z.sub_0_r. done. }
  replace (n >? 0) with true by (symmetry; apply Z.gtb_lt; lia).
  destruct (ready t) as [|c l0] eqn:Hr; [done|].
  rewrite (bind_ok _ _ _ _ _ (consoleread_wait_ok _ t h pid kl m Hwf ltac:(congruence))).
  destruct (cons_next_ok c l0 t h pid kl m Hwf Hr) as (En & Hwf1 & Hr1 & He1 & Hback).
  cbn [negb]. rewrite (bind_ok _ _ _ _ _ En).
  set (t1 := set_cons_r _ t) in *. destruct (c =? C 68) eqn:ED.
  { injection Hrl as <- <-. rewrite u32_small, app_nil_r by lia. simpl. rewrite Z.sub_0_r.
    destruct (n =? target) eqn:Ent; bool_to_prop.
    - rewrite (proj2 (Z.ltb_ge n target)) by lia. exists t1. done.
    - rewrite (proj2 (Z.ltb_lt n target)) by lia. exists t. rewrite bind_upd_alone, Hback. done. }
  unfold either_copyout. destruct (c =? NEWLINE) eqn:EN.
  - injection Hrl as <- <-. simpl in Hm. rewrite bind_ucopyout_alone.
    destruct (m !! dst) eqn:Em; [|done]. exists t1. split; [|done]. simpl. by rewrite Em.
  - destruct (read_line fuel false l0) as [[a0 r0]|] eqn:Erl; [|done]. injection Hrl as <- <-.
    simpl in Hm. rewrite bind_ucopyout_alone. destruct (m !! dst) eqn:Em; [|done].
    change (0 =? -1) with false. cbn match.
    destruct (decide (fuel = 0%nat)) as [->|Hnz].
    { simpl in Erl. injection Erl as <- <-. exists t1. simpl. rewrite Em. done. }
    destruct (IH (n - 1) (dst + 1) (acc ++ [c]) a0 r0 t1 (<[dst := c]> m)) as (t' & E & Hwf' & Hr' & He');
      [lia | done | lia | done | lia | lia | | rewrite mem_room_insert by done; congruence |].
    { rewrite Hr1. replace (n - 1 =? target) with false; [done|]. symmetry. apply Z.eqb_neq. lia. }
    exists t'. rewrite u64_small by lia. rewrite E. simpl. rewrite Em, <- app_assoc.
    split; [do 3 f_equal; lia|]. split; [done|]. split; [done|]. congruence.
Qed.
End reading.

(** ** Output *)
Definition queued (t : consst) : list Z :=
  ring (2 ^ 64) UART_TX_BUF_SIZE (uart_tx_buf t) (uart_tx_r t) (uart_tx_w t).

Record uart_wf (t : consst) : Prop := {
  uw_buf : length (uart_tx_buf t) = Z.to_nat UART_TX_BUF_SIZE;
  uw_bytes : Forall (λ b, 0 ≤ b < 2 ^ 8) (uart_tx_buf t);
  uw_w : 0 ≤ uart_tx_w t < 2 ^ 64;
  uw_r : 0 ≤ uart_tx_r t < 2 ^ 64;
  uw_count : u64 (uart_tx_w t - uart_tx_r t) ≤ UART_TX_BUF_SIZE;
}.

Lemma queued_length t : length (queued t) = Z.to_nat (u64 (uart_tx_w t - uart_tx_r t)).
Proof. apply ring_length. Qed.

(** A byte moved from the buffer to the device. *)
Definition send_one (t : consst) : consst :=
  write_thr (uart_tx_buf t !!! Z.to_nat (uart_tx_r t mod UART_TX_BUF_SIZE))
    (set_uart_tx_r (u64 (uart_tx_r t + 1)) (lsr_read t)).

Lemma send_one_ok t :
  uart_wf t → uart_tx_w t ≠ uart_tx_r t →
  uart_wf (send_one t) ∧
  ∃ c, queued t = c :: queued (send_one t) ∧ dev_out (send_one t) = dev_out t ++ [c].
Proof.
  intros [Hl Hb Hw Hr Hc] Hne.
  assert (Hpos : 0 < u64 (uart_tx_w t - uart_tx_r t)) by (unfold UART_TX_BUF_SIZE in *; ilia).
  assert (Hlt : (Z.to_nat (uart_tx_r t mod UART_TX_BUF_SIZE) < length (uart_tx_buf t))%nat)
    by (rewrite Hl; unfold UART_TX_BUF_SIZE; zlia).
  split.
  - constructor; cbn; try done; [apply u64_bound|]. unfold UART_TX_BUF_SIZE in *. ilia.
  - exists (uart_tx_buf t !!! Z.to_nat (uart_tx_r t mod UART_TX_BUF_SIZE)). split.
    + apply ring_pop; [apply ring_ok_32 | done].
    + cbn. f_equal. f_equal. apply u8_small.
      apply (Forall_lookup_1 _ _ _ _ Hb (list_lookup_lookup_total_lt _ _ Hlt)).
Qed.

(** How many bytes the device accepts without being busy once. *)
Fixpoint idle_run (l : list bool) : nat :=
  match l with true :: l => S (idle_run l) | _ => O end.

Lemma idle_run_length l : (idle_run l ≤ length l)%nat.
Proof. induction l as [|[] l IH]; simpl; lia. Qed.

Section output.
  Implicit Types (t : consst) (h : list lockid) (pid : Z) (kl : bool) (m : gmap Z Z).

Lemma uartstart_loop_ok fuel t h pid kl m :
  uart_wf t →
  ∃ t', uartstart_loop fuel (Alone t h pid kl m) = Ok tt (Alone t' h pid kl m) ∧
        uart_wf t' ∧ dev_out t' ++ queued t' = dev_out t ++ queued t ∧ panicked t' = panicked t ∧
        (length (queued t') ≤ length (queued t))%nat ∧
        ((length (queued t) < fuel)%nat →
         (length (queued t) ≤ idle_run (dev_idle t))%nat → queued t' = []).
Proof.
  revert t. induction fuel as [|fuel IH]; intros t Hwf; cbn [uartstart_loop].
  { exists t. do 5 (split; [done|]). intros. lia. }
  rewrite bind_get_alone. destruct (uart_tx_w t =? uart_tx_r t) eqn:Ee; bool_to_prop.
  { exists t. do 5 (split; [done|]). intros _ _. apply length_zero_iff_nil.
    by rewrite queued_length, Ee, Z.sub_diag. }
  destruct (send_one_ok t Hwf Ee) as (Hwf1 & c & Hq & Ho).
  rewrite bind_get_alone, bind_upd_alone. unfold lsr_idle.
  destruct (dev_idle t) as [|[] l] eqn:Hi; cbn [hd negb].
  - exists (lsr_read t). split; [done|]. split; [by destruct Hwf|]. do 3 (split; [done|]).
    rewrite Hq. simpl. lia.
  - rewrite bind_get_alone, bind_upd_alone, bind_wakeup_alone, bind_upd_alone.
    match goal with |- context [uartstart_loop _ (Alone ?x _ _ _ _)] => change x with (send_one t) end.
    destruct (IH (send_one t) Hwf1) as (t' & E & Hwf' & Ho' & Hp' & Hle & Hd).
    exists t'. split; [done|]. split; [done|].
    split; [rewrite Ho', Hq, Ho, <- app_assoc; done|]. split; [done|].
    rewrite Hq. cbn [length]. split; [lia|]. intros Hf Htw. apply Hd; [lia|].
    cbn [dev_idle send_one write_thr set_dev_out set_uart_tx_r lsr_read set_dev_idle].
    rewrite Hi. simpl in Htw |- *. lia.
  - exists (lsr_read t). split; [done|]. split; [by destruct Hwf|]. do 3 (split; [done|]).
    rewrite Hq. simpl. lia.
Qed.

Lemma uartstart_ok t h pid kl m :
  uart_wf t →
  ∃ t', uartstart (Alone t h pid kl m) = Ok tt (Alone t' h pid kl m) ∧
        uart_wf t' ∧ dev_out t' ++ queued t' = dev_out t ++ queued t ∧ panicked t' = panicked t ∧
        (length (queued t') ≤ length (queued t))%nat ∧
        ((length (queued t) ≤ idle_run (dev_idle t))%nat → queued t' = []).
Proof.
  intros Hwf. unfold uartstart. rewrite bind_get_alone.
  destruct (uartstart_loop_ok (S (length (dev_idle t))) t h pid kl m Hwf) as (t' & ? & ? & ? & ? & ? & Hd).
  exists t'. do 5 (split; [done|]). intros Hl. apply Hd; [|done].
  pose proof (idle_run_length (dev_idle t)). lia.
Qed.

Lemma uartputc_ok c t h pid kl m :
  uart_wf t → panicked t = false → (length (queued t) < Z.to_nat UART_TX_BUF_SIZE)%nat → Luart ∉ h →
  ∃ t', uartputc c (Alone t h pid kl m) = Ok tt (Alone t' h pid kl m) ∧
        uart_wf t' ∧ dev_out t' ++ queued t' = dev_out t ++ queued t ++ [u8 c] ∧
        panicked t' = false ∧ (length (queued t') ≤ S (length (queued t)))%nat.
Proof.
  intros Hwf Hp Hroom Hl. unfold uartputc. rewrite bind_acquire_alone, bind_get_alone, Hp by done.
  pose proof Hwf as [Hlen Hb Hw Hr Hc]. rewrite queued_length in Hroom.
  rewrite (bind_ok _ _ _ tt (Alone t (Luart :: h) pid kl m)).
  2:{ cbn [wakeups alone_ops wait_while]. rewrite bind_get_alone.
      replace (_ =? _) with false; [done|]. symmetry. apply Z.eqb_neq.
      unfold UART_TX_BUF_SIZE in *. ilia. }
  rewrite !bind_upd_alone.
  match goal with |- context [bind uartstart _ (Alone ?x _ _ _ _)] => set (t1 := x) end.
  assert (Hq : queued t1 = queued t ++ [u8 c]).
  { apply ring_push; [apply ring_ok_32 | done | | done].
    change (u64 (uart_tx_w t - uart_tx_r t) < UART_TX_BUF_SIZE). lia. }
  assert (Hwf1 : uart_wf t1).
  { constructor; cbn; try done; [by rewrite length_insert | | apply u64_bound |].
    - apply Forall_insert; [done | apply u8_bound].
    - unfold UART_TX_BUF_SIZE in *. ilia. }
  destruct (uartstart_ok t1 (Luart :: h) pid kl m Hwf1) as (t' & E & Hwf' & Ho & Hp' & Hle & _).
  exists t'. rewrite (bind_ok _ _ _ _ _ E), release_alone. split; [done|]. split; [done|].
  rewrite Ho, Hp', Hq. split; [done|]. split; [done|]. rewrite Hq, length_app in Hle. simpl in Hle. lia.
Qed.

Lemma consolewrite_loop_ok va n i t h pid kl m :
  uart_wf t → panicked t = false → 0 ≤ i → 0 ≤ va → va + (n - i) ≤ 2 ^ 64 - 1 →
  (length (queued t) + Z.to_nat (n - i) ≤ Z.to_nat UART_TX_BUF_SIZE)%nat → Luart ∉ h →
  let l := (mem_load m va (Z.to_nat (n - i))).2 in
  ∃ t', consolewrite_loop (Z.to_nat (n - i)) (FromUser va) n i (Alone t h pid kl m) =
          Ok (i + Z.of_nat (length l)) (Alone t' h pid kl m) ∧
        uart_wf t' ∧ dev_out t' ++ queued t' = dev_out t ++ queued t ++ map u8 l.
Proof.
  remember (Z.to_nat (n - i)) as fuel eqn:Hf. revert va i t Hf.
  induction fuel as [|fuel IH]; intros va i t Hf Hwf Hp Hi Hva Hend Hroom Hlk; cbn zeta;
    cbn [consolewrite_loop mem_load].
  { exists t. simpl. by rewrite Z.add_0_r, app_nil_r. }
  replace (i <? n) with true by (symmetry; apply Z.ltb_lt; lia).
  cbn [either_copyin]. rewrite bind_ucopyin_alone. destruct (m !! va) as [b|] eqn:Eb.
  - change (0 =? -1) with false. cbn match. cbn [hd usrc_skip].
    destruct (uartputc_ok b t h pid kl m) as (t1 & E1 & Hwf1 & Ho1 & Hp1 & Hl1); [done | done | lia | done |].
    rewrite (bind_ok _ _ _ _ _ E1), u64_small by lia.
    destruct (IH (va + 1) (i + 1) t1) as (t' & E & Hwf' & Ho); [lia | done | done | lia | lia | lia | lia | done |].
    exists t'. rewrite E. destruct (mem_load m (va + 1) fuel) as [r l]. cbn [snd length map] in *.
    split; [f_equal; lia|]. split; [done|]. rewrite Ho, app_assoc, Ho1, <- !app_assoc. done.
  - exists t. simpl. by rewrite Z.add_0_r, app_nil_r.
Qed.
End output.

(** ** Theorems *)

(** C34: the console's input interrupt edits the line as it should: a character
    is appended (a carriage return as a newline), delete and [^H] take back
    the last one, [^U] all of them, a newline, [^D] or a full buffer hand the
    line over to the readers, and a character for which there is no room is
    dropped; lines that are ready are never touched. *)
Theorem consoleintr_edits procdump c (t : consst) h pid kl m
    (Hwf : cons_wf t) (Hc : 0 ≤ c < 256) (HP : c ≠ C 80) (Hup : panicked t = false)
    (Hdev : (3 * Z.to_nat INPUT_BUF_SIZE ≤ idle_count (dev_idle t))%nat) (Hlock : Lcons ∉ h) :
  ∃ t', consoleintr procdump c (Alone t h pid kl m) = Ok tt (Alone t' h pid kl m) ∧
        cons_wf t' ∧ (ready t', edit t') = line_step (ready t) (edit t) c.
Proof.
  unfold consoleintr. rewrite bind_acquire_alone by done.
  apply Z.eqb_neq in HP as HP'. unfold line_step. rewrite HP'.
  assert (Hlen : (length (edit t) ≤ Z.to_nat INPUT_BUF_SIZE)%nat).
  { rewrite edit_length. destruct Hwf. pose proof (u32_bound (cons_w t - cons_r t)). lia. }
  apply (finish_ok Lcons). destruct (c =? C 85) eqn:EU.
  { destruct (kill_line_ok (S (Z.to_nat INPUT_BUF_SIZE)) t (Lcons :: h) pid kl m)
      as (t' & E & Hw & Hr & He); [done | done | lia | lia |].
    exists t'. by rewrite E, Hr, He. }
  change (Z.to_nat INPUT_BUF_SIZE) with 128%nat in Hdev.
  destruct ((c =? C 72) || (c =? 127)) eqn:EH.
  { rewrite bind_get_alone. destruct (decide (cons_e t = cons_w t)) as [He|He].
    - rewrite He, Z.eqb_refl. exists t. apply edit_empty in He; [|done]. by rewrite He.
    - apply Z.eqb_neq in He as He'. rewrite He'. cbn [negb].
      destruct (erase_ok t (Lcons :: h) pid kl m) as (t' & E & Hw & Hr & Hrm & _); [done..|lia|].
      exists t'. by rewrite E, Hr, Hrm. }
  rewrite bind_get_alone, used_count by done.
  replace (Z.of_nat _ <? INPUT_BUF_SIZE) with
    (length (ready t) + length (edit t) <? Z.to_nat INPUT_BUF_SIZE)%nat
    by (apply eq_true_iff_eq; rewrite Nat.ltb_lt, Z.ltb_lt; unfold INPUT_BUF_SIZE; lia).
  destruct (negb (c =? 0) && _) eqn:Eroom; [|by exists t].
  apply andb_true_iff in Eroom as [_ Hroom%Nat.ltb_lt].
  apply typed_ok; [done | case_if; unfold NEWLINE; lia | done | lia | done].
Qed.

(** C35: a read of [n] bytes from the console copies to the caller's memory what
    [read_line] says, a whole line or [n] bytes of it, or what comes before a
    [^D], which is left for the next read unless it comes first; it returns
    their number, and leaves the rest and the line being edited. *)
Theorem consoleread_reads dst n a l (t : consst) h pid kl m
    (Hwf : cons_wf t) (Hn : 0 ≤ n < 2 ^ 31) (Hdst : 0 ≤ dst ∧ dst + n ≤ 2 ^ 64)
    (Hline : read_line (Z.to_nat n) true (ready t) = Some (a, l))
    (Hmap : mem_room m dst (length a) = length a) (Hlock : Lcons ∉ h) :
  ∃ t', consoleread true dst n (Alone t h pid kl m) =
          Ok (Z.of_nat (length a), a) (Alone t' h pid kl (mem_store m dst a).2) ∧
        cons_wf t' ∧ ready t' = l ∧ edit t' = edit t.
Proof.
  unfold consoleread. rewrite bind_acquire_alone, u32_small by (done || lia).
  destruct (consoleread_loop_ok dst n n [] a l t (Lcons :: h) pid kl m) as (t' & E & H);
    [done | lia | lia | lia | lia | by rewrite Z.eqb_refl | done |].
  exists t'. rewrite (bind_ok _ _ _ _ _ E), bind_release_alone. split; [|done].
  assert (length a ≤ Z.to_nat n)%nat by (by eapply read_line_length).
  unfold ret. do 2 f_equal. rewrite u32_small, i32_small by lia. lia.
Qed.

(** What a process writes to the console comes out unchanged and in order:
    after [consolewrite] the bytes sent to the device followed by those that
    still wait in the ring are the earlier ones followed by the bytes of the
    process's memory, up to the first address that cannot be read; the return
    value is their number. *)
Theorem consolewrite_order va n (t : consst) h pid kl m
    (Hwf : uart_wf t) (Hup : panicked t = false) (Hva : 0 ≤ va ∧ va + n < 2 ^ 64)
    (Hroom : (length (queued t) + Z.to_nat n ≤ Z.to_nat UART_TX_BUF_SIZE)%nat) (Hlock : Luart ∉ h) :
  let l := (mem_load m va (Z.to_nat n)).2 in
  ∃ t', consolewrite (FromUser va) n (Alone t h pid kl m) =
          Ok (Z.of_nat (length l)) (Alone t' h pid kl m) ∧
        uart_wf t' ∧ dev_out t' ++ queued t' = dev_out t ++ queued t ++ map u8 l.
Proof.
  pose proof (consolewrite_loop_ok va n 0 t h pid kl m) as H. cbn zeta in H.
  rewrite Z.sub_0_r in H. apply H; try done; lia.
Qed.

(** An interrupt from a device that accepts as many bytes as wait sends all
    of them, in order, and leaves the output ring empty. *)
Theorem uartintr_drains procdump (t : consst) h pid kl m
    (Hwf : uart_wf t) (Hrx : dev_rx t = []) (Hlock : Luart ∉ h)
    (Hidle : (length (queued t) ≤ idle_run (dev_idle t))%nat) :
  ∃ t', uartintr procdump (Alone t h pid kl m) = Ok tt (Alone t' h pid kl m) ∧
        dev_out t' = dev_out t ++ queued t ∧ queued t' = [].
Proof.
  unfold uartintr. rewrite bind_get_alone, Hrx. cbn [length uartintr_loop].
  rewrite (bind_ok _ _ _ tt (Alone t h pid kl m)).
  2:{ unfold uartgetc. unfold bind at 1. rewrite bind_get_alone, Hrx. done. }
  rewrite bind_acquire_alone by done.
  destruct (uartstart_ok t (Luart :: h) pid kl m Hwf) as (t' & E & _ & Ho & _ & _ & Hd).
  exists t'. rewrite (bind_ok _ _ _ _ _ E), release_alone. split; [done|].
  rewrite (Hd Hidle), app_nil_r in Ho. by rewrite Hd.
Qed.

(** ** Examples: indices about to wrap, an idle device *)
Definition ex_cons : consst :=
  ConsSt (replicate 128 0) 4294967295 4294967295 4294967295 (replicate 32 0) 0 18446744073709551615
    false true [] (replicate 400 true) [] [].
Definition ex_line : consst :=
  ConsSt (<[127%nat := 104]> (<[0%nat := 10]> (replicate 128 0))) 4294967295 1 1
    (replicate 32 0) 0 0 false true [] (replicate 400 true) [] [].
Definition ex_cmem : gmap Z Z := {[ 64 := 104; 65 := 105 ]}.

Lemma ex_cons_wf : cons_wf ex_cons.
Proof. constructor; vm_compute; try (intuition congruence). by intros ?%elem_of_nil. Qed.
Lemma ex_line_wf : cons_wf ex_line.
Proof. constructor; vm_compute; try (intuition congruence). by intros ?%elem_of_nil. Qed.
Lemma ex_uart_wf : uart_wf ex_cons.
Proof.
  constructor; try (vm_compute; intuition congruence).
  apply Forall_replicate. lia.
Qed.

Lemma consoleintr_edits_witness :
  ∃ t', consoleintr (ret tt) 104 (Alone ex_cons [] 1 false ∅) = Ok tt (Alone t' [] 1 false ∅) ∧
        cons_wf t' ∧ (ready t', edit t') = ([], [104]).
Proof.
  apply (consoleintr_edits (ret tt) 104 ex_cons [] 1 false ∅);
    [apply ex_cons_wf | lia | done | done | vm_compute; lia | apply not_elem_of_nil].
Defined.

Lemma consoleread_reads_witness :
  ∃ t', consoleread true 64 10 (Alone ex_line [] 1 false ex_cmem) =
          Ok (2, [104; 10]) (Alone t' [] 1 false (mem_store ex_cmem 64 [104; 10]).2) ∧
        cons_wf t' ∧ ready t' = [] ∧ edit t' = [].
Proof.
  apply (consoleread_reads 64 10 [104; 10] [] ex_line [] 1 false ex_cmem);
    [apply ex_line_wf | lia | lia | done | done | apply not_elem_of_nil].
Defined.

Lemma consolewrite_order_witness :
  ∃ t', consolewrite (FromUser 64) 3 (Alone ex_cons [] 1 false ex_cmem) =
          Ok 2 (Alone t' [] 1 false ex_cmem) ∧
        uart_wf t' ∧ dev_out t' ++ queued t' = [0; 104; 105].
Proof.
  apply (consolewrite_order 64 3 ex_cons [] 1 false ex_cmem);
    [apply ex_uart_wf | done | lia | vm_compute; lia | apply not_elem_of_nil].
Defined.

Lemma uartintr_drains_witness :
  ∃ t', uartintr (ret tt) (Alone ex_cons [] 1 false ∅) = Ok tt (Alone t' [] 1 false ∅) ∧
        dev_out t' = [0] ∧ queued t' = [].
Proof.
  apply (uartintr_drains (ret tt) ex_cons [] 1 false ∅);
    [apply ex_uart_wf | done | apply not_elem_of_nil | vm_compute; lia].
Defined.
