(* ===== verification/Printf.v ===== *)
(** * Formatted output ([kernel/printf.c])

    [printf] interprets a format and sends the characters to the console.  A
    string is the list of its bytes without the final nul; the variable
    arguments are a list of values with their types. *)

From S2P Require Import Base Ring Kernel Console ConsoleSpec.
Local Open Scope Z_scope.
Local Open Scope kernel_scope.

Inductive parg := AInt (x : Z) | APtr (x : Z) | AStr (s : option (list Z)).

(** [digits[d]] *)
Definition digit (d : Z) : Z := if d <? 10 then 48 + d else 97 + (d - 10).

(** The [do ... while] of [printint]: the digits, least significant first. *)
Fixpoint print_digits (fuel : nat) (x base : Z) : list Z :=
  match fuel with
  | O => []
  | S fuel =>
      digit (x mod base) :: (if x / base =? 0 then [] else print_digits fuel (x / base) base)
  end.

(** [buf] at the end of the loop; 32 turns are enough for a [uint] in any
    base. *)
Definition printint_buf (xx base : Z) (sign : bool) : list Z :=
  let neg := sign && (xx <? 0) in
  let x := if neg then u32 (- xx) else u32 xx in
  print_digits 32 x base ++ (if neg then [45] else []).

Section printf.
  Context {S : Type} {KO : KernelOps S} {HS : HasState S consst}.

Definition printint (xx base : Z) (sign : bool) : M S unit :=
  mfor (rev (printint_buf xx base sign)) consputc.

Fixpoint printptr_loop (n : nat) (x : Z) : M S unit :=
  match n with
  | O => ret tt
  | Datatypes.S n =>
      consputc (digit (Z.shiftr x 60)) ;;
      printptr_loop n (u64 (Z.shiftl x 4))
  end.

Definition printptr (x : Z) : M S unit :=
  consputc 48 ;;
  consputc 120 ;;
  printptr_loop 16 x.

Fixpoint printf_loop (fmt : list Z) (ap : list parg) : M S unit :=
  match fmt with
  | [] => ret tt
  | c :: fmt =>
      if negb (c =? 37) then
        consputc c ;;
        printf_loop fmt ap
      else
        match fmt with
        | [] => ret tt
        | c :: fmt =>
            if c =? 100 then
              match ap with
              | AInt x :: ap => printint x 10 true ;; printf_loop fmt ap
              | _ => panic "va_arg"
              end
            else if c =? 120 then
              match ap with
              | AInt x :: ap => printint x 16 true ;; printf_loop fmt ap
              | _ => panic "va_arg"
              end
            else if c =? 112 then
              match ap with
              | APtr x :: ap => printptr x ;; printf_loop fmt ap
              | _ => panic "va_arg"
              end
            else if c =? 115 then
              match ap with
              | AStr s :: ap =>
                  mfor (default [40; 110; 117; 108; 108; 41] s) consputc ;;
                  printf_loop fmt ap
              | _ => panic "va_arg"
              end
            else if c =? 37 then
              consputc 37 ;;
              printf_loop fmt ap
            else
              consputc 37 ;;
              consputc c ;;
              printf_loop fmt ap
        end
  end.

Definition printf (fmt : list Z) (ap : list parg) : M S unit :=
  locking ← get pr_locking;
  (if locking : bool then acquire Lpr else ret tt) ;;
  printf_loop fmt ap ;;
  (if locking : bool then release Lpr else ret tt).

Definition printfinit : M S unit := upd (set_pr_locking true).
End printf.

(** A string constant as bytes. *)
Definition bytes_of (s : string) : list Z :=
  map (λ a, Z.of_N (Ascii.N_of_ascii a)) (String.list_ascii_of_string s).

(** ** The printed digits denote the number *)
Definition digit_value (c : Z) : Z := if c <? 97 then c - 48 else c - 97 + 10.

Definition value (base : Z) (l : list Z) : Z :=
  fold_left (λ v c, v * base + digit_value c) l 0.

(** The number a string of digits with an optional minus sign denotes. *)
Definition signed_value (base : Z) (l : list Z) : Z :=
  match l with
  | 45 :: l => - value base l
  | l => value base l
  end.

Lemma digit_value_digit d : 0 ≤ d < 16 → digit_value (digit d) = d.
Proof. intros Hd. unfold digit, digit_value. repeat case_if; bool_to_prop; lia. Qed.

Lemma digit_range d : 0 ≤ d < 16 → 48 ≤ digit d < 256.
Proof. intros Hd. unfold digit. case_if; bool_to_prop; lia. Qed.

Lemma print_digits_value fuel x base :
  2 ≤ base ≤ 16 → 0 ≤ x < base ^ Z.of_nat fuel → (0 < fuel)%nat →
  value base (rev (print_digits fuel x base)) = x.
Proof.
  intros Hb. revert x. induction fuel as [|fuel IH]; intros x Hx Hf; [lia|].
  cbn [print_digits]. cbn [rev]. unfold value. rewrite fold_left_app. cbn [fold_left].
  fold (value base (rev (if x / base =? 0 then [] else print_digits fuel (x / base) base))).
  pose proof (Z.mod_pos_bound x base ltac:(lia)). pose proof (Z.div_mod x base ltac:(lia)).
  rewrite digit_value_digit by lia.
  rewrite Nat2Z.inj_succ, Z.pow_succ_r in Hx by lia.
  destruct (x / base =? 0) eqn:E; bool_to_prop; [unfold value; simpl; lia|].
  assert (0 ≤ x / base < base ^ Z.of_nat fuel).
  { split; [apply Z.div_pos; lia|]. apply Z.div_lt_upper_bound; lia. }
  rewrite IH; [lia | done |]. destruct fuel; [simpl in *; lia | lia].
Qed.

Lemma print_digits_range fuel x base :
  2 ≤ base ≤ 16 → 0 ≤ x → Forall (λ c, 48 ≤ c < 256) (print_digits fuel x base).
Proof.
  intros Hb. revert x. induction fuel as [|fuel IH]; intros x Hx; cbn [print_digits]; constructor.
  - apply digit_range. pose proof (Z.mod_pos_bound x base ltac:(lia)). lia.
  - case_if; [done|]. apply IH. apply Z.div_pos; lia.
Qed.

Lemma print_digits_length fuel k x base :
  2 ≤ base → 0 ≤ x < base ^ Z.of_nat k → (0 < k)%nat →
  (length (print_digits fuel x base) ≤ k)%nat.
Proof.
  intros Hb. revert k x. induction fuel as [|fuel IH]; intros k x Hx Hk; cbn [print_digits]; [simpl; lia|].
  destruct k as [|k]; [lia|]. case_if; bool_to_prop; [simpl; lia|].
  cbn [length]. apply le_n_S. rewrite Nat2Z.inj_succ, Z.pow_succ_r in Hx by lia.
  apply IH.
  - split; [apply Z.div_pos; lia|]. apply Z.div_lt_upper_bound; lia.
  - destruct k; [|lia]. simpl in Hx. exfalso. apply E. apply Z.div_small. lia.
Qed.

Lemma signed_value_digits base l :
  Forall (λ c, 48 ≤ c < 256) l → signed_value base l = value base l.
Proof.
  intros [|c l' Hc _]; [done|]. unfold signed_value.
  repeat (destruct c as [|c|c]; try lia; try done).
Qed.

(** The buffer of [printint], read backwards. *)
Lemma printint_buf_spec xx base :
  2 ≤ base ≤ 16 → - 2 ^ 31 ≤ xx < 2 ^ 31 →
  signed_value base (rev (printint_buf xx base true)) = xx ∧
  Forall (λ c, 0 ≤ c < 256) (rev (printint_buf xx base true)).
Proof.
  intros Hb Hx. unfold printint_buf. cbn [andb]. set (x := if xx <? 0 then _ else _).
  assert (Hx0 : 0 ≤ x < base ^ Z.of_nat 32).
  { assert (0 ≤ x < 2 ^ 32) by (unfold x; case_if; apply u32_bound).
    pose proof (Z.pow_le_mono_l 2 base 32 ltac:(lia)). change (Z.of_nat 32) with 32. lia. }
  pose proof (print_digits_range 32 x base Hb ltac:(lia)) as Hr%Forall_rev.
  pose proof (print_digits_value 32 x base Hb Hx0 ltac:(lia)) as Hv.
  assert (Hr0 : Forall (λ c, 0 ≤ c < 256) (rev (print_digits 32 x base))).
  { eapply Forall_impl; [exact Hr|]. simpl. lia. }
  subst x. destruct (xx <? 0) eqn:E; bool_to_prop; rewrite rev_app_distr; cbn [rev app].
  - split; [|constructor; [lia|done]]. cbn [signed_value]. rewrite Hv. ilia.
  - split; [|done]. rewrite signed_value_digits by done. rewrite Hv. ilia.
Qed.

(** The characters of [printptr]. *)
Fixpoint ptr_digits (n : nat) (x : Z) : list Z :=
  match n with
  | O => []
  | S n => digit (Z.shiftr x 60) :: ptr_digits n (u64 (Z.shiftl x 4))
  end.

Lemma value_cons base c l : value base (c :: l) = digit_value c * base ^ Z.of_nat (length l) + value base l.
Proof.
  unfold value. cbn [fold_left]. rewrite Z.mul_0_l, Z.add_0_l.
  assert (H : ∀ a, fold_left (λ v c, v * base + digit_value c) l a =
    a * base ^ Z.of_nat (length l) + fold_left (λ v c, v * base + digit_value c) l 0).
  { induction l as [|d l IH]; intros a; [simpl; lia|]. cbn [fold_left length].
    rewrite IH, (IH (0 * base + digit_value d)), Nat2Z.inj_succ, Z.pow_succ_r by lia. ring. }
  apply H.
Qed.

Lemma ptr_digits_length n x : length (ptr_digits n x) = n.
Proof. revert x. induction n; intros x; simpl; [done | by rewrite IHn]. Qed.

Lemma ptr_digits_range n x : 0 ≤ x < 2 ^ 64 → Forall (λ c, 48 ≤ c < 256) (ptr_digits n x).
Proof.
  revert x. induction n as [|n IH]; intros x Hx; simpl; constructor.
  - apply digit_range. rewrite Z.shiftr_div_pow2 by lia. zlia.
  - apply IH. apply u64_bound.
Qed.

Lemma ptr_digits_value n x :
  (n ≤ 16)%nat → 0 ≤ x < 2 ^ 64 → value 16 (ptr_digits n x) = x / 16 ^ (16 - Z.of_nat n).
Proof.
  revert x. induction n as [|n IH]; intros x Hn Hx.
  { change (16 ^ (16 - Z.of_nat 0)) with (2 ^ 64). rewrite Z.div_small by lia. done. }
  cbn [ptr_digits]. rewrite value_cons, ptr_digits_length.
  rewrite Z.shiftr_div_pow2, Z.shiftl_mul_pow2 by lia.
  rewrite digit_value_digit by zlia. rewrite IH by (lia || apply u64_bound).
  set (P := 16 ^ (16 - Z.of_nat (S n))). set (Q := 16 ^ Z.of_nat n).
  assert (HP : 0 < P) by (apply Z.pow_pos_nonneg; lia).
  assert (HPQ : 2 ^ 60 = P * Q).
  { unfold P, Q. rewrite <- Z.pow_add_r by lia. replace (16 - Z.of_nat (S n) + Z.of_nat n) with 15 by lia. done. }
  replace (16 ^ (16 - Z.of_nat n)) with (P * 16)
    by (unfold P; rewrite Z.mul_comm, <- Z.pow_succ_r by lia; f_equal; lia).
  unfold u64. replace (2 ^ 64) with (P * Q * 16) by lia. change (2 ^ 4) with 16.
  rewrite Z.mul_mod_distr_r, Z.div_mul_cancel_r, HPQ by lia.
  rewrite (Z.div_mod x (P * Q)) at 3 by lia.
  rewrite <- Z.mul_assoc, Z.mul_comm, Z.add_comm.
  replace (P * (Q * (x / (P * Q))) + x mod (P * Q)) with (x mod (P * Q) + (Q * (x / (P * Q))) * P) by ring.
  rewrite Z.div_add by lia. ring.
Qed.

(** ** Rendering *)

(** The characters [printf] prints; [None] when an argument is missing or of
    the wrong type. *)
Fixpoint render (fmt : list Z) (ap : list parg) : option (list Z) :=
  match fmt with
  | [] => Some []
  | c :: fmt =>
      if negb (c =? 37) then cons c <$> render fmt ap
      else
        match fmt with
        | [] => Some []
        | c :: fmt =>
            if c =? 100 then
              match ap with
              | AInt x :: ap => app (rev (printint_buf x 10 true)) <$> render fmt ap
              | _ => None
              end
            else if c =? 120 then
              match ap with
              | AInt x :: ap => app (rev (printint_buf x 16 true)) <$> render fmt ap
              | _ => None
              end
            else if c =? 112 then
              match ap with
              | APtr x :: ap => app ([48; 120] ++ ptr_digits 16 x) <$> render fmt ap
              | _ => None
              end
            else if c =? 115 then
              match ap with
              | AStr s :: ap => app (default [40; 110; 117; 108; 108; 41] s) <$> render fmt ap
              | _ => None
              end
            else if c =? 37 then cons 37 <$> render fmt ap
            else app [37; c] <$> render fmt ap
        end
  end.

Section prints.
  Context {S : Type} {KO : KernelOps S} {HS : HasState S consst} {HL : LensLaws (the_lens : lens S consst)}.

Lemma prints_ptr n x : 0 ≤ x < 2 ^ 64 → prints (printptr_loop n x) (ptr_digits n x).
Proof.
  revert x. induction n as [|n IH]; intros x Hx; cbn [printptr_loop ptr_digits]; [apply prints_nil|].
  apply (prints_bind _ _ [_]); [|apply IH, u64_bound].
  apply prints_one. rewrite Z.shiftr_div_pow2 by lia.
  pose proof (digit_range (x / 2 ^ 60)). zlia.
Qed.

(** Arguments within their C types. *)
Definition arg_ok (a : parg) : Prop :=
  match a with
  | AInt x => - 2 ^ 31 ≤ x < 2 ^ 31
  | APtr x => 0 ≤ x < 2 ^ 64
  | AStr s => Forall (λ c, 0 ≤ c < 256) (default [] s)
  end.

Lemma prints_int x base : 2 ≤ base ≤ 16 → - 2 ^ 31 ≤ x < 2 ^ 31 →
  prints (printint x base true) (rev (printint_buf x base true)).
Proof. intros Hb Hx. apply prints_all. by apply printint_buf_spec. Qed.

Lemma prints_str s : arg_ok (AStr s) →
  prints (mfor (default [40; 110; 117; 108; 108; 41] s) consputc) (default [40; 110; 117; 108; 108; 41] s).
Proof.
  intros Hs. apply prints_all. destruct s; [done|]. simpl. repeat (constructor; [lia|]). constructor.
Qed.

Lemma printf_loop_prints n fmt ap l :
  (length fmt ≤ n)%nat → Forall (λ c, 0 ≤ c < 256) fmt → Forall arg_ok ap →
  render fmt ap = Some l → prints (printf_loop fmt ap) l.
Proof.
  revert fmt ap l. induction n as [|n IH]; intros fmt ap l Hlen Hf Ha Hr.
  { destruct fmt; [|cbn in Hlen; lia]. injection Hr as <-. apply prints_nil. }
  destruct fmt as [|c fmt]; [injection Hr as <-; apply prints_nil|].
  cbn [printf_loop render length] in *.
  apply Forall_cons in Hf as [Hc Hf]. destruct (negb (c =? 37)).
  { apply fmap_Some in Hr as (k & Hk & ->). apply (prints_bind _ _ [c]); [by apply prints_one|].
    apply IH; [lia | done..]. }
  destruct fmt as [|c' fmt]; [injection Hr as <-; apply prints_nil|].
  apply Forall_cons in Hf as [Hc' Hf]. simpl in Hlen.
  repeat (destruct (_ =? _); [destruct ap as [|[] ap]; try done; apply Forall_cons in Ha as [Ha Hap];
    apply fmap_Some in Hr as (k & Hk & ->); apply prints_bind;
    [|apply IH; [lia | done..]]; simpl in Ha|]).
  - apply prints_int; lia || done.
  - apply prints_int; lia || done.
  - apply (prints_bind _ _ [48]); [apply prints_one; lia|].
    apply (prints_bind _ _ [120]); [apply prints_one; lia|]. by apply prints_ptr.
  - by apply prints_str.
  - destruct (_ =? _); apply fmap_Some in Hr as (k & Hk & ->).
    + apply (prints_bind _ _ [37]); [apply prints_one; lia|]. apply IH; [lia | done..].
    + apply (prints_bind _ _ [37]); [apply prints_one; lia|].
      apply (prints_bind _ _ [c']); [by apply prints_one|]. apply IH; [lia | done..].
Qed.
End prints.

(** ** Theorems *)

(** C40: [printint] prints a number's sign and digits: the characters it sends
    denote the number it was given, for every [int] in base 10 and 16 (the
    most negative one included), and fit its buffer of 16 characters. *)
Theorem printint_denotes xx base (t : consst) h pid kl m
    (Hx : - 2 ^ 31 ≤ xx < 2 ^ 31) (Hb : base = 10 ∨ base = 16) (Hup : panicked t = false)
    (Hdev : (16 ≤ idle_count (dev_idle t))%nat) :
  ∃ t' l, printint xx base true (Alone t h pid kl m) = Ok tt (Alone t' h pid kl m) ∧
          dev_out t' = dev_out t ++ l ∧ signed_value base l = xx ∧ (length l ≤ 16)%nat.
Proof.
  assert (Hb' : 2 ≤ base ≤ 16) by (clear - Hb; lia).
  assert (Hlen : (length (rev (printint_buf xx base true)) ≤ 16)%nat).
  { unfold printint_buf. rewrite length_rev, length_app. cbn [andb].
    assert (∀ x, 0 ≤ x < 2 ^ 32 → (length (print_digits 32 x base) ≤ 10)%nat).
    { intros x Hx'. apply print_digits_length; [lia | | lia]. destruct Hb as [-> | ->]; lia. }
    destruct (xx <? 0); [pose proof (H (u32 (- xx)) (u32_bound _)) | pose proof (H (u32 xx) (u32_bound _))];
      cbn [length]; lia. }
  pose proof (printint_buf_spec xx base Hb' Hx) as [Hv _].
  destruct (prints_int xx base Hb' Hx (Alone t h pid kl m)) as (t' & E & He); [done | by etrans |].
  exists t', (rev (printint_buf xx base true)). split; [done|]. by destruct He.
Qed.

Definition ex_pr : consst := ex_cons.
Lemma printint_denotes_witness :
  ∃ t' l, printint (-2147483648) 10 true (Alone ex_pr [] 1 false ∅) = Ok tt (Alone t' [] 1 false ∅) ∧
          dev_out t' = dev_out ex_pr ++ l ∧ signed_value 10 l = -2147483648 ∧ (length l ≤ 16)%nat.
Proof.
  apply (printint_denotes (-2147483648) 10 ex_pr [] 1 false ∅); [lia | by left | done | vm_compute; lia].
Defined.


