(* ===== verification/Sleeplock.v ===== *)
(** * Sleep locks ([kernel/sleeplock.c], [kernel/sleeplock.h])

    A sleep lock is held by a process, not by a CPU: it is a flag with its
    owner's pid, protected by a spinlock; [acquiresleep] sleeps while the flag
    is set.  A component with sleep locks says where they are
    ([SleepLocks]). *)

From S2P Require Import Base Kernel.
Local Open Scope Z_scope.
Local Open Scope kernel_scope.

Record sleeplock := SleepLock { sl_locked : Z; sl_pid : Z }.

Class SleepLocks (T : Type) := {
  sl_get : slockid → T → sleeplock;
  sl_set : slockid → sleeplock → T → T;
}.

Definition initsleeplock : sleeplock := SleepLock 0 0.

Section sleeplock.
  Context {S T : Type} {KO : KernelOps S} {HS : HasState S T} {SL : SleepLocks T}.

Definition acquiresleep (lk : slockid) : M S unit :=
  acquire (Lsleep lk) ;;
  wait_while wakeups (get (λ t, nonzero (sl_locked (sl_get lk t)))) (ChLock lk) (Lsleep lk) ;;
  pid ← mypid;
  upd (sl_set lk (SleepLock 1 pid)) ;;
  release (Lsleep lk).

Definition releasesleep (lk : slockid) : M S unit :=
  acquire (Lsleep lk) ;;
  upd (sl_set lk (SleepLock 0 0)) ;;
  wakeup (ChLock lk) ;;
  release (Lsleep lk).

Definition holdingsleep (lk : slockid) : M S bool :=
  acquire (Lsleep lk) ;;
  pid ← mypid;
  r ← get (λ t, nonzero (sl_locked (sl_get lk t)) && (sl_pid (sl_get lk t) =? pid));
  release (Lsleep lk) ;;
  ret r.
End sleeplock.

Section sim.
  Context {S T : Type} {KO : KernelOps S} {HS : HasState S T} {SL : SleepLocks T}.
  Context {KL : KernelLaws S T}.

Lemma sim_acquiresleep lk : sim (acquiresleep lk) (acquiresleep lk).
Proof. unfold acquiresleep. solve_sim. Qed.
Lemma sim_releasesleep lk : sim (releasesleep lk) (releasesleep lk).
Proof. unfold releasesleep. solve_sim. Qed.
Lemma sim_holdingsleep lk : sim (holdingsleep lk) (holdingsleep lk).
Proof. unfold holdingsleep. solve_sim. Qed.
End sim.
#[export] Hint Resolve sim_acquiresleep sim_releasesleep sim_holdingsleep : sim.

(** ** A process on its own *)
Section solo.
  Context {T : Type} {SL : SleepLocks T}.
  Implicit Types (t : T) (h : list lockid) (pid : Z).

Lemma drop_lock_head l h : drop_lock l (l :: h) = h.
Proof. simpl. by rewrite decide_True. Qed.

Lemma acquire_solo l t h pid :
  l ∉ h → acquire l (Solo t h pid) = Ok tt (Solo t (l :: h) pid).
Proof. intros Hl. cbn. unfold held_acquire. cbn. by rewrite decide_False. Qed.

Lemma release_solo l t h pid : release l (Solo t (l :: h) pid) = Ok tt (Solo t h pid).
Proof.
  cbn. unfold held_release. cbn [so_held]. rewrite decide_True by left.
  unfold set_so_held. cbn. by rewrite decide_True.
Qed.

Lemma bind_get_solo {A B} (f : T → A) (k : A → M (solo T) B) t h pid :
  bind (get f) k (Solo t h pid) = k (f t) (Solo t h pid).
Proof. done. Qed.
Lemma bind_upd_solo {B} (g : T → T) (k : unit → M (solo T) B) t h pid :
  bind (upd g) k (Solo t h pid) = k tt (Solo (g t) h pid).
Proof. done. Qed.
Lemma upd_solo (g : T → T) t h pid : upd g (Solo t h pid) = Ok tt (Solo (g t) h pid).
Proof. done. Qed.
Lemma bind_release_solo {B} l (k : unit → M (solo T) B) t h pid :
  bind (release l) k (Solo t (l :: h) pid) = k tt (Solo t h pid).
Proof. by rewrite (bind_ok _ _ _ _ _ (release_solo l t h pid)). Qed.
Lemma bind_acquire_solo {B} l (k : unit → M (solo T) B) t h pid :
  l ∉ h → bind (acquire l) k (Solo t h pid) = k tt (Solo t (l :: h) pid).
Proof. intros Hl. by rewrite (bind_ok _ _ _ _ _ (acquire_solo l t h pid Hl)). Qed.
Lemma bind_wakeup_solo {B} c (k : unit → M (solo T) B) t h pid :
  bind (wakeup c) k (Solo t h pid) = k tt (Solo t h pid).
Proof. done. Qed.

Lemma acquiresleep_free lk t h pid :
  Lsleep lk ∉ h → sl_locked (sl_get lk t) = 0 →
  acquiresleep lk (Solo t h pid) = Ok tt (Solo (sl_set lk (SleepLock 1 pid) t) h pid).
Proof.
  intros Hh Hf. unfold acquiresleep. rewrite (bind_ok _ _ _ _ _ (acquire_solo _ t h pid Hh)).
  cbn [wait_while wakeups solo_ops]. unfold get. mred. rewrite Hf. cbn. apply release_solo.
Qed.

(** Trying to take a sleep lock that is taken never returns to a process that
    is alone. *)
Lemma acquiresleep_taken lk t h pid :
  Lsleep lk ∉ h → sl_locked (sl_get lk t) ≠ 0 → acquiresleep lk (Solo t h pid) = Diverge.
Proof.
  intros Hh Hf. unfold acquiresleep. rewrite (bind_ok _ _ _ _ _ (acquire_solo _ t h pid Hh)).
  cbn [wait_while wakeups solo_ops]. unfold get, nonzero. mred. apply Z.eqb_neq in Hf.
  by rewrite Hf.
Qed.

Lemma releasesleep_solo lk t h pid :
  Lsleep lk ∉ h →
  releasesleep lk (Solo t h pid) = Ok tt (Solo (sl_set lk (SleepLock 0 0) t) h pid).
Proof.
  intros Hh. unfold releasesleep. rewrite (bind_ok _ _ _ _ _ (acquire_solo _ t h pid Hh)).
  unfold upd. mred. apply release_solo.
Qed.

Lemma holdingsleep_solo lk t h pid :
  Lsleep lk ∉ h →
  holdingsleep lk (Solo t h pid) =
    Ok (nonzero (sl_locked (sl_get lk t)) && (sl_pid (sl_get lk t) =? pid)) (Solo t h pid).
Proof.
  intros Hh. unfold holdingsleep. rewrite (bind_ok _ _ _ _ _ (acquire_solo _ t h pid Hh)).
  unfold get. mred. pose proof (release_solo (Lsleep lk) t h pid) as Hr. cbn in Hr. by rewrite Hr.
Qed.
End solo.
#[export] Hint Rewrite @bind_get_solo @bind_upd_solo @upd_solo @bind_release_solo
  @bind_wakeup_solo @release_solo : krun.
