(* ===== verification/FsState.v ===== *)
(** * The state of the file system

    The records of [kernel/buf.h], [kernel/log.c], [kernel/fs.h] and
    [kernel/file.h] (struct inode), and the disk.  The bytes of a block are a
    list of [BSIZE] numbers.  The disk remembers its writes in order
    ([d_trace]): the states it can be found in after a crash are the prefixes
    of that list. *)

From S2P Require Import Base Riscv Mem Kernel Sleeplock.
Local Open Scope Z_scope.
Local Open Scope kernel_scope.

(** ** [kernel/fs.h] *)
Definition ROOTINO : Z := 1.
Definition BSIZE : Z := 1024.
Definition FSMAGIC : Z := 0x10203040.
Definition NDIRECT : Z := 12.
Definition NINDIRECT : Z := BSIZE / 4.
Definition MAXFILE : Z := NDIRECT + NINDIRECT.
Definition sizeof_dinode : Z := 64.
Definition IPB : Z := BSIZE / sizeof_dinode.
Definition BPB : Z := BSIZE * 8.
Definition DIRSIZ : Z := 14.
Definition sizeof_dirent : Z := 16.

Record superblock := Superblock {
  sb_magic : Z;
  sb_size : Z;
  sb_nblocks : Z;
  sb_ninodes : Z;
  sb_nlog : Z;
  sb_logstart : Z;
  sb_inodestart : Z;
  sb_bmapstart : Z;
}.
Definition set_sb_magic (v : Z) (r : superblock) : superblock :=
  Superblock v (sb_size r) (sb_nblocks r) (sb_ninodes r) (sb_nlog r) (sb_logstart r) (sb_inodestart r) (sb_bmapstart r).
Definition set_sb_size (v : Z) (r : superblock) : superblock :=
  Superblock (sb_magic r) v (sb_nblocks r) (sb_ninodes r) (sb_nlog r) (sb_logstart r) (sb_inodestart r) (sb_bmapstart r).
Definition set_sb_nblocks (v : Z) (r : superblock) : superblock :=
  Superblock (sb_magic r) (sb_size r) v (sb_ninodes r) (sb_nlog r) (sb_logstart r) (sb_inodestart r) (sb_bmapstart r).
Definition set_sb_ninodes (v : Z) (r : superblock) : superblock :=
  Superblock (sb_magic r) (sb_size r) (sb_nblocks r) v (sb_nlog r) (sb_logstart r) (sb_inodestart r) (sb_bmapstart r).
Definition set_sb_nlog (v : Z) (r : superblock) : superblock :=
  Superblock (sb_magic r) (sb_size r) (sb_nblocks r) (sb_ninodes r) v (sb_logstart r) (sb_inodestart r) (sb_bmapstart r).
Definition set_sb_logstart (v : Z) (r : superblock) : superblock :=
  Superblock (sb_magic r) (sb_size r) (sb_nblocks r) (sb_ninodes r) (sb_nlog r) v (sb_inodestart r) (sb_bmapstart r).
Definition set_sb_inodestart (v : Z) (r : superblock) : superblock :=
  Superblock (sb_magic r) (sb_size r) (sb_nblocks r) (sb_ninodes r) (sb_nlog r) (sb_logstart r) v (sb_bmapstart r).
Definition set_sb_bmapstart (v : Z) (r : superblock) : superblock :=
  Superblock (sb_magic r) (sb_size r) (sb_nblocks r) (sb_ninodes r) (sb_nlog r) (sb_logstart r) (sb_inodestart r) v.

Definition IBLOCK (i : Z) (sb : superblock) : Z := i / IPB + sb_inodestart sb.
Definition BBLOCK (b : Z) (sb : superblock) : Z := b / BPB + sb_bmapstart sb.

(** ** Buffers, log and inodes in memory

    [prev] and [next] point to a buffer by its index; index [NBUF] is
    [bcache.head]. *)
Record buf := Buf {
  b_valid : Z;
  b_dev : Z;
  b_blockno : Z;
  b_lock : sleeplock;
  b_refcnt : Z;
  b_prev : nat;
  b_next : nat;
  b_data : list Z;
}.
Definition set_b_valid (v : Z) (r : buf) : buf :=
  Buf v (b_dev r) (b_blockno r) (b_lock r) (b_refcnt r) (b_prev r) (b_next r) (b_data r).
Definition set_b_dev (v : Z) (r : buf) : buf :=
  Buf (b_valid r) v (b_blockno r) (b_lock r) (b_refcnt r) (b_prev r) (b_next r) (b_data r).
Definition set_b_blockno (v : Z) (r : buf) : buf :=
  Buf (b_valid r) (b_dev r) v (b_lock r) (b_refcnt r) (b_prev r) (b_next r) (b_data r).
Definition set_b_lock (v : sleeplock) (r : buf) : buf :=
  Buf (b_valid r) (b_dev r) (b_blockno r) v (b_refcnt r) (b_prev r) (b_next r) (b_data r).
Definition set_b_refcnt (v : Z) (r : buf) : buf :=
  Buf (b_valid r) (b_dev r) (b_blockno r) (b_lock r) v (b_prev r) (b_next r) (b_data r).
Definition set_b_prev (v : nat) (r : buf) : buf :=
  Buf (b_valid r) (b_dev r) (b_blockno r) (b_lock r) (b_refcnt r) v (b_next r) (b_data r).
Definition set_b_next (v : nat) (r : buf) : buf :=
  Buf (b_valid r) (b_dev r) (b_blockno r) (b_lock r) (b_refcnt r) (b_prev r) v (b_data r).
Definition set_b_data (v : list Z) (r : buf) : buf :=
  Buf (b_valid r) (b_dev r) (b_blockno r) (b_lock r) (b_refcnt r) (b_prev r) (b_next r) v.

Definition buf0 : buf := Buf 0 0 0 initsleeplock 0 0 0 [].

Record logst := Log {
  lg_start : Z;
  lg_size : Z;
  lg_outstanding : Z;
  lg_committing : Z;
  lg_dev : Z;
  lg_n : Z;
  lg_block : list Z;
}.
Definition set_lg_start (v : Z) (r : logst) : logst :=
  Log v (lg_size r) (lg_outstanding r) (lg_committing r) (lg_dev r) (lg_n r) (lg_block r).
Definition set_lg_size (v : Z) (r : logst) : logst :=
  Log (lg_start r) v (lg_outstanding r) (lg_committing r) (lg_dev r) (lg_n r) (lg_block r).
Definition set_lg_outstanding (v : Z) (r : logst) : logst :=
  Log (lg_start r) (lg_size r) v (lg_committing r) (lg_dev r) (lg_n r) (lg_block r).
Definition set_lg_committing (v : Z) (r : logst) : logst :=
  Log (lg_start r) (lg_size r) (lg_outstanding r) v (lg_dev r) (lg_n r) (lg_block r).
Definition set_lg_dev (v : Z) (r : logst) : logst :=
  Log (lg_start r) (lg_size r) (lg_outstanding r) (lg_committing r) v (lg_n r) (lg_block r).
Definition set_lg_n (v : Z) (r : logst) : logst :=
  Log (lg_start r) (lg_size r) (lg_outstanding r) (lg_committing r) (lg_dev r) v (lg_block r).
Definition set_lg_block (v : list Z) (r : logst) : logst :=
  Log (lg_start r) (lg_size r) (lg_outstanding r) (lg_committing r) (lg_dev r) (lg_n r) v.

Record inode := Inode {
  i_dev : Z;
  i_inum : Z;
  i_ref : Z;
  i_lock : sleeplock;
  i_valid : Z;
  i_type : Z;
  i_major : Z;
  i_minor : Z;
  i_nlink : Z;
  i_size : Z;
  i_addrs : list Z;
}.
Definition set_i_dev (v : Z) (r : inode) : inode :=
  Inode v (i_inum r) (i_ref r) (i_lock r) (i_valid r) (i_type r) (i_major r) (i_minor r) (i_nlink r) (i_size r) (i_addrs r).
Definition set_i_inum (v : Z) (r : inode) : inode :=
  Inode (i_dev r) v (i_ref r) (i_lock r) (i_valid r) (i_type r) (i_major r) (i_minor r) (i_nlink r) (i_size r) (i_addrs r).
Definition set_i_ref (v : Z) (r : inode) : inode :=
  Inode (i_dev r) (i_inum r) v (i_lock r) (i_valid r) (i_type r) (i_major r) (i_minor r) (i_nlink r) (i_size r) (i_addrs r).
Definition set_i_lock (v : sleeplock) (r : inode) : inode :=
  Inode (i_dev r) (i_inum r) (i_ref r) v (i_valid r) (i_type r) (i_major r) (i_minor r) (i_nlink r) (i_size r) (i_addrs r).
Definition set_i_valid (v : Z) (r : inode) : inode :=
  Inode (i_dev r) (i_inum r) (i_ref r) (i_lock r) v (i_type r) (i_major r) (i_minor r) (i_nlink r) (i_size r) (i_addrs r).
Definition set_i_type (v : Z) (r : inode) : inode :=
  Inode (i_dev r) (i_inum r) (i_ref r) (i_lock r) (i_valid r) v (i_major r) (i_minor r) (i_nlink r) (i_size r) (i_addrs r).
Definition set_i_major (v : Z) (r : inode) : inode :=
  Inode (i_dev r) (i_inum r) (i_ref r) (i_lock r) (i_valid r) (i_type r) v (i_minor r) (i_nlink r) (i_size r) (i_addrs r).
Definition set_i_minor (v : Z) (r : inode) : inode :=
  Inode (i_dev r) (i_inum r) (i_ref r) (i_lock r) (i_valid r) (i_type r) (i_major r) v (i_nlink r) (i_size r) (i_addrs r).
Definition set_i_nlink (v : Z) (r : inode) : inode :=
  Inode (i_dev r) (i_inum r) (i_ref r) (i_lock r) (i_valid r) (i_type r) (i_major r) (i_minor r) v (i_size r) (i_addrs r).
Definition set_i_size (v : Z) (r : inode) : inode :=
  Inode (i_dev r) (i_inum r) (i_ref r) (i_lock r) (i_valid r) (i_type r) (i_major r) (i_minor r) (i_nlink r) v (i_addrs r).
Definition set_i_addrs (v : list Z) (r : inode) : inode :=
  Inode (i_dev r) (i_inum r) (i_ref r) (i_lock r) (i_valid r) (i_type r) (i_major r) (i_minor r) (i_nlink r) (i_size r) v.

Definition inode0 : inode := Inode 0 0 0 initsleeplock 0 0 0 0 0 0 [].

Record disk := Disk {
  d_blocks : gmap Z (list Z);
  d_trace : list (Z * list Z);
}.
Definition set_d_blocks (v : gmap Z (list Z)) (r : disk) : disk := Disk v (d_trace r).
Definition set_d_trace (v : list (Z * list Z)) (r : disk) : disk := Disk (d_blocks r) v.

(** The file system: [bcache], the disk, [log], [sb], [itable]. *)
Record fsst := Fsst {
  f_bufs : list buf;
  f_disk : disk;
  f_log : logst;
  f_sb : superblock;
  f_itable : list inode;
}.
Definition set_f_bufs (v : list buf) (r : fsst) : fsst :=
  Fsst v (f_disk r) (f_log r) (f_sb r) (f_itable r).
Definition set_f_disk (v : disk) (r : fsst) : fsst :=
  Fsst (f_bufs r) v (f_log r) (f_sb r) (f_itable r).
Definition set_f_log (v : logst) (r : fsst) : fsst :=
  Fsst (f_bufs r) (f_disk r) v (f_sb r) (f_itable r).
Definition set_f_sb (v : superblock) (r : fsst) : fsst :=
  Fsst (f_bufs r) (f_disk r) (f_log r) v (f_itable r).
Definition set_f_itable (v : list inode) (r : fsst) : fsst :=
  Fsst (f_bufs r) (f_disk r) (f_log r) (f_sb r) v.

Definition buf_at (i : nat) (t : fsst) : buf := default buf0 (f_bufs t !! i).
Definition inode_at (i : nat) (t : fsst) : inode := default inode0 (f_itable t !! i).
Definition mod_buf (i : nat) (g : buf → buf) (t : fsst) : fsst := set_f_bufs (alter g i (f_bufs t)) t.
Definition mod_inode (i : nat) (g : inode → inode) (t : fsst) : fsst :=
  set_f_itable (alter g i (f_itable t)) t.
Definition mod_log (g : logst → logst) (t : fsst) : fsst := set_f_log (g (f_log t)) t.

#[export] Instance fs_sleeplocks : SleepLocks fsst := {|
  sl_get l t := match l with
                | SLbuf i => b_lock (buf_at i t)
                | SLinode i => i_lock (inode_at i t)
                end;
  sl_set l v t := match l with
                  | SLbuf i => mod_buf i (set_b_lock v) t
                  | SLinode i => mod_inode i (set_i_lock v) t
                  end;
|}.

(** ** The disk *)
Definition zero_block : list Z := replicate 1024 0.
Definition disk_block (d : disk) (b : Z) : list Z := default zero_block (d_blocks d !! b).
Definition disk_write (b : Z) (v : list Z) (d : disk) : disk :=
  Disk (<[b := v]> (d_blocks d)) (d_trace d ++ [(b, v)]).

(** The disk after the writes [w], from contents [m]. *)
Definition apply_writes (w : list (Z * list Z)) (m : gmap Z (list Z)) : gmap Z (list Z) :=
  foldl (λ m bw, <[bw.1 := bw.2]> m) m w.

Lemma apply_writes_app w1 w2 m :
  apply_writes (w1 ++ w2) m = apply_writes w2 (apply_writes w1 m).
Proof. apply foldl_app. Qed.

(** ** Numbers inside a block *)
Definition blk_get (n : nat) (off : Z) (d : list Z) : Z := le_val (take n (drop (Z.to_nat off) d)).
Definition blk_put (n : nat) (off v : Z) (d : list Z) : list Z :=
  take (Z.to_nat off) d ++ le_bytes n v ++ drop (Z.to_nat off + n) d.

Lemma blk_put_length n off v d :
  0 ≤ off → off + Z.of_nat n ≤ Z.of_nat (length d) → length (blk_put n off v d) = length d.
Proof.
  intros H0 Hn. unfold blk_put. rewrite !length_app, length_take, length_drop, le_bytes_length. lia.
Qed.

Lemma blk_get_put n off v d :
  0 ≤ off → off + Z.of_nat n ≤ Z.of_nat (length d) →
  blk_get n off (blk_put n off v d) = v mod 256 ^ Z.of_nat n.
Proof.
  intros H0 Hn. unfold blk_get, blk_put.
  rewrite drop_app_length' by (rewrite length_take; lia).
  rewrite take_app_length' by (by rewrite le_bytes_length). apply le_val_bytes.
Qed.

Lemma blk_get_put_ne n k off off' v d :
  0 ≤ off → off + Z.of_nat n ≤ Z.of_nat (length d) → 0 ≤ off' →
  off' + Z.of_nat k ≤ off ∨ off + Z.of_nat n ≤ off' →
  blk_get k off' (blk_put n off v d) = blk_get k off' d.
Proof.
  intros H0 Hn H0' Hdis. unfold blk_get, blk_put. f_equal. destruct Hdis.
  - rewrite drop_app_le by (rewrite length_take; lia).
    rewrite take_app_le by (rewrite length_drop, length_take; lia).
    apply list_eq. intros i. destruct (decide (i < k)%nat).
    + by rewrite !lookup_take_lt, !lookup_drop, lookup_take_lt by lia.
    + by rewrite !lookup_take_ge by lia.
  - rewrite drop_app_ge by (rewrite length_take; lia). rewrite length_take.
    rewrite drop_app_ge by (rewrite le_bytes_length; lia). rewrite le_bytes_length, drop_drop.
    f_equal. f_equal. lia.
Qed.
