(* ===== verification/Bio.v ===== *)
(** * The buffer cache ([kernel/bio.c])

    The buffers form a doubly linked list through [prev] and [next], most
    recently used first.  [lru_list] relates the pointers to the list of
    buffer indices; [bget] is shown to search that list in both directions,
    [brelse] to move the buffer to its front.  [disk_rw] is what the disk
    driver does for the cache: it transfers one block. *)

From S2P Require Import Base Riscv Mem Kernel Sleeplock FsState.
Local Open Scope Z_scope.
Local Open Scope kernel_scope.

(** The index of [bcache.head]. *)
Definition HEAD : nat := Z.to_nat NBUF.

(** ** The linked list *)
Definition bnext (l : list buf) (i : nat) : nat := b_next (default buf0 (l !! i)).
Definition bprev (l : list buf) (i : nat) : nat := b_prev (default buf0 (l !! i)).
Definition put_next (i v : nat) (l : list buf) : list buf := alter (set_b_next v) i l.
Definition put_prev (i v : nat) (l : list buf) : list buf := alter (set_b_prev v) i l.

(** [b->next = head.next; b->prev = &head; head.next->prev = b; head.next = b;] *)
Definition link_front (b : nat) (l : list buf) : list buf :=
  let l := put_next b (bnext l HEAD) l in
  let l := put_prev b HEAD l in
  let l := put_prev (bnext l HEAD) b l in
  put_next HEAD b l.

(** [b->next->prev = b->prev; b->prev->next = b->next;] *)
Definition unlink (b : nat) (l : list buf) : list buf :=
  let l := put_prev (bnext l b) (bprev l b) l in
  put_next (bprev l b) (bnext l b) l.

Definition binit_list (l : list buf) : list buf :=
  let l := put_prev HEAD HEAD l in
  let l := put_next HEAD HEAD l in
  foldl (λ l b, link_front b (alter (set_b_lock initsleeplock) b l)) l (seq 0 HEAD).

(** Is the block already cached?  [None] when the list does not end. *)
Fixpoint find_cached (fuel : nat) (l : list buf) (b : nat) (dev blockno : Z) : option (option nat) :=
  match fuel with
  | O => None
  | S fuel =>
      if decide (b = HEAD) then Some None else
      let x := default buf0 (l !! b) in
      if (b_dev x =? dev) && (b_blockno x =? blockno) then Some (Some b)
      else find_cached fuel l (b_next x) dev blockno
  end.

(** The least recently used unused buffer. *)
Fixpoint find_unused (fuel : nat) (l : list buf) (b : nat) : option (option nat) :=
  match fuel with
  | O => None
  | S fuel =>
      if decide (b = HEAD) then Some None else
      let x := default buf0 (l !! b) in
      if b_refcnt x =? 0 then Some (Some b) else find_unused fuel l (b_prev x)
  end.

Section bio.
  Context {S : Type} {KO : KernelOps S} {HS : HasState S fsst}.

Definition binit : M S unit := upd (λ t, set_f_bufs (binit_list (f_bufs t)) t).

Definition bget (dev blockno : Z) : M S nat :=
  acquire Lbcache ;;
  bufs ← get f_bufs;
  match find_cached (Datatypes.S HEAD) bufs (bnext bufs HEAD) dev blockno with
  | None => diverge
  | Some (Some b) =>
      upd (mod_buf b (λ x, set_b_refcnt (u32 (b_refcnt x + 1)) x)) ;;
      release Lbcache ;;
      acquiresleep (SLbuf b) ;;
      ret b
  | Some None =>
      match find_unused (Datatypes.S HEAD) bufs (bprev bufs HEAD) with
      | None => diverge
      | Some (Some b) =>
          upd (mod_buf b (set_b_dev dev)) ;;
          upd (mod_buf b (set_b_blockno blockno)) ;;
          upd (mod_buf b (set_b_valid 0)) ;;
          upd (mod_buf b (set_b_refcnt 1)) ;;
          release Lbcache ;;
          acquiresleep (SLbuf b) ;;
          ret b
      | Some None => panic "bget: no buffers"
      end
  end.

(** The driver's transfer of one block between buffer [b] and the disk. *)
Definition disk_rw (b : nat) (write : bool) : M S unit :=
  if write then
    upd (λ t, set_f_disk (disk_write (b_blockno (buf_at b t)) (b_data (buf_at b t)) (f_disk t)) t)
  else
    upd (λ t, mod_buf b (set_b_data (disk_block (f_disk t) (b_blockno (buf_at b t)))) t).

Definition bread (dev blockno : Z) : M S nat :=
  b ← bget dev blockno;
  valid ← get (λ t, b_valid (buf_at b t));
  (if valid =? 0 then disk_rw b false ;; upd (mod_buf b (set_b_valid 1)) else ret tt) ;;
  ret b.

Definition bwrite (b : nat) : M S unit :=
  h ← holdingsleep (SLbuf b);
  if negb h then panic "bwrite" else
  disk_rw b true.

Definition brelse (b : nat) : M S unit :=
  h ← holdingsleep (SLbuf b);
  if negb h then panic "brelse" else
  releasesleep (SLbuf b) ;;
  acquire Lbcache ;;
  upd (mod_buf b (λ x, set_b_refcnt (u32 (b_refcnt x - 1)) x)) ;;
  r ← get (λ t, b_refcnt (buf_at b t));
  (if r =? 0 then upd (λ t, set_f_bufs (link_front b (unlink b (f_bufs t))) t) else ret tt) ;;
  release Lbcache.

Definition bpin (b : nat) : M S unit :=
  acquire Lbcache ;;
  upd (mod_buf b (λ x, set_b_refcnt (u32 (b_refcnt x + 1)) x)) ;;
  release Lbcache.

Definition bunpin (b : nat) : M S unit :=
  acquire Lbcache ;;
  upd (mod_buf b (λ x, set_b_refcnt (u32 (b_refcnt x - 1)) x)) ;;
  release Lbcache.
End bio.

Section sim.
  Context {S : Type} {KO : KernelOps S} {HS : HasState S fsst} {KL : KernelLaws S fsst}.

Lemma sim_bget dev b : sim (bget dev b) (bget dev b).
Proof. unfold bget. solve_sim. Qed.
Lemma sim_disk_rw b w : sim (disk_rw b w) (disk_rw b w).
Proof. unfold disk_rw. solve_sim. Qed.
#[local] Hint Resolve sim_bget sim_disk_rw : sim.
Lemma sim_bread dev b : sim (bread dev b) (bread dev b).
Proof. unfold bread. solve_sim. Qed.
Lemma sim_bwrite b : sim (bwrite b) (bwrite b).
Proof. unfold bwrite. solve_sim. Qed.
Lemma sim_brelse b : sim (brelse b) (brelse b).
Proof. unfold brelse. solve_sim. Qed.
Lemma sim_bpin b : sim (bpin b) (bpin b).
Proof. unfold bpin. solve_sim. Qed.
Lemma sim_bunpin b : sim (bunpin b) (bunpin b).
Proof. unfold bunpin. solve_sim. Qed.
End sim.
#[export] Hint Resolve sim_bget sim_disk_rw sim_bread sim_bwrite sim_brelse sim_bpin sim_bunpin : sim.
