(* ===== verification/BioList.v ===== *)
(** * The LRU list of the buffer cache

    The [next]/[prev] pointers represent a list of buffer indices, most
    recently used first; the pointer surgery of [binit] and [brelse] and the
    two searches of [bget] are list operations. *)

From S2P Require Import Base Riscv Mem Kernel Sleeplock FsState Bio.
Local Open Scope Z_scope.
Local Open Scope kernel_scope.

(** Following [f] from [x] visits exactly [l] and then reaches [y]. *)
Fixpoint seg (f : nat → nat) (x : nat) (l : list nat) (y : nat) : Prop :=
  match l with
  | [] => f x = y
  | z :: l => f x = z ∧ seg f z l y
  end.

Lemma seg_app f x p z q y : seg f x (p ++ z :: q) y ↔ seg f x p z ∧ seg f z q y.
Proof. revert x. induction p as [|w p IH]; intros x; simpl; [done|]. rewrite IH. tauto. Qed.

Lemma seg_ext f g x l y : (∀ i, i ∈ x :: l → g i = f i) → seg f x l y → seg g x l y.
Proof.
  revert x. induction l as [|z l IH]; intros x Hfg; simpl.
  - by rewrite Hfg by left.
  - intros [Hx Hl]. split; [by rewrite Hfg by left|]. apply IH; [|done]. set_solver.
Qed.

Lemma seg_first f x l y : seg f x l y → f x = default y (head l).
Proof. destruct l; simpl; [done|]. by intros [? _]. Qed.

(** Taking [b] out: the node before it gets its successor. *)
Lemma seg_unlink f g h b p q :
  NoDup (h :: p ++ b :: q) → seg f h (p ++ b :: q) h →
  g (default h (last p)) = f b → (∀ i, i ≠ default h (last p) → i ≠ b → g i = f i) →
  seg g h (p ++ q) h.
Proof.
  intros Hnd [Hp Hq]%seg_app Hg Hext. apply NoDup_cons in Hnd as [Hh Hnd].
  apply NoDup_app in Hnd as (Hndp & Hpq & [Hbq Hndq]%NoDup_cons).
  assert (∀ z q', z :: q' = q → seg f z q' h → seg g z q' h) as Htail.
  { intros z q' <- Hs. eapply seg_ext; [|exact Hs]. intros i Hi. apply Hext; [|set_solver].
    destruct (last p) as [w|] eqn:El; simpl; [|set_solver].
    apply last_Some_elem_of in El. set_solver. }
  destruct (last p) as [w|] eqn:El.
  - apply last_Some in El as [p' ->]. simpl in Hg. rewrite <- app_assoc. simpl.
    apply seg_app in Hp as [Hp Hw]. apply seg_app. split.
    + eapply seg_ext; [|exact Hp]. intros i Hi. apply Hext; simpl; [|set_solver].
      apply NoDup_app in Hndp as (_ & Hd & _). intros ->. set_solver.
    + destruct q as [|z q']; simpl in *; [by rewrite Hg|]. destruct Hq as [Hz Hq].
      split; [by rewrite Hg|]. by apply Htail.
  - apply last_None in El as ->. simpl in *.
    destruct q as [|z q']; simpl in *; [by rewrite Hg|]. destruct Hq as [Hz Hq].
    split; [by rewrite Hg|]. by apply Htail.
Qed.

(** Putting [b] in front. *)
Lemma seg_push f g h b l :
  NoDup (h :: b :: l) → seg f h l h → g h = b → g b = f h → (∀ i, i ≠ h → i ≠ b → g i = f i) →
  seg g h (b :: l) h.
Proof.
  intros Hnd Hs Hh Hb Hext. split; [done|]. apply NoDup_cons in Hnd as [Hn1 [Hn2 _]%NoDup_cons].
  destruct l as [|z l]; simpl in *; [by rewrite Hb|]. destruct Hs as [Hz Hs].
  split; [by rewrite Hb|]. eapply seg_ext; [|exact Hs]. intros i Hi. apply Hext; set_solver.
Qed.

(** Putting [b] at the end. *)
Lemma seg_push_back f g h b l :
  NoDup (h :: b :: l) → seg f h l h → g (default h (last l)) = b → g b = h →
  (∀ i, i ≠ default h (last l) → i ≠ b → g i = f i) → seg g h (l ++ [b]) h.
Proof.
  intros Hnd Hs Hl Hb Hext. apply seg_app. split; [|done].
  apply NoDup_cons in Hnd as [Hn1 [Hn2 Hndl]%NoDup_cons].
  destruct (last l) as [w|] eqn:El.
  - apply last_Some in El as [l' ->]. simpl in *. apply seg_app in Hs as [Hs Hw].
    apply seg_app. split; [|done]. eapply seg_ext; [|exact Hs]. intros i Hi.
    apply NoDup_app in Hndl as (_ & Hd & _). apply Hext; set_solver.
  - by apply last_None in El as ->.
Qed.

(** ** The list of buffers *)
Definition bindex (l : list nat) : Prop := NoDup l ∧ ∀ i, i ∈ l → (i < HEAD)%nat.

Record lru_list (bufs : list buf) (l : list nat) : Prop := {
  ll_index : bindex l;
  ll_len : length bufs = S HEAD;
  ll_next : seg (bnext bufs) HEAD l HEAD;
  ll_prev : seg (bprev bufs) HEAD (reverse l) HEAD;
}.

Lemma bindex_head l : bindex l → NoDup (HEAD :: l).
Proof. intros [Hnd Hl]. apply NoDup_cons. split; [|done]. intros H%Hl. lia. Qed.

Lemma length_put_next i v bufs : length (put_next i v bufs) = length bufs.
Proof. apply length_alter. Qed.
Lemma length_put_prev i v bufs : length (put_prev i v bufs) = length bufs.
Proof. apply length_alter. Qed.

Lemma default_alter (g : buf → buf) i j bufs :
  (i < length bufs)%nat →
  default buf0 (alter g i bufs !! j) = if decide (j = i) then g (default buf0 (bufs !! j))
                                       else default buf0 (bufs !! j).
Proof.
  intros Hi. case_decide as Hd.
  - subst. rewrite list_lookup_alter_eq. destruct (lookup_lt_is_Some_2 bufs i Hi) as [x ->]. done.
  - by rewrite list_lookup_alter_ne.
Qed.

Lemma bnext_put_next i v j bufs :
  (i < length bufs)%nat → bnext (put_next i v bufs) j = if decide (j = i) then v else bnext bufs j.
Proof. intros Hi. unfold bnext, put_next. rewrite default_alter by done. by case_decide. Qed.
Lemma bprev_put_prev i v j bufs :
  (i < length bufs)%nat → bprev (put_prev i v bufs) j = if decide (j = i) then v else bprev bufs j.
Proof. intros Hi. unfold bprev, put_prev. rewrite default_alter by done. by case_decide. Qed.
Lemma bnext_put_prev i v j bufs : (i < length bufs)%nat → bnext (put_prev i v bufs) j = bnext bufs j.
Proof. intros Hi. unfold bnext, put_prev. rewrite default_alter by done. by case_decide. Qed.
Lemma bprev_put_next i v j bufs : (i < length bufs)%nat → bprev (put_next i v bufs) j = bprev bufs j.
Proof. intros Hi. unfold bprev, put_next. rewrite default_alter by done. by case_decide. Qed.

Lemma lru_index bufs l i :
  lru_list bufs l → i ∈ HEAD :: l → (i < length bufs)%nat.
Proof.
  intros [[_ Hl] Hlen _ _]. rewrite Hlen. intros [->|?%Hl]%elem_of_cons; lia.
Qed.

Lemma head_in {A} (d : A) l : default d (head l) ∈ d :: l.
Proof. destruct l; simpl; [by left|]. right. by left. Qed.
Lemma last_in {A} (d : A) l : default d (last l) ∈ d :: l.
Proof. destruct (last l) eqn:E; simpl; [|by left]. right. by apply last_Some_elem_of. Qed.
Lemma last_reverse' {A} (l : list A) : last (reverse l) = head l.
Proof. destruct l; [done|]. rewrite reverse_cons, last_snoc. done. Qed.
Lemma head_reverse' {A} (l : list A) : head (reverse l) = last l.
Proof. by rewrite <- (reverse_involutive l) at 2; rewrite last_reverse'. Qed.

Lemma NoDup_rev {A} (l : list A) : NoDup l → NoDup (reverse l).
Proof. intros H. by rewrite reverse_Permutation. Qed.

Lemma unlink_spec bufs p b q :
  lru_list bufs (p ++ b :: q) → lru_list (unlink b bufs) (p ++ q).
Proof.
  intros LL. pose proof LL as [Hi Hlen Hn Hp]. pose proof (bindex_head _ Hi) as Hnd.
  pose proof Hn as [_ Hnb]%seg_app. apply seg_first in Hnb.
  pose proof Hp as Hp'. rewrite reverse_app, reverse_cons, <- app_assoc in Hp'.
  pose proof Hp' as [_ Hpb]%seg_app. apply seg_first in Hpb. rewrite head_reverse' in Hpb.
  set (n := default HEAD (head q)) in *. set (pr := default HEAD (last p)) in *.
  assert (n ∈ HEAD :: p ++ b :: q) as Hnin by (pose proof (head_in HEAD q); set_solver).
  assert (pr ∈ HEAD :: p ++ b :: q) as Hprin by (pose proof (last_in HEAD p); set_solver).
  pose proof (lru_index _ _ _ LL Hnin) as Hnl. pose proof (lru_index _ _ _ LL Hprin) as Hprl.
  assert (n ≠ b ∧ pr ≠ b) as [Hnb' Hprb].
  { apply NoDup_cons in Hnd as [Hh Hnd]. apply NoDup_app in Hnd as (_ & Hd & [Hbq _]%NoDup_cons).
    pose proof (head_in HEAD q) as H1. pose proof (last_in HEAD p) as H2. fold n in H1. fold pr in H2.
    split; intros E; [rewrite E in H1|rewrite E in H2]; clear -Hh Hd Hbq H1 H2; set_solver. }
  unfold unlink. rewrite Hnb, Hpb. rewrite bprev_put_prev, bnext_put_prev by done.
  rewrite decide_False by done. rewrite Hpb, Hnb. split.
  - destruct Hi as [Hi1 Hi2]. split; [|set_solver].
    apply NoDup_app in Hi1 as (? & Hd & [? ?]%NoDup_cons). apply NoDup_app. set_solver.
  - by rewrite length_put_next, length_put_prev.
  - apply (seg_unlink (bnext bufs) _ HEAD b); [done..| |].
    + rewrite bnext_put_next by (by rewrite length_put_prev). by rewrite decide_True, Hnb.
    + intros i Hi1 Hi2. rewrite bnext_put_next by (by rewrite length_put_prev).
      rewrite decide_False by done. by rewrite bnext_put_prev.
  - rewrite reverse_app. apply (seg_unlink (bprev bufs) _ HEAD b); [|done|..].
    + replace (reverse q ++ b :: reverse p) with (reverse (p ++ b :: q))
        by (by rewrite reverse_app, reverse_cons, <- app_assoc).
      apply NoDup_cons in Hnd as [Hh Hnd]. apply NoDup_cons.
      split; [by rewrite elem_of_reverse|by apply NoDup_rev].
    + rewrite last_reverse'. fold n. rewrite bprev_put_next by (by rewrite length_put_prev).
      rewrite bprev_put_prev by done. by rewrite decide_True, Hpb.
    + rewrite last_reverse'. fold n. intros i Hi1 Hi2.
      rewrite bprev_put_next by (by rewrite length_put_prev).
      rewrite bprev_put_prev by done. by rewrite decide_False.
Qed.

Lemma link_front_spec bufs b l :
  lru_list bufs l → b ∉ l → (b < HEAD)%nat → lru_list (link_front b bufs) (b :: l).
Proof.
  intros LL Hb Hlt. pose proof LL as [Hi Hlen Hn Hp]. pose proof (bindex_head _ Hi) as Hnd.
  pose proof (seg_first _ _ _ _ Hn) as Hh. set (n := default HEAD (head l)) in *.
  pose proof (lru_index _ _ _ LL (head_in HEAD l)) as Hnl. fold n in Hnl.
  assert (n ≠ b) as Hnb by (pose proof (head_in HEAD l) as H1; fold n in H1; intros E; rewrite E in H1;
    apply elem_of_cons in H1 as [H1|H1]; [lia|done]).
  assert (NoDup (HEAD :: b :: l)) as Hnd'.
  { apply NoDup_cons in Hnd as [? ?]. apply NoDup_cons. split; [|by apply NoDup_cons].
    intros [E|?]%elem_of_cons; [lia|done]. }
  unfold link_front. rewrite Hh.
  assert (bnext (put_prev b HEAD (put_next b n bufs)) HEAD = n) as ->.
  { rewrite bnext_put_prev, bnext_put_next by (rewrite ?length_put_next; lia).
    by rewrite decide_False by lia. }
  split.
  - destruct Hi as [Hi1 Hi2]. split; [by apply NoDup_cons|]. intros i [->|?]%elem_of_cons; auto.
  - by rewrite length_put_next, !length_put_prev, length_put_next.
  - apply (seg_push (bnext bufs)); try done.
    + rewrite bnext_put_next by (rewrite !length_put_prev, length_put_next; lia). by rewrite decide_True.
    + rewrite bnext_put_next by (rewrite !length_put_prev, length_put_next; lia).
      rewrite decide_False by lia.
      rewrite !bnext_put_prev, bnext_put_next by (rewrite ?length_put_prev, ?length_put_next; lia).
      by rewrite decide_True, Hh.
    + intros i Hi1 Hi2.
      rewrite bnext_put_next by (rewrite !length_put_prev, length_put_next; lia).
      rewrite !bnext_put_prev, bnext_put_next by (rewrite ?length_put_prev, ?length_put_next; lia).
      by rewrite !decide_False by done.
  - rewrite reverse_cons. apply (seg_push_back (bprev bufs)); try done.
    + apply NoDup_cons in Hnd' as [? [? ?]%NoDup_cons]. apply NoDup_cons. split.
      * rewrite elem_of_cons, elem_of_reverse. set_solver.
      * apply NoDup_cons. rewrite elem_of_reverse. split; [done|by apply NoDup_rev].
    + rewrite last_reverse'. fold n.
      rewrite bprev_put_next, bprev_put_prev
        by (rewrite ?length_put_prev, ?length_put_next; lia). by rewrite decide_True.
    + rewrite bprev_put_next, bprev_put_prev
        by (rewrite ?length_put_prev, ?length_put_next; lia). rewrite decide_False by done.
      rewrite bprev_put_prev by (rewrite ?length_put_next; lia). by rewrite decide_True.
    + rewrite last_reverse'. fold n. intros i Hi1 Hi2.
      rewrite bprev_put_next, !bprev_put_prev, bprev_put_next
        by (rewrite ?length_put_prev, ?length_put_next; lia). by rewrite !decide_False by done.
Qed.

(** ** The searches of bget *)
Lemma find_cached_spec fuel bufs x l dev bn :
  seg (bnext bufs) x l HEAD → (∀ i, i ∈ l → i ≠ HEAD) → (length l < fuel)%nat →
  find_cached fuel bufs (bnext bufs x) dev bn =
    Some (List.find (λ i, (b_dev (default buf0 (bufs !! i)) =? dev) &&
                          (b_blockno (default buf0 (bufs !! i)) =? bn)) l).
Proof.
  revert fuel x. induction l as [|z l IH]; intros fuel x Hs Hh Hf; (destruct fuel as [|fuel]; [simpl in Hf; lia|]);
    simpl in Hs; cbn [find_cached List.find].
  - rewrite Hs. by rewrite decide_True.
  - destruct Hs as [-> Hs]. rewrite decide_False by (apply Hh; left). case_if; [done|].
    change (b_next (default buf0 (bufs !! z))) with (bnext bufs z).
    apply IH; [done| |simpl in Hf; lia]. intros i Hi. apply Hh. by right.
Qed.

Lemma find_unused_spec fuel bufs x l :
  seg (bprev bufs) x l HEAD → (∀ i, i ∈ l → i ≠ HEAD) → (length l < fuel)%nat →
  find_unused fuel bufs (bprev bufs x) =
    Some (List.find (λ i, b_refcnt (default buf0 (bufs !! i)) =? 0) l).
Proof.
  revert fuel x. induction l as [|z l IH]; intros fuel x Hs Hh Hf; (destruct fuel as [|fuel]; [simpl in Hf; lia|]);
    simpl in Hs; cbn [find_unused List.find].
  - rewrite Hs. by rewrite decide_True.
  - destruct Hs as [-> Hs]. rewrite decide_False by (apply Hh; left). case_if; [done|].
    change (b_prev (default buf0 (bufs !! z))) with (bprev bufs z).
    apply IH; [done| |simpl in Hf; lia]. intros i Hi. apply Hh. by right.
Qed.

Lemma bindex_length l : bindex l → (length l ≤ HEAD)%nat.
Proof.
  intros [Hnd Hl]. rewrite <- (length_seq HEAD 0). apply submseteq_length, NoDup_submseteq; [done|].
  intros i Hi%Hl. apply elem_of_seq. lia.
Qed.

(** The searches of [bget] in list terms. *)
Lemma bget_searches bufs l dev bn :
  lru_list bufs l →
  find_cached (S HEAD) bufs (bnext bufs HEAD) dev bn =
    Some (List.find (λ i, (b_dev (default buf0 (bufs !! i)) =? dev) &&
                          (b_blockno (default buf0 (bufs !! i)) =? bn)) l) ∧
  find_unused (S HEAD) bufs (bprev bufs HEAD) =
    Some (List.find (λ i, b_refcnt (default buf0 (bufs !! i)) =? 0) (reverse l)).
Proof.
  intros [Hi Hlen Hn Hp]. pose proof (bindex_length l Hi). destruct Hi as [_ Hl].
  split; [apply find_cached_spec | apply find_unused_spec]; try done; try (rewrite ?length_reverse; lia).
  all: intros i; rewrite ?elem_of_reverse; intros ?%Hl; lia.
Qed.

(** ** The list after boot *)
Lemma lru_list_ext bufs bufs' l :
  length bufs' = length bufs →
  (∀ i, bnext bufs' i = bnext bufs i) → (∀ i, bprev bufs' i = bprev bufs i) →
  lru_list bufs l → lru_list bufs' l.
Proof.
  intros Hlen Hn Hp [H1 H2 H3 H4]. split; [done|congruence|..]; eapply seg_ext; eauto.
Qed.

Lemma lru_list_alter bufs l i g :
  (∀ x, b_next (g x) = b_next x) → (∀ x, b_prev (g x) = b_prev x) → (i < length bufs)%nat →
  lru_list bufs l → lru_list (alter g i bufs) l.
Proof.
  intros Hn Hp Hi. apply lru_list_ext; [apply length_alter|..]; intros j;
    unfold bnext, bprev; rewrite default_alter by done; case_decide; auto.
Qed.

Lemma binit_spec bufs :
  length bufs = S HEAD → lru_list (binit_list bufs) (reverse (seq 0 HEAD)).
Proof.
  intros Hlen. unfold binit_list.
  set (bufs1 := put_next HEAD HEAD (put_prev HEAD HEAD bufs)).
  assert (lru_list bufs1 []) as H0.
  { unfold bufs1. split.
    - split; [constructor|set_solver].
    - by rewrite length_put_next, length_put_prev.
    - simpl. rewrite bnext_put_next by (rewrite length_put_prev; lia). by rewrite decide_True.
    - simpl. rewrite bprev_put_next by (rewrite length_put_prev; lia).
      rewrite bprev_put_prev by lia. by rewrite decide_True. }
  assert (∀ k n l bufs, lru_list bufs l → (∀ i, i ∈ l → (i < k)%nat) → (k + n = HEAD)%nat →
    lru_list (foldl (λ l b, link_front b (alter (set_b_lock initsleeplock) b l)) bufs (seq k n))
      (reverse (seq k n) ++ l)) as Hgen.
  { intros k n. revert k. induction n as [|n IH]; intros k l bb Hb Hlt Hk; [done|].
    cbn [seq foldl]. rewrite reverse_cons, <- app_assoc. apply IH; [|set_solver by lia|lia].
    apply link_front_spec; [|intros Hin%Hlt; lia|lia].
    apply lru_list_alter; try done. rewrite (ll_len _ _ Hb). lia. }
  rewrite <- (app_nil_r (reverse _)). apply Hgen; [done|set_solver|lia].
Qed.

(** The [prev] and [next] pointers of the buffers implement a list in
    order of use.  After [binit] all buffers are in it; [bget] finds the
    cached block by searching it forwards, and the buffer to recycle by
    searching it backwards, so the least recently used one whose reference
    count is zero; releasing a buffer moves it to the front and keeps the
    order of the others.  Both searches end. *)
Theorem lru_refines bufs p i q dev bn :
  lru_list bufs (p ++ i :: q) →
  find_cached (S HEAD) bufs (bnext bufs HEAD) dev bn =
    Some (List.find (λ j, (b_dev (default buf0 (bufs !! j)) =? dev) &&
                          (b_blockno (default buf0 (bufs !! j)) =? bn)) (p ++ i :: q)) ∧
  find_unused (S HEAD) bufs (bprev bufs HEAD) =
    Some (List.find (λ j, b_refcnt (default buf0 (bufs !! j)) =? 0) (reverse (p ++ i :: q))) ∧
  lru_list (link_front i (unlink i bufs)) (i :: p ++ q) ∧
  lru_list (binit_list bufs) (reverse (seq 0 HEAD)).
Proof.
  intros LL. destruct (bget_searches bufs _ dev bn LL) as [H1 H2].
  split; [done|]. split; [done|]. split; [|by apply binit_spec, (ll_len _ _ LL)].
  destruct (ll_index _ _ LL) as [Hnd Hlt].
  apply link_front_spec; [by apply unlink_spec| |apply Hlt; set_solver].
  apply NoDup_app in Hnd as (_ & Hd & [? _]%NoDup_cons). set_solver.
Qed.

Lemma lru_refines_witness :
  let bufs := binit_list (replicate (S HEAD) buf0) in
  lru_list (link_front 27 (unlink 27 bufs)) (27%nat :: [29%nat; 28%nat] ++ reverse (seq 0 27)).
Proof.
  intros bufs.
  refine (proj1 (proj2 (proj2 (lru_refines bufs [29%nat; 28%nat] 27 (reverse (seq 0 27)) 1 1 _)))).
  change ([29%nat; 28%nat] ++ 27%nat :: reverse (seq 0 27)) with (reverse (seq 0 HEAD)).
  apply binit_spec. reflexivity.
Defined.
