(* ===== verification/BioSpec.v ===== *)
(** * What the buffer cache promises

    [cache_inv t pid H P]: the process [pid] holds the buffers [H], the log
    pins the blocks [P], and every other cached block is clean.  [bview] is
    the content of a block as seen through the cache. *)

From S2P Require Import Base Riscv Mem Kernel Sleeplock FsState Bio BioList.
Local Open Scope Z_scope.
Local Open Scope kernel_scope.

Definition cached (t : fsst) (b : Z) (i : nat) : Prop :=
  (i < HEAD)%nat ∧ b_dev (buf_at i t) = ROOTDEV ∧ b_blockno (buf_at i t) = b.

Definition cached_at (t : fsst) (b : Z) (i : nat) : bool :=
  (b_dev (buf_at i t) =? ROOTDEV) && (b_blockno (buf_at i t) =? b).

Definition bview (t : fsst) (b : Z) : list Z :=
  match List.find (cached_at t b) (seq 0 HEAD) with
  | Some i => b_data (buf_at i t)
  | None => disk_block (f_disk t) b
  end.

Definition pinned (P : list Z) (x : buf) : bool :=
  bool_decide (b_dev x = ROOTDEV ∧ b_blockno x ∈ P).

Record cache_inv (t : fsst) (pid : Z) (H : list nat) (P : list Z) : Prop := {
  cv_lru : ∃ l, lru_list (f_bufs t) l ∧ ∀ i, (i < HEAD)%nat → i ∈ l;
  cv_dev : ∀ i, (i < HEAD)%nat →
    b_dev (buf_at i t) = 0 ∨ (b_dev (buf_at i t) = ROOTDEV ∧ b_valid (buf_at i t) = 1);
  cv_uniq : ∀ b i j, cached t b i → cached t b j → i = j;
  cv_ref : ∀ i, (i < HEAD)%nat → b_refcnt (buf_at i t) =
    (if decide (i ∈ H) then 1 else 0) + (if pinned P (buf_at i t) then 1 else 0);
  cv_lock : ∀ i, (i < HEAD)%nat →
    if decide (i ∈ H) then b_lock (buf_at i t) = SleepLock 1 pid
    else sl_locked (b_lock (buf_at i t)) = 0;
  cv_held : NoDup H ∧ ∀ i, i ∈ H → (i < HEAD)%nat ∧ b_dev (buf_at i t) = ROOTDEV;
  cv_pins : NoDup P ∧ ∀ b, b ∈ P → ∃ i, cached t b i;
  cv_clean : ∀ i b, cached t b i → i ∉ H → b ∉ P → b_data (buf_at i t) = disk_block (f_disk t) b;
}.

(** Everything but the cache and the disk is unchanged. *)
Definition same_rest (t t' : fsst) : Prop :=
  f_log t' = f_log t ∧ f_sb t' = f_sb t ∧ f_itable t' = f_itable t.

Lemma ROOTDEV_1 : ROOTDEV = 1.
Proof. done. Qed.

Lemma cached_at_iff t b i : (i < HEAD)%nat → cached_at t b i = true ↔ cached t b i.
Proof.
  intros Hi. unfold cached_at, cached. rewrite andb_true_iff, !Z.eqb_eq. tauto.
Qed.

Lemma find_unique (P : nat → bool) l i :
  i ∈ l → P i = true → (∀ j, j ∈ l → P j = true → j = i) → List.find P l = Some i.
Proof.
  intros Hi HP Hu. induction l as [|x l IH]; [set_solver|]. simpl.
  destruct (P x) eqn:E; [f_equal; apply Hu; [by left|done]|].
  apply IH; [|intros; apply Hu; [by right|done]].
  apply elem_of_cons in Hi as [->|?]; [congruence|done].
Qed.

Lemma find_none_iff (P : nat → bool) l : List.find P l = None ↔ ∀ i, i ∈ l → P i = false.
Proof.
  induction l as [|x l IH]; simpl; [set_solver|]. destruct (P x) eqn:E.
  - split; [done|]. intros H. rewrite H in E by left. done.
  - rewrite IH. set_solver.
Qed.

Lemma find_some_in (P : nat → bool) l i : List.find P l = Some i → i ∈ l ∧ P i = true.
Proof.
  induction l as [|x l IH]; simpl; [done|]. destruct (P x) eqn:E; [intros [= ->]; split; [by left|done]|].
  intros [? ?]%IH. split; [by right|done].
Qed.

Section cache.
  Context {t : fsst} {pid : Z} {H : list nat} {P : list Z} (I : cache_inv t pid H P).

Lemma bview_cached b i : cached t b i → bview t b = b_data (buf_at i t).
Proof.
  intros Hc. unfold bview. pose proof Hc as [Hi _].
  rewrite (find_unique _ _ i); [done|apply elem_of_seq; lia|by apply cached_at_iff|].
  intros j Hj%elem_of_seq Hj'. apply cached_at_iff in Hj'; [|lia]. by eapply cv_uniq.
Qed.

Lemma bview_uncached b : (∀ i, ¬ cached t b i) → bview t b = disk_block (f_disk t) b.
Proof.
  intros Hc. unfold bview. destruct (List.find _ _) as [i|] eqn:E; [|done].
  apply find_some_in in E as [Hi%elem_of_seq E]. apply cached_at_iff in E; [|lia].
  by destruct (Hc i).
Qed.

Lemma cached_dec b : (∃ i, cached t b i) ∨ ∀ i, ¬ cached t b i.
Proof.
  destruct (List.find (cached_at t b) (seq 0 HEAD)) as [i|] eqn:E.
  - left. exists i. apply find_some_in in E as [Hi%elem_of_seq E]. apply cached_at_iff in E; [done|lia].
  - right. intros i Hc. pose proof Hc as [Hi _]. rewrite find_none_iff in E.
    specialize (E i ltac:(apply elem_of_seq; lia)). apply cached_at_iff in Hc; [congruence|done].
Qed.

(** A clean block is read from the disk or from its buffer alike. *)
Lemma bview_clean b : b ∉ P → (∀ i, i ∈ H → b_blockno (buf_at i t) ≠ b) → bview t b = disk_block (f_disk t) b.
Proof.
  intros Hp Hh. destruct (cached_dec b) as [[i Hi]|Hn]; [|by apply bview_uncached].
  rewrite (bview_cached b i Hi). apply (cv_clean _ _ _ _ I); [done| |done].
  intros Hin. apply (Hh i Hin). apply Hi.
Qed.

Lemma bufs_len : length (f_bufs t) = S HEAD.
Proof. destruct (cv_lru _ _ _ _ I) as (l & [? ? ? ?] & _). done. Qed.

(** While fewer than [NBUF] buffers are in use, one has reference count 0. *)
Lemma some_unused :
  (length H + length P < HEAD)%nat → ∃ i, (i < HEAD)%nat ∧ b_refcnt (buf_at i t) = 0.
Proof.
  intros Hlen. destruct (decide (Exists (λ i, b_refcnt (buf_at i t) = 0) (seq 0 HEAD))) as [He|Hn].
  { apply Exists_exists in He as (i & Hi%elem_of_seq & E). exists i. split; [lia|done]. }
  exfalso. apply not_Exists_Forall in Hn; [|intros ?; apply _]. rewrite Forall_forall in Hn.
  set (A := filter (λ i, i ∈ H) (seq 0 HEAD)). set (B := filter (λ i, i ∉ H) (seq 0 HEAD)).
  assert (length A + length B = HEAD)%nat as Hab.
  { rewrite <- (length_seq HEAD 0). unfold A, B. generalize (seq 0 HEAD). intros l.
    induction l as [|x l IH]; [done|]. rewrite !filter_cons. repeat case_decide; try done; simpl; lia. }
  assert (length A ≤ length H)%nat as HA.
  { apply submseteq_length, NoDup_submseteq; [apply NoDup_filter, NoDup_seq|].
    intros i [? _]%list_elem_of_filter. done. }
  assert (length B ≤ length P)%nat as HB.
  { rewrite <- (length_fmap (λ i, b_blockno (buf_at i t)) B).
    assert (∀ i, i ∈ B → (i < HEAD)%nat ∧ b_dev (buf_at i t) = ROOTDEV ∧ b_blockno (buf_at i t) ∈ P) as HB.
    { intros i [Hni Hi]%list_elem_of_filter. pose proof Hi as Hi'%elem_of_seq.
      pose proof (Hn i Hi) as Hr. simpl in Hr. rewrite (cv_ref _ _ _ _ I) in Hr by lia.
      rewrite decide_False in Hr by done. unfold pinned in Hr. case_bool_decide; [|lia].
      split; [lia|done]. }
    apply submseteq_length, NoDup_submseteq.
    - apply NoDup_fmap_2_strong; [|apply NoDup_filter, NoDup_seq]. intros i j Hi Hj E.
      destruct (HB i Hi) as (? & ? & ?), (HB j Hj) as (? & ? & ?).
      by apply (cv_uniq _ _ _ _ I (b_blockno (buf_at i t))).
    - intros b (i & -> & Hi)%list_elem_of_fmap. by apply HB. }
  lia.
Qed.
End cache.

(** ** Changing one buffer *)
Lemma buf_at_mod i g j t :
  length (f_bufs t) = S HEAD → (i < HEAD)%nat →
  buf_at j (mod_buf i g t) = if decide (j = i) then g (buf_at j t) else buf_at j t.
Proof. intros Hl Hi. unfold buf_at, mod_buf. cbn. apply default_alter. lia. Qed.

(** A buffer without its list pointers. *)
Definition core (x : buf) := (b_valid x, b_dev x, b_blockno x, b_lock x, b_refcnt x, b_data x).

Lemma core_eq x y : core x = core y →
  b_valid x = b_valid y ∧ b_dev x = b_dev y ∧ b_blockno x = b_blockno y ∧ b_lock x = b_lock y ∧
  b_refcnt x = b_refcnt y ∧ b_data x = b_data y.
Proof. unfold core. by intros [=]. Qed.

(** Every operation changes one buffer, the held and pinned sets around it,
    and perhaps the disk. *)
Lemma cache_update t t' pid H P H' P' i :
  cache_inv t pid H P → (i < HEAD)%nat →
  (∃ l, lru_list (f_bufs t') l ∧ ∀ j, (j < HEAD)%nat → j ∈ l) →
  (∀ j, (j < HEAD)%nat → j ≠ i → core (buf_at j t') = core (buf_at j t)) →
  (b_dev (buf_at i t') = ROOTDEV ∧ b_valid (buf_at i t') = 1) →
  (∀ j, j ≠ i → ¬ cached t (b_blockno (buf_at i t')) j) →
  b_refcnt (buf_at i t') =
    (if decide (i ∈ H') then 1 else 0) + (if pinned P' (buf_at i t') then 1 else 0) →
  (if decide (i ∈ H') then b_lock (buf_at i t') = SleepLock 1 pid
   else sl_locked (b_lock (buf_at i t')) = 0) →
  (∀ j, j ≠ i → j ∈ H' ↔ j ∈ H) → NoDup H' →
  (∀ b, b ≠ b_blockno (buf_at i t') → b ∈ P' → b ∈ P ∧ ¬ cached t b i) →
  (∀ b j, j ≠ i → cached t b j → b ∈ P → b ∈ P') → NoDup P' →
  (∀ b j, j ≠ i → cached t b j → disk_block (f_disk t') b = disk_block (f_disk t) b) →
  (i ∉ H' → b_blockno (buf_at i t') ∉ P' →
     b_data (buf_at i t') = disk_block (f_disk t') (b_blockno (buf_at i t'))) →
  cache_inv t' pid H' P'.
Proof.
  intros I Hi Hlru Hcore [Hd Hv] Hu Hr Hk HH HndH HP1 HP2 HndP Hdisk Hcl.
  assert (∀ b j, j ≠ i → cached t' b j ↔ cached t b j) as Hc.
  { intros b j Hj. unfold cached. split; intros (Hlt & H1 & H2);
      destruct (core_eq _ _ (Hcore j Hlt Hj)) as (_ & E1 & E2 & _); split_and!; congruence. }
  split; try done.
  - intros j Hj. destruct (decide (j = i)) as [->|Hne]; [by right|].
    destruct (core_eq _ _ (Hcore j Hj Hne)) as (-> & -> & _). by apply (cv_dev _ _ _ _ I).
  - intros b j k Hcj Hck. destruct (decide (j = i)) as [->|Hj], (decide (k = i)) as [->|Hk']; try done.
    + destruct Hcj as (_ & _ & <-). apply Hc in Hck; [|done]. by destruct (Hu k).
    + destruct Hck as (_ & _ & <-). apply Hc in Hcj; [|done]. by destruct (Hu j).
    + apply (cv_uniq _ _ _ _ I b); by apply Hc.
  - intros j Hj. destruct (decide (j = i)) as [->|Hne]; [done|].
    destruct (core_eq _ _ (Hcore j Hj Hne)) as (_ & E1 & E2 & _ & -> & _).
    rewrite (cv_ref _ _ _ _ I) by done. f_equal.
    + rewrite (decide_ext (j ∈ H') (j ∈ H)) by auto. done.
    + unfold pinned. rewrite E1, E2.
      assert (b_dev (buf_at j t) = ROOTDEV ∧ b_blockno (buf_at j t) ∈ P ↔
              b_dev (buf_at j t) = ROOTDEV ∧ b_blockno (buf_at j t) ∈ P') as Hiff.
      { split; intros [H1 H2]; split; try done.
        - by apply (HP2 _ j).
        - apply HP1; [|done]. intros E. apply (Hu j Hne). by split_and!. }
      by rewrite (bool_decide_ext _ _ Hiff).
  - intros j Hj. destruct (decide (j = i)) as [->|Hne]; [done|].
    destruct (core_eq _ _ (Hcore j Hj Hne)) as (_ & _ & _ & -> & _ & _).
    pose proof (cv_lock _ _ _ _ I j Hj) as Hl.
    destruct (decide (j ∈ H)) as [Hin|Hin]; [rewrite decide_True by (by apply HH)|
      rewrite decide_False by (by rewrite HH)]; done.
  - split; [done|]. intros j Hin. destruct (decide (j = i)) as [->|Hne]; [done|].
    destruct (cv_held _ _ _ _ I) as [_ Hh]. destruct (Hh j) as [Hj Hdj]; [by apply HH|].
    destruct (core_eq _ _ (Hcore j Hj Hne)) as (_ & -> & _). done.
  - split; [done|]. intros b Hb. destruct (decide (b = b_blockno (buf_at i t'))) as [->|Hne].
    + exists i. by split_and!.
    + destruct (HP1 b Hne Hb) as [Hb' Hnc]. destruct (cv_pins _ _ _ _ I) as [_ Hp].
      destruct (Hp b Hb') as [j Hj]. exists j. apply Hc; [|done]. by intros ->.
  - intros j b Hcj Hnh Hnp. destruct (decide (j = i)) as [->|Hne].
    + destruct Hcj as (_ & _ & <-). auto.
    + apply Hc in Hcj; [|done]. rewrite (Hdisk b j) by done. pose proof Hcj as (Hj & _ & _).
      destruct (core_eq _ _ (Hcore j Hj Hne)) as (_ & _ & _ & _ & _ & ->).
      apply (cv_clean _ _ _ _ I); [done|by rewrite <- HH|]. intros Hp. apply Hnp. by apply (HP2 b j).
Qed.

(** The block contents after such a change. *)
Lemma bview_update t t' pid H P H' P' i b :
  cache_inv t pid H P → cache_inv t' pid H' P' → (i < HEAD)%nat →
  (∀ j, (j < HEAD)%nat → j ≠ i → core (buf_at j t') = core (buf_at j t)) →
  (cached t' b i → b_data (buf_at i t') = bview t b) →
  (¬ cached t' b i → (∀ j, j ≠ i → ¬ cached t b j) → disk_block (f_disk t') b = bview t b) →
  bview t' b = bview t b.
Proof.
  intros I I' Hi Hcore Hdi Hun.
  assert (∀ j, j ≠ i → cached t' b j ↔ cached t b j) as Hc.
  { intros j Hj. unfold cached. split; intros (Hlt & H1 & H2);
      destruct (core_eq _ _ (Hcore j Hlt Hj)) as (_ & E1 & E2 & _); split_and!; congruence. }
  destruct (@cached_dec t' b) as [[j Hj]|Hn].
  - rewrite (bview_cached I' b j Hj). destruct (decide (j = i)) as [->|Hne]; [by apply Hdi|].
    pose proof Hj as (Hlt & _ & _). apply Hc in Hj; [|done]. rewrite (bview_cached I b j Hj).
    by destruct (core_eq _ _ (Hcore j Hlt Hne)) as (_ & _ & _ & _ & _ & ->).
  - rewrite (bview_uncached b Hn). apply Hun; [apply Hn|]. intros j Hj Hcj.
    apply (Hn j). by apply Hc.
Qed.

(** ** The operations, for a process on its own *)

(** None of the locks the cache takes is held. *)
Definition bio_free (h : list lockid) : Prop := Lbcache ∉ h ∧ ∀ l, Lsleep l ∉ h.

Lemma mod_buf_compose i f g t : mod_buf i g (mod_buf i f t) = mod_buf i (λ x, g (f x)) t.
Proof.
  unfold mod_buf, set_f_bufs. cbn. f_equal. apply list_alter_alter_eq.
Qed.

Lemma length_mod_buf i g t : length (f_bufs (mod_buf i g t)) = length (f_bufs t).
Proof. apply length_alter. Qed.

(** Changing one buffer, not its links. *)
Lemma lru_mod_buf i g t :
  (∀ x, b_next (g x) = b_next x) → (∀ x, b_prev (g x) = b_prev x) → (i < HEAD)%nat →
  (∃ l, lru_list (f_bufs t) l ∧ ∀ j, (j < HEAD)%nat → j ∈ l) →
  ∃ l, lru_list (f_bufs (mod_buf i g t)) l ∧ ∀ j, (j < HEAD)%nat → j ∈ l.
Proof.
  intros Hn Hp Hi (l & Hl & Hall). exists l. split; [|done].
  apply lru_list_alter; try done. rewrite (ll_len _ _ Hl). lia.
Qed.

Lemma bread_cached t h pid H P b i :
  cache_inv t pid H P → bio_free h → cached t b i → i ∉ H →
  bread ROOTDEV b (Solo t h pid) = Ok i (Solo (mod_buf i
    (λ x, set_b_lock (SleepLock 1 pid) (set_b_refcnt (u32 (b_refcnt x + 1)) x)) t) h pid).
Proof.
  intros I [Hh1 Hh2] Hc Hni. pose proof Hc as (Hi & Hd & Hb).
  destruct (cv_lru _ _ _ _ I) as (l & Hl & Hall).
  unfold bread, bget. unfold bind at 1. rewrite bind_acquire_solo by done. rewrite bind_get_solo.
  rewrite (proj1 (bget_searches _ _ ROOTDEV b Hl)).
  assert (List.find (λ i, (b_dev (default buf0 (f_bufs t !! i)) =? ROOTDEV) &&
    (b_blockno (default buf0 (f_bufs t !! i)) =? b)) l = Some i) as ->.
  { apply find_unique; [auto|by apply cached_at_iff|].
    intros j Hj Hj'. eapply (cv_uniq _ _ _ _ I b); [|done]. apply cached_at_iff; [|done].
    destruct (ll_index _ _ Hl) as [_ Hx]. auto. }
  krun. pose proof (bufs_len I) as Hlen.
  assert (sl_locked (sl_get (SLbuf i) (mod_buf i (λ x, set_b_refcnt (u32 (b_refcnt x + 1)) x) t)) = 0) as Hun.
  { cbn. rewrite buf_at_mod, decide_True by done. pose proof (cv_lock _ _ _ _ I i Hi) as Hk.
    by rewrite decide_False in Hk. }
  rewrite (bind_ok _ _ _ _ _ (acquiresleep_free (SLbuf i) _ h pid (Hh2 _) Hun)).
  cbn [sl_set fs_sleeplocks res_bind ret]. rewrite mod_buf_compose. krun.
  rewrite buf_at_mod, decide_True by done. cbn [b_valid set_b_lock set_b_refcnt].
  destruct (cv_dev _ _ _ _ I i Hi) as [E|[_ ->]]; [rewrite ROOTDEV_1 in *; congruence|].
  change (1 =? 0) with false. cbv iota. krun. done.
Qed.

Lemma bread_fresh t h pid H P b :
  cache_inv t pid H P → bio_free h → (∀ i, ¬ cached t b i) → (length H + length P < HEAD)%nat →
  ∃ i, (i < HEAD)%nat ∧ b_refcnt (buf_at i t) = 0 ∧
  bread ROOTDEV b (Solo t h pid) = Ok i (Solo (mod_buf i
    (λ x, Buf 1 ROOTDEV b (SleepLock 1 pid) 1 (b_prev x) (b_next x) (disk_block (f_disk t) b)) t) h pid).
Proof.
  intros I [Hh1 Hh2] Hc Hcap. destruct (cv_lru _ _ _ _ I) as (l & Hl & Hall).
  pose proof (bufs_len I) as Hlen. destruct (ll_index _ _ Hl) as [_ Hx].
  unfold bread, bget.
  destruct (List.find (λ i, b_refcnt (default buf0 (f_bufs t !! i)) =? 0) (reverse l)) as [i|] eqn:Ef.
  2: { exfalso. destruct (some_unused I Hcap) as (i & Hi & Hr). rewrite find_none_iff in Ef.
       specialize (Ef i). rewrite elem_of_reverse in Ef. specialize (Ef (Hall i Hi)).
       apply Z.eqb_neq in Ef. done. }
  destruct (find_some_in _ _ _ Ef) as [Hi Hr]. rewrite elem_of_reverse in Hi. apply Hx in Hi.
  apply Z.eqb_eq in Hr. change (default buf0 (f_bufs t !! i)) with (buf_at i t) in Hr.
  exists i. split_and!; try done. unfold bind at 1. rewrite bind_acquire_solo by done. rewrite bind_get_solo.
  destruct (bget_searches _ _ ROOTDEV b Hl) as [E1 E2]. rewrite E1.
  assert (List.find (λ i, (b_dev (default buf0 (f_bufs t !! i)) =? ROOTDEV) &&
    (b_blockno (default buf0 (f_bufs t !! i)) =? b)) l = None) as ->.
  { apply find_none_iff. intros j Hj. destruct (_ && _) eqn:E; [|done].
    destruct (Hc j). apply cached_at_iff; [by apply Hx|done]. }
  rewrite E2, Ef. krun.
  rewrite !mod_buf_compose.
  assert (sl_locked (sl_get (SLbuf i) (mod_buf i (λ x, set_b_refcnt 1 (set_b_valid 0
    (set_b_blockno b (set_b_dev ROOTDEV x)))) t)) = 0) as Hun.
  { cbn. rewrite buf_at_mod, decide_True by done. pose proof (cv_lock _ _ _ _ I i Hi) as Hk.
    rewrite decide_False in Hk; [done|]. intros Hin. pose proof (cv_ref _ _ _ _ I i Hi) as Hrr.
    rewrite Hr, decide_True in Hrr by done. destruct (pinned _ _); lia. }
  rewrite (bind_ok _ _ _ _ _ (acquiresleep_free (SLbuf i) _ h pid (Hh2 _) Hun)).
  cbn [sl_set fs_sleeplocks res_bind ret]. rewrite mod_buf_compose. krun.
  rewrite buf_at_mod, decide_True by done. cbn [b_valid set_b_lock set_b_refcnt set_b_valid].
  change (0 =? 0) with true. cbv iota. unfold disk_rw. unfold bind at 1. krun.
  rewrite buf_at_mod, decide_True by done. cbn [b_blockno set_b_lock set_b_refcnt set_b_valid set_b_blockno].
  rewrite !mod_buf_compose. done.
Qed.

(** The other buffers keep everything but their place in the list. *)
Definition others (i : nat) (t t' : fsst) : Prop :=
  ∀ j, (j < HEAD)%nat → j ≠ i → core (buf_at j t') = core (buf_at j t).

Lemma others_mod i g t : length (f_bufs t) = S HEAD → (i < HEAD)%nat → others i t (mod_buf i g t).
Proof. intros Hl Hi j Hj Hne. by rewrite buf_at_mod, decide_False. Qed.

Lemma not_held_ref t pid H P i :
  cache_inv t pid H P → (i < HEAD)%nat → b_refcnt (buf_at i t) = 0 →
  i ∉ H ∧ ∀ b, cached t b i → b ∉ P.
Proof.
  intros I Hi Hr. pose proof (cv_ref _ _ _ _ I i Hi) as Hrr. rewrite Hr in Hrr. split.
  - intros Hin. rewrite decide_True in Hrr by done. destruct (pinned _ _); lia.
  - intros b (_ & Hd & Hb) HP. unfold pinned in Hrr. rewrite bool_decide_true in Hrr by (by rewrite Hb).
    destruct (decide _); lia.
Qed.

(** [bread] returns the block's contents in a locked buffer. *)
Lemma bread_ok t h pid H P b :
  cache_inv t pid H P → bio_free h → (∀ i, i ∈ H → b_blockno (buf_at i t) ≠ b) →
  ((∀ i, ¬ cached t b i) → (length H + length P < HEAD)%nat) →
  ∃ i t', bread ROOTDEV b (Solo t h pid) = Ok i (Solo t' h pid) ∧
    cache_inv t' pid (i :: H) P ∧ i ∉ H ∧ cached t' b i ∧ b_data (buf_at i t') = bview t b ∧
    (∀ b', bview t' b' = bview t b') ∧ f_disk t' = f_disk t ∧ same_rest t t' ∧
    ∀ j, j ∈ H → core (buf_at j t') = core (buf_at j t).
Proof.
  intros I Hf HnH Hcap. pose proof (bufs_len I) as Hlen.
  assert (∀ j, j ∈ H → (j < HEAD)%nat) as HHlt by (intros j Hj; by apply (cv_held _ _ _ _ I)).
  destruct (@cached_dec t b) as [[i Hc]|Hn].
  - assert (i ∉ H) as Hni by (intros Hin; apply (HnH i Hin), Hc).
    rewrite (bread_cached t h pid H P b i) by done. pose proof Hc as (Hi & Hd & Hb).
    set (t' := mod_buf i _ t). exists i, t'.
    assert (buf_at i t' = set_b_lock (SleepLock 1 pid)
      (set_b_refcnt (u32 (b_refcnt (buf_at i t) + 1)) (buf_at i t))) as Ei.
    { unfold t'. by rewrite buf_at_mod, decide_True. }
    assert (others i t t') as Ho by (by apply others_mod).
    assert (cached t' b i) as Hc' by (unfold cached; by rewrite Ei).
    assert (cache_inv t' pid (i :: H) P) as I'.
    { apply (cache_update t t' pid H P (i :: H) P i); rewrite ?Ei; try done; cbn.
      - apply lru_mod_buf; try done. apply (cv_lru _ _ _ _ I).
      - split; [done|]. destruct (cv_dev _ _ _ _ I i Hi) as [E|[_ ?]]; [|done].
        rewrite ROOTDEV_1 in *. congruence.
      - intros j Hj Hcj. apply Hj. rewrite Hb in Hcj. by eapply (cv_uniq _ _ _ _ I).
      - rewrite decide_True by left. rewrite (cv_ref _ _ _ _ I) by done.
        rewrite decide_False by done. unfold pinned. cbn. destruct (bool_decide _); done.
      - by rewrite decide_True by left.
      - intros j Hj. rewrite elem_of_cons. naive_solver.
      - apply NoDup_cons. split; [done|]. apply (cv_held _ _ _ _ I).
      - intros b' Hb' HP. split; [done|]. intros (_ & _ & E). congruence.
      - apply (cv_pins _ _ _ _ I).
      - intros Hnin. destruct Hnin. left. }
    assert (b_data (buf_at i t') = b_data (buf_at i t)) as Ed by (by rewrite Ei).
    split_and!; try done.
    + rewrite Ed. symmetry. by apply (bview_cached I).
    + intros b'. apply (bview_update t t' pid H P (i :: H) P i b' I I' Hi Ho).
      * intros Hcb. assert (b' = b) as ->. { destruct Hcb as (_ & _ & E). rewrite Ei in E. simpl in E. congruence. }
        rewrite Ed. symmetry. by apply (bview_cached I).
      * intros Hnc Hnj. change (f_disk t') with (f_disk t). symmetry. apply (bview_uncached b'). intros j Hcj.
        destruct (decide (j = i)) as [->|Hj]; [|by apply (Hnj j)].
        apply Hnc. unfold cached in *. by rewrite Ei.
    + intros j Hj. apply Ho; [auto|]. by intros ->.
  - destruct (bread_fresh t h pid H P b I Hf Hn (Hcap Hn)) as (i & Hi & Hr & ->).
    destruct (not_held_ref t pid H P i I Hi Hr) as [Hni Hnp].
    set (t' := mod_buf i _ t). exists i, t'.
    assert (buf_at i t' = Buf 1 ROOTDEV b (SleepLock 1 pid) 1 (b_prev (buf_at i t)) (b_next (buf_at i t))
       (disk_block (f_disk t) b)) as Ei.
    { unfold t'. by rewrite buf_at_mod, decide_True. }
    assert (others i t t') as Ho by (by apply others_mod).
    assert (cached t' b i) as Hc' by (unfold cached; by rewrite Ei).
    assert (b ∉ P) as HbP.
    { intros HP. destruct (cv_pins _ _ _ _ I) as [_ Hp]. destruct (Hp b HP) as [j Hj]. by apply (Hn j). }
    assert (cache_inv t' pid (i :: H) P) as I'.
    { apply (cache_update t t' pid H P (i :: H) P i); rewrite ?Ei; try done; cbn.
      - apply lru_mod_buf; try done. apply (cv_lru _ _ _ _ I).
      - rewrite decide_True by left. unfold pinned. cbn. rewrite bool_decide_false; [done|]. tauto.
      - by rewrite decide_True by left.
      - intros j Hj. rewrite elem_of_cons. naive_solver.
      - apply NoDup_cons. split; [done|]. apply (cv_held _ _ _ _ I).
      - intros b' Hb' HP. split; [done|]. intros Hcb. by apply (Hnp b').
      - apply (cv_pins _ _ _ _ I). }
    split_and!; try done.
    + rewrite Ei. symmetry. by apply (bview_uncached b).
    + intros b'. apply (bview_update t t' pid H P (i :: H) P i b' I I' Hi Ho).
      * intros (_ & _ & E). rewrite Ei in E. simpl in E. subst b'. rewrite Ei. symmetry. by apply (bview_uncached b).
      * intros Hnc Hnj. cbn. destruct (@cached_dec t b') as [[j Hj]|Hno].
        -- destruct (decide (j = i)) as [->|Hne]; [|by destruct (Hnj j)].
           rewrite (bview_cached I b' i Hj). symmetry. apply (cv_clean _ _ _ _ I); auto.
        -- symmetry. by apply (bview_uncached b').
    + intros j Hj. apply Ho; [auto|]. by intros ->.
Qed.

(** ** Writing to a buffer that is held *)
Lemma held_facts t pid H P i :
  cache_inv t pid H P → i ∈ H →
  (i < HEAD)%nat ∧ cached t (b_blockno (buf_at i t)) i ∧ b_valid (buf_at i t) = 1 ∧
  b_lock (buf_at i t) = SleepLock 1 pid.
Proof.
  intros I Hin. destruct (cv_held _ _ _ _ I) as [_ Hh]. destruct (Hh i Hin) as [Hi Hd].
  pose proof (cv_lock _ _ _ _ I i Hi) as Hl. rewrite decide_True in Hl by done.
  split_and!; try done. destruct (cv_dev _ _ _ _ I i Hi) as [E|[_ ?]]; [|done].
  rewrite ROOTDEV_1 in *. congruence.
Qed.

(** The block's contents change to what is stored in its buffer. *)
Definition set_data (i : nat) (d : list Z) (t : fsst) : fsst := mod_buf i (set_b_data d) t.

Lemma set_data_ok t pid H P i d :
  cache_inv t pid H P → i ∈ H →
  let t' := set_data i d t in
  cache_inv t' pid H P ∧ cached t' (b_blockno (buf_at i t)) i ∧ b_data (buf_at i t') = d ∧
  (∀ b, bview t' b = if decide (b = b_blockno (buf_at i t)) then d else bview t b) ∧
  ∀ j, j ∈ H → j ≠ i → core (buf_at j t') = core (buf_at j t).
Proof.
  intros I Hin t'. destruct (held_facts t pid H P i I Hin) as (Hi & Hc & Hv & Hl).
  pose proof (bufs_len I) as Hlen.
  assert (buf_at i t' = set_b_data d (buf_at i t)) as Ei by (unfold t', set_data; by rewrite buf_at_mod, decide_True).
  assert (others i t t') as Ho by (by apply others_mod).
  assert (cache_inv t' pid H P) as I'.
  { apply (cache_update t t' pid H P H P i); rewrite ?Ei; try done; cbn.
    - apply lru_mod_buf; try done. apply (cv_lru _ _ _ _ I).
    - split; [apply Hc|done].
    - intros j Hj Hcj. apply Hj. by eapply (cv_uniq _ _ _ _ I).
    - by apply (cv_ref _ _ _ _ I).
    - by rewrite decide_True.
    - apply (cv_held _ _ _ _ I).
    - intros b' Hb' HP. split; [done|]. intros (_ & _ & E). congruence.
    - apply (cv_pins _ _ _ _ I). }
  assert (cached t' (b_blockno (buf_at i t)) i) as Hc' by (unfold cached in *; by rewrite Ei).
  split_and!; try done; [by rewrite Ei| |].
  - intros b. case_decide as Hd.
    + subst. rewrite (bview_cached I' _ i) by done. by rewrite Ei.
    + apply (bview_update t t' pid H P H P i b I I' Hi Ho).
      * intros (_ & _ & E). rewrite Ei in E. simpl in E. congruence.
      * intros Hnc Hnj. change (f_disk t') with (f_disk t). symmetry. apply (bview_uncached b).
        intros j Hcj. destruct (decide (j = i)) as [->|Hj]; [|by apply (Hnj j)].
        apply Hnc. unfold cached in *. by rewrite Ei.
  - intros j Hj Hne. apply Ho; [|done]. by apply (cv_held _ _ _ _ I).
Qed.

Lemma holding_ok t h pid H P i :
  cache_inv t pid H P → bio_free h → i ∈ H →
  holdingsleep (SLbuf i) (Solo t h pid) = Ok true (Solo t h pid).
Proof.
  intros I [_ Hh] Hin. rewrite holdingsleep_solo by done. cbn.
  destruct (held_facts t pid H P i I Hin) as (_ & _ & _ & ->). cbn. by rewrite Z.eqb_refl.
Qed.

(** ** bwrite *)
Lemma disk_block_write b v d b' :
  disk_block (disk_write b v d) b' = if decide (b' = b) then v else disk_block d b'.
Proof.
  unfold disk_block, disk_write. cbn. rewrite lookup_insert. repeat case_decide; subst; try done.
Qed.

Lemma bwrite_ok t h pid H P i :
  cache_inv t pid H P → bio_free h → i ∈ H →
  let b := b_blockno (buf_at i t) in
  ∃ t', bwrite i (Solo t h pid) = Ok tt (Solo t' h pid) ∧ cache_inv t' pid H P ∧
    f_disk t' = disk_write b (b_data (buf_at i t)) (f_disk t) ∧ f_bufs t' = f_bufs t ∧
    (∀ b', bview t' b' = bview t b') ∧ same_rest t t'.
Proof.
  intros I Hf Hin b. destruct (held_facts t pid H P i I Hin) as (Hi & Hc & Hv & Hl).
  unfold bwrite. rewrite (bind_ok _ _ _ _ _ (holding_ok t h pid H P i I Hf Hin)).
  cbn [negb]. cbv iota. unfold disk_rw. rewrite upd_solo.
  set (t' := set_f_disk _ t). exists t'.
  assert (∀ j, buf_at j t' = buf_at j t) as Eb by done.
  assert (cache_inv t' pid H P) as I'.
  { apply (cache_update t t' pid H P H P i); rewrite ?Eb; try done; cbn.
    - apply (cv_lru _ _ _ _ I).
    - split; [apply Hc|done].
    - intros j Hj Hcj. apply Hj. by eapply (cv_uniq _ _ _ _ I).
    - by apply (cv_ref _ _ _ _ I).
    - by rewrite decide_True.
    - apply (cv_held _ _ _ _ I).
    - intros b' Hb' HP. split; [done|]. intros (_ & _ & E). congruence.
    - apply (cv_pins _ _ _ _ I).
    - intros b' j Hj Hcj. rewrite disk_block_write, decide_False; [done|].
      intros ->. apply Hj. by eapply (cv_uniq _ _ _ _ I). }
  split_and!; try done. intros b'. apply (bview_update t t' pid H P H P i b' I I' Hi).
  - intros j _ _. by rewrite Eb.
  - intros Hcb. rewrite Eb. symmetry. by apply (bview_cached I).
  - intros Hnc Hnj. cbn. rewrite disk_block_write, decide_False.
    + symmetry. apply (bview_uncached b'). intros j Hcj.
      destruct (decide (j = i)) as [->|Hj]; [done|by apply (Hnj j)].
    + intros ->. by apply Hnc.
Qed.

(** ** brelse *)
Lemma core_put_next i v bufs j :
  core (default buf0 (put_next i v bufs !! j)) = core (default buf0 (bufs !! j)).
Proof.
  unfold put_next. destruct (decide (i = j)) as [->|Hne].
  - rewrite list_lookup_alter_eq. by destruct (bufs !! j).
  - by rewrite list_lookup_alter_ne.
Qed.
Lemma core_put_prev i v bufs j :
  core (default buf0 (put_prev i v bufs !! j)) = core (default buf0 (bufs !! j)).
Proof.
  unfold put_prev. destruct (decide (i = j)) as [->|Hne].
  - rewrite list_lookup_alter_eq. by destruct (bufs !! j).
  - by rewrite list_lookup_alter_ne.
Qed.
Lemma core_move i bufs j :
  core (default buf0 (link_front i (unlink i bufs) !! j)) = core (default buf0 (bufs !! j)).
Proof. unfold link_front, unlink. by rewrite !core_put_next, ?core_put_prev, ?core_put_next, ?core_put_prev. Qed.

Lemma lru_move i bufs :
  (i < HEAD)%nat → (∃ l, lru_list bufs l ∧ ∀ j, (j < HEAD)%nat → j ∈ l) →
  ∃ l, lru_list (link_front i (unlink i bufs)) l ∧ ∀ j, (j < HEAD)%nat → j ∈ l.
Proof.
  intros Hi (l & Hl & Hall). destruct (list_elem_of_split l i (Hall i Hi)) as (p & q & ->).
  exists (i :: p ++ q). split.
  - apply link_front_spec; [by apply unlink_spec| |done].
    destruct (ll_index _ _ Hl) as [Hnd _]. apply NoDup_app in Hnd as (_ & Hd & [? _]%NoDup_cons). set_solver.
  - intros j Hj%Hall. set_solver.
Qed.

(** The buffer is released; it must be clean unless the log has pinned it. *)
Lemma brelse_ok t h pid H H' P i :
  cache_inv t pid H P → bio_free h → H ≡ₚ i :: H' →
  let b := b_blockno (buf_at i t) in
  (b ∈ P ∨ b_data (buf_at i t) = disk_block (f_disk t) b) →
  ∃ t', brelse i (Solo t h pid) = Ok tt (Solo t' h pid) ∧ cache_inv t' pid H' P ∧
    f_disk t' = f_disk t ∧ (∀ b', bview t' b' = bview t b') ∧ same_rest t t' ∧
    ∀ j, j ∈ H' → core (buf_at j t') = core (buf_at j t).
Proof.
  intros I Hf Hperm b Hclean. assert (i ∈ H) as Hin by (rewrite Hperm; left).
  destruct (held_facts t pid H P i I Hin) as (Hi & Hc & Hv & Hl).
  pose proof (bufs_len I) as Hlen.
  destruct (cv_held _ _ _ _ I) as [HndH HHlt]. rewrite Hperm in HndH. apply NoDup_cons in HndH as [Hni HndH'].
  unfold brelse. rewrite (bind_ok _ _ _ _ _ (holding_ok t h pid H P i I Hf Hin)).
  cbn [negb]. cbv iota. destruct Hf as [Hf1 Hf2].
  rewrite (bind_ok _ _ _ _ _ (releasesleep_solo (SLbuf i) t h pid (Hf2 _))).
  rewrite bind_acquire_solo by done. krun. cbn [sl_set fs_sleeplocks]. rewrite mod_buf_compose.
  set (t1 := mod_buf i _ t).
  assert (buf_at i t1 = set_b_refcnt (u32 (b_refcnt (buf_at i t) - 1)) (set_b_lock (SleepLock 0 0) (buf_at i t))) as Ei.
  { unfold t1. by rewrite buf_at_mod, decide_True. }
  assert (∃ t', (if b_refcnt (buf_at i t1) =? 0
     then upd (λ t, set_f_bufs (link_front i (unlink i (f_bufs t))) t) else ret tt)
       (Solo t1 (Lbcache :: h) pid) = Ok tt (Solo t' (Lbcache :: h) pid) ∧
     (∀ j, core (buf_at j t') = core (buf_at j t1)) ∧ f_disk t' = f_disk t ∧ same_rest t t' ∧
     ∃ l, lru_list (f_bufs t') l ∧ ∀ j, (j < HEAD)%nat → j ∈ l) as (t' & E & Hcore & Hd & Hs & Hlru).
  { assert (∃ l, lru_list (f_bufs t1) l ∧ ∀ j, (j < HEAD)%nat → j ∈ l) as Hlru1.
    { apply lru_mod_buf; try done. apply (cv_lru _ _ _ _ I). }
    case_if.
    - eexists. split; [apply upd_solo|]. split_and!; try done; [intros j; apply core_move|].
      by apply lru_move.
    - exists t1. by split_and!. }
  rewrite (bind_ok _ _ _ _ _ E). rewrite release_solo. exists t'.
  destruct (core_eq _ _ (Hcore i)) as (C1 & C2 & C3 & C4 & C5 & C6). rewrite Ei in C1, C2, C3, C4, C5, C6.
  cbn in C1, C2, C3, C4, C5, C6.
  assert (others i t t') as Ho.
  { intros j Hj Hne. rewrite Hcore. unfold t1. by rewrite buf_at_mod, decide_False. }
  assert (∀ j, j ≠ i → j ∈ H' ↔ j ∈ H) as HH by (intros j Hj; rewrite Hperm, elem_of_cons; naive_solver).
  assert (cache_inv t' pid H' P) as I'.
  { apply (cache_update t t' pid H P H' P i); try done.
    - rewrite C1, C2. split; [apply Hc|done].
    - intros j Hj Hcj. rewrite C3 in Hcj. apply Hj. by eapply (cv_uniq _ _ _ _ I).
    - rewrite C5. rewrite (cv_ref _ _ _ _ I) by done. rewrite decide_True, decide_False by done.
      unfold pinned. rewrite C2, C3. destruct (bool_decide _); done.
    - rewrite decide_False, C4 by done. done.
    - intros b' Hb' HP. split; [done|]. rewrite C3 in Hb'. intros (_ & _ & E'). congruence.
    - apply (cv_pins _ _ _ _ I).
    - intros b' j _ _. by rewrite Hd.
    - rewrite C3, C6, Hd. intros _ HnP. by destruct Hclean. }
  split_and!; try done.
  - intros b'. apply (bview_update t t' pid H P H' P i b' I I' Hi Ho).
    + intros (_ & _ & E'). rewrite C3 in E'. subst b'. rewrite C6. symmetry. by apply (bview_cached I).
    + intros Hnc Hnj. rewrite Hd. symmetry. apply (bview_uncached b'). intros j Hcj.
      destruct (decide (j = i)) as [->|Hj]; [|by apply (Hnj j)]. apply Hnc. unfold cached in *. by rewrite C2, C3.
  - intros j Hj. apply Ho; [|by intros ->]. apply HHlt. rewrite Hperm. by right.
Qed.

(** ** bpin and bunpin: the reference the log holds *)
Lemma repin_ok t pid H P P' i r :
  cache_inv t pid H P → i ∈ H → NoDup P' →
  (∀ b, b ≠ b_blockno (buf_at i t) → b ∈ P' ↔ b ∈ P) →
  r = 1 + (if decide (b_blockno (buf_at i t) ∈ P') then 1 else 0) →
  let t' := mod_buf i (set_b_refcnt r) t in
  cache_inv t' pid H P' ∧ (∀ b, bview t' b = bview t b) ∧
  ∀ j, b_blockno (buf_at j t') = b_blockno (buf_at j t) ∧ b_data (buf_at j t') = b_data (buf_at j t).
Proof.
  intros I Hin Hnd HP Hr t'. destruct (held_facts t pid H P i I Hin) as (Hi & Hc & Hv & Hl).
  pose proof (bufs_len I) as Hlen.
  assert (buf_at i t' = set_b_refcnt r (buf_at i t)) as Ei by (unfold t'; by rewrite buf_at_mod, decide_True).
  assert (others i t t') as Ho by (by apply others_mod).
  assert (cache_inv t' pid H P') as I'.
  { apply (cache_update t t' pid H P H P' i); rewrite ?Ei; try done; cbn.
    - apply lru_mod_buf; try done. apply (cv_lru _ _ _ _ I).
    - split; [apply Hc|done].
    - intros j Hj Hcj. apply Hj. by eapply (cv_uniq _ _ _ _ I).
    - rewrite decide_True by done. rewrite Hr. f_equal. unfold pinned. cbn.
      destruct Hc as (_ & Hd & _). destruct (decide _) as [Hp|Hp];
        [by rewrite bool_decide_true | rewrite bool_decide_false; tauto].
    - by rewrite decide_True.
    - apply (cv_held _ _ _ _ I).
    - intros b' Hb' HP'. split; [by apply HP|]. intros (_ & _ & E). congruence.
    - intros b' j Hj Hcj. rewrite HP; [done|]. intros ->. apply Hj. by eapply (cv_uniq _ _ _ _ I). }
  split_and!; try done.
  - intros b. apply (bview_update t t' pid H P H P' i b I I' Hi Ho).
    + intros (_ & _ & E). rewrite Ei in E. simpl in E. subst b. rewrite Ei. symmetry. by apply (bview_cached I).
    + intros Hnc Hnj. change (f_disk t') with (f_disk t). symmetry. apply (bview_uncached b).
      intros j Hcj. destruct (decide (j = i)) as [->|Hj]; [|by apply (Hnj j)].
      apply Hnc. unfold cached in *. by rewrite Ei.
  - intros j. unfold t'. rewrite buf_at_mod by done. destruct (decide (j = i)); by split.
Qed.

Lemma bpin_ok t h pid H P i :
  cache_inv t pid H P → Lbcache ∉ h → i ∈ H → b_blockno (buf_at i t) ∉ P →
  ∃ t', bpin i (Solo t h pid) = Ok tt (Solo t' h pid) ∧
    cache_inv t' pid H (b_blockno (buf_at i t) :: P) ∧ (∀ b, bview t' b = bview t b) ∧
    f_disk t' = f_disk t ∧ same_rest t t' ∧
    ∀ j, b_blockno (buf_at j t') = b_blockno (buf_at j t) ∧ b_data (buf_at j t') = b_data (buf_at j t).
Proof.
  intros I Hh Hin HnP. destruct (held_facts t pid H P i I Hin) as (Hi & Hc & _ & _).
  unfold bpin. rewrite bind_acquire_solo by done. krun. eexists. split; [done|].
  destruct (repin_ok t pid H P (b_blockno (buf_at i t) :: P) i 2 I Hin) as (I' & V & C).
  - apply NoDup_cons. split; [done|]. apply (cv_pins _ _ _ _ I).
  - set_solver.
  - by rewrite decide_True by left.
  - assert (u32 (b_refcnt (buf_at i t) + 1) = 2) as E.
    { rewrite (cv_ref _ _ _ _ I) by done. rewrite decide_True by done. unfold pinned.
      rewrite bool_decide_false by tauto. done. }
    assert (mod_buf i (λ x, set_b_refcnt (u32 (b_refcnt x + 1)) x) t = mod_buf i (set_b_refcnt 2) t) as ->.
    { unfold mod_buf. f_equal. apply list_alter_ext; [|done]. intros x Hx.
      unfold buf_at in E. rewrite Hx in E. simpl in E. by rewrite E. }
    by split_and!.
Qed.

Lemma bunpin_ok t h pid H P P' i :
  cache_inv t pid H P → Lbcache ∉ h → i ∈ H → P ≡ₚ b_blockno (buf_at i t) :: P' →
  ∃ t', bunpin i (Solo t h pid) = Ok tt (Solo t' h pid) ∧
    cache_inv t' pid H P' ∧ (∀ b, bview t' b = bview t b) ∧
    f_disk t' = f_disk t ∧ same_rest t t' ∧
    ∀ j, b_blockno (buf_at j t') = b_blockno (buf_at j t) ∧ b_data (buf_at j t') = b_data (buf_at j t).
Proof.
  intros I Hh Hin Hperm. destruct (held_facts t pid H P i I Hin) as (Hi & Hc & _ & _).
  unfold bunpin. rewrite bind_acquire_solo by done. krun. eexists. split; [done|].
  destruct (cv_pins _ _ _ _ I) as [Hnd _]. rewrite Hperm in Hnd. apply NoDup_cons in Hnd as [HnP' Hnd'].
  destruct (repin_ok t pid H P P' i 1 I Hin) as (I' & V & C); [done|..].
  - intros b Hb. rewrite Hperm, elem_of_cons. naive_solver.
  - by rewrite decide_False.
  - assert (u32 (b_refcnt (buf_at i t) - 1) = 1) as E.
    { rewrite (cv_ref _ _ _ _ I) by done. rewrite decide_True by done. unfold pinned.
      rewrite bool_decide_true; [done|]. rewrite Hperm. split; [apply Hc|left]. }
    assert (mod_buf i (λ x, set_b_refcnt (u32 (b_refcnt x - 1)) x) t = mod_buf i (set_b_refcnt 1) t) as ->.
    { unfold mod_buf. f_equal. apply list_alter_ext; [|done]. intros x Hx.
      unfold buf_at in E. rewrite Hx in E. simpl in E. by rewrite E. }
    by split_and!.
Qed.

(** ** Boot

    [bcache], [log] and [itable] are in the bss; [binit] links the buffers. *)
Definition boot_list : list buf := binit_list (replicate (S HEAD) buf0).
Definition boot_fs (m : gmap Z (list Z)) : fsst :=
  Fsst boot_list (Disk m []) (Log 0 0 0 0 0 0 (replicate 30 0))
    (Superblock 0 0 0 0 0 0 0 0) (replicate 50 inode0).

Lemma boot_bufs i : (i < HEAD)%nat →
  b_dev (default buf0 (boot_list !! i)) = 0 ∧ b_refcnt (default buf0 (boot_list !! i)) = 0 ∧
  sl_locked (b_lock (default buf0 (boot_list !! i))) = 0.
Proof.
  assert (H : forallb (λ i, let x := default buf0 (boot_list !! i) in
    (b_dev x =? 0) && (b_refcnt x =? 0) && (sl_locked (b_lock x) =? 0)) (seq 0 HEAD) = true)
    by (vm_compute; reflexivity).
  rewrite forallb_forall in H. intros Hi. specialize (H i). rewrite in_seq in H.
  specialize (H ltac:(lia)). cbn zeta in H. bool_to_prop. split_and!; assumption.
Qed.

Lemma boot_lru : lru_list boot_list (reverse (seq 0 HEAD)).
Proof. apply binit_spec, length_replicate. Qed.
#[local] Opaque boot_list.

Lemma boot_not_cached m b i : ¬ cached (boot_fs m) b i.
Proof.
  intros (Hi & Hd & _). destruct (boot_bufs i Hi) as [H0 _]. unfold buf_at, boot_fs in Hd.
  cbn [f_bufs] in Hd. rewrite H0, ROOTDEV_1 in Hd. lia.
Qed.

Lemma boot_cache m pid : cache_inv (boot_fs m) pid [] [].
Proof.
  split.
  - exists (reverse (seq 0 HEAD)). split; [apply boot_lru|].
    intros i Hi. rewrite elem_of_reverse, elem_of_seq. lia.
  - intros i Hi. left. exact (proj1 (boot_bufs i Hi)).
  - intros b i j Hc. by apply boot_not_cached in Hc.
  - intros i Hi. rewrite decide_False by apply not_elem_of_nil.
    destruct (boot_bufs i Hi) as (Hd & Hr & _). unfold pinned.
    rewrite bool_decide_false; [exact Hr|]. intros [Hdv _].
    unfold buf_at, boot_fs in Hdv. cbn [f_bufs] in Hdv. rewrite Hd, ROOTDEV_1 in Hdv. lia.
  - intros i Hi. rewrite decide_False by apply not_elem_of_nil.
    exact (proj2 (proj2 (boot_bufs i Hi))).
  - split; [constructor|]. by intros i ?%elem_of_nil.
  - split; [constructor|]. by intros i ?%elem_of_nil.
  - intros i b Hc. by apply boot_not_cached in Hc.
Qed.

(** Contents of a block of the disk image [m]. *)
Definition image (m : gmap Z (list Z)) (b : Z) : list Z := default zero_block (m !! b).

Lemma boot_bview m b : bview (boot_fs m) b = image m b.
Proof. rewrite bview_uncached; [done|]. intros i. apply boot_not_cached. Qed.

(** C15: The cache is transparent.  To read a block, change it and write it
    through returns; the block read is the block's content as seen through
    the cache; afterwards the disk holds the new content, every other block
    reads as before, whether it was cached or its buffer was recycled, and
    no buffer stays locked. *)
Theorem cache_transparent t h pid P b f :
  cache_inv t pid [] P → bio_free h → (length P < HEAD)%nat →
  ∃ t', (i ← bread ROOTDEV b;
         d ← get (λ t, b_data (buf_at i t));
         upd (set_data i (f d)) ;; bwrite i ;; brelse i ;; ret d) (Solo t h pid)
        = Ok (bview t b) (Solo t' h pid) ∧
    cache_inv t' pid [] P ∧ same_rest t t' ∧
    f_disk t' = disk_write b (f (bview t b)) (f_disk t) ∧
    ∀ b', bview t' b' = if decide (b' = b) then f (bview t b) else bview t b'.
Proof.
  intros I Hf Hcap.
  destruct (bread_ok t h pid [] P b I Hf) as (i & t1 & E1 & I1 & _ & Hc1 & D1 & V1 & K1 & R1 & _);
    [set_solver|simpl; lia|].
  rewrite (bind_ok _ _ _ _ _ E1), bind_get_solo, D1. rewrite bind_upd_solo.
  assert (i ∈ [i]) as Hin by left. assert (b_blockno (buf_at i t1) = b) as Eb by apply Hc1.
  destruct (set_data_ok t1 pid [i] P i (f (bview t b)) I1 Hin) as (I2 & Hc2 & D2 & V2 & _).
  set (t2 := set_data i _ t1) in *. rewrite Eb in Hc2, V2.
  destruct (bwrite_ok t2 h pid [i] P i I2 Hf Hin) as (t3 & E3 & I3 & K3 & B3 & V3 & R3).
  rewrite (bind_ok _ _ _ _ _ E3).
  assert (b_blockno (buf_at i t2) = b) as Eb2 by apply Hc2. rewrite Eb2, D2 in K3.
  assert (buf_at i t3 = buf_at i t2) as E23 by (unfold buf_at; by rewrite B3).
  destruct (brelse_ok t3 h pid [i] [] P i I3 Hf) as (t4 & E4 & I4 & K4 & V4 & R4 & _); [done| |].
  { right. rewrite E23, Eb2, D2, K3, disk_block_write. by rewrite decide_True. }
  rewrite (bind_ok _ _ _ _ _ E4). exists t4. split; [done|]. split; [done|].
  assert (f_disk t2 = f_disk t1 ∧ same_rest t1 t2) as [K2 R2] by done.
  split; [|split].
  - unfold same_rest in *. destruct R1 as (?&?&?), R2 as (?&?&?), R3 as (?&?&?), R4 as (?&?&?).
    split_and!; congruence.
  - by rewrite K4, K3, K2, K1.
  - intros b'. rewrite V4, V3, V2. case_decide; [done|]. by rewrite V1.
Qed.

Lemma cache_transparent_witness :
  ∃ t', (i ← bread ROOTDEV 70;
         d ← get (λ t, b_data (buf_at i t));
         upd (set_data i (<[0%nat := 9]> d)) ;; bwrite i ;; brelse i ;; ret d) (Solo (boot_fs {[70 := replicate 1024 5]}) [] 1)
        = Ok (replicate 1024 5) (Solo t' [] 1) ∧
    f_disk t' = disk_write 70 (9 :: replicate 1023 5) (f_disk (boot_fs {[70 := replicate 1024 5]})).
Proof.
  destruct (cache_transparent (boot_fs {[70 := replicate 1024 5]}) [] 1 [] 70 (λ d, <[0%nat := 9]> d))
    as (t' & E & _ & _ & K & _);
    [apply boot_cache | by split; [apply not_elem_of_nil | intros; apply not_elem_of_nil] | apply Nat.lt_0_succ |].
  assert (bview (boot_fs {[70 := replicate 1024 5]}) 70 = replicate 1024 5) as V
    by (rewrite boot_bview; unfold image; by rewrite lookup_singleton_eq).
  rewrite V in E, K. exists t'. split; [exact E|exact K].
Defined.
