(* ===== verification/Virtio.v ===== *)
(** * The disk driver ([kernel/virtio_disk.c], [kernel/virtio.h])

    The driver and the device share a table of descriptors, the ring of
    requests the driver offers and the ring of requests the device has
    finished.  Pointers in descriptors are symbolic: a command header, the
    data of a buffer, a status byte.  The device is a parameter: what it does
    to the shared memory while the driver sleeps, and what its registers
    read.  The flag [b->disk] of a buffer belongs to the driver and is kept
    in its state. *)

From S2P Require Import Base Riscv Mem Kalloc Kernel FsState Bio.
Local Open Scope Z_scope.
Local Open Scope kernel_scope.

Definition NUM : Z := 8.
Definition VRING_DESC_F_NEXT : Z := 1.
Definition VRING_DESC_F_WRITE : Z := 2.
Definition VIRTIO_BLK_T_IN : Z := 0.
Definition VIRTIO_BLK_T_OUT : Z := 1.

(** Registers. *)
Definition VIRTIO_MMIO_MAGIC_VALUE : Z := 0x000.
Definition VIRTIO_MMIO_VERSION : Z := 0x004.
Definition VIRTIO_MMIO_DEVICE_ID : Z := 0x008.
Definition VIRTIO_MMIO_VENDOR_ID : Z := 0x00c.
Definition VIRTIO_MMIO_DEVICE_FEATURES : Z := 0x010.
Definition VIRTIO_MMIO_DRIVER_FEATURES : Z := 0x020.
Definition VIRTIO_MMIO_QUEUE_SEL : Z := 0x030.
Definition VIRTIO_MMIO_QUEUE_NUM_MAX : Z := 0x034.
Definition VIRTIO_MMIO_QUEUE_NUM : Z := 0x038.
Definition VIRTIO_MMIO_QUEUE_READY : Z := 0x044.
Definition VIRTIO_MMIO_QUEUE_NOTIFY : Z := 0x050.
Definition VIRTIO_MMIO_INTERRUPT_STATUS : Z := 0x060.
Definition VIRTIO_MMIO_INTERRUPT_ACK : Z := 0x064.
Definition VIRTIO_MMIO_STATUS : Z := 0x070.
Definition VIRTIO_MMIO_QUEUE_DESC_LOW : Z := 0x080.
Definition VIRTIO_MMIO_QUEUE_DESC_HIGH : Z := 0x084.
Definition VIRTIO_MMIO_DRIVER_DESC_LOW : Z := 0x090.
Definition VIRTIO_MMIO_DRIVER_DESC_HIGH : Z := 0x094.
Definition VIRTIO_MMIO_DEVICE_DESC_LOW : Z := 0x0a0.
Definition VIRTIO_MMIO_DEVICE_DESC_HIGH : Z := 0x0a4.

(** Feature bits the driver turns off. *)
Definition features_off : list Z := [5; 7; 11; 12; 27; 29; 28].

(** What a descriptor points to: nothing, [disk.ops[i]], [b->data] of buffer
    [b], [disk.info[i].status]. *)
Inductive daddr := DNull | DOps (i : nat) | DData (b : nat) | DStatus (i : nat).

(** [struct virtq_desc] *)
Record virtq_desc := Desc {
  d_addr : daddr;
  d_len : Z;
  d_flags : Z;
  d_next : Z;
}.
Definition set_d_addr (v : daddr) (r : virtq_desc) : virtq_desc :=
  Desc v (d_len r) (d_flags r) (d_next r).
Definition set_d_len (v : Z) (r : virtq_desc) : virtq_desc :=
  Desc (d_addr r) v (d_flags r) (d_next r).
Definition set_d_flags (v : Z) (r : virtq_desc) : virtq_desc :=
  Desc (d_addr r) (d_len r) v (d_next r).
Definition set_d_next (v : Z) (r : virtq_desc) : virtq_desc :=
  Desc (d_addr r) (d_len r) (d_flags r) v.
Definition desc0 : virtq_desc := Desc DNull 0 0 0.

(** [struct virtio_blk_req]; [reserved] is always 0. *)
Record virtio_blk_req := BlkReq { r_type : Z; r_sector : Z }.
Definition req0 : virtio_blk_req := BlkReq 0 0.

(** [disk.info[i]]; the null pointer is [None]. *)
Record vinfo := Info { in_b : option nat; in_status : Z }.
Definition set_in_b (v : option nat) (r : vinfo) : vinfo := Info v (in_status r).
Definition set_in_status (v : Z) (r : vinfo) : vinfo := Info (in_b r) v.
Definition info0 : vinfo := Info None 0.

(** [struct disk] with the queue memory: [v_uidx] and [v_used_ring] are
    [used->idx] and the ids in [used->ring], [v_used_idx] is [disk.used_idx],
    [v_busy] the [disk] flags of the buffers, [v_mmio] the register writes. *)
Record vdisk := Vdisk {
  v_desc : list virtq_desc;
  v_avail_idx : Z;
  v_avail_ring : list Z;
  v_uidx : Z;
  v_used_ring : list Z;
  v_free : list Z;
  v_used_idx : Z;
  v_info : list vinfo;
  v_ops : list virtio_blk_req;
  v_busy : gmap nat Z;
  v_mmio : list (Z * Z);
}.
Definition set_v_desc (v : list virtq_desc) (r : vdisk) : vdisk :=
  Vdisk v (v_avail_idx r) (v_avail_ring r) (v_uidx r) (v_used_ring r) (v_free r) (v_used_idx r) (v_info r) (v_ops r) (v_busy r) (v_mmio r).
Definition set_v_avail_idx (v : Z) (r : vdisk) : vdisk :=
  Vdisk (v_desc r) v (v_avail_ring r) (v_uidx r) (v_used_ring r) (v_free r) (v_used_idx r) (v_info r) (v_ops r) (v_busy r) (v_mmio r).
Definition set_v_avail_ring (v : list Z) (r : vdisk) : vdisk :=
  Vdisk (v_desc r) (v_avail_idx r) v (v_uidx r) (v_used_ring r) (v_free r) (v_used_idx r) (v_info r) (v_ops r) (v_busy r) (v_mmio r).
Definition set_v_uidx (v : Z) (r : vdisk) : vdisk :=
  Vdisk (v_desc r) (v_avail_idx r) (v_avail_ring r) v (v_used_ring r) (v_free r) (v_used_idx r) (v_info r) (v_ops r) (v_busy r) (v_mmio r).
Definition set_v_used_ring (v : list Z) (r : vdisk) : vdisk :=
  Vdisk (v_desc r) (v_avail_idx r) (v_avail_ring r) (v_uidx r) v (v_free r) (v_used_idx r) (v_info r) (v_ops r) (v_busy r) (v_mmio r).
Definition set_v_free (v : list Z) (r : vdisk) : vdisk :=
  Vdisk (v_desc r) (v_avail_idx r) (v_avail_ring r) (v_uidx r) (v_used_ring r) v (v_used_idx r) (v_info r) (v_ops r) (v_busy r) (v_mmio r).
Definition set_v_used_idx (v : Z) (r : vdisk) : vdisk :=
  Vdisk (v_desc r) (v_avail_idx r) (v_avail_ring r) (v_uidx r) (v_used_ring r) (v_free r) v (v_info r) (v_ops r) (v_busy r) (v_mmio r).
Definition set_v_info (v : list vinfo) (r : vdisk) : vdisk :=
  Vdisk (v_desc r) (v_avail_idx r) (v_avail_ring r) (v_uidx r) (v_used_ring r) (v_free r) (v_used_idx r) v (v_ops r) (v_busy r) (v_mmio r).
Definition set_v_ops (v : list virtio_blk_req) (r : vdisk) : vdisk :=
  Vdisk (v_desc r) (v_avail_idx r) (v_avail_ring r) (v_uidx r) (v_used_ring r) (v_free r) (v_used_idx r) (v_info r) v (v_busy r) (v_mmio r).
Definition set_v_busy (v : gmap nat Z) (r : vdisk) : vdisk :=
  Vdisk (v_desc r) (v_avail_idx r) (v_avail_ring r) (v_uidx r) (v_used_ring r) (v_free r) (v_used_idx r) (v_info r) (v_ops r) v (v_mmio r).
Definition set_v_mmio (v : list (Z * Z)) (r : vdisk) : vdisk :=
  Vdisk (v_desc r) (v_avail_idx r) (v_avail_ring r) (v_uidx r) (v_used_ring r) (v_free r) (v_used_idx r) (v_info r) (v_ops r) (v_busy r) v.

Definition desc_at (i : nat) (t : vdisk) : virtq_desc := default desc0 (v_desc t !! i).
Definition info_at (i : nat) (t : vdisk) : vinfo := default info0 (v_info t !! i).
Definition ops_at (i : nat) (t : vdisk) : virtio_blk_req := default req0 (v_ops t !! i).
Definition free_at (i : nat) (t : vdisk) : Z := default 0 (v_free t !! i).
Definition busy_at (b : nat) (t : vdisk) : Z := default 0 (v_busy t !! b).

Definition put_desc (i : nat) (d : virtq_desc) (t : vdisk) : vdisk := set_v_desc (<[i := d]> (v_desc t)) t.
Definition put_info (i : nat) (x : vinfo) (t : vdisk) : vdisk := set_v_info (<[i := x]> (v_info t)) t.
Definition put_ops (i : nat) (x : virtio_blk_req) (t : vdisk) : vdisk := set_v_ops (<[i := x]> (v_ops t)) t.
Definition put_free (i : nat) (x : Z) (t : vdisk) : vdisk := set_v_free (<[i := x]> (v_free t)) t.
Definition put_busy (b : nat) (x : Z) (t : vdisk) : vdisk := set_v_busy (<[b := x]> (v_busy t)) t.
Definition write_mmio (r v : Z) (t : vdisk) : vdisk := set_v_mmio (v_mmio t ++ [(r, u32 v)]) t.

(** The first free descriptor. *)
Fixpoint first_free (l : list Z) (i : nat) : option nat :=
  match l with
  | [] => None
  | x :: l => if nonzero x then Some i else first_free l (S i)
  end.

Section virtio.
  Context {S : Type} {KO : KernelOps S} {HV : HasState S vdisk} {HS : HasState S fsst}.

Definition alloc_desc : M S (option nat) :=
  o ← get (λ t, first_free (v_free t) 0);
  match o with
  | Some i => upd (put_free i 0) ;; ret (Some i)
  | None => ret None
  end.

Definition free_desc (i : nat) : M S unit :=
  if Z.of_nat i >=? NUM then panic "free_desc 1" else
  f ← get (free_at i);
  if nonzero f then panic "free_desc 2" else
  upd (put_desc i desc0) ;;
  upd (put_free i 1) ;;
  wakeup ChDiskFree.

(** A chain has at most [NUM] descriptors: freeing one twice is a panic. *)
Fixpoint free_chain (fuel : nat) (i : nat) : M S unit :=
  match fuel with
  | O => diverge
  | Datatypes.S fuel =>
      d ← get (desc_at i);
      free_desc i ;;
      if nonzero (Z.land (d_flags d) VRING_DESC_F_NEXT) then free_chain fuel (Z.to_nat (d_next d))
      else ret tt
  end.

(** The loop of [alloc3_desc]: [n] descriptors are still to be found. *)
Fixpoint alloc3_loop (n : nat) (idx : list nat) : M S (option (list nat)) :=
  match n with
  | O => ret (Some idx)
  | Datatypes.S n =>
      o ← alloc_desc;
      match o with
      | Some i => alloc3_loop n (idx ++ [i])
      | None => mfor idx free_desc ;; ret None
      end
  end.

Definition alloc3_desc : M S (option (list nat)) := alloc3_loop 3 [].

Fixpoint alloc3_wait (fuel : nat) : M S (list nat) :=
  o ← alloc3_desc;
  match o with
  | Some idx => ret idx
  | None =>
      match fuel with
      | O => diverge
      | Datatypes.S fuel => sleep ChDiskFree Ldisk ;; alloc3_wait fuel
      end
  end.

(** Format the three descriptors of a request. *)
Definition format_request (b : nat) (write : bool) (sector : Z) (i0 i1 i2 : nat) : M S unit :=
  upd (put_ops i0 (BlkReq (if write then VIRTIO_BLK_T_OUT else VIRTIO_BLK_T_IN) sector)) ;;
  upd (put_desc i0 (Desc (DOps i0) 16 VRING_DESC_F_NEXT (Z.of_nat i1))) ;;
  upd (put_desc i1 (Desc (DData b) BSIZE
    (Z.lor (if write then 0 else VRING_DESC_F_WRITE) VRING_DESC_F_NEXT) (Z.of_nat i2))) ;;
  upd (λ t, put_info i0 (set_in_status 0xff (info_at i0 t)) t) ;;
  upd (put_desc i2 (Desc (DStatus i0) 1 VRING_DESC_F_WRITE 0)).

(** Put the request in the ring and notify the device. *)
Definition submit_request (i0 : nat) : M S unit :=
  upd (λ t, set_v_avail_ring (<[Z.to_nat (v_avail_idx t mod NUM) := Z.of_nat i0]> (v_avail_ring t)) t) ;;
  upd (λ t, set_v_avail_idx (u16 (v_avail_idx t + 1)) t) ;;
  upd (write_mmio VIRTIO_MMIO_QUEUE_NOTIFY 0).

Definition virtio_disk_rw (b : nat) (write : bool) : M S unit :=
  blockno ← get (λ t : fsst, b_blockno (buf_at b t));
  let sector := u32 (blockno * (BSIZE / 512)) in
  acquire Ldisk ;;
  idx ← alloc3_wait wakeups;
  match idx with
  | [i0; i1; i2] =>
      format_request b write sector i0 i1 i2 ;;
      upd (put_busy b 1) ;;
      upd (λ t, put_info i0 (set_in_b (Some b) (info_at i0 t)) t) ;;
      submit_request i0 ;;
      wait_while wakeups (get (λ t, busy_at b t =? 1)) (ChBuf b) Ldisk ;;
      upd (λ t, put_info i0 (set_in_b None (info_at i0 t)) t) ;;
      free_chain (Z.to_nat NUM) i0 ;;
      release Ldisk
  | _ => diverge
  end.

(** ** Interrupts *)
Fixpoint virtio_intr_loop (fuel : nat) : M S unit :=
  more ← get (λ t, negb (v_used_idx t =? v_uidx t));
  if more : bool then
    match fuel with
    | O => diverge
    | Datatypes.S fuel =>
        id ← get (λ t, Z.to_nat (default 0 (v_used_ring t !! Z.to_nat (v_used_idx t mod NUM))));
        x ← get (info_at id);
        if negb (in_status x =? 0) then panic "virtio_disk_intr status" else
        match in_b x with
        | None => panic "null pointer"
        | Some b =>
            upd (put_busy b 0) ;;
            wakeup (ChBuf b) ;;
            upd (λ t, set_v_used_idx (u16 (v_used_idx t + 1)) t) ;;
            virtio_intr_loop fuel
        end
    end
  else ret tt.

(** [reg] is what the device's registers read.  The loop ends when the indices
    agree, after at most 2^16 turns. *)
Definition virtio_disk_intr (reg : Z → Z) : M S unit :=
  acquire Ldisk ;;
  upd (write_mmio VIRTIO_MMIO_INTERRUPT_ACK (Z.land (reg VIRTIO_MMIO_INTERRUPT_STATUS) 3)) ;;
  n ← get (λ t, u16 (v_uidx t - v_used_idx t));
  virtio_intr_loop (Z.to_nat n) ;;
  release Ldisk.
End virtio.

(** ** Initialisation *)
Section init.
  Context {S : Type} {KO : KernelOps S} {HV : HasState S vdisk} {HM : HasState S kmem} {LK : Link}.

Definition mm {A} (m : M kmem A) : M S A := zoom the_lens m.

(** The three pages of the queue. *)
Definition alloc_queue : M S (Z * Z * Z) :=
  desc ← mm kalloc;
  avail ← mm kalloc;
  used ← mm kalloc;
  if (desc =? 0) || (avail =? 0) || (used =? 0) then panic "virtio disk kalloc" else
  mm (kmemset desc 0 PGSIZE) ;;
  mm (kmemset avail 0 PGSIZE) ;;
  mm (kmemset used 0 PGSIZE) ;;
  upd (set_v_desc (replicate 8 desc0)) ;;
  upd (λ t, set_v_avail_idx 0 (set_v_avail_ring (replicate 8 0) t)) ;;
  upd (λ t, set_v_uidx 0 (set_v_used_ring (replicate 8 0) t)) ;;
  ret (desc, avail, used).

Definition virtio_disk_init (reg : Z → Z) : M S unit :=
  if negb (reg VIRTIO_MMIO_MAGIC_VALUE =? 0x74726976) || negb (reg VIRTIO_MMIO_VERSION =? 2) ||
     negb (reg VIRTIO_MMIO_DEVICE_ID =? 2) || negb (reg VIRTIO_MMIO_VENDOR_ID =? 0x554d4551)
  then panic "could not find virtio disk" else
  upd (write_mmio VIRTIO_MMIO_STATUS 0) ;;
  upd (write_mmio VIRTIO_MMIO_STATUS 1) ;;
  upd (write_mmio VIRTIO_MMIO_STATUS 3) ;;
  let features := foldl (λ f i, Z.land f (Z.lnot (Z.shiftl 1 i)))
    (reg VIRTIO_MMIO_DEVICE_FEATURES) features_off in
  upd (write_mmio VIRTIO_MMIO_DRIVER_FEATURES features) ;;
  upd (write_mmio VIRTIO_MMIO_STATUS 11) ;;
  let status := reg VIRTIO_MMIO_STATUS in
  if Z.land status 8 =? 0 then panic "virtio disk FEATURES_OK unset" else
  upd (write_mmio VIRTIO_MMIO_QUEUE_SEL 0) ;;
  if nonzero (reg VIRTIO_MMIO_QUEUE_READY) then panic "virtio disk should not be ready" else
  let max := reg VIRTIO_MMIO_QUEUE_NUM_MAX in
  if max =? 0 then panic "virtio disk has no queue 0" else
  if max <? NUM then panic "virtio disk max queue too short" else
  ' (desc, avail, used) ← alloc_queue;
  upd (write_mmio VIRTIO_MMIO_QUEUE_NUM NUM) ;;
  upd (write_mmio VIRTIO_MMIO_QUEUE_DESC_LOW desc) ;;
  upd (write_mmio VIRTIO_MMIO_QUEUE_DESC_HIGH (Z.shiftr desc 32)) ;;
  upd (write_mmio VIRTIO_MMIO_DRIVER_DESC_LOW avail) ;;
  upd (write_mmio VIRTIO_MMIO_DRIVER_DESC_HIGH (Z.shiftr avail 32)) ;;
  upd (write_mmio VIRTIO_MMIO_DEVICE_DESC_LOW used) ;;
  upd (write_mmio VIRTIO_MMIO_DEVICE_DESC_HIGH (Z.shiftr used 32)) ;;
  upd (write_mmio VIRTIO_MMIO_QUEUE_READY 1) ;;
  upd (set_v_free (replicate 8 1)) ;;
  upd (write_mmio VIRTIO_MMIO_STATUS (Z.lor status 4)).
End init.
