(* ===== verification/Log.v ===== *)
(** * The log ([kernel/log.c])

    A redo log of disk blocks.  System calls bracket their writes with
    [begin_op] and [end_op]; [log_write] records a block instead of writing
    it, and the last [end_op] commits all recorded blocks. *)

From S2P Require Import Base Riscv Mem Kernel Sleeplock FsState Bio.
Local Open Scope Z_scope.
Local Open Scope kernel_scope.

Definition sizeof_logheader : Z := 4 + 4 * LOGSIZE.

(** The header block: [n], then [block[0]], [block[1]], ... *)
Definition hdr_n (d : list Z) : Z := i32 (blk_get 4 0 d).
Definition hdr_block (d : list Z) (i : Z) : Z := i32 (blk_get 4 (4 + 4 * i) d).
Definition put_hdr_n (n : Z) (d : list Z) : list Z := blk_put 4 0 n d.
Definition put_hdr_block (i v : Z) (d : list Z) : list Z := blk_put 4 (4 + 4 * i) v d.

(** [log.lh.block[i]] *)
Definition lg_nth (g : logst) (i : Z) : Z := default 0 (lg_block g !! Z.to_nat i).

(** The position of [b] in the log; the number of entries when it is new. *)
Fixpoint log_index (blocks : list Z) (b : Z) : nat :=
  match blocks with
  | [] => 0
  | x :: blocks => if x =? b then 0 else S (log_index blocks b)
  end.

Section log.
  Context {S : Type} {KO : KernelOps S} {HS : HasState S fsst}.

Definition bdata (b : nat) : M S (list Z) := get (λ t, b_data (buf_at b t)).

Definition install_trans (recovering : bool) : M S unit :=
  n ← get (λ t, lg_n (f_log t));
  mfor (zseq 0 (Z.to_nat n)) (λ tail,
    g ← get f_log;
    lbuf ← bread (lg_dev g) (lg_start g + tail + 1);
    dbuf ← bread (lg_dev g) (lg_nth g tail);
    d ← bdata lbuf;
    upd (mod_buf dbuf (set_b_data d)) ;;
    bwrite dbuf ;;
    (if recovering then ret tt else bunpin dbuf) ;;
    brelse lbuf ;;
    brelse dbuf).

Definition read_head : M S unit :=
  g ← get f_log;
  buf ← bread (lg_dev g) (lg_start g);
  lh ← bdata buf;
  upd (mod_log (set_lg_n (hdr_n lh))) ;;
  mfor (zseq 0 (Z.to_nat (hdr_n lh))) (λ i,
    upd (mod_log (λ g, set_lg_block (<[Z.to_nat i := hdr_block lh i]> (lg_block g)) g))) ;;
  brelse buf.

Definition write_head : M S unit :=
  g ← get f_log;
  buf ← bread (lg_dev g) (lg_start g);
  upd (mod_buf buf (λ x, set_b_data (put_hdr_n (lg_n g) (b_data x)) x)) ;;
  mfor (zseq 0 (Z.to_nat (lg_n g))) (λ i,
    upd (mod_buf buf (λ x, set_b_data (put_hdr_block i (lg_nth g i) (b_data x)) x))) ;;
  bwrite buf ;;
  brelse buf.

Definition recover_from_log : M S unit :=
  read_head ;;
  install_trans true ;;
  upd (mod_log (set_lg_n 0)) ;;
  write_head.

Definition initlog (dev : Z) (sb : superblock) : M S unit :=
  if sizeof_logheader >=? BSIZE then panic "initlog: too big logheader" else
  upd (mod_log (set_lg_start (sb_logstart sb))) ;;
  upd (mod_log (set_lg_size (sb_nlog sb))) ;;
  upd (mod_log (set_lg_dev dev)) ;;
  recover_from_log.

(** An operation must wait while a commit runs or while its blocks might not
    fit into the log. *)
Definition log_full (g : logst) : bool :=
  nonzero (lg_committing g) ||
  (lg_n g + (lg_outstanding g + 1) * MAXOPBLOCKS >? LOGSIZE).

Definition begin_op : M S unit :=
  acquire Llog ;;
  wait_while wakeups (get (λ t, log_full (f_log t))) ChLog Llog ;;
  upd (mod_log (λ g, set_lg_outstanding (lg_outstanding g + 1) g)) ;;
  release Llog.

Definition write_log : M S unit :=
  n ← get (λ t, lg_n (f_log t));
  mfor (zseq 0 (Z.to_nat n)) (λ tail,
    g ← get f_log;
    to ← bread (lg_dev g) (lg_start g + tail + 1);
    from ← bread (lg_dev g) (lg_nth g tail);
    d ← bdata from;
    upd (mod_buf to (set_b_data d)) ;;
    bwrite to ;;
    brelse from ;;
    brelse to).

Definition commit : M S unit :=
  n ← get (λ t, lg_n (f_log t));
  if n >? 0 then
    write_log ;;
    write_head ;;
    install_trans false ;;
    upd (mod_log (set_lg_n 0)) ;;
    write_head
  else ret tt.

Definition end_op : M S unit :=
  acquire Llog ;;
  upd (mod_log (λ g, set_lg_outstanding (lg_outstanding g - 1) g)) ;;
  g ← get f_log;
  if nonzero (lg_committing g) then panic "log.committing" else
  let do_commit := lg_outstanding g =? 0 in
  (if do_commit then upd (mod_log (set_lg_committing 1)) else wakeup ChLog) ;;
  release Llog ;;
  if do_commit then
    commit ;;
    acquire Llog ;;
    upd (mod_log (set_lg_committing 0)) ;;
    wakeup ChLog ;;
    release Llog
  else ret tt.

Definition log_write (b : nat) : M S unit :=
  acquire Llog ;;
  g ← get f_log;
  if (lg_n g >=? LOGSIZE) || (lg_n g >=? lg_size g - 1) then panic "too big a transaction" else
  if lg_outstanding g <? 1 then panic "log_write outside of trans" else
  blockno ← get (λ t, b_blockno (buf_at b t));
  let i := log_index (take (Z.to_nat (lg_n g)) (lg_block g)) blockno in
  upd (mod_log (λ g, set_lg_block (<[i := blockno]> (lg_block g)) g)) ;;
  (if Z.of_nat i =? lg_n g then
     bpin b ;; upd (mod_log (λ g, set_lg_n (lg_n g + 1) g))
   else ret tt) ;;
  release Llog.
End log.

Section sim.
  Context {S : Type} {KO : KernelOps S} {HS : HasState S fsst} {KL : KernelLaws S fsst}.

Lemma sim_bdata b : sim (bdata b) (bdata b).
Proof. unfold bdata. solve_sim. Qed.
#[local] Hint Resolve sim_bdata : sim.
Lemma sim_install_trans r : sim (install_trans r) (install_trans r).
Proof. unfold install_trans. solve_sim. Qed.
Lemma sim_read_head : sim read_head read_head.
Proof. unfold read_head. solve_sim. Qed.
Lemma sim_write_head : sim write_head write_head.
Proof. unfold write_head. solve_sim. Qed.
#[local] Hint Resolve sim_install_trans sim_read_head sim_write_head : sim.
Lemma sim_recover_from_log : sim recover_from_log recover_from_log.
Proof. unfold recover_from_log. solve_sim. Qed.
#[local] Hint Resolve sim_recover_from_log : sim.
Lemma sim_initlog dev sb : sim (initlog dev sb) (initlog dev sb).
Proof. unfold initlog. solve_sim. Qed.
Lemma sim_begin_op : sim begin_op begin_op.
Proof. unfold begin_op. solve_sim. Qed.
Lemma sim_write_log : sim write_log write_log.
Proof. unfold write_log. solve_sim. Qed.
#[local] Hint Resolve sim_write_log : sim.
Lemma sim_commit : sim commit commit.
Proof. unfold commit. solve_sim. Qed.
#[local] Hint Resolve sim_commit : sim.
Lemma sim_end_op : sim end_op end_op.
Proof. unfold end_op. solve_sim. Qed.
Lemma sim_log_write b : sim (log_write b) (log_write b).
Proof. unfold log_write. solve_sim. Qed.
End sim.
#[export] Hint Resolve sim_bdata sim_install_trans sim_read_head sim_write_head sim_recover_from_log
  sim_initlog sim_begin_op sim_write_log sim_commit sim_end_op sim_log_write : sim.
