(* ===== verification/LogSpec.v ===== *)
(** * Commit and recovery

    The writes a commit sends to the disk, in order, and what recovery does
    with the disk it finds.  The main result is atomicity: whichever prefix of
    the commit's writes reached the disk before a crash, recovery leaves
    either all blocks of the transaction as they were or all of them new. *)

From S2P Require Import Base Riscv Mem Kernel Sleeplock FsState Bio BioList BioSpec Log.
Local Open Scope Z_scope.
Local Open Scope kernel_scope.

(** A cache in which no buffer is held. *)
Abbreviation cache_idle t pid P := (cache_inv t pid [] P).

Definition wrote (t t' : fsst) (b : Z) (v : list Z) : Prop :=
  f_disk t' = disk_write b v (f_disk t) ∧ same_rest t t'.

Lemma HEAD_30 : HEAD = 30%nat.
Proof. done. Qed.

Lemma same_rest_refl t : same_rest t t.
Proof. by split_and!. Qed.
Lemma same_rest_trans t1 t2 t3 : same_rest t1 t2 → same_rest t2 t3 → same_rest t1 t3.
Proof. unfold same_rest. intros (-> & -> & ->) (-> & -> & ->). done. Qed.

Lemma core_data x y : core x = core y → b_blockno x = b_blockno y ∧ b_data x = b_data y.
Proof. intros (_ & _ & ? & _ & _ & ?)%core_eq. done. Qed.

(** The body of [write_log]: block [b] is copied to log block [a]. *)
Lemma write_log_body t pid P a b :
  cache_idle t pid P → a ≠ b → a ∉ P → (length P < HEAD)%nat → b ∈ P →
  ∃ t', (to ← bread ROOTDEV a;
         from ← bread ROOTDEV b;
         d ← bdata from;
         upd (mod_buf to (set_b_data d)) ;;
         bwrite to ;;
         brelse from ;;
         brelse to) (Solo t [] pid) = Ok tt (Solo t' [] pid) ∧
    cache_idle t' pid P ∧ wrote t t' a (bview t b) ∧
    ∀ x, bview t' x = if decide (x = a) then bview t b else bview t x.
Proof.
  intros I Hab HaP Hcap HbP. assert (bio_free []) as Hf by (split; set_solver).
  destruct (bread_ok t [] pid [] P a I Hf) as (i & t1 & E1 & I1 & _ & C1 & D1 & V1 & K1 & S1 & _);
    [set_solver|done|].
  rewrite (bind_ok _ _ _ _ _ E1).
  destruct (bread_ok t1 [] pid [i] P b I1 Hf) as (j & t2 & E2 & I2 & Hij & C2 & D2 & V2 & K2 & S2 & O2).
  { intros k ->%list_elem_of_singleton. by destruct C1 as (_ & _ & ->). }
  { intros Hn. exfalso. destruct (cv_pins _ _ _ _ I1) as [_ Hp]. destruct (Hp b HbP) as [k Hk]. by apply (Hn k). }
  rewrite (bind_ok _ _ _ _ _ E2). unfold bdata. rewrite bind_get_solo, bind_upd_solo.
  assert (i ≠ j) as Hne by set_solver.
  destruct (core_data _ _ (O2 i ltac:(set_solver))) as [B2 _].
  assert (b_blockno (buf_at i t2) = a) as Ba by (rewrite B2; by destruct C1 as (_ & _ & ?)).
  destruct (set_data_ok t2 pid [j; i] P i (b_data (buf_at j t2)) I2) as (I3 & C3 & D3 & V3 & O3); [set_solver|].
  fold (set_data i (b_data (buf_at j t2)) t2). set (t3 := set_data _ _ t2) in *. rewrite Ba in *.
  destruct (bwrite_ok t3 [] pid [j; i] P i I3 Hf) as (t4 & E4 & I4 & K4 & F4 & V4 & S4); [set_solver|].
  rewrite (bind_ok _ _ _ _ _ E4).
  assert (∀ k, buf_at k t4 = buf_at k t3) as F4' by (intros k; unfold buf_at; by rewrite F4).
  destruct (core_data _ _ (O3 j ltac:(set_solver) ltac:(done))) as [B3 Dj].
  destruct C3 as (_ & _ & Bi3). rewrite Bi3, D3 in K4.
  destruct (brelse_ok t4 [] pid [j; i] [i] P j I4 Hf) as (t5 & E5 & I5 & K5 & V5 & S5 & O5); [done| |].
  { left. rewrite F4', B3. by destruct C2 as (_ & _ & ->). }
  rewrite (bind_ok _ _ _ _ _ E5).
  destruct (core_data _ _ (O5 i ltac:(set_solver))) as [B5 D5]. rewrite F4' in B5, D5.
  destruct (brelse_ok t5 [] pid [i] [] P i I5 Hf) as (t6 & E6 & I6 & K6 & V6 & S6 & _); [done| |].
  { right. rewrite D5, B5, K5, K4, Bi3, D3, disk_block_write, decide_True; done. }
  exists t6. split; [done|]. split; [done|]. split; [split|].
  - rewrite K6, K5, K4. cbn. rewrite K2, K1, D2, V1. done.
  - repeat (eapply same_rest_trans; [eassumption|]). apply same_rest_refl.
  - intros x. rewrite V6, V5, V4, V3, V2, V1, D2, V1. done.
Qed.

(** The body of [install_trans]: log block [a] is copied to its home [b]; a
    commit also drops the pin of [b]. *)
Lemma install_body t pid P P' (recovering : bool) a b :
  cache_idle t pid P → a ≠ b → (if recovering then P = [] ∧ P' = [] else P ≡ₚ b :: P') →
  (length P < HEAD)%nat → a ∉ P →
  ∃ t', (lbuf ← bread ROOTDEV a;
         dbuf ← bread ROOTDEV b;
         d ← bdata lbuf;
         upd (mod_buf dbuf (set_b_data d)) ;;
         bwrite dbuf ;;
         (if recovering then ret tt else bunpin dbuf) ;;
         brelse lbuf ;;
         brelse dbuf) (Solo t [] pid) = Ok tt (Solo t' [] pid) ∧
    cache_idle t' pid P' ∧ wrote t t' b (bview t a) ∧
    ∀ x, bview t' x = if decide (x = b) then bview t a else bview t x.
Proof.
  intros I Hab HP Hcap HaP. assert (bio_free []) as Hf by (split; set_solver).
  destruct (bread_ok t [] pid [] P a I Hf) as (i & t1 & E1 & I1 & _ & C1 & D1 & V1 & K1 & S1 & _);
    [set_solver|done|].
  rewrite (bind_ok _ _ _ _ _ E1).
  destruct (bread_ok t1 [] pid [i] P b I1 Hf) as (j & t2 & E2 & I2 & Hij & C2 & D2 & V2 & K2 & S2 & O2).
  { intros k ->%list_elem_of_singleton. by destruct C1 as (_ & _ & ->). }
  { intros Hn. destruct recovering.
    - destruct HP as [-> _]. rewrite HEAD_30. simpl. lia.
    - exfalso. destruct (cv_pins _ _ _ _ I1) as [_ Hp].
      destruct (Hp b) as [k Hk]; [rewrite HP; left|]. by apply (Hn k). }
  rewrite (bind_ok _ _ _ _ _ E2). unfold bdata. rewrite bind_get_solo, bind_upd_solo.
  assert (i ≠ j) as Hne by set_solver.
  destruct (core_data _ _ (O2 i ltac:(set_solver))) as [B2 Di2]. destruct C1 as (_ & _ & C1). rewrite C1 in B2.
  destruct C2 as (_ & _ & C2). rewrite D1 in Di2.
  destruct (set_data_ok t2 pid [j; i] P j (b_data (buf_at i t2)) I2) as (I3 & C3 & D3 & V3 & O3); [set_solver|].
  fold (set_data j (b_data (buf_at i t2)) t2). set (t3 := set_data _ _ t2) in *. rewrite C2 in *.
  destruct (bwrite_ok t3 [] pid [j; i] P j I3 Hf) as (t4 & E4 & I4 & K4 & F4 & V4 & S4); [set_solver|].
  rewrite (bind_ok _ _ _ _ _ E4).
  assert (∀ k, buf_at k t4 = buf_at k t3) as F4' by (intros k; unfold buf_at; by rewrite F4).
  destruct (core_data _ _ (O3 i ltac:(set_solver) ltac:(done))) as [B3 Di3].
  destruct C3 as (_ & _ & Bj3). rewrite Bj3, D3 in K4.
  assert (∃ t5, (if recovering then ret tt else bunpin j) (Solo t4 [] pid) = Ok tt (Solo t5 [] pid) ∧
    cache_inv t5 pid [j; i] P' ∧ (∀ x, bview t5 x = bview t4 x) ∧ f_disk t5 = f_disk t4 ∧
    same_rest t4 t5 ∧ ∀ k, b_blockno (buf_at k t5) = b_blockno (buf_at k t4) ∧
      b_data (buf_at k t5) = b_data (buf_at k t4)) as (t5 & E5 & I5 & V5 & K5 & S5 & O5).
  { destruct recovering.
    - destruct HP as [-> ->]. exists t4. split_and!; done.
    - destruct (bunpin_ok t4 [] pid [j; i] P P' j I4) as (t5 & E5 & H5); [set_solver..| |by exists t5].
      by rewrite F4', Bj3. }
  rewrite (bind_ok _ _ _ _ _ E5). destruct (O5 i) as [Bi5 Di5], (O5 j) as [Bj5 Dj5].
  rewrite !F4' in Bi5, Di5, Bj5, Dj5.
  destruct (brelse_ok t5 [] pid [j; i] [j] P' i I5 Hf) as (t6 & E6 & I6 & K6 & V6 & S6 & O6).
  { apply perm_swap. }
  { right. rewrite Bi5, Di5, B3, Di3, Di2, K5, K4, B2, disk_block_write, decide_False by done.
    cbn. rewrite K2, K1. apply (bview_clean I); [done|set_solver]. }
  rewrite (bind_ok _ _ _ _ _ E6). destruct (core_data _ _ (O6 j ltac:(set_solver))) as [B6 D6].
  destruct (brelse_ok t6 [] pid [j] [] P' j I6 Hf) as (t7 & E7 & I7 & K7 & V7 & S7 & _); [done| |].
  { right. rewrite D6, B6, Dj5, Bj5, K6, K5, K4, Bj3, D3, disk_block_write, decide_True; done. }
  exists t7. split; [done|]. split; [done|]. split; [split|].
  - rewrite K7, K6, K5, K4. cbn. rewrite K2, K1, Di2. done.
  - repeat (eapply same_rest_trans; [eassumption|]). apply same_rest_refl.
  - intros x. rewrite V7, V6, V5, V4, V3, V2, V1, Di2. done.
Qed.

(** ** Sequences of block writes *)
Definition writes (w : list (Z * list Z)) (d : disk) : disk :=
  foldl (λ d bw, disk_write bw.1 bw.2 d) d w.
Definition vwrites (w : list (Z * list Z)) (f : Z → list Z) : Z → list Z :=
  foldl (λ f bw x, if decide (x = bw.1) then bw.2 else f x) f w.

Lemma writes_trace w d : d_trace (writes w d) = d_trace d ++ w.
Proof.
  revert d. induction w as [|[b v] w IH]; intros d; simpl; [by rewrite app_nil_r|].
  rewrite IH. simpl. by rewrite <- app_assoc.
Qed.
Lemma writes_blocks w d : d_blocks (writes w d) = apply_writes w (d_blocks d).
Proof. revert d. induction w as [|[b v] w IH]; intros d; simpl; [done|]. by rewrite IH. Qed.

Lemma vwrites_ext w f g x : f x = g x → vwrites w f x = vwrites w g x.
Proof.
  revert f g. induction w as [|[b v] w IH]; intros f g Hfg; simpl; [done|].
  apply IH. by case_decide.
Qed.
Lemma vwrites_app w1 w2 f : vwrites (w1 ++ w2) f = vwrites w2 (vwrites w1 f).
Proof. apply foldl_app. Qed.
Lemma vwrites_out w f x : x ∉ w.*1 → vwrites w f x = f x.
Proof.
  revert f. induction w as [|[b v] w IH]; intros f Hx; simpl; [done|].
  rewrite IH by set_solver. rewrite decide_False; [done|]. set_solver.
Qed.
Lemma vwrites_in w f x v : NoDup w.*1 → (x, v) ∈ w → vwrites w f x = v.
Proof.
  revert f. induction w as [|[b u] w IH]; intros f Hnd Hin; [set_solver|].
  simpl in Hnd. apply NoDup_cons in Hnd as [Hn Hnd]. simpl.
  apply elem_of_cons in Hin as [[= <- <-]|Hin]; [|by apply IH].
  rewrite vwrites_out by done. by rewrite decide_True.
Qed.
Lemma disk_writes w d x : disk_block (writes w d) x = vwrites w (disk_block d) x.
Proof.
  revert d. induction w as [|[b v] w IH]; intros d; simpl; [done|].
  rewrite IH. apply vwrites_ext. apply disk_block_write.
Qed.

Definition wrote_list (t t' : fsst) (w : list (Z * list Z)) : Prop :=
  f_disk t' = writes w (f_disk t) ∧ same_rest t t'.

(** ** write_log *)
Definition log_writes (start : Z) (k : nat) (vs : list (list Z)) : list (Z * list Z) :=
  zip (zseq (start + Z.of_nat k + 1) (length vs)) vs.

Definition in_log (start size b : Z) : Prop := start ≤ b < start + size.

(** The log's parameters and the blocks recorded in it. *)
Record log_has (t : fsst) (start size : Z) (L : list Z) : Prop := {
  lh_dev : lg_dev (f_log t) = ROOTDEV;
  lh_start : lg_start (f_log t) = start;
  lh_n : lg_n (f_log t) = Z.of_nat (length L);
  lh_blocks : take (length L) (lg_block (f_log t)) = L;
  lh_nodup : NoDup L;
  lh_room : Z.of_nat (length L) < size ∧ (length L < HEAD)%nat;
  lh_home : ∀ b, b ∈ L → ¬ in_log start size b ∧ 0 ≤ b < 2 ^ 31;
}.

Lemma lg_nth_log t start size L1 b L2 :
  log_has t start size (L1 ++ b :: L2) → lg_nth (f_log t) (Z.of_nat (length L1)) = b.
Proof.
  intros [_ _ _ HL _ _ _]. unfold lg_nth. rewrite Nat2Z.id.
  assert (lg_block (f_log t) !! length L1 = Some b) as ->; [|done].
  rewrite <- (lookup_take_lt _ (length (L1 ++ b :: L2))) by (rewrite length_app; simpl; lia).
  rewrite HL. by apply list_lookup_middle.
Qed.

Lemma log_has_rest t t' start size L : same_rest t t' → log_has t start size L → log_has t' start size L.
Proof. intros (E & _ & _) []. split; rewrite ?E; done. Qed.

Lemma wrote_list_cons t t1 t2 b v w :
  wrote t t1 b v → wrote_list t1 t2 w → wrote_list t t2 ((b, v) :: w).
Proof.
  intros [K1 S1] [K2 S2]. split; [|by eapply same_rest_trans]. by rewrite K2, K1.
Qed.

Lemma write_log_loop t pid P start size L1 L2 :
  cache_idle t pid P → log_has t start size (L1 ++ L2) → (∀ b, b ∈ P ↔ b ∈ L1 ++ L2) →
  (length P < HEAD)%nat →
  let w := log_writes start (length L1) (bview t <$> L2) in
  ∃ t', mfor (zseq (Z.of_nat (length L1)) (length L2)) (λ tail,
          g ← get f_log;
          to ← bread (lg_dev g) (lg_start g + tail + 1);
          from ← bread (lg_dev g) (lg_nth g tail);
          d ← bdata from;
          upd (mod_buf to (set_b_data d)) ;;
          bwrite to ;;
          brelse from ;;
          brelse to) (Solo t [] pid) = Ok tt (Solo t' [] pid) ∧
    cache_idle t' pid P ∧ wrote_list t t' w ∧ ∀ x, bview t' x = vwrites w (bview t) x.
Proof.
  revert t L1. induction L2 as [|b L2 IH]; intros t L1 I HL HP Hcap w.
  - exists t. split_and!; try done.
  - pose proof (lg_nth_log t start size L1 b L2 HL) as Hb.
    pose proof HL as [Hdev Hst _ _ _ [Hroom _] Hhome].
    set (a := start + Z.of_nat (length L1) + 1).
    assert (in_log start size a) as Ha.
    { unfold in_log, a. rewrite length_app in Hroom. simpl in Hroom. lia. }
    assert (∀ x, x ∈ L1 ++ b :: L2 → x ≠ a) as Hna by (intros x Hx ->; by destruct (Hhome a Hx)).
    destruct (write_log_body t pid P a b I) as (t1 & E1 & I1 & W1 & V1).
    { intros E. apply (Hna b); [set_solver|done]. }
    { rewrite HP. intros Hin. by apply (Hna a). }
    { done. }
    { apply HP. set_solver. }
    cbn [zseq length mfor]. rewrite (bind_ok _ _ _ tt (Solo t1 [] pid)).
    2: { rewrite bind_get_solo, Hdev, Hst, Hb. exact E1. }
    assert (log_has t1 start size ((L1 ++ [b]) ++ L2)) as HL1.
    { rewrite <- app_assoc. simpl. eapply log_has_rest; [apply W1|done]. }
    destruct (IH t1 (L1 ++ [b]) I1 HL1) as (t2 & E2 & I2 & W2 & V2).
    { intros x. rewrite HP. set_solver. }
    { done. }
    assert (bview t1 <$> L2 = bview t <$> L2) as HV.
    { apply list_fmap_ext. intros i x Hx%list_elem_of_lookup_2. rewrite V1, decide_False; [done|].
      apply Hna. set_solver. }
    assert (log_writes start (length (L1 ++ [b])) (bview t1 <$> L2) =
            log_writes start (S (length L1)) (bview t <$> L2)) as HW.
    { rewrite HV. unfold log_writes. rewrite length_app. simpl. do 2 f_equal. lia. }
    rewrite HW in *.
    assert (w = (a, bview t b) :: log_writes start (S (length L1)) (bview t <$> L2)) as Hw.
    { unfold w, log_writes. cbn [fmap list_fmap length zseq zip zip_with]. f_equal.
      unfold a. do 2 f_equal. lia. }
    exists t2. split_and!; try done.
    + rewrite length_app in E2. simpl in E2.
      replace (Z.of_nat (length L1 + 1)) with (Z.of_nat (length L1) + 1) in E2 by lia. exact E2.
    + rewrite Hw. by eapply wrote_list_cons.
    + intros x. rewrite V2, Hw. cbn [vwrites foldl]. apply vwrites_ext. apply V1.
Qed.

Lemma write_log_ok t pid P start size L :
  cache_idle t pid P → log_has t start size L → (∀ b, b ∈ P ↔ b ∈ L) → (length P < HEAD)%nat →
  let w := log_writes start 0 (bview t <$> L) in
  ∃ t', write_log (Solo t [] pid) = Ok tt (Solo t' [] pid) ∧
    cache_idle t' pid P ∧ wrote_list t t' w ∧ ∀ x, bview t' x = vwrites w (bview t) x.
Proof.
  intros I HL HP Hcap w. unfold write_log. rewrite bind_get_solo, (lh_n _ _ _ _ HL), Nat2Z.id.
  exact (write_log_loop t pid P start size [] L I HL HP Hcap).
Qed.

(** ** The header block *)
Definition put_blocks (k : Z) (L : list Z) (d : list Z) : list Z :=
  foldl (λ d ib, put_hdr_block ib.1 ib.2 d) d (zip (zseq k (length L)) L).
Definition mk_header (L : list Z) (d : list Z) : list Z :=
  put_blocks 0 L (put_hdr_n (Z.of_nat (length L)) d).

Lemma put_blocks_cons k b L d : put_blocks k (b :: L) d = put_blocks (k + 1) L (put_hdr_block k b d).
Proof. done. Qed.

Lemma put_blocks_length k L d :
  0 ≤ k → 4 + 4 * (k + Z.of_nat (length L)) ≤ Z.of_nat (length d) → length (put_blocks k L d) = length d.
Proof.
  revert k d. induction L as [|b L IH]; intros k d Hk Hd; [done|]. rewrite put_blocks_cons.
  simpl in Hd. assert (length (put_hdr_block k b d) = length d) as E.
  { unfold put_hdr_block. apply blk_put_length; lia. }
  rewrite IH; lia.
Qed.

Lemma put_blocks_get k L d n off :
  0 ≤ k → 4 + 4 * (k + Z.of_nat (length L)) ≤ Z.of_nat (length d) → 0 ≤ off →
  off + Z.of_nat n ≤ 4 + 4 * k → blk_get n off (put_blocks k L d) = blk_get n off d.
Proof.
  revert k d. induction L as [|b L IH]; intros k d Hk Hd Ho Hn; [done|]. rewrite put_blocks_cons.
  simpl in Hd. assert (length (put_hdr_block k b d) = length d) as E.
  { unfold put_hdr_block. apply blk_put_length; lia. }
  rewrite IH by lia. unfold put_hdr_block. apply blk_get_put_ne; lia.
Qed.

Lemma put_blocks_nth k L d i b :
  0 ≤ k → 4 + 4 * (k + Z.of_nat (length L)) ≤ Z.of_nat (length d) →
  (∀ x, x ∈ L → 0 ≤ x < 2 ^ 31) → L !! i = Some b →
  hdr_block (put_blocks k L d) (k + Z.of_nat i) = b.
Proof.
  revert k d i. induction L as [|x L IH]; intros k d i Hk Hd HL Hi; [done|]. rewrite put_blocks_cons.
  simpl in Hd. assert (length (put_hdr_block k x d) = length d) as E.
  { unfold put_hdr_block. apply blk_put_length; lia. }
  destruct i as [|i]; simpl in Hi.
  - injection Hi as ->. unfold hdr_block. rewrite Z.add_0_r, put_blocks_get by lia.
    unfold put_hdr_block. rewrite blk_get_put by lia.
    pose proof (HL b ltac:(left)). rewrite Z.mod_small, i32_small by lia. done.
  - replace (k + Z.of_nat (S i)) with (k + 1 + Z.of_nat i) by lia. apply IH; try lia; try done. set_solver.
Qed.

(** The state inside a transaction: buffers [H] held by [pid], the blocks [L]
    recorded in the log and pinned in the cache, [k] operations running. *)
Record in_trans (t : fsst) (pid : Z) (H : list nat) (start size : Z) (L : list Z) (k : Z) : Prop := {
  it_cache : ∃ P, cache_inv t pid H P ∧ P ≡ₚ L;
  it_log : log_has t start size L;
  it_size : lg_size (f_log t) = size;
  it_block : length (lg_block (f_log t)) = Z.to_nat LOGSIZE;
  it_out : lg_outstanding (f_log t) = k;
  it_commit : lg_committing (f_log t) = 0;
}.

(** What recovery reads back from a header. *)
Lemma mk_header_spec L d :
  (Z.of_nat (length L) ≤ LOGSIZE) → length d = 1024%nat → (∀ x, x ∈ L → 0 ≤ x < 2 ^ 31) →
  hdr_n (mk_header L d) = Z.of_nat (length L) ∧ length (mk_header L d) = 1024%nat ∧
  ∀ i b, L !! i = Some b → hdr_block (mk_header L d) (Z.of_nat i) = b.
Proof.
  intros HL Hd Hr. change LOGSIZE with 30 in HL. unfold mk_header.
  assert (length (put_hdr_n (Z.of_nat (length L)) d) = 1024%nat) as E.
  { unfold put_hdr_n. rewrite blk_put_length; lia. }
  split_and!.
  - unfold hdr_n. rewrite put_blocks_get by lia. unfold put_hdr_n. rewrite blk_get_put by lia.
    rewrite Z.mod_small, i32_small by lia. done.
  - rewrite put_blocks_length; lia.
  - intros i b Hi. apply (put_blocks_nth 0); try done; lia.
Qed.

(** ** write_head *)
Lemma mod_set_data i F d t :
  (i < length (f_bufs t))%nat →
  mod_buf i (λ x, set_b_data (F (b_data x)) x) (set_data i d t) = set_data i (F d) t.
Proof. intros Hi. unfold set_data. rewrite mod_buf_compose. done. Qed.

Lemma write_head_loop t h pid i d g k L :
  (i < length (f_bufs t))%nat → (∀ j, (j < length L)%nat → lg_nth g (k + Z.of_nat j) = default 0 (L !! j)) →
  mfor (zseq k (length L)) (λ j,
    upd (mod_buf i (λ x, set_b_data (put_hdr_block j (lg_nth g j) (b_data x)) x)))
    (Solo (set_data i d t) h pid) = Ok tt (Solo (set_data i (put_blocks k L d) t) h pid).
Proof.
  intros Hi. revert k d. induction L as [|b L IH]; intros k d HL; [done|].
  cbn [length zseq mfor]. rewrite bind_upd_solo, mod_set_data by done.
  pose proof (HL 0%nat ltac:(simpl; lia)) as H0. rewrite Z.add_0_r in H0. simpl in H0. rewrite H0.
  rewrite put_blocks_cons. apply IH. intros j Hj. replace (k + 1 + Z.of_nat j) with (k + Z.of_nat (S j)) by lia.
  apply (HL (S j)). simpl. lia.
Qed.

Lemma write_head_ok t pid P start size L :
  cache_idle t pid P → log_has t start size L → start ∉ P → (length P < HEAD)%nat →
  let d := mk_header L (bview t start) in
  ∃ t', write_head (Solo t [] pid) = Ok tt (Solo t' [] pid) ∧
    cache_idle t' pid P ∧ wrote t t' start d ∧
    ∀ x, bview t' x = if decide (x = start) then d else bview t x.
Proof.
  intros I HL HsP Hcap d. assert (bio_free []) as Hf by (split; set_solver).
  unfold write_head. rewrite bind_get_solo, (lh_dev _ _ _ _ HL), (lh_start _ _ _ _ HL), (lh_n _ _ _ _ HL).
  destruct (bread_ok t [] pid [] P start I Hf) as (i & t1 & E1 & I1 & _ & C1 & D1 & V1 & K1 & S1 & _);
    [set_solver|done|].
  rewrite (bind_ok _ _ _ _ _ E1). pose proof C1 as (Hi & _ & Bs). pose proof (bufs_len I1) as Hlen.
  assert (mod_buf i (λ x, set_b_data (put_hdr_n (Z.of_nat (length L)) (b_data x)) x) t1 =
    set_data i (put_hdr_n (Z.of_nat (length L)) (bview t start)) t1) as E0.
  { unfold mod_buf, set_data, mod_buf. f_equal. apply list_alter_ext; [|done]. intros x Hx.
    unfold buf_at in D1. rewrite Hx in D1. simpl in D1. by rewrite D1. }
  rewrite bind_upd_solo, E0, Nat2Z.id.
  rewrite (bind_ok _ _ _ tt (Solo (set_data i d t1) [] pid)).
  2: { apply write_head_loop; [lia|]. intros j Hj.
       unfold lg_nth. rewrite Z.add_0_l, Nat2Z.id. f_equal. rewrite <- (lh_blocks _ _ _ _ HL).
       symmetry. by apply lookup_take_lt. }
  destruct (set_data_ok t1 pid [i] P i d I1) as (I3 & C3 & D3 & V3 & O3); [set_solver|].
  set (t3 := set_data i d t1) in *. rewrite Bs in *.
  destruct (bwrite_ok t3 [] pid [i] P i I3 Hf) as (t4 & E4 & I4 & K4 & F4 & V4 & S4); [set_solver|].
  rewrite (bind_ok _ _ _ _ _ E4). destruct C3 as (_ & _ & B3). rewrite B3, D3 in K4.
  assert (∀ k, buf_at k t4 = buf_at k t3) as F4' by (intros k; unfold buf_at; by rewrite F4).
  destruct (brelse_ok t4 [] pid [i] [] P i I4 Hf) as (t5 & E5 & I5 & K5 & V5 & S5 & _); [done| |].
  { right. rewrite F4', D3, B3, K4, disk_block_write, decide_True; done. }
  exists t5. split; [done|]. split; [done|]. split; [split|].
  - rewrite K5, K4. cbn. by rewrite K1.
  - repeat (eapply same_rest_trans; [eassumption|]). apply same_rest_refl.
  - intros x. by rewrite V5, V4, V3, V1.
Qed.

(** ** install_trans *)
Definition install_writes (start k : Z) (L : list Z) (f : Z → list Z) : list (Z * list Z) :=
  zip L ((λ i, f (start + i + 1)) <$> zseq k (length L)).

Lemma install_loop t pid P (recovering : bool) start size L1 L2 :
  cache_idle t pid P → log_has t start size (L1 ++ L2) →
  (if recovering then P = [] else P ≡ₚ L2) →
  let w := install_writes start (Z.of_nat (length L1)) L2 (bview t) in
  ∃ t', mfor (zseq (Z.of_nat (length L1)) (length L2)) (λ tail,
          g ← get f_log;
          lbuf ← bread (lg_dev g) (lg_start g + tail + 1);
          dbuf ← bread (lg_dev g) (lg_nth g tail);
          d ← bdata lbuf;
          upd (mod_buf dbuf (set_b_data d)) ;;
          bwrite dbuf ;;
          (if recovering then ret tt else bunpin dbuf) ;;
          brelse lbuf ;;
          brelse dbuf) (Solo t [] pid) = Ok tt (Solo t' [] pid) ∧
    cache_idle t' pid [] ∧ wrote_list t t' w ∧ ∀ x, bview t' x = vwrites w (bview t) x.
Proof.
  revert t P L1. induction L2 as [|b L2 IH]; intros t P L1 I HL HP w.
  - exists t. assert (P = []) as ->.
    { destruct recovering; [done|]. symmetry in HP. by apply Permutation_nil in HP. }
    split_and!; try done.
  - pose proof (lg_nth_log t start size L1 b L2 HL) as Hb.
    pose proof HL as [Hdev Hst _ _ _ [Hroom Hroom'] Hhome].
    rewrite length_app in Hroom, Hroom'. simpl in Hroom, Hroom'.
    set (a := start + Z.of_nat (length L1) + 1).
    assert (∀ x, x ∈ L1 ++ b :: L2 → ¬ in_log start size x) as Hna by (intros x Hx; by destruct (Hhome x Hx)).
    assert (in_log start size a) as Ha by (unfold in_log, a; lia).
    destruct (install_body t pid P (if recovering then [] else L2) recovering a b I) as (t1 & E1 & I1 & W1 & V1).
    { intros E. apply (Hna b); [set_solver|]. by rewrite <- E. }
    { destruct recovering; [by split|done]. }
    { destruct recovering; [rewrite HP; rewrite HEAD_30; simpl; lia|]. rewrite HP. simpl. lia. }
    { destruct recovering; [set_solver|]. rewrite HP. intros Hin. apply (Hna a); [set_solver|done]. }
    cbn [zseq length mfor]. rewrite (bind_ok _ _ _ tt (Solo t1 [] pid)).
    2: { rewrite bind_get_solo, Hdev, Hst, Hb. exact E1. }
    assert (log_has t1 start size ((L1 ++ [b]) ++ L2)) as HL1.
    { rewrite <- app_assoc. simpl. eapply log_has_rest; [apply W1|done]. }
    destruct (IH t1 _ (L1 ++ [b]) I1 HL1) as (t2 & E2 & I2 & W2 & V2); [by destruct recovering|].
    assert (install_writes start (Z.of_nat (length (L1 ++ [b]))) L2 (bview t1) =
            install_writes start (Z.of_nat (length L1) + 1) L2 (bview t)) as HW.
    { unfold install_writes. rewrite length_app. simpl. f_equal.
      replace (Z.of_nat (length L1 + 1)) with (Z.of_nat (length L1) + 1) by lia.
      apply list_fmap_ext. intros i x Hx%list_elem_of_lookup_2. apply elem_of_zseq in Hx.
      rewrite V1, decide_False; [done|]. intros E. apply (Hna b); [set_solver|]. rewrite <- E.
      unfold in_log. lia. }
    rewrite HW in *.
    assert (w = (b, bview t a) :: install_writes start (Z.of_nat (length L1) + 1) L2 (bview t)) as Hw by done.
    exists t2. split_and!; try done.
    + rewrite length_app in E2. simpl in E2.
      replace (Z.of_nat (length L1 + 1)) with (Z.of_nat (length L1) + 1) in E2 by lia. exact E2.
    + rewrite Hw. by eapply wrote_list_cons.
    + intros x. rewrite V2, Hw. cbn [vwrites foldl]. apply vwrites_ext. apply V1.
Qed.

Lemma install_trans_ok t pid P (recovering : bool) start size L :
  cache_idle t pid P → log_has t start size L → (if recovering then P = [] else P ≡ₚ L) →
  let w := install_writes start 0 L (bview t) in
  ∃ t', install_trans recovering (Solo t [] pid) = Ok tt (Solo t' [] pid) ∧
    cache_idle t' pid [] ∧ wrote_list t t' w ∧ ∀ x, bview t' x = vwrites w (bview t) x.
Proof.
  intros I HL HP w. unfold install_trans. rewrite bind_get_solo, (lh_n _ _ _ _ HL), Nat2Z.id.
  exact (install_loop t pid P recovering start size [] L I HL HP).
Qed.

(** ** commit *)

(** The writes of a commit, in order. *)
Definition commit_writes (start : Z) (L : list Z) (f : Z → list Z) : list (Z * list Z) :=
  log_writes start 0 (f <$> L) ++
  [(start, mk_header L (f start))] ++
  zip L (f <$> L) ++
  [(start, mk_header [] (mk_header L (f start)))].

Lemma log_writes_fst start k vs : (log_writes start k vs).*1 = zseq (start + Z.of_nat k + 1) (length vs).
Proof. unfold log_writes. rewrite fst_zip; [done|]. rewrite zseq_length. lia. Qed.

Lemma log_writes_lookup start vs i v :
  vs !! i = Some v → (start + Z.of_nat i + 1, v) ∈ log_writes start 0 vs.
Proof.
  intros Hi. apply (list_elem_of_lookup_2 _ i). unfold log_writes. rewrite lookup_zip_with, Hi.
  rewrite zseq_lookup by (by apply lookup_lt_Some in Hi). simpl. do 2 f_equal. lia.
Qed.

(** The log area holds the new contents after [write_log]. *)
Lemma log_area start L (f g : Z → list Z) i b :
  L !! i = Some b → vwrites (log_writes start 0 (g <$> L)) f (start + Z.of_nat i + 1) = g b.
Proof.
  intros Hi. apply vwrites_in.
  - rewrite log_writes_fst. apply zseq_NoDup.
  - apply log_writes_lookup. by rewrite list_lookup_fmap, Hi.
Qed.

Lemma log_writes_out start size (L : list Z) (f : Z → list Z) vs x :
  length vs = length L → Z.of_nat (length L) < size → ¬ in_log start size x →
  vwrites (log_writes start 0 vs) f x = f x.
Proof.
  intros Hl Hs Hx. apply vwrites_out. rewrite log_writes_fst, elem_of_zseq, Hl.
  unfold in_log in Hx. lia.
Qed.

Lemma log_has_set_n t start size L :
  log_has t start size L → log_has (mod_log (set_lg_n 0) t) start size [].
Proof.
  intros [H1 H2 H3 H4 H5 [H6 H6'] H7]. split; try done; [constructor| |set_solver].
  rewrite HEAD_30. simpl. lia.
Qed.

Lemma bview_mod_log g t x : bview (mod_log g t) x = bview t x.
Proof. done. Qed.

Lemma cache_mod_log g t pid H P : cache_inv t pid H P → cache_inv (mod_log g t) pid H P.
Proof. intros []. split; done. Qed.

Lemma commit_ok t pid P start size L :
  cache_idle t pid P → log_has t start size L → P ≡ₚ L → L ≠ [] →
  ∃ t', commit (Solo t [] pid) = Ok tt (Solo t' [] pid) ∧ cache_idle t' pid [] ∧
    f_disk t' = writes (commit_writes start L (bview t)) (f_disk t) ∧
    f_log t' = set_lg_n 0 (f_log t) ∧ f_sb t' = f_sb t ∧ f_itable t' = f_itable t ∧
    ∀ x, ¬ in_log start size x → bview t' x = bview t x ∧ disk_block (f_disk t') x = bview t x.
Proof.
  intros I HL HP HL0. pose proof HL as [_ _ Hn _ Hnd [Hroom Hroom'] Hhome].
  assert (∀ b, b ∈ L → ¬ in_log start size b) as Hna by (intros b Hb; by destruct (Hhome b Hb)).
  assert (start ∉ P) as HsP.
  { rewrite HP. intros Hin. apply (Hna start Hin). unfold in_log. lia. }
  unfold commit. rewrite bind_get_solo, Hn.
  destruct (_ >? 0) eqn:E0; bool_to_prop; [|destruct L; [done|simpl in E0; lia]].
  destruct (write_log_ok t pid P start size L I HL) as (t1 & E1 & I1 & [K1 S1] & V1).
  { intros b. by rewrite HP. }
  { by rewrite HP. }
  rewrite (bind_ok _ _ _ _ _ E1). pose proof (log_has_rest _ _ _ _ _ S1 HL) as HL1.
  destruct (write_head_ok t1 pid P start size L I1 HL1 HsP) as (t2 & E2 & I2 & [K2 S2] & V2); [by rewrite HP|].
  rewrite (bind_ok _ _ _ _ _ E2). pose proof (log_has_rest _ _ _ _ _ S2 HL1) as HL2.
  destruct (install_trans_ok t2 pid P false start size L I2 HL2 HP) as (t3 & E3 & I3 & [K3 S3] & V3).
  rewrite (bind_ok _ _ _ _ _ E3). rewrite bind_upd_solo.
  pose proof (log_has_rest _ _ _ _ _ S3 HL2) as HL3. apply log_has_set_n in HL3.
  set (t4 := mod_log (set_lg_n 0) t3) in *.
  assert (cache_idle t4 pid []) as I4 by (by apply cache_mod_log).
  destruct (write_head_ok t4 pid [] start size [] I4 HL3) as (t5 & E5 & I5 & [K5 S5] & V5);
    [set_solver|rewrite HEAD_30; simpl; lia|].
  exists t5.
  (* the header is not overwritten by write_log *)
  assert (bview t1 start = bview t start) as Hst.
  { rewrite V1. apply vwrites_out. rewrite log_writes_fst, elem_of_zseq. lia. }
  rewrite Hst in *.
  assert (install_writes start 0 L (bview t2) = zip L (bview t <$> L)) as HI.
  { unfold install_writes. f_equal. apply list_eq_same_length with (length L);
      rewrite ?length_fmap, ?zseq_length; try done. intros i x y Hi. rewrite !list_lookup_fmap, zseq_lookup by done.
    destruct (lookup_lt_is_Some_2 L i Hi) as [b Hb]. rewrite Hb. simpl. intros [= <-] [= <-].
    rewrite V2, decide_False by lia. rewrite V1. apply (log_area start L (bview t) (bview t) i b Hb). }
  rewrite HI in *.
  assert (bview t4 start = mk_header L (bview t start)) as Hh.
  { unfold t4. rewrite bview_mod_log, V3, vwrites_out, V2.
    - by rewrite decide_True.
    - rewrite fst_zip by (rewrite length_fmap; lia). intros Hin. apply (Hna start Hin). unfold in_log. lia. }
  rewrite Hh in *.
  assert (f_disk t5 = writes (commit_writes start L (bview t)) (f_disk t)) as HK.
  { rewrite K5. cbn. rewrite K3, K2, K1. unfold commit_writes, writes. rewrite !foldl_app. done. }
  assert (∀ x, ¬ in_log start size x → bview t5 x = bview t x) as HV.
  { intros x Hx. rewrite V5, decide_False by (intros ->; apply Hx; unfold in_log; lia).
    unfold t4. rewrite bview_mod_log, V3.
    assert (∀ y, ¬ in_log start size y → bview t2 y = bview t y) as V20.
    { intros y Hy. rewrite V2, decide_False by (intros ->; apply Hy; unfold in_log; lia).
      rewrite V1. eapply log_writes_out; [by rewrite length_fmap|done|done]. }
    destruct (decide (x ∈ L)) as [Hin|Hin].
    - apply vwrites_in; [by rewrite fst_zip by (rewrite length_fmap; lia)|].
      apply list_elem_of_lookup_1 in Hin as [i Hi]. apply (list_elem_of_lookup_2 _ i).
      by rewrite lookup_zip_with, list_lookup_fmap, Hi.
    - rewrite vwrites_out by (by rewrite fst_zip by (rewrite length_fmap; lia)). by apply V20. }
  destruct S1 as (L1 & B1 & T1), S2 as (L2 & B2 & T2), S3 as (L3 & B3 & T3), S5 as (L5 & B5 & T5).
  split_and!; try done.
  - rewrite L5. cbn. by rewrite L3, L2, L1.
  - rewrite B5. cbn. congruence.
  - rewrite T5. cbn. congruence.
  - intros x Hx. split; [by apply HV|]. rewrite <- (HV x Hx). symmetry. apply (bview_clean I5); set_solver.
Qed.

(** ** Recovery *)

(** The header block [d] records the blocks [L]. *)
Record header_of (d : list Z) (start size : Z) (L : list Z) : Prop := {
  ho_n : hdr_n d = Z.of_nat (length L);
  ho_block : ∀ i b, L !! i = Some b → hdr_block d (Z.of_nat i) = b;
  ho_nodup : NoDup L;
  ho_room : Z.of_nat (length L) < size ∧ (length L < HEAD)%nat;
  ho_home : ∀ b, b ∈ L → ¬ in_log start size b ∧ 0 ≤ b < 2 ^ 31;
}.

Lemma read_head_loop t h pid d L1 L2 :
  (∀ i b, (L1 ++ L2) !! i = Some b → hdr_block d (Z.of_nat i) = b) →
  (length (L1 ++ L2) ≤ length (lg_block (f_log t)))%nat →
  take (length L1) (lg_block (f_log t)) = L1 →
  ∃ bl, mfor (zseq (Z.of_nat (length L1)) (length L2)) (λ i,
      upd (mod_log (λ g, set_lg_block (<[Z.to_nat i := hdr_block d i]> (lg_block g)) g)))
      (Solo t h pid) = Ok tt (Solo (mod_log (set_lg_block bl) t) h pid) ∧
    length bl = length (lg_block (f_log t)) ∧ take (length (L1 ++ L2)) bl = L1 ++ L2.
Proof.
  revert t L1. induction L2 as [|b L2 IH]; intros t L1 Hd Hlen Ht.
  - exists (lg_block (f_log t)). rewrite app_nil_r. split; [|done]. cbn [length zseq mfor].
    destruct t as [? ? [] ? ?]. done.
  - cbn [length zseq mfor]. rewrite bind_upd_solo. rewrite Nat2Z.id.
    rewrite (Hd (length L1) b) by (by apply list_lookup_middle).
    set (t1 := mod_log _ t).
    destruct (IH t1 (L1 ++ [b])) as (bl & E & Hbl & Htk).
    + intros i x. rewrite <- app_assoc. apply Hd.
    + rewrite <- app_assoc. cbn. rewrite length_insert. exact Hlen.
    + cbn. rewrite length_app in *. simpl in *. rewrite Nat.add_1_r, (take_S_r _ _ b).
      * by rewrite take_insert_ge, Ht.
      * apply list_lookup_insert_eq. lia.
    + exists bl. rewrite length_app in E. simpl in E.
      replace (Z.of_nat (length L1 + 1)) with (Z.of_nat (length L1) + 1) in E by lia.
      rewrite E. rewrite <- app_assoc in Htk. split_and!; [done| |done].
      rewrite Hbl. cbn. apply length_insert.
Qed.

Lemma read_head_ok t pid start size L :
  cache_idle t pid [] → lg_dev (f_log t) = ROOTDEV → lg_start (f_log t) = start →
  length (lg_block (f_log t)) = Z.to_nat LOGSIZE → header_of (bview t start) start size L →
  ∃ t', read_head (Solo t [] pid) = Ok tt (Solo t' [] pid) ∧ cache_idle t' pid [] ∧
    f_disk t' = f_disk t ∧ (∀ x, bview t' x = bview t x) ∧ log_has t' start size L ∧
    f_sb t' = f_sb t ∧ f_itable t' = f_itable t ∧
    ∃ bl, f_log t' = set_lg_block bl (set_lg_n (Z.of_nat (length L)) (f_log t)) ∧ length bl = Z.to_nat LOGSIZE.
Proof.
  intros I Hdev Hst Hlen HO. assert (bio_free []) as Hf by (split; set_solver).
  unfold read_head. rewrite bind_get_solo, Hdev, Hst.
  destruct (bread_ok t [] pid [] [] start I Hf) as (i & t1 & E1 & I1 & _ & C1 & D1 & V1 & K1 & S1 & _);
    [set_solver|intros _; rewrite HEAD_30; simpl; lia|].
  rewrite (bind_ok _ _ _ _ _ E1). unfold bdata. rewrite bind_get_solo, bind_upd_solo, D1.
  rewrite (ho_n _ _ _ _ HO), Nat2Z.id. destruct S1 as (L1 & B1 & T1).
  destruct (read_head_loop (mod_log (set_lg_n (Z.of_nat (length L))) t1) [] pid (bview t start) [] L)
    as (bl & E2 & Hbl & Htk); simpl in *; [apply (ho_block _ _ _ _ HO)| |done|].
  { rewrite L1, Hlen. destruct (ho_room _ _ _ _ HO) as [_ Hr]. rewrite HEAD_30 in Hr. unfold LOGSIZE, MAXOPBLOCKS. lia. }
  rewrite (bind_ok _ _ _ _ _ E2). set (t2 := mod_log (set_lg_block bl) _).
  assert (cache_inv t2 pid [i] []) as I2 by (do 2 apply cache_mod_log; done).
  destruct (brelse_ok t2 [] pid [i] [] [] i I2 Hf) as (t3 & E3 & I3 & K3 & V3 & S3 & _); [done| |].
  { right. change (buf_at i t2) with (buf_at i t1). change (f_disk t2) with (f_disk t1).
    destruct C1 as (_ & _ & ->). rewrite D1, K1. apply (bview_clean I); set_solver. }
  exists t3. destruct S3 as (L3 & B3 & T3). split_and!; try done.
  - rewrite K3. exact K1.
  - intros x. rewrite V3. unfold t2. rewrite !bview_mod_log. apply V1.
  - destruct HO as [O1 O2 O3 O4 O5]. split; try done; rewrite L3; cbn; try (by rewrite L1).
    all: done.
  - by rewrite B3.
  - by rewrite T3.
  - exists bl. rewrite L3. cbn. by rewrite L1, Hbl, <- Hlen, L1.
Qed.

(** What recovery writes to a disk on which it finds the header [hd] with the
    blocks [L]. *)
Definition recovery_writes (start : Z) (L : list Z) (f : Z → list Z) : list (Z * list Z) :=
  install_writes start 0 L f ++ [(start, mk_header [] (f start))].

Lemma recover_ok t pid start size L :
  cache_idle t pid [] → lg_dev (f_log t) = ROOTDEV → lg_start (f_log t) = start →
  length (lg_block (f_log t)) = Z.to_nat LOGSIZE →
  header_of (disk_block (f_disk t) start) start size L →
  ∃ t', recover_from_log (Solo t [] pid) = Ok tt (Solo t' [] pid) ∧ cache_idle t' pid [] ∧
    f_disk t' = writes (recovery_writes start L (disk_block (f_disk t))) (f_disk t) ∧
    log_has t' start size [] ∧ f_sb t' = f_sb t ∧ f_itable t' = f_itable t ∧
    ∃ bl, f_log t' = set_lg_block bl (set_lg_n 0 (f_log t)) ∧ length bl = Z.to_nat LOGSIZE.
Proof.
  intros I Hdev Hst Hlen HO.
  assert (∀ x, bview t x = disk_block (f_disk t) x) as V0 by (intros x; apply (bview_clean I); set_solver).
  rewrite <- V0 in HO. unfold recover_from_log.
  destruct (read_head_ok t pid start size L I Hdev Hst Hlen HO) as (t1 & E1 & I1 & K1 & V1 & HL1 & B1 & T1 & bl & G1 & Hbl).
  rewrite (bind_ok _ _ _ _ _ E1).
  destruct (install_trans_ok t1 pid [] true start size L I1 HL1) as (t2 & E2 & I2 & [K2 S2] & V2); [done|].
  rewrite (bind_ok _ _ _ _ _ E2). rewrite bind_upd_solo.
  pose proof (log_has_rest _ _ _ _ _ S2 HL1) as HL2. apply log_has_set_n in HL2.
  set (t3 := mod_log (set_lg_n 0) t2) in *.
  assert (cache_idle t3 pid []) as I3 by (by apply cache_mod_log).
  destruct (write_head_ok t3 pid [] start size [] I3 HL2) as (t4 & E4 & I4 & [K4 S4] & V4);
    [set_solver|rewrite HEAD_30; simpl; lia|].
  exists t4. destruct S2 as (L2 & B2 & T2), S4 as (L4 & B4 & T4).
  assert (bview t3 start = disk_block (f_disk t) start) as Hh.
  { unfold t3. rewrite bview_mod_log, V2, vwrites_out; [by rewrite V1, V0|].
    unfold install_writes. rewrite fst_zip by (rewrite length_fmap, zseq_length; lia).
    intros Hin. destruct (ho_home _ _ _ _ HO start Hin) as [Hn _]. apply Hn.
    destruct (ho_room _ _ _ _ HO). unfold in_log. lia. }
  assert (install_writes start 0 L (bview t1) = install_writes start 0 L (disk_block (f_disk t))) as HI.
  { unfold install_writes. f_equal. apply list_fmap_ext. intros i x _. by rewrite V1, V0. }
  split_and!; try done.
  - rewrite K4, Hh. cbn. rewrite K2, K1, HI. unfold recovery_writes, writes. by rewrite foldl_app.
  - by apply (log_has_rest t3).
  - rewrite B4. cbn. congruence.
  - rewrite T4. cbn. congruence.
  - exists bl. rewrite L4. cbn. by rewrite L2, G1.
Qed.
