(* ===== verification/LogCrash.v ===== *)
(** * Crash safety of the log

    A crash during a commit leaves on the disk a prefix of the commit's
    writes; after the reboot, [initlog] runs on that disk with an empty
    cache. *)

From S2P Require Import Base Riscv Mem Kernel Sleeplock FsState Bio BioList BioSpec Log LogSpec.
Local Open Scope Z_scope.
Local Open Scope kernel_scope.

(** The machine after a reboot that found the blocks [m] on the disk. *)
Record rebooted (m : gmap Z (list Z)) (t : fsst) (pid : Z) : Prop := {
  rb_cache : cache_idle t pid [];
  rb_log : length (lg_block (f_log t)) = Z.to_nat LOGSIZE;
  rb_idle : lg_outstanding (f_log t) = 0 ∧ lg_committing (f_log t) = 0;
  rb_disk : d_blocks (f_disk t) = m;
}.

Lemma image_disk d b : disk_block d b = image (d_blocks d) b.
Proof. done. Qed.

Lemma image_apply w m x : image (apply_writes w m) x = vwrites w (image m) x.
Proof.
  change m with (d_blocks (Disk m [])) at 1. rewrite <- writes_blocks.
  exact (disk_writes w (Disk m []) x).
Qed.

(** Recovery of the blocks [m], of which [start] records the blocks [L], has
    led from [tb] to [tr], and the log is ready for operations. *)
Record recovered (m : gmap Z (list Z)) (tb : fsst) (pid : Z) (sb : superblock) (start size : Z) (L : list Z)
    (tr : fsst) : Prop := {
  rc_run : initlog ROOTDEV sb (Solo tb [] pid) = Ok tt (Solo tr [] pid);
  rc_ready : in_trans tr pid [] start size [] 0;
  rc_disk : ∀ x, disk_block (f_disk tr) x = vwrites (recovery_writes start L (image m)) (image m) x;
  rc_sb : f_sb tr = f_sb tb;
  rc_itable : f_itable tr = f_itable tb;
}.

Lemma initlog_ok m tb pid sb start size L :
  rebooted m tb pid → sb_logstart sb = start → sb_nlog sb = size → header_of (image m start) start size L →
  ∃ tr, recovered m tb pid sb start size L tr.
Proof.
  intros [I Hlen [Ho Hc] Hm] Hs Hz HO.
  set (t1 := mod_log (set_lg_dev ROOTDEV) (mod_log (set_lg_size (sb_nlog sb)) (mod_log (set_lg_start (sb_logstart sb)) tb))).
  assert (cache_idle t1 pid []) as I1 by (do 3 apply cache_mod_log; done).
  assert (∀ x, disk_block (f_disk t1) x = image m x) as HK.
  { intros x. rewrite <- Hm. done. }
  destruct (recover_ok t1 pid start size L I1) as (t' & E & I' & K & HL & B & T & bl & G & Hbl); try done.
  { change (f_disk t1) with (f_disk tb). by rewrite image_disk, Hm. }
  exists t'. assert (recovery_writes start L (disk_block (f_disk t1)) = recovery_writes start L (image m)) as HW.
  { unfold recovery_writes, install_writes. rewrite HK. do 2 f_equal. apply list_fmap_ext. intros i x _. apply HK. }
  rewrite HW in K. split; [| | |done|done].
  - unfold initlog. change (sizeof_logheader >=? BSIZE) with false. cbv iota. by rewrite !bind_upd_solo.
  - split; [by exists [] | done | rewrite G; done..].
  - intros x. rewrite K, disk_writes. apply vwrites_ext, HK.
Qed.

(** A header with no blocks. *)
Lemma header_empty d start size : hdr_n d = 0 → 0 < size → header_of d start size [].
Proof.
  intros Hn Hs. split; [done|done|constructor| |set_solver]. rewrite HEAD_30. simpl. lia.
Qed.

Lemma header_written L d start size :
  length d = 1024%nat → Z.of_nat (length L) < size → (length L < HEAD)%nat → NoDup L →
  (∀ b, b ∈ L → ¬ in_log start size b ∧ 0 ≤ b < 2 ^ 31) → header_of (mk_header L d) start size L.
Proof.
  intros Hd Hs Hh Hnd Hhome. destruct (mk_header_spec L d) as (H1 & _ & H3); try done.
  - rewrite HEAD_30 in Hh. change LOGSIZE with 30. lia.
  - intros x Hx. by destruct (Hhome x Hx).
Qed.

Section crash.
  Context (t : fsst) (pid : Z) (P : list Z) (start size : Z) (L : list Z).
  Hypothesis I : cache_idle t pid P.
  Hypothesis HL : log_has t start size L.
  Hypothesis HP : P ≡ₚ L.

(** The disk when the commit starts. *)
Let m0 := d_blocks (f_disk t).

Lemma home_of b : b ∈ L → ¬ in_log start size b.
Proof. intros Hb. by destruct (lh_home _ _ _ _ HL b Hb). Qed.

Lemma size_pos : 0 < size.
Proof. destruct (lh_room _ _ _ _ HL). lia. Qed.

Lemma start_clean : image m0 start = bview t start.
Proof.
  symmetry. apply (bview_clean I); [|set_solver]. rewrite HP. intros Hin.
  apply (home_of _ Hin). pose proof size_pos. unfold in_log. lia.
Qed.

Lemma home_clean x : x ∉ L → image m0 x = bview t x.
Proof. intros Hx. symmetry. apply (bview_clean I); [by rewrite HP|set_solver]. Qed.

(** Before the header is written, the home blocks are untouched and the
    header is empty. *)
Lemma crash_before k x :
  let w := take k (log_writes start 0 (bview t <$> L)) in
  (¬ in_log start size x ∨ x = start) → image (apply_writes w m0) x = image m0 x.
Proof.
  intros w Hx. rewrite image_apply. apply vwrites_out. unfold w.
  intros Hin. rewrite fmap_take in Hin. apply elem_of_take in Hin as (i & Hin'%list_elem_of_lookup_2 & _).
  rewrite log_writes_fst, elem_of_zseq, length_fmap in Hin'.
  destruct (lh_room _ _ _ _ HL). unfold in_log in Hx. lia.
Qed.

Lemma zip_home_fst : (zip L (bview t <$> L)).*1 = L.
Proof. rewrite fst_zip; [done|]. by rewrite length_fmap. Qed.

Lemma take_home_in j x : x ∈ (take j (zip L (bview t <$> L))).*1 → x ∈ L.
Proof.
  rewrite fmap_take, zip_home_fst. intros (i & Hi%list_elem_of_lookup_2 & _)%elem_of_take. done.
Qed.

(** The image once the header is on the disk, with [j] blocks installed. *)
Definition committed (j : nat) : list (Z * list Z) :=
  log_writes start 0 (bview t <$> L) ++ [(start, mk_header L (bview t start))] ++
  take j (zip L (bview t <$> L)).

Lemma committed_image j x :
  x ∉ L → image (apply_writes (committed j) m0) x =
    if decide (x = start) then mk_header L (bview t start)
    else vwrites (log_writes start 0 (bview t <$> L)) (image m0) x.
Proof.
  intros Hx. rewrite image_apply. unfold committed. rewrite !vwrites_app.
  rewrite vwrites_out by (intros Hin%take_home_in; done). simpl. done.
Qed.

Lemma committed_recovers j x :
  let m := apply_writes (committed j) m0 in
  ¬ in_log start size x → vwrites (recovery_writes start L (image m)) (image m) x = bview t x.
Proof.
  intros m Hx. destruct (lh_room _ _ _ _ HL) as [Hroom _]. pose proof size_pos as Hsz.
  assert (x ≠ start) as Hxs by (intros ->; apply Hx; unfold in_log; lia).
  unfold recovery_writes. rewrite vwrites_app. simpl. rewrite decide_False by done.
  destruct (decide (x ∈ L)) as [Hin|Hin].
  - apply vwrites_in.
    + unfold install_writes. rewrite fst_zip by (rewrite length_fmap, zseq_length; lia).
      apply (lh_nodup _ _ _ _ HL).
    + apply list_elem_of_lookup_1 in Hin as [i Hi]. apply (list_elem_of_lookup_2 _ i).
      unfold install_writes. rewrite lookup_zip_with, Hi. simpl.
      rewrite list_lookup_fmap, zseq_lookup by (by apply lookup_lt_Some in Hi). simpl. do 2 f_equal.
      assert (in_log start size (start + Z.of_nat i + 1)) as Hlog.
      { apply lookup_lt_Some in Hi. unfold in_log. lia. }
      unfold m. rewrite committed_image, decide_False; [by apply log_area|lia|].
      intros Hin. by apply (home_of _ Hin).
  - rewrite vwrites_out.
    + unfold m. rewrite committed_image, decide_False by done.
      rewrite (log_writes_out start size L); [by apply home_clean|by rewrite length_fmap|done|done].
    + unfold install_writes. by rewrite fst_zip by (rewrite length_fmap, zseq_length; lia).
Qed.

Lemma committed_header j :
  length (bview t start) = 1024%nat → header_of (image (apply_writes (committed j) m0) start) start size L.
Proof.
  intros Hd. pose proof size_pos. destruct HL as [_ _ _ _ Hnd [Hr1 Hr2] Hhome].
  rewrite committed_image, decide_True; [by apply header_written|done|].
  intros Hin. apply (home_of _ Hin). unfold in_log. lia.
Qed.

(** The whole commit. *)
Lemma done_image x :
  ¬ in_log start size x ∨ x = start →
  image (apply_writes (commit_writes start L (bview t)) m0) x =
    if decide (x = start) then mk_header [] (mk_header L (bview t start)) else bview t x.
Proof.
  intros Hx. destruct (lh_room _ _ _ _ HL) as [Hroom _]. rewrite image_apply. unfold commit_writes.
  rewrite !vwrites_app. simpl. case_decide as Hd'; [done|].
  destruct Hx as [Hx|?]; [|done]. destruct (decide (x ∈ L)) as [Hin|Hin].
  - apply vwrites_in; [rewrite zip_home_fst; apply (lh_nodup _ _ _ _ HL)|].
    apply list_elem_of_lookup_1 in Hin as [i Hi]. apply (list_elem_of_lookup_2 _ i).
    by rewrite lookup_zip_with, list_lookup_fmap, Hi.
  - rewrite vwrites_out by (by rewrite zip_home_fst). rewrite decide_False by done.
    rewrite (log_writes_out start size L); [by apply home_clean|by rewrite length_fmap|done|done].
Qed.

(** The prefixes of the commit's writes. *)
Lemma commit_prefix w1 w2 :
  commit_writes start L (bview t) = w1 ++ w2 →
  (w1 = take (length w1) (log_writes start 0 (bview t <$> L)) ∧ (length w1 ≤ length L)%nat) ∨
  (∃ j, w1 = committed j) ∧ (length L < length w1)%nat ∨
  (w1 = commit_writes start L (bview t) ∧ (length L < length w1)%nat).
Proof.
  intros E. assert (w1 = take (length w1) (commit_writes start L (bview t))) as Ew.
  { by rewrite E, take_app_length. }
  assert (length (log_writes start 0 (bview t <$> L)) = length L) as Hl1.
  { unfold log_writes. rewrite length_zip_with, zseq_length, !length_fmap. lia. }
  assert (length (zip L (bview t <$> L)) = length L) as Hl2.
  { rewrite length_zip_with, length_fmap. lia. }
  destruct (decide (length w1 ≤ length L)%nat) as [Hle|Hgt].
  { left. split; [|done]. rewrite Ew at 1. unfold commit_writes. rewrite take_app_le by lia. done. }
  right. destruct (decide (length w1 ≤ 2 * length L + 1)%nat) as [Hle|Hgt'].
  - left. split; [|lia]. exists (length w1 - length L - 1)%nat. rewrite Ew at 1. unfold commit_writes, committed.
    rewrite take_app_ge, Hl1 by lia. f_equal. rewrite take_app_ge by (simpl; lia). f_equal.
    simpl length. by rewrite take_app_le by lia.
  - right. split; [|lia]. rewrite Ew at 1. apply take_ge. unfold commit_writes.
    rewrite !length_app, Hl1, Hl2. simpl. lia.
Qed.
End crash.

(** A commit is atomic across crashes: whatever prefix of its disk writes
    reached the disk, recovery at the next boot returns and leaves every home
    block either as it was before the commit (when the prefix stops before the
    header block) or with the transaction's contents (afterwards). *)
Lemma commit_crash_ok t pid P sb start size L :
  cache_idle t pid P → log_has t start size L → P ≡ₚ L → L ≠ [] → sb_logstart sb = start → sb_nlog sb = size →
  length (bview t start) = 1024%nat → hdr_n (bview t start) = 0 →
  ∃ t', commit (Solo t [] pid) = Ok tt (Solo t' [] pid) ∧ cache_idle t' pid [] ∧
    (∀ x, ¬ in_log start size x → disk_block (f_disk t') x = bview t x) ∧
    ∀ w1 w2, d_trace (f_disk t') = d_trace (f_disk t) ++ w1 ++ w2 →
    ∀ tb pid', rebooted (apply_writes w1 (d_blocks (f_disk t))) tb pid' →
    ∃ L' tr, recovered (apply_writes w1 (d_blocks (f_disk t))) tb pid' sb start size L' tr ∧
      ∀ x, ¬ in_log start size x → disk_block (f_disk tr) x =
        if decide (length w1 ≤ length L)%nat then disk_block (f_disk t) x else bview t x.
Proof.
  intros I HL HP HL0 Hsb Hz Hd H0.
  destruct (commit_ok t pid P start size L I HL HP HL0) as (t' & E & I' & K & _ & _ & _ & V).
  exists t'. split_and!; [done|done|intros x Hx; by apply V|]. intros w1 w2 Htr tb pid' Hrb.
  rewrite K, writes_trace in Htr. apply app_inv_head in Htr.
  pose proof (size_pos _ _ _ _ HL) as Hsz.
  destruct (commit_prefix t start L w1 w2 Htr) as [[Ew Hlen]|[[[j ->] Hlen]|[-> Hlen]]].
  - destruct (initlog_ok _ tb pid' sb start size [] Hrb Hsb Hz) as (tr & Rr).
    { apply header_empty; [|done]. rewrite Ew, (crash_before t start size L HL) by auto.
      by rewrite (start_clean t pid P start size L). }
    eexists _, tr. split; [exact Rr|]. intros x Hx. rewrite (rc_disk _ _ _ _ _ _ _ _ Rr), decide_True by done. simpl.
    rewrite decide_False by (intros ->; apply Hx; unfold in_log; lia).
    rewrite Ew, (crash_before t start size L HL) by auto. done.
  - destruct (initlog_ok _ tb pid' sb start size L Hrb Hsb Hz) as (tr & Rr).
    { by apply (committed_header t start size L HL). }
    eexists _, tr. split; [exact Rr|]. intros x Hx. rewrite (rc_disk _ _ _ _ _ _ _ _ Rr), decide_False by lia.
    by apply (committed_recovers t pid P start size L).
  - destruct (initlog_ok _ tb pid' sb start size [] Hrb Hsb Hz) as (tr & Rr).
    { apply header_empty; [|done]. rewrite (done_image t pid P start size L) by auto.
      rewrite decide_True by done. destruct (lh_room _ _ _ _ HL) as [_ Hr]. rewrite HEAD_30 in Hr.
      destruct (mk_header_spec L (bview t start)) as (_ & Hl & _); [change LOGSIZE with 30; lia|done| |].
      { intros x Hx. by destruct (lh_home _ _ _ _ HL x Hx). }
      destruct (mk_header_spec [] (mk_header L (bview t start))) as (Hn & _ & _); try done. set_solver. }
    eexists _, tr. split; [exact Rr|]. intros x Hx. rewrite (rc_disk _ _ _ _ _ _ _ _ Rr), decide_False by lia. simpl.
    assert (x ≠ start) by (intros ->; apply Hx; unfold in_log; lia). rewrite decide_False by done.
    rewrite (done_image t pid P start size L) by auto. by rewrite decide_False.
Qed.
