(* ===== verification/LogOps.v ===== *)
(** * File-system operations and the log

    [begin_op], [log_write] and [end_op] as the file system uses them: what
    an operation does to the cache and the log, how it commits, and how many
    blocks the reservation of [begin_op] is good for. *)

From S2P Require Import Base Riscv Mem Kernel Sleeplock FsState Bio BioList BioSpec Log LogSpec LogCrash.
Local Open Scope Z_scope.
Local Open Scope kernel_scope.

(** ** Boot *)
#[local] Opaque boot_list.

Lemma boot_rebooted m pid : rebooted m (boot_fs m) pid.
Proof. split; [apply boot_cache|reflexivity|split; reflexivity|reflexivity]. Qed.

(** ** Operations *)

Lemma log_full_false g :
  lg_committing g = 0 → lg_n g + (lg_outstanding g + 1) * MAXOPBLOCKS ≤ LOGSIZE →
  log_full g = false.
Proof.
  intros Hc Hn. unfold log_full, nonzero. rewrite Hc. cbn [Z.eqb negb orb].
  rewrite Z.gtb_ltb. apply Z.ltb_ge. lia.
Qed.

Lemma log_has_log t g start size L :
  log_has t start size L → lg_dev (g (f_log t)) = lg_dev (f_log t) →
  lg_start (g (f_log t)) = lg_start (f_log t) → lg_n (g (f_log t)) = lg_n (f_log t) →
  lg_block (g (f_log t)) = lg_block (f_log t) → log_has (mod_log g t) start size L.
Proof. intros [] E1 E2 E3 E4. split; cbn; rewrite ?E1, ?E2, ?E3, ?E4; done. Qed.

Lemma begin_op_ok t h pid H start size L k :
  in_trans t pid H start size L k → Llog ∉ h →
  Z.of_nat (length L) + (k + 1) * MAXOPBLOCKS ≤ LOGSIZE →
  ∃ t', begin_op (Solo t h pid) = Ok tt (Solo t' h pid) ∧
    in_trans t' pid H start size L (k + 1) ∧ (∀ b, bview t' b = bview t b) ∧
    f_disk t' = f_disk t ∧ f_bufs t' = f_bufs t ∧ f_sb t' = f_sb t ∧ f_itable t' = f_itable t.
Proof.
  intros [(P & I & HP) HL Hs Hb Ho Hc] Hh Hroom. unfold begin_op. rewrite bind_acquire_solo by done.
  rewrite (bind_ok _ _ _ tt (Solo t (Llog :: h) pid)).
  2:{ cbn [wakeups solo_ops wait_while]. rewrite bind_get_solo, log_full_false; [done | done |].
      rewrite (lh_n _ _ _ _ HL), Ho. lia. }
  rewrite bind_upd_solo, release_solo. eexists. split; [reflexivity|].
  split; [|split; [intros b; apply bview_mod_log | done]].
  split; cbn; try done; [|by apply log_has_log | congruence].
  exists P. split; [by apply cache_mod_log | done].
Qed.

Lemma log_index_new L b : b ∉ L → log_index L b = length L.
Proof.
  induction L as [|x L IH]; simpl; [done|]. rewrite elem_of_cons. intros Hn.
  destruct (x =? b) eqn:E; bool_to_prop; [naive_solver|]. f_equal. apply IH. tauto.
Qed.

Lemma log_index_old L b : b ∈ L → L !! log_index L b = Some b.
Proof.
  induction L as [|x L IH]; simpl; [by intros ?%elem_of_nil|]. rewrite elem_of_cons. intros Hn.
  destruct (x =? b) eqn:E; bool_to_prop; [by subst|]. apply IH. naive_solver.
Qed.

(** The log after [b] has been recorded in it. *)
Definition absorbed (L : list Z) (b : Z) : list Z := if decide (b ∈ L) then L else L ++ [b].

Lemma log_has_new t start size L b :
  log_has t start size L → b ∉ L → length (lg_block (f_log t)) = Z.to_nat LOGSIZE →
  Z.of_nat (length L) + 1 < Z.min LOGSIZE size → ¬ in_log start size b → 0 ≤ b < 2 ^ 31 →
  ∀ t', f_log t' = set_lg_n (lg_n (f_log t) + 1)
          (set_lg_block (<[length L := b]> (lg_block (f_log t))) (f_log t)) →
  log_has t' start size (L ++ [b]).
Proof.
  intros [Hd Hs Hn Hbl Hnd [Hr1 Hr2] Hh] Hb Hlen Hroom Hin Hrange t' Et.
  assert (LOGSIZE = 30) as E30 by done.
  split; rewrite ?Et; cbn; try done.
  - rewrite Hn, length_app. simpl. lia.
  - rewrite length_app. simpl. rewrite Nat.add_1_r, take_S_r with (x := b).
    + f_equal. rewrite take_insert_ge by lia. done.
    + apply list_lookup_insert_eq. lia.
  - apply NoDup_app. split; [done|]. split; [|apply NoDup_singleton].
    intros x Hx ->%list_elem_of_singleton. done.
  - rewrite length_app, HEAD_30. simpl. lia.
  - intros x [Hx| ->%list_elem_of_singleton]%elem_of_app; [by apply Hh | done].
Qed.

Lemma log_write_ok t h pid H start size L k i :
  in_trans t pid H start size L k → Llog ∉ h → Lbcache ∉ h → i ∈ H → 1 ≤ k →
  Z.of_nat (length L) + 1 < Z.min LOGSIZE size →
  ¬ in_log start size (b_blockno (buf_at i t)) → 0 ≤ b_blockno (buf_at i t) < 2 ^ 31 →
  ∃ t', log_write i (Solo t h pid) = Ok tt (Solo t' h pid) ∧
    in_trans t' pid H start size (absorbed L (b_blockno (buf_at i t))) k ∧
    (∀ b, bview t' b = bview t b) ∧ f_disk t' = f_disk t ∧ f_sb t' = f_sb t ∧
    f_itable t' = f_itable t ∧
    ∀ j, b_blockno (buf_at j t') = b_blockno (buf_at j t) ∧ b_data (buf_at j t') = b_data (buf_at j t).
Proof.
  intros [(P & I & HP) HL Hs Hb Ho Hc] Hh Hh' Hi Hk Hroom Hin Hr.
  set (b := b_blockno (buf_at i t)) in *. pose proof HL as [Hd Hst Hn Hbl Hnd _ _].
  unfold log_write. rewrite bind_acquire_solo, bind_get_solo by done.
  replace (_ || _) with false.
  2:{ symmetry. apply orb_false_iff. rewrite !Z.geb_leb, !Z.leb_gt, Hn, Hs. lia. }
  rewrite (proj2 (Z.ltb_ge _ _)) by lia. rewrite bind_get_solo. fold b.
  rewrite Hn, Nat2Z.id, Hbl. rewrite bind_upd_solo. unfold absorbed.
  destruct (decide (b ∈ L)) as [HbL|HbL].
  - pose proof (log_index_old L b HbL) as Hidx. pose proof (lookup_lt_Some _ _ _ Hidx) as Hlt.
    replace (_ =? _) with false by (symmetry; apply Z.eqb_neq; lia).
    rewrite bind_ret, release_solo. exists t. split; [|by split_and!; [split; eauto|..]].
    f_equal. f_equal. unfold mod_log. rewrite list_insert_id; [by destruct t as [? ? [] ? ?]|].
    transitivity (take (length L) (lg_block (f_log t)) !! log_index L b);
      [symmetry; by apply lookup_take_lt | by rewrite Hbl].
  - rewrite log_index_new by done. rewrite Z.eqb_refl.
    set (t1 := mod_log _ t).
    destruct (bpin_ok t1 (Llog :: h) pid H P i) as (t2 & E2 & I2 & V2 & D2 & (R1 & R2 & R3) & C2);
      [by apply cache_mod_log | set_solver | done | by rewrite HP |].
    unfold bind at 1. rewrite (bind_ok _ _ _ _ _ E2), upd_solo. cbn [res_bind]. rewrite release_solo.
    eexists. split; [reflexivity|]. split_and!; try done.
    + split; cbn; try (rewrite R1; cbn; done).
      * exists (b :: P). split; [by apply cache_mod_log|]. rewrite HP. by rewrite Permutation_app_comm.
      * apply (log_has_new t); try done. cbn. by rewrite R1.
      * rewrite R1. cbn. by rewrite length_insert.
Qed.

(** The last operation to end commits what is in the log. *)
Lemma end_op_ok t pid start size L :
  in_trans t pid [] start size L 1 →
  ∃ t2 t3 t', f_disk t2 = f_disk t ∧ (∀ b, bview t2 b = bview t b) ∧
    log_has t2 start size L ∧ (∃ P, cache_idle t2 pid P ∧ P ≡ₚ L) ∧
    commit (Solo t2 [] pid) = Ok tt (Solo t3 [] pid) ∧ f_disk t' = f_disk t3 ∧
    end_op (Solo t [] pid) = Ok tt (Solo t' [] pid) ∧ in_trans t' pid [] start size [] 0 ∧
    (∀ x, ¬ in_log start size x → bview t' x = bview t x) ∧
    f_sb t' = f_sb t ∧ f_itable t' = f_itable t.
Proof.
  intros [(P & I & HP) HL Hs Hb Ho Hc].
  set (t2 := mod_log (set_lg_committing 1) (mod_log (λ g, set_lg_outstanding (lg_outstanding g - 1) g) t)).
  assert (HL2 : log_has t2 start size L) by (by apply log_has_log; [apply log_has_log|..]).
  assert (I2 : cache_idle t2 pid P) by (by apply cache_mod_log, cache_mod_log).
  assert (Hrun : ∃ t3, commit (Solo t2 [] pid) = Ok tt (Solo t3 [] pid) ∧ cache_idle t3 pid [] ∧
    f_log t3 = set_lg_n 0 (f_log t2) ∧ f_sb t3 = f_sb t2 ∧ f_itable t3 = f_itable t2 ∧
    ∀ x, ¬ in_log start size x → bview t3 x = bview t2 x).
  { destruct (decide (L = [])) as [->|HL0].
    - exists t2. apply Permutation_nil_r in HP as ->. destruct HL2 as [_ _ Hn _ _ _ _].
      unfold commit. rewrite bind_get_solo, Hn. split_and!; try done.
      transitivity (set_lg_n (lg_n (f_log t2)) (f_log t2)); [by destruct (f_log t2) | by rewrite Hn].
    - destruct (commit_ok t2 pid P start size L I2 HL2 HP HL0)
        as (t3 & E3 & I3 & _ & G3 & S3 & T3 & V3). exists t3. split_and!; try done.
      intros x Hx. by apply V3. }
  destruct Hrun as (t3 & E3 & I3 & G3 & S3 & T3 & V3).
  exists t2, t3, (mod_log (set_lg_committing 0) t3).
  split_and!; try done; [by exists P | |].
  - unfold end_op. rewrite bind_acquire_solo, bind_upd_solo, bind_get_solo by apply not_elem_of_nil.
    cbn [f_log mod_log set_f_log lg_committing set_lg_outstanding lg_outstanding]. rewrite Hc, Ho.
    change (nonzero 0) with false. change (1 - 1 =? 0) with true. cbn match.
    rewrite bind_upd_solo, bind_release_solo. fold t2.
    rewrite (bind_ok _ _ _ _ _ E3), bind_acquire_solo by apply not_elem_of_nil.
    rewrite bind_upd_solo, bind_wakeup_solo. apply release_solo.
  - split; cbn; rewrite ?G3; cbn; try done; [| |lia].
    + exists []. split; [by apply cache_mod_log | done].
    + destruct HL2 as [? ? ? ? ? [? ?] ?]. split; cbn; rewrite ?G3; cbn; try done.
      * apply NoDup_nil_2.
      * rewrite HEAD_30. simpl. lia.
      * by intros x ?%elem_of_nil.
Qed.

(** ** A transaction *)
Section transaction.
  Context {S : Type} {KO : KernelOps S} {HS : HasState S fsst}.

(** How file-system code changes a block: read it, change it in the cache,
    record it in the log, give it back. *)
Definition write_block (b : Z) (d : list Z) : M S unit :=
  i ← bread ROOTDEV b;
  upd (mod_buf i (set_b_data d)) ;;
  log_write i ;;
  brelse i.

Definition transaction (ups : list (Z * list Z)) : M S unit :=
  begin_op ;;
  mfor ups (λ u, write_block u.1 u.2) ;;
  end_op.
End transaction.

Lemma in_trans_rest t t' pid H H' P start size L k :
  in_trans t pid H start size L k → cache_inv t' pid H' P → P ≡ₚ L → f_log t' = f_log t →
  in_trans t' pid H' start size L k.
Proof.
  intros [_ HL Hs Hb Ho Hc] I HP E. split; rewrite ?E; try done; [by exists P|].
  destruct HL. split; rewrite ?E; done.
Qed.

Lemma write_block_ok t pid start size L k b d :
  in_trans t pid [] start size L k → 1 ≤ k → Z.of_nat (length L) + 1 < Z.min LOGSIZE size →
  ¬ in_log start size b → 0 ≤ b < 2 ^ 31 →
  ∃ t', write_block b d (Solo t [] pid) = Ok tt (Solo t' [] pid) ∧
    in_trans t' pid [] start size (absorbed L b) k ∧
    (∀ x, bview t' x = if decide (x = b) then d else bview t x) ∧ f_disk t' = f_disk t ∧
    f_sb t' = f_sb t ∧ f_itable t' = f_itable t.
Proof.
  intros T Hk Hroom Hin Hr. destruct (it_cache _ _ _ _ _ _ _ T) as (P & I & HP).
  assert (bio_free []) as Hf by (split; [apply not_elem_of_nil | intros; apply not_elem_of_nil]).
  destruct (bread_ok t [] pid [] P b) as (i & t1 & E1 & I1 & _ & C1 & _ & V1 & D1 & (G1 & S1 & T1) & _);
    [done | done | by intros ? ?%elem_of_nil | |].
  { intros _. rewrite HP, HEAD_30. unfold LOGSIZE, MAXOPBLOCKS in *. simpl. lia. }
  destruct (set_data_ok t1 pid [i] P i d I1) as (I2 & _ & X2 & V2 & _); [by left|].
  unfold set_data in *. set (t2 := mod_buf i (set_b_data d) t1) in *.
  assert (Eb : b_blockno (buf_at i t2) = b).
  { unfold t2. destruct C1 as (Hi & _ & Hb). rewrite buf_at_mod by (done || exact (bufs_len I1)).
    by rewrite decide_True. }
  assert (b_blockno (buf_at i t1) = b) as Eb1 by apply C1.
  destruct (log_write_ok t2 [] pid [i] start size L k i) as (t3 & E3 & T3 & V3 & D3 & S3 & IT3 & C3);
    [by eapply in_trans_rest | apply not_elem_of_nil | apply not_elem_of_nil | by left | done | done
    | by rewrite Eb | by rewrite Eb |].
  rewrite Eb in T3. destruct (it_cache _ _ _ _ _ _ _ T3) as (P3 & I3 & HP3).
  destruct (brelse_ok t3 [] pid [i] [] P3 i I3 Hf) as (t4 & E4 & I4 & D4 & V4 & (G4 & S4 & IT4) & _);
    [done | |].
  { left. destruct (C3 i) as [-> _]. rewrite Eb, HP3. unfold absorbed.
    case_decide; [done|]. apply elem_of_app. right. by apply list_elem_of_singleton. }
  exists t4. unfold write_block. rewrite (bind_ok _ _ _ _ _ E1), bind_upd_solo. fold t2.
  rewrite (bind_ok _ _ _ _ _ E3). split_and!.
  - done.
  - by eapply in_trans_rest.
  - intros x. rewrite V4, V3, V2, Eb1. case_decide; [done|]. apply V1.
  - by rewrite D4, D3.
  - by rewrite S4, S3.
  - by rewrite IT4, IT3.
Qed.

(** The log after several blocks. *)
Definition absorb_all (L : list Z) (ups : list (Z * list Z)) : list Z :=
  foldl (λ L u, absorbed L u.1) L ups.

Lemma absorbed_length L b : (length (absorbed L b) ≤ S (length L))%nat.
Proof. unfold absorbed. case_decide; [lia|]. rewrite length_app. simpl. lia. Qed.

Lemma write_blocks_ok ups t pid start size L k :
  in_trans t pid [] start size L k → 1 ≤ k →
  Z.of_nat (length L + length ups) < Z.min LOGSIZE size →
  Forall (λ u, ¬ in_log start size u.1 ∧ 0 ≤ u.1 < 2 ^ 31) ups →
  ∃ t', mfor ups (λ u, write_block u.1 u.2) (Solo t [] pid) = Ok tt (Solo t' [] pid) ∧
    in_trans t' pid [] start size (absorb_all L ups) k ∧
    (∀ x, bview t' x = vwrites ups (bview t) x) ∧ f_disk t' = f_disk t ∧
    f_sb t' = f_sb t ∧ f_itable t' = f_itable t.
Proof.
  revert t L. induction ups as [|[b d] ups IH]; intros t L T Hk Hroom Hu; [by exists t|].
  apply Forall_cons in Hu as [[Hb Hr] Hu]. cbn [mfor fst snd length] in *.
  destruct (write_block_ok t pid start size L k b d) as (t1 & E1 & T1 & V1 & D1 & S1 & I1);
    [done | done | lia | done | done |].
  pose proof (absorbed_length L b).
  destruct (IH t1 (absorbed L b) T1 Hk) as (t2 & E2 & T2 & V2 & D2 & S2 & I2); [lia | done |].
  exists t2. rewrite (bind_ok _ _ _ _ _ E1). split_and!; try done.
  - intros x. rewrite V2. cbn. apply vwrites_ext, V1.
  - by rewrite D2.
  - by rewrite S2.
  - by rewrite I2.
Qed.

Lemma elem_of_absorb_all L ups b : b ∈ absorb_all L ups ↔ b ∈ L ∨ b ∈ ups.*1.
Proof.
  revert L. induction ups as [|[x d] ups IH]; intros L; simpl.
  - rewrite elem_of_nil. tauto.
  - rewrite IH, elem_of_cons. unfold absorbed. case_decide.
    + naive_solver.
    + rewrite elem_of_app, list_elem_of_singleton. tauto.
Qed.

Lemma absorb_all_nonempty ups : (0 < length ups)%nat → absorb_all [] ups ≠ [].
Proof.
  intros Hl E. destruct ups as [|u ups]; simpl in Hl; [lia|].
  assert (u.1 ∈ absorb_all [] (u :: ups)) as Hin.
  { rewrite elem_of_absorb_all. right. simpl. by left. }
  rewrite E in Hin. by apply elem_of_nil in Hin.
Qed.

(** ** Theorems *)

(** C1: a transaction is atomic across crashes.  An operation that changes up
    to [MAXOPBLOCKS] blocks between [begin_op] and [end_op] returns, and the
    file system then shows all its changes.  If the machine crashes at any
    point, so that only a prefix [w1] of the disk writes has been done, then
    recovery at the next boot returns, the log is ready for operations, and
    every block outside the log is as before the transaction (if the crash
    came before the header was written) or has all of the transaction's changes
    (afterwards); it never shows some of them. *)
Theorem transaction_crash_atomic ups t pid sb start size
    (HT : in_trans t pid [] start size [] 0) (Hsb : sb_logstart sb = start ∧ sb_nlog sb = size)
    (Hhdr : length (bview t start) = 1024%nat ∧ hdr_n (bview t start) = 0)
    (Hsize : MAXOPBLOCKS < size) (Hlen : (0 < length ups ≤ Z.to_nat MAXOPBLOCKS)%nat)
    (Hups : Forall (λ u, ¬ in_log start size u.1 ∧ 0 ≤ u.1 < 2 ^ 31) ups) :
  ∃ t' L, transaction ups (Solo t [] pid) = Ok tt (Solo t' [] pid) ∧
    in_trans t' pid [] start size [] 0 ∧
    (∀ x, ¬ in_log start size x → bview t' x = vwrites ups (bview t) x) ∧
    (∀ b, b ∈ L ↔ b ∈ ups.*1) ∧
    ∀ w1 w2, d_trace (f_disk t') = d_trace (f_disk t) ++ w1 ++ w2 →
    ∀ tb pid', rebooted (apply_writes w1 (d_blocks (f_disk t))) tb pid' →
    ∃ tr, initlog ROOTDEV sb (Solo tb [] pid') = Ok tt (Solo tr [] pid') ∧ in_trans tr pid' [] start size [] 0 ∧
      ∀ x, ¬ in_log start size x → disk_block (f_disk tr) x =
        if decide (length w1 ≤ length L)%nat then bview t x else vwrites ups (bview t) x.
Proof.
  unfold MAXOPBLOCKS in Hsize, Hlen.
  destruct (begin_op_ok t [] pid [] start size [] 0) as (t1 & E1 & T1 & V1 & D1 & _);
    [done | apply not_elem_of_nil | simpl; unfold LOGSIZE, MAXOPBLOCKS; lia |].
  destruct (write_blocks_ok ups t1 pid start size [] 1) as (t2 & E2 & T2 & V2 & D2 & _);
    [done | lia | unfold LOGSIZE, MAXOPBLOCKS; simpl; lia | done |].
  set (L := absorb_all [] ups) in *.
  assert (HL0 : L ≠ []) by (apply absorb_all_nonempty; lia).
  destruct (end_op_ok t2 pid start size L T2) as
    (t3 & t4 & t' & D3 & V3 & HL3 & (P & I3 & HP) & E3 & D' & E' & T' & V' & _).
  assert (Hout : ∀ x, in_log start size x → vwrites ups (bview t) x = bview t x).
  { intros x Hx. apply vwrites_out. intros Hin. apply list_elem_of_fmap in Hin as (u & -> & Hu).
    rewrite Forall_forall in Hups. destruct (Hups u Hu). done. }
  assert (Hv : ∀ x, bview t3 x = vwrites ups (bview t) x).
  { intros x. rewrite V3, V2. apply vwrites_ext, V1. }
  assert (Hst : in_log start size start) by (unfold in_log; lia).
  destruct (commit_crash_ok t3 pid P sb start size L I3 HL3 HP HL0 (proj1 Hsb) (proj2 Hsb)) as (t4' & E4 & _ & _ & Hcr);
    [rewrite Hv, Hout by done; apply Hhdr | rewrite Hv, Hout by done; apply Hhdr |].
  rewrite E3 in E4. injection E4 as <-.
  exists t', L. split_and!; try done.
  - unfold transaction. rewrite (bind_ok _ _ _ _ _ E1), (bind_ok _ _ _ _ _ E2). done.
  - intros x Hx. by rewrite V', <- V3, Hv.
  - intros b. unfold L. rewrite elem_of_absorb_all. rewrite elem_of_nil. naive_solver.
  - intros w1 w2 Hw tb pid' Hrb. rewrite D', <- D1, <- D2, <- D3 in Hw. rewrite <- D1, <- D2, <- D3 in Hrb.
    destruct (Hcr w1 w2 Hw tb pid' Hrb) as (L' & tr & Rr & Hr). exists tr.
    split_and!; [apply Rr..|]. intros x Hx. rewrite Hr by done. rewrite D3, D2, D1. case_decide; [|apply Hv].
    symmetry. destruct (it_cache _ _ _ _ _ _ _ HT) as (P0 & I0 & HP0).
    apply Permutation_nil_r in HP0 as ->. apply (bview_clean I0); [apply not_elem_of_nil|].
    by intros i ?%elem_of_nil.
Qed.

(** A disk with an empty log of 30 blocks from block 2 on. *)
Definition ex_sb : superblock := Superblock FSMAGIC 2000 1954 200 30 2 32 45.
Definition ex_fs : fsst := mod_log (λ _, Log 2 30 0 0 ROOTDEV 0 (replicate 30 0)) (boot_fs ∅).

Lemma ex_fs_idle pid : in_trans ex_fs pid [] 2 30 [] 0.
Proof.
  split; [| |reflexivity..].
  - exists []. split; [|done]. apply cache_mod_log. exact (rb_cache _ _ _ (boot_rebooted ∅ pid)).
  - split; [reflexivity | reflexivity | reflexivity | reflexivity | apply NoDup_nil_2 | |].
    + simpl. rewrite HEAD_30. lia.
    + by intros b ?%elem_of_nil.
Qed.

Lemma ex_fs_bview b : bview ex_fs b = zero_block.
Proof. unfold ex_fs. rewrite bview_mod_log, boot_bview. unfold image. by rewrite lookup_empty. Qed.

Lemma transaction_crash_atomic_witness :
  ∃ t', transaction [(100, replicate 1024 7); (101, replicate 1024 8)] (Solo ex_fs [] 1) =
      Ok tt (Solo t' [] 1) ∧ bview t' 100 = replicate 1024 7 ∧
    ∀ w1 w2, d_trace (f_disk t') = d_trace (f_disk ex_fs) ++ w1 ++ w2 →
    ∀ tb, rebooted (apply_writes w1 ∅) tb 1 →
    ∃ tr, initlog ROOTDEV ex_sb (Solo tb [] 1) = Ok tt (Solo tr [] 1) ∧
      ((disk_block (f_disk tr) 100 = zero_block ∧ disk_block (f_disk tr) 101 = zero_block) ∨
       (disk_block (f_disk tr) 100 = replicate 1024 7 ∧ disk_block (f_disk tr) 101 = replicate 1024 8)).
Proof.
  destruct (transaction_crash_atomic [(100, replicate 1024 7); (101, replicate 1024 8)] ex_fs 1 ex_sb 2 30)
    as (t' & L & E & _ & V & _ & Hcr);
    [apply ex_fs_idle | split; reflexivity | rewrite ex_fs_bview; split; reflexivity
    | unfold MAXOPBLOCKS; lia | simpl; unfold MAXOPBLOCKS; lia
    | repeat constructor; unfold in_log; simpl; lia |].
  exists t'. split; [exact E|]. split.
  - rewrite V by (unfold in_log; lia). reflexivity.
  - intros w1 w2 Hw tb Hrb. destruct (Hcr w1 w2 Hw tb 1 Hrb) as (tr & Er & _ & Hr).
    exists tr. split; [exact Er|].
    rewrite (Hr 100) by (unfold in_log; lia). rewrite (Hr 101) by (unfold in_log; lia).
    destruct (decide _); [left | right]; rewrite ?ex_fs_bview; split; reflexivity.
Defined.

Lemma absorb_all_fresh L ups :
  NoDup (L ++ ups.*1) → absorb_all L ups = L ++ ups.*1.
Proof.
  revert L. induction ups as [|[b d] ups IH]; intros L Hnd; simpl in *; [by rewrite app_nil_r|].
  assert (Hb : b ∉ L).
  { apply NoDup_app in Hnd as (_ & Hd & _). intros Hin. apply (Hd b Hin). by left. }
  unfold absorbed. rewrite decide_False by done.
  rewrite IH; rewrite <- app_assoc; [done|]. exact Hnd.
Qed.

(** Recording a block when the log has no place left. *)
Lemma log_write_full t h pid H start size L k i :
  in_trans t pid H start size L k → Llog ∉ h →
  size - 1 ≤ Z.of_nat (length L) → log_write i (Solo t h pid) = Panic "too big a transaction".
Proof.
  intros [_ HL Hs _ _ _] Hh Hfull. unfold log_write. rewrite bind_acquire_solo, bind_get_solo by done.
  rewrite (proj2 (orb_true_iff _ _)); [done|]. right. rewrite Z.geb_leb, Z.leb_le.
  rewrite (lh_n _ _ _ _ HL), Hs. lia.
Qed.

(** C31: [begin_op] admits three operations of [MAXOPBLOCKS] blocks each into a
    log of [LOGSIZE] blocks, the size [mkfs] gives it, of which one is the
    header: when together they have recorded 29 of their 30 blocks, the next
    [log_write] panics. *)
Theorem log_one_block_short t pid start ups b d
    (HT : in_trans t pid [] start LOGSIZE [] 0) (Hlen : length ups = 29%nat)
    (Hnd : NoDup (b :: ups.*1))
    (Hups : Forall (λ u, ¬ in_log start LOGSIZE u.1 ∧ 0 ≤ u.1 < 2 ^ 31) ups) :
  ∃ t', (begin_op ;; begin_op ;; begin_op ;; mfor ups (λ u, write_block u.1 u.2)) (Solo t [] pid) =
          Ok tt (Solo t' [] pid) ∧
        (i ← bread ROOTDEV b; upd (mod_buf i (set_b_data d)) ;; log_write i) (Solo t' [] pid) =
          Panic "too big a transaction".
Proof.
  destruct (begin_op_ok t [] pid [] start LOGSIZE [] 0) as (t1 & E1 & T1 & _);
    [done | apply not_elem_of_nil | done |].
  destruct (begin_op_ok t1 [] pid [] start LOGSIZE [] (0 + 1)) as (t2 & E2 & T2 & _);
    [done | apply not_elem_of_nil | done |].
  destruct (begin_op_ok t2 [] pid [] start LOGSIZE [] (0 + 1 + 1)) as (t3 & E3 & T3 & _);
    [done | apply not_elem_of_nil | done |].
  destruct (write_blocks_ok ups t3 pid start LOGSIZE [] (0 + 1 + 1 + 1)) as (t4 & E4 & T4 & _);
    [done | lia | rewrite Hlen; done | done |].
  apply NoDup_cons in Hnd as [Hb Hnd]. rewrite absorb_all_fresh in T4 by done. simpl in T4.
  destruct (it_cache _ _ _ _ _ _ _ T4) as (P & I & HP).
  destruct (bread_ok t4 [] pid [] P b) as (i & t5 & E5 & I5 & _ & C5 & _ & _ & _ & (G5 & _) & _);
    [done | by split; [apply not_elem_of_nil | intros; apply not_elem_of_nil] | by intros ? ?%elem_of_nil | |].
  { intros _. rewrite HP, length_fmap, Hlen, HEAD_30. simpl. lia. }
  exists t4. rewrite (bind_ok _ _ _ _ _ E1), (bind_ok _ _ _ _ _ E2), (bind_ok _ _ _ _ _ E3).
  split; [done|]. rewrite (bind_ok _ _ _ _ _ E5), bind_upd_solo.
  destruct (set_data_ok t5 pid [i] P i d I5) as (I6 & _); [by left|].
  eapply log_write_full; [by eapply in_trans_rest | apply not_elem_of_nil |].
  rewrite length_fmap, Hlen. done.
Qed.

Lemma log_one_block_short_witness :
  ∃ t', (begin_op ;; begin_op ;; begin_op ;;
         mfor ((λ b, (b, zero_block)) <$> zseq 100 29) (λ u, write_block u.1 u.2)) (Solo ex_fs [] 1) =
          Ok tt (Solo t' [] 1) ∧
        (i ← bread ROOTDEV 200; upd (mod_buf i (set_b_data zero_block)) ;; log_write i) (Solo t' [] 1) =
          Panic "too big a transaction".
Proof.
  apply (log_one_block_short ex_fs 1 2 ((λ b, (b, zero_block)) <$> zseq 100 29) 200 zero_block).
  - apply ex_fs_idle.
  - rewrite length_fmap. apply zseq_length.
  - rewrite <- list_fmap_compose. rewrite list_fmap_id. apply NoDup_cons. split; [|apply zseq_NoDup].
    rewrite elem_of_zseq. lia.
  - apply Forall_fmap, Forall_forall. intros x Hx%elem_of_zseq. simpl. unfold in_log.
    change LOGSIZE with 30. lia.
Defined.
