(* ===== verification/Fs.v ===== *)
(** * The file system ([kernel/fs.c])

    Block allocator, inodes, file contents, directories and path names.  An
    inode pointer is an index in the inode table, [None] where C has a null
    pointer.  A path or a file name is the list of its bytes without the
    terminating NUL.  [printf] of the out-of-space messages is left out: it
    does not touch the file system. *)

From S2P Require Import Base Riscv Mem Kstring Kernel Sleeplock FsState Bio Log.
Local Open Scope Z_scope.
Local Open Scope kernel_scope.

(** ** [kernel/stat.h] *)
Definition T_DIR : Z := 1.
Definition T_FILE : Z := 2.
Definition T_DEVICE : Z := 3.

Record stat := Stat { st_dev : Z; st_ino : Z; st_type : Z; st_nlink : Z; st_size : Z }.

(** ** Structures inside a block *)
Definition get_superblock (d : list Z) : superblock :=
  let f i := blk_get 4 (4 * i) d in
  Superblock (f 0) (f 1) (f 2) (f 3) (f 4) (f 5) (f 6) (f 7).

(** The offset of inode [inum] in its block. *)
Definition dinode_off (inum : Z) : Z := sizeof_dinode * (inum mod IPB).

Definition dinode_type (d : list Z) (off : Z) : Z := i16 (blk_get 2 off d).

(** Copy the fields of the on-disk inode at [off] into an in-memory inode. *)
Definition load_dinode (d : list Z) (off : Z) (ip : inode) : inode :=
  Inode (i_dev ip) (i_inum ip) (i_ref ip) (i_lock ip) (i_valid ip)
    (i16 (blk_get 2 off d)) (i16 (blk_get 2 (off + 2) d)) (i16 (blk_get 2 (off + 4) d))
    (i16 (blk_get 2 (off + 6) d)) (blk_get 4 (off + 8) d)
    ((λ i, blk_get 4 (off + 12 + 4 * i) d) <$> zseq 0 13).

Definition store_addrs (addrs : list Z) (off : Z) (d : list Z) : list Z :=
  foldl (λ d ia, blk_put 4 (off + 12 + 4 * ia.1) ia.2 d) d (zip (zseq 0 13) addrs).

Definition store_dinode (ip : inode) (off : Z) (d : list Z) : list Z :=
  let d := blk_put 2 off (i_type ip) d in
  let d := blk_put 2 (off + 2) (i_major ip) d in
  let d := blk_put 2 (off + 4) (i_minor ip) d in
  let d := blk_put 2 (off + 6) (i_nlink ip) d in
  let d := blk_put 4 (off + 8) (i_size ip) d in
  store_addrs (i_addrs ip) off d.

(** Zero the on-disk inode and set its type. *)
Definition clear_dinode (type off : Z) (d : list Z) : list Z :=
  let d := take (Z.to_nat off) d ++ replicate 64 0 ++ drop (Z.to_nat off + 64) d in
  blk_put 2 off type d.

(** Bit [bi] of the free map block. *)
Definition bit_mask (bi : Z) : Z := Z.shiftl 1 (bi mod 8).
Definition map_byte (d : list Z) (bi : Z) : Z := default 0 (d !! Z.to_nat (bi / 8)).
Definition put_map_byte (bi v : Z) (d : list Z) : list Z := <[Z.to_nat (bi / 8) := v]> d.

(** [for(bi = 0; bi < BPB && b + bi < sb.size; bi++)]: the first free bit. *)
Fixpoint find_free_bit (n : nat) (d : list Z) (b bi size : Z) : option Z :=
  match n with
  | O => None
  | S n =>
      if b + bi <? size then
        if Z.land (map_byte d bi) (bit_mask bi) =? 0 then Some bi
        else find_free_bit n d b (bi + 1) size
      else None
  end.

(** The scan of the inode table in [iget]: an entry for the inode, or else the
    first empty slot. *)
Fixpoint iget_scan (l : list inode) (i : nat) (dev inum : Z) (empty : option nat) : nat + option nat :=
  match l with
  | [] => inr empty
  | ip :: l =>
      if (i_ref ip >? 0) && (i_dev ip =? dev) && (i_inum ip =? inum) then inl i
      else iget_scan l (Datatypes.S i) dev inum
             (match empty with
              | None => if i_ref ip =? 0 then Some i else None
              | Some e => Some e
              end)
  end.

(** ** Path elements *)
Definition SLASH : Z := 47.

Fixpoint skip_slashes (path : list Z) : list Z :=
  match path with
  | c :: rest => if c =? SLASH then skip_slashes rest else path
  | [] => []
  end.

(** The bytes up to the next slash, and the rest. *)
Fixpoint take_elem (path : list Z) : list Z * list Z :=
  match path with
  | c :: rest => if c =? SLASH then ([], path) else let '(e, r) := take_elem rest in (c :: e, r)
  | [] => ([], [])
  end.

(** The rest of the path and the element, cut at [DIRSIZ] bytes. *)
Definition skipelem (path : list Z) : option (list Z * list Z) :=
  match skip_slashes path with
  | [] => None
  | path =>
      let '(s, rest) := take_elem path in
      Some (skip_slashes rest, take (Z.to_nat DIRSIZ) s)
  end.

Definition namecmp (s t : list Z) : Z := strncmp_bytes s t (Z.to_nat DIRSIZ).

(** A directory entry: [ushort inum; char name[DIRSIZ]]. *)
Definition dirent_inum (de : list Z) : Z := le_val (take 2 de).
Definition dirent_name (de : list Z) : list Z := take (Z.to_nat DIRSIZ) (drop 2 de).
Definition mk_dirent (inum : Z) (name : list Z) : list Z :=
  le_bytes 2 inum ++ zpad (Z.to_nat DIRSIZ) name.

Section fs.
  Context {S : Type} {KO : KernelOps S} {HS : HasState S fsst}.

Definition ifield {A} (f : inode → A) (ip : nat) : M S A := get (λ t, f (inode_at ip t)).
Definition iset (g : inode → inode) (ip : nat) : M S unit := upd (mod_inode ip g).
Definition bset (g : list Z → list Z) (b : nat) : M S unit :=
  upd (mod_buf b (λ x, set_b_data (g (b_data x)) x)).
Definition get_sb : M S superblock := get f_sb.

Definition readsb (dev : Z) : M S unit :=
  bp ← bread dev 1;
  d ← bdata bp;
  upd (set_f_sb (get_superblock d)) ;;
  brelse bp.

Definition fsinit (dev : Z) : M S unit :=
  readsb dev ;;
  sb ← get_sb;
  if negb (sb_magic sb =? FSMAGIC) then panic "invalid file system" else
  initlog dev sb.

Definition bzero (dev bno : Z) : M S unit :=
  bp ← bread dev bno;
  bset (λ _, zero_block) bp ;;
  log_write bp ;;
  brelse bp.

Fixpoint balloc_loop (fuel : nat) (dev b : Z) : M S Z :=
  match fuel with
  | O => diverge
  | Datatypes.S fuel =>
      sb ← get_sb;
      if b <? sb_size sb then
        bp ← bread dev (BBLOCK b sb);
        d ← bdata bp;
        match find_free_bit (Z.to_nat BPB) d b 0 (sb_size sb) with
        | Some bi =>
            bset (λ d, put_map_byte bi (Z.lor (map_byte d bi) (bit_mask bi)) d) bp ;;
            log_write bp ;;
            brelse bp ;;
            bzero dev (b + bi) ;;
            ret (b + bi)
        | None => brelse bp ;; balloc_loop fuel dev (b + BPB)
        end
      else ret 0
  end.

Definition balloc (dev : Z) : M S Z :=
  sb ← get_sb;
  balloc_loop (Z.to_nat (sb_size sb / BPB) + 2) dev 0.

Definition bfree (dev b : Z) : M S unit :=
  sb ← get_sb;
  bp ← bread dev (BBLOCK b sb);
  d ← bdata bp;
  let bi := b mod BPB in
  if Z.land (map_byte d bi) (bit_mask bi) =? 0 then panic "freeing free block" else
  bset (λ d, put_map_byte bi (Z.land (map_byte d bi) (Z.lnot (bit_mask bi))) d) bp ;;
  log_write bp ;;
  brelse bp.

(** ** Inodes *)
Definition iinit : M S unit :=
  mfor (seq 0 (Z.to_nat NINODE)) (λ i, iset (set_i_lock initsleeplock) i).

Definition iget (dev inum : Z) : M S nat :=
  acquire Litable ;;
  l ← get f_itable;
  match iget_scan l 0 dev inum None with
  | inl ip =>
      iset (λ x, set_i_ref (i_ref x + 1) x) ip ;;
      release Litable ;;
      ret ip
  | inr None => panic "iget: no inodes"
  | inr (Some ip) =>
      iset (set_i_dev dev) ip ;;
      iset (set_i_inum inum) ip ;;
      iset (set_i_ref 1) ip ;;
      iset (set_i_valid 0) ip ;;
      release Litable ;;
      ret ip
  end.

Fixpoint ialloc_loop (fuel : nat) (dev type inum : Z) : M S (option nat) :=
  match fuel with
  | O => diverge
  | Datatypes.S fuel =>
      sb ← get_sb;
      if inum <? sb_ninodes sb then
        bp ← bread dev (IBLOCK inum sb);
        d ← bdata bp;
        if dinode_type d (dinode_off inum) =? 0 then
          bset (clear_dinode type (dinode_off inum)) bp ;;
          log_write bp ;;
          brelse bp ;;
          ip ← iget dev inum;
          ret (Some ip)
        else
          brelse bp ;;
          ialloc_loop fuel dev type (inum + 1)
      else ret None
  end.

Definition ialloc (dev type : Z) : M S (option nat) :=
  sb ← get_sb;
  ialloc_loop (Datatypes.S (Z.to_nat (sb_ninodes sb))) dev type 1.

Definition iupdate (ip : nat) : M S unit :=
  x ← ifield id ip;
  sb ← get_sb;
  bp ← bread (i_dev x) (IBLOCK (i_inum x) sb);
  bset (store_dinode x (dinode_off (i_inum x))) bp ;;
  log_write bp ;;
  brelse bp.

Definition idup (ip : nat) : M S nat :=
  acquire Litable ;;
  iset (λ x, set_i_ref (i_ref x + 1) x) ip ;;
  release Litable ;;
  ret ip.

Definition ilock (ip : nat) : M S unit :=
  ref ← ifield i_ref ip;
  if ref <? 1 then panic "ilock" else
  acquiresleep (SLinode ip) ;;
  valid ← ifield i_valid ip;
  if valid =? 0 then
    x ← ifield id ip;
    sb ← get_sb;
    bp ← bread (i_dev x) (IBLOCK (i_inum x) sb);
    d ← bdata bp;
    iset (load_dinode d (dinode_off (i_inum x))) ip ;;
    brelse bp ;;
    iset (set_i_valid 1) ip ;;
    type ← ifield i_type ip;
    if type =? 0 then panic "ilock: no type" else ret tt
  else ret tt.

Definition iunlock (ip : nat) : M S unit :=
  h ← holdingsleep (SLinode ip);
  ref ← ifield i_ref ip;
  if negb h || (ref <? 1) then panic "iunlock" else
  releasesleep (SLinode ip).

(** ** Contents *)
Definition iaddr (ip : nat) (i : Z) : M S Z := ifield (λ x, default 0 (i_addrs x !! Z.to_nat i)) ip.
Definition set_iaddr (ip : nat) (i addr : Z) : M S unit :=
  iset (λ x, set_i_addrs (<[Z.to_nat i := addr]> (i_addrs x)) x) ip.

Definition bmap (ip : nat) (bn : Z) : M S Z :=
  dev ← ifield i_dev ip;
  if bn <? NDIRECT then
    addr ← iaddr ip bn;
    if addr =? 0 then
      addr ← balloc dev;
      if addr =? 0 then ret 0 else
      set_iaddr ip bn addr ;;
      ret addr
    else ret addr
  else
  let bn := bn - NDIRECT in
  if bn <? NINDIRECT then
    addr ← iaddr ip NDIRECT;
    addr ← (if addr =? 0 then
              addr ← balloc dev;
              (if addr =? 0 then ret tt else set_iaddr ip NDIRECT addr) ;;
              ret addr
            else ret addr);
    if addr =? 0 then ret 0 else
    bp ← bread dev addr;
    d ← bdata bp;
    let addr := blk_get 4 (4 * bn) d in
    addr ← (if addr =? 0 then
              addr ← balloc dev;
              (if nonzero addr then bset (blk_put 4 (4 * bn) addr) bp ;; log_write bp else ret tt) ;;
              ret addr
            else ret addr);
    brelse bp ;;
    ret addr
  else panic "bmap: out of range".

Definition itrunc (ip : nat) : M S unit :=
  dev ← ifield i_dev ip;
  mfor (zseq 0 (Z.to_nat NDIRECT)) (λ i,
    addr ← iaddr ip i;
    if nonzero addr then bfree dev addr ;; set_iaddr ip i 0 else ret tt) ;;
  addr ← iaddr ip NDIRECT;
  (if nonzero addr then
     bp ← bread dev addr;
     d ← bdata bp;
     mfor (zseq 0 (Z.to_nat NINDIRECT)) (λ j,
       let a := blk_get 4 (4 * j) d in
       if nonzero a then bfree dev a else ret tt) ;;
     brelse bp ;;
     bfree dev addr ;;
     set_iaddr ip NDIRECT 0
   else ret tt) ;;
  iset (set_i_size 0) ip ;;
  iupdate ip.

Definition iput (ip : nat) : M S unit :=
  acquire Litable ;;
  x ← ifield id ip;
  (if (i_ref x =? 1) && nonzero (i_valid x) && (i_nlink x =? 0) then
     acquiresleep (SLinode ip) ;;
     release Litable ;;
     itrunc ip ;;
     iset (set_i_type 0) ip ;;
     iupdate ip ;;
     iset (set_i_valid 0) ip ;;
     releasesleep (SLinode ip) ;;
     acquire Litable
   else ret tt) ;;
  iset (λ x, set_i_ref (i_ref x - 1) x) ip ;;
  release Litable.

Definition iunlockput (ip : nat) : M S unit := iunlock ip ;; iput ip.

Definition stati (ip : nat) : M S stat :=
  ifield (λ x, Stat (i_dev x) (i_inum x) (i_type x) (i_nlink x) (i_size x)) ip.

(** The loop of [readi]; [acc] are the bytes delivered so far. *)
Fixpoint readi_loop (fuel : nat) (ip : nat) (user_dst : bool) (dst off n tot : Z) (acc : list Z) :
    M S (Z * list Z) :=
  match fuel with
  | O => diverge
  | Datatypes.S fuel =>
      if tot <? n then
        dev ← ifield i_dev ip;
        addr ← bmap ip (off / BSIZE);
        if addr =? 0 then ret (i32 tot, acc) else
        bp ← bread dev addr;
        d ← bdata bp;
        let m := Z.min (n - tot) (BSIZE - off mod BSIZE) in
        let bytes := take (Z.to_nat m) (drop (Z.to_nat (off mod BSIZE)) d) in
        r ← either_copyout user_dst dst bytes;
        if r =? -1 then brelse bp ;; ret (-1, acc)
        else
          brelse bp ;;
          readi_loop fuel ip user_dst (u64 (dst + m)) (u32 (off + m)) n (tot + m) (acc ++ bytes)
      else ret (i32 tot, acc)
  end.

(** The number of bytes read, and the bytes (for a kernel destination). *)
Definition readi (ip : nat) (user_dst : bool) (dst off n : Z) : M S (Z * list Z) :=
  size ← ifield i_size ip;
  if (off >? size) || (u32 (off + n) <? off) then ret (0, []) else
  let n := if u32 (off + n) >? size then size - off else n in
  readi_loop (Z.to_nat (n / BSIZE) + 3) ip user_dst dst off n 0 [].

(** Replace the bytes of a block from [off] on. *)
Definition splice (off : Z) (bytes d : list Z) : list Z :=
  take (Z.to_nat off) d ++ bytes ++ drop (Z.to_nat off + length bytes) d.

(** The loop of [writei]: the bytes written and the final offset. *)
Fixpoint writei_loop (fuel : nat) (ip : nat) (src : usrc) (off n tot : Z) : M S (Z * Z) :=
  match fuel with
  | O => diverge
  | Datatypes.S fuel =>
      if tot <? n then
        dev ← ifield i_dev ip;
        addr ← bmap ip (off / BSIZE);
        if addr =? 0 then ret (tot, off) else
        bp ← bread dev addr;
        let m := Z.min (n - tot) (BSIZE - off mod BSIZE) in
        '(r, bytes) ← either_copyin src m;
        bset (splice (off mod BSIZE) bytes) bp ;;
        if r =? -1 then brelse bp ;; ret (tot, off)
        else
          log_write bp ;;
          brelse bp ;;
          writei_loop fuel ip (usrc_skip m src) (u32 (off + m)) n (tot + m)
      else ret (tot, off)
  end.

Definition writei (ip : nat) (src : usrc) (off n : Z) : M S Z :=
  size ← ifield i_size ip;
  if (off >? size) || (u32 (off + n) <? off) then ret (-1) else
  if u32 (off + n) >? MAXFILE * BSIZE then ret (-1) else
  '(tot, off) ← writei_loop (Z.to_nat (n / BSIZE) + 3) ip src off n 0;
  size ← ifield i_size ip;
  (if off >? size then iset (set_i_size off) ip else ret tt) ;;
  iupdate ip ;;
  ret (i32 tot).

(** ** Directories *)
Fixpoint dirlookup_loop (fuel : nat) (dp : nat) (name : list Z) (off : Z) : M S (option (nat * Z)) :=
  match fuel with
  | O => diverge
  | Datatypes.S fuel =>
      size ← ifield i_size dp;
      if off <? size then
        '(r, de) ← readi dp false 0 off sizeof_dirent;
        if negb (r =? sizeof_dirent) then panic "dirlookup read" else
        if (dirent_inum de =? 0) || negb (namecmp name (dirent_name de) =? 0)
        then dirlookup_loop fuel dp name (u32 (off + sizeof_dirent))
        else
          dev ← ifield i_dev dp;
          ip ← iget dev (dirent_inum de);
          ret (Some (ip, off))
      else ret None
  end.

(** The inode and the offset of its entry. *)
Definition dirlookup (dp : nat) (name : list Z) : M S (option (nat * Z)) :=
  type ← ifield i_type dp;
  if negb (type =? T_DIR) then panic "dirlookup not DIR" else
  size ← ifield i_size dp;
  dirlookup_loop (Z.to_nat (size / sizeof_dirent) + 2) dp name 0.

(** The offset of the first unused entry. *)
Fixpoint dirlink_loop (fuel : nat) (dp : nat) (off : Z) : M S Z :=
  match fuel with
  | O => diverge
  | Datatypes.S fuel =>
      size ← ifield i_size dp;
      if off <? size then
        '(r, de) ← readi dp false 0 off sizeof_dirent;
        if negb (r =? sizeof_dirent) then panic "dirlink read" else
        if dirent_inum de =? 0 then ret off
        else dirlink_loop fuel dp (off + sizeof_dirent)
      else ret off
  end.

Definition dirlink (dp : nat) (name : list Z) (inum : Z) : M S Z :=
  r ← dirlookup dp name;
  match r with
  | Some (ip, _) => iput ip ;; ret (-1)
  | None =>
      size ← ifield i_size dp;
      off ← dirlink_loop (Z.to_nat (size / sizeof_dirent) + 2) dp 0;
      w ← writei dp (FromKernel (mk_dirent inum name)) off sizeof_dirent;
      if negb (w =? sizeof_dirent) then ret (-1) else ret 0
  end.

(** ** Paths *)
Fixpoint namex_loop (fuel : nat) (ip : nat) (path : list Z) (parent : bool) (name : list Z) :
    M S (option (nat * list Z)) :=
  match fuel with
  | O => diverge
  | Datatypes.S fuel =>
      match skipelem path with
      | None =>
          if parent then iput ip ;; ret None else ret (Some (ip, name))
      | Some (path, name) =>
          ilock ip ;;
          type ← ifield i_type ip;
          if negb (type =? T_DIR) then iunlockput ip ;; ret None else
          if parent && bool_decide (path = []) then iunlock ip ;; ret (Some (ip, name)) else
          r ← dirlookup ip name;
          match r with
          | None => iunlockput ip ;; ret None
          | Some (next, _) => iunlockput ip ;; namex_loop fuel next path parent name
          end
      end
  end.

(** The inode, and the last path element copied to [name]. *)
Definition namex (path : list Z) (parent : bool) : M S (option (nat * list Z)) :=
  ip ← (if default 0 (head path) =? SLASH then iget ROOTDEV ROOTINO
        else cwd ← mycwd; idup cwd);
  namex_loop (Datatypes.S (length path)) ip path parent [].

Definition namei (path : list Z) : M S (option nat) :=
  r ← namex path false;
  ret (fst <$> r).

Definition nameiparent (path : list Z) : M S (option (nat * list Z)) := namex path true.
End fs.

(** ** The code of this file runs in every kernel state as in [solo] *)
Section sim.
  Context {S : Type} {KO : KernelOps S} {HS : HasState S fsst} {KL : KernelLaws S fsst}.

Lemma sim_ifield {A} (f : inode → A) ip : sim (ifield f ip) (ifield f ip).
Proof. unfold ifield. solve_sim. Qed.
Lemma sim_iset g ip : sim (iset g ip) (iset g ip).
Proof. unfold iset. solve_sim. Qed.
Lemma sim_bset g b : sim (bset g b) (bset g b).
Proof. unfold bset. solve_sim. Qed.
Lemma sim_get_sb : sim get_sb get_sb.
Proof. unfold get_sb. solve_sim. Qed.
#[local] Hint Resolve sim_ifield sim_iset sim_bset sim_get_sb : sim.
Lemma sim_readsb dev : sim (readsb dev) (readsb dev).
Proof. unfold readsb. solve_sim. Qed.
#[local] Hint Resolve sim_readsb : sim.
Lemma sim_fsinit dev : sim (fsinit dev) (fsinit dev).
Proof. unfold fsinit. solve_sim. Qed.
Lemma sim_bzero dev b : sim (bzero dev b) (bzero dev b).
Proof. unfold bzero. solve_sim. Qed.
#[local] Hint Resolve sim_bzero : sim.
Lemma sim_balloc_loop fuel dev b : sim (balloc_loop fuel dev b) (balloc_loop fuel dev b).
Proof. revert b. induction fuel; intros b; cbn [balloc_loop]; solve_sim. Qed.
#[local] Hint Resolve sim_balloc_loop : sim.
Lemma sim_balloc dev : sim (balloc dev) (balloc dev).
Proof. unfold balloc. solve_sim. Qed.
Lemma sim_bfree dev b : sim (bfree dev b) (bfree dev b).
Proof. unfold bfree. solve_sim. Qed.
#[local] Hint Resolve sim_balloc sim_bfree : sim.
Lemma sim_iinit : sim iinit iinit.
Proof. unfold iinit. solve_sim. Qed.
Lemma sim_iget dev inum : sim (iget dev inum) (iget dev inum).
Proof. unfold iget. solve_sim. Qed.
#[local] Hint Resolve sim_iget : sim.
Lemma sim_ialloc_loop fuel dev type inum : sim (ialloc_loop fuel dev type inum) (ialloc_loop fuel dev type inum).
Proof. revert inum. induction fuel; intros inum; cbn [ialloc_loop]; solve_sim. Qed.
#[local] Hint Resolve sim_ialloc_loop : sim.
Lemma sim_ialloc dev type : sim (ialloc dev type) (ialloc dev type).
Proof. unfold ialloc. solve_sim. Qed.
Lemma sim_iupdate ip : sim (iupdate ip) (iupdate ip).
Proof. unfold iupdate. solve_sim. Qed.
Lemma sim_idup ip : sim (idup ip) (idup ip).
Proof. unfold idup. solve_sim. Qed.
Lemma sim_ilock ip : sim (ilock ip) (ilock ip).
Proof. unfold ilock. solve_sim. Qed.
Lemma sim_iunlock ip : sim (iunlock ip) (iunlock ip).
Proof. unfold iunlock. solve_sim. Qed.
#[local] Hint Resolve sim_ialloc sim_iupdate sim_idup sim_ilock sim_iunlock : sim.
Lemma sim_iaddr ip i : sim (iaddr ip i) (iaddr ip i).
Proof. unfold iaddr. solve_sim. Qed.
Lemma sim_set_iaddr ip i a : sim (set_iaddr ip i a) (set_iaddr ip i a).
Proof. unfold set_iaddr. solve_sim. Qed.
#[local] Hint Resolve sim_iaddr sim_set_iaddr : sim.
Lemma sim_bmap ip bn : sim (bmap ip bn) (bmap ip bn).
Proof. unfold bmap. solve_sim. Qed.
Lemma sim_itrunc ip : sim (itrunc ip) (itrunc ip).
Proof. unfold itrunc. solve_sim. Qed.
#[local] Hint Resolve sim_bmap sim_itrunc : sim.
Lemma sim_iput ip : sim (iput ip) (iput ip).
Proof. unfold iput. solve_sim. Qed.
#[local] Hint Resolve sim_iput : sim.
Lemma sim_iunlockput ip : sim (iunlockput ip) (iunlockput ip).
Proof. unfold iunlockput. solve_sim. Qed.
Lemma sim_stati ip : sim (stati ip) (stati ip).
Proof. unfold stati. solve_sim. Qed.
Lemma sim_readi_loop fuel ip u dst off n tot acc :
  sim (readi_loop fuel ip u dst off n tot acc) (readi_loop fuel ip u dst off n tot acc).
Proof. revert dst off tot acc. induction fuel; intros; cbn [readi_loop]; solve_sim. Qed.
#[local] Hint Resolve sim_iunlockput sim_readi_loop : sim.
Lemma sim_readi ip u dst off n : sim (readi ip u dst off n) (readi ip u dst off n).
Proof. unfold readi. solve_sim. Qed.
Lemma sim_writei_loop fuel ip src off n tot :
  sim (writei_loop fuel ip src off n tot) (writei_loop fuel ip src off n tot).
Proof. revert src off tot. induction fuel; intros; cbn [writei_loop]; solve_sim. Qed.
#[local] Hint Resolve sim_readi sim_writei_loop : sim.
Lemma sim_writei ip src off n : sim (writei ip src off n) (writei ip src off n).
Proof. unfold writei. solve_sim. Qed.
#[local] Hint Resolve sim_writei : sim.
Lemma sim_dirlookup_loop fuel dp name off :
  sim (dirlookup_loop fuel dp name off) (dirlookup_loop fuel dp name off).
Proof. revert off. induction fuel; intros; cbn [dirlookup_loop]; solve_sim. Qed.
#[local] Hint Resolve sim_dirlookup_loop : sim.
Lemma sim_dirlookup dp name : sim (dirlookup dp name) (dirlookup dp name).
Proof. unfold dirlookup. solve_sim. Qed.
Lemma sim_dirlink_loop fuel dp off : sim (dirlink_loop fuel dp off) (dirlink_loop fuel dp off).
Proof. revert off. induction fuel; intros; cbn [dirlink_loop]; solve_sim. Qed.
#[local] Hint Resolve sim_dirlookup sim_dirlink_loop : sim.
Lemma sim_dirlink dp name inum : sim (dirlink dp name inum) (dirlink dp name inum).
Proof. unfold dirlink. solve_sim. Qed.
Lemma sim_namex_loop fuel ip path parent name :
  sim (namex_loop fuel ip path parent name) (namex_loop fuel ip path parent name).
Proof. revert ip path name. induction fuel; intros; cbn [namex_loop]; solve_sim. Qed.
#[local] Hint Resolve sim_namex_loop : sim.
Lemma sim_namex path parent : sim (namex path parent) (namex path parent).
Proof. unfold namex. solve_sim. Qed.
#[local] Hint Resolve sim_namex : sim.
Lemma sim_namei path : sim (namei path) (namei path).
Proof. unfold namei. solve_sim. Qed.
End sim.
