(* ===== verification/FsLogic.v ===== *)
(** * Reasoning about file-system code

    File-system code runs inside a transaction and works on blocks through
    the cache.  [ast] is the state as this code sees it: the contents of the
    blocks, the blocks recorded in the log, the buffers in hand and the table
    of inodes.  [fs_at] relates it to the state of the cache, the log and the
    disk; [wp m Q st] says that [m], started in [st], returns in a state that
    satisfies [Q].  The rules for [bread], [brelse] and [log_write] are what
    the cache and the log promise to the code of [kernel/fs.c]. *)

From stdpp Require Import functions.
From S2P Require Import Base Riscv Mem Kernel Sleeplock FsState Bio BioList BioSpec Log LogSpec LogCrash.
From S2P Require Import LogOps Fs.
Local Open Scope Z_scope.
Local Open Scope kernel_scope.

(** A buffer in hand: its index, its block, and whether it has been changed
    since it was recorded in the log. *)
Record handle := Handle { h_buf : nat; h_block : Z; h_dirty : bool }.

Record ast := Ast {
  a_locks : list lockid;
  a_held : list handle;
  a_log : list Z;
  a_view : Z → list Z;
  a_itab : list inode;
}.

Section logic.
  Context (pid start size : Z) (sb : superblock) (k : Z) (dk : disk).

Record fs_at (t : fsst) (st : ast) : Prop := {
  fa_trans : in_trans t pid (h_buf <$> a_held st) start size (a_log st) k;
  fa_view : ∀ b, bview t b = a_view st b;
  fa_sb : f_sb t = sb;
  fa_disk : f_disk t = dk;
  fa_itab : f_itable t = a_itab st;
  fa_held : ∀ h, h ∈ a_held st → b_blockno (buf_at (h_buf h) t) = h_block h ∧
    (h_dirty h = false →
       h_block h ∈ a_log st ∨ a_view st (h_block h) = disk_block dk (h_block h));
}.

Definition wp {A} (m : M (solo fsst) A) (Q : A → ast → Prop) (st : ast) : Prop :=
  ∀ t, fs_at t st → ∃ a t' st',
    m (Solo t (a_locks st) pid) = Ok a (Solo t' (a_locks st') pid) ∧ fs_at t' st' ∧ Q a st'.

Lemma wp_ret {A} (a : A) (Q : A → ast → Prop) st : Q a st → wp (ret a) Q st.
Proof. intros HQ t Ht. by exists a, t, st. Qed.

Lemma wp_bind {A B} (m : M (solo fsst) A) (f : A → M (solo fsst) B) Q st :
  wp m (λ a, wp (f a) Q) st → wp (bind m f) Q st.
Proof.
  intros H t Ht. destruct (H t Ht) as (a & t1 & st1 & E1 & Ht1 & H1).
  destruct (H1 t1 Ht1) as (b & t2 & st2 & E2 & Ht2 & H2).
  exists b, t2, st2. by rewrite (bind_ok _ _ _ _ _ E1).
Qed.

Lemma wp_mono {A} (m : M (solo fsst) A) (Q Q' : A → ast → Prop) st :
  wp m Q st → (∀ a st', Q a st' → Q' a st') → wp m Q' st.
Proof.
  intros H HQ t Ht. destruct (H t Ht) as (a & t' & st' & E & Ht' & HQ').
  exists a, t', st'. auto.
Qed.

Lemma wp_get {A} (f : fsst → A) Q st (a : A) :
  (∀ t, fs_at t st → f t = a) → Q a st → wp (get f) Q st.
Proof. intros Hf HQ t Ht. exists a, t, st. rewrite <- (Hf t Ht) in HQ |- *. done. Qed.

Lemma wp_get_sb Q st : Q sb st → wp get_sb Q st.
Proof. apply wp_get. intros t Ht. apply (fa_sb _ _ Ht). Qed.

Lemma wp_ifield {A} (f : inode → A) ip Q st :
  Q (f (default inode0 (a_itab st !! ip))) st → wp (ifield f ip) Q st.
Proof. apply wp_get. intros t Ht. unfold inode_at. by rewrite (fa_itab _ _ Ht). Qed.

(** Changing the inode table only. *)
Lemma fs_at_inode t ls H L v tbl ip g :
  fs_at t (Ast ls H L v tbl) → fs_at (mod_inode ip g t) (Ast ls H L v (alter g ip tbl)).
Proof.
  intros [[(P & I & HP) [] Hs Hb Ho Hc] Hv Hsb Hdk Hit Hh].
  split; cbn in *; [|done|done|done|by rewrite Hit|done].
  split; cbn; try done. exists P. split; [|done]. destruct I. by split.
Qed.

Lemma wp_iset g ip Q ls H L v tbl :
  Q tt (Ast ls H L v (alter g ip tbl)) → wp (iset g ip) Q (Ast ls H L v tbl).
Proof.
  intros HQ t Ht. exists tt, (mod_inode ip g t), (Ast ls H L v (alter g ip tbl)).
  split; [done|]. split; [by apply fs_at_inode | done].
Qed.

Lemma wp_acquire l Q ls H L v tbl :
  l ∉ ls → Q tt (Ast (l :: ls) H L v tbl) → wp (acquire l) Q (Ast ls H L v tbl).
Proof.
  intros Hl HQ t Ht. exists tt, t, (Ast (l :: ls) H L v tbl). split; [by apply acquire_solo|].
  split; [|done]. by destruct Ht.
Qed.

Lemma wp_release l Q ls H L v tbl :
  Q tt (Ast ls H L v tbl) → wp (release l) Q (Ast (l :: ls) H L v tbl).
Proof.
  intros HQ t Ht. exists tt, t, (Ast ls H L v tbl). split; [by apply release_solo|].
  split; [|done]. by destruct Ht.
Qed.

(** ** Blocks *)

(** The blocks in hand are different. *)
Lemma fs_at_uniq t ls i b d H L v tbl h :
  fs_at t (Ast ls (Handle i b d :: H) L v tbl) → h ∈ H → h_buf h ≠ i ∧ h_block h ≠ b.
Proof.
  intros [[(P & I & HP) _ _ _ _ _] _ _ _ _ Hh] Hin. cbn in *.
  destruct (cv_held _ _ _ _ I) as [[Hni _]%NoDup_cons Hd].
  assert (h_buf h ≠ i) as Hne by (intros <-; apply Hni, list_elem_of_fmap; eauto).
  split; [done|]. intros E. apply Hne.
  destruct (Hh (Handle i b d)) as [Ei _]; [left|]. destruct (Hh h) as [Eh _]; [by right|].
  destruct (Hd i) as [? ?]; [left|]. destruct (Hd (h_buf h)) as [? ?]; [right; apply list_elem_of_fmap; eauto|].
  apply (cv_uniq _ _ _ _ I b); split_and!; cbn in *; congruence.
Qed.

Lemma wp_bread b Q ls H L v tbl :
  bio_free ls → (∀ h, h ∈ H → h_block h ≠ b) → (length H + length L < 30)%nat →
  (∀ i, Q i (Ast ls (Handle i b false :: H) L v tbl)) →
  wp (bread ROOTDEV b) Q (Ast ls H L v tbl).
Proof.
  intros Hf Hne Hroom HQ t Ht. destruct Ht as [T Hv Hsb Hdk Hit Hh]. cbn in *.
  destruct (it_cache _ _ _ _ _ _ _ T) as (P & I & HP).
  destruct (bread_ok t ls pid (h_buf <$> H) P b I Hf)
    as (i & t' & E & I' & Hi & (Hi1 & Hi2 & Hi3) & Hd & V & D & (R1 & R2 & R3) & C).
  { intros j (h & -> & Hin)%list_elem_of_fmap. destruct (Hh h Hin) as [-> _]. auto. }
  { intros _. rewrite length_fmap, HP, HEAD_30. done. }
  exists i, t', (Ast ls (Handle i b false :: H) L v tbl). split; [done|]. split; [|done].
  split; cbn; [by eapply in_trans_rest | intros; by rewrite V | congruence | congruence | congruence |].
  intros h [->|Hin]%elem_of_cons; cbn.
  - split; [done|]. intros _. destruct (decide (b ∈ L)) as [|HbL]; [by left|right].
    rewrite <- Hv, <- Hdk. apply (bview_clean I); [by rewrite HP|].
    intros j (h & -> & Hin)%list_elem_of_fmap. destruct (Hh h Hin) as [-> _]. auto.
  - destruct (Hh h Hin) as [E1 E2]. destruct (core_data _ _ (C (h_buf h) ltac:(apply list_elem_of_fmap; eauto))) as [-> _].
    done.
Qed.

Lemma wp_bdata i b d Q ls H L v tbl :
  Q (v b) (Ast ls (Handle i b d :: H) L v tbl) → wp (bdata i) Q (Ast ls (Handle i b d :: H) L v tbl).
Proof.
  apply wp_get. intros t Ht. destruct Ht as [[(P & I & HP) _ _ _ _ _] Hv _ _ _ Hh]. cbn in *.
  destruct (Hh (Handle i b d)) as [E _]; [left|]. cbn in E.
  destruct (held_facts t pid _ P i I) as (_ & Hc & _); [left|]. rewrite E in Hc.
  by rewrite <- Hv, (bview_cached I b i Hc).
Qed.

Lemma wp_bset g i b d Q ls H L v tbl :
  Q tt (Ast ls (Handle i b true :: H) L (<[b := g (v b)]> v) tbl) →
  wp (bset g i) Q (Ast ls (Handle i b d :: H) L v tbl).
Proof.
  intros HQ t Ht. pose proof (λ h, fs_at_uniq t ls i b d H L v tbl h Ht) as Hu.
  destruct Ht as [T Hv Hsb Hdk Hit Hh]. cbn in *. destruct (it_cache _ _ _ _ _ _ _ T) as (P & I & HP).
  destruct (Hh (Handle i b d)) as [E _]; [left|]. cbn in E.
  destruct (held_facts t pid _ P i I) as (Hi & Hc & _); [left|]. rewrite E in Hc.
  destruct (set_data_ok t pid _ P i (g (v b)) I) as (I' & Hc' & Hd' & V & C); [left|].
  assert (Et : mod_buf i (λ x, set_b_data (g (b_data x)) x) t = set_data i (g (v b)) t).
  { unfold set_data, mod_buf. f_equal. apply list_alter_ext; [|done]. intros x Hx.
    do 2 f_equal. rewrite <- Hv, (bview_cached I b i Hc). unfold buf_at. by rewrite Hx. }
  exists tt, (set_data i (g (v b)) t), (Ast ls (Handle i b true :: H) L (<[b := g (v b)]> v) tbl).
  split; [unfold bset; by rewrite upd_solo, Et|]. split; [|done].
  split; cbn; [by eapply in_trans_rest | | done | done | done |].
  - intros b'. rewrite V, E. case_decide as Hb; [subst; by rewrite fn_lookup_insert|].
    by rewrite fn_lookup_insert_ne.
  - intros h [->|Hin]%elem_of_cons; cbn; [split; [destruct Hc' as (_ & _ & ->); exact E | done]|].
    destruct (Hu h Hin) as [U1 U2]. destruct (Hh h) as [E1 E2]; [by right|].
    destruct (core_data _ _ (C (h_buf h) ltac:(right; apply list_elem_of_fmap; eauto) U1)) as [-> _].
    rewrite fn_lookup_insert_ne by done. done.
Qed.

Lemma wp_log_write i b d Q ls H L v tbl :
  1 ≤ k → Llog ∉ ls → Lbcache ∉ ls → Z.of_nat (length L) + 1 < Z.min LOGSIZE size →
  ¬ in_log start size b → 0 ≤ b < 2 ^ 31 →
  Q tt (Ast ls (Handle i b false :: H) (absorbed L b) v tbl) →
  wp (log_write i) Q (Ast ls (Handle i b d :: H) L v tbl).
Proof.
  intros Hk Hl1 Hl2 Hroom Hb Hr HQ t Ht. destruct Ht as [T Hv Hsb Hdk Hit Hh]. cbn in *.
  destruct (Hh (Handle i b d)) as [E _]; [left|]. cbn in E.
  destruct (log_write_ok t ls pid (i :: (h_buf <$> H)) start size L k i)
    as (t' & E' & T' & V & D & S & I' & C); [done | done | done | left | done | done | by rewrite E.. |].
  rewrite E in T'.
  exists tt, t', (Ast ls (Handle i b false :: H) (absorbed L b) v tbl). split; [done|]. split; [|done].
  assert (∀ x, x ∈ L → x ∈ absorbed L b) as Hsub.
  { intros x Hx. unfold absorbed. case_decide; [done|]. apply elem_of_app. by left. }
  split; cbn; [done | intros; by rewrite V | congruence | congruence | congruence |].
  intros h [->|Hin]%elem_of_cons; cbn.
  - destruct (C i) as [-> _]. split; [done|]. intros _. left. unfold absorbed.
    case_decide; [done|]. apply elem_of_app. right. by apply list_elem_of_singleton.
  - destruct (C (h_buf h)) as [-> _]. destruct (Hh h) as [E1 E2]; [by right|].
    split; [done|]. intros Hd. destruct (E2 Hd); auto.
Qed.

Lemma wp_brelse i b Q ls H L v tbl :
  bio_free ls → Q tt (Ast ls H L v tbl) →
  wp (brelse i) Q (Ast ls (Handle i b false :: H) L v tbl).
Proof.
  intros Hf HQ t Ht. destruct Ht as [T Hv Hsb Hdk Hit Hh]. cbn in *.
  destruct (Hh (Handle i b false)) as [E E2]; [left|]. cbn in E, E2.
  destruct (it_cache _ _ _ _ _ _ _ T) as (P & I & HP).
  destruct (held_facts t pid _ P i I) as (_ & Hc & _); [left|]. rewrite E in Hc.
  destruct (brelse_ok t ls pid (i :: (h_buf <$> H)) (h_buf <$> H) P i I Hf)
    as (t' & E' & I' & D & V & (R1 & R2 & R3) & C); [done| |].
  { rewrite E, HP, <- (bview_cached I b i Hc), Hv, Hdk. by apply E2. }
  exists tt, t', (Ast ls H L v tbl). split; [done|]. split; [|done].
  split; cbn; [by eapply in_trans_rest | intros; by rewrite V | congruence | congruence | congruence |].
  intros h Hin. destruct (core_data _ _ (C (h_buf h) ltac:(apply list_elem_of_fmap; eauto))) as [-> _].
  apply Hh. by right.
Qed.

(** ** Sleep locks of inodes *)
Lemma list_alter_insert {A} (f : A → A) (l : list A) i x :
  l !! i = Some x → alter f i l = <[i := f x]> l.
Proof.
  intros E. apply list_eq. intros j. destruct (decide (i = j)) as [<-|].
  - rewrite list_lookup_alter_eq, E, list_lookup_insert_eq; [done|]. by eapply lookup_lt_Some.
  - by rewrite list_lookup_alter_ne, list_lookup_insert_ne.
Qed.

Lemma wp_acquiresleep ip x Q ls H L v tbl :
  Lsleep (SLinode ip) ∉ ls → tbl !! ip = Some x → sl_locked (i_lock x) = 0 →
  Q tt (Ast ls H L v (<[ip := set_i_lock (SleepLock 1 pid) x]> tbl)) →
  wp (acquiresleep (SLinode ip)) Q (Ast ls H L v tbl).
Proof.
  intros Hl Ex Hx HQ t Ht. eexists tt, _, _. split; [|split; [|exact HQ]].
  - apply acquiresleep_free; [done|]. cbn. unfold inode_at. rewrite (fa_itab _ _ Ht). cbn. by rewrite Ex.
  - rewrite <- (list_alter_insert (set_i_lock (SleepLock 1 pid))) by done. by apply fs_at_inode.
Qed.

Lemma wp_releasesleep ip x Q ls H L v tbl :
  Lsleep (SLinode ip) ∉ ls → tbl !! ip = Some x →
  Q tt (Ast ls H L v (<[ip := set_i_lock (SleepLock 0 0) x]> tbl)) →
  wp (releasesleep (SLinode ip)) Q (Ast ls H L v tbl).
Proof.
  intros Hl Ex HQ t Ht. eexists tt, _, _. split; [|split; [|exact HQ]].
  - by apply releasesleep_solo.
  - rewrite <- (list_alter_insert (set_i_lock (SleepLock 0 0))) by done. by apply fs_at_inode.
Qed.

Lemma wp_holdingsleep ip x Q ls H L v tbl :
  Lsleep (SLinode ip) ∉ ls → tbl !! ip = Some x → i_lock x = SleepLock 1 pid →
  Q true (Ast ls H L v tbl) → wp (holdingsleep (SLinode ip)) Q (Ast ls H L v tbl).
Proof.
  intros Hl Ex Hx HQ t Ht. eexists true, t, _. split; [|split; [|exact HQ]]; [|done].
  rewrite holdingsleep_solo by done. cbn. unfold inode_at. rewrite (fa_itab _ _ Ht). cbn. rewrite Ex. cbn.
  rewrite Hx. cbn. by rewrite Z.eqb_refl.
Qed.

Lemma wp_iunlock ip x Q ls H L v tbl :
  Lsleep (SLinode ip) ∉ ls → tbl !! ip = Some x → i_lock x = SleepLock 1 pid → 1 ≤ i_ref x →
  Q tt (Ast ls H L v (<[ip := set_i_lock (SleepLock 0 0) x]> tbl)) → wp (iunlock ip) Q (Ast ls H L v tbl).
Proof.
  intros Hl Ex Hx Hr HQ. unfold iunlock. apply wp_bind, (wp_holdingsleep _ x); try done.
  apply wp_bind, wp_ifield. cbn [a_itab]. rewrite Ex. change (default inode0 (Some x)) with x.
  rewrite (proj2 (Z.ltb_ge _ _)) by lia. cbn [negb orb]. by apply (wp_releasesleep _ x).
Qed.

(** [ilock] of an inode that is in memory. *)
Lemma wp_ilock_valid ip x Q ls H L v tbl :
  Lsleep (SLinode ip) ∉ ls → tbl !! ip = Some x → sl_locked (i_lock x) = 0 → 1 ≤ i_ref x → i_valid x ≠ 0 →
  Q tt (Ast ls H L v (<[ip := set_i_lock (SleepLock 1 pid) x]> tbl)) → wp (ilock ip) Q (Ast ls H L v tbl).
Proof.
  intros Hl Ex Hx Hr Hv HQ. unfold ilock. apply wp_bind, wp_ifield. cbn [a_itab]. rewrite Ex.
  change (default inode0 (Some x)) with x. rewrite (proj2 (Z.ltb_ge _ _)) by lia.
  apply wp_bind, (wp_acquiresleep _ x); try done.
  apply wp_bind, wp_ifield. cbn [a_itab]. rewrite list_lookup_insert_eq by (by eapply lookup_lt_Some).
  change (default inode0 (Some ?y)) with y. cbn [i_valid set_i_lock].
  rewrite (proj2 (Z.eqb_neq _ _)) by done. by apply wp_ret.
Qed.

(** [ilock] of an inode that has to be read from the disk. *)
Lemma wp_ilock_load ip x Q ls L v tbl :
  bio_free ls → tbl !! ip = Some x → sl_locked (i_lock x) = 0 → 1 ≤ i_ref x → i_valid x = 0 →
  i_dev x = ROOTDEV → (length L < 30)%nat →
  let y := load_dinode (v (IBLOCK (i_inum x) sb)) (dinode_off (i_inum x)) (set_i_lock (SleepLock 1 pid) x) in
  i_type y ≠ 0 →
  Q tt (Ast ls [] L v (<[ip := set_i_valid 1 y]> tbl)) → wp (ilock ip) Q (Ast ls [] L v tbl).
Proof.
  intros Hl Ex Hx Hr Hv Hd HL y Hy HQ. pose proof (lookup_lt_Some _ _ _ Ex) as Hip.
  unfold ilock. apply wp_bind, wp_ifield. cbn [a_itab]. rewrite Ex.
  change (default inode0 (Some x)) with x. rewrite (proj2 (Z.ltb_ge _ _)) by lia.
  apply wp_bind, (wp_acquiresleep _ x); [apply Hl | done | done |].
  apply wp_bind, wp_ifield. cbn [a_itab]. rewrite list_lookup_insert_eq by done.
  change (default inode0 (Some ?y)) with y. cbn [i_valid set_i_lock]. rewrite Hv. change (0 =? 0) with true.
  apply wp_bind, wp_ifield. cbn [a_itab]. rewrite list_lookup_insert_eq by done.
  change (default inode0 (Some ?y)) with y. unfold id. cbn [i_dev i_inum set_i_lock]. rewrite Hd.
  apply wp_bind, wp_get_sb. apply wp_bind, wp_bread; [done | by intros h ?%elem_of_nil | done |]. intros i.
  apply wp_bind, wp_bdata. apply wp_bind, wp_iset.
  rewrite list_alter_insert with (x := set_i_lock (SleepLock 1 pid) x) by (by apply list_lookup_insert_eq).
  rewrite list_insert_insert_eq. fold y. apply wp_bind, wp_brelse; [done|]. apply wp_bind, wp_iset.
  rewrite list_alter_insert with (x := y) by (by apply list_lookup_insert_eq). rewrite list_insert_insert_eq.
  apply wp_bind, wp_ifield. cbn [a_itab]. rewrite list_lookup_insert_eq by done.
  change (default inode0 (Some ?y)) with y. cbn [i_type set_i_valid].
  rewrite (proj2 (Z.eqb_neq _ _)) by done. by apply wp_ret.
Qed.
End logic.
