(* ===== verification/FsBoot.v ===== *)
(** * Booting from a disk

    [fsinit] reads the super block and runs the recovery of the log.  It
    leaves an [idle] file system: no operation runs, the log on the disk is
    empty, and what the cache shows is what the disk has. *)

From S2P Require Import Base Riscv Mem Kernel Sleeplock FsState Bio BioList BioSpec Log LogSpec LogCrash.
From S2P Require Import LogOps Fs FsLogic.
Local Open Scope Z_scope.
Local Open Scope kernel_scope.

(** A file system on which no operation runs, with blocks [v] and inodes
    [tbl]; the log on the disk is empty. *)
Record idle (t : fsst) (pid start size : Z) (sb : superblock) (v : Z → list Z) (tbl : list inode) : Prop := {
  id_trans : in_trans t pid [] start size [] 0;
  id_view : ∀ b, bview t b = v b;
  id_sb : f_sb t = sb;
  id_itab : f_itable t = tbl;
  id_super : get_superblock (v 1) = sb ∧ sb_magic sb = FSMAGIC ∧ sb_logstart sb = start ∧ sb_nlog sb = size;
  id_len : ∀ b, length (v b) = 1024%nat;
  id_header : hdr_n (v start) = 0;
}.

(** After a crash in the course of an operation that turns the blocks [v] into
    [v'] the file system boots, and it has the blocks [v] or the blocks
    [v']. *)
Definition crash_atomic (t t' : fsst) (start size : Z) (sb : superblock) (v v' : Z → list Z) : Prop :=
  ∀ w1 w2, d_trace (f_disk t') = d_trace (f_disk t) ++ w1 ++ w2 →
  ∀ tb pid', rebooted (apply_writes w1 (d_blocks (f_disk t))) tb pid' →
  ∃ tr vr, fsinit ROOTDEV (Solo tb [] pid') = Ok tt (Solo tr [] pid') ∧
    idle tr pid' start size sb vr (f_itable tb) ∧
    ((∀ b, ¬ in_log start size b → vr b = v b) ∨ (∀ b, ¬ in_log start size b → vr b = v' b)).

Lemma crash_atomic_view t t' start size sb v v' v1 :
  crash_atomic t t' start size sb v v' → (∀ b, ¬ in_log start size b → v1 b = v' b) →
  crash_atomic t t' start size sb v v1.
Proof.
  intros C E w1 w2 Htr tb pid' Hrb. destruct (C w1 w2 Htr tb pid' Hrb) as (tr & vr & Er & Ir & [Hr|Hr]);
    exists tr, vr; (split; [done|]); (split; [done|]); [by left | right]. intros b Hb. by rewrite E, Hr.
Qed.

(** ** What writes leave in a block *)
Lemma vwrites_at (P : list Z → Prop) w f b :
  P (f b) → Forall (λ bw, bw.1 = b → P bw.2) w → P (vwrites w f b).
Proof.
  intros Hf Hw. revert f Hf. induction Hw as [|[a d] w Ha Hw IH]; intros f Hf; [done|].
  apply IH. cbn in *. case_decide; auto.
Qed.

Lemma zip_image {A B} (P : A * B → Prop) (f : A → B) (l : list A) : (∀ a, P (a, f a)) → Forall P (zip l (f <$> l)).
Proof. intros Hf. induction l as [|a l IH]; simpl; constructor; auto. Qed.

Lemma zip_second {A B} (P : B → Prop) (l : list A) (k : list B) : Forall P k → Forall (λ x, P x.2) (zip l k).
Proof.
  intros Hk. revert l. induction Hk as [|b k Hb Hk IH]; intros [|a l]; simpl; constructor; auto.
Qed.

Lemma zip_first {A B} (P : A → Prop) (l : list A) (k : list B) : Forall P l → Forall (λ x, P x.1) (zip l k).
Proof.
  intros Hl. revert k. induction Hl as [|a l Ha Hl IH]; intros [|b k]; simpl; constructor; auto.
Qed.

(** Blocks keep their size. *)
Lemma whole_blocks w (f : Z → list Z) b :
  (∀ b, length (f b) = 1024%nat) → Forall (λ bw, length bw.2 = 1024%nat) w → length (vwrites w f b) = 1024%nat.
Proof.
  intros Hf Hw. apply (vwrites_at (λ d, length d = 1024%nat)); [done|]. eapply Forall_impl; [exact Hw|]. auto.
Qed.

Lemma header_length L d :
  Z.of_nat (length L) ≤ LOGSIZE → (∀ b, b ∈ L → 0 ≤ b < 2 ^ 31) → length d = 1024%nat → length (mk_header L d) = 1024%nat.
Proof. intros HL HLr Hd. by destruct (mk_header_spec L d HL Hd HLr) as (_ & ? & _). Qed.

Lemma header_nil d : length d = 1024%nat → length (mk_header [] d) = 1024%nat ∧ hdr_n (mk_header [] d) = 0.
Proof.
  intros Hd. destruct (mk_header_spec [] d) as (? & ? & _); [done | done | by intros ? ?%elem_of_nil |]. done.
Qed.

(** The writes of a commit are whole blocks; below the log they are blocks of
    the transaction; the last one empties the log. *)
Lemma commit_writes_ok start L (f : Z → list Z) :
  Z.of_nat (length L) ≤ LOGSIZE → (∀ b, b ∈ L → 0 ≤ b < 2 ^ 31) → (∀ b, length (f b) = 1024%nat) →
  Forall (λ bw, length bw.2 = 1024%nat) (commit_writes start L f) ∧
  Forall (λ bw, bw.1 < start → bw.2 = f bw.1) (commit_writes start L f) ∧
  ∀ g, hdr_n (vwrites (commit_writes start L f) g start) = 0.
Proof.
  intros HL HLr Hf. pose proof (header_length L (f start) HL HLr (Hf _)) as Hh.
  destruct (header_nil (mk_header L (f start)) Hh) as [Hh' Hn].
  assert (Hv : Forall (λ d, length d = 1024%nat) (f <$> L)) by (apply Forall_fmap, Forall_forall; intros; apply Hf).
  unfold commit_writes. split_and!.
  - rewrite !Forall_app, !Forall_singleton.
    unfold log_writes. split_and!; try done; by apply (zip_second (λ d, length d = 1024%nat)).
  - rewrite !Forall_app, !Forall_singleton. cbn. split_and!; try lia.
    + unfold log_writes. eapply Forall_impl.
      * apply (zip_first (λ b, ¬ b < start)). apply Forall_forall. intros b Hb%elem_of_zseq. lia.
      * intros bw. cbn. tauto.
    + by apply (zip_image (λ bw, bw.1 < start → bw.2 = f bw.1)).
  - intros g. rewrite !app_assoc, vwrites_app. cbn. by rewrite decide_True.
Qed.

(** ** [fsinit] *)
Lemma readsb_ok m tb pid :
  rebooted m tb pid →
  ∃ t1, readsb ROOTDEV (Solo tb [] pid) = Ok tt (Solo t1 [] pid) ∧ rebooted m t1 pid ∧
    f_sb t1 = get_superblock (image m 1) ∧ f_itable t1 = f_itable tb.
Proof.
  intros [I Hlen Hz Hm]. assert (Hf : bio_free []) by (split; set_solver).
  destruct (bread_ok tb [] pid [] [] 1 I Hf) as (i & t1 & E1 & I1 & _ & C1 & D1 & V1 & K1 & S1 & _);
    [set_solver|intros _; rewrite HEAD_30; simpl; lia|].
  assert (Ev : bview tb 1 = image m 1).
  { rewrite <- Hm. apply (bview_clean I); [apply not_elem_of_nil | by intros j ?%elem_of_nil]. }
  set (t2 := set_f_sb (get_superblock (image m 1)) t1).
  assert (I2 : cache_inv t2 pid [i] []) by (destruct I1; by split).
  destruct (brelse_ok t2 [] pid [i] [] [] i I2 Hf) as (t3 & E3 & I3 & K3 & V3 & S3 & _); [done| |].
  { right. change (buf_at i t2) with (buf_at i t1). change (f_disk t2) with (f_disk t1).
    destruct C1 as (_ & _ & ->). rewrite D1, K1, Ev, <- Hm. done. }
  exists t3. destruct S1 as (L1 & B1 & T1), S3 as (L3 & B3 & T3). cbn in L3, B3, T3, K3. split_and!.
  - unfold readsb. rewrite (bind_ok _ _ _ _ _ E1). unfold bdata. rewrite bind_get_solo, bind_upd_solo, D1, Ev. exact E3.
  - split; [done | by rewrite L3, L1 | by rewrite L3, L1 | by rewrite K3, K1].
  - done.
  - congruence.
Qed.

Lemma fsinit_run m tb pid sb :
  rebooted m tb pid → get_superblock (image m 1) = sb → sb_magic sb = FSMAGIC →
  ∃ t1, rebooted m t1 pid ∧ f_sb t1 = sb ∧ f_itable t1 = f_itable tb ∧
    fsinit ROOTDEV (Solo tb [] pid) = initlog ROOTDEV sb (Solo t1 [] pid).
Proof.
  intros Hrb Hs Hmagic. destruct (readsb_ok m tb pid Hrb) as (t1 & E & R & S & T). rewrite Hs in S.
  exists t1. split_and!; try done. unfold fsinit. rewrite (bind_ok _ _ _ _ _ E). unfold get_sb.
  by rewrite bind_get_solo, S, Hmagic.
Qed.

Lemma recovered_idle m t1 pid sb start size L tr :
  recovered m t1 pid sb start size L tr → f_sb t1 = sb →
  sb_magic sb = FSMAGIC → sb_logstart sb = start → sb_nlog sb = size →
  get_superblock (disk_block (f_disk tr) 1) = sb → (∀ b, length (image m b) = 1024%nat) →
  idle tr pid start size sb (disk_block (f_disk tr)) (f_itable t1).
Proof.
  intros [E T K S I] Hsb Hm Hl Hn Hs Hlen. destruct (header_nil (image m start) (Hlen _)) as [Hh Hz].
  split; try done; [|congruence|..].
  - intros b. destruct (it_cache _ _ _ _ _ _ _ T) as (P & IP & HP). apply Permutation_nil_r in HP as ->.
    apply (bview_clean IP); [apply not_elem_of_nil | by intros i ?%elem_of_nil].
  - intros b. rewrite K. apply whole_blocks; [done|]. unfold recovery_writes, install_writes.
    rewrite Forall_app, Forall_singleton. split; [|done]. apply (zip_second (λ d, length d = 1024%nat)).
    apply Forall_fmap, Forall_forall. intros; apply Hlen.
  - rewrite K. unfold recovery_writes. rewrite vwrites_app. cbn. by rewrite decide_True.
Qed.

(** Booting from a disk whose log is empty. *)
Lemma fsinit_idle m tb pid sb start size :
  rebooted m tb pid → get_superblock (image m 1) = sb → sb_magic sb = FSMAGIC →
  sb_logstart sb = start → sb_nlog sb = size → start ≠ 1 → 0 < size →
  (∀ b, length (image m b) = 1024%nat) → hdr_n (image m start) = 0 →
  ∃ tr vr, fsinit ROOTDEV (Solo tb [] pid) = Ok tt (Solo tr [] pid) ∧
    idle tr pid start size sb vr (f_itable tb) ∧ ∀ b, b ≠ start → vr b = image m b.
Proof.
  intros Hrb Hs Hm Hl Hn Hst Hsz Hlen Hz.
  destruct (fsinit_run m tb pid sb Hrb Hs Hm) as (t1 & R1 & S1 & T1 & E1).
  destruct (initlog_ok m t1 pid sb start size [] R1 Hl Hn) as (tr & Rc); [by apply header_empty|].
  assert (K : ∀ b, b ≠ start → disk_block (f_disk tr) b = image m b).
  { intros b Hb. rewrite (rc_disk _ _ _ _ _ _ _ _ Rc). cbn. by rewrite decide_False. }
  exists tr, (disk_block (f_disk tr)). split_and!; [by rewrite E1; apply Rc | | done].
  rewrite <- T1. eapply recovered_idle; try done. by rewrite K.
Qed.
