(* ===== verification/FsAlloc.v ===== *)
(** * The block allocator

    [balloc] hands out a block that the bitmap says is free, zeroed and
    marked as used, and changes nothing else; it returns 0 exactly when every
    block of the disk is in use.  [bfree] makes the block free again. *)

From stdpp Require Import functions.
From S2P Require Import Base Riscv Mem Kernel Sleeplock FsState Bio BioList BioSpec Log LogSpec LogCrash.
From S2P Require Import LogOps Fs FsLogic.
Local Open Scope Z_scope.
Local Open Scope kernel_scope.

(** ** The bitmap *)

(** Boot block, super block, log, inodes, bitmap, data, as [mkfs] lays them
    out. *)
Record layout (sb : superblock) (start size : Z) : Prop := {
  lo_log : 1 < start ∧ 0 < size ∧ start + size ≤ sb_inodestart sb;
  lo_inodes : 0 < sb_ninodes sb ∧ sb_inodestart sb + sb_ninodes sb / IPB < sb_bmapstart sb;
  lo_bmap : sb_bmapstart sb + sb_size sb / BPB < sb_size sb;
  lo_size : sb_size sb < 2 ^ 31;
}.

(** The first block after the bitmap. *)
Definition datastart (sb : superblock) : Z := sb_bmapstart sb + sb_size sb / BPB + 1.

Definition used (sb : superblock) (v : Z → list Z) (b : Z) : bool :=
  Z.testbit (map_byte (v (BBLOCK b sb)) (b mod BPB)) (b mod 8).

Definition mark (f : Z → Z → Z) (b : Z) (sb : superblock) (v : Z → list Z) : Z → list Z :=
  <[BBLOCK b sb := put_map_byte (b mod BPB)
      (f (map_byte (v (BBLOCK b sb)) (b mod BPB)) (bit_mask (b mod BPB))) (v (BBLOCK b sb))]> v.

Definition set_used : Z → superblock → (Z → list Z) → Z → list Z := mark Z.lor.
Definition set_free : Z → superblock → (Z → list Z) → Z → list Z := mark (λ m n, Z.land m (Z.lnot n)).

(** Blocks have their size, and what is not data is in use. *)
Record fs_ok (sb : superblock) (v : Z → list Z) : Prop := {
  fo_len : ∀ b, length (v b) = 1024%nat;
  fo_meta : ∀ b, 0 ≤ b < datastart sb → used sb v b = true;
}.

Lemma BPB_8192 : BPB = 8192.
Proof. done. Qed.

Lemma mask_bit x bi : 0 ≤ bi → (Z.land x (bit_mask bi) =? 0) = negb (Z.testbit x (bi mod 8)).
Proof.
  intros Hb. unfold bit_mask. assert (0 ≤ bi mod 8) by zlia.
  rewrite Z.shiftl_1_l. destruct (Z.testbit x (bi mod 8)) eqn:E; cbn [negb].
  - apply Z.eqb_neq. intros H0. assert (Z.testbit (Z.land x (2 ^ (bi mod 8))) (bi mod 8) = false) as H1
      by (by rewrite H0, Z.bits_0).
    rewrite Z.land_spec, E, Z.pow2_bits_true in H1 by done. done.
  - apply Z.eqb_eq, Z.bits_inj. intros n. rewrite Z.land_spec, Z.bits_0.
    destruct (decide (n = bi mod 8)) as [->|]; [by rewrite E|].
    rewrite Z.pow2_bits_false by done. apply andb_false_r.
Qed.

Lemma find_free_bit_some n d b bi sz r :
  find_free_bit n d b bi sz = Some r → 0 ≤ bi →
  bi ≤ r < bi + Z.of_nat n ∧ b + r < sz ∧ Z.testbit (map_byte d r) (r mod 8) = false.
Proof.
  revert bi. induction n as [|n IH]; intros bi; cbn [find_free_bit]; [done|].
  destruct (b + bi <? sz) eqn:E1; [|done]. destruct (_ =? 0) eqn:E2.
  - intros [= <-] Hb. rewrite mask_bit in E2 by done. bool_to_prop. split_and!; [lia..|done].
  - intros Hr Hb. apply IH in Hr as (? & ? & ?); [|lia]. split_and!; [lia..|done].
Qed.

Lemma find_free_bit_none n d b bi sz r :
  find_free_bit n d b bi sz = None → 0 ≤ bi →
  bi ≤ r < bi + Z.of_nat n → b + r < sz → Z.testbit (map_byte d r) (r mod 8) = true.
Proof.
  revert bi. induction n as [|n IH]; intros bi; cbn [find_free_bit]; [lia|].
  destruct (b + bi <? sz) eqn:E1; bool_to_prop; [|intros; lia].
  destruct (_ =? 0) eqn:E2; [done|]. intros H Hb Hr Hs.
  destruct (decide (r = bi)) as [->|]; [|apply (IH (bi + 1)); lia || done].
  rewrite mask_bit in E2 by done. by bool_to_prop.
Qed.

(** ** Bits and blocks after a change of the bitmap *)
Section bitmap.
  Context {sb : superblock} {v : Z → list Z} (Hlen : ∀ b, length (v b) = 1024%nat).

Lemma map_byte_put d bi x bi' :
  length d = 1024%nat → 0 ≤ bi < BPB → 0 ≤ bi' < BPB →
  map_byte (put_map_byte bi x d) bi' = if decide (bi' / 8 = bi / 8) then x else map_byte d bi'.
Proof.
  intros Hd Hb Hb'. rewrite BPB_8192 in *. unfold map_byte, put_map_byte. case_decide as E.
  - rewrite E, list_lookup_insert_eq; [done|]. zlia.
  - rewrite list_lookup_insert_ne; [done|]. zlia.
Qed.

Lemma used_mark f b b' :
  0 ≤ b → 0 ≤ b' → used sb (mark f b sb v) b' =
  if decide (b' / 8 = b / 8)
  then Z.testbit (f (map_byte (v (BBLOCK b sb)) (b mod BPB)) (bit_mask (b mod BPB))) (b' mod 8)
  else used sb v b'.
Proof.
  intros Hb Hb'. unfold used, mark. destruct (decide (BBLOCK b' sb = BBLOCK b sb)) as [E|E].
  - rewrite E, fn_lookup_insert, map_byte_put; [|by apply Hlen | rewrite BPB_8192; zlia..].
    unfold BBLOCK in E. rewrite BPB_8192 in *. repeat case_decide; try done; exfalso; zlia.
  - rewrite fn_lookup_insert_ne by done. rewrite decide_False; [done|].
    intros E'. apply E. unfold BBLOCK. rewrite BPB_8192. zlia.
Qed.

Lemma used_byte b b' : b' / 8 = b / 8 → 
  Z.testbit (map_byte (v (BBLOCK b sb)) (b mod BPB)) (b' mod 8) = used sb v b'.
Proof.
  intros E. unfold used, BBLOCK, map_byte. rewrite BPB_8192.
  replace (b' / 8192) with (b / 8192) by zlia. replace (b' mod 8192 / 8) with (b mod 8192 / 8) by zlia. done.
Qed.

Lemma testbit_mask b b' : 0 ≤ b → 0 ≤ b' → b' / 8 = b / 8 →
  Z.testbit (bit_mask (b mod BPB)) (b' mod 8) = bool_decide (b' = b).
Proof.
  intros Hb Hb' E. unfold bit_mask. rewrite Z.shiftl_1_l, BPB_8192.
  replace (b mod 8192 mod 8) with (b mod 8) by zlia. case_bool_decide as Ed.
  - subst. apply Z.pow2_bits_true. zlia.
  - apply Z.pow2_bits_false. zlia.
Qed.

Lemma used_set_used b b' :
  0 ≤ b → 0 ≤ b' → used sb (set_used b sb v) b' = bool_decide (b' = b) || used sb v b'.
Proof.
  intros Hb Hb'. unfold set_used. rewrite used_mark by done. case_decide as E.
  - rewrite Z.lor_spec, used_byte, testbit_mask by done. apply orb_comm.
  - rewrite bool_decide_false; [done|]. by intros ->.
Qed.

Lemma used_set_free b b' :
  0 ≤ b → 0 ≤ b' → used sb (set_free b sb v) b' = negb (bool_decide (b' = b)) && used sb v b'.
Proof.
  intros Hb Hb'. unfold set_free. rewrite used_mark by done. case_decide as E.
  - rewrite Z.land_spec, Z.lnot_spec, used_byte, testbit_mask by (done || zlia). apply andb_comm.
  - rewrite bool_decide_false; [done|]. by intros ->.
Qed.

Lemma mark_length f b b' : length (mark f b sb v b') = 1024%nat.
Proof.
  unfold mark. destruct (decide (b' = BBLOCK b sb)) as [->|].
  - rewrite fn_lookup_insert. unfold put_map_byte. by rewrite length_insert.
  - by rewrite fn_lookup_insert_ne.
Qed.
End bitmap.

Section layout.
  Context {sb : superblock} {start size : Z} (Hlay : layout sb start size).

Lemma BBLOCK_range b : 0 ≤ b < sb_size sb → sb_bmapstart sb ≤ BBLOCK b sb < datastart sb.
Proof.
  intros Hb. destruct Hlay. unfold BBLOCK, datastart. rewrite BPB_8192 in *. zlia.
Qed.

Lemma meta_home b : sb_inodestart sb ≤ b < sb_size sb → ¬ in_log start size b ∧ 0 ≤ b < 2 ^ 31.
Proof. intros Hb. destruct Hlay. unfold in_log. lia. Qed.

Lemma datastart_range : sb_bmapstart sb < datastart sb ≤ sb_size sb ∧ sb_inodestart sb < sb_bmapstart sb ∧ 0 < sb_inodestart sb.
Proof.
  destruct Hlay. unfold datastart. change IPB with 16 in *. rewrite BPB_8192 in *.
  zlia.
Qed.
End layout.

(** ** The operations *)

(** No lock is held that the cache or the log takes. *)
Definition fs_free (ls : list lockid) : Prop := bio_free ls ∧ Llog ∉ ls.

Lemma absorbed_sub L b x : x ∈ absorbed L b ↔ x ∈ L ∨ x = b.
Proof.
  unfold absorbed. case_decide; [naive_solver|]. rewrite elem_of_app, list_elem_of_singleton. done.
Qed.

Section alloc.
  Context (pid start size : Z) (sb : superblock) (k : Z) (dk : disk) (Hlay : layout sb start size) (Hk : 1 ≤ k).
  Context (ls : list lockid) (Hls : fs_free ls).
  Abbreviation wp := (wp pid start size sb k dk).
  Implicit Types (H : list handle) (L : list Z) (v : Z → list Z) (tbl : list inode).

(** Room in the log for [n] more blocks, and in the cache for one more. *)
Definition room (n : Z) (L : list Z) : Prop := Z.of_nat (length L) + n < Z.min LOGSIZE size.

Lemma room_absorbed n L b : room (n + 1) L → room n (absorbed L b).
Proof. unfold room. pose proof (absorbed_length L b). lia. Qed.

Lemma room_le m n L : room n L → m ≤ n → room m L.
Proof. unfold room. lia. Qed.

Lemma room_cache H L n : (length H ≤ 1)%nat → room n L → 1 ≤ n → (length H + length L < 30)%nat.
Proof. unfold room, LOGSIZE, MAXOPBLOCKS. lia. Qed.

(** Read a block, change it, record it in the log, give it back. *)
Lemma wp_modify g b Q H L v tbl :
  (∀ h, h ∈ H → h_block h ≠ b) → (length H ≤ 1)%nat → room 1 L → ¬ in_log start size b → 0 ≤ b < 2 ^ 31 →
  Q tt (Ast ls H (absorbed L b) (<[b := g (v b)]> v) tbl) →
  wp (bp ← bread ROOTDEV b; bset g bp ;; log_write bp ;; brelse bp) Q (Ast ls H L v tbl).
Proof.
  intros Hh Hl Hr Hb Hb' HQ. destruct Hls as [Hbf Hlog].
  apply wp_bind, wp_bread; [done | done | by eapply room_cache |]. intros i.
  apply wp_bind, wp_bset. apply wp_bind, wp_log_write; try done; [by destruct Hbf|].
  by apply wp_brelse.
Qed.

Lemma wp_bzero b Q H L v tbl :
  (∀ h, h ∈ H → h_block h ≠ b) → (length H ≤ 1)%nat → room 1 L → ¬ in_log start size b → 0 ≤ b < 2 ^ 31 →
  Q tt (Ast ls H (absorbed L b) (<[b := zero_block]> v) tbl) → wp (bzero ROOTDEV b) Q (Ast ls H L v tbl).
Proof. intros. by apply wp_modify. Qed.

(** The log after block [b] has been allocated. *)
Definition alloc_log (L : list Z) (b : Z) : list Z := absorbed (absorbed L (BBLOCK b sb)) b.
Definition alloc_view (v : Z → list Z) (b : Z) : Z → list Z := <[b := zero_block]> (set_used b sb v).

Lemma wp_balloc_loop fuel b0 Q H L v tbl :
  fs_ok sb v → (length H ≤ 1)%nat → room 2 L →
  (∀ h, h ∈ H → datastart sb ≤ h_block h ∧ used sb v (h_block h) = true) →
  0 ≤ b0 < sb_size sb + BPB → (BPB | b0) → sb_size sb ≤ b0 + BPB * (Z.of_nat fuel - 1) →
  (∀ b, 0 ≤ b < Z.min b0 (sb_size sb) → used sb v b = true) →
  ((∀ b, 0 ≤ b < sb_size sb → used sb v b = true) → Q 0 (Ast ls H L v tbl)) →
  (∀ b, datastart sb ≤ b < sb_size sb → used sb v b = false →
     Q b (Ast ls H (alloc_log L b) (alloc_view v b) tbl)) →
  wp (balloc_loop fuel ROOTDEV b0) Q (Ast ls H L v tbl).
Proof.
  intros Hok Hl Hr HH. pose proof (datastart_range Hlay) as Hds. pose proof BPB_8192 as HBPB. revert b0.
  induction fuel as [|fuel IH]; intros b0 Hb0 Hdiv Hfuel Hdone Hfull HQ;
    [rewrite BPB_8192 in Hfuel, Hb0; lia|]. cbn [balloc_loop].
  apply wp_bind, wp_get_sb. case_if; bool_to_prop.
  2:{ apply wp_ret, Hfull. intros b Hb. apply Hdone. lia. }
  destruct Hdiv as [q ->]. pose proof (BBLOCK_range Hlay (q * BPB) (conj (proj1 Hb0) E)) as HB.
  assert (HBq : ∀ r, 0 ≤ r < BPB → BBLOCK (q * BPB + r) sb = BBLOCK (q * BPB) sb ∧
                (q * BPB + r) mod BPB = r ∧ (q * BPB + r) mod 8 = r mod 8).
  { intros r Hr'. unfold BBLOCK. rewrite BPB_8192 in *. split_and!; zlia. }
  destruct Hls as [Hbf Hlog].
  apply wp_bind, wp_bread; [done | intros h Hh E1; apply HH in Hh as [Hh _]; lia | eapply room_cache; [done..|lia] |].
  intros i. apply wp_bind, wp_bdata. destruct (find_free_bit _ _ _ _ _) as [r|] eqn:Ef.
  - apply find_free_bit_some in Ef as (Hr1 & Hr2 & Hr3); [|lia].
    rewrite Z2Nat.id in Hr1 by done. destruct (HBq r) as (E1 & E2 & E3); [lia|].
    assert (Hu : used sb v (q * BPB + r) = false) by (unfold used; by rewrite E1, E2, E3).
    assert (Hd : datastart sb ≤ q * BPB + r).
    { destruct (Z_le_gt_dec (datastart sb) (q * BPB + r)); [done|].
      rewrite (fo_meta _ _ Hok) in Hu; [done|lia]. }
    destruct (meta_home Hlay (BBLOCK (q * BPB) sb)) as [? ?]; [lia|].
    destruct (meta_home Hlay (q * BPB + r)) as [? ?]; [lia|].
    apply wp_bind, wp_bset. apply wp_bind, wp_log_write; try done; [by destruct Hbf | eapply room_le; [done|lia] |].
    apply wp_bind, wp_brelse; [done|].
    apply wp_bind, wp_bzero; try done.
    + intros h Hh E0. apply HH in Hh as [_ Hh]. rewrite E0 in Hh. congruence.
    + by apply room_absorbed.
    + apply wp_ret. specialize (HQ (q * BPB + r)). unfold alloc_log, alloc_view, set_used, mark in HQ.
      rewrite E1, E2 in HQ. apply HQ; [lia|done].
  - apply wp_bind, wp_brelse; [done|]. apply IH; [lia | exists (q + 1); lia | rewrite BPB_8192 in Hfuel |- *; lia | | done | done].
    intros b Hb. destruct (Z_lt_le_dec b (q * BPB)); [apply Hdone; lia|].
    destruct (HBq (b - q * BPB)) as (E1 & E2 & E3); [lia|].
    replace (q * BPB + (b - q * BPB)) with b in * by lia. unfold used. rewrite E1, E2, E3.
    eapply find_free_bit_none; [done | lia | rewrite Z2Nat.id by done; lia | lia].
Qed.

Lemma wp_balloc Q H L v tbl :
  fs_ok sb v → (length H ≤ 1)%nat → room 2 L →
  (∀ h, h ∈ H → datastart sb ≤ h_block h ∧ used sb v (h_block h) = true) →
  ((∀ b, 0 ≤ b < sb_size sb → used sb v b = true) → Q 0 (Ast ls H L v tbl)) →
  (∀ b, datastart sb ≤ b < sb_size sb → used sb v b = false →
     Q b (Ast ls H (alloc_log L b) (alloc_view v b) tbl)) →
  wp (balloc ROOTDEV) Q (Ast ls H L v tbl).
Proof.
  intros Hok Hl Hr HH Hfull HQ. pose proof (datastart_range Hlay). unfold balloc.
  apply wp_bind, wp_get_sb. apply wp_balloc_loop; try done; [rewrite BPB_8192; lia | by exists 0 | | intros; lia].
  rewrite BPB_8192. zlia.
Qed.

Lemma wp_bfree b Q H L v tbl :
  fs_ok sb v → (length H ≤ 1)%nat → room 1 L → (∀ h, h ∈ H → datastart sb ≤ h_block h) →
  datastart sb ≤ b < sb_size sb → used sb v b = true →
  Q tt (Ast ls H (absorbed L (BBLOCK b sb)) (set_free b sb v) tbl) →
  wp (bfree ROOTDEV b) Q (Ast ls H L v tbl).
Proof.
  intros Hok Hl Hr HH Hb Hu HQ. pose proof (datastart_range Hlay).
  pose proof (BBLOCK_range Hlay b ltac:(lia)) as HB. destruct Hls as [Hbf Hlog]. unfold bfree.
  apply wp_bind, wp_get_sb.
  apply wp_bind, wp_bread; [done | intros h Hh E1; apply HH in Hh; lia | eapply room_cache; [done..|lia] |].
  intros i. apply wp_bind, wp_bdata. rewrite mask_bit by (rewrite BPB_8192; zlia).
  replace (b mod BPB mod 8) with (b mod 8) by (rewrite BPB_8192; zlia).
  unfold used in Hu. rewrite Hu. cbn [negb].
  destruct (meta_home Hlay (BBLOCK b sb)) as [? ?]; [lia|].
  apply wp_bind, wp_bset. apply wp_bind, wp_log_write; try done; [by destruct Hbf|].
  by apply wp_brelse.
Qed.

End alloc.
