(* ===== verification/FsInode.v ===== *)
(** * Inodes on disk

    The fields of an inode as [iupdate] writes them into its 64 bytes of an
    inode block and [ilock] reads them back. *)

From stdpp Require Import functions.
From S2P Require Import Base Riscv Mem Kernel Sleeplock FsState Bio BioList BioSpec Log LogSpec LogCrash.
From S2P Require Import LogOps Fs FsLogic FsAlloc.
Local Open Scope Z_scope.
Local Open Scope kernel_scope.

(** The fields fit their types: short, short, short, short, uint, uint[13]. *)
Record fields_ok (x : inode) : Prop := {
  fd_type : - 2 ^ 15 ≤ i_type x < 2 ^ 15;
  fd_major : - 2 ^ 15 ≤ i_major x < 2 ^ 15;
  fd_minor : - 2 ^ 15 ≤ i_minor x < 2 ^ 15;
  fd_nlink : - 2 ^ 15 ≤ i_nlink x < 2 ^ 15;
  fd_size : 0 ≤ i_size x < 2 ^ 32;
  fd_addrs : length (i_addrs x) = 13%nat ∧ Forall (λ a, 0 ≤ a < 2 ^ 32) (i_addrs x);
}.

Lemma blk_put_lookup n off v d (i : nat) :
  0 ≤ off → off + Z.of_nat n ≤ Z.of_nat (length d) →
  Z.of_nat i < off ∨ off + Z.of_nat n ≤ Z.of_nat i → blk_put n off v d !! i = d !! i.
Proof.
  intros Ho Hl Hi. unfold blk_put. destruct Hi.
  - rewrite lookup_app_l by (rewrite length_take; lia). by rewrite lookup_take_lt by lia.
  - rewrite lookup_app_r by (rewrite length_take; lia). rewrite length_take.
    rewrite lookup_app_r by (rewrite le_bytes_length; lia). rewrite le_bytes_length, lookup_drop. f_equal. lia.
Qed.

(** ** The block addresses *)
Definition put_addrs (off b : Z) (addrs : list Z) (d : list Z) : list Z :=
  foldl (λ d ia, blk_put 4 (off + 12 + 4 * ia.1) ia.2 d) d (zip (zseq b (length addrs)) addrs).

Lemma put_addrs_cons off b a addrs d :
  put_addrs off b (a :: addrs) d = put_addrs off (b + 1) addrs (blk_put 4 (off + 12 + 4 * b) a d).
Proof. done. Qed.

Section addrs.
  Context (off : Z) (Hoff : 0 ≤ off).

Lemma put_addrs_length b addrs d :
  0 ≤ b → off + 12 + 4 * (b + Z.of_nat (length addrs)) ≤ Z.of_nat (length d) →
  length (put_addrs off b addrs d) = length d.
Proof.
  revert b d. induction addrs as [|a addrs IH]; intros b d Hb Hl; [done|]. simpl length in Hl.
  rewrite put_addrs_cons, IH by (rewrite ?blk_put_length; lia). apply blk_put_length; lia.
Qed.

Lemma put_addrs_get b addrs d n o :
  0 ≤ b → off + 12 + 4 * (b + Z.of_nat (length addrs)) ≤ Z.of_nat (length d) →
  0 ≤ o → o + Z.of_nat n ≤ off + 12 + 4 * b → blk_get n o (put_addrs off b addrs d) = blk_get n o d.
Proof.
  revert b d. induction addrs as [|a addrs IH]; intros b d Hb Hl Ho Hn; [done|]. simpl length in Hl.
  rewrite put_addrs_cons, IH by (rewrite ?blk_put_length; lia). apply blk_get_put_ne; lia.
Qed.

Lemma put_addrs_nth b addrs d i a :
  0 ≤ b → off + 12 + 4 * (b + Z.of_nat (length addrs)) ≤ Z.of_nat (length d) →
  addrs !! i = Some a →
  blk_get 4 (off + 12 + 4 * (b + Z.of_nat i)) (put_addrs off b addrs d) = a mod 2 ^ 32.
Proof.
  revert b d i. induction addrs as [|a' addrs IH]; intros b d [|i] Hb Hl E; try done; simpl length in Hl.
  - injection E as ->. rewrite put_addrs_cons, put_addrs_get by (rewrite ?blk_put_length; lia).
    rewrite Z.add_0_r, blk_get_put by lia. done.
  - rewrite put_addrs_cons. replace (b + Z.of_nat (S i)) with (b + 1 + Z.of_nat i) by lia.
    apply IH; [lia | rewrite blk_put_length; lia | done].
Qed.

Lemma put_addrs_lookup b addrs d (i : nat) :
  0 ≤ b → off + 12 + 4 * (b + Z.of_nat (length addrs)) ≤ Z.of_nat (length d) →
  Z.of_nat i < off ∨ off + 12 + 4 * (b + Z.of_nat (length addrs)) ≤ Z.of_nat i →
  put_addrs off b addrs d !! i = d !! i.
Proof.
  revert b d. induction addrs as [|a addrs IH]; intros b d Hb Hl Hi; [done|]. simpl length in *.
  rewrite put_addrs_cons, IH by (rewrite ?blk_put_length; lia). apply blk_put_lookup; lia.
Qed.
End addrs.

(** ** Round trip *)

(** Lengths of blocks some bytes of which were replaced. *)
Ltac blk := first [lia | rewrite blk_put_length by blk; blk].

Section dinode.
  Context {x : inode} (F : fields_ok x) {off : Z} {d : list Z}.
  Context (Hoff : 0 ≤ off) (Hd : off + 64 ≤ Z.of_nat (length d)).

Lemma store_dinode_eq : store_dinode x off d =
  put_addrs off 0 (i_addrs x) (blk_put 4 (off + 8) (i_size x) (blk_put 2 (off + 6) (i_nlink x)
    (blk_put 2 (off + 4) (i_minor x) (blk_put 2 (off + 2) (i_major x) (blk_put 2 off (i_type x) d))))).
Proof.
  unfold store_dinode, store_addrs, put_addrs. destruct (fd_addrs _ F) as [-> _]. done.
Qed.

Lemma store_dinode_length : length (store_dinode x off d) = length d.
Proof.
  destruct (fd_addrs _ F) as [Hl _]. rewrite store_dinode_eq.
  rewrite put_addrs_length by (rewrite ?Hl; blk). by rewrite !blk_put_length by blk.
Qed.

Lemma store_dinode_lookup (i : nat) :
  Z.of_nat i < off ∨ off + 64 ≤ Z.of_nat i → store_dinode x off d !! i = d !! i.
Proof.
  intros Hi. destruct (fd_addrs _ F) as [Hl _]. rewrite store_dinode_eq.
  rewrite put_addrs_lookup by (rewrite ?Hl; blk).
  by rewrite !blk_put_lookup by blk.
Qed.

Lemma i16_mod a : - 2 ^ 15 ≤ a < 2 ^ 15 → i16 (a mod 256 ^ Z.of_nat 2) = a.
Proof. intros. change (256 ^ Z.of_nat 2) with (2 ^ 16). ilia. Qed.

Lemma load_store_dinode y :
  load_dinode (store_dinode x off d) off y =
  Inode (i_dev y) (i_inum y) (i_ref y) (i_lock y) (i_valid y)
    (i_type x) (i_major x) (i_minor x) (i_nlink x) (i_size x) (i_addrs x).
Proof.
  pose proof (fd_addrs _ F) as [Hl Ha]. pose proof F as [? ? ? ? ? _].
  rewrite store_dinode_eq. unfold load_dinode.
  rewrite !(put_addrs_get off Hoff 0) by (rewrite ?Hl; blk).
  f_equal.
  - rewrite !(blk_get_put_ne _ _ _ off) by blk. rewrite blk_get_put by blk. by apply i16_mod.
  - rewrite !(blk_get_put_ne _ _ _ (off + 2)) by blk. rewrite blk_get_put by blk. by apply i16_mod.
  - rewrite !(blk_get_put_ne _ _ _ (off + 4)) by blk. rewrite blk_get_put by blk. by apply i16_mod.
  - rewrite !(blk_get_put_ne _ _ _ (off + 6)) by blk. rewrite blk_get_put by blk. by apply i16_mod.
  - rewrite blk_get_put by blk. apply Z.mod_small. done.
  - apply list_eq. intros i. rewrite list_lookup_fmap.
    destruct (decide (i < 13)%nat) as [Hi|Hi].
    + rewrite zseq_lookup by done. cbn [fmap option_fmap option_map].
      destruct (lookup_lt_is_Some_2 (i_addrs x) i) as [a Ea]; [lia|].
      rewrite (put_addrs_nth off Hoff 0 _ _ i a), Ea by (rewrite ?Hl; blk || done).
      f_equal. apply Z.mod_small. rewrite Forall_lookup in Ha. by apply (Ha i).
    + rewrite (lookup_ge_None_2 (zseq 0 13)) by (rewrite zseq_length; lia).
      symmetry. apply lookup_ge_None_2. lia.
Qed.
End dinode.

(** ** [iupdate] *)
Section iupdate.
  Context (pid start size : Z) (sb : superblock) (k : Z) (dk : disk) (Hlay : layout sb start size).
  Context (ls : list lockid) (Hls : fs_free ls) (Hk : 1 ≤ k).
  Abbreviation wp := (wp pid start size sb k dk).

Lemma IBLOCK_range inum : 0 ≤ inum < sb_ninodes sb → sb_inodestart sb ≤ IBLOCK inum sb < sb_bmapstart sb.
Proof.
  intros Hi. destruct (lo_inodes _ _ _ Hlay) as [_ H]. unfold IBLOCK. change IPB with 16 in *. zlia.
Qed.

Lemma dinode_off_range inum : 0 ≤ dinode_off inum ∧ dinode_off inum + 64 ≤ 1024.
Proof. unfold dinode_off, sizeof_dinode. change IPB with 16. zlia. Qed.

(** The blocks after inode [x] has been written back. *)
Definition put_inode (x : inode) (v : Z → list Z) : Z → list Z :=
  <[IBLOCK (i_inum x) sb := store_dinode x (dinode_off (i_inum x)) (v (IBLOCK (i_inum x) sb))]> v.

Lemma wp_iupdate ip x Q L v tbl :
  tbl !! ip = Some x → i_dev x = ROOTDEV → 0 ≤ i_inum x < sb_ninodes sb → room size 1 L →
  Q tt (Ast ls [] (absorbed L (IBLOCK (i_inum x) sb)) (put_inode x v) tbl) →
  wp (iupdate ip) Q (Ast ls [] L v tbl).
Proof.
  intros Ex Hdev Hi Hr HQ. pose proof (datastart_range Hlay). pose proof (IBLOCK_range _ Hi).
  destruct (meta_home Hlay (IBLOCK (i_inum x) sb)) as [? ?]; [lia|].
  unfold iupdate. apply wp_bind, wp_ifield. cbn [a_itab]. rewrite Ex. change (default inode0 (Some x)) with x.
  unfold id. apply wp_bind, wp_get_sb. rewrite Hdev.
  eapply wp_modify; try done; [by intros h ?%elem_of_nil | simpl; lia].
Qed.

(** What is on the disk as inode [inum]. *)
Definition dinode (v : Z → list Z) (inum : Z) (y : inode) : inode :=
  load_dinode (v (IBLOCK inum sb)) (dinode_off inum) y.

Lemma dinode_put x v :
  fields_ok x → (∀ b, length (v b) = 1024%nat) → dinode (put_inode x v) (i_inum x) x = x.
Proof.
  intros F Hl. destruct (dinode_off_range (i_inum x)). unfold dinode, put_inode. rewrite fn_lookup_insert.
  rewrite load_store_dinode by (done || rewrite ?Hl; lia). by destruct x.
Qed.

Lemma blk_get_ext n o (d d' : list Z) :
  (∀ i : nat, o ≤ Z.of_nat i < o + Z.of_nat n → d' !! i = d !! i) → 0 ≤ o → blk_get n o d' = blk_get n o d.
Proof.
  intros E Ho. unfold blk_get. f_equal. apply list_eq. intros i.
  destruct (decide (i < n)%nat).
  - rewrite !lookup_take_lt, !lookup_drop by done. apply E. lia.
  - by rewrite !lookup_take_ge by lia.
Qed.

Lemma load_dinode_ext off d d' y :
  0 ≤ off → (∀ i : nat, off ≤ Z.of_nat i < off + 64 → d' !! i = d !! i) →
  load_dinode d' off y = load_dinode d off y.
Proof.
  intros Ho E. unfold load_dinode.
  assert (G : ∀ n o, off ≤ o → o + Z.of_nat n ≤ off + 64 → blk_get n o d' = blk_get n o d).
  { intros n o H1 H2. apply blk_get_ext; [|lia]. intros i Hi. apply E. lia. }
  rewrite !G by lia. f_equal. apply list_fmap_ext. intros i a Ha%list_elem_of_lookup_2.
  apply elem_of_zseq in Ha. apply G; lia.
Qed.

(** The other inodes stay as they are. *)
Lemma dinode_put_ne x v inum y :
  fields_ok x → (∀ b, length (v b) = 1024%nat) → 0 ≤ inum → 0 ≤ i_inum x → inum ≠ i_inum x →
  dinode (put_inode x v) inum y = dinode v inum y.
Proof.
  intros F Hl Hi Hx Hne. unfold dinode, put_inode.
  destruct (decide (IBLOCK inum sb = IBLOCK (i_inum x) sb)) as [E|E].
  - rewrite E, fn_lookup_insert. destruct (dinode_off_range inum), (dinode_off_range (i_inum x)).
    apply load_dinode_ext; [done|]. intros i Hi'. apply store_dinode_lookup; [done | lia | rewrite Hl; lia |].
    unfold IBLOCK, dinode_off, sizeof_dinode in *. change IPB with 16 in *. zlia.
  - by rewrite fn_lookup_insert_ne.
Qed.

Lemma put_inode_other x v b : b ≠ IBLOCK (i_inum x) sb → put_inode x v b = v b.
Proof. intros. unfold put_inode. by rewrite fn_lookup_insert_ne. Qed.

Lemma put_inode_ok x v :
  fields_ok x → 0 ≤ i_inum x < sb_ninodes sb → fs_ok sb v → fs_ok sb (put_inode x v).
Proof.
  intros F Hi [Hl Hm]. pose proof (IBLOCK_range _ Hi). pose proof (datastart_range Hlay) as Hds. split.
  - intros b. destruct (decide (b = IBLOCK (i_inum x) sb)) as [->|]; [|by rewrite put_inode_other].
    unfold put_inode. rewrite fn_lookup_insert. destruct (dinode_off_range (i_inum x)).
    rewrite store_dinode_length by (done || rewrite ?Hl; lia). apply Hl.
  - intros b Hb. unfold used. pose proof (BBLOCK_range Hlay b ltac:(lia)).
    rewrite put_inode_other by lia. by apply Hm.
Qed.
End iupdate.
