(* ===== verification/FsFile.v ===== *)
(** * The contents of files

    The blocks of a file are found through the slots of its inode: 12 direct
    addresses, the address of the indirect block (slot 12) and the 256
    addresses in it (slots 13 to 268).  [fbyte v x o] is byte [o] of the file.
    [bmap] may allocate blocks, but it changes no byte of this or of any other
    file; [writei] changes the bytes it is asked to change, and [readi]
    returns the bytes of the file. *)

From stdpp Require Import functions.
From S2P Require Import Base Riscv Mem Kernel Sleeplock FsState Bio BioList BioSpec Log LogSpec LogCrash.
From S2P Require Import LogOps Fs FsLogic FsAlloc.
Local Open Scope Z_scope.
Local Open Scope kernel_scope.

(** ** Slots *)
Definition NSLOT : Z := 13 + NINDIRECT.
Definition indirect (x : inode) : Z := default 0 (i_addrs x !! 12%nat).

Definition slot (v : Z → list Z) (x : inode) (s : Z) : Z :=
  if s <=? 12 then default 0 (i_addrs x !! Z.to_nat s)
  else if indirect x =? 0 then 0 else blk_get 4 (4 * (s - 13)) (v (indirect x)).

(** The slot of block [bn] of the file. *)
Definition bslot (bn : Z) : Z := if bn <? NDIRECT then bn else bn + 1.
Definition baddr (v : Z → list Z) (x : inode) (bn : Z) : Z := slot v x (bslot bn).

Definition owns (v : Z → list Z) (x : inode) (b : Z) : Prop :=
  b ≠ 0 ∧ ∃ s, 0 ≤ s < NSLOT ∧ slot v x s = b.

Definition fbyte (v : Z → list Z) (x : inode) (o : Z) : Z :=
  let a := baddr v x (o / BSIZE) in
  if a =? 0 then 0 else default 0 (v a !! Z.to_nat (o mod BSIZE)).

Section slots.
  Context (sb : superblock).

Definition data_block (v : Z → list Z) (b : Z) : Prop :=
  datastart sb ≤ b < sb_size sb ∧ used sb v b = true.

(** The blocks of a file are data blocks in use, and no two slots share one. *)
Record inode_wf (v : Z → list Z) (x : inode) : Prop := {
  iw_len : length (i_addrs x) = 13%nat;
  iw_data : ∀ s, 0 ≤ s < NSLOT → slot v x s ≠ 0 → data_block v (slot v x s);
  iw_inj : ∀ s s', 0 ≤ s < NSLOT → 0 ≤ s' < NSLOT → slot v x s ≠ 0 → slot v x s = slot v x s' → s = s';
}.

(** What an operation on the file [x] may do: from blocks [v] and inode [x] to
    [v'] and [x'].  The file keeps its blocks and may get some that were free;
    the blocks of other files, and the blocks before the bitmap, stay as they
    are. *)
Record evolved (v : Z → list Z) (x : inode) (v' : Z → list Z) (x' : inode) : Prop := {
  ev_ok : fs_ok sb v';
  ev_wf : inode_wf v' x';
  ev_inode : ∃ addrs, x' = set_i_addrs addrs x;
  ev_used : ∀ b, 0 ≤ b < sb_size sb → used sb v b = true → used sb v' b = true;
  ev_slots : ∀ s, 0 ≤ s < NSLOT → slot v x s ≠ 0 → slot v' x' s = slot v x s;
  ev_fresh : ∀ s, 0 ≤ s < NSLOT → slot v x s = 0 → slot v' x' s ≠ 0 → used sb v (slot v' x' s) = false;
  ev_other : ∀ b, data_block v b → ¬ owns v x b → v' b = v b;
  ev_meta : ∀ b, b < sb_bmapstart sb → v' b = v b;
}.

(** Allocating blocks for it: the contents stay the same, new blocks are
    zero. *)
Record grown (v : Z → list Z) (x : inode) (v' : Z → list Z) (x' : inode) : Prop := {
  gr_evolved : evolved v x v' x';
  gr_data : ∀ s, 0 ≤ s < NSLOT → s ≠ 12 → slot v x s ≠ 0 → v' (slot v x s) = v (slot v x s);
  gr_new : ∀ s, 0 ≤ s < NSLOT → s ≠ 12 → slot v x s = 0 → slot v' x' s ≠ 0 →
    v' (slot v' x' s) = zero_block;
}.

Lemma NSLOT_269 : NSLOT = 269.
Proof. done. Qed.

Lemma owns_slot v x s : 0 ≤ s < NSLOT → slot v x s ≠ 0 → owns v x (slot v x s).
Proof. intros. split; [done|]. by exists s. Qed.

Lemma evolved_refl v x : fs_ok sb v → inode_wf v x → evolved v x v x.
Proof. intros. split; try done. by exists (i_addrs x); destruct x. Qed.

Lemma grown_refl v x : fs_ok sb v → inode_wf v x → grown v x v x.
Proof. intros. split; try done. by apply evolved_refl. Qed.

Lemma owns_evolved v x v' x' b : evolved v x v' x' → data_block v b → owns v' x' b → owns v x b.
Proof.
  intros G Hd (Hb & s & Hs & E). destruct (decide (slot v x s = 0)) as [E0|E0].
  - subst b. pose proof (ev_fresh _ _ _ _ G s Hs E0 Hb). destruct Hd. congruence.
  - rewrite (ev_slots _ _ _ _ G s Hs E0) in E. subst b. by apply owns_slot.
Qed.

Lemma data_evolved v x v' x' b : 0 ≤ datastart sb → evolved v x v' x' → data_block v b → data_block v' b.
Proof. intros H0 G [Hr Hu]. split; [done|]. apply (ev_used _ _ _ _ G); [lia|done]. Qed.

Lemma evolved_trans v0 x0 v1 x1 v2 x2 :
  0 ≤ datastart sb → evolved v0 x0 v1 x1 → evolved v1 x1 v2 x2 → evolved v0 x0 v2 x2.
Proof.
  intros H0 G1 G2. pose proof G1 as [? W1 [a1 E1] U1 S1 F1 O1 M1].
  pose proof G2 as [? W2 [a2 E2] U2 S2 F2 O2 M2]. split; try done.
  - exists a2. subst x2 x1. done.
  - auto.
  - intros s Hs Hn. rewrite S2 by (done || by rewrite S1). auto.
  - intros s Hs E Hn. destruct (decide (slot v1 x1 s = 0)) as [E'|E'].
    + specialize (F2 s Hs E' Hn). destruct (used sb v0 (slot v2 x2 s)) eqn:Eu; [|done].
      rewrite U1 in F2; [done | | done]. destruct (iw_data _ _ W2 s Hs Hn). lia.
    + rewrite S2 in * by done. by apply F1.
  - intros b Hb Hn. rewrite O2; [by apply O1 | by eapply data_evolved |].
    intros Ho. apply Hn. by eapply owns_evolved.
  - intros b Hb. by rewrite M2, M1.
Qed.

Lemma grown_trans v0 x0 v1 x1 v2 x2 :
  0 ≤ datastart sb → grown v0 x0 v1 x1 → grown v1 x1 v2 x2 → grown v0 x0 v2 x2.
Proof.
  intros H0 [V1 D1 N1] [V2 D2 N2]. pose proof (ev_slots _ _ _ _ V1) as S1. pose proof (ev_slots _ _ _ _ V2) as S2.
  split; [by eapply evolved_trans|..].
  - intros s Hs Hne Hn. specialize (D2 s Hs Hne). rewrite S1 in D2 by done. rewrite D2 by done. auto.
  - intros s Hs Hne E Hn. destruct (decide (slot v1 x1 s = 0)) as [E'|E'].
    + by apply N2.
    + rewrite S2 by done. rewrite D2 by done. by apply N1.
Qed.

(** Allocating blocks changes no byte of the file, nor the blocks of another
    file. *)
Lemma bslot_range bn : 0 ≤ bn < MAXFILE → 0 ≤ bslot bn < NSLOT ∧ bslot bn ≠ 12.
Proof.
  unfold bslot. change NSLOT with 269. change MAXFILE with 268. change NDIRECT with 12.
  intros. case_if; bool_to_prop; lia.
Qed.

Lemma grown_fbyte v x v' x' o :
  grown v x v' x' → 0 ≤ o < MAXFILE * BSIZE → fbyte v' x' o = fbyte v x o.
Proof.
  intros G Ho. destruct (bslot_range (o / BSIZE)) as [Hs Hne].
  { change MAXFILE with 268 in *. change BSIZE with 1024 in *. zlia. }
  unfold fbyte, baddr. destruct (slot v x (bslot (o / BSIZE)) =? 0) eqn:E; bool_to_prop.
  - destruct (_ =? 0) eqn:E'; bool_to_prop; [done|].
    rewrite (gr_new _ _ _ _ G) by done. unfold zero_block.
    rewrite lookup_replicate_2; [done|]. change BSIZE with 1024. zlia.
  - rewrite (ev_slots _ _ _ _ (gr_evolved _ _ _ _ G)) by done. rewrite (proj2 (Z.eqb_neq _ _) E).
    by rewrite (gr_data _ _ _ _ G).
Qed.

(** Another file [y], none of whose blocks belongs to [x]. *)
Definition apart (v : Z → list Z) (x y : inode) : Prop := ∀ b, owns v x b → ¬ owns v y b.

(** What a file is made of depends on its own blocks only. *)
Lemma slot_ext v v' y s : (∀ b, owns v y b → v' b = v b) → slot v' y s = slot v y s.
Proof.
  intros E. unfold slot. destruct (s <=? 12); [done|]. destruct (indirect y =? 0) eqn:E0; [done|].
  bool_to_prop. rewrite E; [done|]. split; [done|]. exists 12. split; [done|]. done.
Qed.

Lemma fbyte_ext v v' y o :
  0 ≤ o < MAXFILE * BSIZE → (∀ b, owns v y b → v' b = v b) → fbyte v' y o = fbyte v y o.
Proof.
  intros Ho E. destruct (bslot_range (o / BSIZE)) as [Hs Hne].
  { change MAXFILE with 268 in *. change BSIZE with 1024 in *. zlia. }
  unfold fbyte, baddr. rewrite (slot_ext v v') by done.
  destruct (_ =? 0) eqn:E0; [done|]. bool_to_prop. rewrite E; [done|]. by apply owns_slot.
Qed.

Lemma inode_wf_ext v v' y :
  inode_wf v y → (∀ b, owns v y b → v' b = v b ∧ used sb v' b = true) → inode_wf v' y.
Proof.
  intros [Hl Hd Hi] E. assert (∀ s, slot v' y s = slot v y s) as Es.
  { intros s. apply slot_ext. intros b Hb. by apply E. }
  split; [done| |].
  - intros s Hs Hn. rewrite Es in *. split; [by apply Hd|]. apply E. by apply owns_slot.
  - intros s s' Hs Hs' Hn. rewrite !Es in *. by apply Hi.
Qed.

Lemma evolved_apart v x v' x' y :
  0 ≤ datastart sb → evolved v x v' x' → inode_wf v y → apart v x y →
  inode_wf v' y ∧ apart v' x' y ∧ ∀ o, 0 ≤ o < MAXFILE * BSIZE → fbyte v' y o = fbyte v y o.
Proof.
  intros H0 G Wy Ha.
  assert (Hown : ∀ b, owns v y b → data_block v b ∧ v' b = v b).
  { intros b Hb. pose proof Hb as (Hb0 & s & Hs & <-). assert (data_block v (slot v y s)) as Hd by (by apply Wy).
    split; [done|]. apply (ev_other _ _ _ _ G); [done|]. intros Hx. by apply (Ha _ Hx). }
  assert (Hs : ∀ s, slot v' y s = slot v y s).
  { intros s. apply slot_ext. intros b Hb. by apply Hown. }
  split_and!.
  - apply (inode_wf_ext v); [done|]. intros b Hb. split; [by apply Hown|].
    apply (data_evolved _ _ _ _ _ H0 G). by apply Hown.
  - intros b Hx Hy. assert (owns v y b) as Hy'.
    { destruct Hy as (Hb & s & Hr & <-). rewrite Hs in *. by apply owns_slot. }
    apply (Ha b); [|done]. apply (owns_evolved _ _ _ _ _ G); [by apply Hown|done].
  - intros o Ho. apply fbyte_ext; [done|]. intros b Hb. by apply Hown.
Qed.
End slots.

(** ** Allocating a block for one slot *)

(** Block [b], which was free, is in use and zero; all else is as before. *)
Record allocated (sb : superblock) (v : Z → list Z) (b : Z) (v' : Z → list Z) : Prop := {
  al_free : datastart sb ≤ b < sb_size sb ∧ used sb v b = false;
  al_ok : fs_ok sb v';
  al_used : ∀ a, 0 ≤ a < sb_size sb → used sb v' a = bool_decide (a = b) || used sb v a;
  al_other : ∀ a, (datastart sb ≤ a ∧ a ≠ b) ∨ a < sb_bmapstart sb → v' a = v a;
  al_new : v' b = zero_block;
}.

Section alloc.
  Context {sb : superblock} {start size : Z} (Hlay : layout sb start size).
  Context {v : Z → list Z} (Hok : fs_ok sb v).

Section view.
  Context {b : Z} (Hb : datastart sb ≤ b < sb_size sb).

Lemma alloc_view_other a : (datastart sb ≤ a ∧ a ≠ b) ∨ a < sb_bmapstart sb → alloc_view sb v b a = v a.
Proof.
  intros Ha. pose proof (datastart_range Hlay). pose proof (BBLOCK_range Hlay b ltac:(lia)).
  unfold alloc_view, set_used, mark. rewrite !fn_lookup_insert_ne by lia. done.
Qed.

Lemma alloc_view_new : alloc_view sb v b b = zero_block.
Proof. apply fn_lookup_insert. Qed.

Lemma alloc_view_used a :
  0 ≤ a < sb_size sb → used sb (alloc_view sb v b) a = bool_decide (a = b) || used sb v a.
Proof.
  intros Ha. pose proof (datastart_range Hlay). pose proof (BBLOCK_range Hlay a Ha).
  rewrite <- used_set_used by (apply Hok || lia). unfold used, alloc_view.
  by rewrite fn_lookup_insert_ne by lia.
Qed.

Lemma alloc_view_ok : fs_ok sb (alloc_view sb v b).
Proof.
  split.
  - intros a. unfold alloc_view. destruct (decide (a = b)) as [->|].
    + by rewrite fn_lookup_insert.
    + rewrite fn_lookup_insert_ne by done. apply mark_length, Hok.
  - intros a Ha. rewrite alloc_view_used by lia. rewrite (fo_meta _ _ Hok) by done. apply orb_true_r.
Qed.

Lemma alloc_view_allocated : used sb v b = false → allocated sb v b (alloc_view sb v b).
Proof.
  intros Hu. split; [done | apply alloc_view_ok | apply alloc_view_used | apply alloc_view_other | apply alloc_view_new].
Qed.
End view.

(** Blocks change in data only: the bitmap is the same. *)
Lemma used_data (w : Z → list Z) a d b :
  datastart sb ≤ a → 0 ≤ b < sb_size sb → used sb (<[a := d]> w) b = used sb w b.
Proof.
  intros Ha Hb. pose proof (BBLOCK_range Hlay b Hb). unfold used.
  by rewrite fn_lookup_insert_ne by lia.
Qed.

Lemma fs_ok_data w a d :
  fs_ok sb w → datastart sb ≤ a → length d = 1024%nat → fs_ok sb (<[a := d]> w).
Proof.
  intros [Hl Hm] Ha Hd. split.
  - intros b. destruct (decide (b = a)) as [->|]; [by rewrite fn_lookup_insert|].
    by rewrite fn_lookup_insert_ne.
  - intros b Hb. pose proof (datastart_range Hlay). rewrite used_data by lia. auto.
Qed.

Lemma grown_slot x x' v' b s0 :
  inode_wf sb v x → datastart sb ≤ b < sb_size sb → used sb v b = false →
  fs_ok sb v' → length (i_addrs x') = 13%nat → (∃ addrs, x' = set_i_addrs addrs x) →
  0 ≤ s0 < NSLOT → slot v x s0 = 0 →
  (∀ s, 0 ≤ s < NSLOT → slot v' x' s = if decide (s = s0) then b else slot v x s) →
  (∀ a, 0 ≤ a < sb_size sb → used sb v' a = bool_decide (a = b) || used sb v a) →
  (∀ a, datastart sb ≤ a → a ≠ b → indirect x = 0 ∨ a ≠ indirect x → v' a = v a) →
  (∀ a, a < sb_bmapstart sb → v' a = v a) → v' b = zero_block →
  grown sb v x v' x'.
Proof.
  intros W Hb Hu Hok' Hl Hx Hs0 E0 Hs Hused Hother Hmeta Hzero.
  pose proof (datastart_range Hlay) as Hds.
  assert (Hnb : ∀ s, 0 ≤ s < NSLOT → slot v x s ≠ b).
  { intros s Hs' E. destruct (iw_data _ _ _ W s Hs'); [lia|]. congruence. }
  assert (Hdata : ∀ s, 0 ≤ s < NSLOT → slot v x s ≠ 0 → data_block sb v (slot v x s)) by apply W.
  split; [split; try done|..].
  - split; [done| |].
    + intros s Hs'. rewrite Hs by done. case_decide as Ed; intros Hn.
      * split; [done|]. rewrite Hused by lia. by rewrite bool_decide_true.
      * destruct (Hdata s Hs' Hn) as [? Hu']. split; [done|]. rewrite Hused by lia. rewrite Hu'. apply orb_true_r.
    + intros s s' Hs1 Hs2. rewrite !Hs by done. repeat case_decide; intros Hn E; subst; try done.
      * by destruct (Hnb s' Hs2).
      * by destruct (Hnb s Hs1).
      * by apply (iw_inj _ _ _ W).
  - intros a Ha Hua. rewrite Hused, Hua by done. apply orb_true_r.
  - intros s Hs' Hn. rewrite Hs by done. case_decide; [by subst|done].
  - intros s Hs' E. rewrite Hs by done. by case_decide.
  - intros a [Ha Hua] Hno. apply Hother; [lia | congruence |].
    destruct (decide (indirect x = 0)) as [|Hi]; [by left|right].
    intros ->. apply Hno. split; [done|]. exists 12. by split.
  - intros s Hs' Hne Hn. destruct (Hdata s Hs' Hn) as [? _].
    apply Hother; [lia | auto |]. destruct (decide (indirect x = 0)) as [|Hi]; [by left|right].
    intros E. apply Hne. apply (iw_inj _ _ _ W s 12); try done.
  - intros s Hs' Hne E. rewrite Hs by done. by case_decide.
Qed.

Lemma slot_direct (w : Z → list Z) x s i b :
  length (i_addrs x) = 13%nat → 0 ≤ i < 12 → 0 ≤ s →
  slot w (set_i_addrs (<[Z.to_nat i := b]> (i_addrs x)) x) s = if decide (s = i) then b else slot w x s.
Proof.
  intros Hl Hi Hs. unfold slot, indirect. cbn.
  rewrite (list_lookup_insert_ne _ _ 12) by lia. destruct (s <=? 12) eqn:E; bool_to_prop; case_decide; subst.
  - by rewrite list_lookup_insert_eq by lia.
  - by rewrite list_lookup_insert_ne by lia.
  - lia.
  - done.
Qed.

Lemma blk_get_zero n off : blk_get n off zero_block = 0.
Proof.
  unfold blk_get, zero_block. rewrite drop_replicate, take_replicate.
  generalize (n `min` (1024 - Z.to_nat off))%nat. intros m. induction m as [|m IH]; simpl; [done|]. by rewrite IH.
Qed.

Section grow.
  Context {x : inode} {b : Z} {v' : Z → list Z} (W : inode_wf sb v x) (A : allocated sb v b v').

(** Exactly one slot changes. *)
Lemma slots_direct i s :
  0 ≤ i < 12 → 0 ≤ s < NSLOT →
  slot v' (set_i_addrs (<[Z.to_nat i := b]> (i_addrs x)) x) s = if decide (s = i) then b else slot v x s.
Proof.
  intros Hi Hs. pose proof A as [[Hb Hu] Hok' Hused Hoth Hnew]. pose proof (iw_len _ _ _ W) as Hl.
  rewrite slot_direct by lia. case_decide; [done|].
  apply slot_ext. intros a (Ha & s' & Hs' & <-). apply Hoth.
  destruct (iw_data _ _ _ W s' Hs' Ha). left. split; [lia|]. congruence.
Qed.

Lemma slots_indirect s :
  indirect x = 0 → 0 ≤ s < NSLOT →
  slot v' (set_i_addrs (<[12%nat := b]> (i_addrs x)) x) s = if decide (s = 12) then b else slot v x s.
Proof.
  intros E0 Hs. pose proof A as [[Hb Hu] Hok' Hused Hoth Hnew]. pose proof (iw_len _ _ _ W) as Hl.
  pose proof (datastart_range Hlay). unfold slot, indirect in *. cbn. rewrite list_lookup_insert_eq by lia.
  change (default 0 (Some b)) with b.
  destruct (s <=? 12) eqn:E; bool_to_prop; case_decide; subst; try lia.
  - by rewrite list_lookup_insert_eq by lia.
  - by rewrite list_lookup_insert_ne by lia.
  - rewrite E0, (proj2 (Z.eqb_neq b 0)), Hnew, blk_get_zero by lia. done.
Qed.

Section entry.
  Context {j : Z} {v'' : Z → list Z} (Hi : indirect x ≠ 0) (Hj : 0 ≤ j < NINDIRECT).
  Context (Ei : v'' (indirect x) = blk_put 4 (4 * j) b (v' (indirect x))).
  Context (Ea : ∀ a, a ≠ indirect x → v'' a = v' a).

Lemma entry_block : v' (indirect x) = v (indirect x) ∧ indirect x ≠ b ∧ data_block sb v (indirect x).
Proof.
  pose proof A as [[Hb Hu] Hok' Hused Hoth Hnew].
  assert (data_block sb v (indirect x)) as [Hd Hdu] by (by apply (iw_data _ _ _ W 12)).
  assert (indirect x ≠ b) by congruence. split_and!; [apply Hoth; left; lia | done | done].
Qed.

Lemma slots_entry s :
  0 ≤ s < NSLOT → slot v'' x s = if decide (s = 13 + j) then b else slot v x s.
Proof.
  intros Hs. pose proof A as [[Hb Hu] Hok' Hused Hoth Hnew]. destruct entry_block as (E1 & _ & _).
  pose proof (datastart_range Hlay). pose proof (lo_size _ _ _ Hlay) as Hsz.
  pose proof (fo_len _ _ Hok (indirect x)) as Hlen. change NINDIRECT with 256 in Hj.
  rewrite NSLOT_269 in Hs. unfold slot. destruct (s <=? 12) eqn:E; bool_to_prop.
  { by rewrite decide_False by lia. }
  rewrite (proj2 (Z.eqb_neq _ _)) by done. rewrite Ei, E1. case_decide as Ed.
  - subst s. replace (13 + j - 13) with j by lia. rewrite blk_get_put by (rewrite ?Hlen; lia).
    change (256 ^ Z.of_nat 4) with (2 ^ 32). apply Z.mod_small. lia.
  - apply blk_get_put_ne; rewrite ?Hlen; lia.
Qed.

Lemma grown_entry : blk_get 4 (4 * j) (v (indirect x)) = 0 → grown sb v x v'' x.
Proof.
  intros E0. pose proof A as [[Hb Hu] Hok' Hused Hoth Hnew]. destruct entry_block as (E1 & Hne & [Hd Hdu]).
  pose proof (datastart_range Hlay). pose proof (fo_len _ _ Hok (indirect x)) as Hlen.
  pose proof (iw_len _ _ _ W) as Hl. change NINDIRECT with 256 in Hj.
  assert (Hu'' : ∀ a, 0 ≤ a < sb_size sb → used sb v'' a = used sb v' a).
  { intros a Ha. pose proof (BBLOCK_range Hlay a Ha). unfold used. by rewrite Ea by lia. }
  apply (grown_slot x _ _ b (13 + j)); try done.
  - split.
    + intros a. destruct (decide (a = indirect x)) as [->|]; [|rewrite Ea by done; apply Hok'].
      rewrite Ei, E1, blk_put_length; lia.
    + intros a Ha. rewrite Hu'' by lia. by apply Hok'.
  - exists (i_addrs x). by destruct x.
  - rewrite NSLOT_269. lia.
  - unfold slot. rewrite (proj2 (Z.leb_gt _ _)), (proj2 (Z.eqb_neq _ _)) by lia.
    by replace (13 + j - 13) with j by lia.
  - apply slots_entry.
  - intros a Ha. rewrite Hu'' by lia. by apply Hused.
  - intros a Ha Hne' Hnot. rewrite Ea by naive_solver. apply Hoth. auto.
  - intros a Ha. rewrite Ea by lia. apply Hoth. auto.
  - by rewrite Ea.
Qed.
End entry.

Lemma grown_direct i :
  0 ≤ i < 12 → default 0 (i_addrs x !! Z.to_nat i) = 0 →
  grown sb v x v' (set_i_addrs (<[Z.to_nat i := b]> (i_addrs x)) x).
Proof.
  intros Hi E0. pose proof A as [[Hb Hu] Hok' Hused Hoth Hnew]. pose proof (iw_len _ _ _ W) as Hl.
  apply (grown_slot x _ _ b i); try done; cbn.
  - by rewrite length_insert.
  - eauto.
  - rewrite NSLOT_269. lia.
  - unfold slot. by rewrite (proj2 (Z.leb_le _ _)) by lia.
  - intros s Hs. by apply slots_direct.
  - intros. apply Hoth. auto.
  - intros. apply Hoth. auto.
Qed.

Lemma grown_indirect :
  indirect x = 0 → grown sb v x v' (set_i_addrs (<[12%nat := b]> (i_addrs x)) x).
Proof.
  intros E0. pose proof A as [[Hb Hu] Hok' Hused Hoth Hnew]. pose proof (iw_len _ _ _ W) as Hl.
  apply (grown_slot x _ _ b 12); try done; cbn.
  - by rewrite length_insert.
  - eauto.
  - intros s Hs. by apply slots_indirect.
  - intros. apply Hoth. auto.
  - intros. apply Hoth. auto.
Qed.
End grow.
End alloc.

(** ** The room a file operation needs in the log

    The disk [mkfs] makes has one bitmap block.  [cost L x] counts the blocks
    in the log, and the bitmap block and the indirect block of the file if
    they are not yet among them: the operations on one file record these two
    at most once. *)
Definition cost (sb : superblock) (L : list Z) (x : inode) : Z :=
  Z.of_nat (length L) + (if decide (sb_bmapstart sb ∈ L) then 0 else 1)
  + (if decide (indirect x ≠ 0 ∧ indirect x ∈ L) then 0 else 1).

Section cost.
  Context {sb : superblock}.

Lemma cost_length L x : Z.of_nat (length L) ≤ cost sb L x ≤ Z.of_nat (length L) + 2.
Proof. unfold cost. repeat case_decide; lia. Qed.

Lemma absorbed_len L b :
  Z.of_nat (length (absorbed L b)) = Z.of_nat (length L) + (if decide (b ∈ L) then 0 else 1).
Proof. unfold absorbed. case_decide; [lia|]. rewrite length_app. simpl. lia. Qed.

Lemma cost_absorbed L x b :
  cost sb (absorbed L b) x ≤ cost sb L x + 1 ∧
  (b = sb_bmapstart sb ∨ (b ≠ 0 ∧ b = indirect x) ∨ b ∈ L → cost sb (absorbed L b) x ≤ cost sb L x).
Proof.
  unfold cost. rewrite absorbed_len.
  pose proof (absorbed_sub L b (sb_bmapstart sb)). pose proof (absorbed_sub L b (indirect x)).
  split; [|intros Hb]; repeat case_decide; try lia; exfalso; naive_solver.
Qed.

Lemma absorbed_old L b : b ∈ L → absorbed L b = L.
Proof. intros. unfold absorbed. by rewrite decide_True. Qed.

Context (Hone : sb_size sb ≤ BPB).

Lemma BBLOCK_one b : 0 ≤ b < sb_size sb → BBLOCK b sb = sb_bmapstart sb.
Proof. intros Hb. unfold BBLOCK. rewrite BPB_8192 in *. rewrite Z.div_small; lia. Qed.

(** A new data block and the bitmap. *)
Lemma cost_alloc L x b :
  0 ≤ b < sb_size sb → cost sb (alloc_log sb L b) x ≤ cost sb L x + 1.
Proof.
  intros Hb. unfold alloc_log. rewrite BBLOCK_one by done.
  destruct (cost_absorbed (absorbed L (sb_bmapstart sb)) x b) as [H1 _].
  destruct (cost_absorbed L x (sb_bmapstart sb)) as [_ H2]. specialize (H2 ltac:(by left)). lia.
Qed.

(** A new indirect block. *)
Lemma cost_alloc_indirect L x x' b :
  0 ≤ b < sb_size sb → b ≠ 0 → indirect x = 0 → indirect x' = b →
  cost sb (alloc_log sb L b) x' ≤ cost sb L x.
Proof.
  intros Hb Hn E0 E'. unfold cost, alloc_log. rewrite BBLOCK_one, !absorbed_len, E', E0 by done.
  pose proof (absorbed_sub (absorbed L (sb_bmapstart sb)) b (sb_bmapstart sb)).
  pose proof (absorbed_sub (absorbed L (sb_bmapstart sb)) b b).
  pose proof (absorbed_sub L (sb_bmapstart sb) (sb_bmapstart sb)).
  repeat case_decide; try lia; exfalso; naive_solver.
Qed.
End cost.

(** ** [bmap] *)
Section bmap.
  Context (pid start size : Z) (sb : superblock) (k : Z) (dk : disk) (Hlay : layout sb start size).
  Context (ls : list lockid) (Hls : fs_free ls).
  Abbreviation wp := (wp pid start size sb k dk).

Lemma wp_iaddr ip i x Q H L v tbl :
  tbl !! ip = Some x → Q (default 0 (i_addrs x !! Z.to_nat i)) (Ast ls H L v tbl) →
  wp (iaddr ip i) Q (Ast ls H L v tbl).
Proof. intros E HQ. apply wp_ifield. cbn. by rewrite E. Qed.

Lemma wp_set_iaddr ip i a x Q H L v tbl :
  tbl !! ip = Some x →
  Q tt (Ast ls H L v (<[ip := set_i_addrs (<[Z.to_nat i := a]> (i_addrs x)) x]> tbl)) →
  wp (set_iaddr ip i a) Q (Ast ls H L v tbl).
Proof.
  intros E HQ. apply wp_iset. by rewrite (list_alter_insert _ tbl ip x) by done.
Qed.

(** A block that is there. *)
Lemma wp_bmap_hit ip bn x Q H L v tbl :
  tbl !! ip = Some x → i_dev x = ROOTDEV → 0 ≤ bn < MAXFILE → baddr v x bn ≠ 0 →
  (length H + length L < 30)%nat → (∀ h, h ∈ H → h_block h ≠ indirect x) →
  Q (baddr v x bn) (Ast ls H L v tbl) → wp (bmap ip bn) Q (Ast ls H L v tbl).
Proof.
  intros Ex Hdev Hbn Ha Hroom HH HQ. unfold bmap. apply wp_bind, wp_ifield. cbn [a_itab]. rewrite Ex.
  cbn [default]. unfold baddr, bslot, slot in *. change MAXFILE with 268 in Hbn.
  change NDIRECT with 12 in *. change NINDIRECT with 256. cbn [from_option id].
  destruct (bn <? 12) eqn:E1; bool_to_prop.
  - rewrite (proj2 (Z.leb_le _ _)) in * by lia. apply wp_bind, (wp_iaddr _ _ x); [done|].
    rewrite (proj2 (Z.eqb_neq _ _)) by done. by apply wp_ret.
  - rewrite (proj2 (Z.leb_gt _ _)) in * by lia. rewrite (proj2 (Z.ltb_lt _ _)) by lia.
    destruct (indirect x =? 0) eqn:E0; [done|]. bool_to_prop.
    apply wp_bind, (wp_iaddr _ _ x); [done|]. fold (indirect x). change (Z.to_nat 12) with 12%nat. fold (indirect x).
    rewrite (proj2 (Z.eqb_neq _ _)) by done. apply wp_bind, wp_ret.
    rewrite (proj2 (Z.eqb_neq _ _)) by done. rewrite Hdev.
    apply wp_bind, wp_bread; [apply Hls | done | done |]. intros i. apply wp_bind, wp_bdata.
    replace (bn + 1 - 13) with (bn - 12) in * by lia.
    rewrite (proj2 (Z.eqb_neq _ _)) by done. apply wp_bind, wp_ret.
    apply wp_bind, wp_brelse; [apply Hls|]. by apply wp_ret.
Qed.

(** Every block of the disk is in use. *)
Definition full (v : Z → list Z) : Prop := ∀ b, 0 ≤ b < sb_size sb → used sb v b = true.

Context (Hk : 1 ≤ k) (Hone : sb_size sb ≤ BPB).
Abbreviation cost := (cost sb).

Lemma room_cost n L x : cost L x + n < Z.min LOGSIZE size → room size n L.
Proof. pose proof (@cost_length sb L x). unfold room. lia. Qed.

(** The first part of the indirect case: make sure there is an indirect block. *)
Lemma wp_bmap_indirect ip x Q L v tbl :
  tbl !! ip = Some x → fs_ok sb v → inode_wf sb v x → cost L x + 2 < Z.min LOGSIZE size →
  (∀ L' v' x', grown sb v x v' x' → (indirect x' = 0 → full v') → cost L' x' ≤ cost L x →
     Q (indirect x') (Ast ls [] L' v' (<[ip := x']> tbl))) →
  wp (iaddr ip NDIRECT) (λ addr, wp
     (if addr =? 0 then
        addr ← balloc ROOTDEV;
        (if addr =? 0 then ret tt else set_iaddr ip NDIRECT addr) ;;
        ret addr
      else ret addr) Q) (Ast ls [] L v tbl).
Proof.
  intros Ex Hok W Hc HQ. pose proof (datastart_range Hlay). apply (wp_iaddr _ _ x); [done|].
  change (Z.to_nat NDIRECT) with 12%nat. fold (indirect x). case_if; bool_to_prop.
  - apply wp_bind, wp_balloc; try done; [simpl; lia | by eapply room_cost | by intros h ?%elem_of_nil | |].
    + intros Hf. apply wp_bind, wp_ret, wp_ret. rewrite <- E, <- (list_insert_id tbl ip x Ex).
      apply HQ; [by apply grown_refl | done | lia].
    + intros b Hb Hu. rewrite (proj2 (Z.eqb_neq _ _)) by lia.
      apply wp_bind, (wp_set_iaddr _ _ _ x); [done|]. apply wp_ret.
      change (Z.to_nat NDIRECT) with 12%nat. set (x' := set_i_addrs _ x).
      assert (indirect x' = b) as E'.
      { unfold indirect. cbn. rewrite list_lookup_insert_eq; [done|]. rewrite (iw_len _ _ _ W). lia. }
      specialize (HQ (alloc_log sb L b) (alloc_view sb v b) x'). rewrite E' in HQ. apply HQ.
      * eapply grown_indirect; try done. by eapply alloc_view_allocated.
      * lia.
      * apply cost_alloc_indirect; lia || done.
  - apply wp_ret. rewrite <- (list_insert_id tbl ip x Ex).
    apply HQ; [by apply grown_refl | done | lia].
Qed.

Lemma baddr_direct v x bn : 0 ≤ bn < 12 → baddr v x bn = default 0 (i_addrs x !! Z.to_nat bn).
Proof.
  intros. unfold baddr, bslot, slot. change NDIRECT with 12.
  by rewrite (proj2 (Z.ltb_lt _ _)), (proj2 (Z.leb_le _ _)) by lia.
Qed.

Lemma baddr_indirect v x bn : 12 ≤ bn →
  baddr v x bn = if indirect x =? 0 then 0 else blk_get 4 (4 * (bn - NDIRECT)) (v (indirect x)).
Proof.
  intros. unfold baddr, bslot, slot. change NDIRECT with 12.
  rewrite (proj2 (Z.ltb_ge _ _)), (proj2 (Z.leb_gt _ _)) by lia. by replace (bn + 1 - 13) with (bn - 12) by lia.
Qed.

(** What [bmap] leaves behind: from log [L], blocks [v] and inode [x]. *)
Definition mapped (bn : Z) (L : list Z) (v : Z → list Z) (x : inode)
    (L' : list Z) (v' : Z → list Z) (x' : inode) : Prop :=
  grown sb v x v' x' ∧ (baddr v' x' bn = 0 → full v') ∧ cost L' x' ≤ cost L x + 1 ∧
  (baddr v' x' bn ≠ 0 → cost (absorbed L' (baddr v' x' bn)) x' ≤ cost L x + 1).

Lemma mapped_refl bn L v x :
  fs_ok sb v → inode_wf sb v x → (baddr v x bn = 0 → full v) → mapped bn L v x L v x.
Proof.
  intros. split; [by apply grown_refl|]. split; [done|]. split; [lia|]. intros _. apply cost_absorbed.
Qed.

(** A direct block. *)
Lemma wp_bmap_direct ip bn x Q L v tbl :
  tbl !! ip = Some x → fs_ok sb v → inode_wf sb v x → 0 ≤ bn < 12 →
  cost L x + 2 < Z.min LOGSIZE size →
  (∀ L' v' x', mapped bn L v x L' v' x' → Q (baddr v' x' bn) (Ast ls [] L' v' (<[ip := x']> tbl))) →
  wp (addr ← iaddr ip bn;
      if addr =? 0 then
        addr ← balloc ROOTDEV;
        if addr =? 0 then ret 0 else set_iaddr ip bn addr ;; ret addr
      else ret addr) Q (Ast ls [] L v tbl).
Proof.
  intros Ex Hok W Hbn Hc HQ. pose proof (datastart_range Hlay) as Hds. pose proof (iw_len _ _ _ W) as Hlen.
  apply wp_bind, (wp_iaddr _ _ x); [done|]. rewrite <- (baddr_direct v) by done. case_if; bool_to_prop.
  - apply wp_bind, wp_balloc; try done; [simpl; lia | by eapply room_cost | by intros h ?%elem_of_nil | |].
    + intros Hf. change (0 =? 0) with true. apply wp_ret.
      rewrite <- E, <- (list_insert_id tbl ip x Ex). by apply HQ, mapped_refl.
    + intros b Hb Hu. rewrite (proj2 (Z.eqb_neq _ _)) by lia.
      apply wp_bind, (wp_set_iaddr _ _ _ x); [done|]. apply wp_ret. set (x' := set_i_addrs _ x).
      assert (baddr (alloc_view sb v b) x' bn = b) as E'.
      { rewrite baddr_direct by done. cbn. rewrite list_lookup_insert_eq; [done|]. lia. }
      assert (indirect x' = indirect x) as Ei.
      { unfold indirect. cbn. by rewrite list_lookup_insert_ne by lia. }
      assert (Hcost : cost (alloc_log sb L b) x' ≤ cost L x + 1).
      { transitivity (cost (alloc_log sb L b) x); [unfold FsFile.cost; rewrite Ei; lia | apply cost_alloc; lia]. }
      specialize (HQ (alloc_log sb L b) (alloc_view sb v b) x'). rewrite E' in HQ. apply HQ. unfold mapped. rewrite E'. split_and!; [|lia|done|].
      * rewrite baddr_direct in E by done. eapply grown_direct; try done. by eapply alloc_view_allocated.
      * intros _. rewrite absorbed_old; [done|]. apply absorbed_sub. by right.
  - apply wp_ret. rewrite <- (list_insert_id tbl ip x Ex). by apply HQ, mapped_refl.
Qed.

(** An entry of the indirect block, which is in hand. *)
Lemma wp_bmap_entry i x bn Q L v tbl :
  fs_ok sb v → inode_wf sb v x → 12 ≤ bn < MAXFILE → indirect x ≠ 0 → baddr v x bn = 0 →
  cost L x + 2 < Z.min LOGSIZE size →
  (∀ L' v', mapped bn L v x L' v' x → Q (baddr v' x bn) (Ast ls [Handle i (indirect x) false] L' v' tbl)) →
  wp (addr ← balloc ROOTDEV;
      (if nonzero addr then bset (blk_put 4 (4 * (bn - NDIRECT)) addr) i ;; log_write i else ret tt) ;;
      ret addr) Q (Ast ls [Handle i (indirect x) false] L v tbl).
Proof.
  intros Hok W Hbn Hi E0 Hc HQ. change MAXFILE with 268 in Hbn. pose proof (datastart_range Hlay) as Hds.
  assert (Hd : data_block sb v (indirect x)) by (by apply (iw_data _ _ _ W 12)).
  apply wp_bind, wp_balloc; try done.
  - by eapply room_cost.
  - intros h ->%list_elem_of_singleton. destruct Hd as [? ?]. cbn. split; [lia|done].
  - intros Hf. apply wp_bind, wp_ret, wp_ret. rewrite <- E0. by apply HQ, mapped_refl.
  - intros b Hb Hu. unfold nonzero. rewrite (proj2 (Z.eqb_neq b 0)) by lia. cbn [negb].
    destruct (meta_home Hlay (indirect x)) as [? ?]; [destruct Hd; lia|].
    pose proof (@cost_alloc sb Hone L x b ltac:(lia)) as Hca.
    apply wp_bind, wp_bind, wp_bset, wp_log_write; try done;
      [apply Hls | apply Hls | eapply (room_cost 1 _ x); lia |].
    apply wp_ret. set (v2 := <[indirect x := _]> _). set (L2 := absorbed (alloc_log sb L b) (indirect x)).
    assert (Hb2 : baddr v2 x bn = b).
    { pose proof (fo_len _ _ (alloc_view_ok Hlay Hok Hb) (indirect x)). pose proof (lo_size _ _ _ Hlay).
      rewrite baddr_indirect, (proj2 (Z.eqb_neq _ _)) by done || lia. unfold v2. rewrite fn_lookup_insert.
      rewrite blk_get_put by (change NDIRECT with 12; lia). change (256 ^ Z.of_nat 4) with (2 ^ 32).
      apply Z.mod_small. lia. }
    assert (Hc2 : cost L2 x ≤ cost L x + 1).
    { unfold L2. destruct (@cost_absorbed sb (alloc_log sb L b) x (indirect x)) as [_ Hx].
      specialize (Hx ltac:(naive_solver)). lia. }
    specialize (HQ L2 v2). rewrite Hb2 in HQ. apply HQ. unfold mapped. rewrite Hb2. split_and!; [|lia|done|].
    + rewrite baddr_indirect, (proj2 (Z.eqb_neq _ _)) in E0 by done || lia.
      eapply (grown_entry Hlay Hok W (alloc_view_allocated Hlay Hok Hb Hu) (j := bn - NDIRECT)); try done.
      * change NDIRECT with 12; change NINDIRECT with 256; lia.
      * unfold v2. by rewrite fn_lookup_insert.
      * intros a Ha. unfold v2. by rewrite fn_lookup_insert_ne.
    + intros _. rewrite absorbed_old; [done|]. unfold L2. apply absorbed_sub. left. apply absorbed_sub. by right.
Qed.

(** The address of block [bn] of the file, allocated if needed; 0 when the
    disk is full. *)
Lemma wp_bmap ip bn x Q L v tbl :
  tbl !! ip = Some x → i_dev x = ROOTDEV → fs_ok sb v → inode_wf sb v x → 0 ≤ bn < MAXFILE →
  cost L x + 2 < Z.min LOGSIZE size →
  (∀ L' v' x', mapped bn L v x L' v' x' → Q (baddr v' x' bn) (Ast ls [] L' v' (<[ip := x']> tbl))) →
  wp (bmap ip bn) Q (Ast ls [] L v tbl).
Proof.
  intros Ex Hdev Hok W Hbn Hc HQ. pose proof (datastart_range Hlay) as Hds. unfold bmap.
  apply wp_bind, wp_ifield. cbn [a_itab]. rewrite Ex. change (default inode0 (Some x)) with x. rewrite Hdev.
  destruct (bn <? NDIRECT) eqn:E1; change NDIRECT with 12 in E1; bool_to_prop.
  { apply (wp_bmap_direct ip bn x); done || lia. }
  rewrite (proj2 (Z.ltb_lt (bn - NDIRECT) NINDIRECT))
    by (change NDIRECT with 12; change NINDIRECT with 256; change MAXFILE with 268 in Hbn; lia).
  apply wp_bind. eapply wp_mono; [|intros a st' Ha; apply wp_bind; exact Ha].
  apply (wp_bmap_indirect ip x); try done. intros L1 v1 x1 G1 Hf1 Hc1.
  assert (Hm : ∀ L2 v2 x2, mapped bn L1 v1 x1 L2 v2 x2 → mapped bn L v x L2 v2 x2).
  { intros L2 v2 x2 (G & ? & ? & Hx). split; [by eapply grown_trans; [lia|..]|].
    split; [done|]. split; [lia|]. intros Hn%Hx. lia. }
  pose proof (gr_evolved _ _ _ _ _ G1) as [Hok1 W1 _ _ _ _ _ _]. case_if; bool_to_prop.
  { apply wp_ret. assert (baddr v1 x1 bn = 0) as Eb by (by rewrite baddr_indirect, E, Z.eqb_refl).
    rewrite <- Eb. apply HQ, Hm, mapped_refl; auto. }
  assert (Ha : baddr v1 x1 bn = blk_get 4 (4 * (bn - NDIRECT)) (v1 (indirect x1))).
  { by rewrite baddr_indirect, (proj2 (Z.eqb_neq _ _)). }
  pose proof (room_cost 2 L1 x1 ltac:(lia)) as Hr.
  apply wp_bind, wp_bread; [apply Hls | by intros h ?%elem_of_nil | eapply (room_cache size []); [simpl; lia | done | lia] |].
  intros i. apply wp_bind, wp_bdata. rewrite <- Ha. case_if; bool_to_prop.
  - apply wp_bind, wp_bmap_entry; try done; try lia. intros L2 v2 M2.
    apply wp_bind, wp_brelse; [apply Hls|]. by apply wp_ret, HQ, Hm.
  - apply wp_bind, wp_ret. apply wp_bind, wp_brelse; [apply Hls|]. by apply wp_ret, HQ, Hm, mapped_refl.
Qed.
End bmap.
