(* ===== verification/FsData.v ===== *)
(** * Reading and writing files

    [readi] returns the bytes of the file; [writei] stores bytes in it,
    allocates the blocks it needs and writes the inode back.  What [writei]
    has stored [readi] returns, and no other file changes. *)

From stdpp Require Import functions.
From S2P Require Import Base Riscv Mem Kernel Sleeplock FsState Bio BioList BioSpec Log LogSpec LogCrash.
From S2P Require Import LogOps Fs FsLogic FsAlloc FsInode FsFile.
Local Open Scope Z_scope.
Local Open Scope kernel_scope.

(** A file without holes. *)
Record file_ok (sb : superblock) (v : Z → list Z) (x : inode) : Prop := {
  fk_wf : inode_wf sb v x;
  fk_dev : i_dev x = ROOTDEV;
  fk_size : 0 ≤ i_size x ≤ MAXFILE * BSIZE;
  fk_there : ∀ bn, 0 ≤ bn → bn * BSIZE < i_size x → baddr v x bn ≠ 0;
}.

(** Bytes [off], ..., [off + n - 1] of the file. *)
Definition fbytes (v : Z → list Z) (x : inode) (off n : Z) : list Z := fbyte v x <$> zseq off (Z.to_nat n).

Lemma fbytes_app v x off n m :
  0 ≤ n → 0 ≤ m → fbytes v x off (n + m) = fbytes v x off n ++ fbytes v x (off + n) m.
Proof.
  intros. unfold fbytes. rewrite Z2Nat.inj_add, zseq_app, fmap_app by done. by rewrite Z2Nat.id.
Qed.

Lemma fbytes_length v x off n : length (fbytes v x off n) = Z.to_nat n.
Proof. unfold fbytes. by rewrite length_fmap, zseq_length. Qed.

Lemma fbytes_lookup v x off n i :
  (i < Z.to_nat n)%nat → fbytes v x off n !! i = Some (fbyte v x (off + Z.of_nat i)).
Proof. intros Hi. unfold fbytes. by rewrite list_lookup_fmap, zseq_lookup. Qed.

Lemma fbytes_ext v x v' x' off n :
  (∀ o, off ≤ o < off + n → fbyte v' x' o = fbyte v x o) → fbytes v' x' off n = fbytes v x off n.
Proof.
  intros E. unfold fbytes. apply list_fmap_ext. intros i o Ho%list_elem_of_lookup_2.
  apply elem_of_zseq in Ho. apply E. lia.
Qed.

(** The bytes of one block. *)
Lemma fbytes_block v x off m :
  0 ≤ off → 0 ≤ m → off mod BSIZE + m ≤ BSIZE → baddr v x (off / BSIZE) ≠ 0 →
  length (v (baddr v x (off / BSIZE))) = 1024%nat →
  take (Z.to_nat m) (drop (Z.to_nat (off mod BSIZE)) (v (baddr v x (off / BSIZE)))) = fbytes v x off m.
Proof.
  intros Ho Hm Hb Hn Hl. change BSIZE with 1024 in *. apply list_eq. intros i.
  destruct (decide (i < Z.to_nat m)%nat) as [Hi|Hi].
  - rewrite fbytes_lookup, lookup_take_lt, lookup_drop by done.
    unfold fbyte. change BSIZE with 1024. replace ((off + Z.of_nat i) / 1024) with (off / 1024) by zlia.
    rewrite (proj2 (Z.eqb_neq _ _)) by done.
    replace (Z.to_nat ((off + Z.of_nat i) mod 1024)) with (Z.to_nat (off mod 1024) + i)%nat by zlia.
    destruct (lookup_lt_is_Some_2 (v (baddr v x (off / 1024))) (Z.to_nat (off mod 1024) + i)) as [y ->]; [zlia|done].
  - rewrite lookup_take_ge by lia. symmetry. apply lookup_ge_None_2. rewrite fbytes_length. lia.
Qed.

Section readi.
  Context (pid start size : Z) (sb : superblock) (k : Z) (dk : disk).
  Context (ls : list lockid) (Hls : fs_free ls).
  Abbreviation wp := (wp pid start size sb k dk).

Lemma wp_fact {A} (P : Prop) (m : M (solo fsst) A) Q st :
  (∀ t, fs_at pid start size sb k dk t st → P) → (P → wp m Q st) → wp m Q st.
Proof. intros HP Hw t Ht. exact (Hw (HP t Ht) t Ht). Qed.

Lemma log_short t H L v tbl : fs_at pid start size sb k dk t (Ast ls H L v tbl) → (length L < 30)%nat.
Proof. intros [[_ [_ _ _ _ _ [_ Hn] _] _ _ _ _] _ _ _ _ _]. by rewrite HEAD_30 in Hn. Qed.

Lemma wp_readi_loop fuel ip x dst off n tot acc Q L v tbl :
  tbl !! ip = Some x → fs_ok sb v → file_ok sb v x → (length L < 30)%nat → n ≤ MAXFILE * BSIZE →
  0 ≤ off → 0 ≤ tot ≤ n → off + (n - tot) ≤ i_size x →
  ((n = tot ∧ (0 < fuel)%nat) ∨ n - tot ≤ BSIZE * (Z.of_nat fuel - 1) - off mod BSIZE) →
  Q (n, acc ++ fbytes v x off (n - tot)) (Ast ls [] L v tbl) →
  wp (readi_loop fuel ip false dst off n tot acc) Q (Ast ls [] L v tbl).
Proof.
  intros Ex Hok F HL Hn. pose proof F as [W Hdev Hsz Hth].
  change MAXFILE with 268 in Hsz, Hn. change BSIZE with 1024 in *.
  revert dst off tot acc. induction fuel as [|fuel IH]; intros dst off tot acc Hoff Htot Hend Hfuel HQ; [zlia|].
  cbn [readi_loop]. change BSIZE with 1024 in *. case_if; bool_to_prop.
  - destruct Hfuel as [?|Hfuel]; [lia|].
    apply wp_bind, wp_ifield. cbn [a_itab]. rewrite Ex. change (default inode0 (Some x)) with x. rewrite Hdev.
    assert (Hbn : 0 ≤ off / 1024 < MAXFILE) by (change MAXFILE with 268; zlia).
    assert (Ha : baddr v x (off / 1024) ≠ 0) by (apply Hth; zlia).
    apply wp_bind, (wp_bmap_hit _ _ _ _ _ _ ls Hls ip _ x); try done; [by intros h ?%elem_of_nil|].
    rewrite (proj2 (Z.eqb_neq _ _)) by done.
    apply wp_bind, wp_bread; [apply Hls | by intros h ?%elem_of_nil | done |]. intros i.
    apply wp_bind, wp_bdata. set (m := Z.min _ _).
    assert (Hm : m = Z.min (n - tot) (1024 - off mod 1024)) by done.
    apply wp_bind, wp_ret. change (0 =? -1) with false. apply wp_bind, wp_brelse; [apply Hls|].
    pose proof (fbytes_block v x off m) as Hblk. change BSIZE with 1024 in Hblk.
    rewrite Hblk by (done || apply Hok || zlia).
    rewrite (u32_small (off + m)) by zlia. apply IH; [zlia..|].
    rewrite <- app_assoc, <- fbytes_app by zlia. by replace (m + (n - (tot + m))) with (n - tot) by lia.
  - apply wp_ret. replace (n - tot) with 0 in HQ by lia. cbn in HQ. rewrite app_nil_r in HQ.
    replace tot with n by lia. rewrite i32_small by lia. done.
Qed.

(** How much of [n] bytes from [off] on [readi] delivers. *)
Definition readable (x : inode) (off n : Z) : Z :=
  if (off >? i_size x) || (2 ^ 32 <=? off + n) then 0 else Z.min n (i_size x - off).

Lemma wp_readi ip x dst off n Q L v tbl :
  tbl !! ip = Some x → fs_ok sb v → file_ok sb v x → 0 ≤ off < 2 ^ 32 → 0 ≤ n < 2 ^ 32 →
  Q (readable x off n, fbytes v x off (readable x off n)) (Ast ls [] L v tbl) →
  wp (readi ip false dst off n) Q (Ast ls [] L v tbl).
Proof.
  intros Ex Hok F Hoff Hn HQ. apply (wp_fact (length L < 30)%nat); [intros t; apply log_short|]. intros HL.
  pose proof (fk_size _ _ _ F) as Hsz. change MAXFILE with 268 in Hsz.
  unfold readi. apply wp_bind, wp_ifield. cbn [a_itab]. rewrite Ex. change (default inode0 (Some x)) with x.
  unfold readable in HQ. destruct (off >? i_size x) eqn:E1; cbn [orb] in *; [by apply wp_ret|]. bool_to_prop.
  assert (Ew : (u32 (off + n) <? off) = (2 ^ 32 <=? off + n)).
  { apply eq_true_iff_eq. rewrite Z.ltb_lt, Z.leb_le. ilia. }
  rewrite Ew. case_if; [by apply wp_ret|]. bool_to_prop. rewrite u32_small by lia.
  set (n' := if _ >? _ then _ else _).
  assert (En : n' = Z.min n (i_size x - off)) by (unfold n'; case_if; bool_to_prop; lia).
  change BSIZE with 1024 in *.
  apply (wp_readi_loop _ _ x); try done; change BSIZE with 1024; change MAXFILE with 268; try lia.
  - right. zlia.
  - rewrite Z.sub_0_r, En. done.
Qed.
End readi.

(** ** Storing bytes in a block of the file *)
Lemma splice_length off bytes d :
  0 ≤ off → off + Z.of_nat (length bytes) ≤ Z.of_nat (length d) → length (splice off bytes d) = length d.
Proof. intros. unfold splice. rewrite !length_app, length_take, length_drop. lia. Qed.

Lemma splice_lookup off bytes d (i : nat) :
  0 ≤ off → off + Z.of_nat (length bytes) ≤ Z.of_nat (length d) →
  splice off bytes d !! i =
    if decide (off ≤ Z.of_nat i < off + Z.of_nat (length bytes)) then bytes !! (i - Z.to_nat off)%nat else d !! i.
Proof.
  intros Ho Hl. unfold splice. case_decide as Hd.
  - rewrite lookup_app_r by (rewrite length_take; lia). rewrite length_take.
    rewrite lookup_app_l by lia. f_equal. lia.
  - destruct (decide (Z.of_nat i < off)).
    + rewrite lookup_app_l by (rewrite length_take; lia). by rewrite lookup_take_lt by lia.
    + rewrite lookup_app_r by (rewrite length_take; lia). rewrite length_take.
      rewrite lookup_app_r by lia. rewrite lookup_drop. f_equal. lia.
Qed.

Section store.
  Context {sb : superblock} {start size : Z} (Hlay : layout sb start size).
  Context {v : Z → list Z} {x : inode} (Hok : fs_ok sb v) (W : inode_wf sb v x).
  Context {bn : Z} (Hbn : 0 ≤ bn < MAXFILE) (Ha : baddr v x bn ≠ 0).
  Context {d : list Z} (Hd : length d = 1024%nat).
Let v' := <[baddr v x bn := d]> v.

Lemma baddr_not_indirect : baddr v x bn ≠ indirect x.
Proof.
  destruct (bslot_range bn Hbn) as [Hs Hne]. intros E. apply Hne.
  by apply (iw_inj _ _ _ W); [| |exact Ha|].
Qed.

Lemma slot_store s : slot v' x s = slot v x s.
Proof.
  unfold slot, v'. destruct (s <=? 12); [done|]. destruct (_ =? 0); [done|].
  by rewrite fn_lookup_insert_ne by apply baddr_not_indirect.
Qed.

Lemma evolved_store : evolved sb v x v' x.
Proof.
  destruct (bslot_range bn Hbn) as [Hs Hne]. pose proof (datastart_range Hlay) as Hds.
  destruct (iw_data _ _ _ W _ Hs Ha) as [Hr Hu]. fold (baddr v x bn) in Hr, Hu.
  assert (Hused : ∀ b, 0 ≤ b < sb_size sb → used sb v' b = used sb v b).
  { intros b Hb. eapply used_data; done || lia. }
  split.
  - eapply fs_ok_data; done || lia.
  - split; [apply W| |].
    + intros s Hs'. rewrite slot_store. intros Hn. destruct (iw_data _ _ _ W s Hs' Hn) as [? ?].
      split; [done|]. by rewrite Hused by lia.
    + intros s s' Hs1 Hs2. rewrite !slot_store. by apply W.
  - exists (i_addrs x). by destruct x.
  - intros b Hb. by rewrite Hused.
  - intros s _ _. apply slot_store.
  - intros s _ E. by rewrite slot_store.
  - intros b _ Hno. unfold v'. rewrite fn_lookup_insert_ne; [done|]. intros <-. apply Hno. by apply owns_slot.
  - intros b Hb. unfold v'. by rewrite fn_lookup_insert_ne by lia.
Qed.

Lemma fbyte_store o :
  0 ≤ o < MAXFILE * BSIZE →
  fbyte v' x o = if decide (o / BSIZE = bn) then default 0 (d !! Z.to_nat (o mod BSIZE)) else fbyte v x o.
Proof.
  intros Ho. assert (0 ≤ o / BSIZE < MAXFILE) as Hob.
  { change MAXFILE with 268 in *. change BSIZE with 1024 in *. zlia. }
  unfold fbyte. assert (E : ∀ n, baddr v' x n = baddr v x n) by (intros; apply slot_store).
  rewrite E. case_decide as Ed.
  - rewrite Ed, (proj2 (Z.eqb_neq _ _)) by done. unfold v'. by rewrite fn_lookup_insert.
  - destruct (_ =? 0) eqn:E0; [done|]. bool_to_prop. unfold v'. rewrite fn_lookup_insert_ne; [done|].
    intros E'. apply Ed. destruct (bslot_range bn Hbn), (bslot_range (o / BSIZE) Hob).
    assert (bslot bn = bslot (o / BSIZE)) as Eb by (by apply (iw_inj _ _ _ W)).
    unfold bslot in Eb. change NDIRECT with 12 in Eb.
    destruct (bn <? 12) eqn:?, (o / BSIZE <? 12) eqn:?; bool_to_prop; lia.
Qed.
End store.

(** ** [writei] *)

(** The number of blocks [m] bytes from [off] on touch. *)
Definition nblk (off m : Z) : Z := if m =? 0 then 0 else (off mod BSIZE + m + (BSIZE - 1)) / BSIZE.

Lemma nblk_step off m :
  0 ≤ off → 0 < m → let c := Z.min m (BSIZE - off mod BSIZE) in nblk off m = 1 + nblk (off + c) (m - c).
Proof.
  intros Ho Hm c. unfold nblk, c. change BSIZE with 1024. rewrite (proj2 (Z.eqb_neq m 0)) by lia.
  destruct (_ =? 0) eqn:E; bool_to_prop; zlia.
Qed.

Lemma nblk_nonneg off m : 0 ≤ m → 0 ≤ nblk off m.
Proof. intros. unfold nblk. change BSIZE with 1024. destruct (_ =? 0); [lia|]. zlia. Qed.

Lemma evolved_there sb v x v' x' bn :
  evolved sb v x v' x' → 0 ≤ bn < MAXFILE → baddr v x bn ≠ 0 → baddr v' x' bn ≠ 0.
Proof.
  intros G Hbn Hn. destruct (bslot_range bn Hbn) as [Hs _].
  unfold baddr in *. by rewrite (ev_slots _ _ _ _ _ G).
Qed.

(** Bytes of the file after [m] bytes of [l] have been stored at [off]. *)
Definition overwrite (f : Z → Z) (off m : Z) (l : list Z) (o : Z) : Z :=
  if (off <=? o) && (o <? off + m) then default 0 (l !! Z.to_nat (o - off)) else f o.

Lemma overwrite_step f g off c m l o :
  0 ≤ c ≤ Z.of_nat (length l) → 0 ≤ m →
  g o = overwrite f off c (take (Z.to_nat c) l) o →
  overwrite g (off + c) m (drop (Z.to_nat c) l) o = overwrite f off (c + m) l o.
Proof.
  intros Hc Hm Eg. unfold overwrite in *. rewrite Eg.
  destruct (off + c <=? o) eqn:E1, (o <? off + c + m) eqn:E2, (off <=? o) eqn:E3, (o <? off + (c + m)) eqn:E4,
    (o <? off + c) eqn:E5; bool_to_prop; cbn [andb]; try lia; try done.
  - rewrite lookup_drop. do 2 f_equal. lia.
  - rewrite lookup_take_lt by lia. done.
Qed.

Section writei.
  Context (pid start size : Z) (sb : superblock) (k : Z) (dk : disk) (Hlay : layout sb start size).
  Context (ls : list lockid) (Hls : fs_free ls) (Hk : 1 ≤ k) (Hone : sb_size sb ≤ BPB).
  Abbreviation wp := (wp pid start size sb k dk).

(** From blocks [v] and inode [x], [m] bytes of [l] have been stored at [off]. *)
Record stored (off m : Z) (l : list Z) (v : Z → list Z) (x : inode) (v' : Z → list Z) (x' : inode) : Prop := {
  sd_evolved : evolved sb v x v' x';
  sd_bytes : ∀ o, 0 ≤ o < MAXFILE * BSIZE → fbyte v' x' o = overwrite (fbyte v x) off m l o;
  sd_there : ∀ bn, 0 < m → off / BSIZE ≤ bn → bn * BSIZE < off + m → baddr v' x' bn ≠ 0;
}.

(** One block: the contents [d] of its buffer replace it. *)
Lemma stored_block off c l v x v1 x1 :
  fs_ok sb v → grown sb v x v1 x1 → 0 ≤ off → off / BSIZE < MAXFILE → baddr v1 x1 (off / BSIZE) ≠ 0 →
  0 < c → off mod BSIZE + c ≤ BSIZE → c ≤ Z.of_nat (length l) →
  let a := baddr v1 x1 (off / BSIZE) in
  stored off c (take (Z.to_nat c) l) v x (<[a := splice (off mod BSIZE) (take (Z.to_nat c) l) (v1 a)]> v1) x1.
Proof.
  intros Hok G Hoff Hbn Ha Hc Hcb Hl a. pose proof (gr_evolved _ _ _ _ _ G) as V1.
  pose proof (ev_ok _ _ _ _ _ V1) as Hok1. pose proof (ev_wf _ _ _ _ _ V1) as W1.
  pose proof (datastart_range Hlay) as Hds. change BSIZE with 1024 in *.
  assert (Hbn' : 0 ≤ off / 1024 < MAXFILE) by zlia.
  assert (Hlt : length (take (Z.to_nat c) l) = Z.to_nat c) by (rewrite length_take; lia).
  pose proof (fo_len _ _ Hok1 a) as Hla.
  assert (Hd : length (splice (off mod 1024) (take (Z.to_nat c) l) (v1 a)) = 1024%nat).
  { rewrite splice_length; rewrite ?Hlt; zlia. }
  pose proof (evolved_store Hlay Hok1 W1 Hbn' Ha Hd) as V2. split.
  - eapply evolved_trans; [lia|done|done].
  - intros o Ho. pose proof (fbyte_store W1 Hbn' Ha Hd o Ho) as Eb.
    change BSIZE with 1024 in *. fold a in Eb. rewrite Eb. unfold overwrite.
    rewrite <- (grown_fbyte sb v x v1 x1 o G Ho). case_decide as Ed.
    + rewrite splice_lookup by (rewrite ?Hlt; zlia). rewrite Hlt. case_decide as Er.
      * rewrite (proj2 (Z.leb_le _ _)), (proj2 (Z.ltb_lt _ _)) by zlia. cbn [andb]. do 2 f_equal. zlia.
      * replace (_ && _) with false.
        2:{ symmetry. apply andb_false_iff. rewrite Z.leb_gt, Z.ltb_ge. zlia. }
        unfold fbyte. change BSIZE with 1024. rewrite Ed, (proj2 (Z.eqb_neq _ _)) by done. done.
    + replace (_ && _) with false; [done|].
      symmetry. apply andb_false_iff. rewrite Z.leb_gt, Z.ltb_ge. zlia.
  - intros bn _ H1 H2. change BSIZE with 1024 in *. replace bn with (off / 1024) by zlia.
    apply (evolved_there _ _ _ _ _ _ V2); done.
Qed.

Lemma stored_step off c m l v x v1 x1 v2 x2 :
  stored off c (take (Z.to_nat c) l) v x v1 x1 → stored (off + c) m (drop (Z.to_nat c) l) v1 x1 v2 x2 →
  0 ≤ off → 0 < c ≤ Z.of_nat (length l) → 0 ≤ m → off + c + m ≤ MAXFILE * BSIZE →
  stored off (c + m) l v x v2 x2.
Proof.
  intros [V1 B1 T1] [V2 B2 T2] Hoff Hc Hm Hmax. pose proof (datastart_range Hlay) as Hds. split.
  - eapply evolved_trans; [lia|done|done].
  - intros o Ho. rewrite B2 by done. apply overwrite_step; [lia | done | auto].
  - intros bn _ H1 H2. change MAXFILE with 268 in *. change BSIZE with 1024 in *.
    destruct (decide (bn * 1024 < off + c)).
    + apply (evolved_there _ _ _ _ _ _ V2); [change MAXFILE with 268; zlia|]. apply T1; lia.
    + apply T2; zlia.
Qed.

Lemma stored_none off l v x v' x' : grown sb v x v' x' → stored off 0 l v x v' x'.
Proof.
  intros G. split; [apply G| |intros; lia]. intros o Ho. rewrite (grown_fbyte sb v x v' x') by done.
  unfold overwrite. replace (_ && _) with false; [done|].
  symmetry. apply andb_false_iff. rewrite Z.leb_gt, Z.ltb_ge. lia.
Qed.

Lemma wp_writei_loop fuel ip x l off n tot Q L v tbl :
  tbl !! ip = Some x → i_dev x = ROOTDEV → fs_ok sb v → inode_wf sb v x →
  0 ≤ off → 0 ≤ tot ≤ n → Z.of_nat (length l) = n - tot → off + (n - tot) ≤ MAXFILE * BSIZE →
  nblk off (n - tot) < Z.of_nat fuel →
  cost sb L x + nblk off (n - tot) + 1 < Z.min LOGSIZE size →
  (∀ L' v' x' m, 0 ≤ m ≤ n - tot → stored off m l v x v' x' →
     (m < n - tot → full sb v' ∧ (m = 0 ∨ (off + m) mod BSIZE = 0)) →
     cost sb L' x' ≤ cost sb L x + nblk off (n - tot) →
     Q (tot + m, off + m) (Ast ls [] L' v' (<[ip := x']> tbl))) →
  wp (writei_loop fuel ip (FromKernel l) off n tot) Q (Ast ls [] L v tbl).
Proof.
  revert x l off tot L v tbl. induction fuel as [|fuel IH]; intros x l off tot L v tbl Ex Hdev Hok W Hoff Htot Hl Hmax Hfuel Hc HQ;
    pose proof (nblk_nonneg off (n - tot) ltac:(lia)) as Hnn; [lia|].
  cbn [writei_loop]. case_if; bool_to_prop.
  2:{ apply wp_ret. specialize (HQ L v x 0). rewrite !Z.add_0_r, (list_insert_id tbl ip x Ex) in HQ.
      apply HQ; [lia | apply stored_none; by apply grown_refl | lia | lia]. }
  pose proof (datastart_range Hlay) as Hds. change MAXFILE with 268 in *.
  assert (Hbn : 0 ≤ off / BSIZE < MAXFILE) by (change MAXFILE with 268; change BSIZE with 1024 in *; zlia).
  pose proof (nblk_step off (n - tot) Hoff ltac:(lia)) as Hstep. cbn zeta in Hstep.
  set (m := Z.min (n - tot) (BSIZE - off mod BSIZE)) in *.
  assert (Hm : 0 < m ≤ n - tot ∧ off mod BSIZE + m ≤ BSIZE) by (unfold m; change BSIZE with 1024 in *; zlia).
  pose proof (nblk_nonneg (off + m) (n - tot - m) ltac:(lia)) as Hnn'.
  apply wp_bind, wp_ifield. cbn [a_itab]. rewrite Ex. change (default inode0 (Some x)) with x. rewrite Hdev.
  eapply wp_bind, wp_bmap; try done; [lia|]. intros L1 v1 x1 (G & Hfull & Hc1 & Hc1').
  case_if; bool_to_prop.
  { apply wp_ret. specialize (HQ L1 v1 x1 0). rewrite !Z.add_0_r in HQ. apply HQ; [lia | | auto | lia].
    by apply stored_none. }
  specialize (Hc1' E0). set (a := baddr v1 x1 (off / BSIZE)) in *.
  pose proof (gr_evolved _ _ _ _ _ G) as V1. pose proof (ev_wf _ _ _ _ _ V1) as W1.
  destruct (bslot_range _ Hbn) as [Hs _]. destruct (iw_data _ _ _ W1 _ Hs E0) as [Hr _]. fold (baddr v1 x1 (off / BSIZE)) in Hr. fold a in Hr.
  pose proof (@cost_length sb L1 x1) as Hcl. pose proof (@cost_length sb (absorbed L1 a) x1) as Hcl'.
  apply wp_bind, wp_bread; [apply Hls | by intros h ?%elem_of_nil | unfold LOGSIZE, MAXOPBLOCKS in Hc; simpl; lia |]. intros i.
  apply wp_bind, wp_ret. apply wp_bind, wp_bset. change (0 =? -1) with false.
  destruct (meta_home Hlay a) as [? ?]; [lia|].
  apply wp_bind, wp_log_write; try done; [apply Hls | apply Hls | lia |].
  apply wp_bind, wp_brelse; [apply Hls|]. rewrite u32_small by (change BSIZE with 1024 in *; lia).
  pose proof (stored_block off m l v x v1 x1 Hok G Hoff) as S1. cbn zeta in S1. fold a in S1.
  specialize (S1 ltac:(lia) E0 ltac:(lia) ltac:(lia) ltac:(lia)).
  set (v2 := <[a := _]> v1) in *. pose proof (sd_evolved _ _ _ _ _ _ _ S1) as V2.
  pose proof (ev_inode _ _ _ _ _ V2) as [ad Ead]. pose proof (lookup_lt_Some _ _ _ Ex) as Hip.
  apply (IH x1).
  - by apply list_lookup_insert_eq.
  - rewrite Ead. exact Hdev.
  - apply (ev_ok _ _ _ _ _ V2).
  - apply (ev_wf _ _ _ _ _ V2).
  - lia.
  - lia.
  - rewrite length_drop. lia.
  - change BSIZE with 1024 in *. lia.
  - replace (n - (tot + m)) with (n - tot - m) by lia. lia.
  - replace (n - (tot + m)) with (n - tot - m) by lia. lia.
  - replace (n - (tot + m)) with (n - tot - m) by lia. intros L' v' x' m' Hm' S2 Hf Hc2.
    rewrite list_insert_insert_eq, <- !Z.add_assoc. apply HQ; [lia | | | lia].
    + eapply stored_step; try done; change MAXFILE with 268; lia.
    + intros Hlt. destruct Hf as [Hf1 [->|Hf2]]; [lia | split; [done|right] | split; [done|right]].
      * unfold m in *. change BSIZE with 1024 in *. zlia.
      * by rewrite Z.add_assoc.
Qed.

(** The result of [writei]: [m] bytes of [l] were stored at [off], the size
    was adjusted, the inode was written back, and no other file and no other
    inode on the disk has changed. *)
Record written (off m : Z) (l : list Z) (v : Z → list Z) (x : inode) (v' : Z → list Z) (x' : inode) : Prop := {
  wr_ok : fs_ok sb v';
  wr_file : file_ok sb v' x';
  wr_inode : ∃ addrs, x' = set_i_size (Z.max (i_size x) (off + m)) (set_i_addrs addrs x);
  wr_fields : fields_ok x';
  wr_bytes : ∀ o, 0 ≤ o < MAXFILE * BSIZE → fbyte v' x' o = overwrite (fbyte v x) off m l o;
  wr_disk : dinode sb v' (i_inum x) x' = x';
  wr_others : ∀ y, file_ok sb v y → apart v x y → file_ok sb v' y ∧ apart v' x' y ∧
    ∀ o, 0 ≤ o < MAXFILE * BSIZE → fbyte v' y o = fbyte v y o;
  wr_inodes : ∀ inum y, 0 ≤ inum < sb_ninodes sb → inum ≠ i_inum x → dinode sb v' inum y = dinode sb v inum y;
  wr_front : ∀ b, b < sb_inodestart sb → v' b = v b;
}.

(** Writing an inode block leaves the contents of files alone. *)
Lemma meta_files v x y :
  0 ≤ i_inum x < sb_ninodes sb → inode_wf sb v y →
  let v' := put_inode sb x v in
  inode_wf sb v' y ∧ (∀ s, slot v' y s = slot v y s) ∧
  ∀ o, 0 ≤ o < MAXFILE * BSIZE → fbyte v' y o = fbyte v y o.
Proof.
  intros Hi W v'. pose proof (IBLOCK_range start size sb Hlay _ Hi) as HI. pose proof (datastart_range Hlay) as Hds.
  assert (E : ∀ b, owns v y b → v' b = v b ∧ used sb v' b = true).
  { intros b (Hb & s & Hs & <-). destruct (iw_data _ _ _ W s Hs Hb) as [Hr Hu].
    split; [apply put_inode_other; lia|]. unfold used, v'. pose proof (BBLOCK_range Hlay (slot v y s) ltac:(lia)).
    by rewrite put_inode_other by lia. }
  split_and!.
  - by eapply inode_wf_ext.
  - intros s. apply slot_ext. intros b Hb. by apply E.
  - intros o Ho. apply fbyte_ext; [done|]. intros b Hb. by apply E.
Qed.

Lemma apart_slots v v' x x' y y' :
  (∀ s, slot v' x' s = slot v x s) → (∀ s, slot v' y' s = slot v y s) → apart v x y → apart v' x' y'.
Proof.
  intros Ex Ey Ha b (Hb & s & Hs & <-) (_ & s' & Hs' & E').
  rewrite Ex in *. rewrite Ey in E'. apply (Ha (slot v x s)); [by apply owns_slot|].
  split; [done|]. by exists s'.
Qed.

Lemma written_stored off m l v x v1 x1 :
  file_ok sb v x → fields_ok x → 0 ≤ i_inum x < sb_ninodes sb → 0 ≤ off ≤ i_size x → 0 ≤ m →
  off + m ≤ MAXFILE * BSIZE → stored off m l v x v1 x1 →
  let x2 := set_i_size (Z.max (i_size x) (off + m)) x1 in
  written off m l v x (put_inode sb x2 v1) x2.
Proof.
  intros Fk Fd Hi Hoff Hm Hmax [V B T] x2. pose proof V as [Hok1 W1 [ad Ead] _ _ _ _ _].
  pose proof (datastart_range Hlay) as Hds. pose proof (fk_size _ _ _ Fk) as Hsz.
  assert (Hi2 : i_inum x2 = i_inum x) by (unfold x2; by rewrite Ead).
  assert (Esl : ∀ s, slot v1 x2 s = slot v1 x1 s) by done.
  assert (W2 : inode_wf sb v1 x2) by (destruct W1; by split).
  assert (Fd2 : fields_ok x2).
  { destruct Fd, Hsz. subst x1. change MAXFILE with 268 in *. change BSIZE with 1024 in *.
    split; cbn; try done; [lia|]. split; [apply W1|]. apply Forall_lookup. intros i a Ha.
    destruct (decide (a = 0)) as [->|]; [lia|]. pose proof (lookup_lt_Some _ _ _ Ha) as Hlt.
    pose proof (iw_len _ _ _ W1) as Hl1. cbn in Hl1.
    assert (slot v1 (set_i_addrs ad x) (Z.of_nat i) = a) as Es.
    { unfold slot. rewrite (proj2 (Z.leb_le _ _)) by lia. rewrite Nat2Z.id. cbn. by rewrite Ha. }
    destruct (iw_data _ _ _ W1 (Z.of_nat i)) as [Hr _]; [change NSLOT with 269; lia | congruence |].
    rewrite Es in Hr. pose proof (lo_size _ _ _ Hlay). lia. }
  rewrite <- Hi2 in Hi. destruct (meta_files v1 x2 x2 Hi W2) as (W3 & Es3 & Eb3).
  assert (Hok3 : fs_ok sb (put_inode sb x2 v1)) by (by eapply put_inode_ok).
  split; try done.
  - split; [done | unfold x2; rewrite Ead; exact (fk_dev _ _ _ Fk) | |].
    + change (i_size x2) with (Z.max (i_size x) (off + m)). lia.
    + intros bn Hbn Hlt. cbn in Hlt. unfold baddr. rewrite Es3, Esl. fold (baddr v1 x1 bn).
      change MAXFILE with 268 in *. change BSIZE with 1024 in *.
      destruct (decide (bn * 1024 < i_size x)) as [Hb|Hb].
      * apply (evolved_there _ _ _ _ _ _ V); [change MAXFILE with 268; lia|]. by apply Fk.
      * apply T; change BSIZE with 1024; zlia.
  - exists ad. unfold x2. by rewrite Ead.
  - intros o Ho. rewrite Eb3 by done. by apply B.
  - rewrite <- Hi2. apply dinode_put; [done|]. apply Hok1.
  - intros y Fy Ha. destruct (evolved_apart sb v x v1 x1 y ltac:(lia) V (fk_wf _ _ _ Fy) Ha) as (Wy & Ha1 & By).
    destruct (meta_files v1 x2 y Hi Wy) as (Wy3 & Ey3 & By3). split_and!.
    + assert (Ey : ∀ s, slot v1 y s = slot v y s).
      { intros s. apply slot_ext. intros b Hb. apply (ev_other _ _ _ _ _ V).
        - destruct Hb as (? & s' & ? & <-). by apply Fy.
        - intros Hx. by apply (Ha b). }
      destruct Fy as [_ ? ? Hth]. split; try done. intros bn Hbn Hlt. unfold baddr. rewrite Ey3, Ey. by apply Hth.
    + by apply (apart_slots v1 _ x1 _ y).
    + intros o Ho. by rewrite By3, By.
  - intros inum y Hin Hne. rewrite <- Hi2 in Hne. rewrite dinode_put_ne; try done; [|apply Hok1 | lia | lia].
    unfold dinode. rewrite (ev_meta _ _ _ _ _ V); [done|].
    pose proof (IBLOCK_range start size sb Hlay inum Hin). lia.
  - intros b Hb. pose proof (IBLOCK_range start size sb Hlay _ Hi).
    rewrite put_inode_other by lia. apply (ev_meta _ _ _ _ _ V). lia.
Qed.

Lemma wp_writei ip x l off Q L v tbl :
  let n := Z.of_nat (length l) in
  tbl !! ip = Some x → fs_ok sb v → file_ok sb v x → fields_ok x → 0 ≤ i_inum x < sb_ninodes sb →
  0 ≤ off ≤ i_size x → off + n ≤ MAXFILE * BSIZE →
  cost sb L x + nblk off n + 1 < Z.min LOGSIZE size →
  (∀ L' v' x' m, 0 ≤ m ≤ n → written off m l v x v' x' →
     (m < n → full sb v' ∧ (m = 0 ∨ (off + m) mod BSIZE = 0)) →
     Z.of_nat (length L') ≤ cost sb L x + nblk off n + 1 → IBLOCK (i_inum x) sb ∈ L' →
     Q m (Ast ls [] L' v' (<[ip := x']> tbl))) →
  wp (writei ip (FromKernel l) off n) Q (Ast ls [] L v tbl).
Proof.
  intros n Ex Hok Fk Fd Hi Hoff Hmax Hc HQ. pose proof (fk_size _ _ _ Fk) as Hsz.
  change MAXFILE with 268 in *. change BSIZE with 1024 in *. unfold writei.
  apply wp_bind, wp_ifield. cbn [a_itab]. rewrite Ex. change (default inode0 (Some x)) with x.
  rewrite u32_small by lia. rewrite Z.gtb_ltb, (proj2 (Z.ltb_ge _ _)) by lia. cbn [orb].
  rewrite (proj2 (Z.ltb_ge _ _)) by lia. rewrite Z.gtb_ltb, (proj2 (Z.ltb_ge (268 * BSIZE) _)) by (change BSIZE with 1024; lia).
  apply wp_bind. eapply wp_writei_loop; try done; try lia; [exact (fk_dev _ _ _ Fk) | exact (fk_wf _ _ _ Fk) | ..].
  - change MAXFILE with 268. change BSIZE with 1024. lia.
  - rewrite Z.sub_0_r. unfold nblk. change BSIZE with 1024. destruct (n =? 0); zlia.
  - rewrite Z.sub_0_r. done.
  - rewrite Z.sub_0_r. intros L1 v1 x1 m Hm S1 Hf Hc1.
    pose proof (ev_inode _ _ _ _ _ (sd_evolved _ _ _ _ _ _ _ S1)) as [ad Ead].
    pose proof (lookup_lt_Some _ _ _ Ex) as Hip.
    pose proof (written_stored off m l v x v1 x1 Fk Fd Hi Hoff ltac:(lia)) as Hw. cbn zeta in Hw.
    specialize (Hw ltac:(change MAXFILE with 268; change BSIZE with 1024; lia) S1).
    set (x2 := set_i_size _ x1) in *.
    assert (E2 : i_dev x2 = ROOTDEV ∧ i_inum x2 = i_inum x ∧ i_size x1 = i_size x).
    { unfold x2. rewrite Ead. split; [exact (fk_dev _ _ _ Fk)|done]. }
    destruct E2 as (Ed & Ei & Es).
    apply wp_bind, wp_ifield. cbn [a_itab]. rewrite list_lookup_insert_eq by done.
    change (default inode0 (Some x1)) with x1. rewrite Es.
    assert (Hfin : wp (iupdate ip ;; ret (i32 (0 + m))) Q (Ast ls [] L1 v1 (<[ip := x2]> tbl))).
    { pose proof (@cost_length sb L1 x1). pose proof (absorbed_length L1 (IBLOCK (i_inum x2) sb)).
      eapply wp_bind, (wp_iupdate _ _ _ _ _ _ Hlay ls Hls Hk ip x2); try done;
        [by apply list_lookup_insert_eq | by rewrite Ei | unfold room; lia |].
      apply wp_ret. rewrite i32_small by lia. apply HQ; [lia | done | | lia | rewrite Ei; apply absorbed_sub; by right].
      intros Hlt. destruct (Hf Hlt) as [Hf1 Hf2]. split; [|done]. intros b Hb. specialize (Hf1 b Hb). unfold used in *. pose proof (BBLOCK_range Hlay b Hb).
      pose proof (IBLOCK_range start size sb Hlay (i_inum x2) ltac:(by rewrite Ei)). by rewrite put_inode_other by lia. }
    apply wp_bind. rewrite Z.gtb_ltb. case_if; bool_to_prop.
    + apply wp_iset. rewrite list_alter_insert with (x := x1) by (by apply list_lookup_insert_eq).
      rewrite list_insert_insert_eq. replace (set_i_size (off + m) x1) with x2; [done|].
      unfold x2. f_equal. lia.
    + apply wp_ret. replace x1 with x2; [done|]. unfold x2. rewrite Z.max_l, <- Es by lia. by destruct x1.
Qed.
End writei.
