(* ===== verification/FsOps.v ===== *)
(** * File-system operations as transactions

    Code between [begin_op] and [end_op] that satisfies a [wp] is atomic
    across crashes; so a write to a file either happened or did not. *)

From stdpp Require Import functions.
From S2P Require Import Base Riscv Mem Kernel Sleeplock FsState Bio BioList BioSpec Log LogSpec LogCrash.
From S2P Require Import LogOps Fs FsLogic FsBoot FsAlloc FsInode FsFile FsData.
Local Open Scope Z_scope.
Local Open Scope kernel_scope.

Section operation.
  Context {S : Type} {KO : KernelOps S} {HS : HasState S fsst}.

Definition operation {A} (m : M S A) : M S A :=
  begin_op ;;
  a ← m;
  end_op ;;
  ret a.
End operation.

(** A block that is not in the log is as on the disk. *)
Lemma view_clean pid start size sb k dk t L v tbl b :
  fs_at pid start size sb k dk t (Ast [] [] L v tbl) → b ∉ L → v b = disk_block dk b.
Proof.
  intros [[(P & I & HP) _ _ _ _ _] Hv _ Hdk _ _] Hb. cbn in *.
  rewrite <- Hv, <- Hdk. apply (bview_clean I); [by rewrite HP | by intros i ?%elem_of_nil].
Qed.

Lemma log_home pid start size sb k dk t st b :
  fs_at pid start size sb k dk t st → in_log start size b → b ∉ a_log st.
Proof. intros [[_ HL _ _ _ _] _ _ _ _ _] Hb Hin. by destruct (lh_home _ _ _ _ HL b Hin). Qed.

(** ** Crashes

    The blocks [f] of a transaction with the blocks [L] are committed to a disk
    that has the blocks [g], and a prefix [w1] of the writes reaches it. *)
Section crash.
  Context (start size : Z) (L : list Z) (f g : Z → list Z) (w1 w2 : list (Z * list Z)).
  Context (HL : Z.of_nat (length L) ≤ LOGSIZE) (HLr : ∀ b, b ∈ L → 0 ≤ b < 2 ^ 31).
  Context (Hf : ∀ b, length (f b) = 1024%nat) (Hg : ∀ b, length (g b) = 1024%nat).
  Context (Hw : commit_writes start L f = w1 ++ w2).

Lemma crash_length b : length (vwrites w1 g b) = 1024%nat.
Proof.
  destruct (commit_writes_ok start L f HL HLr Hf) as (Hl & _). rewrite Hw, Forall_app in Hl.
  apply whole_blocks; [done | apply Hl].
Qed.

Lemma crash_front b : b < start → f b = g b → vwrites w1 g b = g b.
Proof.
  intros Hb E. destruct (commit_writes_ok start L f HL HLr Hf) as (_ & Hl & _). rewrite Hw, Forall_app in Hl.
  apply (vwrites_at (λ d, d = g b)); [done|]. eapply Forall_impl; [apply Hl|].
  intros [a d]. cbn. intros Hd <-. rewrite <- E. auto.
Qed.
End crash.

(** The commit of a transaction whose super block is unchanged. *)
Lemma commit_atomic t pid P sb start size L v :
  cache_idle t pid P → log_has t start size L → P ≡ₚ L → L ≠ [] →
  sb_magic sb = FSMAGIC → sb_logstart sb = start → sb_nlog sb = size → 1 < start →
  (∀ b, length (bview t b) = 1024%nat) → hdr_n (bview t start) = 0 →
  (∀ b, disk_block (f_disk t) b = v b) → (∀ b, length (v b) = 1024%nat) →
  get_superblock (v 1) = sb → bview t 1 = v 1 →
  ∃ t', commit (Solo t [] pid) = Ok tt (Solo t' [] pid) ∧ crash_atomic t t' start size sb v (bview t) ∧
    f_disk t' = writes (commit_writes start L (bview t)) (f_disk t).
Proof.
  intros I HL HP HL0 Hm Hl Hn H1 Hf Hz Hd Hv Hs E1.
  destruct (commit_ok t pid P start size L I HL HP HL0) as (t' & E & _ & K & _).
  destruct (commit_crash_ok t pid P sb start size L I HL HP HL0 Hl Hn (Hf _) Hz) as (t2 & E2 & _ & _ & Hcr).
  rewrite E in E2. injection E2 as <-. exists t'. split; [done|]. split; [|done].
  intros w1 w2 Htr tb pid' Hrb. specialize (Hcr w1 w2 Htr).
  rewrite K, writes_trace in Htr. apply app_inv_head in Htr.
  assert (HLn : Z.of_nat (length L) ≤ LOGSIZE).
  { pose proof (lh_room _ _ _ _ HL) as [_ Hr]. rewrite HEAD_30 in Hr. change LOGSIZE with 30. lia. }
  assert (HLr : ∀ b, b ∈ L → 0 ≤ b < 2 ^ 31) by (intros b Hb; by apply (lh_home _ _ _ _ HL)).
  assert (Em : ∀ b, image (apply_writes w1 (d_blocks (f_disk t))) b = vwrites w1 v b).
  { intros b. rewrite image_apply. apply vwrites_ext, Hd. }
  destruct (fsinit_run _ tb pid' sb Hrb) as (t1 & R1 & S1 & T1 & Er); [|done|].
  { by rewrite Em, (crash_front start L (bview t) v w1 w2 HLn HLr Hf Htr). }
  destruct (Hcr t1 pid' R1) as (L' & tr & Rc & Hr).
  assert (H1r : ¬ in_log start size 1) by (unfold in_log; lia).
  exists tr, (disk_block (f_disk tr)). split_and!; [by rewrite Er; apply Rc | |].
  - rewrite <- T1. eapply recovered_idle; try done.
    + rewrite Hr by done. case_decide; by rewrite ?Hd, ?E1.
    + intros b. rewrite Em. by apply (crash_length start L (bview t) v w1 w2).
  - destruct (decide (length w1 ≤ length L)%nat); [left | right]; intros b Hb; rewrite Hr by done; done.
Qed.

(** An operation runs to its end and leaves an idle file system; its blocks
    outside the log are those its body computed; and it is atomic. *)
Lemma operation_atomic {A} (m : M (solo fsst) A) (Q : A → ast → Prop) t pid start size sb v tbl :
  idle t pid start size sb v tbl → 0 < size → 1 < start →
  wp pid start size sb 1 (f_disk t) m
    (λ a st, a_locks st = [] ∧ a_held st = [] ∧ a_log st ≠ [] ∧
       (∀ b, length (a_view st b) = 1024%nat) ∧ a_view st 1 = v 1 ∧ Q a st) (Ast [] [] [] v tbl) →
  ∃ a t' v' st, operation m (Solo t [] pid) = Ok a (Solo t' [] pid) ∧ Q a st ∧
    idle t' pid start size sb v' (a_itab st) ∧ (∀ b, ¬ in_log start size b → v' b = a_view st b) ∧
    crash_atomic t t' start size sb v (a_view st).
Proof.
  intros [T Hv Hsb Hit (Hs & Hmg & Hlog & Hnl) Hlen Hhdr] Hsize H1 Hw.
  destruct (begin_op_ok t [] pid [] start size [] 0) as (t1 & E1 & T1 & V1 & D1 & _ & S1 & I1);
    [done | apply not_elem_of_nil | done |].
  assert (F1 : fs_at pid start size sb 1 (f_disk t) t1 (Ast [] [] [] v tbl)).
  { split; cbn; [done | intros; by rewrite V1 | congruence | done | congruence | by intros h ?%elem_of_nil]. }
  assert (Hdisk : ∀ b, v b = disk_block (f_disk t) b).
  { intros b. apply (view_clean _ _ _ _ _ _ _ _ _ _ _ F1), not_elem_of_nil. }
  destruct (Hw t1 F1) as (a & t2 & [ls H L v2 tbl2] & E2 & F2 & Els & EH & HL & Hlen2 & Hsup & HQ).
  cbn [a_locks a_held a_log a_view] in *. subst ls H.
  pose proof F2 as [T2 V2 S2 D2 I2 _]. cbn in T2, V2, S2, D2, I2.
  destruct (end_op_ok t2 pid start size L T2)
    as (t3 & t4 & t' & D3 & V3 & HL3 & (P & I3 & HP) & E3 & D' & E' & T' & V' & S' & I').
  assert (V3' : ∀ b, bview t3 b = v2 b) by (intros b; by rewrite V3, V2).
  assert (Hst : v2 start = v start).
  { rewrite (view_clean _ _ _ _ _ _ _ _ _ _ start F2), Hdisk; [done|].
    eapply (log_home _ _ _ _ _ _ _ _ _ F2). unfold in_log. lia. }
  destruct (commit_atomic t3 pid P sb start size L v) as (t5 & E5 & Hcr & K5); try done;
    [intros b; by rewrite V3' | by rewrite V3', Hst | intros b; by rewrite D3, D2 | by rewrite V3' |].
  rewrite E3 in E5. injection E5 as <-.
  destruct (commit_writes_ok start L (bview t3)) as (Hcl & _ & Hch).
  { pose proof (lh_room _ _ _ _ HL3) as [_ Hr]. rewrite HEAD_30 in Hr. change LOGSIZE with 30. lia. }
  { intros b Hb. by apply (lh_home _ _ _ _ HL3). }
  { intros b. by rewrite V3'. }
  assert (Hfin : ∀ b, bview t' b = vwrites (commit_writes start L (bview t3)) v b).
  { intros b. destruct (it_cache _ _ _ _ _ _ _ T') as (P' & I'' & HP'). apply Permutation_nil_r in HP' as ->.
    rewrite (bview_clean I'') by (apply not_elem_of_nil || by intros i ?%elem_of_nil).
    rewrite D', K5, disk_writes. apply vwrites_ext. by rewrite D3, D2. }
  exists a, t', (bview t'), (Ast [] [] L v2 tbl2). split_and!; [|done|..].
  - unfold operation. rewrite (bind_ok _ _ _ _ _ E1), (bind_ok _ _ _ _ _ E2), (bind_ok _ _ _ _ _ E'). done.
  - split; [done | done | congruence | cbn; congruence | | intros b; rewrite Hfin; by apply whole_blocks | by rewrite Hfin].
    split; [|done]. by rewrite V', V2, Hsup by (unfold in_log; lia).
  - intros b Hb. rewrite V' by done. apply V2.
  - intros w1 w2 Htr tb pid' Hrb. rewrite D', <- D2, <- D3 in Htr. rewrite <- D2, <- D3 in Hrb.
    apply (crash_atomic_view _ _ _ _ _ _ _ v2) in Hcr; [|intros b _; by rewrite V3'].
    by apply (Hcr w1 w2).
Qed.

(** ** Writing to a file and reading from it

    One turn of the loop of [filewrite], and [fileread], for a buffer in
    kernel memory. *)
Section files.
  Context {S : Type} {KO : KernelOps S} {HS : HasState S fsst}.

Definition write_file (ip : nat) (l : list Z) (off : Z) : M S Z :=
  operation (
    ilock ip ;;
    r ← writei ip (FromKernel l) off (Z.of_nat (length l));
    iunlock ip ;;
    ret r).

Definition read_file (ip : nat) (off n : Z) : M S (Z * list Z) :=
  ilock ip ;;
  r ← readi ip false 0 off n;
  iunlock ip ;;
  ret r.
End files.

(** An inode in the table that is in use, read from the disk, and not locked. *)
Record in_core (tbl : list inode) (ip : nat) (x : inode) : Prop := {
  ic_at : tbl !! ip = Some x;
  ic_ref : 1 ≤ i_ref x;
  ic_valid : i_valid x ≠ 0;
  ic_lock : i_lock x = SleepLock 0 0;
}.

(** A lock changes nothing of the file. *)
Lemma file_ok_lock sb v x lk : file_ok sb v x → file_ok sb v (set_i_lock lk x).
Proof. intros [[Hl Hd Hi] Hdev Hs Ht]. split; [split; [exact Hl | exact Hd | exact Hi] | exact Hdev | exact Hs | exact Ht]. Qed.

Lemma fields_ok_lock x lk : fields_ok x → fields_ok (set_i_lock lk x).
Proof. intros []. by split. Qed.

Lemma written_lock sb off m l v x v' x' lk :
  written sb off m l v (set_i_lock lk x) v' x' → written sb off m l v x v' (set_i_lock (i_lock x) x').
Proof.
  intros [H1 H2 [ad Ead] H4 H5 H6 H7 H8]. split; try done.
  - by apply file_ok_lock.
  - exists ad. rewrite Ead. by destruct x.
  - by apply fields_ok_lock.
  - exact (f_equal (set_i_lock (i_lock x)) H6).
Qed.

Section ops.
  Context (pid start : Z) (sb : superblock) (Hlay : layout sb start LOGSIZE) (Hone : sb_size sb ≤ BPB).

Lemma no_locks : fs_free [].
Proof. split; [split|]; intros; apply not_elem_of_nil. Qed.

(** The chunk of [filewrite]. *)
Definition chunk : Z := ((MAXOPBLOCKS - 1 - 1 - 2) / 2) * BSIZE.

Lemma nblk_chunk off n : 0 ≤ off → 0 ≤ n ≤ chunk → nblk off n ≤ 4.
Proof.
  intros Ho Hn. change chunk with 3072 in Hn. unfold nblk. change BSIZE with 1024.
  destruct (n =? 0); zlia.
Qed.

Lemma wp_write_chunk dk ip x l off Q v tbl :
  let n := Z.of_nat (length l) in
  in_core tbl ip x → fs_ok sb v → file_ok sb v x → fields_ok x → 0 ≤ i_inum x < sb_ninodes sb →
  0 ≤ off ≤ i_size x → off + n ≤ MAXFILE * BSIZE → n ≤ chunk →
  (∀ L' v' x' m, 0 ≤ m ≤ n → written sb off m l v x v' x' → (m < n → full sb v') →
     (0 < length L' ≤ Z.to_nat MAXOPBLOCKS)%nat →
     Q m (Ast [] [] L' v' (<[ip := x']> tbl))) →
  wp pid start LOGSIZE sb 1 dk
    (ilock ip ;; r ← writei ip (FromKernel l) off n; iunlock ip ;; ret r) Q (Ast [] [] [] v tbl).
Proof.
  intros n [Ex Hr Hv Hlk] Hok Fk Fd Hi Hoff Hmax Hch HQ. pose proof no_locks as Hfree.
  assert (Hn : 0 ≤ n) by (unfold n; lia).
  pose proof (lookup_lt_Some _ _ _ Ex) as Hip.
  apply wp_bind, (wp_ilock_valid _ _ _ _ _ _ _ x); try done; [apply not_elem_of_nil | by rewrite Hlk |].
  set (x1 := set_i_lock (SleepLock 1 pid) x).
  pose proof (nblk_chunk off n ltac:(lia) ltac:(lia)) as Hnb.
  pose proof (@cost_length sb [] x1) as Hcl. simpl in Hcl.
  eapply wp_bind, (wp_writei pid start LOGSIZE sb 1 dk Hlay [] Hfree ltac:(lia) Hone ip x1); try done.
  - by apply list_lookup_insert_eq.
  - by apply file_ok_lock.
  - by apply fields_ok_lock.
  - fold n. change LOGSIZE with 30. lia.
  - fold n. intros L' v' x' m Hm Hw Hf HL Hin. pose proof (wr_inode _ _ _ _ _ _ _ _ Hw) as [ad Ead].
    rewrite list_insert_insert_eq. apply wp_bind.
    apply (wp_iunlock _ _ _ _ _ _ _ x'); [apply not_elem_of_nil | by apply list_lookup_insert_eq | by rewrite Ead | by rewrite Ead |].
    rewrite list_insert_insert_eq. apply wp_ret.
    apply written_lock in Hw. rewrite Hlk in Hw. apply HQ; try done; [intros Hlt; by apply Hf|]. unfold MAXOPBLOCKS.
    destruct L'; [by apply elem_of_nil in Hin|]. simpl in *. lia.
Qed.

(** Files and the bitmap are made of the blocks after the inodes. *)
Lemma used_view v v' b :
  (∀ b, sb_bmapstart sb ≤ b < sb_size sb → v' b = v b) → 0 ≤ b < sb_size sb → used sb v' b = used sb v b.
Proof.
  intros E Hb. pose proof (BBLOCK_range Hlay b Hb). pose proof (datastart_range Hlay).
  unfold used. by rewrite E by lia.
Qed.

Lemma file_view v v' x :
  (∀ b, sb_bmapstart sb ≤ b < sb_size sb → v' b = v b) → file_ok sb v x →
  file_ok sb v' x ∧ ∀ o, 0 ≤ o < MAXFILE * BSIZE → fbyte v' x o = fbyte v x o.
Proof.
  intros E [W Hd Hs Ht]. pose proof (datastart_range Hlay) as Hds.
  assert (Ho : ∀ b, owns v x b → v' b = v b ∧ used sb v' b = true).
  { intros b (Hb & s & Hs' & <-). destruct (iw_data _ _ _ W s Hs' Hb) as [Hr Hu].
    split; [apply E; lia|]. rewrite (used_view v) by (done || lia). done. }
  split; [split; try done|].
  - by eapply inode_wf_ext.
  - intros bn Hbn Hlt. unfold baddr. rewrite (slot_ext v) by (intros; by apply Ho). by apply Ht.
  - intros o Hr. apply fbyte_ext; [done|]. intros b Hb. by apply Ho.
Qed.

(** A write to a file is one transaction. *)
Lemma write_file_ok t ip x l off v tbl :
  let n := Z.of_nat (length l) in
  idle t pid start LOGSIZE sb v tbl → fs_ok sb v →
  in_core tbl ip x → file_ok sb v x → fields_ok x → 0 ≤ i_inum x < sb_ninodes sb →
  0 ≤ off ≤ i_size x → off + n ≤ MAXFILE * BSIZE → n ≤ chunk →
  ∃ m t' v1 v' x', write_file ip l off (Solo t [] pid) = Ok m (Solo t' [] pid) ∧
    0 ≤ m ≤ n ∧ (m < n → full sb v') ∧ written sb off m l v x v' x' ∧
    idle t' pid start LOGSIZE sb v1 (<[ip := x']> tbl) ∧
    (∀ b, ¬ in_log start LOGSIZE b → v1 b = v' b) ∧
    crash_atomic t t' start LOGSIZE sb v v'.
Proof.
  intros n Hid Hok Hc Fk Fd Hi Hoff Hmax Hch. unfold write_file. fold n.
  destruct (operation_atomic
    (ilock ip ;; r ← writei ip (FromKernel l) off n; iunlock ip ;; ret r)
    (λ m st, ∃ x', 0 ≤ m ≤ n ∧ (m < n → full sb (a_view st)) ∧ written sb off m l v x (a_view st) x' ∧
       a_itab st = <[ip := x']> tbl)
    t pid start LOGSIZE sb v tbl Hid) as (m & t' & v1 & st & E & (x' & H1 & H2 & H3 & H4) & I' & V' & C').
  - done.
  - apply (lo_log _ _ _ Hlay).
  - apply (wp_write_chunk _ ip x); try done. intros L' v' x' m Hm Hw Hf HL. cbn. split_and!; try done.
    + intros ->. simpl in HL. lia.
    + apply (wr_ok _ _ _ _ _ _ _ _ Hw).
    + apply (wr_front _ _ _ _ _ _ _ _ Hw). pose proof (lo_log _ _ _ Hlay). lia.
    + by exists x'.
  - rewrite H4 in I'. exists m, t', v1, (a_view st), x'. done.
Qed.

Lemma wp_read_file dk k ip x off n Q v tbl :
  in_core tbl ip x → fs_ok sb v → file_ok sb v x → 0 ≤ off < 2 ^ 32 → 0 ≤ n < 2 ^ 32 →
  Q (readable x off n, fbytes v x off (readable x off n)) (Ast [] [] [] v tbl) →
  wp pid start LOGSIZE sb k dk (read_file ip off n) Q (Ast [] [] [] v tbl).
Proof.
  intros [Ex Hr Hv Hlk] Hok Fk Hoff Hn HQ. pose proof (lookup_lt_Some _ _ _ Ex) as Hip.
  apply wp_bind, (wp_ilock_valid _ _ _ _ _ _ _ x); try done; [apply not_elem_of_nil | by rewrite Hlk |].
  set (x1 := set_i_lock (SleepLock 1 pid) x).
  eapply wp_bind, (wp_readi _ _ _ _ _ _ [] no_locks ip x1); try done;
    [by apply list_lookup_insert_eq | by apply file_ok_lock |].
  apply wp_bind, (wp_iunlock _ _ _ _ _ _ _ x1); try done; [apply not_elem_of_nil | by apply list_lookup_insert_eq |].
  apply wp_ret. rewrite list_insert_insert_eq. unfold x1.
  replace (set_i_lock (SleepLock 0 0) (set_i_lock (SleepLock 1 pid) x)) with x by (rewrite <- Hlk; by destruct x).
  rewrite (list_insert_id _ _ _ Ex). exact HQ.
Qed.

Lemma read_file_ok t ip x off n v tbl :
  idle t pid start LOGSIZE sb v tbl → fs_ok sb v → in_core tbl ip x → file_ok sb v x →
  0 ≤ off < 2 ^ 32 → 0 ≤ n < 2 ^ 32 →
  ∃ t', read_file ip off n (Solo t [] pid) =
          Ok (readable x off n, fbytes v x off (readable x off n)) (Solo t' [] pid) ∧
    idle t' pid start LOGSIZE sb v tbl.
Proof.
  intros [T Hv Hsb Hit Hlog Hlen Hhdr] Hok Hc Fk Hoff Hn.
  destruct (wp_read_file (f_disk t) 0 ip x off n (λ r st, st = Ast [] [] [] v tbl ∧
    r = (readable x off n, fbytes v x off (readable x off n))) v tbl Hc Hok Fk Hoff Hn) with (t := t)
    as (r & t' & st & E & F & -> & ->); [done | split; try done; by intros h ?%elem_of_nil |].
  exists t'. split; [done|]. destruct F as [T' V' S' D' I' _]. by split.
Qed.
End ops.

(** ** Theorems *)

(** C2: a write to a file is atomic across crashes.  For up to [chunk] bytes,
    as many as [filewrite] passes to [writei] in one transaction, the ten
    blocks [begin_op] reserves are enough: the write returns.  If not all
    bytes were written the disk is full.  The file then has the new bytes at
    [off] and its old bytes elsewhere, its size covers them, and the inode on
    the disk says so; the contents of every other file and all other inodes
    are as before.  If the machine crashes at any point of the disk writes,
    [fsinit] at the next boot returns with an idle file system again, and its
    blocks are those from before the write, or those from after it. *)
Theorem write_crash_atomic t pid start sb v tbl ip x l off
    (Hidle : idle t pid start LOGSIZE sb v tbl) (Hlay : layout sb start LOGSIZE) (Hone : sb_size sb ≤ BPB)
    (Hok : fs_ok sb v) (Hcore : in_core tbl ip x) (Hfile : file_ok sb v x) (Hfields : fields_ok x)
    (Hinum : 0 ≤ i_inum x < sb_ninodes sb) (Hoff : 0 ≤ off ≤ i_size x)
    (Hmax : off + Z.of_nat (length l) ≤ MAXFILE * BSIZE) (Hchunk : Z.of_nat (length l) ≤ chunk) :
  ∃ m t' v1 v' x', write_file ip l off (Solo t [] pid) = Ok m (Solo t' [] pid) ∧
    0 ≤ m ≤ Z.of_nat (length l) ∧ (m < Z.of_nat (length l) → full sb v') ∧
    written sb off m l v x v' x' ∧ idle t' pid start LOGSIZE sb v1 (<[ip := x']> tbl) ∧
    (∀ b, ¬ in_log start LOGSIZE b → v1 b = v' b) ∧
    crash_atomic t t' start LOGSIZE sb v v'.
Proof. by apply write_file_ok. Qed.

(** Blocks after the log are the same in two views. *)
Lemma outside_log sb start (v1 v' : Z → list Z) b :
  layout sb start LOGSIZE → (∀ b, ¬ in_log start LOGSIZE b → v1 b = v' b) →
  sb_bmapstart sb ≤ b < sb_size sb → v1 b = v' b.
Proof.
  intros Hlay E Hb. apply E. destruct (meta_home Hlay b) as [? _]; [|done].
  pose proof (datastart_range Hlay). lia.
Qed.

Lemma fs_ok_view sb start v v' :
  layout sb start LOGSIZE → (∀ b, sb_bmapstart sb ≤ b < sb_size sb → v' b = v b) →
  (∀ b, length (v' b) = 1024%nat) → fs_ok sb v → fs_ok sb v'.
Proof.
  intros Hlay E Hl [_ Hm]. split; [done|]. intros b Hb. pose proof (datastart_range Hlay).
  rewrite (used_view start sb Hlay v) by (done || lia). auto.
Qed.

(** C9: what is written to a file is read back.  After a write of [l] at
    [off], of which [m] bytes were stored, a read at any offset returns the
    bytes of [l] at the places [off] to [off + m] and the old bytes elsewhere,
    up to the new size; a read from any other open file returns what it
    returned before the write. *)
Theorem write_then_read t pid start sb v tbl ip x jp y l off off' n'
    (Hidle : idle t pid start LOGSIZE sb v tbl) (Hlay : layout sb start LOGSIZE) (Hone : sb_size sb ≤ BPB)
    (Hok : fs_ok sb v) (Hcore : in_core tbl ip x) (Hfile : file_ok sb v x) (Hfields : fields_ok x)
    (Hinum : 0 ≤ i_inum x < sb_ninodes sb) (Hoff : 0 ≤ off ≤ i_size x)
    (Hmax : off + Z.of_nat (length l) ≤ MAXFILE * BSIZE) (Hchunk : Z.of_nat (length l) ≤ chunk)
    (Hother : in_core tbl jp y) (Hne : jp ≠ ip) (Hy : file_ok sb v y) (Hapart : apart v x y)
    (Hoff' : 0 ≤ off' < 2 ^ 32) (Hn' : 0 ≤ n' < 2 ^ 32) :
  ∃ m t', (w ← write_file ip l off;
           r1 ← read_file ip off' n';
           r2 ← read_file jp off' n';
           ret (w, r1, r2)) (Solo t [] pid) =
    let r := readable (set_i_size (Z.max (i_size x) (off + m)) x) off' n' in
    Ok (m, (r, overwrite (fbyte v x) off m l <$> zseq off' (Z.to_nat r)),
        (readable y off' n', fbytes v y off' (readable y off' n'))) (Solo t' [] pid).
Proof.
  destruct (write_file_ok pid start sb Hlay Hone t ip x l off v tbl)
    as (m & t1 & v1 & v' & x' & E1 & Hm & Hfull & W & I1 & V1 & _); try done.
  pose proof (wr_inode _ _ _ _ _ _ _ _ W) as [ad Ead].
  pose proof (λ b, outside_log sb start v1 v' b Hlay V1) as V1'.
  destruct (file_view start sb Hlay v' v1 x' V1' (wr_file _ _ _ _ _ _ _ _ W)) as [Fx Bx].
  destruct (wr_others _ _ _ _ _ _ _ _ W y Hy Hapart) as (Fy' & _ & By').
  destruct (file_view start sb Hlay v' v1 y V1' Fy') as [Fy By].
  assert (Hok1 : fs_ok sb v1).
  { apply (fs_ok_view sb start v'); try done; [apply (id_len _ _ _ _ _ _ _ I1) | apply (wr_ok _ _ _ _ _ _ _ _ W)]. }
  destruct Hcore as [Ex ? ? ?]. destruct Hother as [Ey ? ? ?]. pose proof (lookup_lt_Some _ _ _ Ex) as Hip.
  destruct (read_file_ok pid start sb t1 ip x' off' n' v1 (<[ip := x']> tbl)) as (t2 & E2 & I2); try done.
  { split; [by apply list_lookup_insert_eq | by rewrite Ead..]. }
  destruct (read_file_ok pid start sb t2 jp y off' n' v1 (<[ip := x']> tbl)) as (t3 & E3 & I3); try done.
  { split; try done. by rewrite list_lookup_insert_ne. }
  exists m, t3. rewrite (bind_ok _ _ _ _ _ E1), (bind_ok _ _ _ _ _ E2), (bind_ok _ _ _ _ _ E3).
  assert (Er : readable x' off' n' = readable (set_i_size (Z.max (i_size x) (off + m)) x) off' n') by (by rewrite Ead).
  cbn zeta. rewrite Er. set (r := readable (set_i_size _ x) off' n') in *.
  assert (Hr : r = 0 ∨ 0 ≤ r ∧ off' + r ≤ MAXFILE * BSIZE).
  { pose proof (fk_size _ _ _ Fx) as Hs. rewrite Ead in Hs. cbn [i_size set_i_size set_i_addrs] in Hs.
    unfold r, readable. cbn [i_size set_i_size]. case_if; [by left|right]. bool_to_prop. lia. }
  assert (Hry : readable y off' n' = 0 ∨ 0 ≤ readable y off' n' ∧ off' + readable y off' n' ≤ MAXFILE * BSIZE).
  { pose proof (fk_size _ _ _ Hy) as Hs. unfold readable. case_if; [by left|right]. bool_to_prop. lia. }
  unfold ret. do 3 f_equal; [f_equal|].
  - unfold fbytes. apply list_fmap_ext. intros i o Ho%list_elem_of_lookup_2. apply elem_of_zseq in Ho.
    rewrite Bx by lia. apply (wr_bytes _ _ _ _ _ _ _ _ W). lia.
  - apply fbytes_ext. intros o Ho. rewrite By by lia. apply By'. lia.
Qed.

(** ** An example disk: the layout of [mkfs], one block of directory entries,
    two empty files *)
Definition ex_bitmap : list Z := replicate 6 255 ++ replicate 1018 0.
Definition ex_entries : list Z := mk_dirent 2 [97] ++ replicate 1008 0.
Definition ex_super : list Z :=
  concat (le_bytes 4 <$> [FSMAGIC; 2000; 1954; 200; 30; 2; 32; 45]) ++ replicate 992 0.
Definition ex_blocks : gmap Z (list Z) := <[1 := ex_super]> (<[46 := ex_entries]> {[45 := ex_bitmap]}).
Definition ex_inode (inum : Z) : inode := Inode ROOTDEV inum 1 (SleepLock 0 0) 1 T_FILE 0 0 1 0 (replicate 13 0).
Definition ex_table : list inode := [ex_inode 2; ex_inode 3].
Definition ex_state_on (m : gmap Z (list Z)) (tbl : list inode) : fsst :=
  set_f_itable tbl (set_f_sb ex_sb (mod_log (λ _, Log 2 30 0 0 ROOTDEV 0 (replicate 30 0)) (boot_fs m))).
Definition ex_state : list inode → fsst := ex_state_on ex_blocks.

#[local] Opaque boot_list.

Lemma ex_layout : layout ex_sb 2 LOGSIZE.
Proof. split; cbn; repeat split; (reflexivity || (vm_compute; discriminate)). Qed.

(** Super block, log and inodes are not part of the cache. *)
Lemma bview_rest tbl sb g t b : bview (set_f_itable tbl (set_f_sb sb (mod_log g t))) b = bview t b.
Proof. done. Qed.

Lemma cache_rest tbl sb g t pid H P :
  cache_inv t pid H P → cache_inv (set_f_itable tbl (set_f_sb sb (mod_log g t))) pid H P.
Proof. intros []. by split. Qed.

Lemma ex_length b : length (image ex_blocks b) = 1024%nat.
Proof.
  unfold image, ex_blocks. destruct (decide (b = 1)) as [->|]; [by rewrite lookup_insert_eq|].
  rewrite lookup_insert_ne by done. destruct (decide (b = 46)) as [->|]; [by rewrite lookup_insert_eq|].
  rewrite lookup_insert_ne by done. destruct (decide (b = 45)) as [->|].
  - by rewrite lookup_singleton_eq.
  - by rewrite lookup_singleton_ne.
Qed.

Lemma ex_idle_on m tbl :
  get_superblock (image m 1) = ex_sb → (∀ b, length (image m b) = 1024%nat) → hdr_n (image m 2) = 0 →
  idle (ex_state_on m tbl) 1 2 LOGSIZE ex_sb (image m) tbl.
Proof.
  intros Hs Hl Hh. split; [| | reflexivity | reflexivity | | done | done].
  - split; [| |reflexivity..].
    + exists []. split; [|done]. apply cache_rest, boot_cache.
    + split; [reflexivity | reflexivity | reflexivity | reflexivity | apply NoDup_nil_2 | |].
      * simpl. rewrite HEAD_30. change LOGSIZE with 30. lia.
      * by intros b ?%elem_of_nil.
  - intros b. unfold ex_state_on. rewrite bview_rest. apply boot_bview.
  - split; [done|]. repeat split; reflexivity.
Qed.

Lemma ex_idle tbl : idle (ex_state tbl) 1 2 LOGSIZE ex_sb (image ex_blocks) tbl.
Proof. apply ex_idle_on; [reflexivity | apply ex_length | reflexivity]. Qed.

Lemma ex_ok : fs_ok ex_sb (image ex_blocks).
Proof.
  split; [apply ex_length|]. intros b Hb.
  assert (H : forallb (used ex_sb (image ex_blocks)) (zseq 0 46) = true) by (vm_compute; reflexivity).
  rewrite forallb_forall in H. apply H. apply list_elem_of_In, elem_of_zseq. change (datastart ex_sb) with 46 in Hb. lia.
Qed.

Lemma ex_slot v inum s : slot v (ex_inode inum) s = 0.
Proof.
  unfold slot, indirect. cbn [i_addrs ex_inode]. destruct (s <=? 12); [|done].
  destruct (lookup _ _) as [a|] eqn:E; [|done]. by apply lookup_replicate in E as [-> _].
Qed.

Lemma ex_file v inum : file_ok ex_sb v (ex_inode inum).
Proof.
  split; [split; [reflexivity | intros s _ Hn; by rewrite ex_slot in Hn | intros s s' _ _ Hn; by rewrite ex_slot in Hn]
    | reflexivity | cbn; change MAXFILE with 268; change BSIZE with 1024; lia |].
  intros bn Hbn Hlt. cbn in Hlt. change BSIZE with 1024 in Hlt. lia.
Qed.

Lemma ex_fields inum : fields_ok (ex_inode inum).
Proof.
  split; cbn; unfold T_FILE; try lia. split; [reflexivity|]. by repeat constructor.
Qed.

Lemma write_crash_atomic_witness :
  ∃ m t' v1 v' x', write_file 0 [104; 105] 0 (Solo (ex_state ex_table) [] 1) = Ok m (Solo t' [] 1) ∧
    written ex_sb 0 m [104; 105] (image ex_blocks) (ex_inode 2) v' x' ∧
    idle t' 1 2 LOGSIZE ex_sb v1 (<[0%nat := x']> ex_table) ∧
    crash_atomic (ex_state ex_table) t' 2 LOGSIZE ex_sb (image ex_blocks) v'.
Proof.
  destruct (write_crash_atomic (ex_state ex_table) 1 2 ex_sb (image ex_blocks) ex_table 0 (ex_inode 2) [104; 105] 0)
    as (m & t' & v1 & v' & x' & E & _ & _ & W & I & _ & C).
  - apply ex_idle.
  - exact ex_layout.
  - vm_compute. discriminate.
  - exact ex_ok.
  - split; [reflexivity | cbn; lia | cbn; lia | reflexivity].
  - apply ex_file.
  - apply ex_fields.
  - cbn. lia.
  - cbn. lia.
  - vm_compute. discriminate.
  - vm_compute. discriminate.
  - exists m, t', v1, v', x'. exact (conj E (conj W (conj I C))).
Defined.

Lemma write_then_read_witness :
  ∃ m t', (w ← write_file 0 [104; 105] 0;
           r1 ← read_file 0 0 10;
           r2 ← read_file 1 0 10;
           ret (w, r1, r2)) (Solo (ex_state ex_table) [] 1) =
    let r := readable (set_i_size (Z.max 0 (0 + m)) (ex_inode 2)) 0 10 in
    Ok (m, (r, overwrite (fbyte (image ex_blocks) (ex_inode 2)) 0 m [104; 105] <$> zseq 0 (Z.to_nat r)), (0, []))
      (Solo t' [] 1).
Proof.
  apply (write_then_read (ex_state ex_table) 1 2 ex_sb (image ex_blocks) ex_table 0 (ex_inode 2) 1 (ex_inode 3)
    [104; 105] 0 0 10).
  - apply ex_idle.
  - exact ex_layout.
  - vm_compute. discriminate.
  - exact ex_ok.
  - split; [reflexivity | cbn; lia | cbn; lia | reflexivity].
  - apply ex_file.
  - apply ex_fields.
  - cbn. lia.
  - cbn. lia.
  - vm_compute. discriminate.
  - vm_compute. discriminate.
  - split; [reflexivity | cbn; lia | cbn; lia | reflexivity].
  - discriminate.
  - apply ex_file.
  - intros b (Hb & s & _ & E). rewrite ex_slot in E. congruence.
  - lia.
  - lia.
Defined.
