(* ===== verification/FsDir.v ===== *)
(** * Directories

    A directory is a file of 16-byte entries.  [lookup_dir] is the inode
    number and the offset a name stands for.  [dirlookup] implements it, and
    [dirlink] adds a name without changing what other names stand for. *)

From stdpp Require Import functions.
From S2P Require Import Base Riscv Mem Kstring Kernel Sleeplock FsState Bio BioList BioSpec Log LogSpec.
From S2P Require Import LogCrash LogOps Fs FsLogic FsBoot FsAlloc FsInode FsFile FsData FsOps.
Local Open Scope Z_scope.
Local Open Scope kernel_scope.

(** Entry [i] of directory [x]. *)
Definition dent (v : Z → list Z) (x : inode) (i : Z) : list Z := fbytes v x (sizeof_dirent * i) sizeof_dirent.
Definition nents (x : inode) : Z := i_size x / sizeof_dirent.

(** The entry is in use and has the name. *)
Definition names (name : list Z) (de : list Z) : bool :=
  negb (dirent_inum de =? 0) && (namecmp name (dirent_name de) =? 0).

Definition lookup_dir (v : Z → list Z) (x : inode) (name : list Z) : option (Z * Z) :=
  match List.find (λ i, names name (dent v x i)) (zseq 0 (Z.to_nat (nents x))) with
  | Some i => Some (dirent_inum (dent v x i), sizeof_dirent * i)
  | None => None
  end.

(** Where a new entry goes. *)
Definition free_entry (v : Z → list Z) (x : inode) : Z :=
  match List.find (λ i, dirent_inum (dent v x i) =? 0) (zseq 0 (Z.to_nat (nents x))) with
  | Some i => sizeof_dirent * i
  | None => i_size x
  end.

Record dir_ok (sb : superblock) (v : Z → list Z) (x : inode) : Prop := {
  dk_file : file_ok sb v x;
  dk_type : i_type x = T_DIR;
  dk_size : (sizeof_dirent | i_size x);
}.

(** ** The table of inodes *)
Definition iget_table (tbl : list inode) (inum : Z) : option (nat * list inode) :=
  match iget_scan tbl 0 ROOTDEV inum None with
  | inl ip => Some (ip, alter (λ x, set_i_ref (i_ref x + 1) x) ip tbl)
  | inr (Some ip) => Some (ip, alter (λ x, set_i_valid 0 (set_i_ref 1 (set_i_inum inum (set_i_dev ROOTDEV x)))) ip tbl)
  | inr None => None
  end.

(** ** Entries of directories *)
Lemma find_first (f : Z → bool) a n i :
  a ≤ i < a + Z.of_nat n → f i = true → (∀ j, a ≤ j < i → f j = false) → List.find f (zseq a n) = Some i.
Proof.
  revert a. induction n as [|n IH]; intros a Hi Hf Hlt; [lia|]. cbn [zseq List.find].
  destruct (decide (a = i)) as [->|]; [by rewrite Hf|]. rewrite Hlt by lia. apply IH; [lia | done | intros; apply Hlt; lia].
Qed.

Lemma find_zseq_none (f : Z → bool) a n :
  List.find f (zseq a n) = None ↔ ∀ j, a ≤ j < a + Z.of_nat n → f j = false.
Proof.
  revert a. induction n as [|n IH]; intros a; cbn [zseq List.find]; [split; [intros; lia | done]|].
  destruct (f a) eqn:E; split.
  - done.
  - intros H. rewrite H in E by lia. done.
  - intros H j Hj. destruct (decide (j = a)) as [->|]; [done|]. apply (proj1 (IH (a + 1)) H). lia.
  - intros H. apply IH. intros j Hj. apply H. lia.
Qed.

Lemma find_zseq_some (f : Z → bool) a n i :
  List.find f (zseq a n) = Some i → a ≤ i < a + Z.of_nat n ∧ f i = true ∧ ∀ j, a ≤ j < i → f j = false.
Proof.
  revert a. induction n as [|n IH]; intros a; cbn [zseq List.find]; [done|]. destruct (f a) eqn:E.
  - intros [= <-]. split_and!; [lia | lia | done | intros; lia].
  - intros (H1 & H2 & H3)%IH. split_and!; [lia | lia | done |]. intros j Hj.
    destruct (decide (j = a)) as [->|]; [done|]. apply H3. lia.
Qed.

Lemma find_zseq_ext (f g : Z → bool) a n m :
  (∀ j, a ≤ j < a + Z.of_nat n → f j = g j) → (n ≤ m)%nat →
  (∀ j, a + Z.of_nat n ≤ j < a + Z.of_nat m → f j = false) →
  List.find f (zseq a m) = List.find g (zseq a n).
Proof.
  intros Hfg Hnm Hf. destruct (List.find g (zseq a n)) as [i|] eqn:E.
  - apply find_zseq_some in E as (H1 & H2 & H3). apply find_first; [lia | by rewrite Hfg |].
    intros j Hj. rewrite Hfg by lia. auto.
  - apply find_zseq_none. intros j Hj. rewrite find_zseq_none in E.
    destruct (decide (j < a + Z.of_nat n)); [rewrite Hfg by lia; apply E; lia | apply Hf; lia].
Qed.

Lemma mk_dirent_length inum name : length (mk_dirent inum name) = 16%nat.
Proof. unfold mk_dirent. rewrite length_app, le_bytes_length, zpad_length. done. Qed.

Lemma dirent_inum_mk inum name : 0 < inum < 2 ^ 16 → dirent_inum (mk_dirent inum name) = inum.
Proof.
  intros Hinum. unfold dirent_inum, mk_dirent. rewrite take_app_length' by (by rewrite le_bytes_length).
  rewrite le_val_bytes. change (256 ^ Z.of_nat 2) with (2 ^ 16). apply Z.mod_small. lia.
Qed.

Lemma dirent_name_mk inum name : dirent_name (mk_dirent inum name) = zpad 14 name.
Proof.
  unfold dirent_name, mk_dirent. rewrite drop_app_length' by (by rewrite le_bytes_length).
  change (Z.to_nat DIRSIZ) with 14%nat. apply take_ge. by rewrite zpad_length.
Qed.

Lemma zpad_bytes n l : Forall (λ c, 0 ≤ c < 256) l → Forall (λ c, 0 ≤ c < 256) (zpad n l).
Proof.
  intros Hl. revert n. induction Hl as [|c l Hc Hl IH]; intros n.
  - induction n; simpl; constructor; [lia | done].
  - destruct n; simpl; constructor; auto.
Qed.

Lemma cstr_zpad n (l : list Z) : cstr (take n (zpad n l)) = cstr (take n l).
Proof.
  revert l. induction n as [|n IH]; intros [|c l]; simpl; try done.
  by rewrite IH.
Qed.

Section entries.
  Context {sb : superblock} {v v' : Z → list Z} {x x' : inode} {inum : Z} {name : list Z}.
  Context (D : dir_ok sb v x) (Hinum : 0 < inum < 2 ^ 16) (Hname : Forall (λ c, 0 ≤ c < 256) name).
  Context (Hmax : i_size x + sizeof_dirent ≤ MAXFILE * BSIZE).
  Context (W : written sb (free_entry v x) sizeof_dirent (mk_dirent inum name) v x v' x').
Let k := free_entry v x / sizeof_dirent.

Lemma free_entry_spec :
  free_entry v x = sizeof_dirent * k ∧ 0 ≤ k ≤ nents x ∧ (k < nents x → dirent_inum (dent v x k) = 0).
Proof.
  destruct (dk_size _ _ _ D) as [q Eq]. pose proof (fk_size _ _ _ (dk_file _ _ _ D)) as Hs.
  assert (En : nents x = q) by (unfold nents; rewrite Eq; apply Z.div_mul; done).
  unfold k, free_entry. change sizeof_dirent with 16 in *.
  destruct (List.find _ _) as [i|] eqn:E.
  - apply find_zseq_some in E as (H1 & H2 & _). bool_to_prop. rewrite Z.mul_comm, Z.div_mul by done.
    by split_and!; try lia.
  - rewrite En, Eq, Z.div_mul by done. split_and!; try lia.
Qed.

Lemma nents_new : nents x' = Z.max (nents x) (k + 1).
Proof.
  destruct free_entry_spec as (E1 & E2 & _). destruct (wr_inode _ _ _ _ _ _ _ _ W) as [ad ->].
  destruct (dk_size _ _ _ D) as [q Eq]. unfold nents in *. cbn [i_size set_i_size set_i_addrs].
  change sizeof_dirent with 16 in *. rewrite E1, Eq in *. zlia.
Qed.

Lemma dent_new i :
  0 ≤ i < nents x' → dent v' x' i = if decide (i = k) then mk_dirent inum name else dent v x i.
Proof.
  intros Hi. destruct free_entry_spec as (E1 & E2 & _). rewrite nents_new in Hi.
  destruct (dk_size _ _ _ D) as [q Eq].
  assert (En : nents x = q) by (unfold nents; rewrite Eq; apply Z.div_mul; done).
  change sizeof_dirent with 16 in *. unfold dent. change sizeof_dirent with 16.
  apply list_eq. intros j. destruct (decide (j < 16)%nat) as [Hj|Hj].
  - rewrite fbytes_lookup by done. rewrite (wr_bytes _ _ _ _ _ _ _ _ W) by lia.
    change sizeof_dirent with 16. unfold overwrite. rewrite E1. case_decide as Ed.
    + subst i. rewrite (proj2 (Z.leb_le _ _)), (proj2 (Z.ltb_lt _ _)) by lia. cbn [andb].
      replace (Z.to_nat (16 * k + Z.of_nat j - 16 * k)) with j by lia.
      destruct (lookup_lt_is_Some_2 (mk_dirent inum name) j) as [c Ec]; [by rewrite mk_dirent_length|].
      by rewrite Ec.
    + replace (_ && _) with false.
      2:{ symmetry. apply andb_false_iff. rewrite Z.leb_gt, Z.ltb_ge. lia. }
      by rewrite fbytes_lookup.
  - rewrite (lookup_ge_None_2 (fbytes _ _ _ _)) by (rewrite fbytes_length; lia). symmetry.
    apply lookup_ge_None_2. case_decide; [rewrite mk_dirent_length | rewrite fbytes_length]; lia.
Qed.

Lemma namecmp_self : namecmp name (zpad 14 name) = 0.
Proof.
  apply strncmp_bytes_zero; [done | by apply zpad_bytes |]. change (Z.to_nat DIRSIZ) with 14%nat.
  symmetry. apply cstr_zpad.
Qed.

Lemma namecmp_other name' :
  Forall (λ c, 0 ≤ c < 256) name' → namecmp name' name ≠ 0 → namecmp name' (zpad 14 name) ≠ 0.
Proof.
  intros Hn' Hne E. apply Hne. apply strncmp_bytes_zero in E; [|done|by apply zpad_bytes].
  apply strncmp_bytes_zero; [done..|]. change (Z.to_nat DIRSIZ) with 14%nat in *. by rewrite E, cstr_zpad.
Qed.

(** The new name is found, the others stand for what they stood for. *)
Lemma lookup_new :
  lookup_dir v x name = None → lookup_dir v' x' name = Some (inum, free_entry v x).
Proof.
  unfold lookup_dir. destruct free_entry_spec as (E1 & E2 & E3). pose proof nents_new as En.
  destruct (List.find _ _) eqn:E; [done|]. intros _. rewrite find_zseq_none in E.
  rewrite (find_first _ _ _ k).
  - rewrite dent_new, decide_True, dirent_inum_mk, E1 by (done || lia). done.
  - lia.
  - rewrite dent_new, decide_True by (done || lia). unfold names.
    rewrite dirent_inum_mk, dirent_name_mk, namecmp_self, (proj2 (Z.eqb_neq inum 0)) by lia. done.
  - intros j Hj. rewrite dent_new, decide_False by lia. apply E. lia.
Qed.

Lemma lookup_others name' :
  Forall (λ c, 0 ≤ c < 256) name' → namecmp name' name ≠ 0 → lookup_dir v' x' name' = lookup_dir v x name'.
Proof.
  intros Hn' Hne. unfold lookup_dir. destruct free_entry_spec as (E1 & E2 & E3). pose proof nents_new as En.
  assert (Hnew : names name' (dent v' x' k) = false).
  { rewrite dent_new, decide_True by (done || lia). unfold names. rewrite dirent_name_mk.
    apply (namecmp_other _ Hn') in Hne. rewrite (proj2 (Z.eqb_neq (namecmp _ _) 0)) by done. apply andb_false_r. }
  assert (Hf : List.find (λ i, names name' (dent v' x' i)) (zseq 0 (Z.to_nat (nents x'))) =
               List.find (λ i, names name' (dent v x i)) (zseq 0 (Z.to_nat (nents x)))).
  { apply find_zseq_ext; [|lia|].
    - intros j Hj. destruct (decide (j = k)) as [->|].
      + rewrite Hnew. unfold names. rewrite E3 by lia. done.
      + by rewrite dent_new, decide_False by lia.
    - intros j Hj. replace j with k by lia. done. }
  rewrite Hf. destruct (List.find _ (zseq 0 (Z.to_nat (nents x)))) as [i|] eqn:E; [|done].
  apply find_zseq_some in E as (H1 & H2 & _). rewrite dent_new by lia. case_decide; [|done]. subst i.
  unfold names in H2. rewrite E3 in H2 by lia. done.
Qed.
End entries.

(** ** The operations *)
Section dirs.
  Context (pid start size : Z) (sb : superblock) (k : Z) (dk : disk).
  Context (ls : list lockid) (Hls : fs_free ls).
  Abbreviation wp := (wp pid start size sb k dk).

Lemma wp_iget inum ip tbl' Q H L v tbl :
  Litable ∉ ls → iget_table tbl inum = Some (ip, tbl') →
  Q ip (Ast ls H L v tbl') → wp (iget ROOTDEV inum) Q (Ast ls H L v tbl).
Proof.
  intros Hl Ht HQ. unfold iget, iget_table in *. apply wp_bind, wp_acquire; [done|].
  apply wp_bind. apply (wp_get _ _ _ _ _ _ _ _ _ tbl); [intros t Hat; by rewrite (fa_itab _ _ _ _ _ _ _ _ Hat)|].
  destruct (iget_scan tbl 0 ROOTDEV inum None) as [i|[i|]]; [..|done]; injection Ht as <- <-.
  - apply wp_bind, wp_iset. apply wp_bind, wp_release. by apply wp_ret.
  - do 4 apply wp_bind, wp_iset. apply wp_bind, wp_release. apply wp_ret.
    rewrite !list_alter_alter_eq. exact HQ.
Qed.

(** Reading one entry. *)
Lemma wp_read_entry dp x i Q L v tbl :
  tbl !! dp = Some x → fs_ok sb v → dir_ok sb v x → 0 ≤ i < nents x →
  Q (sizeof_dirent, dent v x i) (Ast ls [] L v tbl) →
  wp (readi dp false 0 (sizeof_dirent * i) sizeof_dirent) Q (Ast ls [] L v tbl).
Proof.
  intros Ex Hok D Hi HQ. pose proof (fk_size _ _ _ (dk_file _ _ _ D)) as Hs.
  destruct (dk_size _ _ _ D) as [q Eq]. unfold nents in Hi. rewrite Eq in Hi.
  change sizeof_dirent with 16 in *. change MAXFILE with 268 in *. change BSIZE with 1024 in *.
  rewrite Z.div_mul in Hi by done.
  apply (wp_readi _ _ _ _ _ _ ls Hls dp x); try done; [apply D | lia |].
  assert (readable x (16 * i) 16 = 16) as ->; [|exact HQ].
  unfold readable. rewrite Z.gtb_ltb, (proj2 (Z.ltb_ge _ _)), (proj2 (Z.leb_gt _ _)) by lia. cbn [orb]. lia.
Qed.

Lemma wp_dirlookup_loop fuel dp x name i Q L v tbl :
  tbl !! dp = Some x → fs_ok sb v → dir_ok sb v x → 0 ≤ i ≤ nents x → nents x - i < Z.of_nat fuel →
  (∀ j, 0 ≤ j < i → names name (dent v x j) = false) →
  match lookup_dir v x name with
  | Some (inum, off) => wp (iget ROOTDEV inum) (λ ip, Q (Some (ip, off))) (Ast ls [] L v tbl)
  | None => Q None (Ast ls [] L v tbl)
  end → wp (dirlookup_loop fuel dp name (sizeof_dirent * i)) Q (Ast ls [] L v tbl).
Proof.
  intros Ex Hok D. pose proof (fk_size _ _ _ (dk_file _ _ _ D)) as Hs.
  destruct (dk_size _ _ _ D) as [q Eq]. change MAXFILE with 268 in Hs. change BSIZE with 1024 in Hs.
  assert (En : nents x = q) by (unfold nents; rewrite Eq; apply Z.div_mul; done).
  revert i. induction fuel as [|fuel IH]; intros i Hi Hfuel Hbefore HQ; [lia|]. cbn [dirlookup_loop].
  apply wp_bind, wp_ifield. cbn [a_itab]. rewrite Ex. change (default inode0 (Some x)) with x.
  change sizeof_dirent with 16 in *. case_if; bool_to_prop.
  - apply wp_bind. apply (wp_read_entry dp x i); try done; [lia|].
    change (sizeof_dirent) with 16. rewrite Z.eqb_refl. cbn [negb]. case_if.
    + replace (u32 (16 * i + 16)) with (16 * (i + 1)) by (rewrite u32_small; lia).
      apply IH; [lia | lia | | done]. intros j Hj. destruct (decide (j = i)) as [->|]; [|apply Hbefore; lia].
      unfold names. apply orb_true_iff in E0 as [->|E0]; [done|]. rewrite negb_true_iff in E0. rewrite E0. apply andb_false_r.
    + bool_to_prop. apply wp_bind, wp_ifield. cbn [a_itab]. rewrite Ex. change (default inode0 (Some x)) with x.
      rewrite (fk_dev _ _ _ (dk_file _ _ _ D)).
      assert (El : lookup_dir v x name = Some (dirent_inum (dent v x i), 16 * i)).
      { unfold lookup_dir. rewrite (find_first _ _ _ i); [done | lia | | done].
        unfold names. rewrite (proj2 (Z.eqb_neq _ _)), (proj2 (Z.eqb_eq _ _)) by done. done. }
      rewrite El in HQ. apply wp_bind. eapply wp_mono; [exact HQ|]. intros ip st' HQ'. by apply wp_ret.
  - assert (El : lookup_dir v x name = None).
    { unfold lookup_dir. replace (List.find _ _) with (@None Z); [done|]. symmetry.
      apply find_zseq_none. intros j Hj. apply Hbefore. lia. }
    rewrite El in HQ. by apply wp_ret.
Qed.

(** [dirlookup] implements [lookup_dir]. *)
Lemma wp_dirlookup dp x name Q L v tbl :
  tbl !! dp = Some x → fs_ok sb v → dir_ok sb v x →
  match lookup_dir v x name with
  | Some (inum, off) => wp (iget ROOTDEV inum) (λ ip, Q (Some (ip, off))) (Ast ls [] L v tbl)
  | None => Q None (Ast ls [] L v tbl)
  end → wp (dirlookup dp name) Q (Ast ls [] L v tbl).
Proof.
  intros Ex Hok D HQ. pose proof (fk_size _ _ _ (dk_file _ _ _ D)) as Hs. unfold dirlookup.
  apply wp_bind, wp_ifield. cbn [a_itab]. rewrite Ex. change (default inode0 (Some x)) with x.
  rewrite (dk_type _ _ _ D). change (negb (T_DIR =? T_DIR)) with false. cbv iota.
  apply wp_bind, wp_ifield. cbn [a_itab]. rewrite Ex. change (default inode0 (Some x)) with x.
  assert (0 ≤ nents x) by (apply Z.div_pos; [lia|done]).
  apply (wp_dirlookup_loop _ _ x _ 0); try done; [unfold nents in *; lia | intros; lia].
Qed.

Lemma wp_dirlink_loop fuel dp x i Q L v tbl :
  tbl !! dp = Some x → fs_ok sb v → dir_ok sb v x → 0 ≤ i ≤ nents x → nents x - i < Z.of_nat fuel →
  (∀ j, 0 ≤ j < i → dirent_inum (dent v x j) ≠ 0) →
  Q (free_entry v x) (Ast ls [] L v tbl) → wp (dirlink_loop fuel dp (sizeof_dirent * i)) Q (Ast ls [] L v tbl).
Proof.
  intros Ex Hok D. pose proof (fk_size _ _ _ (dk_file _ _ _ D)) as Hs.
  destruct (dk_size _ _ _ D) as [q Eq]. change MAXFILE with 268 in Hs. change BSIZE with 1024 in Hs.
  assert (En : nents x = q) by (unfold nents; rewrite Eq; apply Z.div_mul; done).
  revert i. induction fuel as [|fuel IH]; intros i Hi Hfuel Hbefore HQ; [lia|]. cbn [dirlink_loop].
  apply wp_bind, wp_ifield. cbn [a_itab]. rewrite Ex. change (default inode0 (Some x)) with x.
  change sizeof_dirent with 16 in *. case_if; bool_to_prop.
  - apply wp_bind. apply (wp_read_entry dp x i); try done; [lia|].
    change (sizeof_dirent) with 16. rewrite Z.eqb_refl. cbn [negb]. case_if; bool_to_prop.
    + apply wp_ret. replace (16 * i) with (free_entry v x); [done|]. unfold free_entry.
      rewrite (find_first _ _ _ i); [done | lia | by apply Z.eqb_eq |].
      intros j Hj. apply Z.eqb_neq. by apply Hbefore.
    + replace (16 * i + 16) with (16 * (i + 1)) by lia. apply IH; [lia | lia | | done].
      intros j Hj. destruct (decide (j = i)) as [->|]; [done | apply Hbefore; lia].
  - apply wp_ret. replace (16 * i) with (free_entry v x); [done|]. unfold free_entry.
    replace (List.find _ _) with (@None Z); [lia|]. symmetry. apply find_zseq_none.
    intros j Hj. apply Z.eqb_neq, Hbefore. lia.
Qed.
End dirs.

Section dirlink.
  Context (pid start size : Z) (sb : superblock) (k : Z) (dk : disk) (Hlay : layout sb start size).
  Context (ls : list lockid) (Hls : fs_free ls) (Hk : 1 ≤ k) (Hone : sb_size sb ≤ BPB).
  Abbreviation wp := (wp pid start size sb k dk).

Lemma written_none off l v x v' x' :
  written sb off 0 l v x v' x' → off ≤ i_size x →
  i_size x' = i_size x ∧ ∀ o, 0 ≤ o < MAXFILE * BSIZE → fbyte v' x' o = fbyte v x o.
Proof.
  intros W Ho. destruct (wr_inode _ _ _ _ _ _ _ _ W) as [ad E]. split.
  - rewrite E. cbn. lia.
  - intros o Hr. rewrite (wr_bytes _ _ _ _ _ _ _ _ W) by done. unfold overwrite.
    replace (_ && _) with false; [done|]. symmetry. apply andb_false_iff. rewrite Z.leb_gt, Z.ltb_ge. lia.
Qed.

(** [dirlink] of a name that is not there: 0 and a new entry, or -1 when the
    disk is full. *)
Lemma wp_dirlink dp x name inum Q L v tbl :
  tbl !! dp = Some x → fs_ok sb v → dir_ok sb v x → fields_ok x → 0 ≤ i_inum x < sb_ninodes sb →
  lookup_dir v x name = None → i_size x + sizeof_dirent ≤ MAXFILE * BSIZE →
  cost sb L x + 2 < Z.min LOGSIZE size →
  (∀ L' v' x' m, (m = sizeof_dirent ∨ m = 0 ∧ full sb v') →
     written sb (free_entry v x) m (mk_dirent inum name) v x v' x' →
     Z.of_nat (length L') ≤ cost sb L x + 2 → IBLOCK (i_inum x) sb ∈ L' →
     Q (if m =? sizeof_dirent then 0 else -1) (Ast ls [] L' v' (<[dp := x']> tbl))) →
  wp (dirlink dp name inum) Q (Ast ls [] L v tbl).
Proof.
  intros Ex Hok D Fd Hi Hnone Hmax Hc HQ. pose proof (dk_file _ _ _ D) as Fk.
  pose proof (fk_size _ _ _ Fk) as Hs. unfold dirlink.
  apply wp_bind, (wp_dirlookup _ _ _ _ _ _ ls Hls dp x); try done. rewrite Hnone.
  apply wp_bind, wp_ifield. cbn [a_itab]. rewrite Ex. change (default inode0 (Some x)) with x.
  assert (Hnn : 0 ≤ nents x) by (apply Z.div_pos; [lia|done]).
  apply wp_bind. apply (wp_dirlink_loop _ _ _ _ _ _ ls Hls _ dp x 0); try done;
    [unfold nents in *; lia | intros; lia |].
  destruct (free_entry_spec D) as (Ef & Hk' & _). destruct (dk_size _ _ _ D) as [q Eq].
  assert (En : nents x = q) by (unfold nents; rewrite Eq; apply Z.div_mul; done).
  set (off := free_entry v x) in *. set (i := off / sizeof_dirent) in *.
  assert (Hl : Z.of_nat (length (mk_dirent inum name)) = 16) by (by rewrite mk_dirent_length).
  assert (Hnb : nblk off 16 = 1).
  { rewrite Ef. unfold nblk. change BSIZE with 1024. change sizeof_dirent with 16. cbn [Z.eqb].
    change (16 =? 0) with false. cbv iota. zlia. }
  change sizeof_dirent with 16 in *.
  apply wp_bind. rewrite <- Hl.
  eapply (wp_writei pid start size sb k dk Hlay ls Hls Hk Hone dp x); rewrite ?Hl; try done; try lia.
  intros L' v' x' m Hm Hw Hfull HL Hin.
  assert (Hm' : m = 16 ∨ m = 0 ∧ full sb v').
  { destruct (decide (m = 16)) as [|Hne]; [by left|right]. destruct Hfull as [Hf [->|Hb]]; [lia | done |].
    rewrite Ef in Hb. change BSIZE with 1024 in Hb. split; [zlia|done]. }
  specialize (HQ L' v' x' m Hm' Hw ltac:(lia) Hin). destruct (m =? 16); by apply wp_ret.
Qed.
End dirlink.

(** ** Adding a name to a directory and looking names up

    As the system calls do it: the directory is locked, the change is one
    transaction. *)
Section names.
  Context {S : Type} {KO : KernelOps S} {HS : HasState S fsst}.

Definition add_name (dp : nat) (name : list Z) (inum : Z) : M S Z :=
  operation (
    ilock dp ;;
    r ← dirlink dp name inum;
    iunlock dp ;;
    ret r).

Definition find_name (dp : nat) (name : list Z) : M S (option (nat * Z)) :=
  ilock dp ;;
  r ← dirlookup dp name;
  iunlock dp ;;
  ret r.
End names.

Lemma dir_ok_lock sb v x lk : dir_ok sb v x → dir_ok sb v (set_i_lock lk x).
Proof. intros [F ? ?]. split; try done. by apply file_ok_lock. Qed.

Section add.
  Context (pid start : Z) (sb : superblock) (Hlay : layout sb start LOGSIZE) (Hone : sb_size sb ≤ BPB).

Lemma add_name_ok t dp x name inum v tbl :
  idle t pid start LOGSIZE sb v tbl → fs_ok sb v → in_core tbl dp x → dir_ok sb v x → fields_ok x →
  0 ≤ i_inum x < sb_ninodes sb → lookup_dir v x name = None → i_size x + sizeof_dirent ≤ MAXFILE * BSIZE →
  ∃ m t' v1 v' x', add_name dp name inum (Solo t [] pid) =
      Ok (if m =? sizeof_dirent then 0 else -1) (Solo t' [] pid) ∧
    (m = sizeof_dirent ∨ m = 0 ∧ full sb v') ∧
    written sb (free_entry v x) m (mk_dirent inum name) v x v' x' ∧
    idle t' pid start LOGSIZE sb v1 (<[dp := x']> tbl) ∧
    (∀ b, ¬ in_log start LOGSIZE b → v1 b = v' b) ∧ crash_atomic t t' start LOGSIZE sb v v'.
Proof.
  intros Hid Hok [Ex Hr Hv Hlk] D Fd Hi Hnone Hmax. pose proof (lookup_lt_Some _ _ _ Ex) as Hip.
  destruct (operation_atomic
    (ilock dp ;; r ← dirlink dp name inum; iunlock dp ;; ret r)
    (λ r st, ∃ m x', r = (if m =? sizeof_dirent then 0 else -1) ∧ (m = sizeof_dirent ∨ m = 0 ∧ full sb (a_view st)) ∧
       written sb (free_entry v x) m (mk_dirent inum name) v x (a_view st) x' ∧
       a_itab st = <[dp := x']> tbl)
    t pid start LOGSIZE sb v tbl Hid) as (r & t' & v1 & st & E & (m & x' & -> & H1 & H2 & H3) & I' & V' & C').
  - done.
  - apply (lo_log _ _ _ Hlay).
  - apply wp_bind, (wp_ilock_valid _ _ _ _ _ _ _ x); try done; [apply not_elem_of_nil | by rewrite Hlk |].
    set (x1 := set_i_lock (SleepLock 1 pid) x).
    pose proof (@cost_length sb [] x1) as Hcl. simpl in Hcl.
    eapply wp_bind, (wp_dirlink pid start LOGSIZE sb 1 _ Hlay [] no_locks ltac:(lia) Hone dp x1); try done.
    + by apply list_lookup_insert_eq.
    + by apply dir_ok_lock.
    + by apply fields_ok_lock.
    + change LOGSIZE with 30. lia.
    + intros L' v' x' m Hm Hw HL Hin. pose proof (wr_inode _ _ _ _ _ _ _ _ Hw) as [ad Ead].
      rewrite list_insert_insert_eq. apply wp_bind.
      apply (wp_iunlock _ _ _ _ _ _ _ x'); [apply not_elem_of_nil | by apply list_lookup_insert_eq | by rewrite Ead | by rewrite Ead |].
      rewrite list_insert_insert_eq. apply wp_ret. cbn.
      apply written_lock in Hw. rewrite Hlk in Hw. split_and!; try done.
      * intros ->. by apply elem_of_nil in Hin.
      * apply (wr_ok _ _ _ _ _ _ _ _ Hw).
      * apply (wr_front _ _ _ _ _ _ _ _ Hw). pose proof (lo_log _ _ _ Hlay). lia.
      * by exists m, (set_i_lock (SleepLock 0 0) x').
  - rewrite H3 in I'. exists m, t', v1, (a_view st), x'. done.
Qed.
End add.

(** ** [iget] finds or makes an entry for the inode *)
Definition same_id (x y : inode) : Prop := i_ref x = i_ref y ∧ i_dev x = i_dev y ∧ i_inum x = i_inum y.

Lemma iget_scan_ext l l' i dev inum e :
  Forall2 same_id l l' → iget_scan l i dev inum e = iget_scan l' i dev inum e.
Proof.
  intros H. revert i e. induction H as [|x y l l' (E1 & E2 & E3) H IH]; intros i e; [done|].
  cbn [iget_scan]. by rewrite E1, E2, E3, IH.
Qed.

Lemma same_id_lock tbl dp x lk :
  tbl !! dp = Some x → Forall2 same_id (<[dp := set_i_lock lk x]> tbl) tbl.
Proof.
  intros Ex. apply Forall2_same_length_lookup. rewrite length_insert. split; [done|].
  intros j y z Hy Hz. destruct (decide (j = dp)) as [->|].
  - rewrite list_lookup_insert_eq in Hy by (by eapply lookup_lt_Some). rewrite Ex in Hz.
    injection Hy as <-. injection Hz as <-. done.
  - rewrite list_lookup_insert_ne in Hy by done. rewrite Hy in Hz. by injection Hz as ->.
Qed.

Lemma iget_scan_spec l i dev inum e :
  match iget_scan l i dev inum e with
  | inl ip => ∃ j x, ip = (i + j)%nat ∧ l !! j = Some x ∧ i_ref x > 0 ∧ i_dev x = dev ∧ i_inum x = inum
  | inr (Some ip) => Some ip = e ∨ ∃ j x, ip = (i + j)%nat ∧ l !! j = Some x ∧ i_ref x = 0
  | inr None => True
  end.
Proof.
  revert i e. induction l as [|x l IH]; intros i e; cbn [iget_scan].
  { destruct e; [by left|done]. }
  destruct (_ && _ && _) eqn:E.
  - bool_to_prop. exists 0%nat, x. split_and!; try done; lia.
  - specialize (IH (S i) (match e with None => if i_ref x =? 0 then Some i else None | Some e => Some e end)).
    destruct (iget_scan l _ dev inum _) as [ip|[ip|]]; [..|done].
    + destruct IH as (j & y & -> & Hj & Hy). exists (S j), y. split; [lia|]. by split.
    + destruct IH as [IH|(j & y & -> & Hj & Hy)]; [|right; exists (S j), y; split; [lia|by split]].
      destruct e; [by left|]. destruct (i_ref x =? 0) eqn:E0; [|done]. injection IH as ->. bool_to_prop.
      right. exists 0%nat, x. split; [lia|by split].
Qed.

Lemma iget_table_spec tbl inum ip tbl' :
  iget_table tbl inum = Some (ip, tbl') →
  ∃ x y, tbl !! ip = Some x ∧ tbl' = <[ip := y]> tbl ∧ i_dev y = ROOTDEV ∧ i_inum y = inum ∧
    1 ≤ i_ref y ∧ i_lock y = i_lock x ∧
    ((i_ref x = 0 ∧ i_ref y = 1 ∧ i_valid y = 0) ∨ (1 ≤ i_ref x ∧ y = set_i_ref (i_ref x + 1) x)).
Proof.
  unfold iget_table. intros H. pose proof (iget_scan_spec tbl 0 ROOTDEV inum None) as Hs.
  destruct (iget_scan tbl 0 ROOTDEV inum None) as [i|[i|]]; [..|done]; injection H as <- <-.
  - destruct Hs as (j & x & -> & Hj & Hr & Hd & Hi). exists x, (set_i_ref (i_ref x + 1) x).
    rewrite (list_alter_insert _ _ _ x) by done. cbn. split_and!; try done; [lia|]. right. split; [lia|done].
  - destruct Hs as [Hs|(j & x & -> & Hj & Hr)]; [done|].
    exists x, (set_i_valid 0 (set_i_ref 1 (set_i_inum inum (set_i_dev ROOTDEV x)))).
    rewrite (list_alter_insert _ _ _ x) by done. cbn. split_and!; try done. by left.
Qed.

(** A lock makes no difference to [iget]. *)
Lemma iget_table_lock tbl dp x lk inum ip tbl' :
  tbl !! dp = Some x → iget_table tbl inum = Some (ip, tbl') →
  ∃ f, tbl' = alter f ip tbl ∧
    iget_table (<[dp := set_i_lock lk x]> tbl) inum = Some (ip, alter f ip (<[dp := set_i_lock lk x]> tbl)) ∧
    (∀ y l, f (set_i_lock l y) = set_i_lock l (f y)) ∧ (∀ y, 1 ≤ i_ref y → 1 ≤ i_ref (f y)).
Proof.
  intros Ex. unfold iget_table. rewrite (iget_scan_ext _ _ 0 ROOTDEV inum None (same_id_lock tbl dp x lk Ex)).
  destruct (iget_scan tbl 0 ROOTDEV inum None) as [i|[i|]]; intros H; [..|done]; injection H as <- <-;
    eexists; (split; [done|]); (split; [done|]); (split; [done|]); intros y Hy; cbn; lia.
Qed.

Lemma unlock_alter (tbl : list inode) (dp : nat) x lk f (ip : nat) :
  tbl !! dp = Some x → i_lock x = SleepLock 0 0 → (∀ y l, f (set_i_lock l y) = set_i_lock l (f y)) →
  alter (set_i_lock (SleepLock 0 0)) dp (alter f ip (<[dp := set_i_lock lk x]> tbl)) = alter f ip tbl.
Proof.
  intros Ex Hlk Hf. pose proof (lookup_lt_Some _ _ _ Ex) as Hip.
  assert (E0 : set_i_lock (SleepLock 0 0) (set_i_lock lk x) = x) by (rewrite <- Hlk; by destruct x).
  apply list_eq. intros j. destruct (decide (j = dp)) as [->|Hj].
  - rewrite list_lookup_alter_eq. destruct (decide (ip = dp)) as [->|Hne].
    + rewrite !list_lookup_alter_eq, list_lookup_insert_eq, Ex by done. cbn. by rewrite <- Hf, E0.
    + rewrite !list_lookup_alter_ne, list_lookup_insert_eq, Ex by done. cbn. by rewrite E0.
  - rewrite list_lookup_alter_ne by done. destruct (decide (j = ip)) as [->|Hne].
    + by rewrite !list_lookup_alter_eq, list_lookup_insert_ne.
    + by rewrite !list_lookup_alter_ne, list_lookup_insert_ne.
Qed.

(** The entry of the locked directory after [iget]. *)
Lemma iget_locked (tbl : list inode) (dp : nat) x lk f (ip : nat) :
  tbl !! dp = Some x → 1 ≤ i_ref x → (∀ y l, f (set_i_lock l y) = set_i_lock l (f y)) →
  (∀ y, 1 ≤ i_ref y → 1 ≤ i_ref (f y)) →
  ∃ y, alter f ip (<[dp := set_i_lock lk x]> tbl) !! dp = Some y ∧ i_lock y = lk ∧ 1 ≤ i_ref y.
Proof.
  intros Ex Hr Hf1 Hf2. pose proof (lookup_lt_Some _ _ _ Ex) as Hip. destruct (decide (ip = dp)) as [->|Hne].
  - rewrite list_lookup_alter_eq, list_lookup_insert_eq by done. eexists. split; [done|].
    rewrite Hf1. split; [done|]. by apply Hf2.
  - rewrite list_lookup_alter_ne, list_lookup_insert_eq by done. eexists. by split.
Qed.

Lemma find_name_ok pid start sb t dp x name v tbl :
  idle t pid start LOGSIZE sb v tbl → fs_ok sb v → in_core tbl dp x → dir_ok sb v x →
  (∀ inum off, lookup_dir v x name = Some (inum, off) → is_Some (iget_table tbl inum)) →
  ∃ r t' tbl', find_name dp name (Solo t [] pid) = Ok r (Solo t' [] pid) ∧
    idle t' pid start LOGSIZE sb v tbl' ∧
    match lookup_dir v x name with
    | None => r = None ∧ tbl' = tbl
    | Some (inum, off) => ∃ ip, r = Some (ip, off) ∧ iget_table tbl inum = Some (ip, tbl')
    end.
Proof.
  intros [T Hv Hsb Hit Hlog Hlen Hhdr] Hok [Ex Hr Hva Hlk] D Hroom. pose proof (lookup_lt_Some _ _ _ Ex) as Hip.
  assert (Hw : wp pid start LOGSIZE sb 0 (f_disk t) (find_name dp name)
    (λ r st, ∃ tbl', st = Ast [] [] [] v tbl' ∧
       match lookup_dir v x name with
       | None => r = None ∧ tbl' = tbl
       | Some (inum, off) => ∃ ip, r = Some (ip, off) ∧ iget_table tbl inum = Some (ip, tbl')
       end) (Ast [] [] [] v tbl)).
  { unfold find_name.
    apply wp_bind, (wp_ilock_valid _ _ _ _ _ _ _ x); try done; [apply not_elem_of_nil | by rewrite Hlk |].
    set (x1 := set_i_lock (SleepLock 1 pid) x).
    assert (E0 : set_i_lock (SleepLock 0 0) x1 = x) by (unfold x1; rewrite <- Hlk; by destruct x).
    apply wp_bind, (wp_dirlookup _ _ _ _ _ _ [] no_locks dp x1);
      [by apply list_lookup_insert_eq | done | by apply dir_ok_lock |].
    change (lookup_dir v x1 name) with (lookup_dir v x name).
    destruct (lookup_dir v x name) as [[inum off]|] eqn:El.
    - destruct (Hroom inum off eq_refl) as [[ip tbl'] Ht].
      destruct (iget_table_lock tbl dp x (SleepLock 1 pid) inum ip tbl' Ex Ht) as (f & -> & Ht1 & Hf1 & Hf2).
      eapply wp_iget; [apply not_elem_of_nil | exact Ht1 |].
      destruct (iget_locked tbl dp x (SleepLock 1 pid) f ip Ex Hr Hf1 Hf2) as (y & Ey & Hly & Hry).
      apply wp_bind, (wp_iunlock _ _ _ _ _ _ _ y); [apply not_elem_of_nil | done | done | done |].
      apply wp_ret. eexists. split; [done|]. exists ip. split; [done|]. rewrite Ht. do 2 f_equal.
      rewrite <- (list_alter_insert (set_i_lock (SleepLock 0 0))) by done. symmetry. by apply unlock_alter.
    - apply wp_bind, (wp_iunlock _ _ _ _ _ _ _ x1); try done; [apply not_elem_of_nil | by apply list_lookup_insert_eq |].
      apply wp_ret. exists tbl. rewrite list_insert_insert_eq, E0, list_insert_id by done. done. }
  destruct (Hw t) as (r & t' & st & E & F & tbl' & -> & Hres).
  { split; try done. by intros h ?%elem_of_nil. }
  exists r, t', tbl'. split; [done|]. split; [|done]. destruct F as [T' V' S' D' I' _]. by split.
Qed.

(** What a directory says depends on its size and its bytes. *)
Lemma lookup_dir_ext v x v' x' name :
  i_size x' = i_size x → 0 ≤ i_size x ≤ MAXFILE * BSIZE →
  (∀ o, 0 ≤ o < MAXFILE * BSIZE → fbyte v' x' o = fbyte v x o) →
  lookup_dir v' x' name = lookup_dir v x name.
Proof.
  intros Es Hs Eb. assert (En : nents x' = nents x) by (unfold nents; by rewrite Es).
  assert (Ed : ∀ i, 0 ≤ i < nents x → dent v' x' i = dent v x i).
  { intros i Hi. apply fbytes_ext. intros o Ho. apply Eb. unfold nents in Hi. change sizeof_dirent with 16 in *. zlia. }
  unfold lookup_dir. rewrite En.
  assert (Ef : List.find (λ i, names name (dent v' x' i)) (zseq 0 (Z.to_nat (nents x))) =
               List.find (λ i, names name (dent v x i)) (zseq 0 (Z.to_nat (nents x)))).
  { apply find_zseq_ext; [|done|intros; lia]. intros j Hj. by rewrite Ed by lia. }
  rewrite Ef. destruct (List.find (λ i, names name (dent v x i)) _) as [i|] eqn:E; [|done].
  apply find_zseq_some in E as (Hi & _). by rewrite Ed by lia.
Qed.

(** ** Theorems *)


(** Looking a name up.  [dirlookup] in a locked directory returns what
    [lookup_dir] says: nothing, and the table of inodes is unchanged; or the
    offset of the entry and the index of the entry of its inode in the table
    of inodes, found or made by [iget]. *)
Theorem dirlookup_finds t pid start sb v tbl dp x name
    (Hidle : idle t pid start LOGSIZE sb v tbl) (Hok : fs_ok sb v) (Hcore : in_core tbl dp x)
    (Hdir : dir_ok sb v x)
    (Hroom : ∀ inum off, lookup_dir v x name = Some (inum, off) → is_Some (iget_table tbl inum)) :
  ∃ r t' tbl', find_name dp name (Solo t [] pid) = Ok r (Solo t' [] pid) ∧
    idle t' pid start LOGSIZE sb v tbl' ∧
    match lookup_dir v x name with
    | None => r = None ∧ tbl' = tbl
    | Some (inum, off) => ∃ ip y, r = Some (ip, off) ∧ tbl' = <[ip := y]> tbl ∧
        i_dev y = ROOTDEV ∧ i_inum y = inum ∧ 1 ≤ i_ref y
    end.
Proof.
  destruct (find_name_ok pid start sb t dp x name v tbl) as (r & t' & tbl' & E & I' & H); try done.
  exists r, t', tbl'. split; [done|]. split; [done|]. destruct (lookup_dir v x name) as [[inum off]|]; [|done].
  destruct H as (ip & -> & Ht). destruct (iget_table_spec _ _ _ _ Ht) as (z & y & _ & -> & ? & ? & ? & _).
  by exists ip, y.
Qed.

(** ** Examples: a directory with one entry for inode 2 *)
Definition ex_dir : inode := Inode ROOTDEV 1 1 (SleepLock 0 0) 1 T_DIR 0 0 1 16 (46 :: replicate 12 0).
Definition ex_dirs : list inode := [ex_dir; inode0].

Lemma ex_dir_slot s : slot (image ex_blocks) ex_dir s = if s =? 0 then 46 else
  if s <? 0 then 46 else 0.
Proof.
  unfold slot. change (indirect ex_dir) with 0. cbn [i_addrs ex_dir]. change (0 =? 0) with true. cbv iota.
  destruct (s =? 0) eqn:E0; bool_to_prop; [by subst|].
  destruct (s <? 0) eqn:E1; bool_to_prop.
  - rewrite (proj2 (Z.leb_le _ _)) by lia. by replace (Z.to_nat s) with 0%nat by lia.
  - destruct (s <=? 12); [|done]. destruct (Z.to_nat s) as [|i] eqn:Es; [lia|].
    cbn [lookup list_lookup]. change (list_lookup i (replicate 12 0)) with (replicate 12 0 !! i).
    destruct (lookup _ _) as [a|] eqn:E; [|done]. by apply lookup_replicate in E as [-> _].
Qed.

Lemma ex_dir_ok : dir_ok ex_sb (image ex_blocks) ex_dir.
Proof.
  assert (Hs : ∀ s, 0 ≤ s → slot (image ex_blocks) ex_dir s = if s =? 0 then 46 else 0).
  { intros s Hs. rewrite ex_dir_slot. case_if; [done|]. by rewrite (proj2 (Z.ltb_ge _ _)). }
  split; [|reflexivity|exists 1; reflexivity]. split; [split; [reflexivity|..]|reflexivity|..].
  - intros s Hr. rewrite Hs by lia. case_if; [|done]. intros _. split; [|vm_compute; reflexivity].
    change (datastart ex_sb) with 46. cbn. lia.
  - intros s s' Hr Hr'. rewrite !Hs by lia. repeat case_if; bool_to_prop; try done; congruence.
  - cbn. change MAXFILE with 268. change BSIZE with 1024. lia.
  - intros bn Hbn Hlt. cbn in Hlt. change BSIZE with 1024 in Hlt. replace bn with 0 by lia.
    unfold baddr. rewrite Hs by done. done.
Qed.


Lemma dirlookup_finds_witness :
  ∃ ip y t', find_name 0 [97] (Solo (ex_state ex_dirs) [] 1) = Ok (Some (ip, 0)) (Solo t' [] 1) ∧
    idle t' 1 2 LOGSIZE ex_sb (image ex_blocks) (<[ip := y]> ex_dirs) ∧ i_inum y = 2.
Proof.
  destruct (dirlookup_finds (ex_state ex_dirs) 1 2 ex_sb (image ex_blocks) ex_dirs 0 ex_dir [97])
    as (r & t' & tbl' & E & I & H).
  - apply ex_idle.
  - exact ex_ok.
  - split; [reflexivity | cbn; lia | cbn; lia | reflexivity].
  - exact ex_dir_ok.
  - intros inum off. assert (El : lookup_dir (image ex_blocks) ex_dir [97] = Some (2, 0)) by (vm_compute; reflexivity).
    rewrite El. intros [= <- <-]. eexists. vm_compute. reflexivity.
  - assert (El : lookup_dir (image ex_blocks) ex_dir [97] = Some (2, 0)) by (vm_compute; reflexivity).
    rewrite El in H. destruct H as (ip & y & -> & -> & _ & Hy & _). exists ip, y, t'. exact (conj E (conj I Hy)).
Defined.
