(* ===== verification/FsPath.v ===== *)
(** * Path names

    [walk] resolves the elements of a path, directory by directory, on the
    blocks of the disk.  [namei] and [nameiparent] implement it, whatever
    inodes are in the table: they return an entry of the table for the inode
    the path stands for, with one more reference, and give back the references
    to all directories on the way. *)

From stdpp Require Import functions.
From S2P Require Import Base Riscv Mem Kstring Kernel Sleeplock FsState Bio BioList BioSpec Log LogSpec.
From S2P Require Import LogCrash LogOps Fs FsLogic FsBoot FsAlloc FsInode FsFile FsData FsOps FsDir.
Local Open Scope Z_scope.
Local Open Scope kernel_scope.

(** ** The elements of a path *)
Fixpoint split (l : list Z) : list (list Z) :=
  match l with
  | [] => [[]]
  | c :: l =>
      if c =? SLASH then [] :: split l
      else match split l with
           | e :: es => (c :: e) :: es
           | [] => [[c]]
           end
  end.

(** The parts between slashes, cut at [DIRSIZ] bytes. *)
Definition elems (path : list Z) : list (list Z) :=
  take (Z.to_nat DIRSIZ) <$> filter (λ e, e ≠ []) (split path).

Lemma split_cons l : ∃ e es, split l = e :: es.
Proof.
  destruct l as [|c l]; [by eexists _, _|]. cbn. destruct (c =? SLASH); [by eexists _, _|].
  destruct (split l); by eexists _, _.
Qed.

Lemma elems_slashes path : elems (skip_slashes path) = elems path.
Proof.
  induction path as [|c path IH]; [done|]. cbn [skip_slashes]. destruct (c =? SLASH) eqn:E; [|done].
  rewrite IH. unfold elems. cbn [split]. rewrite E. rewrite filter_cons_False by naive_solver. done.
Qed.

Lemma split_elem path e rest :
  take_elem path = (e, rest) → ∃ es, split path = e :: es ∧ filter (λ e, e ≠ []) es = filter (λ e, e ≠ []) (split rest).
Proof.
  revert e rest. induction path as [|c path IH]; intros e rest; cbn.
  - intros [= <- <-]. exists []. split; [done|]. done.
  - destruct (c =? SLASH) eqn:E.
    + intros [= <- <-]. exists (split path). split; [done|]. cbn. rewrite E.
      rewrite filter_cons_False by naive_solver. done.
    + destruct (take_elem path) as [e' r] eqn:Et. intros [= <- <-].
      destruct (IH e' r eq_refl) as (es & -> & Hes). by exists es.
Qed.

Lemma skip_slashes_head path c rest : skip_slashes path = c :: rest → c ≠ SLASH.
Proof.
  induction path as [|d path IH]; [done|]. cbn. destruct (d =? SLASH) eqn:E; [done|]. intros [= <- _]. by bool_to_prop.
Qed.

Lemma skip_slashes_length path : (length (skip_slashes path) ≤ length path)%nat.
Proof. induction path as [|c path IH]; cbn; [lia|]. destruct (c =? SLASH); cbn; lia. Qed.

Lemma take_elem_length path e rest :
  take_elem path = (e, rest) → length path = (length e + length rest)%nat.
Proof.
  revert e rest. induction path as [|c path IH]; intros e rest; cbn; [by intros [= <- <-]|].
  destruct (c =? SLASH); [by intros [= <- <-]|]. destruct (take_elem path) as [e' r] eqn:Et. intros [= <- <-].
  rewrite (IH e' r eq_refl). done.
Qed.

(** [skipelem] takes off the first element. *)
Lemma skipelem_elems path :
  match skipelem path with
  | None => elems path = []
  | Some (rest, e) => elems path = e :: elems rest ∧ (rest = [] ↔ elems rest = []) ∧ (length rest < length path)%nat
  end.
Proof.
  unfold skipelem. pose proof (skip_slashes_length path) as Hl. rewrite <- (elems_slashes path).
  destruct (skip_slashes path) as [|c p] eqn:E; [done|]. apply skip_slashes_head in E as Hc.
  destruct (take_elem (c :: p)) as [s r] eqn:Et. pose proof (take_elem_length _ _ _ Et) as Hlen.
  assert (Hs : s ≠ []).
  { cbn in Et. rewrite (proj2 (Z.eqb_neq _ _) Hc) in Et. destruct (take_elem p). by injection Et as <- <-. }
  destruct (split_elem _ _ _ Et) as (es & Es & Hes). rewrite elems_slashes. split_and!.
  - unfold elems. rewrite Es, filter_cons_True, fmap_cons by done. by rewrite Hes.
  - rewrite <- (elems_slashes r). split; [by intros ->|]. intros He. destruct (skip_slashes r) as [|d q] eqn:Er; [done|].
    apply skip_slashes_head in Er. exfalso. unfold elems in He. cbn in He. rewrite (proj2 (Z.eqb_neq _ _) Er) in He.
    destruct (split_cons q) as (e & es' & Eq). rewrite Eq in He. rewrite filter_cons_True in He by done. done.
  - pose proof (skip_slashes_length r). cbn in Hl, Hlen. destruct s; [done|]. cbn in Hlen. lia.
Qed.

(** ** Inodes on the disk and in the table *)
Section tree.
  Context (sb : superblock) (v : Z → list Z).

(** What the disk has as inode [inum]. *)
Definition node (inum : Z) : inode := dinode sb v inum (Inode ROOTDEV inum 0 initsleeplock 0 0 0 0 0 0 []).

Fixpoint walk (inum : Z) (es : list (list Z)) (parent : bool) (name : list Z) : option (Z * list Z) :=
  match es with
  | [] => if parent then None else Some (inum, name)
  | e :: es =>
      if negb (i_type (node inum) =? T_DIR) then None else
      if parent && bool_decide (es = []) then Some (inum, e) else
      match lookup_dir v (node inum) e with
      | None => None
      | Some (next, _) => walk next es parent e
      end
  end.

(** An inode that is in use and has a name. *)
Definition live (inum : Z) : Prop :=
  0 ≤ inum < sb_ninodes sb ∧ i_type (node inum) ≠ 0 ∧ i_nlink (node inum) ≠ 0.

(** Directories are well formed and their entries stand for inodes in use. *)
Record tree_ok : Prop := {
  tr_root : live ROOTINO;
  tr_dir : ∀ inum, live inum → i_type (node inum) = T_DIR → dir_ok sb v (node inum);
  tr_entry : ∀ inum name next off, live inum → i_type (node inum) = T_DIR →
    lookup_dir v (node inum) name = Some (next, off) → live next;
}.

(** What an inode says about its file. *)
Definition meta (x : inode) : Z * Z * Z * Z * Z * list Z :=
  (i_type x, i_major x, i_minor x, i_nlink x, i_size x, i_addrs x).

(** The table between operations: no entry is locked, and entries that have
    been read agree with the disk. *)
Definition entry_ok (x : inode) : Prop :=
  i_lock x = SleepLock 0 0 ∧ 0 ≤ i_ref x ∧
  (1 ≤ i_ref x → i_dev x = ROOTDEV ∧ (i_valid x ≠ 0 → meta x = meta (node (i_inum x)))).
Definition table_ok (tbl : list inode) : Prop := ∀ ip x, tbl !! ip = Some x → entry_ok x.

Lemma dir_ok_meta x y : meta x = meta y → i_dev x = ROOTDEV → dir_ok sb v y → dir_ok sb v x.
Proof.
  intros E Hd [[[Hl H1 H2] _ Hs Ht] Hty Hsz]. destruct x, y. cbn in E. simplify_eq. split; [split; [by split|done|done|done]|done|done].
Qed.

Lemma file_ok_meta x y : meta x = meta y → i_dev x = ROOTDEV → file_ok sb v y → file_ok sb v x.
Proof. intros E Hd [[Hl H1 H2] _ Hs Ht]. destruct x, y. cbn in E. simplify_eq. split; [by split|done|done|done]. Qed.

Lemma lookup_dir_meta x y name : meta x = meta y → lookup_dir v x name = lookup_dir v y name.
Proof. intros E. destruct x, y. cbn in E. by simplify_eq. Qed.

(** The entry after [ilock] and [iunlock]. *)
Definition loaded (x : inode) : inode :=
  if i_valid x =? 0 then set_i_valid 1 (dinode sb v (i_inum x) x) else x.

Lemma loaded_ok x : entry_ok x → 1 ≤ i_ref x →
  entry_ok (loaded x) ∧ i_valid (loaded x) ≠ 0 ∧ i_ref (loaded x) = i_ref x ∧ i_inum (loaded x) = i_inum x ∧
  i_dev (loaded x) = ROOTDEV ∧ meta (loaded x) = meta (node (i_inum x)).
Proof.
  intros (Hl & H0 & H) Hr. destruct (H Hr) as [Hd Hv]. unfold loaded. destruct (i_valid x =? 0) eqn:E; bool_to_prop.
  - by split_and!.
  - split_and!; auto. done.
Qed.
End tree.

(** ** References *)
Definition ref_of (tbl : list inode) (j : nat) : Z := default 0 (i_ref <$> tbl !! j).
Definition inum_of (tbl : list inode) (j : nat) : Z := default 0 (i_inum <$> tbl !! j).

(** From [tbl] to [tbl'] the references to entry [j] have changed by [d j]; an
    entry that was in use is still for the same inode. *)
Definition moved (tbl tbl' : list inode) (d : nat → Z) : Prop :=
  length tbl' = length tbl ∧
  ∀ j, ref_of tbl' j = ref_of tbl j + d j ∧ (1 ≤ ref_of tbl j → inum_of tbl' j = inum_of tbl j).

Definition one (ip : nat) (j : nat) : Z := if decide (j = ip) then 1 else 0.

Definition put_table (ip : nat) (tbl : list inode) : list inode :=
  alter (λ x, set_i_ref (i_ref x - 1) x) ip tbl.

Lemma ref_of_at tbl ip x : tbl !! ip = Some x → ref_of tbl ip = i_ref x ∧ inum_of tbl ip = i_inum x.
Proof. intros E. unfold ref_of, inum_of. by rewrite E. Qed.

Lemma moved_refl tbl : moved tbl tbl (λ _, 0).
Proof. split; [done|]. intros j. split; [lia|done]. Qed.

Lemma moved_trans t0 t1 t2 d d' : 
  (∀ j, 0 ≤ d j) → moved t0 t1 d → moved t1 t2 d' → moved t0 t2 (λ j, d j + d' j).
Proof.
  intros Hd [L1 M1] [L2 M2]. split; [congruence|]. intros j. destruct (M1 j) as [R1 I1], (M2 j) as [R2 I2]. specialize (Hd j).
  split; [lia|]. intros Hr. rewrite I2, I1 by lia. done.
Qed.

Lemma moved_ext t0 t1 d d' : (∀ j, d j = d' j) → moved t0 t1 d → moved t0 t1 d'.
Proof. intros E [L M]. split; [done|]. intros j. rewrite <- E. apply M. Qed.

(** One entry is replaced. *)
Lemma moved_insert tbl ip x y (d : Z) :
  tbl !! ip = Some x → i_ref y = i_ref x + d → (1 ≤ i_ref x → i_inum y = i_inum x) →
  moved tbl (<[ip := y]> tbl) (λ j, d * one ip j).
Proof.
  intros Ex Hr Hi. pose proof (lookup_lt_Some _ _ _ Ex) as Hip. split; [apply length_insert|]. intros j.
  unfold ref_of, inum_of, one. case_decide as Ej.
  - subst j. rewrite list_lookup_insert_eq, Ex by done. cbn. split; [lia|done].
  - rewrite list_lookup_insert_ne by done. split; [lia|done].
Qed.

Section table.
  Context (sb : superblock) (v : Z → list Z).

Lemma table_ok_insert tbl ip y : table_ok sb v tbl → entry_ok sb v y → table_ok sb v (<[ip := y]> tbl).
Proof.
  intros T Hy j x Hj. destruct (decide (ip = j)) as [->|].
  - apply list_lookup_insert_Some in Hj as [(_ & <- & _)|[Hne _]]; done.
  - rewrite list_lookup_insert_ne in Hj by done. by apply (T j).
Qed.

Lemma table_iget tbl inum ip tbl' :
  table_ok sb v tbl → iget_table tbl inum = Some (ip, tbl') →
  table_ok sb v tbl' ∧ moved tbl tbl' (one ip) ∧ ∃ y, tbl' !! ip = Some y ∧ i_inum y = inum ∧ 1 ≤ i_ref y.
Proof.
  intros T (x & y & Ex & -> & Hd & Hi & Hr & Hl & Hc)%iget_table_spec.
  pose proof (lookup_lt_Some _ _ _ Ex) as Hip. destruct (T _ _ Ex) as (Tl & T0 & Tr). split_and!.
  - apply table_ok_insert; [done|]. split_and!; [congruence | lia |]. intros _. split; [done|]. intros Hv.
    destruct Hc as [(_ & _ & ?)|[Hx Hy]]; [done|]. subst y. by apply Tr.
  - eapply moved_ext; [|apply (moved_insert _ _ x _ 1 Ex)]; [intros j; cbv beta; lia | |].
    + destruct Hc as [(? & ? & _)|[Hx Hy]]; [lia|]. by subst y.
    + intros Hx. destruct Hc as [(? & _)|[_ Hy]]; [lia|]. by subst y.
  - exists y. split; [by apply list_lookup_insert_eq | done].
Qed.

Lemma table_put tbl ip x :
  table_ok sb v tbl → tbl !! ip = Some x → 1 ≤ i_ref x →
  table_ok sb v (put_table ip tbl) ∧ moved tbl (put_table ip tbl) (λ j, - one ip j).
Proof.
  intros T Ex Hr. unfold put_table. rewrite (list_alter_insert _ _ _ x) by done.
  destruct (T _ _ Ex) as (Tl & T0 & Tr). split.
  - apply table_ok_insert; [done|]. split_and!; cbn; [done | lia |]. intros _. by apply Tr.
  - eapply moved_ext; [|apply (moved_insert _ _ x _ (-1) Ex)]; [intros j; cbv beta; lia | cbn; lia | done].
Qed.

Lemma table_load tbl ip x :
  table_ok sb v tbl → tbl !! ip = Some x → 1 ≤ i_ref x →
  table_ok sb v (<[ip := loaded sb v x]> tbl) ∧ moved tbl (<[ip := loaded sb v x]> tbl) (λ _, 0).
Proof.
  intros T Ex Hr. destruct (loaded_ok sb v x (T _ _ Ex) Hr) as (Hok & _ & Hr' & Hi' & _). split.
  - by apply table_ok_insert.
  - eapply moved_ext; [|apply (moved_insert _ _ x _ 0 Ex)]; [intros j; cbv beta; lia | lia | done].
Qed.
End table.

Lemma iget_scan_room l i dev inum e j x :
  (l !! j = Some x ∧ i_ref x = 0) ∨ is_Some e → iget_scan l i dev inum e ≠ inr None.
Proof.
  revert i e j. induction l as [|y l IH]; intros i e j H; cbn [iget_scan].
  { destruct H as [[? _]|[? ->]]; done. }
  destruct (_ && _ && _); [done|]. destruct j as [|j].
  - apply (IH _ _ 0%nat). right. destruct H as [[[= ->] Hx]|[e' ->]]; [|by eexists].
    rewrite Hx. destruct e; by eexists.
  - apply (IH _ _ j). destruct H as [H|[e' ->]]; [by left|right; by eexists].
Qed.

(** There is an entry for one more inode. *)
Lemma iget_room tbl inum j x : tbl !! j = Some x → i_ref x = 0 → ∃ ip tbl', iget_table tbl inum = Some (ip, tbl').
Proof.
  intros Hj Hx. unfold iget_table. pose proof (iget_scan_room tbl 0 ROOTDEV inum None j x (or_introl (conj Hj Hx))) as H.
  destruct (iget_scan tbl 0 ROOTDEV inum None) as [i|[i|]]; [by eexists _, _ | by eexists _, _ | done].
Qed.

(** ** The operations *)
Section path.
  Context (pid start size : Z) (sb : superblock) (k : Z) (dk : disk).
  Context (ls : list lockid) (Hls : fs_free ls) (Htl : Litable ∉ ls).
  Abbreviation wp := (wp pid start size sb k dk).

Lemma wp_ilock ip x Q L v tbl :
  tbl !! ip = Some x → entry_ok sb v x → 1 ≤ i_ref x → i_type (node sb v (i_inum x)) ≠ 0 →
  Q tt (Ast ls [] L v (<[ip := set_i_lock (SleepLock 1 pid) (loaded sb v x)]> tbl)) →
  wp (ilock ip) Q (Ast ls [] L v tbl).
Proof.
  intros Ex (Hl & H0 & H) Hr Ht HQ. destruct (H Hr) as [Hd Hv].
  apply (wp_fact _ _ _ _ _ _ (length L < 30)%nat); [intros t; apply log_short|]. intros HL.
  unfold loaded in HQ. destruct (i_valid x =? 0) eqn:E; bool_to_prop.
  - apply (wp_ilock_load _ _ _ _ _ _ ip x); try done; [apply Hls | by rewrite Hl].
  - apply (wp_ilock_valid _ _ _ _ _ _ ip x); try done; [apply Hls | by rewrite Hl].
Qed.

(** [iput] of an inode that has a name. *)
Lemma wp_iput ip x Q H L v tbl :
  tbl !! ip = Some x → (i_valid x ≠ 0 → i_nlink x ≠ 0) →
  Q tt (Ast ls H L v (put_table ip tbl)) → wp (iput ip) Q (Ast ls H L v tbl).
Proof.
  intros Ex Hn HQ. unfold iput. apply wp_bind, wp_acquire; [done|].
  apply wp_bind, wp_ifield. cbn [a_itab]. rewrite Ex. change (default inode0 (Some x)) with x. unfold id.
  replace (_ && _ && _) with false.
  - apply wp_bind, wp_ret. apply wp_bind, wp_iset. by apply wp_release.
  - symmetry. unfold nonzero. destruct (i_valid x =? 0) eqn:E; bool_to_prop; [by rewrite andb_false_r|].
    rewrite (proj2 (Z.eqb_neq (i_nlink x) 0)) by auto. apply andb_false_r.
Qed.

(** Unlocking and giving back a directory, after [iget] has found an entry. *)
Lemma wp_iunlockput_get ip x inum next tbl1 Q L v tbl :
  tbl !! ip = Some x → i_lock x = SleepLock 0 0 → 1 ≤ i_ref x → i_nlink x ≠ 0 →
  iget_table tbl inum = Some (next, tbl1) →
  Q tt (Ast ls [] L v (put_table ip tbl1)) →
  ∃ tblL, iget_table (<[ip := set_i_lock (SleepLock 1 pid) x]> tbl) inum = Some (next, tblL) ∧
    wp (iunlockput ip) Q (Ast ls [] L v tblL).
Proof.
  intros Ex Hlk Hr Hn Ht HQ. pose proof (lookup_lt_Some _ _ _ Ex) as Hip.
  destruct (iget_table_lock tbl ip x (SleepLock 1 pid) inum next tbl1 Ex Ht) as (f & Ef & Ht1 & Hf1 & Hf2).
  eexists. split; [exact Ht1|].
  destruct (iget_locked tbl ip x (SleepLock 1 pid) f next Ex Hr Hf1 Hf2) as (y & Ey & Hly & Hry).
  apply wp_bind, (wp_iunlock _ _ _ _ _ _ _ y); [apply Hls | done | done | done |].
  rewrite <- (list_alter_insert (set_i_lock (SleepLock 0 0))), unlock_alter, <- Ef by done.
  apply iget_table_spec in Ht as (x' & z & Ex' & -> & _ & _ & _ & _ & Hz).
  destruct (decide (next = ip)) as [->|Hne].
  - rewrite Ex in Ex'. injection Ex' as <-.
    apply (wp_iput ip z); [by apply list_lookup_insert_eq| |done]. destruct Hz as [(? & _)|[_ ->]]; [lia|done].
  - apply (wp_iput ip x); [by rewrite list_lookup_insert_ne|done|done].
Qed.

Lemma wp_iunlockput ip x Q L v tbl :
  tbl !! ip = Some x → i_lock x = SleepLock 0 0 → 1 ≤ i_ref x → i_nlink x ≠ 0 →
  Q tt (Ast ls [] L v (put_table ip tbl)) →
  wp (iunlockput ip) Q (Ast ls [] L v (<[ip := set_i_lock (SleepLock 1 pid) x]> tbl)).
Proof.
  intros Ex Hlk Hr Hn HQ. pose proof (lookup_lt_Some _ _ _ Ex) as Hip.
  apply wp_bind, (wp_iunlock _ _ _ _ _ _ _ (set_i_lock (SleepLock 1 pid) x));
    [apply Hls | by apply list_lookup_insert_eq | done | done |].
  rewrite list_insert_insert_eq.
  replace (set_i_lock (SleepLock 0 0) (set_i_lock (SleepLock 1 pid) x)) with x by (rewrite <- Hlk; by destruct x).
  rewrite list_insert_id by done. by apply (wp_iput ip x).
Qed.

(** ** The walk *)
Section walk.
  Context (v : Z → list Z) (Hok : fs_ok sb v) (Htr : tree_ok sb v).
  Context (tbl0 : list inode) (a b : nat) (Hab : a ≠ b).
  Context (Ha : (a < length tbl0)%nat ∧ ref_of tbl0 a = 0) (Hb : (b < length tbl0)%nat ∧ ref_of tbl0 b = 0).
  Context (H0 : ∀ j, 0 ≤ ref_of tbl0 j).

(** The path has led to entry [ip] of the table, for inode [inum]. *)
Record at_entry (tbl : list inode) (ip : nat) (inum : Z) : Prop := {
  ae_table : table_ok sb v tbl;
  ae_refs : moved tbl0 tbl (one ip);
  ae_live : live sb v inum;
  ae_inum : inum_of tbl ip = inum;
  ae_in : (ip < length tbl)%nat;
}.

Lemma at_entry_lookup tbl ip inum :
  at_entry tbl ip inum → ∃ x, tbl !! ip = Some x ∧ i_inum x = inum ∧ 1 ≤ i_ref x.
Proof.
  intros [T [_ M] _ Hi Hin]. destruct (lookup_lt_is_Some_2 tbl ip Hin) as [x Hx]. exists x.
  destruct (ref_of_at _ _ _ Hx) as [Er Ei]. destruct (M ip) as [Hr _]. unfold one in Hr. rewrite decide_True in Hr by done.
  specialize (H0 ip). split_and!; [done | congruence | lia].
Qed.

(** One of the two free entries is still free. *)
Lemma at_entry_room tbl ip inum j : at_entry tbl ip inum → ∃ next tbl', iget_table tbl j = Some (next, tbl').
Proof.
  intros [T [Hl M] _ _ _].
  assert (Hf : ∀ c, c ≠ ip → (c < length tbl0)%nat → ref_of tbl0 c = 0 → ∃ next tbl', iget_table tbl j = Some (next, tbl')).
  { intros c Hc Hlt Hr. rewrite <- Hl in Hlt. destruct (lookup_lt_is_Some_2 tbl c Hlt) as [x Hx].
    destruct (M c) as [Rc _]. unfold one in Rc. rewrite decide_False in Rc by done.
    destruct (ref_of_at _ _ _ Hx) as [Er _]. apply (iget_room tbl j c x Hx). lia. }
  destruct (decide (a = ip)) as [->|]; [apply (Hf b); [done|apply Hb..] | apply (Hf a); [done|apply Ha..]].
Qed.

Lemma put_inum ip tbl j : inum_of (put_table ip tbl) j = inum_of tbl j.
Proof.
  unfold inum_of, put_table. destruct (decide (j = ip)) as [->|].
  - rewrite list_lookup_alter_eq. by destruct (tbl !! ip).
  - by rewrite list_lookup_alter_ne.
Qed.

(** The reference to the entry is given back. *)
Lemma at_entry_put tbl ip inum :
  at_entry tbl ip inum → table_ok sb v (put_table ip tbl) ∧ moved tbl0 (put_table ip tbl) (λ _, 0).
Proof.
  intros A. destruct (at_entry_lookup _ _ _ A) as (x & Ex & _ & Hr). destruct A as [T M _ _ _].
  destruct (table_put sb v tbl ip x T Ex Hr) as [T' M']. split; [done|].
  eapply moved_ext; [|eapply moved_trans; [|exact M|exact M']]; [intros j; cbv beta; lia|].
  intros j. unfold one. case_decide; lia.
Qed.

Lemma at_entry_load tbl ip inum x :
  at_entry tbl ip inum → tbl !! ip = Some x → at_entry (<[ip := loaded sb v x]> tbl) ip inum.
Proof.
  intros A Ex. destruct (at_entry_lookup _ _ _ A) as (x' & Ex' & Hi & Hr). rewrite Ex in Ex'. injection Ex' as <-.
  destruct A as [T M Hl He Hin]. destruct (table_load sb v tbl ip x T Ex Hr) as [T' M']. split; try done.
  - eapply moved_ext; [|eapply moved_trans; [|exact M|exact M']]; [intros j; cbv beta; lia|].
    intros j. unfold one. case_decide; lia.
  - destruct (proj2 M' ip) as [_ Hm]. rewrite Hm; [done|]. destruct (ref_of_at _ _ _ Ex). lia.
  - by rewrite length_insert.
Qed.

(** From a directory to one of its entries. *)
Lemma at_entry_next tbl ip inum j next tbl1 :
  at_entry tbl ip inum → live sb v j → iget_table tbl j = Some (next, tbl1) → at_entry (put_table ip tbl1) next j.
Proof.
  intros A Hj Ht. destruct (at_entry_lookup _ _ _ A) as (x & Ex & _ & Hr). destruct A as [T M _ _ Hin].
  destruct (table_iget sb v tbl j next tbl1 T Ht) as (T1 & M1 & y & Ey & Hy & _).
  assert (H1 : ∀ i n, 0 ≤ one i n) by (intros; unfold one; case_decide; lia).
  assert (Hz : ∃ z, tbl1 !! ip = Some z ∧ 1 ≤ i_ref z).
  { destruct M1 as [L1 M1]. destruct (lookup_lt_is_Some_2 tbl1 ip) as [z Ez]; [by rewrite L1|].
    exists z. split; [done|]. destruct (M1 ip) as [R1 _].
    destruct (ref_of_at _ _ _ Ez), (ref_of_at _ _ _ Ex). pose proof (H1 next ip). lia. }
  destruct Hz as (z & Ez & Hz). destruct (table_put sb v tbl1 ip z T1 Ez Hz) as [T2 M2].
  split; try done.
  - eapply moved_ext; [|eapply moved_trans; [|eapply moved_trans; [|exact M|exact M1]|exact M2]].
    + intros i. cbv beta. lia.
    + intros i. cbv beta. pose proof (H1 ip i). pose proof (H1 next i). lia.
    + intros i. apply H1.
  - rewrite put_inum. unfold inum_of. by rewrite Ey.
  - apply lookup_lt_Some in Ey. unfold put_table. by rewrite length_alter.
Qed.

(** What [namex] returns, and the table it leaves, for the result [res] of the
    walk. *)
Definition arrived (r : option (nat * list Z)) (tbl : list inode) (res : option (Z * list Z)) : Prop :=
  match res with
  | None => r = None ∧ table_ok sb v tbl ∧ moved tbl0 tbl (λ _, 0)
  | Some (inum, name) => ∃ ip, r = Some (ip, name) ∧ at_entry tbl ip inum
  end.

(** The entry once its inode has been read. *)
Record ready (tbl : list inode) (ip : nat) (inum : Z) (x : inode) : Prop := {
  rd_at : at_entry tbl ip inum;
  rd_entry : tbl !! ip = Some x;
  rd_lock : i_lock x = SleepLock 0 0;
  rd_ref : 1 ≤ i_ref x;
  rd_dev : i_dev x = ROOTDEV;
  rd_valid : i_valid x ≠ 0;
  rd_meta : meta x = meta (node sb v inum);
}.

Lemma ready_nlink tbl ip inum x : ready tbl ip inum x → i_nlink x ≠ 0 ∧ i_type x = i_type (node sb v inum).
Proof.
  intros [[_ _ (_ & _ & Hn) _ _] _ _ _ _ _ Hm]. unfold meta in Hm. split; congruence.
Qed.

Lemma wp_ilock_at ip inum Q L tbl :
  at_entry tbl ip inum →
  (∀ tbl' x, ready tbl' ip inum x → Q tt (Ast ls [] L v (<[ip := set_i_lock (SleepLock 1 pid) x]> tbl'))) →
  wp (ilock ip) Q (Ast ls [] L v tbl).
Proof.
  intros A HQ. destruct (at_entry_lookup _ _ _ A) as (x & Ex & Hi & Hr). pose proof (ae_table _ _ _ A _ _ Ex) as Hx.
  destruct (loaded_ok sb v x Hx Hr) as (Hx' & Hv' & Hr' & Hi' & Hd' & Hm'). rewrite Hi in Hm'.
  apply (wp_ilock ip x); try done; [rewrite Hi; apply A|].
  specialize (HQ (<[ip := loaded sb v x]> tbl) (loaded sb v x)). rewrite list_insert_insert_eq in HQ.
  apply HQ. split; [by apply at_entry_load | apply list_lookup_insert_eq, A | apply Hx' | lia | done | done | done].
Qed.

Lemma wp_iunlock_at ip inum x Q L tbl :
  ready tbl ip inum x → Q tt (Ast ls [] L v tbl) →
  wp (iunlock ip) Q (Ast ls [] L v (<[ip := set_i_lock (SleepLock 1 pid) x]> tbl)).
Proof.
  intros [A Ex Hl Hr _ _ _] HQ. pose proof (ae_in _ _ _ A).
  apply (wp_iunlock _ _ _ _ _ _ _ (set_i_lock (SleepLock 1 pid) x));
    [apply Hls | by apply list_lookup_insert_eq | done | done |].
  rewrite list_insert_insert_eq.
  replace (set_i_lock (SleepLock 0 0) (set_i_lock (SleepLock 1 pid) x)) with x by (rewrite <- Hl; by destruct x).
  by rewrite list_insert_id.
Qed.

(** Leaving the path: the walk has failed. *)
Lemma wp_leave ip inum x Q L tbl :
  ready tbl ip inum x → (∀ r tbl', arrived r tbl' None → Q r (Ast ls [] L v tbl')) →
  wp (iunlockput ip ;; ret None) Q (Ast ls [] L v (<[ip := set_i_lock (SleepLock 1 pid) x]> tbl)).
Proof.
  intros R HQ. destruct (ready_nlink _ _ _ _ R) as [Hn _]. pose proof R as [A Ex Hl Hr _ _ _].
  apply wp_bind, (wp_iunlockput ip x); try done. apply wp_ret, HQ. split; [done|]. by eapply at_entry_put.
Qed.

Lemma wp_namex_loop fuel ip inum path parent name Q L tbl :
  at_entry tbl ip inum → (length path < fuel)%nat →
  (∀ r tbl', arrived r tbl' (walk sb v inum (elems path) parent name) → Q r (Ast ls [] L v tbl')) →
  wp (namex_loop fuel ip path parent name) Q (Ast ls [] L v tbl).
Proof.
  revert ip inum path name tbl. induction fuel as [|fuel IH]; intros ip inum path name tbl A Hf HQ; [lia|].
  cbn [namex_loop]. pose proof (skipelem_elems path) as He. pose proof (ae_live _ _ _ A) as Hlive.
  destruct (skipelem path) as [[rest e]|].
  2:{ rewrite He in HQ. cbn [walk] in HQ. destruct parent; [|apply wp_ret, HQ; by exists ip].
      destruct (at_entry_lookup _ _ _ A) as (x & Ex & Hi & Hr).
      apply wp_bind, (wp_iput ip x); [done | | apply wp_ret, HQ; split; [done|]; by eapply at_entry_put].
      intros Hvx. destruct (ae_table _ _ _ A _ _ Ex) as (_ & _ & Hx). destruct (Hx Hr) as [_ Hm].
      specialize (Hm Hvx). rewrite Hi in Hm. destruct Hlive as (_ & _ & Hn). unfold meta in Hm. congruence. }
  destruct He as (He & Hrest & Hlen). rewrite He in HQ. cbn [walk] in HQ.
  apply wp_bind, (wp_ilock_at ip inum); [done|]. clear A tbl. intros tbl x R.
  destruct (ready_nlink _ _ _ _ R) as [Hn Ht]. pose proof R as [A Ex Hl Hr Hd _ Hm].
  set (xl := set_i_lock (SleepLock 1 pid) x).
  assert (Exl : <[ip := xl]> tbl !! ip = Some xl) by (apply list_lookup_insert_eq, A).
  apply wp_bind, wp_ifield. cbn [a_itab]. rewrite Exl. change (i_type (default inode0 (Some xl))) with (i_type x).
  rewrite Ht. destruct (i_type (node sb v inum) =? T_DIR) eqn:Ed; cbn [negb] in *; bool_to_prop;
    [|by apply (wp_leave ip inum)].
  replace (bool_decide (rest = [])) with (bool_decide (elems rest = [])) by (apply bool_decide_ext; tauto).
  destruct (parent && bool_decide (elems rest = [])) eqn:Ep.
  { apply wp_bind, (wp_iunlock_at ip inum); [done|]. apply wp_ret, HQ. by exists ip. }
  assert (D : dir_ok sb v xl).
  { apply (dir_ok_meta sb v xl (node sb v inum)); [exact Hm | exact Hd |]. by apply (tr_dir _ _ Htr). }
  apply wp_bind, (wp_dirlookup _ _ _ _ _ _ ls Hls ip xl); try done.
  rewrite (lookup_dir_meta v xl (node sb v inum) e Hm).
  destruct (lookup_dir v (node sb v inum) e) as [[j off]|] eqn:El; [|by apply (wp_leave ip inum)].
  pose proof (tr_entry _ _ Htr _ _ _ _ Hlive Ed El) as Hj.
  destruct (at_entry_room _ _ _ j A) as (next & tbl1 & Ht1).
  destruct (wp_iunlockput_get ip x j next tbl1 (λ _, wp (namex_loop fuel next rest parent e) Q) L v tbl)
    as (tblL & HtL & Hw); try done.
  - apply (IH next j); [by eapply at_entry_next | lia | done].
  - apply (wp_iget _ _ _ _ _ _ ls j next tblL); [done..|]. by apply wp_bind.
Qed.

(** Absolute paths. *)
Lemma wp_namex path parent Q L :
  table_ok sb v tbl0 → head path = Some SLASH →
  (∀ r tbl', arrived r tbl' (walk sb v ROOTINO (elems path) parent []) → Q r (Ast ls [] L v tbl')) →
  wp (namex path parent) Q (Ast ls [] L v tbl0).
Proof.
  intros T Hp HQ. unfold namex. rewrite Hp. change (default 0 (Some SLASH) =? SLASH) with true. cbv iota.
  destruct Ha as [Hla Hra]. destruct (lookup_lt_is_Some_2 tbl0 a Hla) as [xa Hxa].
  destruct (ref_of_at _ _ _ Hxa) as [Er _].
  destruct (iget_room tbl0 ROOTINO a xa Hxa) as (ip & tbl1 & Ht); [lia|].
  destruct (table_iget sb v tbl0 ROOTINO ip tbl1 T Ht) as (T1 & M1 & y & Ey & Hy & _).
  apply wp_bind, (wp_iget _ _ _ _ _ _ ls ROOTINO ip tbl1); [done..|].
  apply (wp_namex_loop _ ip ROOTINO); [|lia|done]. split; try done.
  - apply (tr_root _ _ Htr).
  - unfold inum_of. by rewrite Ey.
  - by eapply lookup_lt_Some.
Qed.
End walk.
End path.

(** ** Reading a file by its name, as [exec] does *)
Section read_path.
  Context {S : Type} {KO : KernelOps S} {HS : HasState S fsst}.

Definition read_path (path : list Z) (off n : Z) : M S (option (Z * list Z)) :=
  r ← namei path;
  match r with
  | None => ret None
  | Some ip =>
      ilock ip ;;
      d ← readi ip false 0 off n;
      iunlockput ip ;;
      ret (Some d)
  end.
End read_path.

(** Code that changes no block runs on an idle file system. *)
Lemma idle_run {A} (m : M (solo fsst) A) (Q : A → list inode → Prop) t pid start size sb v tbl :
  idle t pid start size sb v tbl →
  wp pid start size sb 0 (f_disk t) m (λ a st, ∃ tbl', st = Ast [] [] [] v tbl' ∧ Q a tbl') (Ast [] [] [] v tbl) →
  ∃ a t' tbl', m (Solo t [] pid) = Ok a (Solo t' [] pid) ∧ idle t' pid start size sb v tbl' ∧ Q a tbl'.
Proof.
  intros [T Hv Hsb Hit Hs Hlen Hhdr] Hw. destruct (Hw t) as (a & t' & st & E & F & tbl' & -> & HQ).
  { split; try done. by intros h ?%elem_of_nil. }
  exists a, t', tbl'. split; [done|]. split; [|done]. destruct F as [T' V' S' D' I' _]. by split.
Qed.

Section theorems.
  Context (t : fsst) (pid start : Z) (sb : superblock) (v : Z → list Z) (tbl : list inode) (a b : nat).

(** The state in which paths are resolved: the tree on the disk is well formed,
    the table of inodes agrees with it, and has room for two more. *)
Record resolvable : Prop := {
  rs_idle : idle t pid start LOGSIZE sb v tbl;
  rs_ok : fs_ok sb v;
  rs_tree : tree_ok sb v;
  rs_table : table_ok sb v tbl;
  rs_room : a ≠ b ∧ (a < length tbl)%nat ∧ (b < length tbl)%nat ∧ ref_of tbl a = 0 ∧ ref_of tbl b = 0;
}.

Lemma table_refs : table_ok sb v tbl → ∀ j, 0 ≤ ref_of tbl j.
Proof.
  intros T j. unfold ref_of. destruct (tbl !! j) as [x|] eqn:Ex; [|done]. by destruct (T _ _ Ex) as (_ & H & _).
Qed.

Lemma namex_ok path parent :
  resolvable → head path = Some SLASH →
  ∃ r t' tbl', namex path parent (Solo t [] pid) = Ok r (Solo t' [] pid) ∧
    idle t' pid start LOGSIZE sb v tbl' ∧
    arrived sb v tbl r tbl' (walk sb v ROOTINO (elems path) parent []).
Proof.
  intros [I Hok Htr T (Hab & Ha & Hb & Ra & Rb)] Hp. eapply idle_run; [done|].
  apply (wp_namex pid start LOGSIZE sb 0 (f_disk t) [] no_locks (not_elem_of_nil _) v Hok Htr tbl a b Hab); try done.
  - by apply table_refs.
  - intros r tbl' H. by exists tbl'.
Qed.

Lemma read_path_ok path off n inum name :
  resolvable → head path = Some SLASH → walk sb v ROOTINO (elems path) false [] = Some (inum, name) →
  file_ok sb v (node sb v inum) → 0 ≤ off < 2 ^ 32 → 0 ≤ n < 2 ^ 32 →
  let r := readable (node sb v inum) off n in
  ∃ t' tbl', read_path path off n (Solo t [] pid) = Ok (Some (r, fbytes v (node sb v inum) off r)) (Solo t' [] pid) ∧
    idle t' pid start LOGSIZE sb v tbl' ∧ table_ok sb v tbl' ∧ moved tbl tbl' (λ _, 0).
Proof.
  intros Hrs Hp Hwalk F Hoff Hn r. pose proof Hrs as [I Hok Htr T (Hab & Ha & Hb & Ra & Rb)].
  pose proof (table_refs T) as H0. pose proof (conj Ha Ra) as Ha'. pose proof (conj Hb Rb) as Hb'.
  destruct (idle_run (read_path path off n)
    (λ d tbl', d = Some (r, fbytes v (node sb v inum) off r) ∧ table_ok sb v tbl' ∧ moved tbl tbl' (λ _, 0))
    t pid start LOGSIZE sb v tbl I) as (d & t' & tbl' & E & I' & -> & T' & M'); [|by exists t', tbl'].
  unfold read_path, namei. apply wp_bind, wp_bind.
  apply (wp_namex pid start LOGSIZE sb 0 (f_disk t) [] no_locks (not_elem_of_nil _) v Hok Htr tbl a b Hab); try done.
  rewrite Hwalk. intros r' tbl1 (ip & -> & A). apply wp_ret. cbn [fmap option_fmap option_map fst].
  apply wp_bind, (wp_ilock_at pid start LOGSIZE sb 0 (f_disk t) [] no_locks v tbl a b Hab Ha' Hb' H0 ip inum); [done|].
  intros tbl2 x R. destruct (ready_nlink _ _ _ _ _ _ _ R) as [Hnl _]. pose proof R as [A2 Ex Hl Hr Hd Hv Hm].
  set (xl := set_i_lock (SleepLock 1 pid) x).
  apply wp_bind, (wp_readi _ _ _ _ _ _ [] no_locks ip xl);
    [apply list_lookup_insert_eq, A2 | done | by apply (file_ok_meta sb v xl (node sb v inum)) | done | done |].
  assert (Es : i_size xl = i_size (node sb v inum) ∧ i_addrs xl = i_addrs (node sb v inum)).
  { change (i_size xl) with (i_size x). change (i_addrs xl) with (i_addrs x). unfold meta in Hm. split; congruence. }
  destruct Es as [Es Ea]. replace (readable xl off n) with r by (unfold r, readable; by rewrite Es).
  replace (fbytes v xl off r) with (fbytes v (node sb v inum) off r).
  2:{ apply list_fmap_ext. intros i o _. unfold fbyte, baddr, slot, indirect. by rewrite Ea. }
  apply wp_bind, (wp_iunlockput pid start LOGSIZE sb 0 (f_disk t) [] no_locks (not_elem_of_nil _) ip x); try done.
  apply wp_ret. eexists. split; [done|]. split; [done|]. by eapply (at_entry_put sb v tbl a b Hab Ha' Hb' H0).
Qed.
End theorems.

(** ** Theorems *)

(** C8: path names.  On a well-formed tree [namei] returns, for every absolute
    path: nothing if some element is not there or is in a file that is no
    directory, and then the references to inodes are as before; or an entry of
    the table for the inode the path stands for, and the references are as
    before but for one more to this entry.  [nameiparent] does the same for
    the path without its last element, which it also returns.  Slashes may be
    repeated, and elements are cut at [DIRSIZ] bytes.  What is already in the
    table of inodes makes no difference. *)
Theorem namei_walks t pid start sb v tbl a b path
    (Hres : resolvable t pid start sb v tbl a b) (Hpath : head path = Some SLASH) :
  (∃ r t' tbl', namei path (Solo t [] pid) = Ok r (Solo t' [] pid) ∧
     idle t' pid start LOGSIZE sb v tbl' ∧ table_ok sb v tbl' ∧
     match walk sb v ROOTINO (elems path) false [] with
     | None => r = None ∧ moved tbl tbl' (λ _, 0)
     | Some (inum, _) => ∃ ip, r = Some ip ∧ inum_of tbl' ip = inum ∧ moved tbl tbl' (one ip)
     end) ∧
  (∃ r t' tbl', nameiparent path (Solo t [] pid) = Ok r (Solo t' [] pid) ∧
     idle t' pid start LOGSIZE sb v tbl' ∧ table_ok sb v tbl' ∧
     match walk sb v ROOTINO (elems path) true [] with
     | None => r = None ∧ moved tbl tbl' (λ _, 0)
     | Some (inum, last) => ∃ ip, r = Some (ip, last) ∧ inum_of tbl' ip = inum ∧ moved tbl tbl' (one ip)
     end).
Proof.
  split.
  - destruct (namex_ok _ _ _ _ _ _ _ _ path false Hres Hpath) as (r & t' & tbl' & E & I & H).
    exists (fst <$> r), t', tbl'. split; [unfold namei; by rewrite (bind_ok _ _ _ _ _ E)|]. split; [done|].
    unfold arrived in H. destruct (walk _ _ _ _ _ _) as [[inum last]|].
    + destruct H as (ip & -> & A). split; [apply A|]. exists ip. split; [done|]. split; apply A.
    + destruct H as (-> & T & M). by split.
  - destruct (namex_ok _ _ _ _ _ _ _ _ path true Hres Hpath) as (r & t' & tbl' & E & I & H).
    exists r, t', tbl'. split; [exact E|]. split; [done|].
    unfold arrived in H. destruct (walk _ _ _ _ _ _) as [[inum last]|].
    + destruct H as (ip & -> & A). split; [apply A|]. exists ip. split; [done|]. split; apply A.
    + destruct H as (-> & T & M). by split.
Qed.

(** A disk with the root directory, in which the name [a] stands for inode 2,
    an empty file. *)
Definition ex_inodes : list Z :=
  store_dinode (Inode ROOTDEV 1 0 (SleepLock 0 0) 0 T_DIR 0 0 1 16 (46 :: replicate 12 0)) 64
    (store_dinode (ex_inode 2) 128 zero_block).
Definition ex_tree : gmap Z (list Z) := <[32 := ex_inodes]> ex_blocks.

Lemma ex_tree_image b : image ex_tree b = if decide (b = 32) then ex_inodes else image ex_blocks b.
Proof.
  unfold image, ex_tree. case_decide as E; [subst; by rewrite lookup_insert_eq | by rewrite lookup_insert_ne].
Qed.

Lemma ex_tree_length b : length (image ex_tree b) = 1024%nat.
Proof. rewrite ex_tree_image. case_decide; [vm_compute; reflexivity | apply ex_length]. Qed.

Lemma ex_tree_ok : fs_ok ex_sb (image ex_tree).
Proof.
  split; [apply ex_tree_length|]. intros b Hb. rewrite <- (fo_meta _ _ ex_ok b Hb). unfold used.
  rewrite ex_tree_image, decide_False; [done|]. unfold BBLOCK. change (sb_bmapstart ex_sb) with 45.
  change (datastart ex_sb) with 46 in Hb. rewrite BPB_8192. zlia.
Qed.

Lemma ex_node_types :
  forallb (λ i, if i =? 1 then true else if i =? 2 then true else i_type (node ex_sb (image ex_tree) i) =? 0)
    (zseq 0 200) = true.
Proof. vm_compute. reflexivity. Qed.

Lemma ex_live inum : live ex_sb (image ex_tree) inum → inum = 1 ∨ inum = 2.
Proof.
  intros (Hr & Ht & _). pose proof ex_node_types as H. rewrite forallb_forall in H.
  specialize (H inum). assert (Hin : List.In inum (zseq 0 200)).
  { apply list_elem_of_In, elem_of_zseq. change (sb_ninodes ex_sb) with 200 in Hr. lia. }
  specialize (H Hin). destruct (inum =? 1) eqn:E1; bool_to_prop; [by left|]. destruct (inum =? 2) eqn:E2; bool_to_prop; [by right|].
  done.
Qed.

Lemma ex_root : node ex_sb (image ex_tree) 1 = Inode ROOTDEV 1 0 initsleeplock 0 T_DIR 0 0 1 16 (46 :: replicate 12 0).
Proof. vm_compute. reflexivity. Qed.

Lemma ex_root_lookup name next off :
  lookup_dir (image ex_tree) (node ex_sb (image ex_tree) 1) name = Some (next, off) → next = 2.
Proof.
  rewrite ex_root. unfold lookup_dir.
  change (nents (Inode ROOTDEV 1 0 initsleeplock 0 T_DIR 0 0 1 16 (46 :: replicate 12 0))) with 1.
  destruct (List.find _ _) as [i|] eqn:E; [|done]. apply find_zseq_some in E as (Hi & _).
  replace i with 0 by lia. intros [= <- _]. vm_compute. reflexivity.
Qed.

Lemma ex_root_dir : dir_ok ex_sb (image ex_tree) (node ex_sb (image ex_tree) 1).
Proof.
  destruct ex_dir_ok as [[W _ Hs Hth] Ht Hsz].
  assert (Eo : ∀ b, owns (image ex_blocks) ex_dir b → image ex_tree b = image ex_blocks b ∧ used ex_sb (image ex_tree) b = true).
  { intros b (Hb & s & Hr & <-). destruct (iw_data _ _ _ W s Hr Hb) as [Hd Hu]. change (datastart ex_sb) with 46 in Hd.
    split; [rewrite ex_tree_image, decide_False by lia; done|]. rewrite <- Hu. unfold used. rewrite ex_tree_image, decide_False; [done|].
    unfold BBLOCK. change (sb_bmapstart ex_sb) with 45. change (sb_size ex_sb) with 2000 in Hd. rewrite BPB_8192. zlia. }
  apply (dir_ok_meta _ _ _ ex_dir); [by rewrite ex_root | by rewrite ex_root |]. split; [|done|done]. split; try done.
  - by eapply inode_wf_ext.
Qed.

Lemma ex_resolvable : resolvable (ex_state_on ex_tree (replicate 50 inode0)) 1 2 ex_sb (image ex_tree) (replicate 50 inode0) 0 1.
Proof.
  split.
  - apply ex_idle_on; [reflexivity | apply ex_tree_length | reflexivity].
  - apply ex_tree_ok.
  - split.
    + split; [done|]. change ROOTINO with 1. by rewrite ex_root.
    + intros inum [->| ->]%ex_live Ht; [apply ex_root_dir | vm_compute in Ht; discriminate].
    + intros inum name next off [->| ->]%ex_live Ht El; [|vm_compute in Ht; discriminate].
      apply ex_root_lookup in El as ->. split; [done|]. split; vm_compute; discriminate.
  - intros ip x Hx. apply lookup_replicate in Hx as [-> _]. split_and!; [done | done |]. cbn. lia.
  - split_and!; try done; cbn; lia.
Qed.

Lemma namei_walks_witness :
  ∃ ip t' tbl', namei [47; 47; 97] (Solo (ex_state_on ex_tree (replicate 50 inode0)) [] 1) = Ok (Some ip) (Solo t' [] 1) ∧
    inum_of tbl' ip = 2 ∧ moved (replicate 50 inode0) tbl' (one ip).
Proof.
  destruct (namei_walks (ex_state_on ex_tree (replicate 50 inode0)) 1 2 ex_sb (image ex_tree) (replicate 50 inode0) 0 1 [47; 47; 97])
    as [(r & t' & tbl' & E & _ & _ & H) _].
  - exact ex_resolvable.
  - reflexivity.
  - assert (Ew : walk ex_sb (image ex_tree) ROOTINO (elems [47; 47; 97]) false [] = Some (2, [97])) by (vm_compute; reflexivity).
    rewrite Ew in H. destruct H as (ip & Er & Hi & Hm). rewrite Er in E. exists ip, t', tbl'. exact (conj E (conj Hi Hm)).
Defined.
