(* ===== verification/Mkfs.v ===== *)
(** * Making a file system image ([mkfs/mkfs.c])

    The host program that writes the disk image the kernel boots from.  The
    image file is a map from sectors to their bytes; a read past its end is
    short and ends the program.  [Panic] stands for [die], for a failed
    [assert] and for [exit(1)].  A [struct dinode] is an [inode] of which only
    the fields on disk matter.  The files of the host are a parameter. *)

From S2P Require Import Base Riscv Mem Kstring Sleeplock FsState Fs.
Local Open Scope Z_scope.
Local Open Scope kernel_scope.

Definition NINODES : Z := 200.

Record mkst := Mkst {
  mk_image : gmap Z (list Z);
  mk_freeinode : Z;
  mk_freeblock : Z;
}.
Definition set_mk_image (v : gmap Z (list Z)) (s : mkst) : mkst := Mkst v (mk_freeinode s) (mk_freeblock s).
Definition set_mk_freeinode (v : Z) (s : mkst) : mkst := Mkst (mk_image s) v (mk_freeblock s).
Definition set_mk_freeblock (v : Z) (s : mkst) : mkst := Mkst (mk_image s) (mk_freeinode s) v.

Definition nbitmap : Z := FSSIZE / (BSIZE * 8) + 1.
Definition ninodeblocks : Z := NINODES / IPB + 1.
Definition nlog : Z := LOGSIZE.
Definition nmeta : Z := 2 + nlog + ninodeblocks + nbitmap.
Definition nblocks : Z := FSSIZE - nmeta.

Definition mk_sb : superblock :=
  Superblock FSMAGIC FSSIZE nblocks NINODES nlog 2 (2 + nlog) (2 + nlog + ninodeblocks).

(** The bytes of a number in the order of the target. *)
Definition xshort (x : Z) : list Z := le_bytes 2 x.
Definition xint (x : Z) : list Z := le_bytes 4 x.

Definition superblock_bytes (sb : superblock) : list Z :=
  xint (sb_magic sb) ++ xint (sb_size sb) ++ xint (sb_nblocks sb) ++ xint (sb_ninodes sb) ++
  xint (sb_nlog sb) ++ xint (sb_logstart sb) ++ xint (sb_inodestart sb) ++ xint (sb_bmapstart sb).

(** [sec * BSIZE] is computed in 32 bits. *)
Definition sector (sec : Z) : Z := u32 (sec * BSIZE) / BSIZE.

Definition wsect (sec : Z) (buf : list Z) : M mkst unit :=
  modify (λ s, set_mk_image (<[sector sec := buf]> (mk_image s)) s).

Definition rsect (sec : Z) : M mkst (list Z) :=
  o ← gets (λ s, mk_image s !! sector sec);
  match o with
  | Some buf => ret buf
  | None => panic "read"
  end.

(** What is not on disk only identifies the inode. *)
Definition blank (inum : Z) : inode := Inode ROOTDEV inum 0 initsleeplock 0 0 0 0 0 0 [].

Definition winode (inum : Z) (din : inode) : M mkst unit :=
  let bn := IBLOCK inum mk_sb in
  buf ← rsect bn;
  wsect bn (store_dinode din (dinode_off inum) buf).

Definition rinode (inum : Z) : M mkst inode :=
  let bn := IBLOCK inum mk_sb in
  buf ← rsect bn;
  ret (load_dinode buf (dinode_off inum) (blank inum)).

Definition mk_ialloc (type : Z) : M mkst Z :=
  inum ← gets mk_freeinode;
  modify (set_mk_freeinode (u32 (inum + 1))) ;;
  winode inum (Inode ROOTDEV inum 0 initsleeplock 0 type 0 0 1 0 (replicate 13 0)) ;;
  ret inum.

(** [buf[i/8] |= 1 << (i%8)] for [i < used]. *)
Definition mk_bitmap (used : Z) : list Z :=
  foldl (λ buf i, <[Z.to_nat (i / 8) := Z.lor (default 0 (buf !! Z.to_nat (i / 8))) (Z.shiftl 1 (i mod 8))]> buf)
    zero_block (zseq 0 (Z.to_nat used)).

Definition mk_balloc (used : Z) : M mkst unit :=
  if used <? BSIZE * 8 then wsect (sb_bmapstart mk_sb) (mk_bitmap used) else panic "assert".

(** [freeblock++] *)
Definition next_block : M mkst Z :=
  b ← gets mk_freeblock;
  modify (set_mk_freeblock (u32 (b + 1))) ;;
  ret b.

Definition din_addr (din : inode) (i : Z) : Z := default 0 (i_addrs din !! Z.to_nat i).
Definition set_din_addr (i a : Z) (din : inode) : inode :=
  set_i_addrs (<[Z.to_nat i := a]> (i_addrs din)) din.

(** The block of the file for position [fbn], allocated if it is not there. *)
Definition iappend_block (din : inode) (fbn : Z) : M mkst (inode * Z) :=
  if fbn <? NDIRECT then
    din ← (if din_addr din fbn =? 0 then b ← next_block; ret (set_din_addr fbn b din) else ret din);
    ret (din, din_addr din fbn)
  else
    din ← (if din_addr din NDIRECT =? 0 then b ← next_block; ret (set_din_addr NDIRECT b din) else ret din);
    indirect ← rsect (din_addr din NDIRECT);
    indirect ← (if blk_get 4 (4 * (fbn - NDIRECT)) indirect =? 0 then
                  b ← next_block;
                  let indirect := blk_put 4 (4 * (fbn - NDIRECT)) b indirect in
                  wsect (din_addr din NDIRECT) indirect ;;
                  ret indirect
                else ret indirect);
    ret (din, blk_get 4 (4 * (fbn - NDIRECT)) indirect).

Fixpoint iappend_loop (fuel : nat) (din : inode) (off : Z) (p : list Z) : M mkst (inode * Z) :=
  match fuel with
  | O => diverge
  | S fuel =>
      match p with
      | [] => ret (din, off)
      | _ =>
          let fbn := off / BSIZE in
          if negb (fbn <? MAXFILE) then panic "assert" else
          '(din, x) ← iappend_block din fbn;
          let n1 := Z.min (Z.of_nat (length p)) ((fbn + 1) * BSIZE - off) in
          buf ← rsect x;
          wsect x (splice (off - fbn * BSIZE) (take (Z.to_nat n1) p) buf) ;;
          iappend_loop fuel din (off + n1) (drop (Z.to_nat n1) p)
      end
  end.

Definition iappend (inum : Z) (p : list Z) : M mkst unit :=
  din ← rinode inum;
  '(din, off) ← iappend_loop (S (length p)) din (i_size din) p;
  winode inum (set_i_size off din).

(** ** The names of the files *)
Definition USER_DIR : list Z := [117; 115; 101; 114; 47].
Definition UNDERSCORE : Z := 95.

(** The name without ["user/"], or [None] if it has another slash. *)
Definition shortname (arg : list Z) : option (list Z) :=
  let name := if bool_decide (take 5 arg = USER_DIR) then drop 5 arg else arg in
  if bool_decide (SLASH ∈ name) then None else Some name.

Definition skip_underscore (name : list Z) : list Z :=
  match name with
  | c :: rest => if c =? UNDERSCORE then rest else name
  | [] => []
  end.

(** The pieces [read] returns. *)
Fixpoint chunks (fuel : nat) (l : list Z) : list (list Z) :=
  match fuel, l with
  | S fuel, _ :: _ => take (Z.to_nat BSIZE) l :: chunks fuel (drop (Z.to_nat BSIZE) l)
  | _, _ => []
  end.

Section mkfs.
  Context (host : list Z → option (list Z)).

Definition add_file (rootino : Z) (arg : list Z) : M mkst unit :=
  match shortname arg with
  | None => panic "assert"
  | Some name =>
      match host arg with
      | None => panic "open"
      | Some contents =>
          inum ← mk_ialloc T_FILE;
          iappend rootino (mk_dirent inum (skip_underscore name)) ;;
          mfor (chunks (length contents) contents) (iappend inum)
      end
  end.

(** [main] for the arguments after the name of the image. *)
Definition mkfs_main (args : list (list Z)) : M mkst unit :=
  mfor (zseq 0 (Z.to_nat FSSIZE)) (λ i, wsect i zero_block) ;;
  wsect 1 (zpad 1024 (superblock_bytes mk_sb)) ;;
  rootino ← mk_ialloc T_DIR;
  if negb (rootino =? ROOTINO) then panic "assert" else
  iappend rootino (mk_dirent rootino [46]) ;;
  iappend rootino (mk_dirent rootino [46; 46]) ;;
  mfor args (add_file rootino) ;;
  din ← rinode rootino;
  winode rootino (set_i_size (u32 ((i_size din / BSIZE + 1) * BSIZE)) din) ;;
  freeblock ← gets mk_freeblock;
  mk_balloc freeblock.

(** The arguments are the program, the image and the files. *)
Definition mkfs (argv : list (list Z)) : M mkst unit :=
  match argv with
  | _ :: _ :: args => mkfs_main args
  | _ => panic "Usage: mkfs fs.img files..."
  end.
End mkfs.

(** The image is new, the first inode is 1, the first block the one after the
    bitmap. *)
Definition mk_init : mkst := Mkst ∅ 1 nmeta.
