(* ===== verification/MkfsSpec.v ===== *)
(** * The image [mkfs] makes

    [rep s v]: the image written so far shows the blocks [v], where the
    bitmap in [v] is the one that [mkfs] will write at the end.  With it the
    lemmas about files of the kernel apply to [iappend].  The result: the
    image is a well-formed file system with an empty log, its root directory
    has the names of all files, and each has its contents. *)

From stdpp Require Import functions.
From S2P Require Import Base Riscv Mem Kstring Kernel Sleeplock FsState Bio BioList BioSpec Log LogSpec.
From S2P Require Import LogCrash LogOps Fs FsLogic FsAlloc FsInode FsFile FsData FsOps FsDir Mkfs.
Local Open Scope Z_scope.
Local Open Scope kernel_scope.

Lemma mk_layout : layout mk_sb 2 LOGSIZE.
Proof. split; repeat split; (reflexivity || (vm_compute; discriminate)). Qed.

Lemma mk_numbers : datastart mk_sb = 46 ∧ sb_size mk_sb = 2000 ∧ sb_bmapstart mk_sb = 45 ∧
  sb_inodestart mk_sb = 32 ∧ sb_ninodes mk_sb = 200 ∧ nmeta = 46.
Proof. done. Qed.

(** Arithmetic with the numbers of the layout. *)
Ltac mklia :=
  change (datastart mk_sb) with 46 in *; change (sb_size mk_sb) with 2000 in *;
  change (sb_bmapstart mk_sb) with 45 in *; change (sb_inodestart mk_sb) with 32 in *;
  change (sb_ninodes mk_sb) with 200 in *; change nmeta with 46 in *; change FSSIZE with 2000 in *;
  change MAXFILE with 268 in *; change BSIZE with 1024 in *; rewrite ?BPB_8192 in *; zlia.

Record rep (s : mkst) (v : Z → list Z) : Prop := {
  rp_image : ∀ b, 0 ≤ b < FSSIZE → b ≠ 45 → mk_image s !! b = Some (v b);
  rp_bmap : is_Some (mk_image s !! 45);
  rp_ok : fs_ok mk_sb v;
  rp_used : ∀ b, 0 ≤ b < FSSIZE → used mk_sb v b = (b <? mk_freeblock s);
  rp_zero : ∀ b, mk_freeblock s ≤ b < FSSIZE → v b = zero_block;
  rp_free : nmeta ≤ mk_freeblock s ≤ FSSIZE;
  rp_len : ∀ b d, mk_image s !! b = Some d → length d = 1024%nat;
}.

Lemma sector_small b : 0 ≤ b < FSSIZE → sector b = b.
Proof.
  intros Hb. change FSSIZE with 2000 in Hb. unfold sector. change BSIZE with 1024.
  rewrite u32_small by lia. apply Z.div_mul. lia.
Qed.

Lemma rsect_ok s v b : rep s v → 0 ≤ b < FSSIZE → b ≠ 45 → rsect b s = Ok (v b) s.
Proof.
  intros R Hb Hne. unfold rsect. krun. by rewrite sector_small, (rp_image _ _ R).
Qed.

(** A sector that is in use is overwritten: an inode block or a data block. *)
Lemma wsect_ok s v b d :
  rep s v → length d = 1024%nat → 1 < b < mk_freeblock s → b ≠ 45 →
  ∃ s', wsect b d s = Ok tt s' ∧ rep s' (<[b := d]> v) ∧
    mk_freeblock s' = mk_freeblock s ∧ mk_freeinode s' = mk_freeinode s.
Proof.
  intros R Hd Hb Hne. pose proof (rp_free _ _ R) as Hf. eexists. split; [reflexivity|].
  split; [|done]. rewrite sector_small by lia. pose proof R as [Hi Hm Hok Hu Hz _ Hsz]. split; cbn.
  - intros a Ha Ha'. destruct (decide (a = b)) as [->|].
    + by rewrite lookup_insert_eq, fn_lookup_insert.
    + rewrite lookup_insert_ne, fn_lookup_insert_ne by done. auto.
  - by rewrite lookup_insert_ne by done.
  - split.
    + intros a. destruct (decide (a = b)) as [->|]; [by rewrite fn_lookup_insert|].
      rewrite fn_lookup_insert_ne by done. apply Hok.
    + intros a Ha. rewrite <- (fo_meta _ _ Hok a Ha). unfold used. rewrite fn_lookup_insert_ne; [done|].
      unfold BBLOCK. destruct mk_numbers as (E1 & E2 & E3 & _). rewrite E1 in Ha. rewrite E3, BPB_8192. zlia.
  - intros a Ha. rewrite <- (Hu a Ha). unfold used. rewrite fn_lookup_insert_ne; [done|].
    unfold BBLOCK. destruct mk_numbers as (_ & _ & E3 & _). change FSSIZE with 2000 in *. rewrite E3, BPB_8192. zlia.
  - intros a Ha. rewrite fn_lookup_insert_ne by lia. auto.
  - done.
  - intros a da. destruct (decide (a = b)) as [->|].
    + rewrite lookup_insert_eq. by intros [= <-].
    + rewrite lookup_insert_ne by done. apply Hsz.
Qed.

Lemma next_block_ok s v :
  rep s v → mk_freeblock s < FSSIZE →
  ∃ s', next_block s = Ok (mk_freeblock s) s' ∧ allocated mk_sb v (mk_freeblock s) (alloc_view mk_sb v (mk_freeblock s)) ∧
    rep s' (alloc_view mk_sb v (mk_freeblock s)) ∧
    mk_freeblock s' = mk_freeblock s + 1 ∧ mk_freeinode s' = mk_freeinode s.
Proof.
  intros R Hlt. pose proof R as [Hi Hm Hok Hu Hz Hf Hsz]. destruct mk_numbers as (E1 & E2 & E3 & _).
  set (b := mk_freeblock s) in *. change nmeta with 46 in *. change FSSIZE with 2000 in *.
  assert (A : allocated mk_sb v b (alloc_view mk_sb v b)).
  { apply (alloc_view_allocated mk_layout Hok); [lia|]. rewrite Hu by lia. apply Z.ltb_irrefl. }
  unfold next_block. krun. rewrite u32_small by (fold b; lia). eexists. split; [reflexivity|]. split; [done|].
  split; [|done]. fold b. split; cbn.
  - intros a Ha Ha'. destruct (decide (a = b)) as [->|].
    + rewrite (al_new _ _ _ _ A), Hi, Hz by mklia. done.
    + rewrite (al_other _ _ _ _ A) by mklia. auto.
  - done.
  - apply (al_ok _ _ _ _ A).
  - intros a Ha. rewrite (al_used _ _ _ _ A), Hu by mklia. case_bool_decide; cbn [orb].
    + symmetry. apply Z.ltb_lt. lia.
    + apply eq_true_iff_eq. rewrite !Z.ltb_lt. lia.
  - intros a Ha. rewrite (al_other _ _ _ _ A) by mklia. apply Hz. mklia.
  - mklia.
  - exact Hsz.
Qed.

(** ** Appending to a file *)

(** The offset of the first byte of the file that needs slot [s]. *)
Definition slot_at (s : Z) : Z := BSIZE * (if s <=? 12 then s else s - 1).

(** The file has the blocks [n] bytes need, and no others. *)
Definition packed (v : Z → list Z) (x : inode) (n : Z) : Prop :=
  ∀ s, 0 ≤ s < NSLOT → slot v x s ≠ 0 ↔ slot_at s < n.

(** How many blocks that is. *)
Definition fblocks (n : Z) : Z := (n + (BSIZE - 1)) / BSIZE + (if NDIRECT * BSIZE <? n then 1 else 0).

Lemma packed_indirect v x n : packed v x n → indirect x ≠ 0 ↔ 12 * 1024 < n.
Proof. intros P. by apply (P 12). Qed.

Lemma packed_baddr v x n bn : packed v x n → 0 ≤ bn < MAXFILE → baddr v x bn ≠ 0 ↔ bn * 1024 < n.
Proof.
  intros P Hbn. destruct (bslot_range bn Hbn) as [Hs Hne]. unfold baddr. rewrite (P _ Hs).
  unfold slot_at, bslot. change NDIRECT with 12. change BSIZE with 1024.
  destruct (bn <? 12) eqn:E; bool_to_prop; destruct (_ <=? 12) eqn:E'; bool_to_prop; lia.
Qed.

(** One more slot. *)
Lemma packed_step v x v' x' n n' s0 b :
  packed v x n → b ≠ 0 → n ≤ n' →
  (∀ s, 0 ≤ s < NSLOT → slot v' x' s = if decide (s = s0) then b else slot v x s) →
  slot_at s0 < n' → (∀ s, 0 ≤ s < NSLOT → s ≠ s0 → n ≤ slot_at s → n' ≤ slot_at s) →
  packed v' x' n'.
Proof.
  intros P Hb Hn Hs H0 Hother s Hr. rewrite Hs by done. case_decide as Ed.
  - subst s. split; [done|]. by intros _.
  - rewrite (P s Hr). split; [lia|]. intros Hlt. destruct (decide (n ≤ slot_at s)) as [Hle|]; [|lia].
    specialize (Hother s Hr Ed Hle). lia.
Qed.

Lemma packed_same v x n n' :
  packed v x n → n ≤ n' → (∀ s, 0 ≤ s < NSLOT → n ≤ slot_at s → n' ≤ slot_at s) → packed v x n'.
Proof.
  intros P Hn H s Hs. rewrite (P s Hs). split; [lia|]. intros Hlt.
  destruct (decide (n ≤ slot_at s)) as [Hle|]; [specialize (H s Hs Hle); lia | lia].
Qed.

Ltac slotlia :=
  unfold slot_at, fblocks in *; change NSLOT with 269 in *; change MAXFILE with 268 in *;
  change NDIRECT with 12 in *; change BSIZE with 1024 in *;
  repeat match goal with
  | |- context [?a <=? ?b] => let E := fresh "E" in destruct (a <=? b) eqn:E; bool_to_prop
  | |- context [?a <? ?b] => let E := fresh "E" in destruct (a <? b) eqn:E; bool_to_prop
  | H : context [?a <=? ?b] |- _ => let E := fresh "E" in destruct (a <=? b) eqn:E; bool_to_prop
  | H : context [?a <? ?b] |- _ => let E := fresh "E" in destruct (a <? b) eqn:E; bool_to_prop
  end; zlia.

(** What [iappend_block] does to find the block for byte [off], when the file
    grows from [off] to [n] bytes within that block. *)
Definition extends (s : mkst) (v : Z → list Z) (x : inode) (off n : Z)
    (s' : mkst) (v' : Z → list Z) (x' : inode) : Prop :=
  grown mk_sb v x v' x' ∧ rep s' v' ∧ packed v' x' n ∧
  mk_freeblock s' = mk_freeblock s + (fblocks n - fblocks off) ∧ mk_freeinode s' = mk_freeinode s.

Section append.
  Context (s : mkst) (v : Z → list Z) (x : inode) (off n : Z).
  Context (R : rep s v) (W : inode_wf mk_sb v x) (P : packed v x off) (Hoff : 0 ≤ off < MAXFILE * BSIZE).
  Context (Hn : off < n ≤ (off / BSIZE + 1) * BSIZE).
  Context (Hroom : mk_freeblock s + (fblocks n - fblocks off) ≤ FSSIZE).

(** The block is there. *)
Lemma extends_there : off mod BSIZE ≠ 0 → extends s v x off n s v x.
Proof.
  intros Hm. split; [apply grown_refl; [apply R|done]|]. split; [done|]. split.
  - apply (packed_same v x off); [done | lia |]. intros s0 Hs0. slotlia.
  - split; [|done]. slotlia.
Qed.

Lemma append_direct :
  off / BSIZE < NDIRECT →
  ∃ s' v' x', iappend_block x (off / BSIZE) s = Ok (x', baddr v' x' (off / BSIZE)) s' ∧ extends s v x off n s' v' x'.
Proof.
  intros Hd. change NDIRECT with 12 in Hd. unfold iappend_block. rewrite (proj2 (Z.ltb_lt _ _)) by done.
  assert (Hb : 0 ≤ off / BSIZE < 12) by (change BSIZE with 1024 in *; zlia).
  pose proof (packed_baddr v x off (off / BSIZE) P ltac:(change MAXFILE with 268; lia)) as Hp.
  change (din_addr x (off / BSIZE)) with (default 0 (i_addrs x !! Z.to_nat (off / BSIZE))).
  rewrite <- (baddr_direct v) by done. destruct (decide (off mod BSIZE = 0)) as [Hm|Hm].
  - assert (E0 : baddr v x (off / BSIZE) = 0).
    { destruct (decide (baddr v x (off / BSIZE) = 0)); [done|]. apply Hp in n0. change BSIZE with 1024 in *. zlia. }
    rewrite E0. change (0 =? 0) with true. cbv iota.
    assert (Hr1 : mk_freeblock s < FSSIZE) by (clear -Hroom Hm Hn Hoff Hd; slotlia).
    destruct (next_block_ok s v R Hr1) as (s' & E & A & R' & F1 & F2).
    unfold bind at 1. rewrite (bind_ok _ _ _ _ _ E). cbn [ret res_bind].
    exists s', (alloc_view mk_sb v (mk_freeblock s)), (set_din_addr (off / BSIZE) (mk_freeblock s) x).
    assert (G : grown mk_sb v x (alloc_view mk_sb v (mk_freeblock s)) (set_din_addr (off / BSIZE) (mk_freeblock s) x)).
    { apply (grown_direct mk_layout W A); [done|]. by rewrite <- (baddr_direct v). }
    split; [by rewrite baddr_direct by done|]. split; [done|]. split; [done|]. split.
    + pose proof (rp_free _ _ R) as Hf. change nmeta with 46 in Hf.
      apply (packed_step v x _ _ off n (off / BSIZE) (mk_freeblock s)); [done | lia | lia | | slotlia |].
      * intros s0 Hs0. by apply (slots_direct W A).
      * intros s0 Hs0 Hne Hle. clear -Hs0 Hne Hle Hm Hn Hoff Hd. slotlia.
    + split; [|done]. rewrite F1. clear -Hm Hn Hoff Hd. slotlia.
  - assert (E0 : baddr v x (off / BSIZE) ≠ 0) by (apply Hp; change BSIZE with 1024 in *; zlia).
    rewrite (proj2 (Z.eqb_neq _ _)) by done. exists s, v, x. split; [|by apply extends_there].
    rewrite bind_ret. by rewrite (baddr_direct v) by done.
Qed.
End append.

(** The part of [iappend_block] after the indirect block. *)
Definition entry_part (din : inode) (fbn : Z) : M mkst (inode * Z) :=
  indirect ← rsect (din_addr din NDIRECT);
  indirect ← (if blk_get 4 (4 * (fbn - NDIRECT)) indirect =? 0 then
                b ← next_block;
                let indirect := blk_put 4 (4 * (fbn - NDIRECT)) b indirect in
                wsect (din_addr din NDIRECT) indirect ;;
                ret indirect
              else ret indirect);
  ret (din, blk_get 4 (4 * (fbn - NDIRECT)) indirect).

Section entry.
  Context (s : mkst) (v : Z → list Z) (x : inode) (fbn : Z).
  Context (R : rep s v) (W : inode_wf mk_sb v x) (Hi : indirect x ≠ 0) (Hf : 12 ≤ fbn < MAXFILE).

Lemma entry_baddr : baddr v x fbn = blk_get 4 (4 * (fbn - NDIRECT)) (v (indirect x)).
Proof. by rewrite baddr_indirect, (proj2 (Z.eqb_neq _ _)) by (done || lia). Qed.

Lemma indirect_block : nmeta ≤ indirect x < mk_freeblock s ∧ 0 ≤ indirect x < FSSIZE.
Proof.
  destruct (iw_data _ _ _ W 12) as [Hr Hu]; [by vm_compute | done |].
  change (slot v x 12) with (indirect x) in *. rewrite (rp_used _ _ R) in Hu by mklia. bool_to_prop. mklia.
Qed.

Lemma entry_there : baddr v x fbn ≠ 0 → entry_part x fbn s = Ok (x, baddr v x fbn) s.
Proof.
  intros Hn. destruct indirect_block as [? ?]. unfold entry_part. change (din_addr x NDIRECT) with (indirect x).
  rewrite (bind_ok _ _ _ _ _ (rsect_ok s v (indirect x) R ltac:(lia) ltac:(mklia))).
  rewrite <- entry_baddr, (proj2 (Z.eqb_neq _ _)), bind_ret, <- entry_baddr by done. done.
Qed.

Lemma entry_new :
  baddr v x fbn = 0 → mk_freeblock s < FSSIZE →
  ∃ s' v', entry_part x fbn s = Ok (x, baddr v' x fbn) s' ∧ grown mk_sb v x v' x ∧ rep s' v' ∧
    (∀ s0, 0 ≤ s0 < NSLOT → slot v' x s0 = if decide (s0 = fbn + 1) then mk_freeblock s else slot v x s0) ∧
    mk_freeblock s' = mk_freeblock s + 1 ∧ mk_freeinode s' = mk_freeinode s.
Proof.
  intros E0 Hr. destruct indirect_block as [H1 H2]. change MAXFILE with 268 in Hf. change nmeta with 46 in H1.
  pose proof entry_baddr as Eb. rewrite E0 in Eb.
  destruct (next_block_ok s v R Hr) as (s1 & E1 & A & R1 & F1 & G1). set (b := mk_freeblock s) in *.
  set (v1 := alloc_view mk_sb v b) in *.
  assert (Ei : v1 (indirect x) = v (indirect x)) by (apply (al_other _ _ _ _ A); left; mklia).
  set (d := blk_put 4 (4 * (fbn - NDIRECT)) b (v (indirect x))).
  pose proof (fo_len _ _ (rp_ok _ _ R) (indirect x)) as Hlen.
  destruct (wsect_ok s1 v1 (indirect x) d R1) as (s2 & E2 & R2 & F2 & G2);
    [unfold d; rewrite blk_put_length; change NDIRECT with 12; lia | lia | lia |].
  exists s2, (<[indirect x := d]> v1).
  assert (Ev : <[indirect x := d]> v1 (indirect x) = blk_put 4 (4 * (fbn - NDIRECT)) b (v1 (indirect x))).
  { rewrite fn_lookup_insert, Ei. done. }
  assert (Ea : ∀ a, a ≠ indirect x → <[indirect x := d]> v1 a = v1 a) by (intros; by rewrite fn_lookup_insert_ne).
  assert (Hj : 0 ≤ fbn - NDIRECT < NINDIRECT) by (change NDIRECT with 12; change NINDIRECT with 256; lia).
  assert (Hs : ∀ s0, 0 ≤ s0 < NSLOT → slot (<[indirect x := d]> v1) x s0 = if decide (s0 = fbn + 1) then b else slot v x s0).
  { intros s0 Hs0. rewrite (slots_entry mk_layout (rp_ok _ _ R) W A Hi Hj Ev) by done.
    change NDIRECT with 12. by replace (13 + (fbn - 12)) with (fbn + 1) by lia. }
  split_and!; try done; try lia.
  - unfold entry_part. change (din_addr x NDIRECT) with (indirect x).
    rewrite (bind_ok _ _ _ _ _ (rsect_ok s v (indirect x) R ltac:(lia) ltac:(mklia))).
    rewrite <- Eb. change (0 =? 0) with true. cbv iota.
    unfold bind at 1. rewrite (bind_ok _ _ _ _ _ E1). fold d. rewrite (bind_ok _ _ _ _ _ E2). cbn [ret res_bind].
    do 2 f_equal. rewrite baddr_indirect, (proj2 (Z.eqb_neq _ _)) by (done || lia). by rewrite fn_lookup_insert.
  - by apply (grown_entry mk_layout (rp_ok _ _ R) W A Hi Hj Ev Ea).
Qed.
End entry.

Lemma iappend_block_far x fbn :
  ¬ fbn < NDIRECT → iappend_block x fbn =
    (din ← (if din_addr x NDIRECT =? 0 then b ← next_block; ret (set_din_addr NDIRECT b x) else ret x);
     entry_part din fbn).
Proof. intros H. unfold iappend_block. by rewrite (proj2 (Z.ltb_ge _ _)) by lia. Qed.

Lemma append_far s v x off n :
  rep s v → inode_wf mk_sb v x → packed v x off → 0 ≤ off < MAXFILE * BSIZE →
  off < n ≤ (off / BSIZE + 1) * BSIZE → mk_freeblock s + (fblocks n - fblocks off) ≤ FSSIZE →
  ¬ off / BSIZE < NDIRECT →
  ∃ s' v' x', iappend_block x (off / BSIZE) s = Ok (x', baddr v' x' (off / BSIZE)) s' ∧ extends s v x off n s' v' x'.
Proof.
  intros R W P Hoff Hn Hroom Hd. rewrite iappend_block_far by done.
  assert (Hb : 12 ≤ off / BSIZE < MAXFILE) by (change NDIRECT with 12 in Hd; mklia).
  pose proof (packed_baddr v x off (off / BSIZE) P ltac:(lia)) as Hp.
  pose proof (packed_indirect v x off P) as Hpi. change (din_addr x NDIRECT) with (indirect x).
  pose proof (rp_free _ _ R) as Hf. change nmeta with 46 in Hf.
  destruct (decide (off mod BSIZE = 0)) as [Hm|Hm].
  2:{ assert (Hi : indirect x ≠ 0) by (apply Hpi; clear -Hm Hb Hoff; mklia).
      assert (Ha : baddr v x (off / BSIZE) ≠ 0) by (apply Hp; clear -Hm Hoff; mklia).
      exists s, v, x. split; [|by apply extends_there].
      rewrite (proj2 (Z.eqb_neq _ _)), bind_ret by done. by apply entry_there. }
  assert (E0 : baddr v x (off / BSIZE) = 0).
  { destruct (decide (baddr v x (off / BSIZE) = 0)) as [|Hne]; [done|]. apply Hp in Hne. clear -Hne Hm Hoff. mklia. }
  destruct (decide (off = 12 * 1024)) as [Ho|Ho].
  - assert (Hi : indirect x = 0) by (destruct (decide (indirect x = 0)) as [|Hne]; [done | apply Hpi in Hne; lia]).
    assert (Hr1 : mk_freeblock s + 2 ≤ FSSIZE) by (clear -Hroom Hn Ho; subst off; slotlia).
    destruct (next_block_ok s v R ltac:(lia)) as (s1 & E1 & A & R1 & F1 & G1).
    set (b := mk_freeblock s) in *. set (v1 := alloc_view mk_sb v b) in *.
    set (x1 := set_din_addr NDIRECT b x).
    assert (Gr1 : grown mk_sb v x v1 x1) by (by apply (grown_indirect mk_layout W A)).
    assert (Hs1 : ∀ s0, 0 ≤ s0 < NSLOT → slot v1 x1 s0 = if decide (s0 = 12) then b else slot v x s0).
    { intros s0. by apply (slots_indirect mk_layout W A). }
    assert (Hi1 : indirect x1 ≠ 0).
    { change (indirect x1) with (slot v1 x1 12). rewrite (Hs1 12), decide_True by done. lia. }
    assert (E1' : baddr v1 x1 (off / BSIZE) = 0).
    { destruct (bslot_range (off / BSIZE) ltac:(lia)) as [Hr Hne]. unfold baddr. rewrite (Hs1 _ Hr), decide_False by done.
      exact E0. }
    destruct (entry_new s1 v1 x1 (off / BSIZE) R1 (ev_wf _ _ _ _ _ (gr_evolved _ _ _ _ _ Gr1)) Hi1 Hb E1' ltac:(lia))
      as (s2 & v2 & E2 & Gr2 & R2 & Hs2 & F2 & G2).
    exists s2, v2, x1. split.
    { rewrite Hi. change (0 =? 0) with true. cbv iota. unfold bind at 1. rewrite (bind_ok _ _ _ _ _ E1). exact E2. }
    split; [eapply grown_trans; [change (datastart mk_sb) with 46; lia | done | done]|]. split; [done|].
    split; [|split; [rewrite F2, F1; clear -Hn Ho; subst off; slotlia | congruence]].
    intros s0 Hs0. rewrite Hs2 by done. change (off / BSIZE + 1) with (off / 1024 + 1). subst off. change (12 * 1024 / 1024 + 1) with 13.
    case_decide as Ed; [subst s0; split; [intros _; clear -Hn; slotlia | intros _; lia]|].
    rewrite Hs1 by done. case_decide as Ed'; [subst s0; split; [intros _; clear -Hn; slotlia | intros _; lia]|].
    rewrite (P s0 Hs0). clear -Ed Ed' Hs0 Hn. slotlia.
  - assert (Hi : indirect x ≠ 0) by (apply Hpi; clear -Ho Hm Hb Hoff; mklia).
    destruct (entry_new s v x (off / BSIZE) R W Hi Hb E0) as (s2 & v2 & E2 & Gr2 & R2 & Hs2 & F2 & G2);
      [clear -Hroom Hn Ho Hm Hb Hoff; slotlia|].
    exists s2, v2, x. split; [by rewrite (proj2 (Z.eqb_neq _ _)), bind_ret by done|].
    split; [done|]. split; [done|]. split; [|split; [rewrite F2; clear -Hn Ho Hm Hb Hoff; slotlia | done]].
    apply (packed_step v x _ _ off n (off / BSIZE + 1) (mk_freeblock s)); [done | lia | lia | done | clear -Hb Hn Hm Hoff; slotlia |].
    intros s0 Hs0 Hne Hle. clear -Hs0 Hne Hle Hm Hn Hoff Hb Ho. slotlia.
Qed.

Lemma iappend_block_ok s v x off n :
  rep s v → inode_wf mk_sb v x → packed v x off → 0 ≤ off < MAXFILE * BSIZE →
  off < n ≤ (off / BSIZE + 1) * BSIZE → mk_freeblock s + (fblocks n - fblocks off) ≤ FSSIZE →
  ∃ s' v' x', iappend_block x (off / BSIZE) s = Ok (x', baddr v' x' (off / BSIZE)) s' ∧ extends s v x off n s' v' x'.
Proof.
  intros. destruct (decide (off / BSIZE < NDIRECT)); [by apply append_direct | by apply append_far].
Qed.

(** The bytes [p] have been put at the end [off] of a file. *)
Definition appended (off : Z) (p : list Z) (s : mkst) (v : Z → list Z) (x : inode)
    (s' : mkst) (v' : Z → list Z) (x' : inode) : Prop :=
  let n := off + Z.of_nat (length p) in
  stored mk_sb off (Z.of_nat (length p)) p v x v' x' ∧ rep s' v' ∧ packed v' x' n ∧
  mk_freeblock s' = mk_freeblock s + (fblocks n - fblocks off) ∧ mk_freeinode s' = mk_freeinode s.

Lemma packed_slots v x v' x' n : (∀ s, slot v' x' s = slot v x s) → packed v x n → packed v' x' n.
Proof. intros E P s Hs. rewrite E. by apply P. Qed.

(** One round of the loop. *)
Lemma iappend_round s v x off p n1 :
  rep s v → inode_wf mk_sb v x → packed v x off → 0 ≤ off →
  0 < n1 ≤ Z.of_nat (length p) → off mod BSIZE + n1 ≤ BSIZE → off + n1 ≤ MAXFILE * BSIZE →
  mk_freeblock s + (fblocks (off + n1) - fblocks off) ≤ FSSIZE →
  ∃ s1 v1 x1 s2 v2, iappend_block x (off / BSIZE) s = Ok (x1, baddr v1 x1 (off / BSIZE)) s1 ∧
    rsect (baddr v1 x1 (off / BSIZE)) s1 = Ok (v1 (baddr v1 x1 (off / BSIZE))) s1 ∧
    wsect (baddr v1 x1 (off / BSIZE))
      (splice (off - off / BSIZE * BSIZE) (take (Z.to_nat n1) p) (v1 (baddr v1 x1 (off / BSIZE)))) s1 = Ok tt s2 ∧
    appended off (take (Z.to_nat n1) p) s v x s2 v2 x1.
Proof.
  intros R W P Hoff Hn1 Hfit Hmax Hroom.
  destruct (iappend_block_ok s v x off (off + n1)) as (s1 & v1 & x1 & E1 & G1 & R1 & P1 & F1 & I1);
    try done; [change MAXFILE with 268 in *; change BSIZE with 1024 in *; zlia.. |].
  pose proof (ev_wf _ _ _ _ _ (gr_evolved _ _ _ _ _ G1)) as W1.
  assert (Hbn : 0 ≤ off / BSIZE < MAXFILE) by (change MAXFILE with 268 in *; change BSIZE with 1024 in *; zlia).
  assert (Ha : baddr v1 x1 (off / BSIZE) ≠ 0).
  { apply (packed_baddr v1 x1 (off + n1) _ P1 Hbn). change BSIZE with 1024 in *. zlia. }
  set (a := baddr v1 x1 (off / BSIZE)) in *. destruct (bslot_range _ Hbn) as [Hs _].
  destruct (iw_data _ _ _ W1 _ Hs Ha) as [Hr Hu]. fold (baddr v1 x1 (off / BSIZE)) in Hr, Hu. fold a in Hr, Hu.
  rewrite (rp_used _ _ R1) in Hu by mklia. bool_to_prop.
  set (d := splice (off - off / BSIZE * BSIZE) (take (Z.to_nat n1) p) (v1 a)). pose proof (fo_len _ _ (rp_ok _ _ R1) a) as Hla.
  assert (Em : off - off / BSIZE * BSIZE = off mod BSIZE) by (change BSIZE with 1024; zlia).
  assert (Hl : length (take (Z.to_nat n1) p) = Z.to_nat n1) by (rewrite length_take; lia).
  assert (Hd : length d = 1024%nat).
  { unfold d. rewrite Em. change BSIZE with 1024 in *. rewrite splice_length; rewrite ?Hl; zlia. }
  destruct (wsect_ok s1 v1 a d R1 Hd) as (s2 & E2 & R2 & F2 & I2); [mklia | mklia |].
  exists s1, v1, x1, s2, (<[a := d]> v1). split; [done|]. split; [by apply rsect_ok; [|mklia..]|]. split; [done|].
  unfold appended. rewrite Hl, Z2Nat.id by lia. split_and!; try done; try congruence.
  - unfold d. rewrite Em. apply (stored_block _ _ _ mk_layout); try done; try lia. apply (rp_ok _ _ R).
  - eapply packed_slots; [|exact P1]. intros s0. by apply (slot_store W1 Hbn Ha).
Qed.

Lemma fblocks_mono n m : n ≤ m → fblocks n ≤ fblocks m.
Proof. intros. slotlia. Qed.

Lemma appended_none off s v x : rep s v → inode_wf mk_sb v x → packed v x off → appended off [] s v x s v x.
Proof.
  intros R W P. unfold appended. cbn [length Z.of_nat]. rewrite Z.add_0_r, Z.sub_diag, Z.add_0_r.
  split_and!; try done. apply stored_none, grown_refl; [apply R | done].
Qed.

Lemma appended_step off c p s v x s1 v1 x1 s2 v2 x2 :
  0 ≤ off → (0 < c ≤ length p)%nat → off + Z.of_nat (length p) ≤ MAXFILE * BSIZE →
  appended off (take c p) s v x s1 v1 x1 → appended (off + Z.of_nat c) (drop c p) s1 v1 x1 s2 v2 x2 →
  appended off p s v x s2 v2 x2.
Proof.
  intros Hoff Hc Hmax (S1 & _ & _ & F1 & I1) (S2 & R2 & P2 & F2 & I2).
  rewrite length_take, Nat.min_l in * by lia. rewrite length_drop in *.
  replace (off + Z.of_nat c + Z.of_nat (length p - c)) with (off + Z.of_nat (length p)) in * by lia.
  split; [|split_and!; [done | done | lia | congruence]].
  replace (Z.of_nat (length p)) with (Z.of_nat c + Z.of_nat (length p - c)) by lia.
  eapply (stored_step _ _ _ mk_layout); [| | lia | lia | lia | lia]; rewrite ?Nat2Z.id; exact S1 || exact S2.
Qed.

Lemma iappend_loop_ok fuel s v x off p :
  rep s v → inode_wf mk_sb v x → packed v x off → 0 ≤ off → off + Z.of_nat (length p) ≤ MAXFILE * BSIZE →
  mk_freeblock s + (fblocks (off + Z.of_nat (length p)) - fblocks off) ≤ FSSIZE → (length p < fuel)%nat →
  ∃ s' v' x', iappend_loop fuel x off p s = Ok (x', off + Z.of_nat (length p)) s' ∧ appended off p s v x s' v' x'.
Proof.
  revert s v x off p. induction fuel as [|fuel IH]; intros s v x off p R W P Hoff Hmax Hroom Hfuel; [lia|].
  destruct (decide (p = [])) as [->|Hp].
  { exists s, v, x. split; [cbn; by rewrite Z.add_0_r | by apply appended_none]. }
  assert (Hlp : (0 < length p)%nat) by (destruct p; [done|cbn; lia]).
  assert (Hbn : off / BSIZE < MAXFILE) by (change MAXFILE with 268 in *; change BSIZE with 1024 in *; zlia).
  set (n1 := Z.min (Z.of_nat (length p)) ((off / BSIZE + 1) * BSIZE - off)).
  assert (Hn1 : 0 < n1 ≤ Z.of_nat (length p) ∧ off mod BSIZE + n1 ≤ BSIZE).
  { unfold n1. change BSIZE with 1024 in *. zlia. }
  pose proof (fblocks_mono (off + n1) (off + Z.of_nat (length p)) ltac:(lia)) as Hmono.
  destruct (iappend_round s v x off p n1) as (s1 & v1 & x1 & s2 & v2 & E1 & E2 & E3 & A1); try done; try lia.
  pose proof A1 as (S1 & R2 & P2 & F2 & I2). rewrite length_take, Nat.min_l, Z2Nat.id in P2, F2 by lia.
  assert (El : Z.of_nat (length (drop (Z.to_nat n1) p)) = Z.of_nat (length p) - n1) by (rewrite length_drop; lia).
  destruct (IH s2 v2 x1 (off + n1) (drop (Z.to_nat n1) p)) as (s3 & v3 & x3 & E4 & A2); try done; rewrite ?El; try lia.
  { apply (ev_wf _ _ _ _ _ (sd_evolved _ _ _ _ _ _ _ _ S1)). }
  { rewrite F2. replace (off + n1 + (Z.of_nat (length p) - n1)) with (off + Z.of_nat (length p)) by lia. lia. }
  exists s3, v3, x3. split.
  - cbn [iappend_loop]. destruct p as [|c p]; [done|]. set (q := c :: p) in *. cbn zeta.
    rewrite (proj2 (Z.ltb_lt _ _) Hbn). cbn [negb]. fold n1.
    rewrite (bind_ok _ _ _ _ _ E1). cbn beta iota. rewrite (bind_ok _ _ _ _ _ E2), (bind_ok _ _ _ _ _ E3), E4, El.
    do 2 f_equal. lia.
  - apply (appended_step off (Z.to_nat n1) p s v x s2 v2 x1); [done | lia | done | done |]. by rewrite Z2Nat.id by lia.
Qed.

(** ** Inodes *)
Definition ino (v : Z → list Z) (inum : Z) : inode := dinode mk_sb v inum (blank inum).

Lemma IBLOCK_mk inum : 0 ≤ inum < NINODES → 32 ≤ IBLOCK inum mk_sb < 45.
Proof. apply (IBLOCK_range _ _ _ mk_layout). Qed.

Lemma rinode_ok s v inum : rep s v → 0 ≤ inum < NINODES → rinode inum s = Ok (ino v inum) s.
Proof.
  intros R Hi. pose proof (IBLOCK_mk _ Hi). unfold rinode.
  rewrite (bind_ok _ _ _ _ _ (rsect_ok s v (IBLOCK inum mk_sb) R ltac:(mklia) ltac:(lia))). done.
Qed.

Lemma winode_ok s v x :
  rep s v → fields_ok x → 0 ≤ i_inum x < NINODES →
  ∃ s', winode (i_inum x) x s = Ok tt s' ∧ rep s' (put_inode mk_sb x v) ∧
    mk_freeblock s' = mk_freeblock s ∧ mk_freeinode s' = mk_freeinode s.
Proof.
  intros R F Hi. pose proof (IBLOCK_mk _ Hi) as HI. pose proof (rp_free _ _ R) as Hf. change nmeta with 46 in Hf.
  unfold winode. rewrite (bind_ok _ _ _ _ _ (rsect_ok s v (IBLOCK (i_inum x) mk_sb) R ltac:(mklia) ltac:(lia))).
  apply wsect_ok; [done | | lia | lia]. destruct (dinode_off_range (i_inum x)).
  pose proof (fo_len _ _ (rp_ok _ _ R) (IBLOCK (i_inum x) mk_sb)). rewrite store_dinode_length by (done || lia). done.
Qed.

Lemma ino_put v x :
  fields_ok x → (∀ b, length (v b) = 1024%nat) → ino (put_inode mk_sb x v) (i_inum x) =
    Inode ROOTDEV (i_inum x) 0 initsleeplock 0 (i_type x) (i_major x) (i_minor x) (i_nlink x) (i_size x) (i_addrs x).
Proof.
  intros F Hl. destruct (dinode_off_range (i_inum x)). unfold ino, dinode, put_inode. rewrite fn_lookup_insert.
  by rewrite load_store_dinode by (done || rewrite ?Hl; lia).
Qed.

Lemma ino_meta v v' inum :
  0 ≤ inum < NINODES → (∀ b, b < sb_bmapstart mk_sb → v' b = v b) → ino v' inum = ino v inum.
Proof. intros Hi E. pose proof (IBLOCK_mk _ Hi). unfold ino, dinode. rewrite E; [done | mklia]. Qed.

(** A file that does not change. *)
Record kept (v v' : Z → list Z) (y : inode) : Prop := {
  kp_wf : inode_wf mk_sb v' y;
  kp_slots : ∀ s, slot v' y s = slot v y s;
  kp_bytes : ∀ o, 0 ≤ o < MAXFILE * BSIZE → fbyte v' y o = fbyte v y o;
}.

Lemma kept_trans v v' v'' y : kept v v' y → kept v' v'' y → kept v v'' y.
Proof.
  intros [_ S1 B1] [W2 S2 B2]. split; [done| |].
  - intros s. by rewrite S2.
  - intros o Ho. by rewrite B2, B1.
Qed.

Lemma kept_evolved v x v' x' y : evolved mk_sb v x v' x' → inode_wf mk_sb v y → apart v x y → kept v v' y.
Proof.
  intros V W A. destruct (evolved_apart mk_sb v x v' x' y) as (W' & _ & B); [done..|]. split; [done| |done].
  intros s. apply slot_ext. intros b Hb. apply (ev_other _ _ _ _ _ V).
  - destruct Hb as (Hb & s0 & Hs & <-). by apply W.
  - intros Hx. by apply (A b).
Qed.

Lemma kept_put v x y : 0 ≤ i_inum x < NINODES → inode_wf mk_sb v y → kept v (put_inode mk_sb x v) y.
Proof. intros Hi W. destruct (meta_files _ _ _ mk_layout v x y Hi W) as (W' & S' & B'). by split. Qed.

(** The file with number [inum] has type [t] and contents [c]. *)
Record file_is (v : Z → list Z) (inum t : Z) (c : list Z) : Prop := {
  fi_wf : inode_wf mk_sb v (ino v inum);
  fi_fields : fields_ok (ino v inum);
  fi_type : i_type (ino v inum) = t;
  fi_nlink : i_nlink (ino v inum) = 1;
  fi_size : i_size (ino v inum) = Z.of_nat (length c);
  fi_max : Z.of_nat (length c) ≤ MAXFILE * BSIZE;
  fi_packed : packed v (ino v inum) (Z.of_nat (length c));
  fi_bytes : ∀ o, 0 ≤ o < MAXFILE * BSIZE → fbyte v (ino v inum) o = default 0 (c !! Z.to_nat o);
}.

Lemma file_is_kept v v' inum t c :
  ino v' inum = ino v inum → kept v v' (ino v inum) → file_is v inum t c → file_is v' inum t c.
Proof.
  intros E [W' S' B'] [W F Ht Hn Hs Hm P B]. split; rewrite ?E; try done.
  - by eapply packed_slots.
  - intros o Ho. by rewrite B', B.
Qed.

(** The addresses in an inode fit in 32 bits. *)
Lemma wf_addrs v x : inode_wf mk_sb v x → Forall (λ a, 0 ≤ a < 2 ^ 32) (i_addrs x).
Proof.
  intros W. apply Forall_lookup. intros i a Hi. pose proof (lookup_lt_Some _ _ _ Hi) as Hlt. rewrite (iw_len _ _ _ W) in Hlt.
  destruct (decide (a = 0)) as [->|Hne]; [done|].
  assert (Es : slot v x (Z.of_nat i) = a).
  { unfold slot. rewrite (proj2 (Z.leb_le _ _)), Nat2Z.id, Hi by lia. done. }
  destruct (iw_data _ _ _ W (Z.of_nat i)) as [Hr _]; [change NSLOT with 269; lia | by rewrite Es |].
  rewrite Es in Hr. mklia.
Qed.

(** ** The files made so far *)
Definition total (C : list (Z * list Z)) : Z := foldr (λ f a, fblocks (Z.of_nat (length f.2)) + a) 0 C.

Lemma total_app C D : total (C ++ D) = total C + total D.
Proof. induction C as [|f C IH]; cbn [total foldr app]; [done|]. unfold total in *. cbn. lia. Qed.

Lemma total_insert C i t c t' c' :
  C !! i = Some (t, c) →
  total (<[i := (t', c')]> C) = total C + (fblocks (Z.of_nat (length c')) - fblocks (Z.of_nat (length c))).
Proof.
  revert i. induction C as [|f C IH]; intros [|i] Hi; [done|done| |]; cbn in Hi; simplify_eq; unfold total in *; cbn.
  - lia.
  - rewrite IH by done. lia.
Qed.

Definition super_bytes : list Z := zpad 1024 (superblock_bytes mk_sb).

Record minv (s : mkst) (v : Z → list Z) (C : list (Z * list Z)) : Prop := {
  mi_rep : rep s v;
  mi_next : mk_freeinode s = 1 + Z.of_nat (length C);
  mi_few : 1 + Z.of_nat (length C) ≤ NINODES;
  mi_blocks : mk_freeblock s = nmeta + total C;
  mi_file : ∀ (i : nat) t c, C !! i = Some (t, c) → file_is v (1 + Z.of_nat i) t c;
  mi_apart : ∀ i j : nat, (i < length C)%nat → (j < length C)%nat → i ≠ j →
    apart v (ino v (1 + Z.of_nat i)) (ino v (1 + Z.of_nat j));
  mi_unused : ∀ inum, 0 ≤ inum < NINODES → ¬ 1 ≤ inum ≤ Z.of_nat (length C) → i_type (ino v inum) = 0;
  mi_super : v 1 = super_bytes;
  mi_log : ∀ b, 1 < b < 32 → v b = zero_block;
}.

Lemma mi_inum s v C i f : minv s v C → C !! i = Some f → 0 ≤ 1 + Z.of_nat i < NINODES.
Proof. intros M Hi%lookup_lt_Some. pose proof (mi_few _ _ _ M). lia. Qed.

Lemma apart_sym v x y : apart v x y → apart v y x.
Proof. intros A b Hx Hy. by apply (A b). Qed.

Lemma apart_kept v v' x y : kept v v' x → kept v v' y → apart v x y → apart v' x y.
Proof. intros [_ Sx _] [_ Sy _]. by apply apart_slots. Qed.

(** File [i] of [C] has changed, the others have not. *)
Lemma minv_update s v C s' v' i t c c' :
  minv s v C → C !! i = Some (t, c) → rep s' v' → mk_freeinode s' = mk_freeinode s →
  mk_freeblock s' = nmeta + total (<[i := (t, c')]> C) → file_is v' (1 + Z.of_nat i) t c' →
  (∀ inum, 0 ≤ inum < NINODES → inum ≠ 1 + Z.of_nat i → ino v' inum = ino v inum) →
  (∀ j, (j < length C)%nat → j ≠ i → kept v v' (ino v (1 + Z.of_nat j)) ∧
     apart v' (ino v' (1 + Z.of_nat i)) (ino v (1 + Z.of_nat j))) →
  (∀ b, b < 32 → v' b = v b) →
  minv s' v' (<[i := (t, c')]> C).
Proof.
  intros M Hi R' HI HB F' Hino Hk Hfr. pose proof M as [R Hn Hfew Hb Hf Ha Hu Hs Hl].
  pose proof (lookup_lt_Some _ _ _ Hi) as Hlt.
  assert (Hj : ∀ j, (j < length C)%nat → j ≠ i → ino v' (1 + Z.of_nat j) = ino v (1 + Z.of_nat j)).
  { intros j Hj Hne. apply Hino; lia. }
  split; rewrite ?length_insert; try done; [congruence| | | | |].
  - intros j t0 c0 Hj0. destruct (decide (j = i)) as [->|Hne].
    + rewrite list_lookup_insert_eq in Hj0 by done. by simplify_eq.
    + rewrite list_lookup_insert_ne in Hj0 by done. pose proof (lookup_lt_Some _ _ _ Hj0) as Hlt'.
      eapply file_is_kept; [by apply Hj | by apply Hk | by apply Hf].
  - intros j k Hj1 Hk1 Hne. destruct (decide (j = i)) as [->|Hji], (decide (k = i)) as [->|Hki]; try done.
    + rewrite (Hj k) by done. by apply Hk.
    + rewrite (Hj j) by done. apply apart_sym. by apply Hk.
    + rewrite !Hj by done. eapply apart_kept; [by apply Hk | by apply Hk | by apply Ha].
  - intros inum Hin Hout. rewrite Hino by lia. by apply Hu.
  - by rewrite Hfr.
  - intros b Hr. rewrite Hfr by lia. by apply Hl.
Qed.

(** Storing at the end of the file. *)
Lemma overwrite_end (c p : list Z) f o :
  0 ≤ o → f o = default 0 (c !! Z.to_nat o) →
  overwrite f (Z.of_nat (length c)) (Z.of_nat (length p)) p o = default 0 ((c ++ p) !! Z.to_nat o).
Proof.
  intros Ho E. unfold overwrite. case_if; bool_to_prop.
  - rewrite lookup_app_r by lia. do 2 f_equal. lia.
  - rewrite E. destruct (decide (Z.to_nat o < length c)%nat); [by rewrite lookup_app_l|].
    rewrite !lookup_ge_None_2; [done | rewrite ?length_app; lia..].
Qed.

Lemma iappend_file s v inum t c p s1 v1 x1 :
  file_is v inum t c → 0 ≤ inum < NINODES → Z.of_nat (length (c ++ p)) ≤ MAXFILE * BSIZE →
  appended (Z.of_nat (length c)) p s v (ino v inum) s1 v1 x1 →
  let x2 := set_i_size (Z.of_nat (length c) + Z.of_nat (length p)) x1 in
  fields_ok x2 ∧ i_inum x2 = inum ∧ ino (put_inode mk_sb x2 v1) inum = x2 ∧
  file_is (put_inode mk_sb x2 v1) inum t (c ++ p).
Proof.
  intros F Hi Hmax (S & R & P & _) x2. pose proof F as [W Ff Ht Hn Hs _ _ B].
  pose proof (sd_evolved _ _ _ _ _ _ _ _ S) as V. pose proof (ev_wf _ _ _ _ _ V) as W1.
  destruct (ev_inode _ _ _ _ _ V) as [ad Ead]. rewrite length_app, Nat2Z.inj_add in Hmax.
  assert (F2 : fields_ok x2).
  { destruct Ff as [? ? ? ? ? _]. pose proof (wf_addrs _ _ W1) as Ha. pose proof (iw_len _ _ _ W1) as Hl.
    unfold x2. rewrite Ead in *. split; try done. cbn. change MAXFILE with 268 in *. change BSIZE with 1024 in *. lia. }
  assert (E2 : i_inum x2 = inum) by (unfold x2; by rewrite Ead).
  assert (Ei : ino (put_inode mk_sb x2 v1) inum = x2).
  { rewrite <- E2, ino_put by (done || apply R). unfold x2. by rewrite Ead. }
  assert (W2 : inode_wf mk_sb v1 x2) by (destruct W1; by split).
  assert (K : kept v1 (put_inode mk_sb x2 v1) x2) by (apply kept_put; [by rewrite E2 | done]).
  split_and!; try done. split; rewrite ?Ei, ?length_app, ?Nat2Z.inj_add; try done.
  - apply K.
  - unfold x2. by rewrite Ead.
  - unfold x2. by rewrite Ead.
  - eapply packed_slots; [apply K | exact P].
  - intros o Ho. rewrite (kp_bytes _ _ _ K) by done. change (fbyte v1 x2 o) with (fbyte v1 x1 o).
    rewrite (sd_bytes _ _ _ _ _ _ _ _ S) by done. apply overwrite_end; [lia | by apply B].
Qed.

Lemma iappend_ok s v C i t c p :
  minv s v C → C !! i = Some (t, c) → Z.of_nat (length (c ++ p)) ≤ MAXFILE * BSIZE →
  nmeta + total (<[i := (t, c ++ p)]> C) ≤ FSSIZE →
  ∃ s' v', iappend (1 + Z.of_nat i) p s = Ok tt s' ∧ minv s' v' (<[i := (t, c ++ p)]> C).
Proof.
  intros M Hi Hmax Hroom. pose proof (mi_inum _ _ _ _ _ M Hi) as Hinum. pose proof (mi_file _ _ _ M _ _ _ Hi) as F.
  pose proof F as [W _ _ _ Hs _ P _]. pose proof (mi_rep _ _ _ M) as R. pose proof (mi_blocks _ _ _ M) as Hb.
  pose proof (total_insert C i t c t (c ++ p) Hi) as Ht.
  rewrite length_app, Nat2Z.inj_add in Hmax, Ht.
  destruct (iappend_loop_ok (S (length p)) s v (ino v (1 + Z.of_nat i)) (Z.of_nat (length c)) p)
    as (s1 & v1 & x1 & E1 & A1); try done; try lia.
  destruct (iappend_file s v (1 + Z.of_nat i) t c p s1 v1 x1) as (F2 & E2 & Ei & F'); try done.
  { by rewrite length_app, Nat2Z.inj_add. }
  set (x2 := set_i_size _ x1) in *. pose proof A1 as (S1 & R1 & P1 & B1 & I1).
  pose proof (sd_evolved _ _ _ _ _ _ _ _ S1) as V.
  destruct (winode_ok s1 v1 x2 R1 F2) as (s2 & E3 & R2 & B2 & I2); [by rewrite E2|]. rewrite E2 in E3.
  exists s2, (put_inode mk_sb x2 v1). split.
  { unfold iappend. rewrite (bind_ok _ _ _ _ _ (rinode_ok s v _ R Hinum)), Hs.
    rewrite (bind_ok _ _ _ _ _ E1). exact E3. }
  apply (minv_update s v C s2 _ i t c); try done; [congruence | lia | | |].
  - intros inum Hin Hne. unfold ino at 1. rewrite dinode_put_ne; [| done | apply R1 | lia | rewrite E2; lia | by rewrite E2].
    apply ino_meta; [done|]. apply (ev_meta _ _ _ _ _ V).
  - intros j Hj Hne. destruct (lookup_lt_is_Some_2 C j Hj) as [[t0 c0] Hj0].
    pose proof (fi_wf _ _ _ _ (mi_file _ _ _ M _ _ _ Hj0)) as Wj.
    pose proof (mi_apart _ _ _ M i j (lookup_lt_Some _ _ _ Hi) Hj (not_eq_sym Hne)) as Ha.
    pose proof (kept_evolved _ _ _ _ _ V Wj Ha) as K1.
    assert (K2 : kept v1 (put_inode mk_sb x2 v1) (ino v (1 + Z.of_nat j))).
    { apply kept_put; [by rewrite E2 | apply K1]. }
    split; [by eapply kept_trans|]. rewrite Ei.
    destruct (evolved_apart mk_sb v _ v1 x1 _ ltac:(done) V Wj Ha) as (_ & Ha1 & _).
    eapply (apart_kept v1); [apply kept_put; [by rewrite E2|] | done | exact Ha1].
    destruct (ev_wf _ _ _ _ _ V). by split.
  - intros b Hb0. pose proof (IBLOCK_mk (i_inum x2) ltac:(by rewrite E2)).
    rewrite put_inode_other by lia. apply (ev_meta _ _ _ _ _ V). mklia.
Qed.

(** ** [ialloc] *)
Definition new_inode (inum t : Z) : inode := Inode ROOTDEV inum 0 initsleeplock 0 t 0 0 1 0 (replicate 13 0).

Lemma new_slot v inum t s : slot v (new_inode inum t) s = 0.
Proof.
  unfold slot. destruct (s <=? 12) eqn:E; [|done]. cbn [i_addrs new_inode].
  destruct (replicate 13 0 !! Z.to_nat s) as [a|] eqn:Ea; [|done]. by apply lookup_replicate in Ea as [-> _].
Qed.

Lemma new_wf v inum t : inode_wf mk_sb v (new_inode inum t).
Proof. split; [done|..]; intros; rewrite new_slot in *; done. Qed.

Lemma new_fields inum t : - 2 ^ 15 ≤ t < 2 ^ 15 → fields_ok (new_inode inum t).
Proof. intros. split; try done. split; [done|]. by apply Forall_replicate. Qed.

Lemma new_file_is v inum t : ino v inum = new_inode inum t → - 2 ^ 15 ≤ t < 2 ^ 15 → file_is v inum t [].
Proof.
  intros E Ht. split; rewrite ?E; try done.
  - apply new_wf.
  - by apply new_fields.
  - intros s Hs. rewrite new_slot. clear -Hs. cbn [length Z.of_nat]. slotlia.
  - intros o Ho. unfold fbyte, baddr. by rewrite new_slot.
Qed.

Lemma ialloc_ok s v C t :
  minv s v C → 1 + Z.of_nat (length C) < NINODES → - 2 ^ 15 ≤ t < 2 ^ 15 →
  ∃ s' v', mk_ialloc t s = Ok (1 + Z.of_nat (length C)) s' ∧ minv s' v' (C ++ [(t, [])]).
Proof.
  intros M Hlt Ht. pose proof M as [R Hn Hfew Hb Hf Ha Hu Hs Hl]. set (n := 1 + Z.of_nat (length C)) in *.
  set (s1 := set_mk_freeinode (u32 (n + 1)) s). assert (R1 : rep s1 v) by (destruct R; by split).
  destruct (winode_ok s1 v (new_inode n t) R1) as (s2 & E2 & R2 & B2 & I2);
    [by apply new_fields | unfold n in *; cbn; lia |].
  cbn in B2, I2. rewrite u32_small in I2 by (change NINODES with 200 in *; lia).
  exists s2, (put_inode mk_sb (new_inode n t) v). split.
  { unfold mk_ialloc. rewrite bind_gets, Hn, bind_modify. fold s1 (new_inode n t). by rewrite (bind_ok _ _ _ _ _ E2). }
  assert (En : ino (put_inode mk_sb (new_inode n t) v) n = new_inode n t).
  { apply (ino_put v (new_inode n t)); [by apply new_fields | apply R]. }
  assert (Eo : ∀ i, 0 ≤ i → i ≠ n → ino (put_inode mk_sb (new_inode n t) v) i = ino v i).
  { intros i H0 Hne. apply dinode_put_ne; [by apply new_fields | apply R | done | unfold n; cbn; lia | done]. }
  assert (K : ∀ i : nat, (i < length C)%nat → kept v (put_inode mk_sb (new_inode n t) v) (ino v (1 + Z.of_nat i))).
  { intros i Hi. apply kept_put; [unfold n in *; cbn; lia|].
    destruct (lookup_lt_is_Some_2 C i Hi) as [[t0 c0] Hi0]. apply (Hf _ _ _ Hi0). }
  assert (Hfr : ∀ b, b < 32 → put_inode mk_sb (new_inode n t) v b = v b).
  { intros b Hr. pose proof (IBLOCK_mk n ltac:(unfold n in *; lia)). apply put_inode_other. cbn. lia. }
  assert (Hemp : ∀ w b, ¬ owns w (new_inode n t) b) by (intros w b (Hb0 & s0 & _ & E0); by rewrite new_slot in E0).
  split; rewrite ?length_app; cbn [length]; try done; [lia | lia | | | | | |].
  - rewrite total_app, B2, Hb. change (total [(t, [])]) with 0. lia.
  - intros i t0 c0 Hi0. apply lookup_app_Some in Hi0 as [Hi0 | [Hge Hi0]].
    + pose proof (lookup_lt_Some _ _ _ Hi0). eapply file_is_kept; [apply Eo; unfold n; lia | by apply K | by apply Hf].
    + apply list_lookup_singleton_Some in Hi0 as [Hi0 [= <- <-]].
      replace (1 + Z.of_nat i) with n by (unfold n; lia). by apply new_file_is.
  - intros i j Hi Hj Hne. destruct (decide (i = length C)) as [->|Hi'].
    + fold n. rewrite En. intros b Hb0. by apply Hemp in Hb0.
    + destruct (decide (j = length C)) as [->|Hj'].
      * fold n. rewrite En. intros b _. apply Hemp.
      * rewrite !Eo by (unfold n; lia). eapply apart_kept; [apply K; lia | apply K; lia | apply Ha; lia].
  - intros i Hi Hout. rewrite Eo by (unfold n; lia). apply Hu; lia.
  - by rewrite Hfr.
  - intros b Hr. rewrite Hfr by lia. by apply Hl.
Qed.

(** ** The bytes of a file *)
Lemma append_all_ok fuel s v C i t c l :
  minv s v C → C !! i = Some (t, c) → (length l ≤ fuel)%nat → Z.of_nat (length (c ++ l)) ≤ MAXFILE * BSIZE →
  nmeta + total (<[i := (t, c ++ l)]> C) ≤ FSSIZE →
  ∃ s' v', mfor (chunks fuel l) (iappend (1 + Z.of_nat i)) s = Ok tt s' ∧ minv s' v' (<[i := (t, c ++ l)]> C).
Proof.
  revert s v C c l. induction fuel as [|fuel IH]; intros s v C c l M Hi Hl Hmax Hroom.
  { destruct l; [|cbn in Hl; lia]. exists s, v. rewrite app_nil_r, list_insert_id by done. done. }
  destruct (decide (l = [])) as [->|Hne].
  { exists s, v. rewrite app_nil_r, list_insert_id by done. done. }
  assert (Hln : (0 < length l)%nat) by (destruct l; [done|cbn; lia]).
  set (n := Z.to_nat BSIZE). assert (0 < n)%nat by (unfold n; change BSIZE with 1024; lia).
  assert (Et : total (<[i := (t, c ++ take n l)]> C) ≤ total (<[i := (t, c ++ l)]> C)).
  { rewrite !(total_insert C i t c) by done.
    pose proof (fblocks_mono (Z.of_nat (length (c ++ take n l))) (Z.of_nat (length (c ++ l)))) as Hm.
    rewrite !length_app, length_take in *. specialize (Hm ltac:(lia)). lia. }
  destruct (iappend_ok s v C i t c (take n l)) as (s1 & v1 & E1 & M1); try done; [| lia |].
  { rewrite !length_app, length_take in *. lia. }
  pose proof (lookup_lt_Some _ _ _ Hi) as Hlt.
  destruct (IH s1 v1 _ (c ++ take n l) (drop n l) M1) as (s2 & v2 & E2 & M2).
  - by apply list_lookup_insert_eq.
  - rewrite length_drop. lia.
  - by rewrite <- app_assoc, take_drop.
  - by rewrite list_insert_insert_eq, <- app_assoc, take_drop.
  - rewrite list_insert_insert_eq, <- app_assoc, take_drop in M2. exists s2, v2. split; [|done].
    destruct l as [|a l]; [done|]. cbn [chunks mfor]. fold n. by rewrite (bind_ok _ _ _ _ _ E1).
Qed.
