(* ===== verification/MkfsImage.v ===== *)
(** * The image of a file system

    [mkfs] run on a list of files ends with an image that holds them: [made]
    says which file has which number and contents.  The names are found in the
    root directory, and the files have the contents of the files of the
    host. *)

From stdpp Require Import functions.
From S2P Require Import Base Riscv Mem Kstring Kernel Sleeplock FsState Bio BioList BioSpec Log LogSpec.
From S2P Require Import LogCrash LogOps Fs FsLogic FsBoot FsAlloc FsInode FsFile FsData FsOps FsDir Mkfs.
From S2P Require Import MkfsSpec.
Local Open Scope Z_scope.
Local Open Scope kernel_scope.

(** ** The bitmap *)
Lemma bitmap_snoc n :
  mk_bitmap (Z.of_nat (S n)) = put_map_byte (Z.of_nat n)
    (Z.lor (map_byte (mk_bitmap (Z.of_nat n)) (Z.of_nat n)) (bit_mask (Z.of_nat n))) (mk_bitmap (Z.of_nat n)).
Proof.
  unfold mk_bitmap. rewrite !Nat2Z.id. replace (S n) with (n + 1)%nat by lia. rewrite zseq_app, foldl_app. done.
Qed.

Lemma bitmap_bits (n : nat) :
  Z.of_nat n ≤ 8192 → length (mk_bitmap (Z.of_nat n)) = 1024%nat ∧
  ∀ b, 0 ≤ b < 8192 → Z.testbit (map_byte (mk_bitmap (Z.of_nat n)) b) (b mod 8) = (b <? Z.of_nat n).
Proof.
  induction n as [|n IH]; intros Hn.
  - split; [done|]. intros b Hb. rewrite (proj2 (Z.ltb_ge _ _)) by lia. unfold map_byte.
    change (mk_bitmap (Z.of_nat 0)) with (replicate 1024 0). rewrite lookup_replicate_2 by zlia. apply Z.bits_0.
  - destruct IH as [Hl Hb]; [lia|]. rewrite bitmap_snoc. split; [unfold put_map_byte; by rewrite length_insert|].
    intros b Hr. rewrite map_byte_put by (done || rewrite BPB_8192; lia). case_decide as E.
    + rewrite Z.lor_spec. replace (map_byte _ (Z.of_nat n)) with (map_byte (mk_bitmap (Z.of_nat n)) b)
        by (unfold map_byte; by rewrite E).
      rewrite Hb by done. pose proof (testbit_mask (Z.of_nat n) b ltac:(lia) ltac:(lia) E) as Hm.
      rewrite BPB_8192, Z.mod_small in Hm by lia. rewrite Hm.
      apply eq_true_iff_eq. rewrite orb_true_iff, !Z.ltb_lt, bool_decide_eq_true. lia.
    + rewrite Hb by done. apply eq_true_iff_eq. rewrite !Z.ltb_lt. split; [lia|]. intros ?.
      assert (b ≠ Z.of_nat n) by (by intros ->). lia.
Qed.

Lemma used_bitmap v n b :
  v 45 = mk_bitmap n → 0 ≤ n ≤ FSSIZE → 0 ≤ b < FSSIZE → used mk_sb v b = (b <? n).
Proof.
  intros E Hn Hb. change FSSIZE with 2000 in *. unfold used.
  replace (BBLOCK b mk_sb) with 45.
  2:{ unfold BBLOCK. change (sb_bmapstart mk_sb) with 45. rewrite BPB_8192. zlia. }
  rewrite BPB_8192, Z.mod_small, E by lia.
  destruct (bitmap_bits (Z.to_nat n)) as [_ Hbit]; [lia|]. rewrite Z2Nat.id in Hbit by lia. apply Hbit. lia.
Qed.

Lemma bitmap_length n : 0 ≤ n ≤ FSSIZE → length (mk_bitmap n) = 1024%nat.
Proof.
  intros Hn. change FSSIZE with 2000 in *. destruct (bitmap_bits (Z.to_nat n)) as [Hl _]; [lia|].
  by rewrite Z2Nat.id in Hl by lia.
Qed.

(** ** The empty file system *)
Lemma zero_image n s :
  (n ≤ 2000)%nat →
  ∃ m, mfor (zseq 0 n) (λ i, wsect i zero_block) s = Ok tt (set_mk_image m s) ∧
    (∀ b, 0 ≤ b < Z.of_nat n → m !! b = Some zero_block) ∧
    ∀ b d, m !! b = Some d → d = zero_block ∨ mk_image s !! b = Some d.
Proof.
  induction n as [|n IH]; intros Hn.
  - exists (mk_image s). split; [by destruct s|]. split; [lia|auto].
  - destruct IH as (m & E & Hm & Hd); [lia|]. exists (<[Z.of_nat n := zero_block]> m).
    replace (S n) with (n + 1)%nat by lia. rewrite zseq_app, (mfor_app _ _ _ _ _ E). cbn [zseq mfor]. split_and!.
    + unfold wsect. rewrite bind_modify. rewrite sector_small by (change FSSIZE with 2000; lia). done.
    + intros b Hb. destruct (decide (b = Z.of_nat n)) as [->|]; [by rewrite lookup_insert_eq|].
      rewrite lookup_insert_ne by done. apply Hm. lia.
    + intros b d. destruct (decide (b = Z.of_nat n)) as [->|].
      * rewrite lookup_insert_eq. intros [= <-]. by left.
      * rewrite lookup_insert_ne by done. apply Hd.
Qed.

Definition empty_view : Z → list Z := <[1 := super_bytes]> (<[45 := mk_bitmap nmeta]> (λ _, zero_block)).

Lemma empty_minv s :
  (∀ b, 0 ≤ b < FSSIZE → b ≠ 1 → mk_image s !! b = Some zero_block) → mk_image s !! 1 = Some super_bytes →
  mk_freeinode s = 1 → mk_freeblock s = nmeta → (∀ b d, mk_image s !! b = Some d → length d = 1024%nat) →
  minv s empty_view [].
Proof.
  intros Hz H1 Hi Hb Hsz.
  assert (E : ∀ b, b ≠ 1 → b ≠ 45 → empty_view b = zero_block).
  { intros b ? ?. unfold empty_view. by rewrite !fn_lookup_insert_ne. }
  assert (Hu : ∀ b, 0 ≤ b < FSSIZE → used mk_sb empty_view b = (b <? nmeta)).
  { intros b Hr. apply used_bitmap; [done | by vm_compute | done]. }
  split; cbn [length Z.of_nat total foldr]; try done.
  - split.
    + intros b Hr Hne. destruct (decide (b = 1)) as [->|]; [done|]. rewrite Hz, E by done. done.
    + rewrite Hz by done. by eexists.
    + split.
      * intros b. destruct (decide (b = 1)) as [->|]; [done|]. destruct (decide (b = 45)) as [->|].
        -- by apply bitmap_length.
        -- by rewrite E.
      * intros b Hr. rewrite Hu by mklia. apply Z.ltb_lt. mklia.
    + intros b Hr. rewrite Hu, Hb by done. done.
    + intros b Hr. rewrite Hb in Hr. apply E; mklia.
    + rewrite Hb. done.
    + done.
  - intros i j Hlt. lia.
  - intros inum Hr _. pose proof (IBLOCK_mk _ Hr).
    unfold ino, dinode. rewrite E by lia. destruct (dinode_off_range inum).
    unfold load_dinode. cbn [i_type]. by rewrite blk_get_zero.
  - intros b Hr. apply E; lia.
Qed.

(** ** The files *)
Section files.
  Context (host : list Z → option (list Z)).

Definition file_name (arg : list Z) : list Z := skip_underscore (default [] (shortname arg)).
Definition file_data (arg : list Z) : list Z := default [] (host arg).

(** The entries of the root directory: the numbers go up from 2. *)
Definition entries (args : list (list Z)) : list (Z * list Z) :=
  (1, [46]) :: (1, [46; 46]) :: imap (λ i a, (2 + Z.of_nat i, file_name a)) args.
Definition dir_bytes (args : list (list Z)) : list Z := concat ((λ e, mk_dirent e.1 e.2) <$> entries args).
Definition files_of (args : list (list Z)) : list (Z * list Z) :=
  (T_DIR, dir_bytes args) :: ((λ a, (T_FILE, file_data a)) <$> args).

(** [mkfs] accepts the argument: its name has no slash, it can be read, and it
    is not larger than a file can be. *)
Definition readable_file (arg : list Z) : Prop :=
  ∃ name data, shortname arg = Some name ∧ host arg = Some data ∧ Z.of_nat (length data) ≤ MAXFILE * BSIZE.

Lemma entries_length args : length (entries args) = (2 + length args)%nat.
Proof. unfold entries. cbn [length]. by rewrite length_imap. Qed.

Lemma concat_entries_length (es : list (Z * list Z)) :
  Z.of_nat (length (concat ((λ e, mk_dirent e.1 e.2) <$> es))) = 16 * Z.of_nat (length es).
Proof.
  induction es as [|e es IH]; [done|]. rewrite fmap_cons, concat_cons, length_app, mk_dirent_length, Nat2Z.inj_add, IH.
  cbn [length]. lia.
Qed.

Lemma dir_bytes_length args : Z.of_nat (length (dir_bytes args)) = 16 * (2 + Z.of_nat (length args)).
Proof. unfold dir_bytes. rewrite concat_entries_length, entries_length. lia. Qed.

Lemma files_of_length args : length (files_of args) = S (length args).
Proof. unfold files_of. cbn. by rewrite length_fmap. Qed.

Lemma files_of_snoc args a :
  files_of (args ++ [a]) =
    (T_DIR, dir_bytes args ++ mk_dirent (2 + Z.of_nat (length args)) (file_name a)) ::
    ((λ a, (T_FILE, file_data a)) <$> args) ++ [(T_FILE, file_data a)].
Proof.
  unfold files_of, dir_bytes, entries. rewrite imap_app, fmap_app. cbn [imap].
  rewrite Nat.add_0_r, !fmap_cons, fmap_app, !concat_cons, concat_app. cbn [fmap list_fmap concat]. rewrite app_nil_r.
  by rewrite <- !app_assoc.
Qed.

Lemma total_nonneg C : 0 ≤ total C.
Proof.
  induction C as [|f C IH]; cbn; [done|]. pose proof (fblocks_mono 0 (Z.of_nat (length f.2)) ltac:(lia)) as H.
  change (fblocks 0) with 0 in H. unfold total in *. lia.
Qed.

Lemma total_snoc args a : total (files_of args) ≤ total (files_of (args ++ [a])).
Proof.
  rewrite files_of_snoc. pose proof (total_nonneg [(T_FILE, file_data a)]).
  pose proof (fblocks_mono (Z.of_nat (length (dir_bytes args)))
    (Z.of_nat (length (dir_bytes args ++ mk_dirent (2 + Z.of_nat (length args)) (file_name a))))) as Hm.
  rewrite length_app in Hm. specialize (Hm ltac:(lia)).
  unfold files_of. change (total (?f :: ?C)) with (fblocks (Z.of_nat (length f.2)) + total C). cbn [snd].
  rewrite total_app, length_app. lia.
Qed.

Lemma total_prefix args rest : total (files_of args) ≤ total (files_of (args ++ rest)).
Proof.
  revert args. induction rest as [|a rest IH]; intros args; [by rewrite app_nil_r|].
  etrans; [apply (total_snoc args a)|]. specialize (IH (args ++ [a])). by rewrite <- app_assoc in IH.
Qed.

Lemma add_file_ok s v args a :
  minv s v (files_of args) → readable_file a → 2 + Z.of_nat (length args) < NINODES →
  nmeta + total (files_of (args ++ [a])) ≤ FSSIZE →
  ∃ s' v', add_file host ROOTINO a s = Ok tt s' ∧ minv s' v' (files_of (args ++ [a])).
Proof.
  intros M (name & data & En & Ed & Hmax) Hn Hroom. pose proof (dir_bytes_length args) as Hdl.
  assert (Hname : file_name a = skip_underscore name) by (unfold file_name; by rewrite En).
  assert (Hdata : file_data a = data) by (unfold file_data; by rewrite Ed).
  rewrite files_of_snoc, Hname, Hdata in *. unfold add_file. rewrite En, Ed.
  set (F := (λ a, (T_FILE, file_data a)) <$> args) in *. set (d := dir_bytes args) in *.
  assert (HF : length F = length args) by apply length_fmap.
  destruct (ialloc_ok s v _ T_FILE M) as (s1 & v1 & E1 & M1);
    [rewrite files_of_length; lia | done |]. rewrite files_of_length in E1.
  replace (1 + Z.of_nat (S (length args))) with (2 + Z.of_nat (length args)) in E1 by lia.
  set (e := mk_dirent (2 + Z.of_nat (length args)) (skip_underscore name)) in *.
  assert (He : length e = 16%nat) by apply mk_dirent_length.
  assert (Ht : total ((T_DIR, d ++ e) :: F ++ [(T_FILE, [])]) ≤ total ((T_DIR, d ++ e) :: F ++ [(T_FILE, data)])).
  { change (total (?f :: ?C)) with (fblocks (Z.of_nat (length f.2)) + total C). rewrite !total_app.
    pose proof (total_nonneg [(T_FILE, data)]). change (total [(T_FILE, [])]) with 0. lia. }
  destruct (iappend_ok s1 v1 _ 0 T_DIR d e M1) as (s2 & v2 & E2 & M2); [done | | |].
  { rewrite length_app, He. change NINODES with 200 in Hn. change MAXFILE with 268. change BSIZE with 1024. lia. }
  { cbn [files_of app insert list_insert]. fold F. lia. }
  cbn [files_of app insert list_insert] in M2. fold F d in M2.
  assert (Ei : <[S (length args) := (T_FILE, [] ++ data)]> ((T_DIR, d ++ e) :: F ++ [(T_FILE, [])]) =
    (T_DIR, d ++ e) :: F ++ [(T_FILE, data)]).
  { cbn. f_equal. change (<[length args := (T_FILE, data)]> (F ++ [(T_FILE, [])]) = F ++ [(T_FILE, data)]).
    by rewrite insert_app_r_alt, HF, Nat.sub_diag by lia. }
  destruct (append_all_ok (length data) s2 v2 _ (S (length args)) T_FILE [] data M2) as (s3 & v3 & E3 & M3).
  { change ((F ++ [(T_FILE, [])]) !! length args = Some (T_FILE, [])). by rewrite <- HF, list_lookup_middle. }
  { done. }
  { done. }
  { by rewrite Ei. }
  rewrite Ei in M3. exists s3, v3. split; [|done].
  rewrite (bind_ok _ _ _ _ _ E1). fold e. change ROOTINO with (1 + Z.of_nat 0). rewrite (bind_ok _ _ _ _ _ E2).
  replace (2 + Z.of_nat (length args)) with (1 + Z.of_nat (S (length args))) by lia. done.
Qed.

Lemma add_files_ok rest s v args :
  minv s v (files_of args) → Forall readable_file rest → 1 + Z.of_nat (length args + length rest) < NINODES →
  nmeta + total (files_of (args ++ rest)) ≤ FSSIZE →
  ∃ s' v', mfor rest (add_file host ROOTINO) s = Ok tt s' ∧ minv s' v' (files_of (args ++ rest)).
Proof.
  revert s v args. induction rest as [|a rest IH]; intros s v args M Hr Hn Hroom.
  - exists s, v. by rewrite app_nil_r.
  - apply Forall_cons in Hr as [Ha Hr]. cbn [length] in Hn.
    assert (Ea : args ++ a :: rest = (args ++ [a]) ++ rest) by (by rewrite <- app_assoc). rewrite Ea in *.
    pose proof (total_prefix (args ++ [a]) rest) as Ht.
    destruct (add_file_ok s v args a M Ha) as (s1 & v1 & E1 & M1); [lia | lia |].
    destruct (IH s1 v1 (args ++ [a]) M1 Hr) as (s2 & v2 & E2 & M2); [rewrite length_app; cbn; lia | done |].
    exists s2, v2. split; [|done]. cbn [mfor]. by rewrite (bind_ok _ _ _ _ _ E1).
Qed.
End files.

(** ** The whole image *)

(** A directory with the entries [d], whose size is rounded up. *)
Record dir_is (v : Z → list Z) (inum : Z) (d : list Z) : Prop := {
  di_wf : inode_wf mk_sb v (ino v inum);
  di_fields : fields_ok (ino v inum);
  di_type : i_type (ino v inum) = T_DIR;
  di_nlink : i_nlink (ino v inum) = 1;
  di_size : i_size (ino v inum) = (Z.of_nat (length d) / BSIZE + 1) * BSIZE;
  di_packed : packed v (ino v inum) (Z.of_nat (length d));
  di_bytes : ∀ o, 0 ≤ o < MAXFILE * BSIZE → fbyte v (ino v inum) o = default 0 (d !! Z.to_nat o);
}.

Definition rounded (x : inode) : inode := set_i_size (u32 ((i_size x / BSIZE + 1) * BSIZE)) x.

Lemma round_dir v d inum :
  file_is v inum T_DIR d → 0 ≤ inum < NINODES → (∀ b, length (v b) = 1024%nat) →
  let x := rounded (ino v inum) in
  fields_ok x ∧ i_inum x = inum ∧ ino (put_inode mk_sb x v) inum = x ∧ dir_is (put_inode mk_sb x v) inum d.
Proof.
  intros [W F Ht Hn Hs Hm P B] Hi Hl x. change MAXFILE with 268 in Hm. change BSIZE with 1024 in Hm.
  assert (Es : i_size x = (Z.of_nat (length d) / BSIZE + 1) * BSIZE).
  { unfold x, rounded. rewrite Hs. cbn [i_size set_i_size]. apply u32_small. change BSIZE with 1024. zlia. }
  assert (F2 : fields_ok x).
  { destruct F. split; try done. rewrite Es. change BSIZE with 1024. zlia. }
  assert (E2 : i_inum x = inum) by done.
  assert (Ei : ino (put_inode mk_sb x v) inum = x) by (by rewrite <- E2, ino_put).
  assert (W2 : inode_wf mk_sb v x) by (destruct W; by split).
  destruct (kept_put v x x) as [K1 K2 K3]; [by rewrite E2 | done |].
  split_and!; try done. split; rewrite ?Ei; try done.
  - eapply packed_slots; [exact K2 | exact P].
  - intros o Ho. rewrite K3 by done. by apply B.
Qed.

Lemma dir_is_kept v v' inum d :
  ino v' inum = ino v inum → kept v v' (ino v inum) → dir_is v inum d → dir_is v' inum d.
Proof.
  intros E [W' S' B'] [W F Ht Hn Hs P B]. split; rewrite ?E; try done.
  - by eapply packed_slots.
  - intros o Ho. by rewrite B', B.
Qed.

(** Writing the bitmap. *)
Section bitmap.
  Context (s : mkst) (v : Z → list Z) (R : rep s v).
Let v' := <[45 := mk_bitmap (mk_freeblock s)]> v.

Lemma bitmap_used b : 0 ≤ b < FSSIZE → used mk_sb v' b = used mk_sb v b.
Proof.
  intros Hb. pose proof (rp_free _ _ R) as Hf. rewrite (rp_used _ _ R) by done.
  apply used_bitmap; [apply fn_lookup_insert | mklia | done].
Qed.

Lemma bitmap_ok : fs_ok mk_sb v'.
Proof.
  pose proof (rp_free _ _ R) as Hf. destruct (rp_ok _ _ R) as [Hl Hm]. split.
  - intros b. unfold v'. destruct (decide (b = 45)) as [->|]; [|by rewrite fn_lookup_insert_ne].
    rewrite fn_lookup_insert. apply bitmap_length. mklia.
  - intros b Hb. rewrite bitmap_used by mklia. by apply Hm.
Qed.

Lemma bitmap_kept y : inode_wf mk_sb v y → kept v v' y.
Proof.
  intros W.
  assert (E : ∀ b, owns v y b → v' b = v b ∧ used mk_sb v' b = true).
  { intros b (Hb & s0 & Hs & <-). destruct (iw_data _ _ _ W s0 Hs Hb) as [Hr Hu]. split.
    - unfold v'. rewrite fn_lookup_insert_ne; [done|]. mklia.
    - rewrite bitmap_used; [done|]. mklia. }
  split.
  - by eapply inode_wf_ext.
  - intros s0. apply slot_ext. intros b Hb. by apply E.
  - intros o Ho. apply fbyte_ext; [done|]. intros b Hb. by apply E.
Qed.

Lemma bitmap_ino inum : 0 ≤ inum < NINODES → ino v' inum = ino v inum.
Proof. intros Hi. apply ino_meta; [done|]. intros b Hb. unfold v'. rewrite fn_lookup_insert_ne; [done|]. mklia. Qed.

Lemma balloc_ok :
  ∃ s', mk_balloc (mk_freeblock s) s = Ok tt s' ∧ (∀ b, 0 ≤ b < FSSIZE → mk_image s' !! b = Some (v' b)) ∧
    ∀ b d, mk_image s' !! b = Some d → length d = 1024%nat.
Proof.
  pose proof (rp_free _ _ R) as Hf. unfold mk_balloc. rewrite (proj2 (Z.ltb_lt _ _)) by mklia.
  eexists. split; [reflexivity|]. rewrite sector_small by mklia. change (sb_bmapstart mk_sb) with 45.
  unfold v'. cbn. split; intros b.
  - intros Hb. destruct (decide (b = 45)) as [->|].
    + by rewrite lookup_insert_eq, fn_lookup_insert.
    + rewrite lookup_insert_ne, fn_lookup_insert_ne by done. by apply (rp_image _ _ R).
  - intros d. destruct (decide (b = 45)) as [->|].
    + rewrite lookup_insert_eq. intros [= <-]. apply bitmap_length. mklia.
    + rewrite lookup_insert_ne by done. apply (rp_len _ _ R).
Qed.
End bitmap.

(** What [mkfs] has made: the sectors of the image are the blocks [v]. *)
Record made (host : list Z → option (list Z)) (args : list (list Z)) (s : mkst) (v : Z → list Z) : Prop := {
  md_image : ∀ b, 0 ≤ b < FSSIZE → mk_image s !! b = Some (v b);
  md_len : ∀ b d, mk_image s !! b = Some d → length d = 1024%nat;
  md_super : v 1 = super_bytes;
  md_log : ∀ b, 1 < b < 32 → v b = zero_block;
  md_ok : fs_ok mk_sb v;
  md_used : ∀ b, 0 ≤ b < FSSIZE → used mk_sb v b = (b <? nmeta + total (files_of host args));
  md_root : dir_is v ROOTINO (dir_bytes args);
  md_files : ∀ (i : nat) a, args !! i = Some a → file_is v (2 + Z.of_nat i) T_FILE (file_data host a);
  md_apart : ∀ i j, 1 ≤ i ≤ 1 + Z.of_nat (length args) → 1 ≤ j ≤ 1 + Z.of_nat (length args) → i ≠ j →
    apart v (ino v i) (ino v j);
  md_unused : ∀ inum, 0 ≤ inum < NINODES → ¬ 1 ≤ inum ≤ 1 + Z.of_nat (length args) → i_type (ino v inum) = 0;
}.

Section main.
  Context (host : list Z → option (list Z)) (args : list (list Z)).

Lemma made_ok s v :
  minv s v (files_of host args) →
  ∃ s' v', (din ← rinode ROOTINO;
            winode ROOTINO (set_i_size (u32 ((i_size din / BSIZE + 1) * BSIZE)) din) ;;
            freeblock ← gets mk_freeblock;
            mk_balloc freeblock) s = Ok tt s' ∧ made host args s' v'.
Proof.
  intros M. pose proof M as [R Hn Hfew Hb Hf Ha Hu Hs Hl]. rewrite files_of_length in *.
  set (n := length args) in *. pose proof (Hf 0%nat T_DIR (dir_bytes args) eq_refl) as F0.
  change (1 + Z.of_nat 0) with ROOTINO in F0. pose proof (fo_len _ _ (rp_ok _ _ R)) as Hlen.
  destruct (round_dir v _ ROOTINO F0) as (F1 & E1 & Ei & D1); [done | done |].
  set (x := rounded (ino v ROOTINO)) in *.
  destruct (winode_ok s v x R F1) as (s1 & W1 & R1 & B1 & _); [by rewrite E1|]. rewrite E1 in W1.
  set (v1 := put_inode mk_sb x v) in *. destruct (balloc_ok s1 v1 R1) as (s2 & E2 & Him & Hil).
  exists s2, (<[45 := mk_bitmap (mk_freeblock s1)]> v1). split.
  { rewrite (bind_ok _ _ _ _ _ (rinode_ok s v ROOTINO R ltac:(done))). fold (rounded (ino v ROOTINO)). fold x.
    by rewrite (bind_ok _ _ _ _ _ W1), bind_gets. }
  assert (Hino0 : ∀ i, 0 ≤ i < NINODES → i ≠ ROOTINO → ino (<[45 := mk_bitmap (mk_freeblock s1)]> v1) i = ino v i).
  { intros i Hi Hne. rewrite (bitmap_ino s1 v1) by (done || lia).
    apply dinode_put_ne; [done | done | lia | by rewrite E1 | by rewrite E1]. }
  assert (Hino : ∀ i, 1 < i < NINODES → ino (<[45 := mk_bitmap (mk_freeblock s1)]> v1) i = ino v i).
  { intros i Hi. apply Hino0; [lia|]. change ROOTINO with 1. lia. }
  assert (Hk : ∀ i : nat, (i < S n)%nat → kept v (<[45 := mk_bitmap (mk_freeblock s1)]> v1) (ino v (1 + Z.of_nat i))).
  { intros i Hi. destruct (lookup_lt_is_Some_2 (files_of host args) i) as [[t c] Hi0]; [by rewrite files_of_length|].
    pose proof (fi_wf _ _ _ _ (Hf _ _ _ Hi0)) as Wi. pose proof (kept_put v x _ ltac:(by rewrite E1) Wi) as K1.
    eapply kept_trans; [exact K1|]. apply bitmap_kept; [done | apply K1]. }
  assert (Hfr : ∀ b, b < 32 → (<[45 := mk_bitmap (mk_freeblock s1)]> v1) b = v b).
  { intros b Hr. rewrite fn_lookup_insert_ne by lia. pose proof (IBLOCK_mk (i_inum x) ltac:(by rewrite E1)).
    apply put_inode_other. lia. }
  assert (Hroot : ∀ i, 1 ≤ i ≤ 1 + Z.of_nat n → ∀ s0,
    slot (<[45 := mk_bitmap (mk_freeblock s1)]> v1) (ino (<[45 := mk_bitmap (mk_freeblock s1)]> v1) i) s0 = slot v (ino v i) s0).
  { intros i Hi s0. pose proof (Hk (Z.to_nat (i - 1)) ltac:(lia)) as K. replace (1 + Z.of_nat (Z.to_nat (i - 1))) with i in K by lia.
    rewrite <- (kp_slots _ _ _ K). destruct (decide (i = 1)) as [->|]; [|by rewrite Hino by lia].
    rewrite (bitmap_ino s1 v1) by done. change 1 with ROOTINO. rewrite Ei. done. }
  split.
  - exact Him.
  - exact Hil.
  - by rewrite Hfr.
  - intros b Hr. rewrite Hfr by lia. by apply Hl.
  - by apply bitmap_ok.
  - intros b Hr. rewrite (bitmap_used s1 v1), (rp_used _ _ R1), B1, Hb by done. done.
  - eapply dir_is_kept; [by apply (bitmap_ino s1 v1) | | exact D1].
    apply bitmap_kept; [done|]. apply (di_wf _ _ _ D1).
  - intros i a Hi. pose proof (lookup_lt_Some _ _ _ Hi). fold n in H.
    replace (2 + Z.of_nat i) with (1 + Z.of_nat (S i)) by lia.
    eapply file_is_kept; [apply Hino; lia | apply Hk; lia|]. apply Hf.
    change (((λ a, (T_FILE, file_data host a)) <$> args) !! i = Some (T_FILE, file_data host a)).
    by rewrite list_lookup_fmap, Hi.
  - intros i j Hi Hj Hne. eapply apart_slots; [by apply Hroot | by apply Hroot |].
    specialize (Ha (Z.to_nat (i - 1)) (Z.to_nat (j - 1)) ltac:(lia) ltac:(lia) ltac:(lia)).
    by replace (1 + Z.of_nat (Z.to_nat (i - 1))) with i in Ha by lia;
      replace (1 + Z.of_nat (Z.to_nat (j - 1))) with j in Ha by lia.
  - intros inum Hr Hout. rewrite Hino0 by (done || (change ROOTINO with 1; lia)). apply Hu; lia.
Qed.

(** The arguments [mkfs] accepts: files that can be read, not too many for the
    inodes and for the blocks of the disk. *)
Record args_ok : Prop := {
  ar_files : Forall (readable_file host) args;
  ar_inodes : 1 + Z.of_nat (length args) < NINODES;
  ar_blocks : nmeta + total (files_of host args) ≤ FSSIZE;
}.

Lemma root_dots s v :
  minv s v [(T_DIR, [])] →
  ∃ s1 s2 v2, iappend ROOTINO (mk_dirent ROOTINO [46]) s = Ok tt s1 ∧
    iappend ROOTINO (mk_dirent ROOTINO [46; 46]) s1 = Ok tt s2 ∧ minv s2 v2 (files_of host []).
Proof.
  intros M. destruct (iappend_ok s v _ 0 T_DIR [] (mk_dirent ROOTINO [46]) M) as (s1 & v1 & E1 & M1);
    [done | by vm_compute | by vm_compute |].
  destruct (iappend_ok s1 v1 _ 0 T_DIR (mk_dirent ROOTINO [46]) (mk_dirent ROOTINO [46; 46]) M1) as (s2 & v2 & E2 & M2);
    [done | by vm_compute | by vm_compute |].
  exists s1, s2, v2. split; [exact E1|]. split; [exact E2|]. exact M2.
Qed.

Lemma mkfs_ok prog img :
  args_ok → ∃ s v, mkfs host (prog :: img :: args) mk_init = Ok tt s ∧ made host args s v.
Proof.
  intros [Hfiles Hino Hblk]. unfold mkfs, mkfs_main.
  destruct (zero_image (Z.to_nat FSSIZE) mk_init) as (m & E0 & Hm & Hd); [by vm_compute; lia|].
  rewrite (bind_ok _ _ _ _ _ E0). unfold wsect at 1. rewrite bind_modify, sector_small by done.
  set (s0 := set_mk_image _ _).
  assert (M0 : minv s0 empty_view []).
  { apply empty_minv; try done.
    - intros b Hb Hne. cbn. rewrite lookup_insert_ne by done. apply Hm. done.
    - cbn. by rewrite lookup_insert_eq.
    - cbn. intros b d. destruct (decide (b = 1)) as [->|].
      + rewrite lookup_insert_eq. by intros [= <-].
      + rewrite lookup_insert_ne by done. intros Hb. by destruct (Hd b d Hb) as [-> | Hb']. }
  destruct (ialloc_ok s0 empty_view [] T_DIR M0) as (s1 & v1 & E1 & M1); [done | done |].
  rewrite (bind_ok _ _ _ _ _ E1). change (1 + Z.of_nat (length [])) with ROOTINO. rewrite Z.eqb_refl. cbn [negb].
  destruct (root_dots s1 v1 M1) as (s2 & s3 & v3 & E2 & E3 & M3).
  rewrite (bind_ok _ _ _ _ _ E2), (bind_ok _ _ _ _ _ E3).
  destruct (add_files_ok host args s3 v3 [] M3 Hfiles) as (s4 & v4 & E4 & M4); [done | done |].
  rewrite (bind_ok _ _ _ _ _ E4). by apply (made_ok s4 v4).
Qed.
End main.

(** ** The root directory *)
Definition is_bytes (l : list Z) : Prop := Forall (λ c, 0 ≤ c < 256) l.

(** The number and the offset of the first entry with a name. *)
Definition find_entry (name : list Z) (es : list (Z * list Z)) : option (Z * Z) :=
  match list_find (λ e, namecmp name e.2 = 0) es with
  | Some (k, e) => Some (e.1, sizeof_dirent * Z.of_nat k)
  | None => None
  end.

Section directory.
  Context (es : list (Z * list Z)) (Hes : Forall (λ e, 0 < e.1 < 2 ^ 16 ∧ is_bytes e.2) es).
Let d := concat ((λ e, mk_dirent e.1 e.2) <$> es).

Lemma concat_entry (i : nat) e (j : nat) :
  es !! i = Some e → (j < 16)%nat → d !! (16 * i + j)%nat = mk_dirent e.1 e.2 !! j.
Proof.
  intros Hi Hj. unfold d. clear d Hes. revert i Hi. induction es as [|e' es' IH]; intros i Hi; [done|].
  rewrite fmap_cons, concat_cons. destruct i as [|i].
  - injection Hi as ->. rewrite lookup_app_l; [done|]. rewrite mk_dirent_length. lia.
  - rewrite lookup_app_r; rewrite mk_dirent_length; [|lia]. rewrite <- (IH i Hi). f_equal. lia.
Qed.

Context (v : Z → list Z) (x : inode) (n : Z).
Context (Hb : ∀ o, 0 ≤ o < MAXFILE * BSIZE → fbyte v x o = default 0 (d !! Z.to_nat o)).
Context (Hsize : i_size x = 16 * n) (Hn : Z.of_nat (length es) ≤ n) (Hmax : 16 * n ≤ MAXFILE * BSIZE).

Lemma dent_entry (i : nat) e : es !! i = Some e → dent v x (Z.of_nat i) = mk_dirent e.1 e.2.
Proof.
  intros Hi. pose proof (lookup_lt_Some _ _ _ Hi). apply list_eq. intros j.
  destruct (decide (j < 16)%nat) as [Hj|Hj].
  - unfold dent. change sizeof_dirent with 16. rewrite fbytes_lookup, Hb by lia.
    replace (Z.to_nat (16 * Z.of_nat i + Z.of_nat j)) with (16 * i + j)%nat by lia. rewrite (concat_entry i e j Hi Hj).
    destruct (lookup_lt_is_Some_2 (mk_dirent e.1 e.2) j) as [c ->]; [by rewrite mk_dirent_length | done].
  - rewrite (lookup_ge_None_2 (mk_dirent _ _)) by (rewrite mk_dirent_length; lia).
    apply lookup_ge_None_2. unfold dent. rewrite fbytes_length. change sizeof_dirent with 16. lia.
Qed.

Lemma dent_free i : Z.of_nat (length es) ≤ i < n → dirent_inum (dent v x i) = 0.
Proof.
  intros Hi. unfold dirent_inum, dent. change sizeof_dirent with 16.
  replace (take 2 _) with [0; 0]; [done|]. symmetry. apply list_eq. intros j.
  assert (Hz : ∀ o, 16 * i ≤ o < 16 * i + 16 → fbyte v x o = 0).
  { intros o Ho. rewrite Hb by lia. rewrite lookup_ge_None_2; [done|].
    pose proof (concat_entries_length es). fold d in H. lia. }
  destruct j as [|[|j]].
  - rewrite lookup_take_lt, fbytes_lookup, Hz by lia. done.
  - rewrite lookup_take_lt, fbytes_lookup, Hz by lia. done.
  - rewrite lookup_take_ge by lia. done.
Qed.

Lemma names_entry name e :
  is_bytes name → 0 < e.1 < 2 ^ 16 → is_bytes e.2 →
  names name (mk_dirent e.1 e.2) = bool_decide (namecmp name e.2 = 0).
Proof.
  intros Hname He Heb. unfold names. rewrite dirent_inum_mk, dirent_name_mk, (proj2 (Z.eqb_neq _ _)) by lia. cbn [negb andb].
  apply eq_true_iff_eq. rewrite Z.eqb_eq, bool_decide_eq_true. unfold namecmp.
  rewrite !strncmp_bytes_zero by (done || by apply zpad_bytes). change (Z.to_nat DIRSIZ) with 14%nat.
  by rewrite cstr_zpad.
Qed.

Lemma lookup_entries name : is_bytes name → lookup_dir v x name = find_entry name es.
Proof.
  intros Hname. assert (En : nents x = n) by (unfold nents; change sizeof_dirent with 16; rewrite Hsize; zlia).
  assert (Hat : ∀ i e, es !! i = Some e → names name (dent v x (Z.of_nat i)) = bool_decide (namecmp name e.2 = 0)).
  { intros i e Hi. rewrite (dent_entry i e Hi). destruct (proj1 (Forall_lookup _ _) Hes i e Hi). by apply names_entry. }
  unfold lookup_dir, find_entry. rewrite En. destruct (list_find _ es) as [[k e]|] eqn:E.
  - apply list_find_Some in E as (Hk & HP & Hlt). pose proof (lookup_lt_Some _ _ _ Hk).
    rewrite (find_first _ _ _ (Z.of_nat k)).
    + rewrite (dent_entry k e Hk), dirent_inum_mk; [done|]. by destruct (proj1 (Forall_lookup _ _) Hes k e Hk).
    + lia.
    + rewrite (Hat k e Hk). by apply bool_decide_eq_true.
    + intros j Hj. destruct (lookup_lt_is_Some_2 es (Z.to_nat j)) as [e' He']; [lia|].
      specialize (Hat _ _ He'). rewrite Z2Nat.id in Hat by lia. rewrite Hat. apply bool_decide_eq_false.
      apply (Hlt _ _ He'). lia.
  - apply list_find_None in E. replace (List.find _ _) with (@None Z); [done|]. symmetry. apply find_zseq_none.
    intros j Hj. destruct (decide (j < Z.of_nat (length es))).
    + destruct (lookup_lt_is_Some_2 es (Z.to_nat j)) as [e' He']; [lia|].
      specialize (Hat _ _ He'). rewrite Z2Nat.id in Hat by lia. rewrite Hat. apply bool_decide_eq_false.
      by apply (proj1 (Forall_lookup _ _) E _ _ He').
    + unfold names. rewrite dent_free by lia. done.
Qed.
End directory.

Lemma file_name_bytes a : is_bytes a → is_bytes (file_name a).
Proof.
  intros Ha. assert (Hs : ∀ n, shortname a = Some n → is_bytes n).
  { intros n. unfold shortname. case_match; intros [= <-]. case_match; [by apply Forall_drop | done]. }
  unfold file_name. destruct (shortname a) as [n|]; [|constructor]. specialize (Hs n eq_refl). cbn.
  unfold skip_underscore. destruct n as [|c n]; [done|]. case_match; [by inversion Hs | done].
Qed.

Lemma entries_range args i e : entries args !! i = Some e → 1 ≤ e.1 ≤ 1 + Z.of_nat (length args).
Proof.
  unfold entries. destruct i as [|[|i]]; [intros [= <-]; cbn; lia.. |]. cbn [lookup list_lookup]. intros He.
  change (imap (λ i a, (2 + Z.of_nat i, file_name a)) args !! i = Some e) in He. rewrite list_lookup_imap in He.
  destruct (args !! i) as [a|] eqn:Ea; [|done]. injection He as <-. pose proof (lookup_lt_Some _ _ _ Ea). cbn. lia.
Qed.

Lemma entries_ok args :
  1 + Z.of_nat (length args) < NINODES → Forall is_bytes args →
  Forall (λ e, 0 < e.1 < 2 ^ 16 ∧ is_bytes e.2) (entries args).
Proof.
  intros Hn Hb. change NINODES with 200 in Hn. unfold entries. repeat apply Forall_cons_2.
  1-2: split; [cbn; lia | repeat constructor; lia].
  apply Forall_lookup. intros i e He. rewrite list_lookup_imap in He.
  destruct (args !! i) as [a|] eqn:Ea; [|done]. injection He as <-. pose proof (lookup_lt_Some _ _ _ Ea).
  split; [cbn; lia|]. apply file_name_bytes. by apply (proj1 (Forall_lookup _ _) Hb i).
Qed.

(** The root directory has no hole unless its entries fill its blocks. *)
Lemma root_file v args :
  dir_is v ROOTINO (dir_bytes args) → 1 + Z.of_nat (length args) < NINODES → (2 + Z.of_nat (length args)) mod 64 ≠ 0 →
  dir_ok mk_sb v (ino v ROOTINO).
Proof.
  intros [W F Ht _ Hs P _] Hn Hfit. rewrite dir_bytes_length in *. change NINODES with 200 in Hn.
  change BSIZE with 1024 in *. split; [split; [done|done|..]|done|].
  - rewrite Hs. change MAXFILE with 268. change BSIZE with 1024. zlia.
  - intros bn Hbn Hlt. rewrite Hs in Hlt. change BSIZE with 1024 in Hlt.
    apply (packed_baddr v _ _ bn P); [change MAXFILE with 268; zlia|]. zlia.
  - rewrite Hs. change sizeof_dirent with 16. exists ((16 * (2 + Z.of_nat (length args)) / 1024 + 1) * 64). lia.
Qed.

Lemma file_contents v inum t c : file_is v inum t c → fbytes v (ino v inum) 0 (i_size (ino v inum)) = c.
Proof.
  intros [W F Ht Hn Hs Hm P B]. rewrite Hs. apply list_eq. intros i.
  destruct (decide (i < length c)%nat) as [Hi|Hi].
  - rewrite fbytes_lookup, B by lia. destruct (lookup_lt_is_Some_2 c i Hi) as [x Hx].
    replace (Z.to_nat (0 + Z.of_nat i)) with i by lia. by rewrite Hx.
  - rewrite !lookup_ge_None_2; [done | lia | rewrite fbytes_length; lia].
Qed.

Lemma file_is_ok v inum t c : file_is v inum t c → file_ok mk_sb v (ino v inum).
Proof.
  intros [W F Ht Hn Hs Hm P B]. split; [done | done | rewrite Hs; lia |].
  intros bn Hbn Hlt. rewrite Hs in Hlt. change MAXFILE with 268 in *. change BSIZE with 1024 in *.
  apply (packed_baddr v _ _ bn P); [change MAXFILE with 268; lia | lia].
Qed.

Lemma root_lookup v args name :
  dir_is v ROOTINO (dir_bytes args) → 1 + Z.of_nat (length args) < NINODES → Forall is_bytes args → is_bytes name →
  lookup_dir v (ino v ROOTINO) name = find_entry name (entries args).
Proof.
  intros [W F Ht _ Hs P B] Hn Hb Hname. pose proof (dir_bytes_length args) as Hl. rewrite Hl in Hs.
  change BSIZE with 1024 in Hs. change NINODES with 200 in *.
  apply (lookup_entries (entries args)) with (n := (16 * (2 + Z.of_nat (length args)) / 1024 + 1) * 64); try done.
  - by apply entries_ok.
  - lia.
  - rewrite entries_length. zlia.
  - change MAXFILE with 268. change BSIZE with 1024. zlia.
Qed.

(** ** Theorems *)

(** C19: the image [mkfs] makes.  Given files it can read, fewer than there are
    inodes and blocks for, [mkfs] ends, and every sector of the disk has been
    written.  The blocks are a file system: the super block says where its
    parts are, the bitmap marks exactly the blocks that are in use, the inodes
    after the last file are free, and no two files share a block.  The root
    directory resolves every name to the first file of that name, and each
    file has the bytes of the host's file. *)
Theorem mkfs_image host prog img args
    (Hargs : args_ok host args) (Hbytes : Forall is_bytes args) (Hfit : (2 + Z.of_nat (length args)) mod 64 ≠ 0) :
  ∃ s v, mkfs host (prog :: img :: args) mk_init = Ok tt s ∧
    (∀ b, 0 ≤ b < FSSIZE → mk_image s !! b = Some (v b)) ∧
    get_superblock (v 1) = mk_sb ∧ fs_ok mk_sb v ∧
    (∀ b, 0 ≤ b < FSSIZE → used mk_sb v b = (b <? nmeta + total (files_of host args))) ∧
    dir_ok mk_sb v (ino v ROOTINO) ∧
    (∀ name, is_bytes name → lookup_dir v (ino v ROOTINO) name = find_entry name (entries args)) ∧
    (∀ (i : nat) a, args !! i = Some a → let x := ino v (2 + Z.of_nat i) in
       i_type x = T_FILE ∧ file_ok mk_sb v x ∧ fbytes v x 0 (i_size x) = file_data host a) ∧
    (∀ i j, 1 ≤ i ≤ 1 + Z.of_nat (length args) → 1 ≤ j ≤ 1 + Z.of_nat (length args) → i ≠ j →
       apart v (ino v i) (ino v j)) ∧
    (∀ inum, 0 ≤ inum < NINODES → ¬ 1 ≤ inum ≤ 1 + Z.of_nat (length args) → i_type (ino v inum) = 0).
Proof.
  destruct (mkfs_ok host args prog img Hargs) as (s & v & E & [Him _ Hs _ Hok Hu Hr Hf Ha Hun]).
  destruct Hargs as [_ Hn _]. exists s, v.
  refine (conj E (conj Him (conj _ (conj Hok (conj Hu (conj _ (conj _ (conj _ (conj Ha Hun))))))))).
  - by rewrite Hs.
  - by apply (root_file v args).
  - intros name Hname. by apply root_lookup.
  - intros i a Hi. specialize (Hf i a Hi). cbn zeta.
    exact (conj (fi_type _ _ _ _ Hf) (conj (file_is_ok _ _ _ _ Hf) (file_contents _ _ _ _ Hf))).
Qed.

(** Two files: [user/_cat] and [README]. *)
Definition ex_host (path : list Z) : option (list Z) :=
  if bool_decide (path = [117; 115; 101; 114; 47; 95; 99; 97; 116]) then Some (replicate 1500 7)
  else if bool_decide (path = [82; 69; 65; 68; 77; 69]) then Some [104; 105] else None.
Definition ex_args : list (list Z) := [[117; 115; 101; 114; 47; 95; 99; 97; 116]; [82; 69; 65; 68; 77; 69]].

Lemma ex_args_ok : args_ok ex_host ex_args.
Proof.
  split; [|done|by vm_compute]. repeat apply Forall_cons_2; [| |apply Forall_nil_2].
  - eexists _, _. split; [reflexivity|]. split; [reflexivity|]. by vm_compute.
  - eexists _, _. split; [reflexivity|]. split; [reflexivity|]. by vm_compute.
Qed.

Lemma ex_args_bytes : Forall is_bytes ex_args.
Proof. by repeat constructor. Qed.

Lemma mkfs_image_witness :
  ∃ s v, mkfs ex_host ([] :: [] :: ex_args) mk_init = Ok tt s ∧
    lookup_dir v (ino v ROOTINO) [99; 97; 116] = Some (2, 32) ∧
    lookup_dir v (ino v ROOTINO) [82; 69; 65; 68; 77; 69] = Some (3, 48) ∧
    lookup_dir v (ino v ROOTINO) [108; 115] = None ∧
    fbytes v (ino v 3) 0 (i_size (ino v 3)) = [104; 105] ∧ used mk_sb v 49 = true ∧ used mk_sb v 50 = false.
Proof.
  destruct (mkfs_image ex_host [] [] ex_args ex_args_ok ex_args_bytes) as (s & v & E & _ & _ & _ & U & _ & L & F & _).
  - vm_compute. discriminate.
  - assert (T : nmeta + total (files_of ex_host ex_args) = 50) by (vm_compute; reflexivity). rewrite T in U.
    exists s, v. refine (conj E (conj _ (conj _ (conj _ (conj _ (conj _ _)))))).
    + rewrite L; [vm_compute; reflexivity | repeat constructor; lia].
    + rewrite L; [vm_compute; reflexivity | repeat constructor; lia].
    + rewrite L; [vm_compute; reflexivity | repeat constructor; lia].
    + destruct (F 1%nat [82; 69; 65; 68; 77; 69] eq_refl) as (_ & _ & Hd). exact Hd.
    + rewrite (U 49) by (clear E; done). reflexivity.
    + rewrite (U 50) by (clear E; done). reflexivity.
Defined.

(** C32: the root directory may have a hole.  Its size is rounded up to one more
    block also when the entries end at the end of a block.  The last block of
    the directory then has no address, so that the kernel, when it reads the
    directory to its end, allocates a block outside of a transaction. *)
Theorem mkfs_root_hole host prog img args
    (Hargs : args_ok host args) (Hfull : (2 + Z.of_nat (length args)) mod 64 = 0) :
  ∃ s v bn, mkfs host (prog :: img :: args) mk_init = Ok tt s ∧
    (∀ b, 0 ≤ b < FSSIZE → mk_image s !! b = Some (v b)) ∧
    0 ≤ bn ∧ bn * BSIZE < i_size (ino v ROOTINO) ∧ baddr v (ino v ROOTINO) bn = 0.
Proof.
  destruct (mkfs_ok host args prog img Hargs) as (s & v & E & [Him _ _ _ _ _ Hr _ _ _]).
  destruct Hr as [_ _ _ _ Hs P _]. destruct Hargs as [_ Hn _]. rewrite dir_bytes_length in *.
  change NINODES with 200 in Hn. change BSIZE with 1024 in *.
  set (bn := 16 * (2 + Z.of_nat (length args)) / 1024) in *.
  assert (Hbn : 0 ≤ bn < MAXFILE ∧ bn * 1024 = 16 * (2 + Z.of_nat (length args))).
  { change MAXFILE with 268. unfold bn. clear -Hn Hfull. zlia. }
  exists s, v, bn. refine (conj E (conj Him (conj _ (conj _ _)))); [lia | rewrite Hs; lia |].
  destruct (decide (baddr v (ino v ROOTINO) bn = 0)) as [|Hne]; [done|].
  apply (packed_baddr v _ _ bn P) in Hne; lia.
Qed.

Lemma mkfs_root_hole_witness :
  ∃ s v bn, mkfs ex_host ([] :: [] :: replicate 62 [82; 69; 65; 68; 77; 69]) mk_init = Ok tt s ∧
    bn * BSIZE < i_size (ino v ROOTINO) ∧ baddr v (ino v ROOTINO) bn = 0.
Proof.
  destruct (mkfs_root_hole ex_host [] [] (replicate 62 [82; 69; 65; 68; 77; 69])) as (s & v & bn & E & _ & _ & H1 & H2).
  - split; [|vm_compute; reflexivity | vm_compute; discriminate]. apply Forall_replicate.
    exists [82; 69; 65; 68; 77; 69], [104; 105]. split; [reflexivity|]. split; [reflexivity|]. vm_compute. discriminate.
  - vm_compute. reflexivity.
  - exists s, v, bn. exact (conj E (conj H1 H2)).
Defined.
