(* ===== verification/MkfsBoot.v ===== *)
(** * Booting from the image that [mkfs] makes

    The host's [mkfs] and the kernel agree on the format of the disk: the
    kernel boots from the image, resolves the names of the files, and reads
    their contents. *)

From stdpp Require Import functions.
From S2P Require Import Base Riscv Mem Kstring Kernel Sleeplock FsState Bio BioList BioSpec Log LogSpec.
From S2P Require Import LogCrash LogOps Fs FsLogic FsBoot FsAlloc FsInode FsFile FsData FsOps FsDir FsPath.
From S2P Require Import Mkfs MkfsSpec MkfsImage.
Local Open Scope Z_scope.
Local Open Scope kernel_scope.

Lemma image_boots host args s v tb pid :
  made host args s v → rebooted (mk_image s) tb pid →
  ∃ tr vr, fsinit ROOTDEV (Solo tb [] pid) = Ok tt (Solo tr [] pid) ∧
    idle tr pid 2 LOGSIZE mk_sb vr (f_itable tb) ∧ ∀ b, 0 ≤ b < FSSIZE → b ≠ 2 → vr b = v b.
Proof.
  intros [Him Hil Hs Hl _ _ _ _ _ _] Hrb.
  assert (Ei : ∀ b, 0 ≤ b < FSSIZE → image (mk_image s) b = v b).
  { intros b Hb. unfold image. by rewrite Him. }
  destruct (fsinit_idle (mk_image s) tb pid mk_sb 2 LOGSIZE) as (tr & vr & E & I & V); try done.
  - rewrite Ei by done. by rewrite Hs.
  - intros b. unfold image. destruct (mk_image s !! b) as [d|] eqn:Ed; [by apply (Hil b) | done].
  - rewrite Ei by done. by rewrite Hl.
  - exists tr, vr. split; [done|]. split; [done|]. intros b Hb Hne. rewrite V by done. by apply Ei.
Qed.

(** ** The tree in the image *)
Section view.
  Context (host : list Z → option (list Z)) (args : list (list Z)) (s : mkst) (v w : Z → list Z).
  Context (M : made host args s v) (Hw : ∀ b, 32 ≤ b < FSSIZE → w b = v b) (Hlen : ∀ b, length (w b) = 1024%nat).
  Context (Hn : 1 + Z.of_nat (length args) < NINODES).

Lemma view_ino inum : 0 ≤ inum < NINODES → ino w inum = ino v inum.
Proof. intros Hi. pose proof (IBLOCK_mk _ Hi). unfold ino, dinode. rewrite Hw; [done|]. mklia. Qed.

Lemma view_used b : 0 ≤ b < FSSIZE → used mk_sb w b = used mk_sb v b.
Proof.
  intros Hb. unfold used. rewrite Hw; [done|]. unfold BBLOCK. change (sb_bmapstart mk_sb) with 45.
  change FSSIZE with 2000 in *. rewrite BPB_8192. zlia.
Qed.

Lemma view_ok : fs_ok mk_sb w.
Proof. split; [done|]. intros b Hb. rewrite view_used by mklia. by apply (md_ok _ _ _ _ M). Qed.

Lemma view_kept y : inode_wf mk_sb v y → kept v w y.
Proof.
  intros W.
  assert (E : ∀ b, owns v y b → w b = v b ∧ used mk_sb w b = true).
  { intros b (Hb & s0 & Hs & <-). destruct (iw_data _ _ _ W s0 Hs Hb) as [Hr Hu].
    split; [apply Hw; mklia|]. rewrite view_used by mklia. done. }
  split.
  - by eapply inode_wf_ext.
  - intros s0. apply slot_ext. intros b Hb. by apply E.
  - intros o Ho. apply fbyte_ext; [done|]. intros b Hb. by apply E.
Qed.

Lemma view_root : dir_is w ROOTINO (dir_bytes args).
Proof.
  pose proof (md_root _ _ _ _ M) as D. eapply dir_is_kept; [by apply view_ino | | exact D]. apply view_kept, D.
Qed.

Lemma view_file (i : nat) a : args !! i = Some a → file_is w (2 + Z.of_nat i) T_FILE (file_data host a).
Proof.
  intros Hi. pose proof (md_files _ _ _ _ M i a Hi) as F. pose proof (lookup_lt_Some _ _ _ Hi).
  eapply file_is_kept; [apply view_ino; lia | | exact F]. apply view_kept, F.
Qed.

(** The inodes in use. *)
Lemma view_live inum :
  live mk_sb w inum ↔ 1 ≤ inum ≤ 1 + Z.of_nat (length args).
Proof.
  unfold live. change (node mk_sb w inum) with (ino w inum). change (sb_ninodes mk_sb) with NINODES. split.
  - intros (Hr & Ht & _). destruct (decide (1 ≤ inum ≤ 1 + Z.of_nat (length args))) as [|Hout]; [done|].
    rewrite view_ino in Ht by done. by rewrite (md_unused _ _ _ _ M) in Ht.
  - intros Hr. split; [lia|]. destruct (decide (inum = ROOTINO)) as [->|Hne].
    + destruct view_root as [_ _ -> -> _ _ _]. done.
    + change ROOTINO with 1 in Hne. destruct (lookup_lt_is_Some_2 args (Z.to_nat (inum - 2))) as [a Ha]; [lia|].
      pose proof (view_file _ _ Ha) as F. replace (2 + Z.of_nat (Z.to_nat (inum - 2))) with inum in F by lia.
      destruct F as [_ _ -> -> _ _ _ _]. done.
Qed.

Lemma view_type inum : live mk_sb w inum → i_type (node mk_sb w inum) = T_DIR → inum = ROOTINO.
Proof.
  intros Hl Ht. apply view_live in Hl. destruct (decide (inum = ROOTINO)) as [|Hne]; [done|]. change ROOTINO with 1 in Hne.
  destruct (lookup_lt_is_Some_2 args (Z.to_nat (inum - 2))) as [a Ha]; [lia|].
  pose proof (fi_type _ _ _ _ (view_file _ _ Ha)) as F. replace (2 + Z.of_nat (Z.to_nat (inum - 2))) with inum in F by lia.
  change (ino w inum) with (node mk_sb w inum) in F. rewrite Ht in F. done.
Qed.

Context (Hbytes : Forall is_bytes args) (Hfit : (2 + Z.of_nat (length args)) mod 64 ≠ 0).

(** Every entry of the root directory is for an inode in use. *)
Lemma view_entry name next off : lookup_dir w (node mk_sb w ROOTINO) name = Some (next, off) → live mk_sb w next.
Proof.
  change (node mk_sb w ROOTINO) with (ino w ROOTINO). unfold lookup_dir.
  destruct view_root as [_ _ _ _ Hs _ B]. pose proof (dir_bytes_length args) as Hl. rewrite Hl in Hs.
  change BSIZE with 1024 in Hs. set (n := (16 * (2 + Z.of_nat (length args)) / 1024 + 1) * 64).
  assert (Hsz : i_size (ino w ROOTINO) = 16 * n) by (rewrite Hs; unfold n; lia).
  assert (Hnr : Z.of_nat (length (entries args)) ≤ n ∧ 16 * n ≤ MAXFILE * BSIZE).
  { rewrite entries_length. change MAXFILE with 268. change BSIZE with 1024. change NINODES with 200 in Hn.
    unfold n. clear -Hn. zlia. }
  destruct (List.find _ _) as [i|] eqn:E; [|done]. intros [= <- _].
  apply find_zseq_some in E as (Hi & Hnm & _). unfold names in Hnm.
  assert (Hne : nents (ino w ROOTINO) = n).
  { unfold nents. rewrite Hsz. change sizeof_dirent with 16. clear. zlia. }
  rewrite Hne in Hi. destruct (decide (i < Z.of_nat (length (entries args)))) as [Hlt|Hge].
  - destruct (lookup_lt_is_Some_2 (entries args) (Z.to_nat i)) as [e He]; [lia|].
    pose proof (dent_entry (entries args) w (ino w ROOTINO) n B ltac:(lia) ltac:(lia) _ _ He) as Hd.
    rewrite Z2Nat.id in Hd by lia. rewrite Hd, dirent_inum_mk.
    + apply view_live. by eapply entries_range.
    + by apply (proj1 (Forall_lookup _ _) (entries_ok args Hn Hbytes) _ _ He).
  - rewrite (dent_free (entries args) w (ino w ROOTINO) n B) in Hnm by lia. done.
Qed.

Lemma view_tree : tree_ok mk_sb w.
Proof.
  split.
  - apply view_live. change ROOTINO with 1. lia.
  - intros inum Hl Ht. rewrite (view_type _ Hl Ht). by apply (root_file w args); [apply view_root|..].
  - intros inum name next off Hl Ht El. rewrite (view_type _ Hl Ht) in El. by eapply view_entry.
Qed.

(** A name of one element stands for what the root directory has for it. *)
Lemma view_walk name inum off :
  is_bytes name → name ≠ [] → SLASH ∉ name → (length name ≤ 14)%nat →
  find_entry name (entries args) = Some (inum, off) →
  walk mk_sb w ROOTINO (elems (SLASH :: name)) false [] = Some (inum, name).
Proof.
  intros Hb Hne Hs Hl Hf. assert (He : elems (SLASH :: name) = [name]).
  { unfold elems. cbn [split]. change (SLASH =? SLASH) with true. cbv iota.
    assert (Hsp : ∀ l, SLASH ∉ l → split l = [l]).
    { induction l as [|c l IH]; [done|]. intros [Hc Hl']%not_elem_of_cons. cbn.
      rewrite (proj2 (Z.eqb_neq c SLASH)) by done. by rewrite IH. }
    rewrite Hsp, filter_cons_False, filter_cons_True, filter_nil by (done || tauto). cbn.
    by rewrite take_ge by (change (Z.to_nat DIRSIZ) with 14%nat; lia). }
  rewrite He. cbn [walk andb]. change (node mk_sb w ROOTINO) with (ino w ROOTINO).
  rewrite (di_type _ _ _ view_root). change (negb (T_DIR =? T_DIR)) with false. cbv iota.
  rewrite (root_lookup w args name view_root Hn Hbytes Hb), Hf. done.
Qed.
End view.

(** ** Theorems *)

(** C7: the kernel boots from the image [mkfs] makes.  [fsinit] returns, the
    tree on the disk is well formed and its paths can be resolved; reading the
    file of any name by its path returns, to the last byte, the contents the
    file had when [mkfs] read it. *)
Theorem mkfs_boots host prog img args pid
    (Hargs : args_ok host args) (Hbytes : Forall is_bytes args) (Hfit : (2 + Z.of_nat (length args)) mod 64 ≠ 0) :
  ∃ s, mkfs host (prog :: img :: args) mk_init = Ok tt s ∧
  ∀ tb, rebooted (mk_image s) tb pid → f_itable tb = replicate 50 inode0 →
  ∃ tr w, fsinit ROOTDEV (Solo tb [] pid) = Ok tt (Solo tr [] pid) ∧
    resolvable tr pid 2 mk_sb w (replicate 50 inode0) 0 1 ∧
    ∀ (i : nat) a name off n, args !! i = Some a → is_bytes name → name ≠ [] → SLASH ∉ name → (length name ≤ 14)%nat →
      find_entry name (entries args) = Some (2 + Z.of_nat i, off) →
      Z.of_nat (length (file_data host a)) ≤ n < 2 ^ 31 →
      ∃ t', read_path (SLASH :: name) 0 n (Solo tr [] pid) =
        Ok (Some (Z.of_nat (length (file_data host a)), file_data host a)) (Solo t' [] pid).
Proof.
  destruct (mkfs_ok host args prog img Hargs) as (s & v & E & M). pose proof (ar_inodes _ _ Hargs) as Hn.
  exists s. split; [exact E|]. clear E. intros tb Hrb Hit.
  destruct (image_boots host args s v tb pid M Hrb) as (tr & w & Er & I & V). rewrite Hit in I.
  assert (Hw : ∀ b, 32 ≤ b < FSSIZE → w b = v b) by (intros b Hb; apply V; lia).
  pose proof (id_len _ _ _ _ _ _ _ I) as Hlen.
  assert (Hres : resolvable tr pid 2 mk_sb w (replicate 50 inode0) 0 1).
  { split; [done | by eapply view_ok | by eapply view_tree | | repeat split; (done || cbn; lia)].
    intros ip x Hx. apply lookup_replicate in Hx as [-> _]. split; [done|]. split; [done|]. cbn. lia. }
  exists tr, w. split; [exact Er|]. split; [exact Hres|]. intros i a name off n Ha Hb Hne Hs Hl Hf Hn'.
  pose proof (view_file host args s v w M Hw Hn i a Ha) as F.
  pose proof (view_walk host args s v w M Hw Hn Hbytes name _ _ Hb Hne Hs Hl Hf) as Hwalk.
  destruct (read_path_ok tr pid 2 mk_sb w _ 0 1 (SLASH :: name) 0 n _ _ Hres eq_refl Hwalk) as (t' & tbl' & Et & _);
    [by eapply file_is_ok | lia | lia |].
  exists t'. change (node mk_sb w (2 + Z.of_nat i)) with (ino w (2 + Z.of_nat i)) in Et.
  replace (readable (ino w (2 + Z.of_nat i)) 0 n) with (i_size (ino w (2 + Z.of_nat i))) in Et.
  - rewrite (file_contents _ _ _ _ F), (fi_size _ _ _ _ F) in Et. exact Et.
  - unfold readable. rewrite (fi_size _ _ _ _ F). rewrite Z.gtb_ltb, (proj2 (Z.ltb_ge _ _)), (proj2 (Z.leb_gt _ _)) by lia.
    cbn [orb]. lia.
Qed.

Lemma mkfs_boots_witness :
  ∃ s tr t', mkfs ex_host ([] :: [] :: ex_args) mk_init = Ok tt s ∧
    fsinit ROOTDEV (Solo (boot_fs (mk_image s)) [] 1) = Ok tt (Solo tr [] 1) ∧
    read_path [47; 82; 69; 65; 68; 77; 69] 0 512 (Solo tr [] 1) = Ok (Some (2, [104; 105])) (Solo t' [] 1).
Proof.
  destruct (mkfs_boots ex_host [] [] ex_args 1 ex_args_ok ex_args_bytes) as (s & E & H).
  - vm_compute. discriminate.
  - destruct (H (boot_fs (mk_image s)) (boot_rebooted _ _) eq_refl) as (tr & w & E1 & _ & Hread).
    destruct (Hread 1%nat [82; 69; 65; 68; 77; 69] [82; 69; 65; 68; 77; 69] 48 512) as (t' & E2).
    + reflexivity.
    + repeat constructor; lia.
    + discriminate.
    + clear. unfold SLASH. set_solver by lia.
    + cbn. lia.
    + vm_compute. reflexivity.
    + vm_compute. split; [discriminate | reflexivity].
    + exists s, tr, t'. exact (conj E (conj E1 E2)).
Defined.
