(* ===== verification/Kstate.v ===== *)
(** * The kernel's state and its process switch ([kernel/proc.c],
    [kernel/proc.h], [kernel/file.h])

    The state of the whole kernel as one CPU works on it: physical memory, the
    process table, the file system, open files, pipes, the console.  The
    trapframe of a process is in physical memory, at the page [p_trapframe].
    The locks the CPU holds are a list; [mycpu()->noff] is its length.

    This file has the part of [proc.c] that all other code stands on:
    [myproc], [sched], [sleep], [wakeup], [killed].  [sched] ends in
    [swtch], which hands the state to the scheduler together with the
    continuation of the process.  They make the kernel an instance of
    [KernelOps], and the laws that the components rely on are proved in
    [KstateLaws]. *)

From S2P Require Import Base Riscv Mem Kalloc Vm Kernel Pipe Console FsState.
Local Open Scope Z_scope.
Local Open Scope kernel_scope.

Inductive procstate := UNUSED | USED | SLEEPING | RUNNABLE | RUNNING | ZOMBIE.
#[export] Instance procstate_eq_dec : EqDecision procstate.
Proof. solve_decision. Defined.

(** Offsets in [struct trapframe]. *)
Definition TF_kernel_satp : Z := 0.
Definition TF_kernel_sp : Z := 8.
Definition TF_kernel_trap : Z := 16.
Definition TF_epc : Z := 24.
Definition TF_kernel_hartid : Z := 32.
Definition TF_sp : Z := 48.
Definition TF_a0 : Z := 112.
Definition TF_a1 : Z := 120.
Definition TF_a7 : Z := 168.
Definition sizeof_trapframe : Z := 288.

(** [struct proc]; other processes, open files and inodes are named by their
    index in their tables. Of the context, [ra] and [sp] are set by C code. *)
Record proc := Proc {
  p_state : procstate;
  p_chan : chan;
  p_killed : Z;
  p_xstate : Z;
  p_pid : Z;
  p_parent : option nat;
  p_kstack : Z;
  p_sz : Z;
  p_pagetable : Z;
  p_trapframe : Z;
  p_context_ra : Z;
  p_context_sp : Z;
  p_ofile : list (option nat);
  p_cwd : option nat;
  p_name : list Z;
  p_trace_mask : Z;
}.
Definition set_p_state (v : procstate) (r : proc) : proc :=
  Proc v (p_chan r) (p_killed r) (p_xstate r) (p_pid r) (p_parent r) (p_kstack r) (p_sz r) (p_pagetable r) (p_trapframe r) (p_context_ra r) (p_context_sp r) (p_ofile r) (p_cwd r) (p_name r) (p_trace_mask r).
Definition set_p_chan (v : chan) (r : proc) : proc :=
  Proc (p_state r) v (p_killed r) (p_xstate r) (p_pid r) (p_parent r) (p_kstack r) (p_sz r) (p_pagetable r) (p_trapframe r) (p_context_ra r) (p_context_sp r) (p_ofile r) (p_cwd r) (p_name r) (p_trace_mask r).
Definition set_p_killed (v : Z) (r : proc) : proc :=
  Proc (p_state r) (p_chan r) v (p_xstate r) (p_pid r) (p_parent r) (p_kstack r) (p_sz r) (p_pagetable r) (p_trapframe r) (p_context_ra r) (p_context_sp r) (p_ofile r) (p_cwd r) (p_name r) (p_trace_mask r).
Definition set_p_xstate (v : Z) (r : proc) : proc :=
  Proc (p_state r) (p_chan r) (p_killed r) v (p_pid r) (p_parent r) (p_kstack r) (p_sz r) (p_pagetable r) (p_trapframe r) (p_context_ra r) (p_context_sp r) (p_ofile r) (p_cwd r) (p_name r) (p_trace_mask r).
Definition set_p_pid (v : Z) (r : proc) : proc :=
  Proc (p_state r) (p_chan r) (p_killed r) (p_xstate r) v (p_parent r) (p_kstack r) (p_sz r) (p_pagetable r) (p_trapframe r) (p_context_ra r) (p_context_sp r) (p_ofile r) (p_cwd r) (p_name r) (p_trace_mask r).
Definition set_p_parent (v : option nat) (r : proc) : proc :=
  Proc (p_state r) (p_chan r) (p_killed r) (p_xstate r) (p_pid r) v (p_kstack r) (p_sz r) (p_pagetable r) (p_trapframe r) (p_context_ra r) (p_context_sp r) (p_ofile r) (p_cwd r) (p_name r) (p_trace_mask r).
Definition set_p_kstack (v : Z) (r : proc) : proc :=
  Proc (p_state r) (p_chan r) (p_killed r) (p_xstate r) (p_pid r) (p_parent r) v (p_sz r) (p_pagetable r) (p_trapframe r) (p_context_ra r) (p_context_sp r) (p_ofile r) (p_cwd r) (p_name r) (p_trace_mask r).
Definition set_p_sz (v : Z) (r : proc) : proc :=
  Proc (p_state r) (p_chan r) (p_killed r) (p_xstate r) (p_pid r) (p_parent r) (p_kstack r) v (p_pagetable r) (p_trapframe r) (p_context_ra r) (p_context_sp r) (p_ofile r) (p_cwd r) (p_name r) (p_trace_mask r).
Definition set_p_pagetable (v : Z) (r : proc) : proc :=
  Proc (p_state r) (p_chan r) (p_killed r) (p_xstate r) (p_pid r) (p_parent r) (p_kstack r) (p_sz r) v (p_trapframe r) (p_context_ra r) (p_context_sp r) (p_ofile r) (p_cwd r) (p_name r) (p_trace_mask r).
Definition set_p_trapframe (v : Z) (r : proc) : proc :=
  Proc (p_state r) (p_chan r) (p_killed r) (p_xstate r) (p_pid r) (p_parent r) (p_kstack r) (p_sz r) (p_pagetable r) v (p_context_ra r) (p_context_sp r) (p_ofile r) (p_cwd r) (p_name r) (p_trace_mask r).
Definition set_p_context_ra (v : Z) (r : proc) : proc :=
  Proc (p_state r) (p_chan r) (p_killed r) (p_xstate r) (p_pid r) (p_parent r) (p_kstack r) (p_sz r) (p_pagetable r) (p_trapframe r) v (p_context_sp r) (p_ofile r) (p_cwd r) (p_name r) (p_trace_mask r).
Definition set_p_context_sp (v : Z) (r : proc) : proc :=
  Proc (p_state r) (p_chan r) (p_killed r) (p_xstate r) (p_pid r) (p_parent r) (p_kstack r) (p_sz r) (p_pagetable r) (p_trapframe r) (p_context_ra r) v (p_ofile r) (p_cwd r) (p_name r) (p_trace_mask r).
Definition set_p_ofile (v : list (option nat)) (r : proc) : proc :=
  Proc (p_state r) (p_chan r) (p_killed r) (p_xstate r) (p_pid r) (p_parent r) (p_kstack r) (p_sz r) (p_pagetable r) (p_trapframe r) (p_context_ra r) (p_context_sp r) v (p_cwd r) (p_name r) (p_trace_mask r).
Definition set_p_cwd (v : option nat) (r : proc) : proc :=
  Proc (p_state r) (p_chan r) (p_killed r) (p_xstate r) (p_pid r) (p_parent r) (p_kstack r) (p_sz r) (p_pagetable r) (p_trapframe r) (p_context_ra r) (p_context_sp r) (p_ofile r) v (p_name r) (p_trace_mask r).
Definition set_p_name (v : list Z) (r : proc) : proc :=
  Proc (p_state r) (p_chan r) (p_killed r) (p_xstate r) (p_pid r) (p_parent r) (p_kstack r) (p_sz r) (p_pagetable r) (p_trapframe r) (p_context_ra r) (p_context_sp r) (p_ofile r) (p_cwd r) v (p_trace_mask r).
Definition set_p_trace_mask (v : Z) (r : proc) : proc :=
  Proc (p_state r) (p_chan r) (p_killed r) (p_xstate r) (p_pid r) (p_parent r) (p_kstack r) (p_sz r) (p_pagetable r) (p_trapframe r) (p_context_ra r) (p_context_sp r) (p_ofile r) (p_cwd r) (p_name r) v.

(** A slot of the table at boot (all of [proc] is in the bss). *)
Definition proc0 : proc :=
  Proc UNUSED ChNone 0 0 0 None 0 0 0 0 0 0 (replicate 16 None) None (replicate 16 0) 0.

Inductive filetype := FD_NONE | FD_PIPE | FD_INODE | FD_DEVICE.
#[export] Instance filetype_eq_dec : EqDecision filetype.
Proof. solve_decision. Defined.

(** [struct file] *)
Record file := File {
  fl_type : filetype;
  fl_ref : Z;
  fl_readable : Z;
  fl_writable : Z;
  fl_pipe : Z;
  fl_ip : nat;
  fl_off : Z;
  fl_major : Z;
}.
Definition set_fl_type (v : filetype) (r : file) : file :=
  File v (fl_ref r) (fl_readable r) (fl_writable r) (fl_pipe r) (fl_ip r) (fl_off r) (fl_major r).
Definition set_fl_ref (v : Z) (r : file) : file :=
  File (fl_type r) v (fl_readable r) (fl_writable r) (fl_pipe r) (fl_ip r) (fl_off r) (fl_major r).
Definition set_fl_readable (v : Z) (r : file) : file :=
  File (fl_type r) (fl_ref r) v (fl_writable r) (fl_pipe r) (fl_ip r) (fl_off r) (fl_major r).
Definition set_fl_writable (v : Z) (r : file) : file :=
  File (fl_type r) (fl_ref r) (fl_readable r) v (fl_pipe r) (fl_ip r) (fl_off r) (fl_major r).
Definition set_fl_pipe (v : Z) (r : file) : file :=
  File (fl_type r) (fl_ref r) (fl_readable r) (fl_writable r) v (fl_ip r) (fl_off r) (fl_major r).
Definition set_fl_ip (v : nat) (r : file) : file :=
  File (fl_type r) (fl_ref r) (fl_readable r) (fl_writable r) (fl_pipe r) v (fl_off r) (fl_major r).
Definition set_fl_off (v : Z) (r : file) : file :=
  File (fl_type r) (fl_ref r) (fl_readable r) (fl_writable r) (fl_pipe r) (fl_ip r) v (fl_major r).
Definition set_fl_major (v : Z) (r : file) : file :=
  File (fl_type r) (fl_ref r) (fl_readable r) (fl_writable r) (fl_pipe r) (fl_ip r) (fl_off r) v.

Definition file0 : file := File FD_NONE 0 0 0 0 0 0 0.

(** The kernel. [k_cur] is [mycpu()->proc]; [k_first] the static of
    [forkret]. *)
Record kst := Kst {
  k_mm : kmem;
  k_held : list lockid;
  k_cur : option nat;
  k_procs : list proc;
  k_nextpid : Z;
  k_initproc : option nat;
  k_fs : fsst;
  k_pipes : gmap Z pipe;
  k_ftable : list file;
  k_cons : consst;
  k_ticks : Z;
  k_first : bool;
}.
Definition set_k_mm (v : kmem) (r : kst) : kst :=
  Kst v (k_held r) (k_cur r) (k_procs r) (k_nextpid r) (k_initproc r) (k_fs r) (k_pipes r) (k_ftable r) (k_cons r) (k_ticks r) (k_first r).
Definition set_k_held (v : list lockid) (r : kst) : kst :=
  Kst (k_mm r) v (k_cur r) (k_procs r) (k_nextpid r) (k_initproc r) (k_fs r) (k_pipes r) (k_ftable r) (k_cons r) (k_ticks r) (k_first r).
Definition set_k_cur (v : option nat) (r : kst) : kst :=
  Kst (k_mm r) (k_held r) v (k_procs r) (k_nextpid r) (k_initproc r) (k_fs r) (k_pipes r) (k_ftable r) (k_cons r) (k_ticks r) (k_first r).
Definition set_k_procs (v : list proc) (r : kst) : kst :=
  Kst (k_mm r) (k_held r) (k_cur r) v (k_nextpid r) (k_initproc r) (k_fs r) (k_pipes r) (k_ftable r) (k_cons r) (k_ticks r) (k_first r).
Definition set_k_nextpid (v : Z) (r : kst) : kst :=
  Kst (k_mm r) (k_held r) (k_cur r) (k_procs r) v (k_initproc r) (k_fs r) (k_pipes r) (k_ftable r) (k_cons r) (k_ticks r) (k_first r).
Definition set_k_initproc (v : option nat) (r : kst) : kst :=
  Kst (k_mm r) (k_held r) (k_cur r) (k_procs r) (k_nextpid r) v (k_fs r) (k_pipes r) (k_ftable r) (k_cons r) (k_ticks r) (k_first r).
Definition set_k_fs (v : fsst) (r : kst) : kst :=
  Kst (k_mm r) (k_held r) (k_cur r) (k_procs r) (k_nextpid r) (k_initproc r) v (k_pipes r) (k_ftable r) (k_cons r) (k_ticks r) (k_first r).
Definition set_k_pipes (v : gmap Z pipe) (r : kst) : kst :=
  Kst (k_mm r) (k_held r) (k_cur r) (k_procs r) (k_nextpid r) (k_initproc r) (k_fs r) v (k_ftable r) (k_cons r) (k_ticks r) (k_first r).
Definition set_k_ftable (v : list file) (r : kst) : kst :=
  Kst (k_mm r) (k_held r) (k_cur r) (k_procs r) (k_nextpid r) (k_initproc r) (k_fs r) (k_pipes r) v (k_cons r) (k_ticks r) (k_first r).
Definition set_k_cons (v : consst) (r : kst) : kst :=
  Kst (k_mm r) (k_held r) (k_cur r) (k_procs r) (k_nextpid r) (k_initproc r) (k_fs r) (k_pipes r) (k_ftable r) v (k_ticks r) (k_first r).
Definition set_k_ticks (v : Z) (r : kst) : kst :=
  Kst (k_mm r) (k_held r) (k_cur r) (k_procs r) (k_nextpid r) (k_initproc r) (k_fs r) (k_pipes r) (k_ftable r) (k_cons r) v (k_first r).
Definition set_k_first (v : bool) (r : kst) : kst :=
  Kst (k_mm r) (k_held r) (k_cur r) (k_procs r) (k_nextpid r) (k_initproc r) (k_fs r) (k_pipes r) (k_ftable r) (k_cons r) (k_ticks r) v.

#[export] Instance kst_mm : HasState kst kmem := Lens k_mm set_k_mm.
#[export] Instance kst_fs : HasState kst fsst := Lens k_fs set_k_fs.
#[export] Instance kst_pipes : HasState kst (gmap Z pipe) := Lens k_pipes set_k_pipes.
#[export] Instance kst_cons : HasState kst consst := Lens k_cons set_k_cons.

(** Memory code inside the kernel. *)
Definition vm {A} (m : M kmem A) : M kst A := zoom (Lens k_mm set_k_mm) m.

Definition proc_at (p : nat) (s : kst) : proc := default proc0 (k_procs s !! p).
Definition mod_proc (p : nat) (g : proc → proc) (s : kst) : kst :=
  set_k_procs (alter g p (k_procs s)) s.

Definition pget {A} (p : nat) (f : proc → A) : M kst A := gets (λ s, f (proc_at p s)).
Definition pupd (p : nat) (g : proc → proc) : M kst unit := modify (mod_proc p g).

(** Loops around [sleep] are followed for [max_wakeups] wake-ups; theorems
    hold for every bound. *)
Class Wakeups := max_wakeups : nat.

(** The slots of the process table. *)
Definition slots : list nat := seq 0 (Z.to_nat NPROC).

Section kernel.
  Context {LK : Link} {WK : Wakeups}.

Definition acquire_k : lockid → M kst unit := held_acquire k_held set_k_held.
Definition release_k : lockid → M kst unit := held_release k_held set_k_held.

(** [myproc()], and its use by code that follows the pointer. *)
Definition myproc : M kst (option nat) := gets k_cur.
Definition curproc : M kst nat :=
  o ← myproc;
  match o with Some p => ret p | None => panic "null pointer" end.

(** [swtch(&p->context, &mycpu()->context)]: the scheduler goes on with the
    state; the process goes on when it is switched to again. *)
Definition swtch : M kst unit := λ s, Swtch s (λ s', Ok tt s').

(** With a lock held interrupts are off, which is what [intr_get] checks. *)
Definition sched : M kst unit :=
  p ← curproc;
  h ← gets (λ s, bool_decide (Lproc p ∈ k_held s));
  if negb h then panic "sched p->lock" else
  noff ← gets (λ s, Z.of_nat (length (k_held s)));
  if negb (noff =? 1) then panic "sched locks" else
  st ← pget p p_state;
  if bool_decide (st = RUNNING) then panic "sched running" else
  swtch.

Definition yield : M kst unit :=
  p ← curproc;
  acquire_k (Lproc p) ;;
  pupd p (set_p_state RUNNABLE) ;;
  sched ;;
  release_k (Lproc p).

Definition sleep_k (c : chan) (lk : lockid) : M kst unit :=
  p ← curproc;
  acquire_k (Lproc p) ;;
  release_k lk ;;
  pupd p (set_p_chan c) ;;
  pupd p (set_p_state SLEEPING) ;;
  sched ;;
  pupd p (set_p_chan ChNone) ;;
  release_k (Lproc p) ;;
  acquire_k lk.

Definition wakeup_k (c : chan) : M kst unit :=
  mfor slots (λ p,
    me ← myproc;
    if bool_decide (me = Some p) then ret tt
    else
      acquire_k (Lproc p) ;;
      b ← pget p (λ pr, bool_decide (p_state pr = SLEEPING ∧ p_chan pr = c));
      (if b : bool then pupd p (set_p_state RUNNABLE) else ret tt) ;;
      release_k (Lproc p)).

Definition killed (p : nat) : M kst Z :=
  acquire_k (Lproc p) ;;
  k ← pget p p_killed;
  release_k (Lproc p) ;;
  ret k.

Definition setkilled (p : nat) : M kst unit :=
  acquire_k (Lproc p) ;;
  pupd p (set_p_killed 1) ;;
  release_k (Lproc p).

(** [copyout(p->pagetable, ...)] and [copyin] for the running process. *)
Definition ucopyout_k (va : Z) (l : list Z) : M kst Z :=
  p ← curproc;
  pt ← pget p p_pagetable;
  vm (copyout pt va l (Z.of_nat (length l))).

Definition ucopyin_k (va n : Z) : M kst (Z * list Z) :=
  p ← curproc;
  pt ← pget p p_pagetable;
  vm (copyin pt va n).

#[export] Instance kst_ops : KernelOps kst := {|
  acquire := acquire_k;
  release := release_k;
  sleep := sleep_k;
  wakeup := wakeup_k;
  mypid := p ← curproc; pget p p_pid;
  mykilled := p ← curproc; k ← killed p; ret (nonzero k);
  ucopyout := ucopyout_k;
  ucopyin := ucopyin_k;
  mycwd := p ← curproc;
    o ← pget p p_cwd;
    match o with Some i => ret i | None => panic "null pointer" end;
  wakeups := max_wakeups;
|}.
End kernel.
