(* ===== verification/KstateLaws.v ===== *)
(** * The kernel keeps its promises to its components

    [wakeup] as a function on the process table, and the laws of [KernelOps]
    for the whole kernel: a theorem that a component's code returns when run
    by a process on its own holds in the kernel too. *)

From S2P Require Import Base Riscv Kalloc Kernel Pipe Console FsState Kstate.
Local Open Scope Z_scope.
Local Open Scope kernel_scope.

Lemma alter_fix {A} (f : A → A) i (l : list A) :
  (∀ x, l !! i = Some x → f x = x) → alter f i l = l.
Proof.
  intros H. apply list_eq. intros j. destruct (decide (i = j)) as [->|Hj].
  - rewrite list_lookup_alter_eq. destruct (l !! j) as [x|] eqn:E; [|done]. simpl. by rewrite H.
  - by rewrite list_lookup_alter_ne.
Qed.

Lemma alter_alter {A} (f g : A → A) i (l : list A) : alter f i (alter g i l) = alter (f ∘ g) i l.
Proof.
  apply list_eq. intros j. destruct (decide (i = j)) as [->|Hj].
  - rewrite !list_lookup_alter_eq. by destruct (l !! j).
  - by rewrite !list_lookup_alter_ne.
Qed.

(** What [wakeup] does to a process that is not the caller. *)
Definition woken (c : chan) (pr : proc) : proc :=
  if bool_decide (p_state pr = SLEEPING ∧ p_chan pr = c) then set_p_state RUNNABLE pr else pr.

(** [procs'] is [procs] after [wakeup c] by process [me]. *)
Definition all_woken (c : chan) (me : option nat) (procs : list proc) : list proc :=
  imap (λ i pr, if bool_decide (me = Some i) then pr else woken c pr) procs.

Section laws.
  Context {LK : Link} {WK : Wakeups}.
  Implicit Types (s : kst) (p : nat).

Lemma acquire_k_ok l s : l ∉ k_held s → acquire_k l s = Ok tt (set_k_held (l :: k_held s) s).
Proof. intros Hl. unfold acquire_k, held_acquire. by rewrite decide_False. Qed.

Lemma release_k_ok l s :
  l ∈ k_held s → release_k l s = Ok tt (set_k_held (drop_lock l (k_held s)) s).
Proof. intros Hl. unfold release_k, held_release. by rewrite decide_True. Qed.

Lemma release_k_top l h s :
  k_held s = l :: h → release_k l s = Ok tt (set_k_held h s).
Proof.
  intros E. rewrite release_k_ok; rewrite E; [|by left]. simpl. by rewrite decide_True.
Qed.

Lemma bind_pget {A B} p (f : proc → A) (k : A → M kst B) s :
  bind (pget p f) k s = k (f (proc_at p s)) s.
Proof. done. Qed.
Lemma bind_pupd {B} p g (k : unit → M kst B) s : bind (pupd p g) k s = k tt (mod_proc p g s).
Proof. done. Qed.
Lemma bind_myproc {B} (k : option nat → M kst B) s : bind myproc k s = k (k_cur s) s.
Proof. done. Qed.
Lemma bind_curproc {B} p (k : nat → M kst B) s : k_cur s = Some p → bind curproc k s = k p s.
Proof. intros E. unfold curproc. unfold bind, myproc, gets. simpl. by rewrite E. Qed.
Lemma bind_acquire_k {B} l (k : unit → M kst B) s :
  l ∉ k_held s → bind (acquire_k l) k s = k tt (set_k_held (l :: k_held s) s).
Proof. intros. by erewrite bind_ok by (by apply acquire_k_ok). Qed.
Lemma bind_release_k {B} l h (k : unit → M kst B) s :
  k_held s = l :: h → bind (release_k l) k s = k tt (set_k_held h s).
Proof. intros. by erewrite bind_ok by (by apply release_k_top). Qed.

Lemma proc_at_mod p g s : (p < length (k_procs s))%nat → proc_at p (mod_proc p g s) = g (proc_at p s).
Proof.
  intros Hp. unfold proc_at, mod_proc. simpl. rewrite list_lookup_alter_eq.
  destruct (lookup_lt_is_Some_2 _ _ Hp) as [x ->]. done.
Qed.

Lemma proc_at_mod_ne p q g s : p ≠ q → proc_at q (mod_proc p g s) = proc_at q s.
Proof. intros Hp. unfold proc_at, mod_proc. simpl. by rewrite list_lookup_alter_ne. Qed.

Lemma proc_at_held p h s : proc_at p (set_k_held h s) = proc_at p s.
Proof. done. Qed.

(** ** wakeup *)

(** One turn of its loop. *)
Lemma wakeup_slot c p s :
  Lproc p ∉ k_held s →
  (me ← myproc;
   if bool_decide (me = Some p) then ret tt
   else
     acquire_k (Lproc p) ;;
     b ← pget p (λ pr, bool_decide (p_state pr = SLEEPING ∧ p_chan pr = c));
     (if b : bool then pupd p (set_p_state RUNNABLE) else ret tt) ;;
     release_k (Lproc p)) s =
  Ok tt (if bool_decide (k_cur s = Some p) then s else mod_proc p (woken c) s).
Proof.
  intros Hl. rewrite bind_myproc. case_bool_decide; [done|].
  rewrite bind_acquire_k, bind_pget, proc_at_held by done.
  set (b := bool_decide _).
  assert (E : mod_proc p (woken c) s =
    if b then mod_proc p (set_p_state RUNNABLE) s else s).
  { unfold mod_proc. destruct s as [mm h cur procs np ip fs pp ft co ti fi]. cbn.
    destruct (procs !! p) as [pr|] eqn:Ep.
    - assert (Eb : b = bool_decide (p_state pr = SLEEPING ∧ p_chan pr = c))
        by (unfold b, proc_at; cbn; by rewrite Ep).
      destruct b.
      + f_equal. apply list_alter_ext; [|done]. intros x Hx. rewrite Ep in Hx. injection Hx as <-.
        unfold woken. by rewrite <- Eb.
      + unfold set_k_procs. cbn. f_equal. apply alter_fix. rewrite Ep. intros x [= <-].
        unfold woken. by rewrite <- Eb.
    - assert (Eb : b = false) by (unfold b, proc_at; cbn; by rewrite Ep). rewrite Eb.
      unfold set_k_procs. cbn. f_equal. apply alter_fix. by rewrite Ep. }
  rewrite E. destruct b.
  - rewrite bind_pupd. rewrite (release_k_top _ (k_held s)) by done. by destruct s.
  - rewrite bind_ret, (release_k_top _ (k_held s)) by done. by destruct s.
Qed.

(** The table after the slots [l] have been visited. *)
Definition wake_slots (c : chan) (me : option nat) (l : list nat) (procs : list proc) : list proc :=
  foldl (λ procs p, if bool_decide (me = Some p) then procs else alter (woken c) p procs) procs l.

Lemma wake_slots_ok c l s :
  (∀ i, Lproc i ∉ k_held s) →
  mfor l (λ p,
    me ← myproc;
    if bool_decide (me = Some p) then ret tt
    else
      acquire_k (Lproc p) ;;
      b ← pget p (λ pr, bool_decide (p_state pr = SLEEPING ∧ p_chan pr = c));
      (if b : bool then pupd p (set_p_state RUNNABLE) else ret tt) ;;
      release_k (Lproc p)) s =
  Ok tt (set_k_procs (wake_slots c (k_cur s) l (k_procs s)) s).
Proof.
  revert s. induction l as [|p l IH]; intros s Hl; cbn [mfor]; [by destruct s|].
  rewrite (bind_ok _ _ _ _ _ (wakeup_slot c p s (Hl p))).
  rewrite IH; [|by case_bool_decide]. cbn [wake_slots foldl].
  case_bool_decide; [done|]. done.
Qed.

Lemma woken_idem c pr : woken c (woken c pr) = woken c pr.
Proof. unfold woken. repeat case_bool_decide; naive_solver. Qed.

Lemma lookup_wake_slots c me l procs i :
  wake_slots c me l procs !! i =
    (λ pr, if bool_decide (me ≠ Some i ∧ i ∈ l) then woken c pr else pr) <$> procs !! i.
Proof.
  revert procs. induction l as [|p l IH]; intros procs; cbn [wake_slots foldl].
  - rewrite bool_decide_false by (rewrite elem_of_nil; tauto). by destruct (procs !! i).
  - change (foldl _ ?x l) with (wake_slots c me l x). rewrite IH.
    destruct (decide (me = Some p)) as [Hp|Hp].
    + rewrite (bool_decide_true _ Hp). destruct (procs !! i) as [pr|]; [|done]. simpl. f_equal.
      rewrite (bool_decide_ext (me ≠ Some i ∧ i ∈ p :: l) (me ≠ Some i ∧ i ∈ l)); [done|].
      rewrite elem_of_cons. naive_solver.
    + rewrite (bool_decide_false _ Hp). destruct (decide (i = p)) as [->|Hi].
      * rewrite list_lookup_alter_eq. destruct (procs !! p) as [pr|]; [|done]. simpl. f_equal.
        rewrite (bool_decide_true (me ≠ Some p ∧ p ∈ p :: l)) by (split; [done|by left]).
        case_bool_decide; [apply woken_idem | done].
      * rewrite list_lookup_alter_ne by done. destruct (procs !! i) as [pr|]; [|done]. simpl. f_equal.
        rewrite (bool_decide_ext (me ≠ Some i ∧ i ∈ p :: l) (me ≠ Some i ∧ i ∈ l)); [done|].
        rewrite elem_of_cons. naive_solver.
Qed.

(** [wakeup] makes runnable exactly the processes that sleep on the channel,
    the caller excepted. *)
Lemma wakeup_k_ok c s :
  (∀ i, Lproc i ∉ k_held s) → length (k_procs s) = Z.to_nat NPROC →
  wakeup_k c s = Ok tt (set_k_procs (all_woken c (k_cur s) (k_procs s)) s).
Proof.
  intros Hl Hn. unfold wakeup_k. rewrite wake_slots_ok by done. do 2 f_equal.
  apply list_eq. intros i. rewrite lookup_wake_slots. unfold all_woken. rewrite list_lookup_imap.
  destruct (k_procs s !! i) as [pr|] eqn:E; [|done]. simpl. f_equal.
  apply lookup_lt_Some in E. case_bool_decide as H1; case_bool_decide as H2; try done; exfalso; [tauto|].
  apply H1. split; [done|]. unfold slots. apply elem_of_seq. lia.
Qed.

Lemma all_woken_length c me procs : length (all_woken c me procs) = length procs.
Proof. apply length_imap. Qed.

Lemma all_woken_me c me i procs : me = Some i → all_woken c me procs !! i = procs !! i.
Proof.
  intros ->. unfold all_woken. rewrite list_lookup_imap. destruct (procs !! i); [|done]. simpl.
  by rewrite bool_decide_true.
Qed.

(** ** Giving up the CPU *)
Lemma sched_ok p s :
  k_cur s = Some p → k_held s = [Lproc p] → p_state (proc_at p s) ≠ RUNNING →
  sched s = Swtch s (λ s', Ok tt s').
Proof.
  intros Hc Hh Hst. unfold sched. rewrite (bind_curproc p), bind_gets, Hh by done.
  rewrite bool_decide_true by left. cbn [negb]. rewrite bind_gets, Hh. cbn [length].
  change (negb (Z.of_nat 1 =? 1)) with false. cbv iota. rewrite bind_pget.
  by rewrite bool_decide_false.
Qed.

(** [yield]: the process is runnable when it gives up the CPU. *)
Lemma yield_ok p s :
  k_cur s = Some p → k_held s = [] → (p < length (k_procs s))%nat →
  ∃ k, yield s = Swtch (set_k_held [Lproc p] (mod_proc p (set_p_state RUNNABLE) s)) k.
Proof.
  intros Hc Hh Hp. unfold yield.
  rewrite (bind_curproc p), bind_acquire_k by (done || (rewrite Hh; apply not_elem_of_nil)).
  rewrite bind_pupd. unfold bind. rewrite (sched_ok p); [|done|cbn; by rewrite Hh|].
  - cbn [res_bind]. eexists. rewrite Hh. reflexivity.
  - change (proc_at p _) with (proc_at p (mod_proc p (set_p_state RUNNABLE) s)).
    by rewrite proc_at_mod.
Qed.

(** ** The laws *)

(** A process runs. *)
Definition running (s : kst) : Prop :=
  length (k_procs s) = Z.to_nat NPROC ∧ ∃ p, k_cur s = Some p ∧ (p < length (k_procs s))%nat.

Definition cur_proc (s : kst) : proc := default proc0 (k_cur s ≫= λ p, k_procs s !! p).

Section component.
  Context {T : Type} (l : lens kst T).
  (** The component's state is apart from the process table and the locks. *)
  Context (Lget_put : ∀ t s, lget l (lput l t s) = t)
    (Lheld : ∀ t s, k_held (lput l t s) = k_held s) (Lcur : ∀ t s, k_cur (lput l t s) = k_cur s)
    (Lprocs : ∀ t s, k_procs (lput l t s) = k_procs s)
    (Gheld : ∀ h s, lget l (set_k_held h s) = lget l s)
    (Gprocs : ∀ ps s, lget l (set_k_procs ps s) = lget l s).

Definition kview (s : kst) : solo T :=
  SoloK (lget l s) (k_held s) (p_pid (cur_proc s)) (nonzero (p_killed (cur_proc s))).

Definition kst_laws : @KernelLaws kst T kst_ops l.
Proof using Gheld Gprocs Lcur Lget_put Lheld Lprocs.
  refine {| view := kview; in_proc := running |}.
  - done.
  - intros t s Hr. unfold kview, running, cur_proc. by rewrite Lget_put, Lheld, Lcur, Lprocs.
  - intros lk s Hr Hl. eexists. split; [by apply acquire_k_ok|]. split; [|done].
    unfold kview. by rewrite Gheld.
  - intros lk s Hr Hl. eexists. split; [by apply release_k_ok|]. split; [|done].
    unfold kview. by rewrite Gheld.
  - intros c s (Hn & p & Hp & Hlt) Hl. eexists. split; [by apply wakeup_k_ok|]. split.
    + unfold kview, cur_proc. rewrite Gprocs. cbn. rewrite Hp. simpl. by rewrite all_woken_me.
    + split; cbn; rewrite all_woken_length; [done|]. by exists p.
  - intros s (Hn & p & Hp & Hlt).
    change (mypid s) with ((p ← curproc; pget p p_pid) s). rewrite (bind_curproc p) by done.
    unfold pget, gets, kview, cur_proc, proc_at. cbn. by rewrite Hp.
  - intros s (Hn & p & Hp & Hlt) Hl. exists s. split; [|split; [done | by split; [|exists p]]].
    change (mykilled s) with ((p ← curproc; k ← killed p; ret (nonzero k)) s).
    rewrite (bind_curproc p) by done. unfold killed.
    unfold bind at 1. rewrite bind_acquire_k, bind_pget, proc_at_held by apply Hl.
    rewrite (bind_release_k _ (k_held s)) by done. cbn.
    unfold kview, cur_proc, proc_at. cbn. rewrite Hp. by destruct s.
Defined.
End component.

#[export] Instance laws_fs : KernelLaws kst fsst.
Proof. by apply (kst_laws (Lens k_fs set_k_fs)). Defined.
#[export] Instance laws_pipes : KernelLaws kst (gmap Z pipe).
Proof. by apply (kst_laws (Lens k_pipes set_k_pipes)). Defined.
#[export] Instance laws_cons : KernelLaws kst consst.
Proof. by apply (kst_laws (Lens k_cons set_k_cons)). Defined.
End laws.
