(* ===== verification/Proc.v ===== *)
(** * The process table ([kernel/proc.c])

    Allocation and release of table slots with their trapframe and page
    table, memory growth, [kill], the counts and listings of the table, and
    the scheduler.  [fork], [exit] and [wait], which also work on open files,
    are in [Life]. *)

From S2P Require Import Base Riscv Mem Kstring Kalloc Vm Kernel Pipe Console Printf FsState Fs Kstate.
Local Open Scope Z_scope.
Local Open Scope kernel_scope.

(** [safestrcpy(s, t, n)] on an array [s]; [n] is at least 1. *)
Fixpoint safestrcpy_array (s t : list Z) (n : nat) : list Z :=
  match n, s with
  | S (S n), x :: s =>
      let c := hd 0 t in
      if c =? 0 then 0 :: 0 :: tl s else c :: safestrcpy_array s (tl t) (S n)
  | _, x :: s => 0 :: s
  | _, [] => []
  end.

Definition initcode : list Z := [
  0x17; 0x05; 0x00; 0x00; 0x13; 0x05; 0x45; 0x02;
  0x97; 0x05; 0x00; 0x00; 0x93; 0x85; 0x35; 0x02;
  0x93; 0x08; 0x70; 0x00; 0x73; 0x00; 0x00; 0x00;
  0x93; 0x08; 0x20; 0x00; 0x73; 0x00; 0x00; 0x00;
  0xef; 0xf0; 0x9f; 0xff; 0x2f; 0x69; 0x6e; 0x69;
  0x74; 0x00; 0x00; 0x24; 0x00; 0x00; 0x00; 0x00;
  0x00; 0x00; 0x00; 0x00].

Section proc.
  Context {LK : Link} {WK : Wakeups}.

Definition procinit : M kst unit :=
  mfor slots (λ p,
    pupd p (set_p_state UNUSED) ;;
    pupd p (set_p_kstack (KSTACK (Z.of_nat p)))).

Definition allocpid : M kst Z :=
  acquire Lpid ;;
  pid ← gets k_nextpid;
  modify (set_k_nextpid (i32 (pid + 1))) ;;
  release Lpid ;;
  ret pid.

(** ** Page tables of processes *)
Definition proc_pagetable (p : nat) : M kst Z :=
  pagetable ← vm uvmcreate;
  if pagetable =? 0 then ret 0 else
  r ← vm (mappages pagetable TRAMPOLINE PGSIZE trampoline (Z.lor PTE_R PTE_X));
  if r <? 0 then
    vm (uvmfree pagetable 0) ;;
    ret 0
  else
  tf ← pget p p_trapframe;
  r ← vm (mappages pagetable TRAPFRAME PGSIZE tf (Z.lor PTE_R PTE_W));
  if r <? 0 then
    vm (uvmunmap pagetable TRAMPOLINE 1 false) ;;
    vm (uvmfree pagetable 0) ;;
    ret 0
  else ret pagetable.

Definition proc_freepagetable (pagetable sz : Z) : M kst unit :=
  vm (uvmunmap pagetable TRAMPOLINE 1 false) ;;
  vm (uvmunmap pagetable TRAPFRAME 1 false) ;;
  vm (uvmfree pagetable sz).

(** ** Slots *)
Definition freeproc (p : nat) : M kst unit :=
  tf ← pget p p_trapframe;
  (if nonzero tf then vm (kfree tf) else ret tt) ;;
  pupd p (set_p_trapframe 0) ;;
  pt ← pget p p_pagetable;
  sz ← pget p p_sz;
  (if nonzero pt then proc_freepagetable pt sz else ret tt) ;;
  pupd p (set_p_pagetable 0) ;;
  pupd p (set_p_sz 0) ;;
  pupd p (set_p_pid 0) ;;
  pupd p (set_p_parent None) ;;
  pupd p (λ pr, set_p_name (<[0%nat := 0]> (p_name pr)) pr) ;;
  pupd p (set_p_chan ChNone) ;;
  pupd p (set_p_killed 0) ;;
  pupd p (set_p_xstate 0) ;;
  pupd p (set_p_state UNUSED).

(** The search for an unused slot; its lock is held when one is found. *)
Fixpoint allocproc_scan (l : list nat) : M kst (option nat) :=
  match l with
  | [] => ret None
  | p :: l =>
      acquire (Lproc p) ;;
      st ← pget p p_state;
      if bool_decide (st = UNUSED) then ret (Some p)
      else
        release (Lproc p) ;;
        allocproc_scan l
  end.

Definition allocproc_found (p : nat) : M kst (option nat) :=
  pid ← allocpid;
  pupd p (set_p_pid pid) ;;
  pupd p (set_p_state USED) ;;
  tf ← vm kalloc;
  pupd p (set_p_trapframe tf) ;;
  if tf =? 0 then
    freeproc p ;;
    release (Lproc p) ;;
    ret None
  else
  pt ← proc_pagetable p;
  pupd p (set_p_pagetable pt) ;;
  if pt =? 0 then
    freeproc p ;;
    release (Lproc p) ;;
    ret None
  else
  pupd p (set_p_context_ra forkret_addr) ;;
  pupd p (λ pr, set_p_context_sp (u64 (p_kstack pr + PGSIZE)) pr) ;;
  ret (Some p).

Definition allocproc : M kst (option nat) :=
  o ← allocproc_scan slots;
  match o with
  | None => ret None
  | Some p => allocproc_found p
  end.

(** ** The first process *)
Definition userinit : M kst unit :=
  o ← allocproc;
  modify (set_k_initproc o) ;;
  match o with
  | None => panic "null pointer"
  | Some p =>
      pt ← pget p p_pagetable;
      vm (uvmfirst pt initcode (Z.of_nat (length initcode))) ;;
      pupd p (set_p_sz PGSIZE) ;;
      tf ← pget p p_trapframe;
      vm (kwrite64 (tf + TF_epc) 0) ;;
      vm (kwrite64 (tf + TF_sp) PGSIZE) ;;
      pupd p (λ pr, set_p_name (safestrcpy_array (p_name pr) (bytes_of "initcode") 16) pr) ;;
      cwd ← namei [47];
      pupd p (set_p_cwd cwd) ;;
      pupd p (set_p_state RUNNABLE) ;;
      release (Lproc p)
  end.

(** ** Memory of the running process *)
Definition growproc (n : Z) : M kst Z :=
  p ← curproc;
  sz ← pget p p_sz;
  pt ← pget p p_pagetable;
  if n >? 0 then
    r ← vm (uvmalloc pt sz (u64 (sz + n)) PTE_W);
    if r =? 0 then ret (-1)
    else pupd p (set_p_sz r) ;; ret 0
  else if n <? 0 then
    r ← vm (uvmdealloc pt sz (u64 (sz + n)));
    pupd p (set_p_sz r) ;;
    ret 0
  else
    pupd p (set_p_sz sz) ;;
    ret 0.

(** ** kill *)
Fixpoint kill_loop (l : list nat) (pid : Z) : M kst Z :=
  match l with
  | [] => ret (-1)
  | p :: l =>
      acquire (Lproc p) ;;
      q ← pget p p_pid;
      if q =? pid then
        pupd p (set_p_killed 1) ;;
        st ← pget p p_state;
        (if bool_decide (st = SLEEPING) then pupd p (set_p_state RUNNABLE) else ret tt) ;;
        release (Lproc p) ;;
        ret 0
      else
        release (Lproc p) ;;
        kill_loop l pid
  end.

Definition kill (pid : Z) : M kst Z := kill_loop slots pid.

(** ** Counting and listing *)
Definition getnproc : M kst Z :=
  mfold slots (λ n p,
    acquire (Lproc p) ;;
    st ← pget p p_state;
    release (Lproc p) ;;
    ret (if bool_decide (st = UNUSED) then n else n + 1)) 0.

(** [states[]] of [procdump]. *)
Definition state_name (st : procstate) : list Z :=
  bytes_of match st with
           | UNUSED => "unused" | USED => "used" | SLEEPING => "sleep "
           | RUNNABLE => "runble" | RUNNING => "run   " | ZOMBIE => "zombie"
           end.

Definition procdump : M kst unit :=
  printf [10] [] ;;
  mfor slots (λ p,
    pr ← pget p id;
    if bool_decide (p_state pr = UNUSED) then ret tt
    else
      printf (bytes_of "%d %s %s")
        [AInt (p_pid pr); AStr (Some (state_name (p_state pr))); AStr (Some (cstr (p_name pr)))] ;;
      printf [10] []).
End proc.
