(* ===== verification/File.v ===== *)
(** * Open files and the ends of pipes ([kernel/file.c], [kernel/pipe.c])

    The table of open files with its reference counts, reading and writing
    through it, and [pipealloc] and [pipeclose], which connect a page of
    memory with two open files.  A file is named by its index in [ftable].
    Of the devices only the console is in [devsw] ([consoleinit]). *)

From S2P Require Import Base Riscv Mem Kalloc Vm Kernel Pipe Console FsState Bio Log Fs Kstate.
Local Open Scope Z_scope.
Local Open Scope kernel_scope.

Definition CONSOLE : Z := 1.

Definition file_at (f : nat) (s : kst) : file := default file0 (k_ftable s !! f).
Definition fget {A} (f : nat) (g : file → A) : M kst A := gets (λ s, g (file_at f s)).
Definition fupd (f : nat) (g : file → file) : M kst unit :=
  modify (λ s, set_k_ftable (alter g f (k_ftable s)) s).

(** [sizeof(struct stat)] is 24: four bytes of padding precede the size. They
    are whatever is on the kernel stack, [pad]. *)
Definition stat_bytes (pad : list Z) (st : stat) : list Z :=
  le_bytes 4 (st_dev st) ++ le_bytes 4 (st_ino st) ++ le_bytes 2 (st_type st) ++
  le_bytes 2 (st_nlink st) ++ take 4 (pad ++ replicate 4 0) ++ le_bytes 8 (st_size st).

Section file.
  Context {LK : Link} {WK : Wakeups}.

Definition consoleinit : M kst unit := uartinit.

Fixpoint filealloc_loop (l : list nat) : M kst (option nat) :=
  match l with
  | [] =>
      release Lftable ;;
      ret None
  | f :: l =>
      ref ← fget f fl_ref;
      if ref =? 0 then
        fupd f (set_fl_ref 1) ;;
        release Lftable ;;
        ret (Some f)
      else filealloc_loop l
  end.

Definition filealloc : M kst (option nat) :=
  acquire Lftable ;;
  filealloc_loop (seq 0 (Z.to_nat NFILE)).

Definition filedup (f : nat) : M kst nat :=
  acquire Lftable ;;
  ref ← fget f fl_ref;
  if ref <? 1 then panic "filedup" else
  fupd f (set_fl_ref (ref + 1)) ;;
  release Lftable ;;
  ret f.

(** ** Ends of pipes *)

(** Once both ends are closed the page is given back. *)
Definition pipeclose (pi writable : Z) : M kst unit :=
  acquire (Lpipe pi) ;;
  (if nonzero writable then
     pipe_upd pi (set_pi_writeopen 0) ;;
     wakeup (ChPipeRead pi)
   else
     pipe_upd pi (set_pi_readopen 0) ;;
     wakeup (ChPipeWrite pi)) ;;
  closed ← pipe_get pi (λ p, (pi_readopen p =? 0) && (pi_writeopen p =? 0));
  if closed : bool then
    release (Lpipe pi) ;;
    upd (λ t : gmap Z pipe, delete pi t) ;;
    vm (kfree pi)
  else release (Lpipe pi).

Definition fileclose (f : nat) : M kst unit :=
  acquire Lftable ;;
  ref ← fget f fl_ref;
  if ref <? 1 then panic "fileclose" else
  fupd f (set_fl_ref (ref - 1)) ;;
  if ref - 1 >? 0 then release Lftable else
  ff ← fget f id;
  fupd f (set_fl_ref 0) ;;
  fupd f (set_fl_type FD_NONE) ;;
  release Lftable ;;
  match fl_type ff with
  | FD_PIPE => pipeclose (fl_pipe ff) (fl_writable ff)
  | FD_INODE | FD_DEVICE =>
      begin_op ;;
      iput (fl_ip ff) ;;
      end_op
  | FD_NONE => ret tt
  end.

(** The error exit of [pipealloc]; the pipe is the last thing allocated, so
    that there is none to free. *)
Definition pipealloc_bad (f0 f1 : option nat) : M kst (option (nat * nat)) :=
  match f0 with Some f => fileclose f | None => ret tt end ;;
  match f1 with Some f => fileclose f | None => ret tt end ;;
  ret None.

(** The contents of a fresh page are the allocator's junk. *)
Definition fresh_pipe : pipe := Pipe (replicate 512 5) 0 0 1 1.

Definition pipealloc : M kst (option (nat * nat)) :=
  o0 ← filealloc;
  match o0 with
  | None => pipealloc_bad None None
  | Some f0 =>
      o1 ← filealloc;
      match o1 with
      | None => pipealloc_bad (Some f0) None
      | Some f1 =>
          pi ← vm kalloc;
          if pi =? 0 then pipealloc_bad (Some f0) (Some f1)
          else
            upd (λ t : gmap Z pipe, <[pi := fresh_pipe]> t) ;;
            fupd f0 (λ x, set_fl_pipe pi (set_fl_writable 0 (set_fl_readable 1 (set_fl_type FD_PIPE x)))) ;;
            fupd f1 (λ x, set_fl_pipe pi (set_fl_writable 1 (set_fl_readable 0 (set_fl_type FD_PIPE x)))) ;;
            ret (Some (f0, f1))
      end
  end.

(** ** Reading and writing *)

(** [pad] is what the kernel stack holds in the padding of [st]. *)
Definition filestat (pad : list Z) (f : nat) (addr : Z) : M kst Z :=
  x ← fget f id;
  match fl_type x with
  | FD_INODE | FD_DEVICE =>
      ilock (fl_ip x) ;;
      st ← stati (fl_ip x);
      iunlock (fl_ip x) ;;
      r ← ucopyout addr (stat_bytes pad st);
      ret (if r <? 0 then -1 else 0)
  | _ => ret (-1)
  end.

Definition fileread (f : nat) (addr n : Z) : M kst Z :=
  x ← fget f id;
  if fl_readable x =? 0 then ret (-1) else
  match fl_type x with
  | FD_PIPE => piperead (fl_pipe x) addr n
  | FD_DEVICE =>
      if (fl_major x <? 0) || (fl_major x >=? NDEV) || negb (fl_major x =? CONSOLE) then ret (-1)
      else
        ' (r, _) ← consoleread true addr n;
        ret r
  | FD_INODE =>
      ilock (fl_ip x) ;;
      ' (r, _) ← readi (fl_ip x) true addr (fl_off x) (u32 n);
      let r := i32 r in
      (if r >? 0 then fupd f (λ x, set_fl_off (u32 (fl_off x + r)) x) else ret tt) ;;
      iunlock (fl_ip x) ;;
      ret r
  | FD_NONE => panic "fileread"
  end.

(** At most this many bytes are written in one transaction. *)
Definition filewrite_max : Z := ((MAXOPBLOCKS - 1 - 1 - 2) / 2) * BSIZE.

Fixpoint filewrite_loop (fuel : nat) (f ip : nat) (addr n i : Z) : M kst Z :=
  match fuel with
  | O => diverge
  | Datatypes.S fuel =>
      if i <? n then
        let n1 := if n - i >? filewrite_max then filewrite_max else n - i in
        begin_op ;;
        ilock ip ;;
        off ← fget f fl_off;
        r ← writei ip (FromUser (u64 (addr + i))) off (u32 n1);
        (if r >? 0 then fupd f (λ x, set_fl_off (u32 (fl_off x + r)) x) else ret tt) ;;
        iunlock ip ;;
        end_op ;;
        if negb (r =? n1) then ret i
        else filewrite_loop fuel f ip addr n (i + r)
      else ret i
  end.

Definition filewrite (f : nat) (addr n : Z) : M kst Z :=
  x ← fget f id;
  if fl_writable x =? 0 then ret (-1) else
  match fl_type x with
  | FD_PIPE => pipewrite (fl_pipe x) addr n
  | FD_DEVICE =>
      if (fl_major x <? 0) || (fl_major x >=? NDEV) || negb (fl_major x =? CONSOLE) then ret (-1)
      else consolewrite (FromUser addr) n
  | FD_INODE =>
      i ← filewrite_loop (Datatypes.S (Z.to_nat n)) f (fl_ip x) addr n 0;
      ret (if i =? n then n else -1)
  | FD_NONE => panic "filewrite"
  end.
End file.
