(* ===== verification/Life.v ===== *)
(** * The life of a process ([kernel/proc.c]: fork, exit, wait)

    [fork] copies a process, [exit] closes its files and leaves a zombie,
    [wait] collects it.  They hold [wait_lock] around every change of
    [p->parent], which is what makes the wake-up of a waiting parent
    reliable. *)

From S2P Require Import Base Riscv Mem Kalloc Vm Kernel Pipe Console FsState Log Fs Kstate Proc File.
Local Open Scope Z_scope.
Local Open Scope kernel_scope.

(** The file descriptors of a process. *)
Definition fds : list nat := seq 0 (Z.to_nat NOFILE).

(** A process as a sleep channel; the null pointer is [chan] 0. *)
Definition proc_chan (o : option nat) : chan :=
  match o with Some p => ChProc p | None => ChNone end.

Definition ofile_at (fd : nat) (pr : proc) : option nat := default None (p_ofile pr !! fd).

Section life.
  Context {LK : Link} {WK : Wakeups}.

(** [*(np->trapframe) = *(p->trapframe);] *)
Definition copy_trapframe (dst src : Z) : M kst unit :=
  vm (modify (λ m, set_ram (store_bytes (ram m) dst (load_bytes (ram m) src (Z.to_nat sizeof_trapframe))) m)).

Definition fork : M kst Z :=
  p ← curproc;
  o ← allocproc;
  match o with
  | None => ret (-1)
  | Some np =>
      pt ← pget p p_pagetable;
      npt ← pget np p_pagetable;
      sz ← pget p p_sz;
      r ← vm (uvmcopy pt npt sz);
      if r <? 0 then
        freeproc np ;;
        release (Lproc np) ;;
        ret (-1)
      else
      pupd np (set_p_sz sz) ;;
      mask ← pget p p_trace_mask;
      pupd np (set_p_trace_mask mask) ;;
      ntf ← pget np p_trapframe;
      tf ← pget p p_trapframe;
      copy_trapframe ntf tf ;;
      vm (kwrite64 (ntf + TF_a0) 0) ;;
      mfor fds (λ i,
        o ← pget p (ofile_at i);
        match o with
        | None => ret tt
        | Some f =>
            f' ← filedup f;
            pupd np (λ pr, set_p_ofile (<[i := Some f']> (p_ofile pr)) pr)
        end) ;;
      cwd ← mycwd;
      cwd' ← idup cwd;
      pupd np (set_p_cwd (Some cwd')) ;;
      name ← pget p p_name;
      pupd np (λ pr, set_p_name (safestrcpy_array (p_name pr) name 16) pr) ;;
      pid ← pget np p_pid;
      release (Lproc np) ;;
      acquire Lwait ;;
      pupd np (set_p_parent (Some p)) ;;
      release Lwait ;;
      acquire (Lproc np) ;;
      pupd np (set_p_state RUNNABLE) ;;
      release (Lproc np) ;;
      ret pid
  end.

Definition reparent (p : nat) : M kst unit :=
  mfor slots (λ pp,
    o ← pget pp p_parent;
    if bool_decide (o = Some p) then
      ip ← gets k_initproc;
      pupd pp (set_p_parent ip) ;;
      wakeup (proc_chan ip)
    else ret tt).

(** Does not return. *)
Definition exit {A} (status : Z) : M kst A :=
  p ← curproc;
  ip ← gets k_initproc;
  if bool_decide (ip = Some p) then panic "init exiting" else
  mfor fds (λ fd,
    o ← pget p (ofile_at fd);
    match o with
    | None => ret tt
    | Some f =>
        fileclose f ;;
        pupd p (λ pr, set_p_ofile (<[fd := None]> (p_ofile pr)) pr)
    end) ;;
  begin_op ;;
  cwd ← mycwd;
  iput cwd ;;
  end_op ;;
  pupd p (set_p_cwd None) ;;
  acquire Lwait ;;
  reparent p ;;
  parent ← pget p p_parent;
  wakeup (proc_chan parent) ;;
  acquire (Lproc p) ;;
  pupd p (set_p_xstate status) ;;
  pupd p (set_p_state ZOMBIE) ;;
  release Lwait ;;
  sched ;;
  panic "zombie exit".

(** The scan of the table by [wait]: the value to return, or whether there are
    children. The locks are released when there is a value. *)
Fixpoint wait_scan (l : list nat) (p : nat) (addr : Z) (havekids : bool) : M kst (Z + bool) :=
  match l with
  | [] => ret (inr havekids)
  | pp :: l =>
      o ← pget pp p_parent;
      if bool_decide (o = Some p) then
        acquire (Lproc pp) ;;
        st ← pget pp p_state;
        if bool_decide (st = ZOMBIE) then
          pid ← pget pp p_pid;
          xstate ← pget pp p_xstate;
          r ← (if nonzero addr then ucopyout addr (le_bytes 4 xstate) else ret 0);
          if r <? 0 then
            release (Lproc pp) ;;
            release Lwait ;;
            ret (inl (-1))
          else
            freeproc pp ;;
            release (Lproc pp) ;;
            release Lwait ;;
            ret (inl pid)
        else
          release (Lproc pp) ;;
          wait_scan l p addr true
      else wait_scan l p addr havekids
  end.

Fixpoint wait_loop (fuel : nat) (p : nat) (addr : Z) : M kst Z :=
  o ← wait_scan slots p addr false;
  match o with
  | inl r => ret r
  | inr havekids =>
      k ← (if havekids : bool then killed p else ret 1);
      if negb havekids || nonzero k then
        release Lwait ;;
        ret (-1)
      else
        match fuel with
        | O => diverge
        | S fuel =>
            sleep (ChProc p) Lwait ;;
            wait_loop fuel p addr
        end
  end.

Definition wait (addr : Z) : M kst Z :=
  p ← curproc;
  acquire Lwait ;;
  wait_loop max_wakeups p addr.
End life.
