(* ===== verification/Args.v ===== *)
(** * System call arguments ([kernel/syscall.c])

    Arguments are the user registers saved in the trapframe; pointers among
    them are followed with [copyin] and [copyinstr] through the page table of
    the running process. *)

From S2P Require Import Base Riscv Mem Kstring Kalloc Vm Kernel Pipe Console FsState Kstate.
Local Open Scope Z_scope.
Local Open Scope kernel_scope.

Section args.
  Context {LK : Link} {WK : Wakeups}.

(** A field of the running process's trapframe. *)
Definition tf_get (off : Z) : M kst Z :=
  p ← curproc;
  tf ← pget p p_trapframe;
  vm (kread64 (tf + off)).
Definition tf_set (off v : Z) : M kst unit :=
  p ← curproc;
  tf ← pget p p_trapframe;
  vm (kwrite64 (tf + off) v).

(** The word at a user address. *)
Definition fetchaddr (addr : Z) : M kst (option Z) :=
  p ← curproc;
  sz ← pget p p_sz;
  if (addr >=? sz) || (u64 (addr + 8) >? sz) then ret None else
  pt ← pget p p_pagetable;
  ' (r, bytes) ← vm (copyin pt addr 8);
  if negb (r =? 0) then ret None else ret (Some (le_val bytes)).

(** What is returned, and the string without its NUL. *)
Definition fetchstr (addr max : Z) : M kst (Z * list Z) :=
  p ← curproc;
  pt ← pget p p_pagetable;
  o ← vm (copyinstr pt addr max);
  match o with
  | None => ret (-1, [])
  | Some buf => ret (Z.of_nat (length (cstr buf)), cstr buf)
  end.

Definition argraw (n : Z) : M kst Z :=
  if (0 <=? n) && (n <=? 5) then tf_get (TF_a0 + 8 * n) else panic "argraw".

Definition argint (n : Z) : M kst Z := x ← argraw n; ret (i32 x).
Definition argaddr (n : Z) : M kst Z := argraw n.

Definition argstr (n max : Z) : M kst (Z * list Z) :=
  addr ← argaddr n;
  fetchstr addr max.
End args.
