(* ===== verification/Exec.v ===== *)
(** * Running a program ([kernel/exec.c], [kernel/elf.h])

    [exec] builds a new address space from an ELF file: the loadable segments,
    a guard page, a stack with the argument strings and the array of pointers
    to them.  The old address space is given up only when all of it is there;
    every failure before gives the new one back. *)

From S2P Require Import Base Riscv Mem Kstring Kalloc Vm Kernel Pipe Console FsState Log Fs Kstate Proc Args.
Local Open Scope Z_scope.
Local Open Scope kernel_scope.

(** ** The file format *)
Definition ELF_MAGIC : Z := 0x464C457F.
Definition ELF_PROG_LOAD : Z := 1.
Definition sizeof_elfhdr : Z := 64.
Definition sizeof_proghdr : Z := 56.

Definition field (n : nat) (off : nat) (d : list Z) : Z := le_val (take n (drop off d)).

Record elfhdr := Elf { elf_magic : Z; elf_entry : Z; elf_phoff : Z; elf_phnum : Z }.
Definition get_elfhdr (d : list Z) : elfhdr :=
  Elf (field 4 0 d) (field 8 24 d) (field 8 32 d) (field 2 56 d).

Record proghdr := Proghdr {
  ph_type : Z; ph_flags : Z; ph_off : Z; ph_vaddr : Z; ph_filesz : Z; ph_memsz : Z }.
Definition get_proghdr (d : list Z) : proghdr :=
  Proghdr (field 4 0 d) (field 4 4 d) (field 8 8 d) (field 8 16 d) (field 8 32 d) (field 8 40 d).

Definition flags2perm (flags : Z) : Z :=
  let perm := if nonzero (Z.land flags 1) then PTE_X else 0 in
  if nonzero (Z.land flags 2) then Z.lor perm PTE_W else perm.

(** The program name: what follows the last slash. *)
Fixpoint last_elem (s last : list Z) : list Z :=
  match s with
  | [] => last
  | c :: s => last_elem s (if c =? SLASH then s else last)
  end.

Section exec.
  Context {LK : Link} {WK : Wakeups}.

(** [readi] into the kernel memory at [pa]. *)
Definition readi_at (ip : nat) (pa off n : Z) : M kst Z :=
  ' (r, bytes) ← readi ip false pa off n;
  vm (modify (λ m, set_ram (store_bytes (ram m) pa bytes) m)) ;;
  ret r.

Fixpoint loadseg_loop (fuel : nat) (pagetable va : Z) (ip : nat) (offset sz i : Z) : M kst Z :=
  match fuel with
  | O => diverge
  | S fuel =>
      if i <? sz then
        pa ← vm (walkaddr pagetable (u64 (va + i)));
        if pa =? 0 then panic "loadseg: address should exist" else
        let n := if u32 (sz - i) <? PGSIZE then u32 (sz - i) else PGSIZE in
        r ← readi_at ip pa (u32 (offset + i)) n;
        if negb (u32 r =? n) then ret (-1)
        else loadseg_loop fuel pagetable va ip offset sz (u32 (i + PGSIZE))
      else ret 0
  end.

(** [offset] and [sz] are [uint] parameters. *)
Definition loadseg (pagetable va : Z) (ip : nat) (offset sz : Z) : M kst Z :=
  loadseg_loop (Z.to_nat (u32 sz / PGSIZE) + 2) pagetable va ip (u32 offset) (u32 sz) 0.

(** The loop over the program headers: whether all were loaded, and [sz]. *)
Fixpoint load_loop (n : nat) (pagetable : Z) (ip : nat) (off sz : Z) : M kst (bool * Z) :=
  match n with
  | O => ret (true, sz)
  | S n =>
      ' (r, bytes) ← readi ip false 0 (u32 off) sizeof_proghdr;
      if negb (r =? sizeof_proghdr) then ret (false, sz) else
      let ph := get_proghdr bytes in
      let off' := i32 (off + sizeof_proghdr) in
      if negb (ph_type ph =? ELF_PROG_LOAD) then load_loop n pagetable ip off' sz else
      if ph_memsz ph <? ph_filesz ph then ret (false, sz) else
      if u64 (ph_vaddr ph + ph_memsz ph) <? ph_vaddr ph then ret (false, sz) else
      if negb (ph_vaddr ph mod PGSIZE =? 0) then ret (false, sz) else
      sz1 ← vm (uvmalloc pagetable sz (u64 (ph_vaddr ph + ph_memsz ph)) (flags2perm (ph_flags ph)));
      if sz1 =? 0 then ret (false, sz) else
      l ← loadseg pagetable (ph_vaddr ph) ip (ph_off ph) (ph_filesz ph);
      if l <? 0 then ret (false, sz1) else
      load_loop n pagetable ip off' sz1
  end.

(** The string at a kernel address, in a page. *)
Definition kstr (a : Z) : M kst (list Z) :=
  vm (gets (λ m, cstr (load_bytes (ram m) a (Z.to_nat PGSIZE)))).

(** Push the argument strings: [None] on failure, else [sp] and [ustack]. *)
Fixpoint push_args (pagetable stackbase : Z) (argv : list Z) (sp argc : Z) (ustack : list Z) :
    M kst (option (Z * list Z)) :=
  match argv with
  | [] => ret (Some (sp, ustack))
  | a :: argv =>
      if argc >=? MAXARG then ret None else
      str ← kstr a;
      let len := Z.of_nat (length str) + 1 in
      let sp := u64 (sp - len) in
      let sp := u64 (sp - sp mod 16) in
      if sp <? stackbase then ret None else
      r ← vm (copyout pagetable sp (str ++ [0]) len);
      if r <? 0 then ret None
      else push_args pagetable stackbase argv sp (argc + 1) (ustack ++ [sp])
  end.

(** The exit [bad] of [exec], with the inode still locked or not. *)
Definition exec_bad (pagetable sz : Z) (ip : option nat) : M kst Z :=
  (if nonzero pagetable then proc_freepagetable pagetable sz else ret tt) ;;
  match ip with
  | Some ip => iunlockput ip ;; end_op
  | None => ret tt
  end ;;
  ret (-1).

(** The second half of [exec], after the program is loaded. *)
Definition exec_stack (path argv : list Z) (entry pagetable sz : Z) : M kst Z :=
  p ← curproc;
  oldsz ← pget p p_sz;
  let sz := PGROUNDUP sz in
  sz1 ← vm (uvmalloc pagetable sz (u64 (sz + 2 * PGSIZE)) PTE_W);
  if sz1 =? 0 then exec_bad pagetable sz None else
  let sz := sz1 in
  vm (uvmclear pagetable (u64 (sz - 2 * PGSIZE))) ;;
  let stackbase := u64 (sz - PGSIZE) in
  o ← push_args pagetable stackbase argv sz 0 [];
  match o with
  | None => exec_bad pagetable sz None
  | Some (sp, ustack) =>
      let argc := Z.of_nat (length ustack) in
      let sp := u64 (sp - (argc + 1) * 8) in
      let sp := u64 (sp - sp mod 16) in
      if sp <? stackbase then exec_bad pagetable sz None else
      r ← vm (copyout pagetable sp (concat (le_bytes 8 <$> ustack ++ [0])) ((argc + 1) * 8));
      if r <? 0 then exec_bad pagetable sz None else
      tf_set TF_a1 sp ;;
      pupd p (λ pr, set_p_name (safestrcpy_array (p_name pr) (last_elem path path) 16) pr) ;;
      oldpagetable ← pget p p_pagetable;
      pupd p (set_p_pagetable pagetable) ;;
      pupd p (set_p_sz sz) ;;
      tf_set TF_epc entry ;;
      tf_set TF_sp sp ;;
      proc_freepagetable oldpagetable oldsz ;;
      ret argc
  end.

(** [argv] are the addresses before the terminating null pointer. *)
Definition exec (path argv : list Z) : M kst Z :=
  p ← curproc;
  begin_op ;;
  o ← namei path;
  match o with
  | None => end_op ;; ret (-1)
  | Some ip =>
      ilock ip ;;
      ' (r, bytes) ← readi ip false 0 0 sizeof_elfhdr;
      if negb (r =? sizeof_elfhdr) then exec_bad 0 0 (Some ip) else
      let elf := get_elfhdr bytes in
      if negb (elf_magic elf =? ELF_MAGIC) then exec_bad 0 0 (Some ip) else
      pagetable ← proc_pagetable p;
      if pagetable =? 0 then exec_bad 0 0 (Some ip) else
      ' (ok, sz) ← load_loop (Z.to_nat (elf_phnum elf)) pagetable ip (i32 (elf_phoff elf)) 0;
      if negb ok then exec_bad pagetable sz (Some ip) else
      iunlockput ip ;;
      end_op ;;
      exec_stack path argv (elf_entry elf) pagetable sz
  end.
End exec.
