(* ===== verification/Sysproc.v ===== *)
(** * System calls on processes ([kernel/sysproc.c], [kernel/sysinfo.h])

    Each returns the value that [syscall] stores in [a0], as an integer that
    the store reduces modulo 2^64.  [sys_trace] and [sys_sysinfo] are the
    calls this kernel adds. *)

From S2P Require Import Base Riscv Mem Kalloc Vm Kernel Pipe Console FsState Kstate Proc Life Args.
Local Open Scope Z_scope.
Local Open Scope kernel_scope.

Record sysinfo := Sysinfo { si_freemem : Z; si_nproc : Z }.
Definition sysinfo_bytes (si : sysinfo) : list Z :=
  le_bytes 8 (si_freemem si) ++ le_bytes 8 (si_nproc si).

Section sysproc.
  Context {LK : Link} {WK : Wakeups}.

Definition sys_exit : M kst Z :=
  n ← argint 0;
  exit n.

Definition sys_getpid : M kst Z :=
  p ← curproc;
  pget p p_pid.

Definition sys_fork : M kst Z := fork.

Definition sys_wait : M kst Z :=
  p ← argaddr 0;
  wait p.

Definition sys_sbrk : M kst Z :=
  n ← argint 0;
  p ← curproc;
  addr ← pget p p_sz;
  r ← growproc n;
  if r <? 0 then ret (-1) else ret addr.

(** The loop waits for [ticks - ticks0] to reach [n], as [uint]s. *)
Fixpoint sys_sleep_loop (fuel : nat) (ticks0 n : Z) : M kst Z :=
  ticks ← gets k_ticks;
  if u32 (ticks - ticks0) <? n then
    p ← curproc;
    k ← killed p;
    if nonzero k then
      release Lticks ;;
      ret (-1)
    else
      match fuel with
      | O => diverge
      | S fuel =>
          sleep ChTicks Lticks ;;
          sys_sleep_loop fuel ticks0 n
      end
  else
    release Lticks ;;
    ret 0.

Definition sys_sleep : M kst Z :=
  n ← argint 0;
  let n := if n <? 0 then 0 else n in
  acquire Lticks ;;
  ticks0 ← gets k_ticks;
  sys_sleep_loop max_wakeups ticks0 n.

Definition sys_kill : M kst Z :=
  pid ← argint 0;
  kill pid.

Definition sys_uptime : M kst Z :=
  acquire Lticks ;;
  xticks ← gets k_ticks;
  release Lticks ;;
  ret xticks.

Definition sys_trace : M kst Z :=
  mask ← argint 0;
  p ← curproc;
  pupd p (set_p_trace_mask mask) ;;
  ret 0.

Definition sys_sysinfo : M kst Z :=
  uaddr ← argaddr 0;
  freemem ← vm getfreemem;
  nproc ← getnproc;
  r ← ucopyout uaddr (sysinfo_bytes (Sysinfo freemem nproc));
  if r <? 0 then ret (-1) else ret 0.
End sysproc.
