(* ===== verification/Sysfile.v ===== *)
(** * System calls on files ([kernel/sysfile.c])

    Argument checking and calls into [File], [Fs] and [Exec].  Each call that
    touches the disk is one transaction between [begin_op] and [end_op], on
    its error paths too. *)

From S2P Require Import Base Riscv Mem Kstring Kalloc Vm Kernel Pipe Console Printf FsState Log Fs Kstate.
From S2P Require Import Proc File Life Args Exec.
Local Open Scope Z_scope.
Local Open Scope kernel_scope.

Definition O_RDONLY : Z := 0.
Definition O_WRONLY : Z := 1.
Definition O_RDWR : Z := 2.
Definition O_CREATE : Z := 0x200.
Definition O_TRUNC : Z := 0x400.

Section sysfile.
  Context {LK : Link} {WK : Wakeups}.

(** ** Descriptors *)
Definition argfd (n : Z) : M kst (option (nat * nat)) :=
  fd ← argint n;
  if (fd <? 0) || (fd >=? NOFILE) then ret None else
  p ← curproc;
  o ← pget p (ofile_at (Z.to_nat fd));
  ret (match o with None => None | Some f => Some (Z.to_nat fd, f) end).

Definition set_ofile (fd : nat) (o : option nat) (pr : proc) : proc :=
  set_p_ofile (<[fd := o]> (p_ofile pr)) pr.

Fixpoint fdalloc_loop (l : list nat) (p f : nat) : M kst Z :=
  match l with
  | [] => ret (-1)
  | fd :: l =>
      o ← pget p (ofile_at fd);
      match o with
      | None =>
          pupd p (set_ofile fd (Some f)) ;;
          ret (Z.of_nat fd)
      | Some _ => fdalloc_loop l p f
      end
  end.

Definition fdalloc (f : nat) : M kst Z :=
  p ← curproc;
  fdalloc_loop fds p f.

Definition sys_dup : M kst Z :=
  o ← argfd 0;
  match o with
  | None => ret (-1)
  | Some (_, f) =>
      fd ← fdalloc f;
      if fd <? 0 then ret (-1) else
      filedup f ;;
      ret fd
  end.

Definition sys_read : M kst Z :=
  p ← argaddr 1;
  n ← argint 2;
  o ← argfd 0;
  match o with
  | None => ret (-1)
  | Some (_, f) => fileread f p n
  end.

Definition sys_write : M kst Z :=
  p ← argaddr 1;
  n ← argint 2;
  o ← argfd 0;
  match o with
  | None => ret (-1)
  | Some (_, f) => filewrite f p n
  end.

Definition sys_close : M kst Z :=
  o ← argfd 0;
  match o with
  | None => ret (-1)
  | Some (fd, f) =>
      p ← curproc;
      pupd p (set_ofile fd None) ;;
      fileclose f ;;
      ret 0
  end.

(** [pad]: see [filestat]. *)
Definition sys_fstat (pad : list Z) : M kst Z :=
  st ← argaddr 1;
  o ← argfd 0;
  match o with
  | None => ret (-1)
  | Some (_, f) => filestat pad f st
  end.

(** ** Names *)

(** [ip->nlink++] and [ip->nlink--] on a [short]. *)
Definition add_nlink (d : Z) (ip : nat) : M kst unit :=
  iset (λ x, set_i_nlink (i16 (i_nlink x + d)) x) ip.

(** The exit [bad] of [sys_link]. *)
Definition sys_link_bad (ip : nat) : M kst Z :=
  ilock ip ;;
  add_nlink (-1) ip ;;
  iupdate ip ;;
  iunlockput ip ;;
  end_op ;;
  ret (-1).

Definition sys_link : M kst Z :=
  ' (r, old) ← argstr 0 MAXPATH;
  if r <? 0 then ret (-1) else
  ' (r, new) ← argstr 1 MAXPATH;
  if r <? 0 then ret (-1) else
  begin_op ;;
  o ← namei old;
  match o with
  | None => end_op ;; ret (-1)
  | Some ip =>
      ilock ip ;;
      type ← ifield i_type ip;
      if type =? T_DIR then
        iunlockput ip ;;
        end_op ;;
        ret (-1)
      else
      add_nlink 1 ip ;;
      iupdate ip ;;
      iunlock ip ;;
      o ← nameiparent new;
      match o with
      | None => sys_link_bad ip
      | Some (dp, name) =>
          ilock dp ;;
          ddev ← ifield i_dev dp;
          idev ← ifield i_dev ip;
          inum ← ifield i_inum ip;
          r ← (if negb (ddev =? idev) then ret (-1) else dirlink dp name inum);
          if r <? 0 then
            iunlockput dp ;;
            sys_link_bad ip
          else
            iunlockput dp ;;
            iput ip ;;
            end_op ;;
            ret 0
      end
  end.

Fixpoint isdirempty_loop (fuel : nat) (dp : nat) (off : Z) : M kst bool :=
  match fuel with
  | O => diverge
  | S fuel =>
      size ← ifield i_size dp;
      if off <? size then
        ' (r, de) ← readi dp false 0 off sizeof_dirent;
        if negb (r =? sizeof_dirent) then panic "isdirempty: readi" else
        if negb (dirent_inum de =? 0) then ret false
        else isdirempty_loop fuel dp (u32 (off + sizeof_dirent))
      else ret true
  end.

Definition isdirempty (dp : nat) : M kst bool :=
  size ← ifield i_size dp;
  isdirempty_loop (Z.to_nat (size / sizeof_dirent) + 2) dp (2 * sizeof_dirent).

(** The exit [bad] of [sys_unlink]. *)
Definition sys_unlink_bad (dp : nat) : M kst Z :=
  iunlockput dp ;;
  end_op ;;
  ret (-1).

Definition sys_unlink : M kst Z :=
  ' (r, path) ← argstr 0 MAXPATH;
  if r <? 0 then ret (-1) else
  begin_op ;;
  o ← nameiparent path;
  match o with
  | None => end_op ;; ret (-1)
  | Some (dp, name) =>
      ilock dp ;;
      if (namecmp name (bytes_of ".") =? 0) || (namecmp name (bytes_of "..") =? 0)
      then sys_unlink_bad dp else
      o ← dirlookup dp name;
      match o with
      | None => sys_unlink_bad dp
      | Some (ip, off) =>
          ilock ip ;;
          nlink ← ifield i_nlink ip;
          if nlink <? 1 then panic "unlink: nlink < 1" else
          type ← ifield i_type ip;
          empty ← (if type =? T_DIR then isdirempty ip else ret true);
          if negb empty then
            iunlockput ip ;;
            sys_unlink_bad dp
          else
          w ← writei dp (FromKernel (replicate 16 0)) off sizeof_dirent;
          if negb (w =? sizeof_dirent) then panic "unlink: writei" else
          (if type =? T_DIR then
             add_nlink (-1) dp ;;
             iupdate dp
           else ret tt) ;;
          iunlockput dp ;;
          add_nlink (-1) ip ;;
          iupdate ip ;;
          iunlockput ip ;;
          end_op ;;
          ret 0
      end
  end.

(** The exit [fail] of [create]. *)
Definition create_fail (ip dp : nat) : M kst (option nat) :=
  iset (set_i_nlink 0) ip ;;
  iupdate ip ;;
  iunlockput ip ;;
  iunlockput dp ;;
  ret None.

(** The inode is returned locked. *)
Definition create (path : list Z) (type major minor : Z) : M kst (option nat) :=
  o ← nameiparent path;
  match o with
  | None => ret None
  | Some (dp, name) =>
      ilock dp ;;
      o ← dirlookup dp name;
      match o with
      | Some (ip, _) =>
          iunlockput dp ;;
          ilock ip ;;
          t ← ifield i_type ip;
          if (type =? T_FILE) && ((t =? T_FILE) || (t =? T_DEVICE)) then ret (Some ip)
          else
            iunlockput ip ;;
            ret None
      | None =>
          ddev ← ifield i_dev dp;
          o ← ialloc ddev type;
          match o with
          | None => iunlockput dp ;; ret None
          | Some ip =>
              ilock ip ;;
              iset (set_i_major major) ip ;;
              iset (set_i_minor minor) ip ;;
              iset (set_i_nlink 1) ip ;;
              iupdate ip ;;
              inum ← ifield i_inum ip;
              dnum ← ifield i_inum dp;
              r ← (if type =? T_DIR then
                     r ← dirlink ip (bytes_of ".") inum;
                     if r <? 0 then ret r else dirlink ip (bytes_of "..") dnum
                   else ret 0);
              if r <? 0 then create_fail ip dp else
              r ← dirlink dp name inum;
              if r <? 0 then create_fail ip dp else
              (if type =? T_DIR then
                 add_nlink 1 dp ;;
                 iupdate dp
               else ret tt) ;;
              iunlockput dp ;;
              ret (Some ip)
          end
      end
  end.

(** ** open *)

(** The inode to open, locked, or [None] after [end_op]. *)
Definition open_inode (path : list Z) (omode : Z) : M kst (option nat) :=
  if nonzero (Z.land omode O_CREATE) then
    o ← create path T_FILE 0 0;
    match o with
    | None => end_op ;; ret None
    | Some ip => ret (Some ip)
    end
  else
    o ← namei path;
    match o with
    | None => end_op ;; ret None
    | Some ip =>
        ilock ip ;;
        type ← ifield i_type ip;
        if (type =? T_DIR) && negb (omode =? O_RDONLY) then
          iunlockput ip ;;
          end_op ;;
          ret None
        else ret (Some ip)
    end.

(** No file or no descriptor is left. *)
Definition open_full (f : option nat) (ip : nat) : M kst Z :=
  match f with Some f => fileclose f | None => ret tt end ;;
  iunlockput ip ;;
  end_op ;;
  ret (-1).

Definition c_bool (b : bool) : Z := if b then 1 else 0.

Definition open_file (f ip : nat) (omode : Z) : M kst unit :=
  x ← ifield id ip;
  (if i_type x =? T_DEVICE then
     fupd f (λ y, set_fl_major (i_major x) (set_fl_type FD_DEVICE y))
   else
     fupd f (λ y, set_fl_off 0 (set_fl_type FD_INODE y))) ;;
  fupd f (set_fl_ip ip) ;;
  fupd f (set_fl_readable (c_bool (negb (nonzero (Z.land omode O_WRONLY))))) ;;
  fupd f (set_fl_writable
    (c_bool (nonzero (Z.land omode O_WRONLY) || nonzero (Z.land omode O_RDWR)))) ;;
  if nonzero (Z.land omode O_TRUNC) && (i_type x =? T_FILE) then itrunc ip else ret tt.

Definition sys_open : M kst Z :=
  omode ← argint 1;
  ' (n, path) ← argstr 0 MAXPATH;
  if n <? 0 then ret (-1) else
  begin_op ;;
  o ← open_inode path omode;
  match o with
  | None => ret (-1)
  | Some ip =>
      x ← ifield id ip;
      if (i_type x =? T_DEVICE) && ((i_major x <? 0) || (i_major x >=? NDEV)) then
        iunlockput ip ;;
        end_op ;;
        ret (-1)
      else
      o ← filealloc;
      match o with
      | None => open_full None ip
      | Some f =>
          fd ← fdalloc f;
          if fd <? 0 then open_full (Some f) ip else
          open_file f ip omode ;;
          iunlock ip ;;
          end_op ;;
          ret fd
      end
  end.

Definition sys_mkdir : M kst Z :=
  begin_op ;;
  ' (r, path) ← argstr 0 MAXPATH;
  o ← (if r <? 0 then ret None else create path T_DIR 0 0);
  match o with
  | None => end_op ;; ret (-1)
  | Some ip =>
      iunlockput ip ;;
      end_op ;;
      ret 0
  end.

(** [major] and [minor] are [short] parameters of [create]. *)
Definition sys_mknod : M kst Z :=
  begin_op ;;
  major ← argint 1;
  minor ← argint 2;
  ' (r, path) ← argstr 0 MAXPATH;
  o ← (if r <? 0 then ret None else create path T_DEVICE (i16 major) (i16 minor));
  match o with
  | None => end_op ;; ret (-1)
  | Some ip =>
      iunlockput ip ;;
      end_op ;;
      ret 0
  end.

Definition sys_chdir : M kst Z :=
  p ← curproc;
  begin_op ;;
  ' (r, path) ← argstr 0 MAXPATH;
  o ← (if r <? 0 then ret None else namei path);
  match o with
  | None => end_op ;; ret (-1)
  | Some ip =>
      ilock ip ;;
      type ← ifield i_type ip;
      if negb (type =? T_DIR) then
        iunlockput ip ;;
        end_op ;;
        ret (-1)
      else
      iunlock ip ;;
      cwd ← mycwd;
      iput cwd ;;
      end_op ;;
      pupd p (set_p_cwd (Some ip)) ;;
      ret 0
  end.

(** ** exec *)

(** Free the pages of the argument strings. *)
Definition free_argv (argv : list Z) : M kst unit := mfor argv (λ a, vm (kfree a)).

(** The loop that fetches the arguments: the pages so far, and whether the
    terminating null pointer was reached. *)
Fixpoint fetch_args (n : nat) (uargv i : Z) (argv : list Z) : M kst (bool * list Z) :=
  match n with
  | O => ret (false, argv)
  | S n =>
      o ← fetchaddr (u64 (uargv + 8 * i));
      match o with
      | None => ret (false, argv)
      | Some uarg =>
          if uarg =? 0 then ret (true, argv) else
          page ← vm kalloc;
          if page =? 0 then ret (false, argv) else
          ' (r, str) ← fetchstr uarg PGSIZE;
          if r <? 0 then ret (false, argv ++ [page])
          else
            vm (modify (λ m, set_ram (store_bytes (ram m) page (str ++ [0])) m)) ;;
            fetch_args n uargv (i + 1) (argv ++ [page])
      end
  end.

Definition sys_exec : M kst Z :=
  uargv ← argaddr 1;
  ' (r, path) ← argstr 0 MAXPATH;
  if r <? 0 then ret (-1) else
  ' (ok, argv) ← fetch_args (Z.to_nat MAXARG) uargv 0 [];
  if negb ok then
    free_argv argv ;;
    ret (-1)
  else
  r ← exec path argv;
  free_argv argv ;;
  ret r.

(** ** pipe *)
Definition sys_pipe : M kst Z :=
  p ← curproc;
  fdarray ← argaddr 0;
  o ← pipealloc;
  match o with
  | None => ret (-1)
  | Some (rf, wf) =>
      fd0 ← fdalloc rf;
      fd1 ← (if fd0 <? 0 then ret (-1) else fdalloc wf);
      if (fd0 <? 0) || (fd1 <? 0) then
        (if fd0 >=? 0 then pupd p (set_ofile (Z.to_nat fd0) None) else ret tt) ;;
        fileclose rf ;;
        fileclose wf ;;
        ret (-1)
      else
      r ← ucopyout fdarray (le_bytes 4 fd0);
      r ← (if r <? 0 then ret (-1) else ucopyout (u64 (fdarray + 4)) (le_bytes 4 fd1));
      if r <? 0 then
        pupd p (set_ofile (Z.to_nat fd0) None) ;;
        pupd p (set_ofile (Z.to_nat fd1) None) ;;
        fileclose rf ;;
        fileclose wf ;;
        ret (-1)
      else ret 0
  end.
End sysfile.
