(* ===== verification/Syscall.v ===== *)
(** * The system call dispatcher ([kernel/syscall.c], [kernel/syscall.h])

    The number in [a7] selects the handler; its value goes to [a0].  A call
    whose bit is set in the process's trace mask is reported on the
    console. *)

From S2P Require Import Base Riscv Mem Kstring Kalloc Vm Kernel Pipe Console Printf FsState Kstate.
From S2P Require Import Proc File Life Args Exec Sysproc Sysfile.
Local Open Scope Z_scope.
Local Open Scope kernel_scope.

(** [syscall_names[]], indexed by the numbers of [syscall.h]. *)
Definition syscall_names : list string :=
  ["fork"; "exit"; "wait"; "pipe"; "read"; "kill"; "exec"; "fstat"; "chdir"; "dup"; "getpid";
   "sbrk"; "sleep"; "uptime"; "open"; "write"; "mknod"; "unlink"; "link"; "mkdir"; "close";
   "trace"; "sysinfo"]%string.
Definition syscall_name (num : Z) : list Z :=
  bytes_of (default EmptyString (syscall_names !! Z.to_nat (num - 1))).

Section syscall.
  Context {LK : Link} {WK : Wakeups}.

(** [pad]: see [filestat]. *)
Definition syscalls (pad : list Z) (num : Z) : option (M kst Z) :=
  match num with
  | 1 => Some sys_fork
  | 2 => Some sys_exit
  | 3 => Some sys_wait
  | 4 => Some sys_pipe
  | 5 => Some sys_read
  | 6 => Some sys_kill
  | 7 => Some sys_exec
  | 8 => Some (sys_fstat pad)
  | 9 => Some sys_chdir
  | 10 => Some sys_dup
  | 11 => Some sys_getpid
  | 12 => Some sys_sbrk
  | 13 => Some sys_sleep
  | 14 => Some sys_uptime
  | 15 => Some sys_open
  | 16 => Some sys_write
  | 17 => Some sys_mknod
  | 18 => Some sys_unlink
  | 19 => Some sys_link
  | 20 => Some sys_mkdir
  | 21 => Some sys_close
  | 22 => Some sys_trace
  | 23 => Some sys_sysinfo
  | _ => None
  end.

(** [printf("%d: syscall %s -> %d\n", ...)] when the bit of [num] is set. *)
Definition trace_report (p : nat) (num : Z) : M kst unit :=
  mask ← pget p p_trace_mask;
  if Z.land (Z.shiftr mask num) 1 =? 0 then ret tt
  else
    pid ← pget p p_pid;
    a0 ← tf_get TF_a0;
    printf (bytes_of "%d: syscall %s -> %d" ++ [10])
      [AInt pid; AStr (Some (syscall_name num)); AInt (i32 a0)].

Definition syscall (pad : list Z) : M kst unit :=
  p ← curproc;
  a7 ← tf_get TF_a7;
  let num := i32 a7 in
  match syscalls pad num with
  | Some handler =>
      r ← handler;
      tf_set TF_a0 r ;;
      trace_report p num
  | None =>
      pid ← pget p p_pid;
      name ← pget p p_name;
      printf (bytes_of "%d %s: unknown sys call %d" ++ [10])
        [AInt pid; AStr (Some (cstr name)); AInt num] ;;
      tf_set TF_a0 (-1)
  end.
End syscall.
