(* ===== verification/Trap.v ===== *)
(** * Traps and interrupts ([kernel/trap.c], [kernel/plic.c])

    The kernel together with the CPU's control registers, the interrupt
    controller and the disk driver.  [usertrap] is the one way from user code
    into the kernel, [usertrapret] the one way back; it gives the [satp] value
    that [userret] in [trampoline.S] is called with.  Interrupts are taken
    where a handler is entered, not in the middle of other kernel code. *)

From S2P Require Import Base Riscv Mem Kalloc Vm Kernel Pipe Console Printf FsState Virtio Fs Kstate.
From S2P Require Import Proc File Life Args Exec Sysproc Sysfile Syscall.
Local Open Scope Z_scope.
Local Open Scope kernel_scope.

(** Supervisor registers. *)
Record hart := Hart {
  h_sstatus : Z;
  h_sepc : Z;
  h_scause : Z;
  h_stval : Z;
  h_stvec : Z;
  h_satp : Z;
  h_tp : Z;
  h_sip : Z;
}.
Definition set_h_sstatus (v : Z) (r : hart) : hart :=
  Hart v (h_sepc r) (h_scause r) (h_stval r) (h_stvec r) (h_satp r) (h_tp r) (h_sip r).
Definition set_h_sepc (v : Z) (r : hart) : hart :=
  Hart (h_sstatus r) v (h_scause r) (h_stval r) (h_stvec r) (h_satp r) (h_tp r) (h_sip r).
Definition set_h_scause (v : Z) (r : hart) : hart :=
  Hart (h_sstatus r) (h_sepc r) v (h_stval r) (h_stvec r) (h_satp r) (h_tp r) (h_sip r).
Definition set_h_stval (v : Z) (r : hart) : hart :=
  Hart (h_sstatus r) (h_sepc r) (h_scause r) v (h_stvec r) (h_satp r) (h_tp r) (h_sip r).
Definition set_h_stvec (v : Z) (r : hart) : hart :=
  Hart (h_sstatus r) (h_sepc r) (h_scause r) (h_stval r) v (h_satp r) (h_tp r) (h_sip r).
Definition set_h_satp (v : Z) (r : hart) : hart :=
  Hart (h_sstatus r) (h_sepc r) (h_scause r) (h_stval r) (h_stvec r) v (h_tp r) (h_sip r).
Definition set_h_tp (v : Z) (r : hart) : hart :=
  Hart (h_sstatus r) (h_sepc r) (h_scause r) (h_stval r) (h_stvec r) (h_satp r) v (h_sip r).
Definition set_h_sip (v : Z) (r : hart) : hart :=
  Hart (h_sstatus r) (h_sepc r) (h_scause r) (h_stval r) (h_stvec r) (h_satp r) (h_tp r) v.

(** [m_irqs] are the interrupts that the PLIC will hand out, [m_plic] the writes
    to its registers. *)
Record mach := Mach {
  m_k : kst;
  m_disk : vdisk;
  m_hart : hart;
  m_irqs : list Z;
  m_plic : list (Z * Z);
}.
Definition set_m_k (v : kst) (r : mach) : mach :=
  Mach v (m_disk r) (m_hart r) (m_irqs r) (m_plic r).
Definition set_m_disk (v : vdisk) (r : mach) : mach :=
  Mach (m_k r) v (m_hart r) (m_irqs r) (m_plic r).
Definition set_m_hart (v : hart) (r : mach) : mach :=
  Mach (m_k r) (m_disk r) v (m_irqs r) (m_plic r).
Definition set_m_irqs (v : list Z) (r : mach) : mach :=
  Mach (m_k r) (m_disk r) (m_hart r) v (m_plic r).
Definition set_m_plic (v : list (Z * Z)) (r : mach) : mach :=
  Mach (m_k r) (m_disk r) (m_hart r) (m_irqs r) v.

Definition kern {A} (m : M kst A) : M mach A := zoom (Lens m_k set_m_k) m.

#[export] Instance mach_disk : HasState mach vdisk := Lens m_disk set_m_disk.

Definition hget {A} (f : hart → A) : M mach A := gets (λ s, f (m_hart s)).
Definition hset (g : hart → hart) : M mach unit := modify (λ s, set_m_hart (g (m_hart s)) s).

Definition w_plic (a v : Z) : M mach unit := modify (λ s, set_m_plic (m_plic s ++ [(a, v)]) s).

Section trap.
  Context {LK : Link} {WK : Wakeups}.

(** The kernel's operations, in the machine. *)
#[export] Instance mach_ops : KernelOps mach := {|
  acquire l := kern (acquire l);
  release l := kern (release l);
  sleep c l := kern (sleep c l);
  wakeup c := kern (wakeup c);
  mypid := kern mypid;
  mykilled := kern mykilled;
  ucopyout va l := kern (ucopyout va l);
  ucopyin va n := kern (ucopyin va n);
  mycwd := kern mycwd;
  wakeups := max_wakeups;
|}.

(** ** plic.c *)
Definition plicinit : M mach unit :=
  w_plic (PLIC + UART0_IRQ * 4) 1 ;;
  w_plic (PLIC + VIRTIO0_IRQ * 4) 1.

Definition cpuid : M mach Z := hget (λ h, i32 (h_tp h)).

Definition plicinithart : M mach unit :=
  hart ← cpuid;
  w_plic (PLIC_SENABLE hart) (Z.lor (Z.shiftl 1 UART0_IRQ) (Z.shiftl 1 VIRTIO0_IRQ)) ;;
  w_plic (PLIC_SPRIORITY hart) 0.

Definition plic_claim : M mach Z :=
  irq ← gets (λ s, hd 0 (m_irqs s));
  modify (λ s, set_m_irqs (tl (m_irqs s)) s) ;;
  ret (i32 irq).

Definition plic_complete (irq : Z) : M mach unit :=
  hart ← cpuid;
  w_plic (PLIC_SCLAIM hart) (u32 irq).

(** ** Interrupts *)
Definition intr_on : M mach unit := hset (λ h, set_h_sstatus (Z.lor (h_sstatus h) SSTATUS_SIE) h).
Definition intr_off : M mach unit :=
  hset (λ h, set_h_sstatus (Z.land (h_sstatus h) (Z.lnot SSTATUS_SIE)) h).

Definition trapinithart : M mach unit := hset (set_h_stvec kernelvec).

Definition clockintr : M kst unit :=
  acquire Lticks ;;
  modify (λ s, set_k_ticks (u32 (k_ticks s + 1)) s) ;;
  wakeup ChTicks ;;
  release Lticks.

(** [reg] is what the disk's registers read. *)
Definition devintr (reg : Z → Z) : M mach Z :=
  scause ← hget h_scause;
  if nonzero (Z.land scause 0x8000000000000000) && (Z.land scause 0xff =? 9) then
    irq ← plic_claim;
    (if irq =? UART0_IRQ then kern (uartintr procdump)
     else if irq =? VIRTIO0_IRQ then virtio_disk_intr reg
     else if nonzero irq then
       kern (printf (bytes_of "unexpected interrupt irq=%d" ++ [10]) [AInt irq])
     else ret tt) ;;
    (if nonzero irq then plic_complete irq else ret tt) ;;
    ret 1
  else if scause =? 0x8000000000000001 then
    id ← cpuid;
    (if id =? 0 then kern clockintr else ret tt) ;;
    hset (λ h, set_h_sip (Z.land (h_sip h) (Z.lnot 2)) h) ;;
    ret 2
  else ret 0.

(** ** Back to user space *)
Definition usertrapret : M mach Z :=
  p ← kern curproc;
  intr_off ;;
  hset (set_h_stvec (TRAMPOLINE + (uservec - trampoline))) ;;
  satp ← hget h_satp;
  kern (tf_set TF_kernel_satp satp) ;;
  kstack ← kern (pget p p_kstack);
  kern (tf_set TF_kernel_sp (kstack + PGSIZE)) ;;
  kern (tf_set TF_kernel_trap usertrap_addr) ;;
  tp ← hget h_tp;
  kern (tf_set TF_kernel_hartid tp) ;;
  hset (λ h, set_h_sstatus (Z.lor (Z.land (h_sstatus h) (Z.lnot SSTATUS_SPP)) SSTATUS_SPIE) h) ;;
  epc ← kern (tf_get TF_epc);
  hset (set_h_sepc epc) ;;
  pt ← kern (pget p p_pagetable);
  ret (MAKE_SATP pt).

(** The first code of a new process. *)
Definition forkret : M mach Z :=
  p ← kern curproc;
  kern (release (Lproc p)) ;;
  first ← kern (gets k_first);
  (if first : bool then
     kern (modify (set_k_first false)) ;;
     kern (fsinit ROOTDEV)
   else ret tt) ;;
  usertrapret.

(** ** Into the kernel *)

(** [pad]: see [filestat]. *)
Definition usertrap (reg : Z → Z) (pad : list Z) : M mach Z :=
  sstatus ← hget h_sstatus;
  if nonzero (Z.land sstatus SSTATUS_SPP) then panic "usertrap: not from user mode" else
  hset (set_h_stvec kernelvec) ;;
  p ← kern curproc;
  sepc ← hget h_sepc;
  kern (tf_set TF_epc sepc) ;;
  scause ← hget h_scause;
  which_dev ←
    (if scause =? 8 then
       k ← kern (killed p);
       (if nonzero k then kern (exit (-1)) else ret tt) ;;
       epc ← kern (tf_get TF_epc);
       kern (tf_set TF_epc (epc + 4)) ;;
       intr_on ;;
       kern (syscall pad) ;;
       ret 0
     else
       d ← devintr reg;
       if nonzero d then ret d
       else
         pid ← kern (pget p p_pid);
         kern (printf (bytes_of "usertrap(): unexpected scause %p pid=%d" ++ [10])
           [APtr scause; AInt pid]) ;;
         sepc ← hget h_sepc;
         stval ← hget h_stval;
         kern (printf (bytes_of "            sepc=%p stval=%p" ++ [10]) [APtr sepc; APtr stval]) ;;
         kern (setkilled p) ;;
         ret 0);
  k ← kern (killed p);
  (if nonzero k then kern (exit (-1)) else ret tt) ;;
  (if which_dev =? 2 then kern yield else ret tt) ;;
  usertrapret.

Definition kerneltrap (reg : Z → Z) : M mach unit :=
  sepc ← hget h_sepc;
  sstatus ← hget h_sstatus;
  scause ← hget h_scause;
  if Z.land sstatus SSTATUS_SPP =? 0 then panic "kerneltrap: not from supervisor mode" else
  if nonzero (Z.land sstatus SSTATUS_SIE) then panic "kerneltrap: interrupts enabled" else
  which_dev ← devintr reg;
  if which_dev =? 0 then
    kern (printf (bytes_of "scause %p" ++ [10]) [APtr scause]) ;;
    sepc' ← hget h_sepc;
    stval ← hget h_stval;
    kern (printf (bytes_of "sepc=%p stval=%p" ++ [10]) [APtr sepc'; APtr stval]) ;;
    panic "kerneltrap"
  else
  me ← kern myproc;
  (match me with
   | Some p =>
       st ← kern (pget p p_state);
       if (which_dev =? 2) && bool_decide (st = RUNNING) then kern yield else ret tt
   | None => ret tt
   end) ;;
  hset (set_h_sepc sepc) ;;
  hset (set_h_sstatus sstatus).
End trap.
