(* ===== verification/Discipline.v ===== *)
(** * Lock discipline

    What holds of all kernel code, whatever it does to its data: it releases
    every spinlock it acquires, acquires none it holds, leaves the running
    process running, and when it gives up the CPU it holds exactly the lock of
    its process, whose state is no longer [RUNNING].  [bal m h h'] says this
    of code [m] entered with the locks [h]; it is closed under the operations
    of the monad, so that it is established for each function from its code,
    up to [usertrap] ([Discipline], [DisciplineFs], [DisciplineSys]), and used
    in the invariant of the scheduler ([Sched]). *)

From S2P Require Import Base Riscv Mem Kalloc Vm Kernel Pipe Console Printf Sleeplock FsState Kstate KstateLaws.
Local Open Scope Z_scope.
Local Open Scope kernel_scope.

(** The panics that a violation of the discipline leads to. *)
Definition lock_panic (msg : string) : bool :=
  existsb (String.eqb msg) ["acquire"; "release"; "sched p->lock"; "sched running"]%string.

(** ** Memory code

    It takes and releases the allocator's lock and never blocks. *)
Definition quiet_res {A} (r : res kmem A) : Prop :=
  match r with
  | Ok _ s => kmem_lock s = false
  | Panic msg => lock_panic msg = false
  | Swtch _ _ => False
  | Diverge => True
  end.
Definition quiet {A} (m : M kmem A) : Prop := ∀ s, kmem_lock s = false → quiet_res (m s).

Create HintDb quiet.

Section quiet.
  Context {LK : Link}.

Lemma quiet_ret {A} (a : A) : quiet (ret a).
Proof. by intros s. Qed.
Lemma quiet_panic {A} msg : lock_panic msg = false → quiet (panic msg : M kmem A).
Proof. by intros H s. Qed.
Lemma quiet_diverge {A} : quiet (diverge : M kmem A).
Proof. by intros s. Qed.
Lemma quiet_bind {A B} (m : M kmem A) (f : A → M kmem B) :
  quiet m → (∀ a, quiet (f a)) → quiet (bind m f).
Proof.
  intros Hm Hf s Hs. specialize (Hm s Hs). unfold bind. destruct (m s) as [a s'|msg|s' k|]; try done.
  by apply Hf.
Qed.
Lemma quiet_gets {A} (f : kmem → A) : quiet (gets f).
Proof. by intros s. Qed.
Lemma quiet_modify f : (∀ s, kmem_lock (f s) = kmem_lock s) → quiet (modify f).
Proof. intros H s Hs. simpl. by rewrite H. Qed.
Lemma quiet_mfor {A} (l : list A) f : (∀ x, quiet (f x)) → quiet (mfor l f).
Proof. intros H. induction l; simpl; [apply quiet_ret | by apply quiet_bind]. Qed.
Lemma quiet_kread64 a : quiet (kread64 a).
Proof. apply quiet_gets. Qed.
Lemma quiet_kwrite64 a v : quiet (kwrite64 a v).
Proof. by apply quiet_modify. Qed.
Lemma quiet_kmemset a c n : quiet (kmemset a c n).
Proof. by apply quiet_modify. Qed.
Lemma quiet_kmemmove a c n : quiet (kmemmove a c n).
Proof. by apply quiet_modify. Qed.

(** Code between [acquire] and [release] of the allocator's lock. *)
Lemma quiet_locked {A} (m : M kmem A) :
  (∀ s, kmem_lock s = true → quiet_res (m s)) → quiet (acquire_kmem ;; m).
Proof. intros H s Hs. unfold bind, acquire_kmem, Spinlock.lock_acquire. rewrite Hs. simpl. by apply H. Qed.

Lemma quiet_release s : kmem_lock s = true → quiet_res (release_kmem s).
Proof. intros Hs. unfold release_kmem, Spinlock.lock_release. by rewrite Hs. Qed.

Lemma quiet_kfree pa : quiet (kfree pa).
Proof.
  unfold kfree. destruct (_ || _ || _); [by apply quiet_panic|].
  apply quiet_bind; [apply quiet_kmemset|]. intros _. apply quiet_locked. intros s Hs.
  autorewrite with krun. by apply quiet_release.
Qed.

Lemma quiet_kalloc : quiet kalloc.
Proof.
  apply quiet_locked. intros [m l f] Hs. cbn in Hs. subst l. rewrite bind_gets. cbn [freelist].
  unfold kmemset. destruct (nonzero f); reflexivity.
Qed.

(** The walk over the free list changes nothing. *)
Lemma getfreemem_loop_reads fuel r bytes s :
  getfreemem_loop fuel r bytes s = Diverge ∨ ∃ n, getfreemem_loop fuel r bytes s = Ok n s.
Proof.
  revert r bytes. induction fuel as [|fuel IH]; intros r bytes; [by left|].
  cbn [getfreemem_loop]. destruct (nonzero r); [apply IH|]. right. by eexists.
Qed.

Lemma quiet_getfreemem : quiet getfreemem.
Proof.
  apply quiet_locked. intros s Hs. rewrite bind_gets. unfold bind at 1.
  destruct (getfreemem_loop_reads (S (Z.to_nat NPAGES)) (freelist s) 0 s) as [->|[n ->]]; [done|].
  cbn [res_bind]. unfold bind, release_kmem, Spinlock.lock_release. by rewrite Hs.
Qed.
End quiet.

Ltac quiet_step :=
  lazymatch goal with
  | |- quiet (bind _ _) => apply quiet_bind; [|intros ?]
  | |- quiet (if ?b then _ else _) => destruct b
  | |- quiet (let '(_, _) := ?x in _) => destruct x
  | |- quiet (match ?x with _ => _ end) => destruct x
  | |- quiet (mfor _ _) => apply quiet_mfor; intros ?
  | |- quiet (ret _) => apply quiet_ret
  | |- quiet (panic _) => by apply quiet_panic
  | |- quiet diverge => apply quiet_diverge
  | |- quiet (gets _) => apply quiet_gets
  | |- quiet (modify _) => by apply quiet_modify
  | |- quiet _ => solve [eauto 2 with quiet nocore]
  end.
Ltac solve_quiet := cbv zeta; repeat (quiet_step; cbv zeta beta).
#[export] Hint Resolve quiet_kread64 quiet_kwrite64 quiet_kmemset quiet_kmemmove quiet_kfree quiet_kalloc
  quiet_getfreemem : quiet.

Section quiet_vm.
  Context {LK : Link}.

Lemma quiet_walk_loop levels pt va alloc : quiet (walk_loop levels pt va alloc).
Proof. revert pt. induction levels; intros pt; simpl; solve_quiet. Qed.
#[local] Hint Resolve quiet_walk_loop : quiet.
Lemma quiet_walk pt va alloc : quiet (walk pt va alloc).
Proof. unfold walk. solve_quiet. Qed.
#[local] Hint Resolve quiet_walk : quiet.
Lemma quiet_walkaddr pt va : quiet (walkaddr pt va).
Proof. unfold walkaddr. solve_quiet. Qed.
Lemma quiet_mappages_loop fuel pt a last pa perm : quiet (mappages_loop fuel pt a last pa perm).
Proof. revert a pa. induction fuel; intros; cbn [mappages_loop]; solve_quiet. Qed.
#[local] Hint Resolve quiet_walkaddr quiet_mappages_loop : quiet.
Lemma quiet_mappages pt va size pa perm : quiet (mappages pt va size pa perm).
Proof. unfold mappages. solve_quiet. Qed.
Lemma quiet_uvmunmap_loop fuel pt a aend b : quiet (uvmunmap_loop fuel pt a aend b).
Proof. revert a. induction fuel; intros; cbn [uvmunmap_loop]; solve_quiet. Qed.
#[local] Hint Resolve quiet_mappages quiet_uvmunmap_loop : quiet.
Lemma quiet_uvmunmap pt va n b : quiet (uvmunmap pt va n b).
Proof. unfold uvmunmap. solve_quiet. Qed.
#[local] Hint Resolve quiet_uvmunmap : quiet.
Lemma quiet_uvmcreate : quiet uvmcreate.
Proof. unfold uvmcreate. solve_quiet. Qed.
Lemma quiet_uvmfirst pt src sz : quiet (uvmfirst pt src sz).
Proof. unfold uvmfirst. solve_quiet. Qed.
Lemma quiet_uvmdealloc pt a b : quiet (uvmdealloc pt a b).
Proof. unfold uvmdealloc. solve_quiet. Qed.
#[local] Hint Resolve quiet_uvmdealloc : quiet.
Lemma quiet_uvmalloc_loop fuel pt a o n x : quiet (uvmalloc_loop fuel pt a o n x).
Proof. revert a. induction fuel; intros; cbn [uvmalloc_loop]; solve_quiet. Qed.
#[local] Hint Resolve quiet_uvmalloc_loop : quiet.
Lemma quiet_uvmalloc pt o n x : quiet (uvmalloc pt o n x).
Proof. unfold uvmalloc. solve_quiet. Qed.
Lemma quiet_freewalk fuel pt : quiet (freewalk fuel pt).
Proof. revert pt. induction fuel; intros; cbn [freewalk]; solve_quiet. Qed.
#[local] Hint Resolve quiet_freewalk : quiet.
Lemma quiet_uvmfree pt sz : quiet (uvmfree pt sz).
Proof. unfold uvmfree. solve_quiet. Qed.
Lemma quiet_uvmcopy_loop fuel o n i sz : quiet (uvmcopy_loop fuel o n i sz).
Proof. revert i. induction fuel; intros; cbn [uvmcopy_loop]; solve_quiet. Qed.
#[local] Hint Resolve quiet_uvmcopy_loop : quiet.
Lemma quiet_uvmcopy o n sz : quiet (uvmcopy o n sz).
Proof. unfold uvmcopy. solve_quiet. Qed.
Lemma quiet_uvmclear pt va : quiet (uvmclear pt va).
Proof. unfold uvmclear. solve_quiet. Qed.
Lemma quiet_copyout_loop fuel pt va l n : quiet (copyout_loop fuel pt va l n).
Proof. revert va l n. induction fuel; intros; cbn [copyout_loop]; solve_quiet. Qed.
Lemma quiet_copyin_loop fuel pt va n acc : quiet (copyin_loop fuel pt va n acc).
Proof. revert va n acc. induction fuel; intros; cbn [copyin_loop]; solve_quiet. Qed.
Lemma quiet_copyinstr_loop fuel pt va n acc : quiet (copyinstr_loop fuel pt va n acc).
Proof. revert va n acc. induction fuel; intros; cbn [copyinstr_loop]; solve_quiet. Qed.
#[local] Hint Resolve quiet_copyout_loop quiet_copyin_loop quiet_copyinstr_loop : quiet.
Lemma quiet_copyout pt va l n : quiet (copyout pt va l n).
Proof. unfold copyout. solve_quiet. Qed.
Lemma quiet_copyin pt va n : quiet (copyin pt va n).
Proof. unfold copyin. solve_quiet. Qed.
Lemma quiet_copyinstr pt va n : quiet (copyinstr pt va n).
Proof. unfold copyinstr. solve_quiet. Qed.
End quiet_vm.
#[export] Hint Resolve quiet_walkaddr quiet_mappages quiet_uvmunmap quiet_uvmcreate quiet_uvmfirst
  quiet_uvmdealloc quiet_uvmalloc quiet_uvmfree quiet_uvmcopy quiet_uvmclear quiet_copyout
  quiet_copyin quiet_copyinstr : quiet.

(** ** Kernel code *)

(** The state while process [o], if any, runs. *)
Record ran (o : option nat) (s : kst) : Prop := {
  ran_len : length (k_procs s) = Z.to_nat NPROC;
  ran_cur : k_cur s = o;
  ran_state : ∀ q, p_state (proc_at q s) = RUNNING ↔ o = Some q;
  ran_kmem : kmem_lock (k_mm s) = false;
}.

(** The state in which process [p] gives up the CPU. *)
Record parked (p : nat) (s : kst) : Prop := {
  parked_len : length (k_procs s) = Z.to_nat NPROC;
  parked_cur : k_cur s = Some p;
  parked_held : k_held s = [Lproc p];
  parked_state : ∀ q, p_state (proc_at q s) ≠ RUNNING;
  parked_kmem : kmem_lock (k_mm s) = false;
}.

(** Kernel states inside larger ones. *)
Class Kern (S : Type) := kern_of : S → kst.
#[export] Instance kern_kst : Kern kst := id.

Section safe.
  Context {S : Type} {KS : Kern S}.

(** Code of process [o]: it returns as [Q] says, or gives up the CPU and goes
    on safely when it is resumed. *)
Inductive safe {A} (o : option nat) (Q : A → S → Prop) : res S A → Prop :=
| safe_ok a s : Q a s → safe o Q (Ok a s)
| safe_panic msg : lock_panic msg = false → safe o Q (Panic msg)
| safe_diverge : safe o Q Diverge
| safe_swtch p s k :
    o = Some p → parked p (kern_of s) →
    (∀ s', ran o (kern_of s') → k_held (kern_of s') = [Lproc p] → safe o Q (k s')) →
    safe o Q (Swtch s k).

(** Code of process [o] entered with the locks [h] returns with the locks
    [h']. *)
Definition bal {A} (o : option nat) (m : M S A) (h : list lockid) (h' : A → list lockid) : Prop :=
  ∀ s, ran o (kern_of s) → k_held (kern_of s) = h →
    safe o (λ a s', ran o (kern_of s') ∧ k_held (kern_of s') = h' a) (m s).

Lemma safe_inv {A} o (Q : A → S → Prop) r :
  safe o Q r →
  match r with
  | Ok a s => Q a s
  | Panic msg => lock_panic msg = false
  | Diverge => True
  | Swtch s k => ∃ p, o = Some p ∧ parked p (kern_of s) ∧
      ∀ s', ran o (kern_of s') → k_held (kern_of s') = [Lproc p] → safe o Q (k s')
  end.
Proof. intros []; try done. by exists p. Qed.

Lemma safe_bind {A B} o (P : A → S → Prop) (Q : B → S → Prop) r (f : A → M S B) :
  safe o P r → (∀ a s, P a s → safe o Q (f a s)) → safe o Q (res_bind r f).
Proof.
  intros Hr Hf. induction Hr as [a s Ha|msg Hm| |p s k Ho Hp _ IH]; simpl.
  - by apply Hf.
  - by constructor.
  - constructor.
  - by apply (safe_swtch o Q p).
Qed.

Lemma bal_bind {o} {A B} (m : M S A) (f : A → M S B) h h1 h2 :
  bal o m h h1 → (∀ a, bal o (f a) (h1 a) h2) → bal o (bind m f) h h2.
Proof.
  intros Hm Hf s Hs Hh. eapply safe_bind; [by apply Hm|]. intros a s1 [H1 H2]. by apply Hf.
Qed.

Lemma bal_ret {o} {A} (a : A) h h' : h = h' a → bal o (ret a) h h'.
Proof. intros -> s Hs Hh. by apply safe_ok. Qed.
Lemma bal_panic {o} {A} msg h h' : lock_panic msg = false → bal o (panic msg : M S A) h h'.
Proof. intros Hm s Hs Hh. by apply safe_panic. Qed.
Lemma bal_diverge {o} {A} h h' : bal o (diverge : M S A) h h'.
Proof. intros s Hs Hh. apply safe_diverge. Qed.
Lemma bal_gets {o} {A} (f : S → A) h : bal o (gets f) h (λ _, h).
Proof. intros s Hs Hh. by apply safe_ok. Qed.
Lemma bal_mfor {o} {A} (l : list A) (f : A → M S unit) h :
  (∀ x, bal o (f x) h (λ _, h)) → bal o (mfor l f) h (λ _, h).
Proof.
  intros H. induction l; cbn [mfor]; [by apply bal_ret | eapply bal_bind; [apply H | intros; done]].
Qed.
Lemma bal_mfold {o} {A B} (l : list A) (f : B → A → M S B) b h :
  (∀ b x, bal o (f b x) h (λ _, h)) → bal o (mfold l f b) h (λ _, h).
Proof.
  intros H. revert b. induction l; intros b; cbn [mfold];
    [by apply bal_ret | eapply bal_bind; [apply H | intros; done]].
Qed.
Lemma bal_modify {o} f h :
  (∀ s, ran o (kern_of s) → ran o (kern_of (f s)) ∧ k_held (kern_of (f s)) = k_held (kern_of s)) →
  bal o (modify f) h (λ _, h).
Proof.
  intros H s Hs Hh. destruct (H s Hs) as [H1 H2]. apply safe_ok. split; [done|]. by rewrite H2.
Qed.

(** The same, with a fact about the result. *)
Definition balf {A} (o : option nat) (m : M S A) (h : list lockid) (h' : A → list lockid)
    (F : A → Prop) : Prop :=
  ∀ s, ran o (kern_of s) → k_held (kern_of s) = h →
    safe o (λ a s', (ran o (kern_of s') ∧ k_held (kern_of s') = h' a) ∧ F a) (m s).

Lemma bal_bindf {o A B} (m : M S A) (f : A → M S B) h h1 h2 F :
  balf o m h h1 F → (∀ a, F a → bal o (f a) (h1 a) h2) → bal o (bind m f) h h2.
Proof.
  intros Hm Hf s Hs Hh. eapply safe_bind; [by apply Hm|]. intros a s1 [[H1 H2] Ha]. by apply Hf.
Qed.
Lemma balf_bind {o A B} (m : M S A) (f : A → M S B) h h1 h2 F :
  bal o m h h1 → (∀ a, balf o (f a) (h1 a) h2 F) → balf o (bind m f) h h2 F.
Proof.
  intros Hm Hf s Hs Hh. eapply safe_bind; [by apply Hm|]. intros a s1 [H1 H2]. by apply Hf.
Qed.
Lemma balf_bindf {o A B} (m : M S A) (f : A → M S B) h h1 h2 F F' :
  balf o m h h1 F → (∀ a, F a → balf o (f a) (h1 a) h2 F') → balf o (bind m f) h h2 F'.
Proof.
  intros Hm Hf s Hs Hh. eapply safe_bind; [by apply Hm|]. intros a s1 [[H1 H2] Ha]. by apply Hf.
Qed.
Lemma balf_ret {o A} (a : A) h h' F : h = h' a → F a → balf o (ret a) h h' F.
Proof. intros -> Ha s Hs Hh. by apply safe_ok. Qed.
End safe.

Section kernel_ops.
  Context {LK : Link} {WK : Wakeups}.
  Implicit Types (s : kst) (o : option nat).

Lemma ran_frame o s s' :
  ran o s → k_procs s' = k_procs s → k_cur s' = k_cur s → kmem_lock (k_mm s') = kmem_lock (k_mm s) →
  ran o s'.
Proof.
  intros [H1 H2 H3 H4] E1 E2 E3. split; [by rewrite E1 | by rewrite E2 | | by rewrite E3].
  intros q. unfold proc_at. rewrite E1. apply H3.
Qed.

Lemma ran_held o s h : ran o s → ran o (set_k_held h s).
Proof. intros H. by apply (ran_frame o s). Qed.

(** A process with another state than [RUNNING] is not the running one. *)
Lemma ran_other o s q : ran o s → p_state (proc_at q s) ≠ RUNNING → o ≠ Some q.
Proof. intros H Hq E. apply Hq. by apply (ran_state o s H). Qed.

Lemma ran_lt p s : ran (Some p) s → (p < length (k_procs s))%nat.
Proof.
  intros H. pose proof (proj2 (ran_state _ _ H p) eq_refl) as Hp. unfold proc_at in Hp.
  destruct (k_procs s !! p) eqn:E; [by apply lookup_lt_Some in E | done].
Qed.

(** Changing a process: what its state may become. *)
Lemma ran_mod o s q g :
  ran o s → (∀ pr, p_state (g pr) = RUNNING ↔ p_state pr = RUNNING) ∨
            (o ≠ Some q ∧ ∀ pr, p_state (g pr) ≠ RUNNING) →
  ran o (mod_proc q g s).
Proof.
  intros [H1 H2 H3 H4] Hg. split; [|done| |done].
  - cbn. by rewrite length_alter.
  - intros r. destruct (decide (r = q)) as [->|Hr]; [|by rewrite proc_at_mod_ne].
    rewrite <- H3. unfold proc_at, mod_proc. cbn. rewrite list_lookup_alter_eq.
    destruct (k_procs s !! q) as [pr|] eqn:E; [|done]. cbn. destruct Hg as [Hg|[Hq Hg]]; [done|].
    assert (p_state pr ≠ RUNNING).
    { intros E1. apply Hq, H3. unfold proc_at. by rewrite E. }
    split; [intros ?%Hg; done|done].
Qed.

Lemma bal_acquire {o} l h : l ∉ h → bal o (acquire l : M kst unit) h (λ _, l :: h).
Proof.
  intros Hl s Hs <-. change (kern_of s) with s in *.
  change (acquire l s) with (acquire_k l s). rewrite acquire_k_ok by done.
  apply safe_ok. split; [by apply ran_held|done].
Qed.
Lemma bal_release {o} l h : bal o (release l : M kst unit) (l :: h) (λ _, h).
Proof.
  intros s Hs Hh. change (kern_of s) with s in *.
  change (release l s) with (release_k l s). rewrite (release_k_top l h) by done.
  apply safe_ok. split; [by apply ran_held|done].
Qed.

Lemma bal_pget {o} {A} q (f : proc → A) h : bal o (pget q f) h (λ _, h).
Proof. apply bal_gets. Qed.
Lemma bal_pupd {o} q g h : (∀ pr, p_state (g pr) = p_state pr) → bal o (pupd q g) h (λ _, h).
Proof.
  intros Hg. apply bal_modify. intros s Hs. split; [|done]. apply (ran_mod o s); [done|].
  left. intros pr. by rewrite Hg.
Qed.
Lemma bal_pupd_state {o} q st h :
  o ≠ Some q → st ≠ RUNNING → bal o (pupd q (set_p_state st)) h (λ _, h).
Proof.
  intros Hq Hst. apply bal_modify. intros s Hs. split; [|done]. apply (ran_mod o s); [done|].
  right. by split.
Qed.
(** Reading the state of a process tells whether it is the running one. *)
Lemma bal_bind_state {o A} q (f : procstate → M kst A) h h2 :
  (∀ st, (st ≠ RUNNING → o ≠ Some q) → bal o (f st) h h2) →
  bal o (bind (pget q p_state) f) h h2.
Proof. intros Hf s Hs Hh. rewrite bind_pget. apply Hf; [|done|done]. by apply ran_other. Qed.
Lemma balf_bind_state {o A} q (f : procstate → M kst A) h h2 F :
  (∀ st, (st ≠ RUNNING → o ≠ Some q) → balf o (f st) h h2 F) →
  balf o (bind (pget q p_state) f) h h2 F.
Proof. intros Hf s Hs Hh. rewrite bind_pget. apply Hf; [|done|done]. by apply ran_other. Qed.
Lemma bal_curproc {o} h : bal o curproc h (λ _, h).
Proof.
  unfold curproc, myproc. eapply bal_bind; [apply bal_gets|]. intros [p|]; [by apply bal_ret|].
  by apply bal_panic.
Qed.
Lemma bal_set {o} (g : kst → kst) h :
  (∀ s, k_procs (g s) = k_procs s ∧ k_cur (g s) = k_cur s ∧ k_held (g s) = k_held s ∧
        kmem_lock (k_mm (g s)) = kmem_lock (k_mm s)) →
  bal o (modify g) h (λ _, h).
Proof.
  intros Hg. apply bal_modify. intros s Hs. destruct (Hg s) as (E1 & E2 & E3 & E4).
  split; [by apply (ran_frame o s)|done].
Qed.

Lemma bal_vm {o} {A} (m : M kmem A) h : quiet m → bal o (vm m) h (λ _, h).
Proof.
  intros Hm s Hs Hh. change (kern_of s) with s in *. specialize (Hm (k_mm s) (ran_kmem o s Hs)).
  unfold vm, zoom. cbn [lget]. destruct (m (k_mm s)) as [a mm|msg|mm k|]; cbn; try done.
  - apply safe_ok. split; [|done]. apply (ran_frame o s); try done. cbn. rewrite Hm. symmetry.
    apply (ran_kmem o s Hs).
  - by apply safe_panic.
  - apply safe_diverge.
Qed.

(** ** Giving up the CPU *)

(** [sched] by process [p], which holds its lock and has left [RUNNING]. *)
Lemma safe_sched {A} p s (f : unit → M kst A) (Q : A → kst → Prop) h :
  k_held s = Lproc p :: h → length (k_procs s) = Z.to_nat NPROC → k_cur s = Some p →
  (∀ q, p_state (proc_at q s) ≠ RUNNING) → kmem_lock (k_mm s) = false →
  (∀ s', h = [] → ran (Some p) s' → k_held s' = [Lproc p] → safe (Some p) Q (f tt s')) →
  safe (Some p) Q (bind sched f s).
Proof.
  intros Hh Hn Hc Hst Hk Hf. unfold sched. unfold bind at 1. rewrite (bind_curproc p) by done.
  rewrite bind_gets, Hh, bool_decide_true by (by left). cbn [negb].
  rewrite bind_gets. destruct (negb _) eqn:E; [by apply safe_panic|].
  rewrite bind_pget, bool_decide_false by apply Hst. bool_to_prop.
  rewrite Hh in E. cbn [length] in E. destruct h; [|cbn [length] in E; lia].
  unfold swtch. cbn [res_bind]. apply (safe_swtch _ _ p); [done|by split|].
  intros s' Hs' Hh'. by apply Hf.
Qed.

(** The state of [p] is the only one that was [RUNNING]. *)
Lemma leave_state p s st :
  ran (Some p) s → st ≠ RUNNING → ∀ q, p_state (proc_at q (mod_proc p (set_p_state st) s)) ≠ RUNNING.
Proof.
  intros Hs Hst q. destruct (decide (p = q)) as [->|Hq].
  - rewrite proc_at_mod by (by apply ran_lt). done.
  - rewrite proc_at_mod_ne by done. intros [= ?]%(ran_state _ _ Hs). congruence.
Qed.

(** [pupd p (set_p_state st) ;; sched] with the process's lock held. *)
Lemma safe_leave {A} p st s (f : unit → M kst A) (Q : A → kst → Prop) h :
  ran (Some p) s → k_held s = Lproc p :: h → st ≠ RUNNING →
  (∀ s', h = [] → ran (Some p) s' → k_held s' = [Lproc p] → safe (Some p) Q (f tt s')) →
  safe (Some p) Q (bind (pupd p (set_p_state st)) (λ _, bind sched f) s).
Proof.
  intros Hs Hh Hst Hf. rewrite bind_pupd. eapply safe_sched; try apply Hs; try done.
  - cbn. by rewrite length_alter, (ran_len _ _ Hs).
  - by apply leave_state.
Qed.

(** Without a process there is nothing to follow. *)
Lemma safe_no_proc {A} (f : nat → M kst A) (Q : A → kst → Prop) s :
  ran None s → safe None Q (bind curproc f s).
Proof.
  intros Hs. unfold bind at 1, curproc, myproc. rewrite bind_gets, (ran_cur _ _ Hs). by apply safe_panic.
Qed.

Lemma bal_yield {o} : bal o yield [] (λ _, []).
Proof.
  intros s Hs Hh. change (kern_of s) with s in *. unfold yield.
  destruct o as [p|]; [|by apply safe_no_proc].
  rewrite (bind_curproc p), bind_acquire_k by (try apply Hs; rewrite Hh; apply not_elem_of_nil).
  eapply (safe_leave p); [by apply ran_held|done|done|].
  intros s' _ Hs' Hh'. rewrite (release_k_top _ []) by done. apply safe_ok.
  split; [by apply ran_held|done].
Qed.

Lemma bal_sleep {o} c l h :
  ¬ is_plock l → no_plock h → bal o (sleep c l : M kst unit) (l :: h) (λ _, l :: h).
Proof.
  intros Hl Hno s Hs Hh. change (kern_of s) with s in *.
  change (sleep c l s) with (sleep_k c l s). unfold sleep_k.
  destruct o as [p|]; [|by apply safe_no_proc].
  assert (Hp : Lproc p ≠ l) by (intros <-; apply Hl; by exists p).
  assert (Hp' : Lproc p ∉ k_held s) by (rewrite Hh, not_elem_of_cons; by split; [|apply Hno]).
  rewrite (bind_curproc p), bind_acquire_k by first [done | apply Hs].
  unfold bind at 1. rewrite release_k_ok by (cbn; rewrite Hh; right; left).
  cbn [res_bind]. rewrite bind_pupd.
  eapply (safe_leave p _ _ _ _ h); [|cbn; rewrite Hh; cbn; by rewrite decide_False, decide_True|done|].
  { apply (ran_mod (Some p)); [by apply ran_held, ran_held|]. by left. }
  intros s' -> Hs' Hh'. rewrite bind_pupd, (bind_release_k _ []) by done.
  rewrite acquire_k_ok by apply not_elem_of_nil. apply safe_ok.
  split; [|done]. apply ran_held, ran_held, (ran_mod (Some p)); [done|by left].
Qed.

Lemma bal_wakeup {o} c h : no_plock h → bal o (wakeup c : M kst unit) h (λ _, h).
Proof.
  intros Hno s Hs Hh. change (kern_of s) with s in *.
  change (wakeup c s) with (wakeup_k c s).
  rewrite wakeup_k_ok by (rewrite ?Hh; apply Hno || apply Hs). apply safe_ok. split; [|done].
  destruct Hs as [H1 H2 H3 H4]. split; [cbn; by rewrite all_woken_length | done | | done].
  intros q. rewrite <- H3. unfold proc_at. cbn. unfold all_woken. rewrite list_lookup_imap.
  destruct (k_procs s !! q) as [pr|]; [|done]. cbn. case_bool_decide; [done|].
  unfold woken. case_bool_decide as Hw; [|done]. cbn. naive_solver congruence.
Qed.

Lemma bal_mypid {o} h : bal o (mypid : M kst Z) h (λ _, h).
Proof. eapply bal_bind; [apply bal_curproc|]. intros p. apply bal_pget. Qed.
Lemma bal_mycwd {o} h : bal o (mycwd : M kst nat) h (λ _, h).
Proof.
  eapply bal_bind; [apply bal_curproc|]. intros p. eapply bal_bind; [apply bal_pget|].
  intros [i|]; [by apply bal_ret | by apply bal_panic].
Qed.
Lemma bal_killed {o} p h : no_plock h → bal o (killed p) h (λ _, h).
Proof.
  intros Hno. unfold killed. eapply bal_bind; [apply bal_acquire, Hno|]. intros ?.
  eapply bal_bind; [apply bal_pget|]. intros k. eapply bal_bind; [apply bal_release|].
  intros ?. by apply bal_ret.
Qed.
Lemma bal_setkilled {o} p h : no_plock h → bal o (setkilled p) h (λ _, h).
Proof.
  intros Hno. unfold setkilled. eapply bal_bind; [apply bal_acquire, Hno|]. intros ?.
  eapply bal_bind; [by apply bal_pupd|]. intros k. apply bal_release.
Qed.
Lemma bal_mykilled {o} h : no_plock h → bal o (mykilled : M kst bool) h (λ _, h).
Proof.
  intros Hno. eapply bal_bind; [apply bal_curproc|]. intros p.
  eapply bal_bind; [by apply bal_killed|]. intros k. by apply bal_ret.
Qed.
Lemma bal_ucopyout {o} va l h : bal o (ucopyout va l : M kst Z) h (λ _, h).
Proof.
  eapply bal_bind; [apply bal_curproc|]. intros p. eapply bal_bind; [apply bal_pget|].
  intros pt. apply bal_vm, quiet_copyout.
Qed.
Lemma bal_ucopyin {o} va l h : bal o (ucopyin va l : M kst (Z * list Z)) h (λ _, h).
Proof.
  eapply bal_bind; [apply bal_curproc|]. intros p. eapply bal_bind; [apply bal_pget|].
  intros pt. apply bal_vm, quiet_copyin.
Qed.

Lemma bal_wait_while {o} fuel (cond : M kst bool) c l h :
  ¬ is_plock l → no_plock h → bal o cond (l :: h) (λ _, l :: h) →
  bal o (wait_while fuel cond c l) (l :: h) (λ _, l :: h).
Proof.
  intros Hl Hh Hc. induction fuel as [|fuel IH]; cbn [wait_while]; (eapply bal_bind; [done|]);
    (intros []; [|by apply bal_ret]).
  - apply bal_diverge.
  - eapply bal_bind; [by apply bal_sleep|]. by intros [].
Qed.

(** The states of the components are apart from the process table. *)
Lemma bal_upd_fs {o} (f : fsst → fsst) h : bal o (upd f : M kst unit) h (λ _, h).
Proof. by apply bal_set. Qed.
Lemma bal_upd_pipes {o} (f : gmap Z pipe → gmap Z pipe) h : bal o (upd f : M kst unit) h (λ _, h).
Proof. by apply bal_set. Qed.
Lemma bal_upd_cons {o} (f : consst → consst) h : bal o (upd f : M kst unit) h (λ _, h).
Proof. by apply bal_set. Qed.
End kernel_ops.

(** ** Automation

    [solve_bal] walks down the code; what it calls is looked up among the
    hints, and the conditions on the locks held are decided. *)
Create HintDb bal.

Ltac solve_locks :=
  try assumption;
  lazymatch goal with
  | |- _ ∉ [] => apply not_elem_of_nil
  | |- _ ∉ _ :: _ => apply not_elem_of_cons; split; [congruence | solve_locks]
  | H : no_plock ?h |- Lproc _ ∉ ?h => apply H
  | |- no_plock _ => intros ?; solve_locks
  | |- ¬ is_plock _ => intros [? ?]; discriminate
  end.

#[export] Hint Resolve bal_gets bal_pget bal_curproc bal_release bal_mypid bal_mycwd bal_ucopyout
  bal_ucopyin bal_upd_fs bal_upd_pipes bal_upd_cons bal_diverge : bal.
#[export] Hint Extern 1 (bal _ (acquire _) _ _) => apply bal_acquire; solve_locks : bal.
#[export] Hint Extern 1 (bal _ (sleep _ _) _ _) => apply bal_sleep; solve_locks : bal.
#[export] Hint Extern 1 (bal _ (wakeup _) _ _) => apply bal_wakeup; solve_locks : bal.
#[export] Hint Extern 1 (bal _ (killed _) _ _) => apply bal_killed; solve_locks : bal.
#[export] Hint Extern 1 (bal _ (setkilled _) _ _) => apply bal_setkilled; solve_locks : bal.
#[export] Hint Extern 1 (bal _ mykilled _ _) => apply bal_mykilled; solve_locks : bal.
#[export] Hint Extern 1 (bal _ (pupd _ _) _ _) => apply bal_pupd; reflexivity : bal.
#[export] Hint Extern 1 (bal _ (modify _) _ _) => apply bal_set; intros; repeat split : bal.
#[export] Hint Extern 1 (bal _ (vm _) _ _) => apply bal_vm; solve_quiet : bal.
#[export] Hint Extern 1 (bal _ (panic _) _ _) => apply bal_panic; reflexivity : bal.
#[export] Hint Extern 1 (bal _ (ret _) _ _) => apply bal_ret; reflexivity : bal.

Ltac bal_step :=
  lazymatch goal with
  | |- bal _ (bind _ _) ?h _ =>
      first [eapply bal_bind; [solve [eauto 3 with bal nocore] | intros ?]
            |apply (bal_bind _ _ h (λ _, h)); [|intros ?]]
  | |- bal _ (wait_while _ _ _ _) _ _ => apply bal_wait_while; [solve_locks|solve_locks|]
  | |- bal _ (if negb ?b then _ else _) _ _ => destruct b; cbn [negb]
  | |- bal _ (if ?b then _ else _) _ _ => destruct b
  | |- bal _ (match ?x with _ => _ end) _ _ => destruct x
  | |- bal _ (mfor _ _) _ _ => apply bal_mfor; intros ?
  | |- bal _ (mfold _ _ _) _ _ => apply bal_mfold; intros ? ?
  | |- bal _ _ _ _ => solve [eauto 3 with bal nocore]
  end.
Ltac solve_bal := cbv beta zeta; repeat (bal_step; cbv beta zeta).

Section bal_lib.
  Context {LK : Link} {WK : Wakeups}.

Lemma bal_get_fs {o} {A} (f : fsst → A) h : bal o (get f : M kst A) h (λ _, h).
Proof. apply bal_gets. Qed.
Lemma bal_get_pipes {o} {A} (f : gmap Z pipe → A) h : bal o (get f : M kst A) h (λ _, h).
Proof. apply bal_gets. Qed.
Lemma bal_get_cons {o} {A} (f : consst → A) h : bal o (get f : M kst A) h (λ _, h).
Proof. apply bal_gets. Qed.

Lemma bal_either_copyout {o} b d l h : bal o (either_copyout b d l : M kst Z) h (λ _, h).
Proof. unfold either_copyout. solve_bal. Qed.
Lemma bal_either_copyin {o} c n h : bal o (either_copyin c n : M kst (Z * list Z)) h (λ _, h).
Proof. unfold either_copyin. solve_bal. Qed.
End bal_lib.
#[export] Hint Resolve bal_get_fs bal_get_pipes bal_get_cons bal_either_copyout bal_either_copyin : bal.
