(* ===== verification/DisciplineFs.v ===== *)
(** * Lock discipline of the file system, pipes and the console

    [bal] for every function of [kernel/sleeplock.c], [bio.c], [log.c],
    [fs.c], [pipe.c], [console.c], [uart.c] and [printf.c].  Code that may
    sleep is entered without spinlocks. *)

From S2P Require Import Base Riscv Mem Kalloc Vm Kernel Pipe Console Printf Sleeplock FsState Bio Log Fs.
From S2P Require Import Kstate KstateLaws Discipline.
Local Open Scope Z_scope.
Local Open Scope kernel_scope.

Section fs.
  Context {LK : Link} {WK : Wakeups}.
  Local Notation K A := (M kst A).

(** ** Sleep locks *)
Lemma bal_acquiresleep {o} lk h :
  no_plock h → Lsleep lk ∉ h → bal o (acquiresleep lk : K unit) h (λ _, h).
Proof. intros Hp Hl. unfold acquiresleep. solve_bal. Qed.
Lemma bal_releasesleep {o} lk h :
  no_plock h → Lsleep lk ∉ h → bal o (releasesleep lk : K unit) h (λ _, h).
Proof. intros Hp Hl. unfold releasesleep. solve_bal. Qed.
Lemma bal_holdingsleep {o} lk h : Lsleep lk ∉ h → bal o (holdingsleep lk : K bool) h (λ _, h).
Proof. intros Hl. unfold holdingsleep. solve_bal. Qed.
#[local] Hint Extern 1 (bal _ (acquiresleep _) _ _) => apply bal_acquiresleep; solve_locks : bal.
#[local] Hint Extern 1 (bal _ (releasesleep _) _ _) => apply bal_releasesleep; solve_locks : bal.
#[local] Hint Extern 1 (bal _ (holdingsleep _) _ _) => apply bal_holdingsleep; solve_locks : bal.

(** ** Buffers *)
Lemma bal_bget {o} dev b : bal o (bget dev b : K nat) [] (λ _, []).
Proof. unfold bget. solve_bal. Qed.
Lemma bal_disk_rw {o} b w h : bal o (disk_rw b w : K unit) h (λ _, h).
Proof. unfold disk_rw. solve_bal. Qed.
#[local] Hint Resolve bal_bget bal_disk_rw : bal.
Lemma bal_bread {o} dev b : bal o (bread dev b : K nat) [] (λ _, []).
Proof. unfold bread. solve_bal. Qed.
Lemma bal_bwrite {o} b : bal o (bwrite b : K unit) [] (λ _, []).
Proof. unfold bwrite. solve_bal. Qed.
Lemma bal_brelse {o} b : bal o (brelse b : K unit) [] (λ _, []).
Proof. unfold brelse. solve_bal. Qed.
Lemma bal_bpin {o} b h : Lbcache ∉ h → bal o (bpin b : K unit) h (λ _, h).
Proof. intros Hl. unfold bpin. solve_bal. Qed.
Lemma bal_bunpin {o} b h : Lbcache ∉ h → bal o (bunpin b : K unit) h (λ _, h).
Proof. intros Hl. unfold bunpin. solve_bal. Qed.
#[local] Hint Resolve bal_bread bal_bwrite bal_brelse : bal.
#[local] Hint Extern 1 (bal _ (bpin _) _ _) => apply bal_bpin; solve_locks : bal.
#[local] Hint Extern 1 (bal _ (bunpin _) _ _) => apply bal_bunpin; solve_locks : bal.

(** ** The log *)
Lemma bal_bdata {o} b h : bal o (bdata b : K (list Z)) h (λ _, h).
Proof. unfold bdata. solve_bal. Qed.
#[local] Hint Resolve bal_bdata : bal.
Lemma bal_install_trans {o} r : bal o (install_trans r : K unit) [] (λ _, []).
Proof. unfold install_trans. solve_bal. Qed.
Lemma bal_read_head {o} : bal o (read_head : K unit) [] (λ _, []).
Proof. unfold read_head. solve_bal. Qed.
Lemma bal_write_head {o} : bal o (write_head : K unit) [] (λ _, []).
Proof. unfold write_head. solve_bal. Qed.
#[local] Hint Resolve bal_install_trans bal_read_head bal_write_head : bal.
Lemma bal_recover_from_log {o} : bal o (recover_from_log : K unit) [] (λ _, []).
Proof. unfold recover_from_log. solve_bal. Qed.
#[local] Hint Resolve bal_recover_from_log : bal.
Lemma bal_initlog {o} dev sb : bal o (initlog dev sb : K unit) [] (λ _, []).
Proof. unfold initlog. solve_bal. Qed.
Lemma bal_write_log {o} : bal o (write_log : K unit) [] (λ _, []).
Proof. unfold write_log. solve_bal. Qed.
#[local] Hint Resolve bal_initlog bal_write_log : bal.
Lemma bal_commit {o} : bal o (commit : K unit) [] (λ _, []).
Proof. unfold commit. solve_bal. Qed.
#[local] Hint Resolve bal_commit : bal.
Lemma bal_begin_op {o} : bal o (begin_op : K unit) [] (λ _, []).
Proof. unfold begin_op. solve_bal. Qed.
Lemma bal_end_op {o} : bal o (end_op : K unit) [] (λ _, []).
Proof. unfold end_op. solve_bal. Qed.
Lemma bal_log_write {o} b : bal o (log_write b : K unit) [] (λ _, []).
Proof. unfold log_write. solve_bal. Qed.
#[local] Hint Resolve bal_begin_op bal_end_op bal_log_write : bal.

(** ** Inodes *)
Lemma bal_ifield {o} {A} (f : inode → A) ip h : bal o (ifield f ip : K A) h (λ _, h).
Proof. unfold ifield. solve_bal. Qed.
Lemma bal_iset {o} g ip h : bal o (iset g ip : K unit) h (λ _, h).
Proof. unfold iset. solve_bal. Qed.
Lemma bal_bset {o} g b h : bal o (bset g b : K unit) h (λ _, h).
Proof. unfold bset. solve_bal. Qed.
Lemma bal_get_sb {o} h : bal o (get_sb : K superblock) h (λ _, h).
Proof. unfold get_sb. solve_bal. Qed.
#[local] Hint Resolve bal_ifield bal_iset bal_bset bal_get_sb : bal.
Lemma bal_readsb {o} dev : bal o (readsb dev : K unit) [] (λ _, []).
Proof. unfold readsb. solve_bal. Qed.
#[local] Hint Resolve bal_readsb : bal.
Lemma bal_fsinit {o} dev : bal o (fsinit dev : K unit) [] (λ _, []).
Proof. unfold fsinit. solve_bal. Qed.
Lemma bal_bzero {o} dev b : bal o (bzero dev b : K unit) [] (λ _, []).
Proof. unfold bzero. solve_bal. Qed.
#[local] Hint Resolve bal_bzero : bal.
Lemma bal_balloc_loop {o} fuel dev b : bal o (balloc_loop fuel dev b : K Z) [] (λ _, []).
Proof. revert b. induction fuel; intros; cbn [balloc_loop]; solve_bal. Qed.
#[local] Hint Resolve bal_balloc_loop : bal.
Lemma bal_balloc {o} dev : bal o (balloc dev : K Z) [] (λ _, []).
Proof. unfold balloc. solve_bal. Qed.
Lemma bal_bfree {o} dev b : bal o (bfree dev b : K unit) [] (λ _, []).
Proof. unfold bfree. solve_bal. Qed.
#[local] Hint Resolve bal_balloc bal_bfree : bal.
Lemma bal_iget {o} dev i h : Litable ∉ h → bal o (iget dev i : K nat) h (λ _, h).
Proof. intros Hl. unfold iget. solve_bal. Qed.
#[local] Hint Extern 1 (bal _ (iget _ _) _ _) => apply bal_iget; solve_locks : bal.
Lemma bal_ialloc_loop {o} fuel dev ty i : bal o (ialloc_loop fuel dev ty i : K (option nat)) [] (λ _, []).
Proof. revert i. induction fuel; intros; cbn [ialloc_loop]; solve_bal. Qed.
#[local] Hint Resolve bal_ialloc_loop : bal.
Lemma bal_ialloc {o} dev ty : bal o (ialloc dev ty : K (option nat)) [] (λ _, []).
Proof. unfold ialloc. solve_bal. Qed.
Lemma bal_iupdate {o} ip : bal o (iupdate ip : K unit) [] (λ _, []).
Proof. unfold iupdate. solve_bal. Qed.
Lemma bal_idup {o} ip h : Litable ∉ h → bal o (idup ip : K nat) h (λ _, h).
Proof. intros Hl. unfold idup. solve_bal. Qed.
Lemma bal_ilock {o} ip : bal o (ilock ip : K unit) [] (λ _, []).
Proof. unfold ilock. solve_bal. Qed.
Lemma bal_iunlock {o} ip : bal o (iunlock ip : K unit) [] (λ _, []).
Proof. unfold iunlock. solve_bal. Qed.
#[local] Hint Resolve bal_ialloc bal_iupdate bal_ilock bal_iunlock : bal.
#[local] Hint Extern 1 (bal _ (idup _) _ _) => apply bal_idup; solve_locks : bal.
Lemma bal_iaddr {o} ip i h : bal o (iaddr ip i : K Z) h (λ _, h).
Proof. unfold iaddr. solve_bal. Qed.
#[local] Hint Resolve bal_iaddr : bal.
Lemma bal_bmap {o} ip bn : bal o (bmap ip bn : K Z) [] (λ _, []).
Proof. unfold bmap. solve_bal. Qed.
Lemma bal_itrunc {o} ip : bal o (itrunc ip : K unit) [] (λ _, []).
Proof. unfold itrunc. solve_bal. Qed.
#[local] Hint Resolve bal_bmap bal_itrunc : bal.
Lemma bal_iput {o} ip : bal o (iput ip : K unit) [] (λ _, []).
Proof. unfold iput. solve_bal. Qed.
#[local] Hint Resolve bal_iput : bal.
Lemma bal_iunlockput {o} ip : bal o (iunlockput ip : K unit) [] (λ _, []).
Proof. unfold iunlockput. solve_bal. Qed.
Lemma bal_stati {o} ip h : bal o (stati ip : K stat) h (λ _, h).
Proof. unfold stati. solve_bal. Qed.
Lemma bal_readi_loop {o} fuel ip u d off n tot acc :
  bal o (readi_loop fuel ip u d off n tot acc : K (Z * list Z)) [] (λ _, []).
Proof. revert d off tot acc. induction fuel; intros; cbn [readi_loop]; solve_bal. Qed.
#[local] Hint Resolve bal_iunlockput bal_stati bal_readi_loop : bal.
Lemma bal_readi {o} ip u d off n : bal o (readi ip u d off n : K (Z * list Z)) [] (λ _, []).
Proof. unfold readi. solve_bal. Qed.
Lemma bal_writei_loop {o} fuel ip u off n tot :
  bal o (writei_loop fuel ip u off n tot : K (Z * Z)) [] (λ _, []).
Proof. revert u off tot. induction fuel; intros; cbn [writei_loop]; solve_bal. Qed.
#[local] Hint Resolve bal_readi bal_writei_loop : bal.
Lemma bal_writei {o} ip u off n : bal o (writei ip u off n : K Z) [] (λ _, []).
Proof. unfold writei. solve_bal. Qed.
#[local] Hint Resolve bal_writei : bal.

(** ** Directories and paths *)
Lemma bal_dirlookup_loop {o} fuel dp name off :
  bal o (dirlookup_loop fuel dp name off : K (option (nat * Z))) [] (λ _, []).
Proof. revert off. induction fuel; intros; cbn [dirlookup_loop]; solve_bal. Qed.
#[local] Hint Resolve bal_dirlookup_loop : bal.
Lemma bal_dirlookup {o} dp name : bal o (dirlookup dp name : K (option (nat * Z))) [] (λ _, []).
Proof. unfold dirlookup. solve_bal. Qed.
Lemma bal_dirlink_loop {o} fuel dp off : bal o (dirlink_loop fuel dp off : K Z) [] (λ _, []).
Proof. revert off. induction fuel; intros; cbn [dirlink_loop]; solve_bal. Qed.
#[local] Hint Resolve bal_dirlookup bal_dirlink_loop : bal.
Lemma bal_dirlink {o} dp name inum : bal o (dirlink dp name inum : K Z) [] (λ _, []).
Proof. unfold dirlink. solve_bal. Qed.
Lemma bal_namex_loop {o} fuel ip path pa name :
  bal o (namex_loop fuel ip path pa name : K (option (nat * list Z))) [] (λ _, []).
Proof. revert ip path name. induction fuel; intros; cbn [namex_loop]; solve_bal. Qed.
#[local] Hint Resolve bal_dirlink bal_namex_loop : bal.
Lemma bal_namex {o} path pa : bal o (namex path pa : K (option (nat * list Z))) [] (λ _, []).
Proof. unfold namex. solve_bal. Qed.
#[local] Hint Resolve bal_namex : bal.
Lemma bal_namei {o} path : bal o (namei path : K (option nat)) [] (λ _, []).
Proof. unfold namei. solve_bal. Qed.
Lemma bal_nameiparent {o} path : bal o (nameiparent path : K (option (nat * list Z))) [] (λ _, []).
Proof. unfold nameiparent. solve_bal. Qed.

(** ** Pipes *)
Lemma bal_pipe_get {o} {A} pi (f : pipe → A) h : bal o (pipe_get pi f : K A) h (λ _, h).
Proof. unfold pipe_get. solve_bal. Qed.
Lemma bal_pipe_upd {o} pi f h : bal o (pipe_upd pi f : K unit) h (λ _, h).
Proof. unfold pipe_upd. solve_bal. Qed.
#[local] Hint Resolve bal_pipe_get bal_pipe_upd : bal.
Lemma bal_pipewrite_done {o} pi i : bal o (pipewrite_done pi i : K Z) [Lpipe pi] (λ _, []).
Proof. unfold pipewrite_done. solve_bal. Qed.
#[local] Hint Resolve bal_pipewrite_done : bal.
Lemma bal_pipewrite_loop {o} fuel pi a n i : bal o (pipewrite_loop fuel pi a n i : K Z) [Lpipe pi] (λ _, []).
Proof. revert i. induction fuel; intros; cbn [pipewrite_loop]; solve_bal. Qed.
#[local] Hint Resolve bal_pipewrite_loop : bal.
Lemma bal_pipewrite {o} pi a n : bal o (pipewrite pi a n : K Z) [] (λ _, []).
Proof. unfold pipewrite. solve_bal. Qed.
Lemma bal_piperead_loop {o} fuel pi a n i :
  bal o (piperead_loop fuel pi a n i : K Z) [Lpipe pi] (λ _, [Lpipe pi]).
Proof. revert i. induction fuel; intros; cbn [piperead_loop]; solve_bal. Qed.
Lemma bal_piperead_wait {o} fuel pi :
  bal o (piperead_wait fuel pi : K bool) [Lpipe pi] (λ b : bool, if b then [Lpipe pi] else []).
Proof. induction fuel; intros; cbn [piperead_wait]; solve_bal. Qed.
#[local] Hint Resolve bal_piperead_loop bal_piperead_wait : bal.
Lemma bal_piperead {o} pi a n : bal o (piperead pi a n : K Z) [] (λ _, []).
Proof. unfold piperead. solve_bal. Qed.

(** ** The console *)
Lemma bal_uartstart_loop {o} fuel h : no_plock h → bal o (uartstart_loop fuel : K unit) h (λ _, h).
Proof. intros Hp. induction fuel; intros; cbn [uartstart_loop]; solve_bal. Qed.
#[local] Hint Extern 1 (bal _ (uartstart_loop _) _ _) => apply bal_uartstart_loop; solve_locks : bal.
Lemma bal_uartstart {o} h : no_plock h → bal o (uartstart : K unit) h (λ _, h).
Proof. intros Hp. unfold uartstart. solve_bal. Qed.
#[local] Hint Extern 1 (bal _ uartstart _ _) => apply bal_uartstart; solve_locks : bal.
Lemma bal_uartputc {o} c : bal o (uartputc c : K unit) [] (λ _, []).
Proof. unfold uartputc. solve_bal. Qed.
Lemma bal_uartputc_sync {o} c h : bal o (uartputc_sync c : K unit) h (λ _, h).
Proof. unfold uartputc_sync. solve_bal. Qed.
Lemma bal_uartgetc {o} h : bal o (uartgetc : K Z) h (λ _, h).
Proof. unfold uartgetc. solve_bal. Qed.
#[local] Hint Resolve bal_uartputc bal_uartputc_sync bal_uartgetc : bal.
Lemma bal_consputc {o} c h : bal o (consputc c : K unit) h (λ _, h).
Proof. unfold consputc. solve_bal. Qed.
#[local] Hint Resolve bal_consputc : bal.
Lemma bal_consolewrite_loop {o} fuel src n i : bal o (consolewrite_loop fuel src n i : K Z) [] (λ _, []).
Proof. revert src i. induction fuel; intros; cbn [consolewrite_loop]; solve_bal. Qed.
#[local] Hint Resolve bal_consolewrite_loop : bal.
Lemma bal_consolewrite {o} src n : bal o (consolewrite src n : K Z) [] (λ _, []).
Proof. unfold consolewrite. solve_bal. Qed.
Lemma bal_consoleread_wait {o} fuel :
  bal o (consoleread_wait fuel : K bool) [Lcons] (λ b : bool, if b then [Lcons] else []).
Proof. induction fuel; intros; cbn [consoleread_wait]; solve_bal. Qed.
Lemma bal_cons_next {o} h : bal o (cons_next : K Z) h (λ _, h).
Proof. unfold cons_next. solve_bal. Qed.
#[local] Hint Resolve bal_consoleread_wait bal_cons_next : bal.
Lemma bal_consoleread_loop {o} fuel u d n tg acc :
  bal o (consoleread_loop fuel u d n tg acc : K (option Z * list Z)) [Lcons]
    (λ r, match r.1 with Some _ => [Lcons] | None => [] end).
Proof. revert d n acc. induction fuel; intros; cbn [consoleread_loop]; solve_bal. Qed.
#[local] Hint Resolve bal_consoleread_loop : bal.
Lemma bal_consoleread {o} u d n : bal o (consoleread u d n : K (Z * list Z)) [] (λ _, []).
Proof.
  unfold consoleread. eapply bal_bind; [eauto with bal|]. intros ?.
  eapply bal_bind; [apply bal_consoleread_loop|]. intros [[?|] ?]; cbn [fst]; solve_bal.
Qed.
Lemma bal_kill_line {o} fuel h : bal o (kill_line fuel : K unit) h (λ _, h).
Proof. induction fuel; intros; cbn [kill_line]; solve_bal. Qed.
#[local] Hint Resolve bal_kill_line : bal.
Lemma bal_consoleintr {o} pd c :
  bal o (pd : K unit) [Lcons] (λ _, [Lcons]) → bal o (consoleintr pd c : K unit) [] (λ _, []).
Proof. intros Hd. unfold consoleintr. solve_bal. Qed.
#[local] Hint Resolve bal_consoleintr : bal.
Lemma bal_uartintr {o} pd :
  bal o (pd : K unit) [Lcons] (λ _, [Lcons]) → bal o (uartintr pd : K unit) [] (λ _, []).
Proof.
  intros Hd. assert (Hl : ∀ fuel, bal o (uartintr_loop fuel pd : K unit) [] (λ _, [])).
  { induction fuel; cbn [uartintr_loop]; solve_bal. }
  unfold uartintr. solve_bal.
Qed.

(** ** printf *)
Lemma bal_printint {o} x b sg h : bal o (printint x b sg : K unit) h (λ _, h).
Proof. unfold printint. solve_bal. Qed.
Lemma bal_printptr_loop {o} n x h : bal o (printptr_loop n x : K unit) h (λ _, h).
Proof. revert x. induction n; intros; cbn [printptr_loop]; solve_bal. Qed.
#[local] Hint Resolve bal_printint bal_printptr_loop : bal.
Lemma bal_printptr {o} x h : bal o (printptr x : K unit) h (λ _, h).
Proof. unfold printptr. solve_bal. Qed.
#[local] Hint Resolve bal_printptr : bal.
Lemma bal_printf_loop {o} n fmt ap h :
  (length fmt ≤ n)%nat → bal o (printf_loop fmt ap : K unit) h (λ _, h).
Proof.
  revert fmt ap. induction n as [|n IH]; intros [|c fmt] ap Hn; cbn [printf_loop]; simpl in Hn;
    try (exfalso; lia); solve_bal; apply IH; simpl in *; lia.
Qed.
Lemma bal_printf {o} fmt ap h : Lpr ∉ h → bal o (printf fmt ap : K unit) h (λ _, h).
Proof.
  intros Hl. unfold printf. eapply bal_bind; [eauto with bal|]. intros [].
  - eapply bal_bind; [by apply bal_acquire|]. intros ?.
    eapply bal_bind; [by apply (bal_printf_loop (length fmt))|]. intros ?. apply bal_release.
  - eapply bal_bind; [by apply bal_ret with (h' := λ _, h)|]. intros ?.
    eapply bal_bind; [by apply (bal_printf_loop (length fmt))|]. intros ?. by apply bal_ret.
Qed.
End fs.

#[export] Hint Resolve bal_bread bal_bwrite bal_brelse bal_begin_op bal_end_op bal_log_write
  bal_ifield bal_iset bal_bset bal_get_sb bal_fsinit bal_ialloc bal_iupdate bal_ilock bal_iunlock
  bal_itrunc bal_iput bal_iunlockput bal_stati bal_readi bal_writei bal_dirlookup bal_dirlink
  bal_namei bal_nameiparent bal_pipe_get bal_pipe_upd bal_pipewrite bal_piperead
  bal_consolewrite bal_consoleread bal_uartintr : bal.
#[export] Hint Extern 1 (bal _ (iget _ _) _ _) => apply bal_iget; solve_locks : bal.
#[export] Hint Extern 1 (bal _ (idup _) _ _) => apply bal_idup; solve_locks : bal.
#[export] Hint Extern 1 (bal _ (printf _ _) _ _) => apply bal_printf; solve_locks : bal.
