(* ===== verification/DisciplineSys.v ===== *)
(** * Lock discipline of processes, files and system calls

    [bal] for the functions of [kernel/proc.c], [file.c], [exec.c],
    [sysproc.c], [sysfile.c], [syscall.c] and [trap.c]. *)

From S2P Require Import Base Riscv Mem Kalloc Vm Kernel Pipe Console Printf Sleeplock FsState Bio Virtio Log Fs.
From S2P Require Import Kstate KstateLaws Proc File Life Args Exec Sysproc Sysfile Syscall Trap.
From S2P Require Import Discipline DisciplineFs.
Local Open Scope Z_scope.
Local Open Scope kernel_scope.

(** What [allocproc] gives is not the running process, and is locked. *)
Definition fresh (o : option nat) (r : option nat) : Prop :=
  match r with Some q => o ≠ Some q | None => True end.
Definition with_lock (h : list lockid) (r : option nat) : list lockid :=
  match r with Some q => Lproc q :: h | None => h end.

Section sys.
  Context {LK : Link} {WK : Wakeups}.

(** ** proc.c *)
Lemma bal_allocpid {o} h : Lpid ∉ h → bal o allocpid h (λ _, h).
Proof. intros Hl. unfold allocpid. solve_bal. Qed.
#[local] Hint Extern 1 (bal _ allocpid _ _) => apply bal_allocpid; solve_locks : bal.
Lemma bal_proc_pagetable {o} p h : bal o (proc_pagetable p) h (λ _, h).
Proof. unfold proc_pagetable. solve_bal. Qed.
Lemma bal_proc_freepagetable {o} pt sz h : bal o (proc_freepagetable pt sz) h (λ _, h).
Proof. unfold proc_freepagetable. solve_bal. Qed.
#[local] Hint Resolve bal_proc_pagetable bal_proc_freepagetable : bal.
#[local] Hint Extern 2 (bal _ (pupd _ (set_p_state _)) _ _) => by apply bal_pupd_state : bal.
Lemma bal_freeproc {o} p h : o ≠ Some p → bal o (freeproc p) h (λ _, h).
Proof. intros Hp. unfold freeproc. solve_bal. Qed.
#[local] Hint Resolve bal_freeproc : bal.

Lemma balf_allocproc_scan {o} l : balf o (allocproc_scan l) [] (with_lock []) (fresh o).
Proof.
  induction l as [|p l IH]; cbn [allocproc_scan]; [by apply balf_ret|].
  eapply balf_bind; [eauto with bal|]. intros ?. apply balf_bind_state. intros st Hst.
  case_bool_decide as E; [apply balf_ret; [done|]; apply Hst; by rewrite E|].
  eapply balf_bind; [eauto with bal|]. done.
Qed.

Lemma balf_allocproc_found {o} p :
  o ≠ Some p → balf o (allocproc_found p) [Lproc p] (with_lock []) (fresh o).
Proof.
  intros Hp. unfold allocproc_found.
  repeat first [eapply balf_bind; [solve [eauto with bal]|]; intros ?; cbv beta
               |apply balf_ret; done
               |case_if].
Qed.

Lemma balf_allocproc {o} : balf o allocproc [] (with_lock []) (fresh o).
Proof.
  unfold allocproc. eapply balf_bindf; [apply balf_allocproc_scan|].
  intros [p|] Hp; [by apply balf_allocproc_found | by apply balf_ret].
Qed.

Lemma bal_growproc {o} n h : bal o (growproc n) h (λ _, h).
Proof. unfold growproc. solve_bal. Qed.
Lemma bal_kill_loop {o} l pid : bal o (kill_loop l pid) [] (λ _, []).
Proof.
  induction l as [|p l IH]; cbn [kill_loop]; [by apply bal_ret|].
  eapply bal_bind; [eauto with bal|]. intros ?. eapply bal_bind; [eauto with bal|]. intros q.
  destruct (q =? pid); [|solve_bal].
  eapply bal_bind; [eauto with bal|]. intros ?. apply bal_bind_state. intros st Hst.
  case_bool_decide as E; [|solve_bal]. assert (o ≠ Some p) by (apply Hst; by rewrite E). solve_bal.
Qed.
Lemma bal_kill {o} pid : bal o (kill pid) [] (λ _, []).
Proof. apply bal_kill_loop. Qed.
Lemma bal_getnproc {o} : bal o getnproc [] (λ _, []).
Proof. unfold getnproc. solve_bal. Qed.
Lemma bal_procdump {o} h : Lpr ∉ h → bal o procdump h (λ _, h).
Proof. intros Hl. unfold procdump. solve_bal. Qed.
#[local] Hint Resolve bal_growproc bal_kill bal_getnproc : bal.

(** ** file.c and the ends of pipes *)
Lemma bal_fget {o A} f (g : file → A) h : bal o (fget f g) h (λ _, h).
Proof. apply bal_gets. Qed.
Lemma bal_fupd {o} f g h : bal o (fupd f g) h (λ _, h).
Proof. by apply bal_set. Qed.
#[local] Hint Resolve bal_fget bal_fupd : bal.
Lemma bal_filealloc_loop {o} l : bal o (filealloc_loop l) [Lftable] (λ _, []).
Proof. induction l; cbn [filealloc_loop]; solve_bal. Qed.
#[local] Hint Resolve bal_filealloc_loop : bal.
Lemma bal_filealloc {o} : bal o filealloc [] (λ _, []).
Proof. unfold filealloc. solve_bal. Qed.
Lemma bal_filedup {o} f h : Lftable ∉ h → bal o (filedup f) h (λ _, h).
Proof. intros Hl. unfold filedup. solve_bal. Qed.
Lemma bal_pipeclose {o} pi w : bal o (pipeclose pi w) [] (λ _, []).
Proof. unfold pipeclose. solve_bal. Qed.
#[local] Hint Resolve bal_filealloc bal_pipeclose : bal.
#[local] Hint Extern 1 (bal _ (filedup _) _ _) => apply bal_filedup; solve_locks : bal.
Lemma bal_fileclose {o} f : bal o (fileclose f) [] (λ _, []).
Proof. unfold fileclose. solve_bal. Qed.
#[local] Hint Resolve bal_fileclose : bal.
Lemma bal_pipealloc_bad {o} f0 f1 : bal o (pipealloc_bad f0 f1) [] (λ _, []).
Proof. unfold pipealloc_bad. solve_bal. Qed.
#[local] Hint Resolve bal_pipealloc_bad : bal.
Lemma bal_pipealloc {o} : bal o pipealloc [] (λ _, []).
Proof. unfold pipealloc. solve_bal. Qed.
Lemma bal_filestat {o} pad f a : bal o (filestat pad f a) [] (λ _, []).
Proof. unfold filestat. solve_bal. Qed.
Lemma bal_fileread {o} f a n : bal o (fileread f a n) [] (λ _, []).
Proof. unfold fileread. solve_bal. Qed.
Lemma bal_filewrite_loop {o} fuel f ip a n i : bal o (filewrite_loop fuel f ip a n i) [] (λ _, []).
Proof. revert i. induction fuel; intros; cbn [filewrite_loop]; solve_bal. Qed.
#[local] Hint Resolve bal_filewrite_loop : bal.
Lemma bal_filewrite {o} f a n : bal o (filewrite f a n) [] (λ _, []).
Proof. unfold filewrite. solve_bal. Qed.
#[local] Hint Resolve bal_pipealloc bal_filestat bal_fileread bal_filewrite : bal.

(** ** fork, exit, wait *)
Lemma bal_copy_trapframe {o} d sr h : bal o (copy_trapframe d sr) h (λ _, h).
Proof. unfold copy_trapframe. solve_bal. Qed.
#[local] Hint Resolve bal_copy_trapframe : bal.
Lemma bal_fork {o} : bal o fork [] (λ _, []).
Proof.
  unfold fork. eapply bal_bind; [eauto with bal|]. intros p.
  eapply bal_bindf; [apply balf_allocproc|]. intros [np|] Hnp; cbn [with_lock fresh] in *; solve_bal.
Qed.
Lemma bal_reparent {o} p h : no_plock h → bal o (reparent p) h (λ _, h).
Proof. intros Hl. unfold reparent. solve_bal. Qed.
#[local] Hint Extern 1 (bal _ (reparent _) _ _) => apply bal_reparent; solve_locks : bal.

(** The end of [exit]: the process is a zombie when it gives up the CPU. *)
Lemma bal_exit_tail {A} p (h' : A → list lockid) :
  bal (Some p) (pupd p (set_p_state ZOMBIE) ;; release Lwait ;; sched ;; panic "zombie exit")
    [Lproc p; Lwait] h'.
Proof.
  intros s Hs Hh. change (kern_of s) with s in *. rewrite bind_pupd.
  change (release Lwait) with (release_k Lwait). unfold bind at 1.
  rewrite release_k_ok by (cbn; rewrite Hh; right; left). cbn [res_bind].
  eapply (safe_sched p _ _ _ []); try apply Hs.
  - cbn. by rewrite Hh.
  - cbn. by rewrite length_alter, (ran_len _ _ Hs).
  - by apply leave_state.
  - intros s' _ Hs' Hh'. by apply safe_panic.
Qed.

(** Nothing comes back from [exit]. *)
Lemma bal_exit {o A} st (h' : A → list lockid) : bal o (exit st) [] h'.
Proof.
  unfold exit. intros s Hs Hh. destruct o as [p|]; [|by apply safe_no_proc].
  rewrite (bind_curproc p) by apply Hs. revert s Hs Hh.
  match goal with |- ∀ s, _ → _ → safe _ _ (?m s) => change (bal (Some p) m [] h') end.
  eapply bal_bind; [eauto with bal|]. intros ip. case_if; [by apply bal_panic|].
  eapply (bal_bind _ _ [] (λ _, [])); [solve_bal|]. intros ?.
  do 11 (eapply bal_bind; [solve [eauto with bal]|]; intros ?; cbv beta).
  apply bal_exit_tail.
Qed.
#[local] Hint Resolve bal_fork bal_exit : bal.

Lemma bal_wait_scan {o} l p a b :
  bal o (wait_scan l p a b) [Lwait] (λ r, match r with inl _ => [] | inr _ => [Lwait] end).
Proof.
  revert b. induction l as [|pp l IH]; intros b; cbn [wait_scan]; [by apply bal_ret|].
  eapply bal_bind; [eauto with bal|]. intros par. case_if; [|apply IH].
  eapply bal_bind; [eauto with bal|]. intros ?. apply bal_bind_state. intros st Hst.
  destruct (decide (st = ZOMBIE)) as [->|Ez]; [|rewrite bool_decide_false by done; solve_bal].
  rewrite bool_decide_true by done. specialize (Hst ltac:(done)). solve_bal.
Qed.
Lemma bal_wait_loop {o} fuel p a : bal o (wait_loop fuel p a) [Lwait] (λ _, []).
Proof.
  induction fuel; cbn [wait_loop]; (eapply bal_bind; [apply bal_wait_scan|]); intros [?|?]; solve_bal.
Qed.
#[local] Hint Resolve bal_wait_loop : bal.
Lemma bal_wait {o} a : bal o (wait a) [] (λ _, []).
Proof. unfold wait. solve_bal. Qed.
#[local] Hint Resolve bal_wait : bal.

(** ** System calls *)
Lemma bal_tf_get {o} off h : bal o (tf_get off) h (λ _, h).
Proof. unfold tf_get. solve_bal. Qed.
Lemma bal_tf_set {o} off v h : bal o (tf_set off v) h (λ _, h).
Proof. unfold tf_set. solve_bal. Qed.
Lemma bal_fetchaddr {o} a h : bal o (fetchaddr a) h (λ _, h).
Proof. unfold fetchaddr. solve_bal. Qed.
Lemma bal_fetchstr {o} a n h : bal o (fetchstr a n) h (λ _, h).
Proof. unfold fetchstr. solve_bal. Qed.
#[local] Hint Resolve bal_tf_get bal_tf_set bal_fetchaddr bal_fetchstr : bal.
Lemma bal_argraw {o} n h : bal o (argraw n) h (λ _, h).
Proof. unfold argraw. solve_bal. Qed.
#[local] Hint Resolve bal_argraw : bal.
Lemma bal_argint {o} n h : bal o (argint n) h (λ _, h).
Proof. unfold argint. solve_bal. Qed.
Lemma bal_argaddr {o} n h : bal o (argaddr n) h (λ _, h).
Proof. unfold argaddr. solve_bal. Qed.
#[local] Hint Resolve bal_argint bal_argaddr : bal.
Lemma bal_argstr {o} n m h : bal o (argstr n m) h (λ _, h).
Proof. unfold argstr. solve_bal. Qed.
#[local] Hint Resolve bal_argstr : bal.

Lemma bal_readi_at {o} ip pa off n : bal o (readi_at ip pa off n) [] (λ _, []).
Proof. unfold readi_at. solve_bal. Qed.
#[local] Hint Resolve bal_readi_at : bal.
Lemma bal_loadseg_loop {o} fuel pt va ip off sz i : bal o (loadseg_loop fuel pt va ip off sz i) [] (λ _, []).
Proof. revert i. induction fuel; intros; cbn [loadseg_loop]; solve_bal. Qed.
#[local] Hint Resolve bal_loadseg_loop : bal.
Lemma bal_load_loop {o} n pt ip off sz : bal o (load_loop n pt ip off sz) [] (λ _, []).
Proof. revert off sz. induction n; intros; cbn [load_loop]; unfold loadseg; solve_bal. Qed.
Lemma bal_kstr {o} a h : bal o (kstr a) h (λ _, h).
Proof. unfold kstr. solve_bal. Qed.
#[local] Hint Resolve bal_load_loop bal_kstr : bal.
Lemma bal_push_args {o} pt sb argv sp argc us h : bal o (push_args pt sb argv sp argc us) h (λ _, h).
Proof. revert sp argc us. induction argv; intros; cbn [push_args]; solve_bal. Qed.
Lemma bal_exec_bad {o} pt sz ip : bal o (exec_bad pt sz ip) [] (λ _, []).
Proof. unfold exec_bad. solve_bal. Qed.
#[local] Hint Resolve bal_push_args bal_exec_bad : bal.
Lemma bal_exec_stack {o} path argv e pt sz : bal o (exec_stack path argv e pt sz) [] (λ _, []).
Proof. unfold exec_stack. solve_bal. Qed.
#[local] Hint Resolve bal_exec_stack : bal.
Lemma bal_exec {o} path argv : bal o (exec path argv) [] (λ _, []).
Proof. unfold exec. solve_bal. Qed.
#[local] Hint Resolve bal_exec : bal.

Lemma bal_sys_sleep_loop {o} fuel t n : bal o (sys_sleep_loop fuel t n) [Lticks] (λ _, []).
Proof. induction fuel; cbn [sys_sleep_loop]; solve_bal. Qed.
#[local] Hint Resolve bal_sys_sleep_loop : bal.

Lemma bal_argfd {o} n h : bal o (argfd n) h (λ _, h).
Proof. unfold argfd. solve_bal. Qed.
Lemma bal_fdalloc_loop {o} l p f h : bal o (fdalloc_loop l p f) h (λ _, h).
Proof. induction l; cbn [fdalloc_loop]; solve_bal. Qed.
#[local] Hint Resolve bal_argfd bal_fdalloc_loop : bal.
Lemma bal_fdalloc {o} f h : bal o (fdalloc f) h (λ _, h).
Proof. unfold fdalloc. solve_bal. Qed.
Lemma bal_add_nlink {o} d ip h : bal o (add_nlink d ip) h (λ _, h).
Proof. unfold add_nlink. solve_bal. Qed.
#[local] Hint Resolve bal_fdalloc bal_add_nlink : bal.
Lemma bal_isdirempty_loop {o} fuel dp off : bal o (isdirempty_loop fuel dp off) [] (λ _, []).
Proof. revert off. induction fuel; intros; cbn [isdirempty_loop]; solve_bal. Qed.
#[local] Hint Resolve bal_isdirempty_loop : bal.
Lemma bal_isdirempty {o} dp : bal o (isdirempty dp) [] (λ _, []).
Proof. unfold isdirempty. solve_bal. Qed.
#[local] Hint Resolve bal_isdirempty : bal.
Lemma bal_sys_link {o} : bal o sys_link [] (λ _, []).
Proof. unfold sys_link, sys_link_bad. solve_bal. Qed.
Lemma bal_sys_unlink {o} : bal o sys_unlink [] (λ _, []).
Proof. unfold sys_unlink, sys_unlink_bad. solve_bal. Qed.
Lemma bal_create {o} path ty ma mi : bal o (create path ty ma mi) [] (λ _, []).
Proof. unfold create, create_fail. solve_bal. Qed.
#[local] Hint Resolve bal_create : bal.
Lemma bal_sys_open {o} : bal o sys_open [] (λ _, []).
Proof. unfold sys_open, open_inode, open_full, open_file. solve_bal. Qed.
Lemma bal_fetch_args {o} n u i argv h : bal o (fetch_args n u i argv) h (λ _, h).
Proof. revert i argv. induction n; intros; cbn [fetch_args]; solve_bal. Qed.
#[local] Hint Resolve bal_fetch_args : bal.
Lemma bal_sys_exec {o} : bal o sys_exec [] (λ _, []).
Proof. unfold sys_exec, free_argv. solve_bal. Qed.
Lemma bal_sys_pipe {o} : bal o sys_pipe [] (λ _, []).
Proof. unfold sys_pipe. solve_bal. Qed.
#[local] Hint Resolve bal_sys_link bal_sys_unlink bal_sys_open bal_sys_exec bal_sys_pipe : bal.

Lemma bal_syscalls {o} pad num m : syscalls pad num = Some m → bal o m [] (λ _, []).
Proof.
  unfold syscalls. repeat case_match; try done; intros [= <-];
    unfold sys_fork, sys_exit, sys_wait, sys_read, sys_kill, sys_fstat, sys_chdir, sys_dup, sys_getpid,
      sys_sbrk, sys_sleep, sys_uptime, sys_write, sys_mknod, sys_mkdir, sys_close, sys_trace, sys_sysinfo;
    solve_bal.
Qed.

Lemma bal_syscall {o} pad : bal o (syscall pad) [] (λ _, []).
Proof.
  unfold syscall. eapply bal_bind; [eauto with bal|]. intros p.
  eapply bal_bind; [eauto with bal|]. intros a7. cbv beta zeta.
  destruct (syscalls pad (i32 a7)) as [m|] eqn:E; [|solve_bal].
  eapply bal_bind; [by eapply bal_syscalls|]. intros r. unfold trace_report. solve_bal.
Qed.
End sys.

#[export] Hint Resolve bal_tf_get bal_tf_set bal_syscall bal_exit bal_yield : bal.
