(* ===== verification/Sched.v ===== *)
(** * The scheduler and the kernel as a machine ([kernel/proc.c], [trap.c])

    One CPU with its processes.  A process that has given up the CPU is the
    continuation of its kernel thread; the scheduler visits the slots of the
    table in turn, resumes a runnable one, and gets the CPU back when that
    thread switches.  In user mode anything can happen to the memory and the
    registers; what brings the process back into the kernel is a trap. *)

From S2P Require Import Base Riscv Mem Kalloc Vm Kernel Pipe Console Printf Sleeplock FsState Bio Virtio Log Fs.
From S2P Require Import Kstate KstateLaws Proc File Life Args Exec Sysproc Sysfile Syscall Trap.
From S2P Require Import Discipline DisciplineFs DisciplineSys.
Local Open Scope Z_scope.
Local Open Scope kernel_scope.

(** The saved context of a kernel thread: what [swtch] resumes. *)
Definition thread := mach → res mach Z.

(** Where the CPU is: in the loop of [scheduler] at a slot, or running the
    user code of a process. *)
Inductive mode := Scheduler (i : nat) | User (p : nat).

Record conf := Conf { c_m : mach; c_pool : gmap nat thread; c_mode : mode }.

(** The next slot. *)
Definition next_slot (i : nat) : nat := if (S i <? Z.to_nat NPROC)%nat then S i else O.

Section sched.
  Context {LK : Link} {WK : Wakeups}.

(** One turn of the loop of [scheduler], up to [swtch] ... *)
Definition sched_pick (i : nat) : M kst bool :=
  acquire (Lproc i) ;;
  st ← pget i p_state;
  if bool_decide (st = RUNNABLE) then
    pupd i (set_p_state RUNNING) ;;
    modify (set_k_cur (Some i)) ;;
    ret true
  else
    release (Lproc i) ;;
    ret false.

(** ... and after it. *)
Definition sched_back (i : nat) : M kst unit :=
  modify (set_k_cur None) ;;
  release (Lproc i).

(** [swtch] saves the return address in the context of the process. *)
Definition save_context (p : nat) : M kst unit := pupd p (set_p_context_ra sched_ra).

(** What [swtch] to slot [i] goes on with. *)
Definition thread_of (m : mach) (pool : gmap nat thread) (i : nat) : option thread :=
  if p_context_ra (proc_at i (m_k m)) =? forkret_addr then Some forkret else pool !! i.

(** What becomes of the CPU after kernel code of process [p]: user mode, or
    the scheduler when the code has given it up. *)
Inductive ran_to (pool : gmap nat thread) (p : nat) : res mach Z → conf → Prop :=
| to_user satp m : ran_to pool p (Ok satp m) (Conf m pool (User p))
| to_scheduler m k m' :
    kern (save_context p ;; sched_back p) m = Ok tt m' →
    ran_to pool p (Swtch m k) (Conf m' (<[p := k]> pool) (Scheduler (next_slot p))).

(** Devices: registers, pending interrupts, the rings of the disk, the UART. *)
Definition device_step (m m' : mach) : Prop :=
  ∃ c, m_k m' = set_k_cons c (m_k m).

(** User code and devices. *)
Definition user_step (m m' : mach) : Prop :=
  ∃ r c, m_k m' = set_k_cons c (set_k_mm (set_ram r (k_mm (m_k m))) (m_k m)).

Inductive step : conf → conf → Prop :=
| step_skip i m m' pool :
    kern (sched_pick i) m = Ok false m' →
    step (Conf m pool (Scheduler i)) (Conf m' pool (Scheduler (next_slot i)))
| step_switch i m m' pool t c' :
    kern (sched_pick i) m = Ok true m' → thread_of m' pool i = Some t → ran_to pool i (t m') c' →
    step (Conf m pool (Scheduler i)) c'
| step_trap p m m' pool reg pad c' :
    user_step m m' → ran_to pool p (usertrap reg pad m') c' →
    step (Conf m pool (User p)) c'
| step_intr i m m' m2 pool reg :
    device_step m m' → kerneltrap reg m' = Ok tt m2 →
    step (Conf m pool (Scheduler i)) (Conf m2 pool (Scheduler i)).

(** When [main] calls [scheduler]. *)
Record conf_init (c : conf) : Prop := {
  ci_len : length (k_procs (m_k (c_m c))) = Z.to_nat NPROC;
  ci_states : ∀ q, p_state (proc_at q (m_k (c_m c))) ∈ [UNUSED; RUNNABLE];
  ci_held : k_held (m_k (c_m c)) = [];
  ci_cur : k_cur (m_k (c_m c)) = None;
  ci_kmem : kmem_lock (k_mm (m_k (c_m c))) = false;
  ci_pool : c_pool c = ∅;
  ci_mode : c_mode c = Scheduler 0;
}.

Definition reachable_conf (c : conf) : Prop := ∃ c0, conf_init c0 ∧ rtc step c0 c.

(** ** Lock discipline of trap handling *)
#[export] Instance kern_mach : Kern mach := m_k.

Lemma safe_zoom {A} o (Q : A → kst → Prop) r (m : mach) :
  safe o Q r → safe o (λ a m', Q a (m_k m')) (zoom_res (Lens m_k set_m_k) m r).
Proof.
  intros Hr. revert m. induction Hr as [a s Ha|msg Hm| |p s k Ho Hp _ IH]; intros m; cbn.
  - by apply safe_ok.
  - by apply safe_panic.
  - apply safe_diverge.
  - apply (safe_swtch o _ p); [done|done|]. intros m' Hs Hh. by apply IH.
Qed.

Lemma bal_kern {o A} (m : M kst A) h h' : bal o m h h' → bal o (kern m) h h'.
Proof. intros Hm s Hs Hh. exact (safe_zoom o _ _ s (Hm (m_k s) Hs Hh)). Qed.

Lemma bal_mach {o} (g : mach → mach) h : (∀ m, m_k (g m) = m_k m) → bal o (modify g) h (λ _, h).
Proof.
  intros Hg. apply bal_modify. intros m Hm. unfold kern_of, kern_mach in *. by rewrite Hg.
Qed.
Lemma bal_hget {o A} (f : hart → A) h : bal o (hget f) h (λ _, h).
Proof. apply bal_gets. Qed.
Lemma bal_hset {o} g h : bal o (hset g) h (λ _, h).
Proof. by apply bal_mach. Qed.
Lemma bal_w_plic {o} a v h : bal o (w_plic a v) h (λ _, h).
Proof. by apply bal_mach. Qed.
Lemma bal_get_vdisk {o A} (f : vdisk → A) h : bal o (get f : M mach A) h (λ _, h).
Proof. apply bal_gets. Qed.
Lemma bal_upd_vdisk {o} (f : vdisk → vdisk) h : bal o (upd f : M mach unit) h (λ _, h).
Proof. by apply bal_mach. Qed.
#[local] Hint Resolve bal_hget bal_hset bal_w_plic bal_get_vdisk bal_upd_vdisk : bal.
#[local] Hint Extern 1 (bal _ (kern _) _ _) => apply bal_kern; solve_bal : bal.
#[local] Hint Extern 1 (bal _ (modify _) _ _) => apply bal_mach; done : bal.

Lemma bal_acquire_m {o} l h : l ∉ h → bal o (acquire l : M mach unit) h (λ _, l :: h).
Proof. intros Hl. by apply bal_kern, bal_acquire. Qed.
Lemma bal_release_m {o} l h : bal o (release l : M mach unit) (l :: h) (λ _, h).
Proof. apply bal_kern, bal_release. Qed.
Lemma bal_wakeup_m {o} c h : no_plock h → bal o (wakeup c : M mach unit) h (λ _, h).
Proof. intros Hl. by apply bal_kern, bal_wakeup. Qed.
#[local] Hint Resolve bal_release_m : bal.
#[local] Hint Extern 1 (bal _ (acquire _) _ _) => apply bal_acquire_m; solve_locks : bal.
#[local] Hint Extern 1 (bal _ (wakeup _) _ _) => apply bal_wakeup_m; solve_locks : bal.

Lemma bal_virtio_intr_loop {o} fuel : bal o (virtio_intr_loop fuel : M mach unit) [Ldisk] (λ _, [Ldisk]).
Proof. induction fuel; cbn [virtio_intr_loop]; solve_bal. Qed.
#[local] Hint Resolve bal_virtio_intr_loop : bal.
Lemma bal_virtio_disk_intr {o} reg : bal o (virtio_disk_intr reg : M mach unit) [] (λ _, []).
Proof. unfold virtio_disk_intr. solve_bal. Qed.
Lemma bal_clockintr {o} : bal o clockintr [] (λ _, []).
Proof. unfold clockintr. solve_bal. Qed.
Lemma bal_uartintr_procdump {o} : bal o (uartintr procdump : M kst unit) [] (λ _, []).
Proof. apply bal_uartintr, bal_procdump. solve_locks. Qed.
#[local] Hint Resolve bal_virtio_disk_intr bal_clockintr bal_uartintr_procdump : bal.
Lemma bal_devintr {o} reg : bal o (devintr reg) [] (λ _, []).
Proof. unfold devintr, plic_claim, plic_complete, cpuid. solve_bal. Qed.
Lemma bal_usertrapret {o} : bal o usertrapret [] (λ _, []).
Proof. unfold usertrapret, intr_off. solve_bal. Qed.
#[local] Hint Resolve bal_devintr bal_usertrapret : bal.
Lemma bal_usertrap {o} reg pad : bal o (usertrap reg pad) [] (λ _, []).
Proof. unfold usertrap, intr_on. solve_bal. Qed.
Lemma bal_kerneltrap {o} reg : bal o (kerneltrap reg) [] (λ _, []).
Proof. unfold kerneltrap. solve_bal. Qed.

(** A new process starts with its lock held by the scheduler. *)
Lemma bal_forkret p : bal (Some p) forkret [Lproc p] (λ _, []).
Proof.
  intros m Hm Hh. unfold forkret.
  assert (E : kern curproc m = Ok p m).
  { unfold kern, zoom. cbn. unfold curproc, myproc, bind, gets. cbn.
    pose proof (ran_cur _ _ Hm) as Hc. unfold kern_of, kern_mach in Hc. rewrite Hc.
    cbn. by destruct m. }
  rewrite (bind_ok _ _ _ _ _ E). clear E. revert m Hm Hh.
  match goal with |- ∀ s, _ → _ → safe _ _ (?f s) => change (bal (Some p) f [Lproc p] (λ _, [])) end.
  solve_bal.
Qed.

(** ** The invariant *)
Definition safe_thread (p : nat) (k : thread) : Prop :=
  ∀ m, ran (Some p) (m_k m) → k_held (m_k m) = [Lproc p] →
    safe (Some p) (λ _ m', ran (Some p) (m_k m') ∧ k_held (m_k m') = []) (k m).

Definition mode_proc (md : mode) : option nat :=
  match md with Scheduler _ => None | User p => Some p end.

Record conf_inv (c : conf) : Prop := {
  inv_ran : ran (mode_proc (c_mode c)) (m_k (c_m c));
  inv_held : k_held (m_k (c_m c)) = [];
  inv_pool : ∀ p k, c_pool c !! p = Some k → safe_thread p k;
}.

Lemma sched_pick_ok i m b m' :
  ran None (m_k m) → k_held (m_k m) = [] → kern (sched_pick i) m = Ok b m' →
  if b then ran (Some i) (m_k m') ∧ k_held (m_k m') = [Lproc i]
  else ran None (m_k m') ∧ k_held (m_k m') = [].
Proof.
  intros Hm Hh. unfold kern, zoom, sched_pick. cbn [lget].
  change (acquire (Lproc i)) with (acquire_k (Lproc i)).
  rewrite bind_acquire_k, bind_pget by (rewrite Hh; apply not_elem_of_nil).
  case_bool_decide as E.
  - rewrite bind_pupd, bind_modify. intros [= <- <-]. cbn. split; [|by rewrite Hh].
    destruct Hm as [H1 H2 H3 H4]. rewrite proc_at_held in E.
    assert (Hi : (i < length (k_procs (m_k m)))%nat).
    { unfold proc_at in E. destruct (k_procs (m_k m) !! i) eqn:Ei; [by apply lookup_lt_Some in Ei|done]. }
    split; [cbn; by rewrite length_alter | done | | done].
    intros q. change (proc_at q _) with (proc_at q (mod_proc i (set_p_state RUNNING) (m_k m))).
    destruct (decide (i = q)) as [->|Hq]; [by rewrite proc_at_mod|].
    rewrite proc_at_mod_ne by done. rewrite H3. split; [done|]. intros [= ?]. congruence.
  - change (release (Lproc i)) with (release_k (Lproc i)).
    rewrite (bind_release_k _ []) by (cbn; by rewrite Hh). intros [= <- <-]. cbn.
    split; [|done]. by apply ran_held, ran_held.
Qed.

Lemma sched_back_ok p m m' :
  parked p (m_k m) → kern (save_context p ;; sched_back p) m = Ok tt m' →
  ran None (m_k m') ∧ k_held (m_k m') = [].
Proof.
  intros [H1 H2 H3 H4 H5]. unfold kern, zoom, save_context, sched_back. cbn [lget].
  rewrite bind_pupd, bind_modify. change (release (Lproc p)) with (release_k (Lproc p)).
  rewrite (release_k_top _ []) by done. intros [= <-]. cbn. split; [|done].
  split; [cbn; by rewrite length_alter | done | | done].
  intros q. split; [|done]. intros Hq. exfalso. apply (H4 q). revert Hq. unfold proc_at. cbn.
  destruct (decide (p = q)) as [->|Hpq]; [|by rewrite list_lookup_alter_ne].
  rewrite list_lookup_alter_eq. by destruct (k_procs (m_k m) !! q).
Qed.

Lemma ran_to_inv pool p r c :
  (∀ q k, pool !! q = Some k → safe_thread q k) →
  safe (Some p) (λ _ m', ran (Some p) (m_k m') ∧ k_held (m_k m') = []) r →
  ran_to pool p r c → conf_inv c.
Proof.
  intros Hpool Hr Hto. apply safe_inv in Hr. destruct Hto as [satp m|m k m' E].
  - destruct Hr as [? ?]. by split.
  - destruct Hr as (q & [= <-] & Hq & Hk). destruct (sched_back_ok _ _ _ Hq E) as [? ?].
    split; [done|done|]. cbn. intros q k' [[<- <-]|[? ?]]%lookup_insert_Some; [done|by apply (Hpool q)].
Qed.

Lemma step_inv c c' : conf_inv c → step c c' → conf_inv c'.
Proof.
  intros [Hr Hh Hp] Hs. destruct Hs as [i m m' pool E|i m m' pool t c' E Ht Hto|
    p m m' pool reg pad c' (r & cs & Hu) Hto|i m m' m2 pool reg (cs & Hd) E]; cbn [c_m c_pool c_mode mode_proc] in Hr, Hh, Hp.
  - by destruct (sched_pick_ok i m false m' Hr Hh E).
  - destruct (sched_pick_ok i m true m' Hr Hh E) as [Hr' Hh'].
    apply (ran_to_inv pool i (t m')); [done| |done]. unfold thread_of in Ht.
    destruct (_ =? _); [injection Ht as <-; by apply bal_forkret | by apply (Hp i)].
  - apply (ran_to_inv pool p (usertrap reg pad m')); [done| |done]. apply bal_usertrap.
    + unfold kern_of, kern_mach. rewrite Hu. by apply (ran_frame (Some p) (m_k m)).
    + unfold kern_of, kern_mach. by rewrite Hu.
  - assert (H : safe None (λ _ m', ran None (m_k m') ∧ k_held (m_k m') = []) (kerneltrap reg m')).
    { apply bal_kerneltrap; unfold kern_of, kern_mach; rewrite Hd; [|done].
      by apply (ran_frame None (m_k m)). }
    rewrite E in H. apply safe_inv in H as [? ?]. by split.
Qed.

Lemma init_inv c : conf_init c → conf_inv c.
Proof.
  intros [H1 H2 H3 H4 H5 H6 H7]. split; rewrite ?H7, ?H6; [|done|done].
  split; [done|done| |done]. intros q. split; [|done]. intros E. exfalso.
  specialize (H2 q). rewrite E in H2. revert H2. rewrite !elem_of_cons, elem_of_nil. naive_solver.
Qed.

Lemma reachable_inv c : reachable_conf c → conf_inv c.
Proof.
  intros (c0 & Hi & Hs). apply init_inv in Hi. induction Hs; [done|]. apply IHHs. by eapply step_inv.
Qed.

(** What is left to say of a result of kernel code of [p]: the machine goes
    on, or the code has found something wrong that is not about locks, or
    waits for more wake-ups than the model follows. *)
Definition goes_on (pool : gmap nat thread) (p : nat) (r : res mach Z) : Prop :=
  match r with
  | Ok _ _ | Swtch _ _ => ∃ c', ran_to pool p r c'
  | Panic msg => lock_panic msg = false
  | Diverge => True
  end.

Lemma safe_goes_on pool p r :
  safe (Some p) (λ _ m', ran (Some p) (m_k m') ∧ k_held (m_k m') = []) r → goes_on pool p r.
Proof.
  intros Hr. apply safe_inv in Hr. destruct r as [satp m|msg|m k|]; cbn; [by eexists; constructor|done| |done].
  destruct Hr as (q & [= <-] & Hq & _). eexists. apply to_scheduler.
  unfold kern, zoom, save_context, sched_back. cbn [lget]. rewrite bind_pupd, bind_modify.
  change (release (Lproc p)) with (release_k (Lproc p)).
  rewrite (release_k_top _ []) by apply Hq. reflexivity.
Qed.



(** ** Preemption *)
Lemma bind_kern {A B} (f : M kst A) (k : A → M mach B) m a s :
  f (m_k m) = Ok a s → bind (kern f) k m = k a (set_m_k s m).
Proof. intros E. unfold bind, kern, zoom. cbn. by rewrite E. Qed.

Lemma tf_set_ok p off v s :
  k_cur s = Some p → ∃ mm, tf_set off v s = Ok tt (set_k_mm mm s) ∧ kmem_lock mm = kmem_lock (k_mm s).
Proof. intros Hc. unfold tf_set. rewrite (bind_curproc p), bind_pget by done. by eexists. Qed.

Lemma killed_ok p s : k_held s = [] → killed p s = Ok (p_killed (proc_at p s)) s.
Proof.
  intros Hh. unfold killed. rewrite bind_acquire_k, bind_pget by (rewrite Hh; apply not_elem_of_nil).
  rewrite (bind_release_k _ []) by (cbn; by rewrite Hh). cbn. rewrite <- Hh. by destruct s.
Qed.

Lemma clockintr_ok s :
  length (k_procs s) = Z.to_nat NPROC → k_held s = [] →
  clockintr s = Ok tt (set_k_procs (all_woken ChTicks (k_cur s) (k_procs s))
                        (set_k_ticks (u32 (k_ticks s + 1)) s)).
Proof.
  intros Hn Hh. unfold clockintr. change (acquire Lticks) with (acquire_k Lticks).
  change (wakeup ChTicks) with (wakeup_k ChTicks). change (release Lticks) with (release_k Lticks).
  rewrite bind_acquire_k, bind_modify by (rewrite Hh; apply not_elem_of_nil).
  unfold bind. rewrite wakeup_k_ok; [|intros i; cbn; rewrite Hh; solve_locks|done].
  cbn [res_bind]. rewrite (release_k_top _ []) by (cbn; by rewrite Hh). cbn. rewrite <- Hh. by destruct s.
Qed.

Lemma devintr_timer m reg :
  length (k_procs (m_k m)) = Z.to_nat NPROC → k_held (m_k m) = [] →
  h_scause (m_hart m) = 0x8000000000000001 → h_tp (m_hart m) = 0 →
  ∃ h, devintr reg m = Ok 2 (set_m_hart h (set_m_k
    (set_k_procs (all_woken ChTicks (k_cur (m_k m)) (k_procs (m_k m)))
      (set_k_ticks (u32 (k_ticks (m_k m) + 1)) (m_k m))) m)).
Proof.
  intros Hn Hh Hcause Htp. unfold devintr, hget, cpuid. rewrite bind_gets, Hcause.
  change (nonzero (Z.land 0x8000000000000001 0x8000000000000000) && _) with false.
  change (0x8000000000000001 =? 0x8000000000000001) with true. cbv iota.
  unfold hget. rewrite bind_gets, Htp. change (i32 0 =? 0) with true. cbv iota.
  rewrite (bind_kern _ _ _ _ _ (clockintr_ok _ Hn Hh)). by eexists.
Qed.

(** C30: A timer interrupt preempts: a process that is running user code gives
    up the CPU and becomes runnable, the clock has advanced by one tick, and
    exactly the processes that sleep on the clock have been woken. *)
Theorem timer_preempts p (m : mach) reg pad :
  ran (Some p) (m_k m) → k_held (m_k m) = [] → p_killed (proc_at p (m_k m)) = 0 →
  Z.land (h_sstatus (m_hart m)) SSTATUS_SPP = 0 → h_scause (m_hart m) = 0x8000000000000001 →
  h_tp (m_hart m) = 0 →
  ∃ m' k, usertrap reg pad m = Swtch m' k ∧
    k_ticks (m_k m') = u32 (k_ticks (m_k m) + 1) ∧
    p_state (proc_at p (m_k m')) = RUNNABLE ∧
    ∀ q, q ≠ p → proc_at q (m_k m') = woken ChTicks (proc_at q (m_k m)).
Proof.
  intros Hr Hh Hk Hspp Hcause Htp. pose proof (ran_lt _ _ Hr) as Hp. destruct Hr as [Hn Hc Hst Hkm].
  unfold usertrap. unfold hget. rewrite bind_gets, Hspp.
  change (nonzero 0) with false. cbv iota. unfold hset. rewrite bind_modify.
  rewrite (bind_kern _ _ _ p (m_k m)) by (unfold curproc, myproc, bind, gets; cbn; by rewrite Hc).
  rewrite bind_gets.
  destruct (tf_set_ok p TF_epc (h_sepc (m_hart m)) (m_k m) Hc) as (mm & E & _).
  rewrite (bind_kern _ _ _ tt (set_k_mm mm (m_k m))) by done. rewrite bind_gets.
  set (m1 := set_m_k _ _). change (h_scause (m_hart m1)) with (h_scause (m_hart m)). rewrite Hcause.
  change (0x8000000000000001 =? 8) with false. cbv iota.
  destruct (devintr_timer m1 reg) as [h Ed]; [done|done|done|done|].
  unfold bind at 1. unfold bind at 1. rewrite Ed. cbn [res_bind]. change (nonzero 2) with true. cbv iota.
  cbn [res_bind ret]. set (m2 := set_m_hart h _).
  assert (Hlen : (p < length (k_procs (m_k m2)))%nat).
  { change (k_procs (m_k m2)) with (all_woken ChTicks (k_cur (m_k m)) (k_procs (m_k m))).
    by rewrite all_woken_length. }
  assert (Hq : ∀ q, proc_at q (m_k m2) = if bool_decide (q = p) then proc_at q (m_k m) else
    woken ChTicks (proc_at q (m_k m))).
  { intros q. unfold proc_at, all_woken. cbn. unfold all_woken. rewrite Hc, list_lookup_imap.
    destruct (k_procs (m_k m) !! q); cbn; [|by case_bool_decide].
    case_bool_decide as E1; case_bool_decide as E2; congruence. }
  rewrite (bind_kern _ _ _ 0 (m_k m2)); [|rewrite killed_ok by done; by rewrite Hq, bool_decide_true, Hk].
  change (nonzero 0) with false. cbv iota. rewrite bind_ret. change (2 =? 2) with true. cbv iota.
  destruct (yield_ok p (m_k m2)) as [k Ey]; [done|done|done|].
  unfold bind, kern, zoom. cbn [lget]. change (m_k (set_m_k (m_k m2) m2)) with (m_k m2). rewrite Ey.
  cbn [res_bind zoom_res lput]. do 2 eexists. split; [reflexivity|]. split; [done|]. split.
  - change (proc_at p _) with (proc_at p (mod_proc p (set_p_state RUNNABLE) (m_k m2))).
    by rewrite proc_at_mod.
  - intros q Hqp. trans (proc_at q (mod_proc p (set_p_state RUNNABLE) (m_k m2))); [done|].
    rewrite proc_at_mod_ne, Hq by done. by rewrite bool_decide_false.
Qed.
End sched.

(** ** A machine with one runnable process *)
#[local] Existing Instances ex_link ex_link_ok.
#[local] Instance ex_wakeups : Wakeups := 0%nat.

Definition ex_proc : proc :=
  Proc RUNNABLE ChNone 0 0 1 None (KSTACK 0) 4096 (PHYSTOP - 4096) (PHYSTOP - 8192) forkret_addr
    (KSTACK 0 + 4096) (replicate 16 None) (Some 0%nat) (replicate 16 0) 0.
Definition ex_kst : kst :=
  Kst (Kmem ∅ false 0) [] None (ex_proc :: replicate 63 proc0) 2 (Some 0%nat)
    (Fsst [] (Disk ∅ []) (Log 0 0 0 0 0 0 []) (Superblock 0 0 0 0 0 0 0 0) [])
    ∅ [] (ConsSt [] 0 0 0 [] 0 0 false true [] [] [] []) 7 false.
Definition ex_mach : mach :=
  Mach ex_kst (Vdisk [] 0 [] 0 [] [] 0 [] [] ∅ []) (Hart 0 0 0 0 0 0 0 0) [] [].
Definition ex_conf : conf := Conf ex_mach ∅ (Scheduler 0).

Lemma ex_conf_init : conf_init ex_conf.
Proof.
  split; try reflexivity. intros q. unfold proc_at. cbn [c_m ex_conf m_k ex_mach k_procs ex_kst].
  destruct q as [|q]; [vm_compute; right; left|]. cbn [lookup list_lookup].
  destruct (replicate 63 proc0 !! q) as [x|] eqn:E; [|left].
  apply lookup_replicate in E as [-> _]. left.
Qed.

(** The machine once the scheduler has switched to process 0. *)
Definition ex_user : mach :=
  match kern (sched_pick 0) ex_mach with
  | Ok true m => match forkret m with Ok _ m => m | _ => ex_mach end
  | _ => ex_mach
  end.

Lemma ex_user_reachable : reachable_conf (Conf ex_user ∅ (User 0)).
Proof.
  exists ex_conf. split; [apply ex_conf_init|]. apply rtc_once.
  destruct (kern (sched_pick 0) ex_mach) as [[] m| | |] eqn:E; [|exfalso; by vm_compute in E..].
  eapply (step_switch 0 ex_mach m ∅ forkret); [done| |].
  - unfold thread_of. vm_compute in E. injection E as <-. reflexivity.
  - unfold ex_user. rewrite E. vm_compute in E. injection E as <-.
    destruct (forkret _) as [satp m| | |] eqn:E; [apply to_user|exfalso; by vm_compute in E..].
Qed.

#[local] Opaque ex_user.


(** The timer interrupt arrives. *)
Definition ex_timer : mach := set_m_hart (Hart 0 0 0x8000000000000001 0 0 0 0 2) ex_user.

Lemma timer_preempts_witness :
  ∃ m' k, usertrap (λ _, 0) [] ex_timer = Swtch m' k ∧ k_ticks (m_k m') = 8.
Proof.
  destruct (timer_preempts 0 ex_timer (λ _, 0) []) as (m' & k & E & Ht & _);
    [exact (inv_ran _ (reachable_inv _ ex_user_reachable)) | reflexivity..|].
  exists m', k. split; [exact E|]. rewrite Ht. reflexivity.
Defined.
