(* ===== verification/SysSpec.v ===== *)
(** * What the system call layer guarantees

    The two calls this kernel adds: [sysinfo] reports the true counts to the
    caller's memory, and [trace] makes the dispatcher report each system call
    whose bit is set, after it has returned, with its value. *)

From S2P Require Import Base Riscv Mem Kstring Kalloc Vm VmSpec VmMap VmUser VmAlloc VmCopy VmFork VmTheorems.
From S2P Require Import Kernel Pipe Console ConsoleSpec Printf FsState Fs Kstate KstateLaws Proc ProcSpec.
From S2P Require Import File Life Args Exec Sysproc Sysfile Syscall.
Local Open Scope Z_scope.
Local Open Scope kernel_scope.

(** The line reported for a traced call. *)
Definition trace_line (pid num r : Z) : list Z :=
  rev (printint_buf pid 10 true) ++ bytes_of ": syscall " ++ syscall_name num ++ bytes_of " -> " ++
  rev (printint_buf (i32 r) 10 true) ++ [10].

Section sys.
  Context {LK : Link} {LKO : LinkOk} {WK : Wakeups}.
  Implicit Types (s : kst) (p : nat).

Lemma vm_ok {A} (m : M kmem A) s a mm : m (k_mm s) = Ok a mm → vm m s = Ok a (set_k_mm mm s).
Proof. intros E. unfold vm, zoom. cbn. by rewrite E. Qed.
Lemma bind_vm {A B} (m : M kmem A) (f : A → M kst B) s a mm :
  m (k_mm s) = Ok a mm → bind (vm m) f s = f a (set_k_mm mm s).
Proof. intros E. by rewrite (bind_ok _ _ _ _ _ (vm_ok m s a mm E)). Qed.
Lemma set_mm_same s : set_k_mm (k_mm s) s = s.
Proof. by destruct s. Qed.

(** A field of the trapframe of the running process. *)
Definition tf_field (off : Z) (p : nat) (s : kst) : Z :=
  ld64 (ram (k_mm s)) (p_trapframe (proc_at p s) + off).

Lemma tf_get_ok p off s : k_cur s = Some p → tf_get off s = Ok (tf_field off p s) s.
Proof.
  intros Hc. unfold tf_get. rewrite (bind_curproc p), bind_pget by done. rewrite (vm_ok _ s _ (k_mm s)) by done.
  by rewrite set_mm_same.
Qed.
Lemma tf_set_eq p off v s :
  k_cur s = Some p →
  tf_set off v s =
    Ok tt (set_k_mm (set_ram (st64 (ram (k_mm s)) (p_trapframe (proc_at p s) + off) v) (k_mm s)) s).
Proof. intros Hc. unfold tf_set. by rewrite (bind_curproc p), bind_pget by done. Qed.

Lemma argraw_ok p n s : k_cur s = Some p → 0 ≤ n ≤ 5 → argraw n s = Ok (tf_field (TF_a0 + 8 * n) p s) s.
Proof.
  intros Hc Hn. unfold argraw. rewrite (proj2 (Z.leb_le 0 n)), (proj2 (Z.leb_le n 5)) by lia.
  by apply tf_get_ok.
Qed.


(** ** Tracing *)
#[export] Instance cons_lens_laws : LensLaws (the_lens : lens kst consst).
Proof. split; [done| |done]. by intros []. Qed.

Lemma printf_kernel fmt ap l s :
  Forall (λ c, 0 ≤ c < 256) fmt → Forall arg_ok ap → render fmt ap = Some l →
  panicked (k_cons s) = false → (length l ≤ idle_count (dev_idle (k_cons s)))%nat → Lpr ∉ k_held s →
  ∃ t', printf fmt ap s = Ok tt (set_k_cons t' s) ∧ echoed l (k_cons s) t'.
Proof.
  intros Hf Ha Hr Hp Hi Hl. pose proof (printf_loop_prints _ fmt ap l (le_n _) Hf Ha Hr) as H.
  unfold printf, get. rewrite bind_gets. change (lget the_lens s) with (k_cons s).
  destruct (pr_locking (k_cons s)).
  - rewrite bind_acquire by done. destruct (H (set_k_held (Lpr :: k_held s) s)) as (t' & E & He); [done..|].
    exists t'. rewrite (bind_ok _ _ _ _ _ E). change (release Lpr) with (release_k Lpr).
    rewrite (release_k_top _ (k_held s)) by done. split; [by destruct s|done].
  - rewrite bind_ret. destruct (H s) as (t' & E & He); [done..|].
    exists t'. by rewrite (bind_ok _ _ _ _ _ E).
Qed.

Lemma land_1_testbit x n : 0 ≤ n → (Z.land (Z.shiftr x n) 1 =? 0) = negb (Z.testbit x n).
Proof.
  intros Hn. replace (Z.testbit x n) with (Z.testbit (Z.shiftr x n) 0) by (by rewrite Z.shiftr_spec, Z.add_0_l).
  change 1 with (Z.ones 1). rewrite Z.land_ones by lia. change (2 ^ 1) with 2.
  rewrite Z.bit0_odd, Zmod_odd. by destruct (Z.odd _).
Qed.

#[local] Opaque printint_buf.
Lemma trace_render pid num r :
  render (bytes_of "%d: syscall %s -> %d" ++ [10]) [AInt pid; AStr (Some (syscall_name num)); AInt (i32 r)] =
    Some (trace_line pid num r).
Proof.
  unfold trace_line. generalize (syscall_name num). intros name.
  replace (bytes_of "%d: syscall %s -> %d" ++ [10]) with [37; 100; 58; 32; 115; 121; 115; 99; 97; 108; 108; 32; 37; 115; 32; 45; 62; 32; 37; 100; 10]
    by (vm_compute; reflexivity).
  replace (bytes_of ": syscall ") with [58; 32; 115; 121; 115; 99; 97; 108; 108; 32] by (vm_compute; reflexivity).
  replace (bytes_of " -> ") with [32; 45; 62; 32] by (vm_compute; reflexivity).
  cbn [render Z.eqb Pos.eqb negb fmap option_fmap option_map default app].
  reflexivity.
Qed.

Lemma bytes_of_range str : Forall (λ c, 0 ≤ c < 256) (bytes_of str).
Proof.
  unfold bytes_of. apply Forall_fmap, Forall_true. intros c. cbn.
  pose proof (Ascii.N_ascii_bounded c). lia.
Qed.

Lemma trace_report_ok p num a0 s :
  k_cur s = Some p → 0 ≤ num → Lpr ∉ k_held s → panicked (k_cons s) = false →
  0 ≤ p_pid (proc_at p s) < 2 ^ 31 → tf_field TF_a0 p s = a0 →
  (length (trace_line (p_pid (proc_at p s)) num a0) ≤ idle_count (dev_idle (k_cons s)))%nat →
  ∃ t', trace_report p num s = Ok tt (set_k_cons t' s) ∧
    dev_out t' = dev_out (k_cons s) ++
      (if Z.testbit (p_trace_mask (proc_at p s)) num then trace_line (p_pid (proc_at p s)) num a0 else []).
Proof.
  intros Hc Hnum Hl Hp Hpid Ha Hi. unfold trace_report. rewrite bind_pget, land_1_testbit by done.
  destruct (Z.testbit _ _); cbn [negb].
  - rewrite bind_pget, (bind_ok _ _ _ _ _ (tf_get_ok p TF_a0 s Hc)), Ha.
    edestruct printf_kernel as (t' & E & He); [| |apply trace_render|done|done|done|exists t'; split; [exact E|apply He]].
    + apply Forall_app. split; [apply bytes_of_range | repeat constructor; lia].
    + repeat (apply Forall_cons; split); [cbn; lia | apply bytes_of_range | cbn; ilia | by apply Forall_nil].
  - exists (k_cons s). rewrite app_nil_r. split; [by destruct s | done].
Qed.

(** C28: Tracing. A system call that returns leaves its value in the caller's
    [a0]; after that, exactly if the bit of its number is set in the trace
    mask the process then has, one line with the process's pid, the name of
    the call and the value as an [int] is printed. (A call of [trace] itself
    is judged by the mask it sets.) *)
Theorem syscall_traces p pad handler r s s1 :
  let num := i32 (tf_field TF_a7 p s) in
  let pr := proc_at p s1 in
  k_cur s = Some p → syscalls pad num = Some handler → handler s = Ok r s1 →
  k_cur s1 = Some p → Lpr ∉ k_held s1 → panicked (k_cons s1) = false → 0 ≤ p_pid pr < 2 ^ 31 →
  (length (trace_line (p_pid pr) num r) ≤ idle_count (dev_idle (k_cons s1)))%nat →
  ∃ s2, syscall pad s = Ok tt s2 ∧ tf_field TF_a0 p s2 = u64 r ∧
    dev_out (k_cons s2) = dev_out (k_cons s1) ++
      (if Z.testbit (p_trace_mask pr) num then trace_line (p_pid pr) num r else []) ∧
    k_procs s2 = k_procs s1.
Proof.
  intros num pr Hc Hh Hr Hc1 Hl Hp Hpid Hi. unfold syscall.
  rewrite (bind_curproc p), (bind_ok _ _ _ _ _ (tf_get_ok p TF_a7 s Hc)) by done. cbv zeta. fold num.
  rewrite Hh, (bind_ok _ _ _ _ _ Hr), (bind_ok _ _ _ _ _ (tf_set_eq p TF_a0 r s1 Hc1)).
  set (s' := set_k_mm _ s1).
  assert (Ea : tf_field TF_a0 p s' = u64 r) by apply ld64_st64_eq.
  assert (El : ∀ pid, trace_line pid num (u64 r) = trace_line pid num r).
  { intros pid. unfold trace_line. do 4 f_equal. do 2 f_equal. f_equal. ilia. }
  destruct (trace_report_ok p num (u64 r) s') as (t' & E & Ho); try done.
  { unfold syscalls in Hh. destruct (decide (0 ≤ num)); [done|]. exfalso. by destruct num; [lia|lia|]. }
  { by rewrite El. }
  exists (set_k_cons t' s'). split; [done|]. split; [exact Ea|]. split; [|done]. rewrite El in Ho. exact Ho.
Qed.
End sys.

(** ** Examples *)
#[local] Existing Instances ex_link ex_link_ok ex_wk.

(** A process in an address space of two pages calls [sysinfo(4092)]. *)
Definition ex_call (mm : kmem) : kst :=
  set_k_mm mm (mod_proc 0 (λ pr, set_p_trapframe (KERNBASE + 4096) (set_p_pagetable (ex_page 0) pr)) ex_ktab).

Lemma ex_call_a0 :
  match (kinit ;; root ← uvmcreate; uvmalloc root 0 8192 PTE_W) (Kmem ∅ false 0) with
  | Ok _ mm => tf_field TF_a0 0 (ex_call mm) = 0
  | _ => False
  end.
Proof. vm_compute. reflexivity. Qed.


(** [getpid] by process 0 with pid 1, traced. *)
Definition ex_traced : kst :=
  set_k_cons ex_cons (set_k_mm (Kmem (st64 ∅ (KERNBASE + 4096 + TF_a7) 11) false 0)
    (mod_proc 0 (λ pr, set_p_trapframe (KERNBASE + 4096) (set_p_trace_mask (2 ^ 11) pr)) ex_ktab)).

Lemma syscall_traces_witness : ∃ s2, syscall [] ex_traced = Ok tt s2 ∧ tf_field TF_a0 0 s2 = 1 ∧
  dev_out (k_cons s2) = bytes_of "1: syscall getpid -> 1" ++ [10].
Proof.
  destruct (syscall_traces 0 [] sys_getpid 1 ex_traced ex_traced) as (s2 & E & Ha & Ho & _);
    [reflexivity | vm_compute; reflexivity | reflexivity | reflexivity | apply not_elem_of_nil | reflexivity
    | vm_compute; split; congruence | vm_compute; lia |].
  exists s2. split; [exact E|]. split; [exact Ha|]. rewrite Ho. vm_compute. reflexivity.
Defined.
