(* ===== verification/Main.v ===== *)
(** * Start-up ([kernel/main.c])

    [main] on the first hart initialises every part of the kernel in turn and
    makes the first process; the other harts wait for it, turn on paging and
    install their trap vector.  Both end in the call of [scheduler], where
    [Sched] takes over.  The state is the machine with the two variables that
    only start-up uses: [kernel_pagetable] of [vm.c] and [started]. *)

From S2P Require Import Base Riscv Mem Kalloc Vm Kernel Console Printf FsState Bio Virtio Fs.
From S2P Require Import Kstate Proc File Trap.
Local Open Scope Z_scope.
Local Open Scope kernel_scope.

Record sys := Sys { y_m : mach; y_kernel_pagetable : Z; y_started : Z }.
Definition set_y_m (v : mach) (r : sys) : sys := Sys v (y_kernel_pagetable r) (y_started r).
Definition set_y_kernel_pagetable (v : Z) (r : sys) : sys := Sys (y_m r) v (y_started r).
Definition set_y_started (v : Z) (r : sys) : sys := Sys (y_m r) (y_kernel_pagetable r) v.

Definition on_mach {A} (m : M mach A) : M sys A := zoom (Lens y_m set_y_m) m.

(** The disk driver takes the memory of its queue from the allocator. *)
#[export] Instance mach_mem : HasState mach kmem :=
  Lens (λ m, k_mm (m_k m)) (λ v m, set_m_k (set_k_mm v (m_k m)) m).

Section main.
  Context {LK : Link} {WK : Wakeups}.

(** [initlock(lk, ...)]: nobody holds the lock. *)
Definition initlock_k (l : lockid) : M kst unit :=
  modify (λ s, set_k_held (filter (λ x, x ≠ l) (k_held s)) s).

Definition trapinit : M kst unit := initlock_k Lticks.
Definition fileinit : M kst unit := initlock_k Lftable.

(** [sfence_vma] has no effect here: translations are not cached. *)
Definition kvminit : M sys unit :=
  pt ← on_mach (kern (vm kvmmake));
  modify (set_y_kernel_pagetable pt).

Definition kvminithart : M sys unit :=
  pt ← gets y_kernel_pagetable;
  on_mach (hset (set_h_satp (MAKE_SATP pt))).

(** [reg] is what the disk's registers read.  A hart that finds [started] zero
    waits until another hart has set it: on its own it waits forever. *)
Definition main (reg : Z → Z) : M sys unit :=
  id ← on_mach cpuid;
  if id =? 0 then
    on_mach (kern consoleinit) ;;
    on_mach (kern printfinit) ;;
    on_mach (kern (printf [10] [])) ;;
    on_mach (kern (printf (bytes_of "xv6 kernel is booting" ++ [10]) [])) ;;
    on_mach (kern (printf [10] [])) ;;
    on_mach (kern (vm kinit)) ;;
    kvminit ;;
    kvminithart ;;
    on_mach (kern procinit) ;;
    on_mach (kern trapinit) ;;
    on_mach trapinithart ;;
    on_mach plicinit ;;
    on_mach plicinithart ;;
    on_mach (kern binit) ;;
    on_mach (kern iinit) ;;
    on_mach (kern fileinit) ;;
    on_mach (virtio_disk_init reg) ;;
    on_mach (kern userinit) ;;
    modify (set_y_started 1)
  else
    st ← gets y_started;
    if st =? 0 then diverge else
    on_mach (id ← cpuid; kern (printf (bytes_of "hart %d starting" ++ [10]) [AInt id])) ;;
    kvminithart ;;
    on_mach trapinithart ;;
    on_mach plicinithart.
End main.
