(* ===== verification/MainSpec.v ===== *)
(** * Start-up: the kernel boots

    [main] of [Main], from a machine whose memory is zeroed and whose devices
    answer: it returns, with paging turned on through the page table of
    [VmKernel] and the first process ready to run. *)

From S2P Require Import Base Riscv Mem Kstring Spinlock Kalloc Vm VmSpec VmMap VmUser VmAlloc VmTheorems VmKernel.
From S2P Require Import Kernel Console ConsoleSpec Printf FsState Bio BioList BioSpec Virtio Fs Kstate KstateLaws Proc File Trap.
From S2P Require Import Sched SysSpec Main.
Local Open Scope Z_scope.
Local Open Scope kernel_scope.

(** ** The memory of the first process *)

(** The paths of the page-table pages of a process with one page of memory. *)
Definition ukeys : list (list Z) := [[]; [255]; [255; 511]; [0]; [0; 0]].

Lemma ukeys_0 : [PX 2 0] ∈ ukeys ∧ [PX 2 0; PX 1 0] ∈ ukeys.
Proof. change (PX 2 0) with 0. change (PX 1 0) with 0. unfold ukeys. set_solver. Qed.
Lemma ukeys_trapframe : [PX 2 TRAPFRAME] ∈ ukeys ∧ [PX 2 TRAPFRAME; PX 1 TRAPFRAME] ∈ ukeys.
Proof. change (PX 2 TRAPFRAME) with 255. change (PX 1 TRAPFRAME) with 511. unfold ukeys. set_solver. Qed.
Lemma ukeys_trampoline : [PX 2 TRAMPOLINE] ∈ ukeys ∧ [PX 2 TRAMPOLINE; PX 1 TRAMPOLINE] ∈ ukeys.
Proof. change (PX 2 TRAMPOLINE) with 255. change (PX 1 TRAMPOLINE) with 511. unfold ukeys. set_solver. Qed.

Definition same_page (x : Z) (m m' : mem) : Prop := ∀ a, x ≤ a < x + 4096 → ld8 m' a = ld8 m a.

Section first_memory.
  Context {LK : Link} {LKO : LinkOk}.

(** A page table under construction, with the translation [T], the free list
    [l] and the pages [xs] taken from it; all memory that was not on the free
    list [L] at the start is as it was in [m0]. *)
Record utable (m0 : mem) (L : list Z) (s : kmem) (l xs : list Z) (root : Z) (tr : ptree) (T : Z → Z) : Prop := {
  ut_as : aspace s l root tr;
  ut_keys : ∀ k, is_Some (tr !! k) → k ∈ ukeys;
  ut_map : ∀ v, vslot v → sv39 (ram s) root v = T v;
  ut_xs : ∀ x, x ∈ xs → page_ok x ∧ x ∉ l ∧ ∀ k p, tr !! k = Some p → p ≠ x;
  ut_mine : ∀ x, x ∈ l ∨ x ∈ xs ∨ (∃ k, tr !! k = Some x) → x ∈ L;
  ut_frame : ∀ a, (∀ q, q ∈ L → ¬ (q ≤ a < q + 4096)) → ld8 (ram s) a = ld8 m0 a;
}.

(** [mappages] of a page, with memory enough for all tables. *)
Lemma utable_map m0 L s l xs root tr T va pa perm :
  utable m0 L s l xs root tr T → (5 < length l + size tr)%nat →
  [PX 2 va] ∈ ukeys → [PX 2 va; PX 1 va] ∈ ukeys → vpage va → T va = 0 →
  0 ≤ pa < 2 ^ 54 → pa mod 4096 = 0 → 0 ≤ perm < 1024 →
  ∃ s' l' tr', mappages root va PGSIZE pa perm s = Ok 0 s' ∧
    utable m0 L s' l' xs root tr' (λ v, if decide (v = va) then mk_pte pa perm else T v) ∧
    (length l + size tr ≤ length l' + size tr')%nat ∧
    ∀ x, x ∈ xs → same_page x (ram s) (ram s').
Proof.
  intros [A K M X N F] Hl Hk2 Hk1 Hva HT Hpa Hal Hperm.
  assert (K5 : ∀ tr', paths (λ v, v = va) tr tr' → ∀ k, is_Some (tr' !! k) → k ∈ ukeys).
  { intros tr' P k [?|(v & -> & [-> | ->])]%P; auto. }
  destruct (mappages_page s l root tr va pa perm A Hva Hpa Hal Hperm)
    as [(s' & tr' & E & [G _] & P)|(s' & l' & tr' & E & G & V & P)].
  { by rewrite M, HT by auto. }
  { pose proof (grows_count _ _ _ _ _ _ _ A G) as Hc. pose proof (keys_size ukeys tr' (K5 _ P)).
    simpl in *. lia. }
  exists s', l', tr'. split; [done|]. pose proof (grows_count _ _ _ _ _ _ _ A G) as Hc.
  pose proof G as [A' T' N' [new ->] _ R]. split; [|split; [done|]].
  - split; [done | by apply K5 | | | |].
    + intros v Hv. rewrite V by done. case_decide; [done|]. by apply M.
    + intros x Hx. destruct (X x Hx) as (Hp & Hn & Ht). split_and!; [done|set_solver|].
      intros k p [Hk|Hk]%N'; [by apply (Ht k)|]. by intros ->.
    + intros x [Hx|[Hx|(k & [Hk|Hk]%N')]]; apply N; [left; set_solver | by right; left | right; right; eauto | by left].
    + intros a Ha. rewrite <- F by done. apply R.
      * intros k p Hk. apply Ha, N. eauto.
      * intros q Hq. apply Ha, N. by left.
  - intros x Hx a Ha. destruct (X x Hx) as ([Hxa _] & Hn & Ht). apply R.
    + intros k p Hk. pose proof (pw_aligned (as_pt _ _ _ _ A) _ _ Hk). pose proof (Ht _ _ Hk).
      destruct (page_disjoint p x); auto; lia.
    + intros q Hq. pose proof (fl_pages _ _ (as_free _ _ _ _ A)) as FF. rewrite Forall_forall in FF.
      destruct (FF q Hq) as [? _]. assert (q ≠ x) by (by intros ->). destruct (page_disjoint q x); auto; lia.
Qed.

(** Changing one of the pages taken. *)
Lemma utable_poke m0 L s l xs root tr T x m :
  utable m0 L s l xs root tr T → x ∈ xs → same_but_page x (ram s) m →
  utable m0 L (set_ram m s) l xs root tr T ∧ ∀ y, page_ok y → y ≠ x → same_page y (ram s) m.
Proof.
  intros [A K M X N F] Hx Hm. destruct (X x Hx) as ([Hxa _] & Hn & Ht).
  assert (Hy : ∀ y, y mod 4096 = 0 → y ≠ x → same_page y (ram s) m).
  { intros y Hya Hne a Ha. apply Hm. destruct (page_disjoint y x); auto; lia. }
  destruct (aspace_ram s l root tr m A) as [A' V].
  { intros k p a Hk. apply Hy; [by apply (pw_aligned (as_pt _ _ _ _ A) k)|by apply (Ht k)]. }
  { intros p a Hp. pose proof (fl_pages _ _ (as_free _ _ _ _ A)) as FF. rewrite Forall_forall in FF.
    apply Hy; [by apply FF|]. by intros ->. }
  split; [|intros y [? _]; by apply Hy]. split; try done.
  - intros v Hv. cbn [ram set_ram]. rewrite V. by apply M.
  - intros a Ha. cbn [ram set_ram]. rewrite <- F by done. apply Hm. apply Ha, N. by right; left.
Qed.

(** Taking a page. *)
Lemma utable_take m0 L s q l xs root tr T :
  utable m0 L s (q :: l) xs root tr T →
  ∃ s', kalloc s = Ok q s' ∧ utable m0 L s' l (q :: xs) root tr T ∧ page_ok q ∧ q ∉ xs ∧
    ∀ x, x ∈ xs → same_page x (ram s) (ram s').
Proof.
  intros [A K M X N F]. destruct (aspace_take s q l root tr A) as (E & A' & Hq & Hn & Ht & V).
  set (s' := Kmem _ _ _) in *. exists s'.
  assert (Hqx : q ∉ xs). { intros Hin. destruct (X q Hin) as (_ & H & _). set_solver. }
  split_and!; try done.
  - split; [done | done | | | |].
    + intros v Hv. rewrite V. by apply M.
    + intros x [->|Hx]%elem_of_cons; [done|]. destruct (X x Hx) as (? & ? & ?). split_and!; [done|set_solver|done].
    + intros x Hx. apply N. set_solver.
    + intros a Ha. rewrite <- F by done. apply same_but_page_memset. apply Ha, N. left. set_solver.
  - intros x Hx a Ha. destruct (X x Hx) as ([? _] & ? & _). destruct Hq as [? _].
    apply same_but_page_memset. assert (x ≠ q) by (by intros ->). destruct (page_disjoint x q); auto; lia.
Qed.

(** The address space of the first process: the page [q] of its program at
    address 0, its trapframe [tf] and the trampoline. *)
Definition first_map (tf q v : Z) : Z :=
  if decide (v = 0) then mk_pte q (Z.lor (Z.lor (Z.lor PTE_W PTE_R) PTE_X) PTE_U)
  else if decide (v = TRAPFRAME) then mk_pte tf (Z.lor PTE_R PTE_W)
  else if decide (v = TRAMPOLINE) then mk_pte trampoline (Z.lor PTE_R PTE_X)
  else 0.

Lemma utable_new s tf pt l :
  free_list s (tf :: pt :: l) →
  ∃ s1 s2, kalloc s = Ok tf s1 ∧ uvmcreate s1 = Ok pt s2 ∧
    utable (ram s) (tf :: pt :: l) s2 l [tf] pt {[ [] := pt ]} (λ _, 0) ∧ page_ok tf ∧ page_ok pt ∧ tf ≠ pt.
Proof.
  intros F. destruct (kalloc_some s tf _ F) as (E & F1 & Htf & Hn). set (s1 := Kmem _ _ _) in *.
  destruct (uvmcreate_ok s1 pt l F1) as (s2 & E2 & U & V & R). exists s1, s2.
  destruct (proj1 (Forall_cons _ _ _) (fl_pages _ _ F1)) as [Hpt _].
  assert (Hne : tf ≠ pt) by set_solver.
  split_and!; try done. split; [apply U | | by intros v _ | | |].
  - intros k [x [<- _]%lookup_singleton_Some]. unfold ukeys. set_solver.
  - intros x ->%list_elem_of_singleton. split_and!; [done|set_solver|].
    by intros k p [_ <-]%lookup_singleton_Some.
  - intros x [Hx|[Hx|(k & [_ <-]%lookup_singleton_Some)]]; set_solver.
  - intros a Ha. rewrite R by (apply Ha; set_solver). apply same_but_page_memset. apply Ha. set_solver.
Qed.

(** [uvmfirst] on such a table. *)
Lemma utable_uvmfirst m0 L s q l xs root tr T code :
  utable m0 L s (q :: l) xs root tr T → (5 < length l + size tr)%nat → T 0 = 0 →
  Forall (λ c, 0 ≤ c < 256) code → Z.of_nat (length code) < 4096 →
  ∃ s' l' tr', uvmfirst root code (Z.of_nat (length code)) s = Ok tt s' ∧
    utable m0 L s' l' (q :: xs) root tr'
      (λ v, if decide (v = 0) then mk_pte q (Z.lor (Z.lor (Z.lor PTE_W PTE_R) PTE_X) PTE_U) else T v) ∧
    page_ok q ∧ q ∉ xs ∧ (∀ x, x ∈ xs → same_page x (ram s) (ram s')) ∧
    load_bytes (ram s') q 4096 = code ++ replicate (4096 - length code) 0.
Proof.
  intros U Hl HT Hc Hlen. destruct (utable_take _ _ _ _ _ _ _ _ _ U) as (s1 & E1 & U1 & Hq & Hqx & P1).
  assert (Hin : q ∈ q :: xs) by left.
  destruct (utable_poke _ _ _ _ _ _ _ _ q (memset (ram s1) q 0 PGSIZE) U1 Hin (same_but_page_memset _ _ _))
    as [U2 P2]. set (s2 := set_ram (memset _ _ _ _) s1) in *.
  pose proof (page_ok_bound q Hq) as [Hqb Hqa]. unfold PHYSTOP, KERNBASE in Hqb.
  destruct (utable_map _ _ _ _ _ _ _ _ 0 q (Z.lor (Z.lor (Z.lor PTE_W PTE_R) PTE_X) PTE_U) U2)
    as (s3 & l3 & tr3 & E3 & U3 & _ & P3);
    [done | apply ukeys_0 | apply ukeys_0
    | vm_compute; intuition congruence | exact HT | lia | exact Hqa | vm_compute; intuition congruence |].
  assert (Hb : same_but_page q (ram s3) (store_bytes (ram s3) q code)).
  { intros a Ha. apply ld8_store_bytes_out. lia. }
  destruct (utable_poke _ _ _ _ _ _ _ _ q _ U3 Hin Hb) as [U4 P4].
  assert (E : uvmfirst root code (Z.of_nat (length code)) s = Ok tt (set_ram (store_bytes (ram s3) q code) s3)).
  { unfold uvmfirst. destruct (_ >=? PGSIZE) eqn:Ez; [unfold PGSIZE in Ez; bool_to_prop; lia|].
    rewrite (bind_ok _ _ _ _ _ E1), bind_kmemset. fold s2. rewrite (bind_ok _ _ _ _ _ E3).
    rewrite Nat2Z.id, firstn_all. reflexivity. }
  assert (Z2 : ∀ a, q ≤ a < q + 4096 → ld8 (ram s2) a = 0).
  { intros a Ha. unfold s2. cbn [ram set_ram]. rewrite ld8_memset by (unfold PGSIZE; lia).
    by rewrite decide_True by (unfold PGSIZE; lia). }
  change (memset (ram s1) q 0 PGSIZE) with (ram s2) in P2. clearbody s2.
  exists (set_ram (store_bytes (ram s3) q code) s3), l3, tr3. cbn [ram set_ram].
  split; [exact E|]. split; [exact U4|]. split; [done|]. split; [done|]. split.
  - intros x Hx a Ha. destruct (ut_xs _ _ _ _ _ _ _ _ U x Hx) as (Hxp & _).
    assert (x ≠ q) by (by intros ->). rewrite (P4 x) by done. rewrite (P3 x) by (done || by right).
    rewrite (P2 x) by done. exact (P1 x Hx a Ha).
  - assert (Hn : 4096%nat = (length code + (4096 - length code))%nat) by lia. rewrite Hn at 1.
    rewrite load_bytes_app, load_store_bytes. f_equal.
    + rewrite <- (list_fmap_id code) at 2. apply list_fmap_ext. intros i c Hi. apply u8_small.
      exact (Forall_lookup_1 _ _ _ _ Hc Hi).
    + apply list_eq_same_length with (4096 - length code)%nat; rewrite ?load_bytes_length, ?length_replicate; [done..|].
      intros i x y Hi. rewrite load_bytes_lookup, lookup_replicate by done. intros [= <-] [-> _].
      rewrite ld8_store_bytes_out by lia. rewrite (P3 q) by (done || lia). apply Z2. lia.
Qed.

(** All of it: the memory [userinit] sets up. *)
Lemma first_memory_ok s L :
  free_list s L → (9 < length L)%nat →
  ∃ tf pt q s1 s2 s3 s4 s5 l tr, kalloc s = Ok tf s1 ∧ uvmcreate s1 = Ok pt s2 ∧
    mappages pt TRAMPOLINE PGSIZE trampoline (Z.lor PTE_R PTE_X) s2 = Ok 0 s3 ∧
    mappages pt TRAPFRAME PGSIZE tf (Z.lor PTE_R PTE_W) s3 = Ok 0 s4 ∧
    uvmfirst pt initcode (Z.of_nat (length initcode)) s4 = Ok tt s5 ∧
    (let s6 := set_ram (st64 (st64 (ram s5) (tf + TF_epc) 0) (tf + TF_sp) PGSIZE) s5 in
     utable (ram s) L s6 l [q; tf] pt tr (first_map tf q) ∧
     load_bytes (ram s6) q 4096 = initcode ++ replicate (4096 - length initcode) 0 ∧
     ld64 (ram s6) (tf + TF_epc) = 0 ∧ ld64 (ram s6) (tf + TF_sp) = PGSIZE) ∧
    page_ok tf ∧ page_ok pt ∧ page_ok q ∧ NoDup [tf; pt; q].
Proof.
  intros F Hl. destruct L as [|tf [|pt l0]]; [simpl in Hl; lia.. |].
  destruct (utable_new s tf pt l0 F) as (s1 & s2 & E1 & E2 & U2 & Htf & Hpt & Hne).
  pose proof trampoline_range as Ht. pose proof trampoline_aligned as Hta. pose proof etext_range. pose proof kend_range.
  pose proof (page_ok_bound tf Htf) as [Htb Htm]. unfold PHYSTOP, KERNBASE in *.
  assert (Hz : size ({[ [] := pt ]} : ptree) = 1%nat) by apply map_size_singleton. simpl in Hl.
  destruct (utable_map _ _ _ _ _ _ _ _ TRAMPOLINE trampoline (Z.lor PTE_R PTE_X) U2)
    as (s3 & l3 & tr3 & E3 & U3 & N3 & P3);
    [lia | apply ukeys_trampoline | apply ukeys_trampoline | vm_compute; intuition congruence | done | lia
    | done | vm_compute; intuition congruence |].
  destruct (utable_map _ _ _ _ _ _ _ _ TRAPFRAME tf (Z.lor PTE_R PTE_W) U3)
    as (s4 & l4 & tr4 & E4 & U4 & N4 & P4);
    [lia | apply ukeys_trapframe | apply ukeys_trapframe | vm_compute; intuition congruence | done | lia
    | done | vm_compute; intuition congruence |].
  pose proof (keys_size ukeys tr4 (ut_keys _ _ _ _ _ _ _ _ U4)) as Hk. simpl in Hk.
  destruct l4 as [|q l4]; [simpl in N4; lia|].
  destruct (utable_uvmfirst _ _ _ _ _ _ _ _ _ initcode U4) as (s5 & l5 & tr5 & E5 & U5 & Hq & Hqn & P5 & Hcode);
    [cbn [length] in N4; lia | done | repeat constructor; lia | done |].
  assert (Hin : tf ∈ [q; tf]) by (right; left).
  assert (Hqt : q ≠ tf) by (intros ->; apply Hqn; left).
  assert (Hqp : q ≠ pt).
  { intros ->. apply (as_disj _ _ _ _ (ut_as _ _ _ _ _ _ _ _ U4) [] pt); [|left].
    apply (pw_root _ _ _ (as_pt _ _ _ _ (ut_as _ _ _ _ _ _ _ _ U4))). }
  assert (Hb : same_but_page tf (ram s5) (st64 (st64 (ram s5) (tf + TF_epc) 0) (tf + TF_sp) PGSIZE)).
  { eapply same_but_page_trans; apply same_but_page_st64; unfold TF_epc, TF_sp; lia. }
  destruct (utable_poke _ _ _ _ _ _ _ _ tf _ U5 Hin Hb) as [U6 P6].
  exists tf, pt, q, s1, s2, s3, s4, s5, l5, tr5. do 5 (split; [assumption|]). cbv zeta.
  split; [|split_and!; [done..|]].
  - cbn [ram set_ram]. split; [|split; [|split]].
    + destruct U6 as [A K M X N Fr]. split; [exact A|exact K| |exact X|exact N|exact Fr].
      intros v Hv. rewrite M by done. unfold first_map. by repeat case_decide.
    + rewrite <- Hcode. apply load_bytes_agree. intros b Hb'. apply (P6 q Hq Hqt). lia.
    + rewrite ld64_st64_ne by (unfold TF_epc, TF_sp; lia). by rewrite ld64_st64_eq.
    + by rewrite ld64_st64_eq.
  - apply NoDup_cons. split; [|apply NoDup_cons; split; [|apply NoDup_singleton]].
    + rewrite !elem_of_cons, elem_of_nil. clear -Hne Hqt. naive_solver.
    + rewrite elem_of_cons, elem_of_nil. clear -Hqp. naive_solver.
Qed.
End first_memory.

(** ** userinit *)
Section userinit.
  Context {LK : Link} {LKO : LinkOk} {WK : Wakeups}.
  Context (pi : gmap Z Pipe.pipe) (ft : list file) (co : consst) (ti : Z) (fi : bool).

Notation K mm held procs pid ipr fs := (Kst mm held None procs pid ipr fs pi ft co ti fi).

Lemma bind_vm_first {A B} (f : M kmem A) (k : A → M kst B) mm held procs pid ipr fs a mm' :
  f mm = Ok a mm' → bind (vm f) k (K mm held procs pid ipr fs) = k a (K mm' held procs pid ipr fs).
Proof. exact (bind_vm f k (K mm held procs pid ipr fs) a mm'). Qed.
Lemma bind_kwrite_first {B} a v (k : unit → M kst B) mm held procs pid ipr fs :
  bind (vm (kwrite64 a v)) k (K mm held procs pid ipr fs) = k tt (K (set_ram (st64 (ram mm) a v) mm) held procs pid ipr fs).
Proof. done. Qed.
Lemma bind_pget_first {A B} (f : proc → A) (k : A → M kst B) mm held p0 rest pid ipr fs :
  bind (pget 0 f) k (K mm held (p0 :: rest) pid ipr fs) = k (f p0) (K mm held (p0 :: rest) pid ipr fs).
Proof. done. Qed.
Lemma bind_pupd_first {B} g (k : unit → M kst B) mm held p0 rest pid ipr fs :
  bind (pupd 0 g) k (K mm held (p0 :: rest) pid ipr fs) = k tt (K mm held (g p0 :: rest) pid ipr fs).
Proof. done. Qed.

(** The root directory, with no inode in use. *)
Definition root_inode (x : inode) : inode :=
  set_i_valid 0 (set_i_ref 1 (set_i_inum ROOTINO (set_i_dev ROOTDEV x))).

Lemma iget_root mm held procs pid ipr fs ip :
  Litable ∉ held → iget_scan (f_itable fs) 0 ROOTDEV ROOTINO None = inr (Some ip) →
  iget ROOTDEV ROOTINO (K mm held procs pid ipr fs) =
    Ok ip (K mm held procs pid ipr (set_f_itable (alter root_inode ip (f_itable fs)) fs)).
Proof.
  intros Hl Hi. unfold iget. change (acquire Litable) with (acquire_k Litable).
  rewrite bind_acquire_k by done. unfold get. rewrite bind_gets. cbn [the_lens kst_fs lget k_fs set_k_held].
  rewrite Hi. unfold iset, upd. rewrite !bind_modify. cbn [the_lens kst_fs lget lput k_fs set_k_fs].
  change (release Litable) with (release_k Litable). rewrite (bind_release_k _ held) by done.
  unfold mod_inode. destruct fs. cbn. rewrite !alter_alter. done.
Qed.

Lemma namei_root mm held procs pid ipr fs ip :
  Litable ∉ held → iget_scan (f_itable fs) 0 ROOTDEV ROOTINO None = inr (Some ip) →
  namei [47] (K mm held procs pid ipr fs) =
    Ok (Some ip) (K mm held procs pid ipr (set_f_itable (alter root_inode ip (f_itable fs)) fs)).
Proof.
  intros Hl Hi. pose proof (iget_root mm held procs pid ipr fs ip Hl Hi) as E.
  set (s' := K _ _ _ _ _ (set_f_itable _ _)) in *.
  assert (E' : namex [47] false (K mm held procs pid ipr fs) = Ok (Some (ip, [])) s').
  { unfold namex. cbn [head default]. change (47 =? SLASH) with true. cbv iota.
    by rewrite (bind_ok _ _ _ _ _ E). }
  unfold namei. by rewrite (bind_ok _ _ _ _ _ E').
Qed.

(** ** The slot of the first process *)
Lemma proc_pagetable_ok mm held p0 rest pid ipr fs pt m2 m3 m4 :
  uvmcreate mm = Ok pt m2 → pt ≠ 0 →
  mappages pt TRAMPOLINE PGSIZE trampoline (Z.lor PTE_R PTE_X) m2 = Ok 0 m3 →
  mappages pt TRAPFRAME PGSIZE (p_trapframe p0) (Z.lor PTE_R PTE_W) m3 = Ok 0 m4 →
  proc_pagetable 0 (K mm held (p0 :: rest) pid ipr fs) = Ok pt (K m4 held (p0 :: rest) pid ipr fs).
Proof.
  intros E2 Hpt E3 E4. unfold proc_pagetable. erewrite (bind_vm uvmcreate) by exact E2. cbn [set_k_mm].
  rewrite (proj2 (Z.eqb_neq pt 0)) by done. erewrite bind_vm by exact E3. cbn [set_k_mm].
  change (0 <? 0) with false. cbv iota. rewrite bind_pget. cbn [proc_at k_procs lookup list_lookup default].
  erewrite bind_vm by exact E4. reflexivity.
Qed.

Lemma allocproc_ok mm p0 rest pid ipr fs tf pt m1 m2 m3 m4 :
  p_state p0 = UNUSED → kalloc mm = Ok tf m1 → tf ≠ 0 → uvmcreate m1 = Ok pt m2 → pt ≠ 0 →
  mappages pt TRAMPOLINE PGSIZE trampoline (Z.lor PTE_R PTE_X) m2 = Ok 0 m3 →
  mappages pt TRAPFRAME PGSIZE tf (Z.lor PTE_R PTE_W) m3 = Ok 0 m4 →
  allocproc (K mm [] (p0 :: rest) pid ipr fs) =
    Ok (Some 0%nat) (K m4 [Lproc 0]
      (set_p_context_sp (u64 (p_kstack p0 + PGSIZE)) (set_p_context_ra forkret_addr (set_p_pagetable pt
        (set_p_trapframe tf (set_p_state USED (set_p_pid pid p0))))) :: rest) (i32 (pid + 1)) ipr fs).
Proof.
  intros Hu E1 Htf E2 Hpt E3 E4.
  assert (Es : allocproc_scan slots (K mm [] (p0 :: rest) pid ipr fs) =
    Ok (Some 0%nat) (K mm [Lproc 0] (p0 :: rest) pid ipr fs)).
  { change slots with (0%nat :: seq 1 63). cbn [allocproc_scan].
    change (acquire (Lproc 0)) with (acquire_k (Lproc 0)). rewrite bind_acquire_k by apply not_elem_of_nil.
    rewrite bind_pget. cbn [set_k_held]. unfold proc_at. cbn. rewrite Hu. done. }
  unfold allocproc. rewrite (bind_ok _ _ _ _ _ Es). unfold allocproc_found.
  assert (Ep : allocpid (K mm [Lproc 0] (p0 :: rest) pid ipr fs) =
    Ok pid (K mm [Lproc 0] (p0 :: rest) (i32 (pid + 1)) ipr fs)) by reflexivity.
  rewrite (bind_ok _ _ _ _ _ Ep), !bind_pupd_first, (bind_vm_first _ _ _ _ _ _ _ _ _ _ E1), bind_pupd_first.
  rewrite (proj2 (Z.eqb_neq tf 0)) by done.
  rewrite (bind_ok _ _ _ _ _ (proc_pagetable_ok m1 [Lproc 0] (set_p_trapframe tf (set_p_state USED (set_p_pid pid p0)))
    rest (i32 (pid + 1)) ipr fs pt m2 m3 m4 E2 Hpt E3 E4)).
  rewrite bind_pupd_first, (proj2 (Z.eqb_neq pt 0)), !bind_pupd_first by done. done.
Qed.

(** The first process. *)
Definition first_proc (p0 : proc) (tf pt pid : Z) (cwd : option nat) : proc :=
  Proc RUNNABLE (p_chan p0) (p_killed p0) (p_xstate p0) pid (p_parent p0) (p_kstack p0) PGSIZE pt tf
    forkret_addr (u64 (p_kstack p0 + PGSIZE)) (p_ofile p0) cwd
    (safestrcpy_array (p_name p0) (bytes_of "initcode") 16) (p_trace_mask p0).

Lemma userinit_ok mm p0 rest pid ipr fs ip L :
  free_list mm L → (9 < length L)%nat → p_state p0 = UNUSED →
  iget_scan (f_itable fs) 0 ROOTDEV ROOTINO None = inr (Some ip) →
  ∃ tf pt q mm' l tr,
    userinit (K mm [] (p0 :: rest) pid ipr fs) =
      Ok tt (K mm' [] (first_proc p0 tf pt pid (Some ip) :: rest) (i32 (pid + 1)) (Some 0%nat)
        (set_f_itable (alter root_inode ip (f_itable fs)) fs)) ∧
    utable (ram mm) L mm' l [q; tf] pt tr (first_map tf q) ∧
    load_bytes (ram mm') q 4096 = initcode ++ replicate (4096 - length initcode) 0 ∧
    ld64 (ram mm') (tf + TF_epc) = 0 ∧ ld64 (ram mm') (tf + TF_sp) = PGSIZE ∧ NoDup [tf; pt; q].
Proof.
  intros F Hl Hu Hi.
  destruct (first_memory_ok mm L F Hl) as (tf & pt & q & m1 & m2 & m3 & m4 & m5 & l & tr & E1 & E2 & E3 & E4 & E5 &
    (U & C & He & Hs) & Htf & Hpt & Hq & ND).
  exists tf, pt, q, (set_ram (st64 (st64 (ram m5) (tf + TF_epc) 0) (tf + TF_sp) PGSIZE) m5), l, tr.
  split; [|split; [exact U|split; [exact C|split; [exact He|split; [exact Hs|exact ND]]]]]. clear U C He Hs.
  assert (tf ≠ 0 ∧ pt ≠ 0) as [Htf0 Hpt0].
  { pose proof (page_ok_bound tf Htf). pose proof (page_ok_bound pt Hpt). unfold KERNBASE in *. lia. }
  unfold userinit. rewrite (bind_ok _ _ _ _ _ (allocproc_ok mm p0 rest pid ipr fs tf pt m1 m2 m3 m4 Hu E1 Htf0 E2 Hpt0 E3 E4)).
  rewrite bind_modify. cbv iota beta. unfold set_k_initproc at 1.
  cbn [k_mm k_held k_cur k_procs k_nextpid k_fs k_pipes k_ftable k_cons k_ticks k_first].
  rewrite bind_pget_first. cbn [p_pagetable set_p_context_sp set_p_context_ra set_p_pagetable].
  rewrite (bind_vm_first _ _ _ _ _ _ _ _ _ _ E5), bind_pupd_first, bind_pget_first.
  rewrite !bind_kwrite_first, bind_pupd_first.
  erewrite bind_ok by (apply namei_root; [|exact Hi]; by rewrite list_elem_of_singleton).
  rewrite !bind_pupd_first. change (release (Lproc 0)) with (release_k (Lproc 0)).
  rewrite (release_k_top _ []) by done. done.
Qed.
End userinit.

(** ** The disk's queue *)
Section queue.
  Context {LK : Link} {LKO : LinkOk}.

(** Memory is unchanged outside the pages [L]. *)
Definition frame (L : list Z) (m m' : mem) : Prop :=
  ∀ a, (∀ q, q ∈ L → ¬ (q ≤ a < q + 4096)) → ld8 m' a = ld8 m a.

Lemma frame_trans L L' m1 m2 m3 : (∀ q, q ∈ L' → q ∈ L) → frame L m1 m2 → frame L' m2 m3 → frame L m1 m3.
Proof. intros HL H1 H2 a Ha. rewrite H2 by auto. by apply H1. Qed.

(** The kernel's page table is not among the free pages. *)
Lemma ktable_frame s l root tr T m :
  ktable s l root tr T → frame l (ram s) m → ∀ v, vslot v → sv39 m root v = T v.
Proof.
  intros [A K M] Hm v Hv. pose proof (as_pt _ _ _ _ A) as W. destruct (wf_agree W m) as [W' L'].
  { intros k p a Hk Ha. apply Hm. intros q Hq. pose proof (fl_pages _ _ (as_free _ _ _ _ A)) as FF.
    rewrite Forall_forall in FF. destruct (FF q Hq) as [Hqa _].
    assert (p ≠ q) by (intros ->; by apply (as_disj _ _ _ _ A k q)).
    pose proof (pw_aligned W _ _ Hk). destruct (page_disjoint p q); auto; lia. }
  rewrite (sv39_leaf W'), L', <- (sv39_leaf W). by apply M.
Qed.

Lemma kalloc_frame s q l :
  free_list s (q :: l) → ∃ s', kalloc s = Ok q s' ∧ free_list s' l ∧ page_ok q ∧ frame [q] (ram s) (ram s').
Proof.
  intros F. destruct (kalloc_some s q l F) as (E & F' & Hq & _). eexists. split; [exact E|].
  split; [exact F'|]. split; [done|]. intros a Ha. apply same_but_page_memset, Ha. left.
Qed.

(** Clearing pages that are not free. *)
Lemma memset_frame s l q :
  free_list s l → page_ok q → q ∉ l →
  free_list (set_ram (memset (ram s) q 0 PGSIZE) s) l ∧ frame [q] (ram s) (memset (ram s) q 0 PGSIZE).
Proof.
  intros F Hq Hn. split.
  - apply free_list_ram; [done|]. intros x Hx. pose proof (fl_pages _ _ F) as FF. rewrite Forall_forall in FF.
    apply (same_but_page_ld64 q); [apply same_but_page_memset | apply Hq | by apply FF | by intros ->].
  - intros a Ha. apply same_but_page_memset, Ha. left.
Qed.

Lemma bind_mm {A B} (f : M kmem A) (g : A → M mach B) k vd h irqs pl a mm' :
  f (k_mm k) = Ok a mm' → bind (mm f) g (Mach k vd h irqs pl) = g a (Mach (set_k_mm mm' k) vd h irqs pl).
Proof. intros E. unfold bind, mm, zoom. cbn. by rewrite E. Qed.
Lemma bind_vdisk {B} f (g : unit → M mach B) k vd h irqs pl :
  bind (upd f) g (Mach k vd h irqs pl) = g tt (Mach k (f vd) h irqs pl).
Proof. done. Qed.

Lemma alloc_queue_ok (m : mach) d a u l :
  free_list (k_mm (m_k m)) (d :: a :: u :: l) →
  ∃ mm' v, alloc_queue m = Ok (d, a, u) (set_m_disk v (set_m_k (set_k_mm mm' (m_k m)) m)) ∧
    free_list mm' l ∧ frame [d; a; u] (ram (k_mm (m_k m))) (ram mm').
Proof.
  intros F. destruct m as [k vd h irqs pl]. cbn [m_k] in F |- *.
  pose proof (fl_nodup _ _ F) as ND. apply NoDup_cons in ND as [Hd ND].
  apply NoDup_cons in ND as [Ha ND]. apply NoDup_cons in ND as [Hu _].
  destruct (kalloc_frame _ _ _ F) as (s1 & E1 & F1 & Pd & R1).
  destruct (kalloc_frame _ _ _ F1) as (s2 & E2 & F2 & Pa & R2).
  destruct (kalloc_frame _ _ _ F2) as (s3 & E3 & F3 & Pu & R3).
  destruct (memset_frame s3 l d F3 Pd) as [F4 R4]; [set_solver|].
  destruct (memset_frame _ l a F4 Pa) as [F5 R5]; [set_solver|].
  destruct (memset_frame _ l u F5 Pu) as [F6 R6]; [set_solver|].
  assert (d ≠ 0 ∧ a ≠ 0 ∧ u ≠ 0) as (Hd0 & Ha0 & Hu0).
  { pose proof (page_ok_bound d Pd). pose proof (page_ok_bound a Pa). pose proof (page_ok_bound u Pu).
    unfold KERNBASE in *. lia. }
  eexists _, _. split; [|split; [exact F6|]].
  - unfold alloc_queue. rewrite (bind_mm _ _ k _ _ _ _ _ _ E1), (bind_mm _ _ (set_k_mm s1 k) _ _ _ _ _ _ E2),
      (bind_mm _ _ (set_k_mm s2 (set_k_mm s1 k)) _ _ _ _ _ _ E3).
    rewrite !(proj2 (Z.eqb_neq _ 0)) by done. cbn [orb].
    rewrite (bind_mm (kmemset d 0 PGSIZE) _ _ _ _ _ _ tt _ eq_refl), (bind_mm (kmemset a 0 PGSIZE) _ _ _ _ _ _ tt _ eq_refl),
      (bind_mm (kmemset u 0 PGSIZE) _ _ _ _ _ _ tt _ eq_refl). reflexivity.
  - assert (Hs : ∀ q x, q ∈ [x] → x ∈ [d; a; u] → q ∈ [d; a; u]) by (by intros q x ->%list_elem_of_singleton).
    apply (frame_trans _ [u] _ (memset (memset (ram s3) d 0 PGSIZE) a 0 PGSIZE)); [intros q Hq; apply (Hs q u Hq); set_solver | | exact R6].
    apply (frame_trans _ [a] _ (memset (ram s3) d 0 PGSIZE)); [intros q Hq; apply (Hs q a Hq); set_solver | | exact R5].
    apply (frame_trans _ [d] _ (ram s3)); [intros q Hq; apply (Hs q d Hq); set_solver | | exact R4].
    apply (frame_trans _ [u] _ (ram s2)); [intros q Hq; apply (Hs q u Hq); set_solver | | exact R3].
    apply (frame_trans _ [a] _ (ram s1)); [intros q Hq; apply (Hs q a Hq); set_solver | | exact R2].
    intros x Hx. apply R1. intros q Hq. apply Hx, (Hs q d Hq). left.
Qed.
End queue.

(** ** The initialisers *)
Section initialisers.
  Context {LK : Link} {LKO : LinkOk} {WK : Wakeups}.

(** What the disk's registers read, as the driver expects (the legacy-free
    virtio interface of the disk). *)
Record virtio_ok (reg : Z → Z) : Prop := {
  vo_magic : reg VIRTIO_MMIO_MAGIC_VALUE = 0x74726976;
  vo_version : reg VIRTIO_MMIO_VERSION = 2;
  vo_device : reg VIRTIO_MMIO_DEVICE_ID = 2;
  vo_vendor : reg VIRTIO_MMIO_VENDOR_ID = 0x554d4551;
  vo_features : Z.land (reg VIRTIO_MMIO_STATUS) 8 ≠ 0;
  vo_ready : reg VIRTIO_MMIO_QUEUE_READY = 0;
  vo_max : NUM ≤ reg VIRTIO_MMIO_QUEUE_NUM_MAX;
}.

Lemma virtio_disk_init_ok reg (m : mach) d a u l :
  virtio_ok reg → free_list (k_mm (m_k m)) (d :: a :: u :: l) →
  ∃ mm' v, virtio_disk_init reg m = Ok tt (set_m_disk v (set_m_k (set_k_mm mm' (m_k m)) m)) ∧
    free_list mm' l ∧ frame [d; a; u] (ram (k_mm (m_k m))) (ram mm').
Proof.
  intros [V1 V2 V3 V4 V5 V6 V7] F. destruct m as [k vd h irqs pl]. unfold NUM in V7.
  unfold virtio_disk_init. rewrite V1, V2, V3, V4, V6. rewrite !Z.eqb_refl. cbn [negb orb].
  rewrite !bind_vdisk. rewrite (proj2 (Z.eqb_neq _ 0) V5). rewrite bind_vdisk.
  change (nonzero 0) with false. cbv iota. rewrite (proj2 (Z.eqb_neq _ 0)) by lia.
  rewrite (proj2 (Z.ltb_ge _ _)) by (unfold NUM; lia).
  match goal with |- context [bind alloc_queue ?g ?m1] => destruct (alloc_queue_ok m1 d a u l F) as (mm' & v & E & F' & R) end.
  rewrite (bind_ok _ _ _ _ _ E). eexists mm', _. split; [reflexivity|]. by split.
Qed.


(** Zeroed slots of the process table. *)
Definition new_slot (i : nat) : proc := set_p_kstack (KSTACK (Z.of_nat i)) proc0.

Lemma procinit_ok (s : kst) :
  k_procs s = replicate (Z.to_nat NPROC) proc0 →
  procinit s = Ok tt (set_k_procs (new_slot <$> slots) s).
Proof. intros Hp. destruct s. cbn in Hp. subst. reflexivity. Qed.

Lemma iinit_ok (s : kst) :
  f_itable (k_fs s) = replicate (Z.to_nat NINODE) inode0 → iinit s = Ok tt s.
Proof. intros Hp. destruct s as [? ? ? ? ? ? [] ? ? ? ? ?]. cbn in Hp. subst. reflexivity. Qed.

Lemma bind_upd_cons {B} f (g : unit → M kst B) t s :
  bind (upd f) g (set_k_cons t s) = g tt (set_k_cons (f t) s).
Proof. done. Qed.
Lemma upd_cons f t s : upd f (set_k_cons t s) = Ok tt (set_k_cons (f t) s).
Proof. done. Qed.
Lemma panicked_write_reg r v t : panicked (write_reg r v t) = panicked t.
Proof. done. Qed.
Lemma dev_idle_write_reg r v t : dev_idle (write_reg r v t) = dev_idle t.
Proof. done. Qed.
Lemma dev_out_write_reg r v t : dev_out (write_reg r v t) = dev_out t.
Proof. done. Qed.

Lemma consoleinit_ok (s : kst) :
  ∃ t', consoleinit s = Ok tt (set_k_cons t' s) ∧ panicked t' = panicked (k_cons s) ∧
    dev_idle t' = dev_idle (k_cons s) ∧ dev_out t' = dev_out (k_cons s).
Proof.
  assert (H : ∀ t, ∃ t', consoleinit (set_k_cons t s) = Ok tt (set_k_cons t' s) ∧ panicked t' = panicked t ∧
    dev_idle t' = dev_idle t ∧ dev_out t' = dev_out t).
  { intros t. unfold consoleinit, uartinit. rewrite !bind_upd_cons. eexists. split; [apply upd_cons|].
    by rewrite !panicked_write_reg, !dev_idle_write_reg, !dev_out_write_reg. }
  specialize (H (k_cons s)). by destruct s.
Qed.

Definition banner : list Z := [10] ++ (bytes_of "xv6 kernel is booting" ++ [10]) ++ [10].

(** A message without directives. *)
Lemma printf_message fmt (s : kst) :
  render fmt [] = Some fmt → Forall (λ c, 0 ≤ c < 256) fmt → k_held s = [] → panicked (k_cons s) = false →
  (length fmt ≤ idle_count (dev_idle (k_cons s)))%nat →
  ∃ t', printf fmt [] s = Ok tt (set_k_cons t' s) ∧ echoed fmt (k_cons s) t'.
Proof.
  intros Hr Hf Hh Hp Hi. apply printf_kernel; auto. rewrite Hh. apply not_elem_of_nil.
Qed.

(** ** main *)

(** The machine when [start] enters [main] on the first hart: memory that is
    not initialised is zero, no process exists, and the UART takes the
    messages. *)
Record power_on (y : sys) : Prop := {
  po_freelist : freelist (k_mm (m_k (y_m y))) = 0;
  po_held : k_held (m_k (y_m y)) = [];
  po_cur : k_cur (m_k (y_m y)) = None;
  po_procs : k_procs (m_k (y_m y)) = replicate (Z.to_nat NPROC) proc0;
  po_nextpid : k_nextpid (m_k (y_m y)) = 1;
  po_itable : f_itable (k_fs (m_k (y_m y))) = replicate (Z.to_nat NINODE) inode0;
  po_bufs : f_bufs (k_fs (m_k (y_m y))) = replicate (S HEAD) buf0;
  po_panicked : panicked (k_cons (m_k (y_m y))) = false;
  po_idle : (length banner ≤ idle_count (dev_idle (k_cons (m_k (y_m y)))))%nat;
  po_tp : h_tp (m_hart (y_m y)) = 0;
}.

Lemma bind_mach {A B} (f : M mach A) (g : A → M sys B) m pt st a m' :
  f m = Ok a m' → bind (on_mach f) g (Sys m pt st) = g a (Sys m' pt st).
Proof. intros E. unfold bind, on_mach, zoom. cbn. by rewrite E. Qed.

Lemma bind_kern_sys {A B} (f : M kst A) (g : A → M sys B) k vd h irqs pl pt st a k' :
  f k = Ok a k' → bind (on_mach (kern f)) g (Sys (Mach k vd h irqs pl) pt st) = g a (Sys (Mach k' vd h irqs pl) pt st).
Proof. intros E. apply bind_mach. unfold kern, zoom. cbn. by rewrite E. Qed.

Lemma bind_vm_sys {A B} (f : M kmem A) (g : A → M sys B) k vd h irqs pl pt st a mm' :
  f (k_mm k) = Ok a mm' →
  bind (on_mach (kern (vm f))) g (Sys (Mach k vd h irqs pl) pt st) = g a (Sys (Mach (set_k_mm mm' k) vd h irqs pl) pt st).
Proof. intros E. apply bind_kern_sys. unfold vm, zoom. cbn. by rewrite E. Qed.

(** The messages, as the first steps of [main]. *)
Lemma banner_ok k vd h irqs pl pt st :
  k_held k = [] → panicked (k_cons k) = false → (length banner ≤ idle_count (dev_idle (k_cons k)))%nat →
  ∃ t', (∀ g : M sys unit, (on_mach (kern consoleinit) ;; on_mach (kern printfinit) ;; on_mach (kern (printf [10] [])) ;;
      on_mach (kern (printf (bytes_of "xv6 kernel is booting" ++ [10]) [])) ;; on_mach (kern (printf [10] [])) ;; g)
        (Sys (Mach k vd h irqs pl) pt st) = g (Sys (Mach (set_k_cons t' k) vd h irqs pl) pt st)) ∧
    dev_out t' = dev_out (k_cons k) ++ banner ∧ panicked t' = false.
Proof.
  intros Hh Hp Hi. destruct (consoleinit_ok k) as (t1 & E1 & P1 & I1 & O1).
  set (k2 := set_k_cons (set_pr_locking true t1) k).
  assert (E2 : printfinit (set_k_cons t1 k) = Ok tt k2) by reflexivity.
  assert (Hlen : length banner = 24%nat) by reflexivity. rewrite Hlen in Hi.
  destruct (printf_message [10] k2) as (t3 & E3 & [_ _ _ _ P3 _ O3 I3]);
    [reflexivity | repeat constructor; lia | exact Hh | by cbn; rewrite P1 | cbn; rewrite I1; lia |].
  assert (D2 : k_cons k2 = set_pr_locking true t1) by reflexivity. rewrite D2 in P3, O3, I3.
  cbn [panicked dev_out dev_idle set_pr_locking length] in P3, O3, I3. rewrite P1, Hp in P3. rewrite O1 in O3. rewrite I1 in I3.
  destruct (printf_message (bytes_of "xv6 kernel is booting" ++ [10]) (set_k_cons t3 k2)) as (t4 & E4 & [_ _ _ _ P4 _ O4 I4]);
    [reflexivity | apply Forall_app; split; [apply bytes_of_range | repeat constructor; lia] | exact Hh | exact P3
    | change (length _) with 22%nat; change (k_cons (set_k_cons t3 k2)) with t3; lia |].
  change (k_cons (set_k_cons t3 k2)) with t3 in P4, O4, I4. change (length _) with 22%nat in I4.
  destruct (printf_message [10] (set_k_cons t4 k2)) as (t5 & E5 & [_ _ _ _ P5 _ O5 I5]);
    [reflexivity | repeat constructor; lia | exact Hh | by rewrite <- P3, <- P4
    | change (k_cons (set_k_cons t4 k2)) with t4; simpl; lia |].
  change (k_cons (set_k_cons t4 k2)) with t4 in P5, O5, I5.
  exists t5. split; [|split; [by rewrite O5, O4, O3, <- !app_assoc | by rewrite P5, P4]].
  intros g. rewrite (bind_kern_sys _ _ _ _ _ _ _ _ _ _ _ E1), (bind_kern_sys _ _ _ _ _ _ _ _ _ _ _ E2),
    (bind_kern_sys _ _ _ _ _ _ _ _ _ _ _ E3), (bind_kern_sys _ _ _ _ _ _ _ _ _ _ _ E4).
  by rewrite (bind_kern_sys _ _ _ _ _ _ _ _ _ _ _ E5).
Qed.

Lemma kvminit_run k vd h irqs pl pt st root mm' :
  kvmmake (k_mm k) = Ok root mm' →
  kvminit (Sys (Mach k vd h irqs pl) pt st) = Ok tt (Sys (Mach (set_k_mm mm' k) vd h irqs pl) root st).
Proof. intros E. unfold kvminit. by rewrite (bind_vm_sys _ _ _ _ _ _ _ _ _ _ _ E). Qed.

(** From [procinit] to [fileinit]. *)
Definition inited (k : kst) : kst :=
  set_k_fs (set_f_bufs (binit_list (f_bufs (k_fs k))) (k_fs k)) (set_k_procs (new_slot <$> slots) k).

Definition plic_inited (hart : Z) : list (Z * Z) :=
  [(PLIC + UART0_IRQ * 4, 1); (PLIC + VIRTIO0_IRQ * 4, 1);
   (PLIC_SENABLE hart, Z.lor (Z.shiftl 1 UART0_IRQ) (Z.shiftl 1 VIRTIO0_IRQ)); (PLIC_SPRIORITY hart, 0)].

Lemma inits_run {B} (g : M sys B) k vd h irqs pl pt st :
  k_held k = [] → k_procs k = replicate (Z.to_nat NPROC) proc0 →
  f_itable (k_fs k) = replicate (Z.to_nat NINODE) inode0 → h_tp h = 0 →
  (on_mach (kern procinit) ;; on_mach (kern trapinit) ;; on_mach trapinithart ;; on_mach plicinit ;;
   on_mach plicinithart ;; on_mach (kern binit) ;; on_mach (kern iinit) ;; on_mach (kern fileinit) ;; g)
    (Sys (Mach k vd h irqs pl) pt st) =
  g (Sys (Mach (inited k) vd (set_h_stvec kernelvec h) irqs (pl ++ plic_inited 0)) pt st).
Proof.
  intros Hh Hp Hi Ht.
  assert (Hl : ∀ k' l, k_held k' = [] → initlock_k l k' = Ok tt k').
  { intros k' l E. unfold initlock_k, modify. rewrite E. destruct k'. cbn in *. by subst. }
  rewrite (bind_kern_sys _ _ _ _ _ _ _ _ _ _ _ (procinit_ok k Hp)).
  rewrite (bind_kern_sys _ _ _ _ _ _ _ _ _ _ _ (Hl (set_k_procs (new_slot <$> slots) k) Lticks Hh)).
  destruct h as [h1 h2 h3 h4 h5 h6 tp h8]. cbn in Ht. subst tp. unfold set_h_stvec.
  set (k1 := set_k_procs _ k).
  set (h' := Hart h1 h2 h3 h4 kernelvec h6 0 h8).
  set (p2 := (pl ++ [(PLIC + UART0_IRQ * 4, 1)]) ++ [(PLIC + VIRTIO0_IRQ * 4, 1)]).
  set (p4 := (p2 ++ [(PLIC_SENABLE 0, Z.lor (Z.shiftl 1 UART0_IRQ) (Z.shiftl 1 VIRTIO0_IRQ))]) ++ [(PLIC_SPRIORITY 0, 0)]).
  rewrite (bind_mach trapinithart _ (Mach k1 vd (Hart h1 h2 h3 h4 h5 h6 0 h8) irqs pl) _ _ tt (Mach k1 vd h' irqs pl) eq_refl).
  rewrite (bind_mach plicinit _ (Mach k1 vd h' irqs pl) _ _ tt (Mach k1 vd h' irqs p2) eq_refl).
  rewrite (bind_mach plicinithart _ (Mach k1 vd h' irqs p2) _ _ tt (Mach k1 vd h' irqs p4) eq_refl).
  replace p4 with (pl ++ plic_inited 0) by (unfold p4, p2; by rewrite <- !app_assoc).
  assert (Eb : binit k1 = Ok tt (inited k)) by (unfold binit, upd, modify; reflexivity).
  rewrite (bind_kern_sys _ _ _ _ _ _ _ _ _ _ _ Eb).
  rewrite (bind_kern_sys _ _ _ _ _ _ _ _ _ _ _ (iinit_ok (inited k) Hi)).
  by rewrite (bind_kern_sys _ _ _ _ _ _ _ _ _ _ _ (Hl (inited k) Lftable Hh)).
Qed.

(** The first hart after [main]: the page tables, the memory of the first
    process and the process table. *)
Record booted (y : sys) (root : Z) (stacks : list Z) (tf pt q : Z) : Prop := {
  bo_sched : conf_init (Conf (y_m y) ∅ (Scheduler 0));
  bo_started : y_started y = 1;
  bo_paging : y_kernel_pagetable y = root ∧ h_satp (m_hart (y_m y)) = MAKE_SATP root;
  bo_stvec : h_stvec (m_hart (y_m y)) = kernelvec;
  bo_kernel : ∀ v, vslot v → sv39 (ram (k_mm (m_k (y_m y)))) root v = kmap stacks v;
  bo_stacks : length stacks = Z.to_nat NPROC;
  bo_proc : proc_at 0 (m_k (y_m y)) =
    first_proc (new_slot 0) tf pt 1 (Some 0%nat);
  bo_others : ∀ i, i ≠ 0%nat → p_state (proc_at i (m_k (y_m y))) = UNUSED;
  bo_cwd : f_itable (k_fs (m_k (y_m y))) !! 0%nat = Some (root_inode inode0);
  bo_cache : f_bufs (k_fs (m_k (y_m y))) = boot_list;
  bo_user : ∀ v, vslot v → sv39 (ram (k_mm (m_k (y_m y)))) pt v = first_map tf q v;
  bo_code : load_bytes (ram (k_mm (m_k (y_m y)))) q 4096 = initcode ++ replicate (4096 - length initcode) 0;
  bo_epc : ld64 (ram (k_mm (m_k (y_m y)))) (tf + TF_epc) = 0;
  bo_sp : ld64 (ram (k_mm (m_k (y_m y)))) (tf + TF_sp) = PGSIZE;
  bo_pages : NoDup (tf :: pt :: q :: root :: stacks);
}.

(** The calls of [main], one after the other. *)
Lemma main_steps reg k vd h irqs pl pt0 st0 t m1 m2 m3 v root k' :
  h_tp h = 0 → k_held k = [] → k_procs k = replicate (Z.to_nat NPROC) proc0 →
  f_itable (k_fs k) = replicate (Z.to_nat NINODE) inode0 →
  (∀ g : M sys unit, (on_mach (kern consoleinit) ;; on_mach (kern printfinit) ;; on_mach (kern (printf [10] [])) ;;
      on_mach (kern (printf (bytes_of "xv6 kernel is booting" ++ [10]) [])) ;; on_mach (kern (printf [10] [])) ;; g)
        (Sys (Mach k vd h irqs pl) pt0 st0) = g (Sys (Mach (set_k_cons t k) vd h irqs pl) pt0 st0)) →
  kinit (k_mm k) = Ok tt m1 → kvmmake m1 = Ok root m2 →
  (let s := Mach (inited (set_k_mm m2 (set_k_cons t k))) vd
     (set_h_stvec kernelvec (set_h_satp (MAKE_SATP root) h)) irqs (pl ++ plic_inited 0) in
   virtio_disk_init reg s = Ok tt (set_m_disk v (set_m_k (set_k_mm m3 (m_k s)) s))) →
  userinit (set_k_mm m3 (inited (set_k_mm m2 (set_k_cons t k)))) = Ok tt k' →
  main reg (Sys (Mach k vd h irqs pl) pt0 st0) =
    Ok tt (Sys (Mach k' v (set_h_stvec kernelvec (set_h_satp (MAKE_SATP root) h)) irqs (pl ++ plic_inited 0)) root 1).
Proof.
  intros Pt Ph Pp Pi Eb E1 E2 E3 E4. unfold main.
  rewrite (bind_mach cpuid _ (Mach k vd h irqs pl) _ _ (i32 (h_tp h)) (Mach k vd h irqs pl) eq_refl), Pt.
  change (i32 0 =? 0) with true. cbv iota. rewrite Eb.
  rewrite (bind_vm_sys kinit _ (set_k_cons t k) _ _ _ _ _ _ tt m1 E1).
  rewrite (bind_ok _ _ _ _ _ (kvminit_run (set_k_mm m1 (set_k_cons t k)) _ _ _ _ _ _ root m2 E2)).
  change (set_k_mm m2 (set_k_mm m1 (set_k_cons t k))) with (set_k_mm m2 (set_k_cons t k)).
  set (k2 := set_k_mm m2 _) in *. set (h2 := set_h_satp _ h).
  rewrite (bind_ok kvminithart _ _ tt (Sys (Mach k2 vd h2 irqs pl) root st0)) by reflexivity.
  rewrite inits_run by done.
  rewrite (bind_mach _ _ _ _ _ _ _ E3). set (s3 := set_m_disk v _).
  assert (E5 : kern userinit s3 = Ok tt (Mach k' v (set_h_stvec kernelvec h2) irqs (pl ++ plic_inited 0))).
  { unfold kern, zoom. change (lget _ s3) with (set_k_mm m3 (inited k2)). by rewrite E4. }
  by rewrite (bind_mach _ _ _ _ _ _ _ E5).
Qed.

Lemma others_unused mm held cur np ipr fs pi ft co ti fi p0 i :
  i ≠ 0%nat → p_state (proc_at i (Kst mm held cur (p0 :: (new_slot <$> seq 1 63)) np ipr fs pi ft co ti fi)) = UNUSED.
Proof.
  intros Hi. destruct i as [|i]; [done|].
  change (p_state (default proc0 ((new_slot <$> seq 1 63) !! i)) = UNUSED).
  rewrite list_lookup_fmap. by destruct (seq 1 63 !! i).
Qed.

Lemma conf_init_first mm tf pt pid np ipr fs pi ft co ti fi cwd v h irqs pl :
  kmem_lock mm = false →
  conf_init (Conf (Mach (Kst mm [] None (first_proc (new_slot 0) tf pt pid cwd :: (new_slot <$> seq 1 63)) np ipr
    fs pi ft co ti fi) v h irqs pl) ∅ (Scheduler 0)).
Proof.
  intros Hl. split; [done| |done|done|exact Hl|done|done]. intros i. cbn [c_m m_k].
  destruct (decide (i = 0%nat)) as [->|Hi]; [right; left|]. rewrite others_unused by done. left.
Qed.

Lemma first_pages s m0 l tr tr4 s4 l4 T L root stacks tf pt q T4 :
  ktable s (L ++ l) root tr T → stacks_ok stacks (L ++ l) tr →
  utable m0 l s4 l4 [q; tf] pt tr4 T4 → NoDup [tf; pt; q] → NoDup (tf :: pt :: q :: root :: stacks).
Proof.
  intros [A _ _] [ND _ Ht] U ND3. pose proof (pw_root _ _ _ (as_pt _ _ _ _ A)) as Hr.
  assert (Hl : ∀ x, x ∈ [tf; pt; q] → x ∈ l).
  { intros x Hx. apply (ut_mine _ _ _ _ _ _ _ _ U). rewrite !elem_of_cons, elem_of_nil in Hx.
    destruct Hx as [->|[->|[->|[]]]]; [right; left; right; left | right; right | right; left; left].
    exists []. apply (pw_root _ _ _ (as_pt _ _ _ _ (ut_as _ _ _ _ _ _ _ _ U))). }
  apply NoDup_app in ND as (ND1 & ND2 & _).
  apply (NoDup_app [tf; pt; q] (root :: stacks)). split; [done|]. split.
  - intros x Hx%Hl [->|Hs]%elem_of_cons.
    + apply (as_disj _ _ _ _ A [] root Hr). apply elem_of_app. by right.
    + apply (ND2 x Hs). apply elem_of_app. by right.
  - apply NoDup_cons. split; [by apply (Ht []) | done].
Qed.

(** C6: the kernel boots.  Started on a machine whose memory is zeroed, with a
    disk that answers as a virtio disk does and with 149 pages of memory after
    the kernel, [main] on the first hart neither panics nor waits: it prints
    its messages and returns in a state in which the scheduler can start
    ([conf_init], from which the theorems of [Sched] follow).  Paging is on,
    through a page table that still maps exactly what [kmap] says; the buffer
    cache is the list of all buffers.  The only process is the first one: it
    is runnable, starts at [forkret] on its own kernel stack, its address
    space holds [initcode] at address 0 with the trapframe and the trampoline
    at the top and nothing else, its trapframe says to start at 0 with the
    stack at the end of that page, and its directory is the root.  All these
    pages are distinct. *)
Theorem main_boots reg y
    (HP : power_on y) (HV : virtio_ok reg) (Hmem : (148 < length boot_pages)%nat) :
  ∃ y' root stacks tf pt q, main reg y = Ok tt y' ∧ booted y' root stacks tf pt q ∧
    dev_out (k_cons (m_k (y_m y'))) = dev_out (k_cons (m_k (y_m y))) ++ banner.
Proof.
  destruct HP as [Pf Ph Pc Pp Pn Pi Pb Pk Pd Pt].
  destruct y as [[k vd h irqs pl] pt0 st0]. cbn [y_m m_k m_hart] in *.
  destruct (kinit_spec (k_mm k) Pf) as (m1 & E1 & F1).
  destruct (kvmmake_ok m1 boot_pages F1) as (root & m2 & l2 & tr & stacks & E2 & K2 & SO & Hs & Hc & Hsuf & Hin); [lia|].
  destruct l2 as [|d [|a [|u l3]]]; [simpl in Hc; lia.. |].
  destruct (banner_ok k vd h irqs pl pt0 st0 Ph Pk Pd) as (t & Hb & Ob & _).
  set (h' := set_h_stvec kernelvec (set_h_satp (MAKE_SATP root) h)).
  destruct (virtio_disk_init_ok reg (Mach (inited (set_k_mm m2 (set_k_cons t k))) vd h' irqs (pl ++ plic_inited 0)) d a u l3 HV)
    as (m3 & v & E3 & F3 & R3); [apply (as_free _ _ _ _ (kt_as _ _ _ _ _ K2))|].
  cbn [m_k] in R3. change (k_mm (inited (set_k_mm m2 (set_k_cons t k)))) with m2 in R3.
  destruct k as [mm held cur procs np ipr fs pi ft co ti fi].
  cbn [k_mm k_held k_cur k_procs k_nextpid k_fs k_cons] in *. subst.
  destruct (userinit_ok pi ft t ti fi m3 (new_slot 0) (new_slot <$> seq 1 63) 1 ipr
    (set_f_bufs (binit_list (f_bufs fs)) fs) 0%nat l3 F3) as (tf & pt & q & m4 & l4 & tr4 & E4 & U4 & C4 & He & Hsp & ND);
    [simpl in Hc; lia | done | |].
  { destruct fs. cbn in Pi. subst. reflexivity. }
  pose proof (main_steps reg (Kst mm [] None (replicate (Z.to_nat NPROC) proc0) 1 ipr fs pi ft co ti fi)
    vd h irqs pl pt0 st0 t m1 m2 m3 v root _ Pt eq_refl eq_refl Pi Hb E1 E2 E3 E4) as E.
  eexists _, root, stacks, tf, pt, q. split; [exact E|]. split; [|exact Ob]. clear E E1 E2 E3 E4 Hb Ob.
  split; cbn [y_m m_k m_hart y_started y_kernel_pagetable h_satp h_stvec set_h_stvec set_h_satp c_m].
  - apply conf_init_first. exact (fl_lock _ _ (as_free _ _ _ _ (ut_as _ _ _ _ _ _ _ _ U4))).
  - done.
  - done.
  - done.
  - apply (ktable_frame _ _ _ _ _ _ K2). apply (frame_trans _ l3 _ (ram m3)); [intros x Hx; do 3 right; exact Hx| |exact (ut_frame _ _ _ _ _ _ _ _ U4)].
    intros x Hx. apply R3. intros y Hy. apply Hx. exact (proj2 (elem_of_app [d; a; u] l3 y) (or_introl Hy)).
  - exact Hs.
  - done.
  - intros i Hi. by apply others_unused.
  - destruct fs. cbn in Pi. subst. reflexivity.
  - change (binit_list (f_bufs fs) = boot_list). rewrite Pb. unfold boot_list. exact eq_refl.
  - exact (ut_map _ _ _ _ _ _ _ _ U4).
  - exact C4.
  - exact He.
  - exact Hsp.
  - apply (first_pages _ _ _ _ _ _ _ _ [d; a; u] _ _ _ _ _ _ K2 SO U4 ND).
Qed.

(** The other harts, once the first one is done, turn on paging through the
    same page table and install their trap vector. *)
Lemma main_other reg y l :
  let id := i32 (h_tp (m_hart (y_m y))) in
  id ≠ 0 → y_started y ≠ 0 → k_held (m_k (y_m y)) = [] → panicked (k_cons (m_k (y_m y))) = false →
  render (bytes_of "hart %d starting" ++ [10]) [AInt id] = Some l →
  (length l ≤ idle_count (dev_idle (k_cons (m_k (y_m y)))))%nat →
  ∃ y', main reg y = Ok tt y' ∧ h_satp (m_hart (y_m y')) = MAKE_SATP (y_kernel_pagetable y) ∧
    h_stvec (m_hart (y_m y')) = kernelvec ∧
    dev_out (k_cons (m_k (y_m y'))) = dev_out (k_cons (m_k (y_m y))) ++ l ∧
    k_procs (m_k (y_m y')) = k_procs (m_k (y_m y)) ∧ k_mm (m_k (y_m y')) = k_mm (m_k (y_m y)).
Proof.
  intros id Hid Hst Hh Hp Hr Hi. destruct y as [[k vd h irqs pl] pt st]. cbn [y_m m_k m_hart y_started] in *.
  destruct (printf_kernel (bytes_of "hart %d starting" ++ [10]) [AInt id] l k) as (t & E & He);
    [ apply Forall_app; split; [apply bytes_of_range | repeat constructor; lia]
    | apply Forall_singleton; unfold arg_ok, id; ilia | done.. | rewrite Hh; apply not_elem_of_nil |].
  unfold main. rewrite (bind_mach cpuid _ (Mach k vd h irqs pl) _ _ id (Mach k vd h irqs pl) eq_refl).
  rewrite (proj2 (Z.eqb_neq id 0)), bind_gets by done. cbn [y_started].
  rewrite (proj2 (Z.eqb_neq st 0)) by done.
  assert (E' : (id ← cpuid; kern (printf (bytes_of "hart %d starting" ++ [10]) [AInt id])) (Mach k vd h irqs pl) =
    Ok tt (Mach (set_k_cons t k) vd h irqs pl)).
  { rewrite (bind_ok cpuid _ _ id (Mach k vd h irqs pl)) by reflexivity. unfold kern, zoom. cbn [lget m_k]. by rewrite E. }
  rewrite (bind_mach _ _ _ _ _ _ _ E'). eexists. split; [reflexivity|]. cbn. by rewrite (ec_out _ _ _ He).
Qed.

(** A hart other than the first waits until [started] is set. *)
Lemma main_waits reg y : i32 (h_tp (m_hart (y_m y))) ≠ 0 → y_started y = 0 → main reg y = Diverge.
Proof.
  intros Hid Hst. destruct y as [m pt st]. cbn [y_m y_started] in *. subst st. unfold main.
  rewrite (bind_mach cpuid _ m _ _ (i32 (h_tp (m_hart m))) m eq_refl).
  by rewrite (proj2 (Z.eqb_neq _ 0) Hid), bind_gets.
Qed.
End initialisers.

(** ** An example *)
Section example.
#[local] Existing Instances ex_link_large ex_link_large_ok.
#[local] Instance main_wakeups : Wakeups := 0%nat.

Definition ex_power : sys :=
  Sys (Mach (Kst (Kmem ∅ false 0) [] None (replicate 64 proc0) 1 None
    (Fsst (replicate 31 buf0) (Disk ∅ []) (Log 0 0 0 0 0 0 []) (Superblock 0 0 0 0 0 0 0 0) (replicate 50 inode0))
    ∅ [] (ConsSt [] 0 0 0 [] 0 0 false false [] (replicate 24 true) [] []) 0 true)
    (Vdisk [] 0 [] 0 [] [] 0 [] [] ∅ []) (Hart 0 0 0 0 0 0 0 0) [] []) 0 0.

Definition ex_reg (r : Z) : Z :=
  if r =? VIRTIO_MMIO_MAGIC_VALUE then 0x74726976 else if r =? VIRTIO_MMIO_VERSION then 2
  else if r =? VIRTIO_MMIO_DEVICE_ID then 2 else if r =? VIRTIO_MMIO_VENDOR_ID then 0x554d4551
  else if r =? VIRTIO_MMIO_STATUS then 11 else if r =? VIRTIO_MMIO_QUEUE_NUM_MAX then 1024 else 0.

Lemma main_boots_witness : ∃ y' root stacks tf pt q,
  main ex_reg ex_power = Ok tt y' ∧ booted y' root stacks tf pt q.
Proof.
  destruct (main_boots ex_reg ex_power) as (y' & root & stacks & tf & pt & q & E & B & _).
  - split; reflexivity || (vm_compute; lia).
  - split; try reflexivity; vm_compute; congruence.
  - rewrite ex_boot_length. lia.
  - exact (ex_intro _ y' (ex_intro _ root (ex_intro _ stacks (ex_intro _ tf (ex_intro _ pt (ex_intro _ q (conj E B))))))).
Defined.
End example.
