(* ===== verification/User.v ===== *)
(** * User programs and their system calls ([user/user.h])

    A user program is a tree: it returns, asks the kernel for something and
    goes on with the answer, or exits.  Its state is the process's memory, a
    map of bytes like physical memory in [Mem].  [URun] is code whose loop
    bound is used up; the theorems show that it does not happen.

    A system call is a request with the bytes it passes to the kernel; the
    answer is the value returned and the bytes the kernel stores at the
    address the program gave.  [urun] runs a program against a world that
    answers its requests. *)

From S2P Require Import Base Mem.
Local Open Scope Z_scope.

(** The stubs of [user.h] that the modelled programs call.  C strings are lists
    of bytes without the final NUL. *)
Inductive request :=
| QFork
| QWait
| QPipe
| QRead (fd n : Z)
| QWrite (fd : Z) (data : list Z)
| QClose (fd : Z)
| QKill (pid : Z)
| QExec (path : list Z) (argv : list (list Z))
| QOpen (path : list Z) (omode : Z)
| QMknod (path : list Z) (major minor : Z)
| QUnlink (path : list Z)
| QFstat (fd : Z)
| QLink (old new : list Z)
| QMkdir (path : list Z)
| QChdir (path : list Z)
| QDup (fd : Z)
| QSleep (n : Z)
| QTrace (mask : Z).

Record reply := Reply { r_val : Z; r_data : list Z }.

Inductive uprog (A : Type) : Type :=
| UDone (a : A) (m : mem)
| UAsk (q : request) (k : reply → uprog A)
| UExit (status : Z)
| URun.
Arguments UDone {A}.
Arguments UAsk {A}.
Arguments UExit {A}.
Arguments URun {A}.

Definition U (A : Type) : Type := mem → uprog A.

Fixpoint uprog_bind {A B} (p : uprog A) (f : A → U B) : uprog B :=
  match p with
  | UDone a m => f a m
  | UAsk q k => UAsk q (λ r, uprog_bind (k r) f)
  | UExit c => UExit c
  | URun => URun
  end.
Definition ubind {A B} (p : U A) (f : A → U B) : U B := λ m, uprog_bind (p m) f.
Definition uret {A} (a : A) : U A := λ m, UDone a m.

Declare Scope user_scope.
Delimit Scope user_scope with U.
Notation "x ← y ; z" := (ubind y (λ x, z))
  (at level 20, y at level 100, z at level 200, only parsing) : user_scope.
Notation "x ;; z" := (ubind x (λ _, z))
  (at level 100, z at level 200, only parsing, right associativity) : user_scope.
Local Open Scope user_scope.

(** Memory of the process. *)
Definition uget {A} (f : mem → A) : U A := λ m, UDone (f m) m.
Definition uset (f : mem → mem) : U unit := λ m, UDone tt (f m).
Definition out_of_fuel {A} : U A := λ _, URun.

Definition ask (q : request) : U reply := λ m, UAsk q (λ r, UDone r m).
Definition exit {A} (status : Z) : U A := λ _, UExit status.

(** ** System calls *)
Definition ask_val (q : request) : U Z := r ← ask q; uret (r_val r).
(** ... that store bytes at [a]. *)
Definition ask_at (q : request) (a : Z) : U Z :=
  r ← ask q; uset (λ m, store_bytes m a (r_data r)) ;; uret (r_val r).

Definition fork : U Z := ask_val QFork.
Definition wait : U Z := ask_val QWait.
Definition pipe (p : Z) : U Z := ask_at QPipe p.
Definition read (fd buf n : Z) : U Z := ask_at (QRead fd n) buf.
(** From bytes in hand, and from memory. *)
Definition write_bytes (fd : Z) (data : list Z) : U Z := ask_val (QWrite fd data).
Definition write (fd buf n : Z) : U Z :=
  data ← uget (λ m, load_bytes m buf (Z.to_nat n)); write_bytes fd data.
Definition close (fd : Z) : U Z := ask_val (QClose fd).
Definition kill (pid : Z) : U Z := ask_val (QKill pid).
Definition exec (path : list Z) (argv : list (list Z)) : U Z := ask_val (QExec path argv).
Definition open (path : list Z) (omode : Z) : U Z := ask_val (QOpen path omode).
Definition mknod (path : list Z) (major minor : Z) : U Z := ask_val (QMknod path major minor).
Definition unlink (path : list Z) : U Z := ask_val (QUnlink path).
Definition fstat (fd st : Z) : U Z := ask_at (QFstat fd) st.
Definition link (old new : list Z) : U Z := ask_val (QLink old new).
Definition mkdir (path : list Z) : U Z := ask_val (QMkdir path).
Definition chdir (path : list Z) : U Z := ask_val (QChdir path).
Definition dup (fd : Z) : U Z := ask_val (QDup fd).
Definition sleep (n : Z) : U Z := ask_val (QSleep n).
Definition trace (mask : Z) : U Z := ask_val (QTrace mask).

(** ** Running a program in a world *)
Inductive uresult (A : Type) : Type :=
| Returned (a : A) (m : mem)
| Exited (status : Z)
| Unfinished.
Arguments Returned {A}.
Arguments Exited {A}.
Arguments Unfinished {A}.

Fixpoint urun {W A} (answer : request → W → reply * W) (p : uprog A) (w : W) : uresult A * W :=
  match p with
  | UDone a m => (Returned a m, w)
  | UAsk q k => let '(r, w) := answer q w in urun answer (k r) w
  | UExit c => (Exited c, w)
  | URun => (Unfinished, w)
  end.

Section run.
  Context {W : Type} (answer : request → W → reply * W).

Lemma urun_bind {A B} (p : uprog A) (f : A → U B) w :
  urun answer (uprog_bind p f) w =
    match urun answer p w with
    | (Returned a m, w) => urun answer (f a m) w
    | (Exited c, w) => (Exited c, w)
    | (Unfinished, w) => (Unfinished, w)
    end.
Proof.
  revert w. induction p as [a m|q k IH|c|]; intros w; simpl; try done.
  destruct (answer q w) as [r w']. apply IH.
Qed.

Lemma urun_ubind {A B} (p : U A) (f : A → U B) m w :
  urun answer (ubind p f m) w =
    match urun answer (p m) w with
    | (Returned a m, w) => urun answer (f a m) w
    | (Exited c, w) => (Exited c, w)
    | (Unfinished, w) => (Unfinished, w)
    end.
Proof. apply urun_bind. Qed.

Lemma urun_returns {A B} (p : U A) (f : A → U B) m w a m' w' :
  urun answer (p m) w = (Returned a m', w') →
  urun answer (ubind p f m) w = urun answer (f a m') w'.
Proof. intros E. by rewrite urun_ubind, E. Qed.
End run.

(** ** A world of byte streams

    Each descriptor delivers its input in the pieces in which the system has
    it: a read returns at most what it asks for, from the first piece.  What
    is written is recorded, descriptor by descriptor, in order. *)
Record streams := Streams {
  s_in : Z → list (list Z);
  s_out : list (Z * list Z);
}.

Definition stream_read (fd n : Z) (w : streams) : reply * streams :=
  match s_in w fd with
  | [] => (Reply 0 [], w)
  | c :: cs =>
      let got := take (Z.to_nat n) c in
      let rest := drop (Z.to_nat n) c in
      (Reply (Z.of_nat (length got)) got,
       Streams (λ f, if f =? fd then (if decide (rest = []) then cs else rest :: cs) else s_in w f) (s_out w))
  end.

Definition stream_answer (q : request) (w : streams) : reply * streams :=
  match q with
  | QRead fd n => stream_read fd n w
  | QWrite fd data => (Reply (Z.of_nat (length data)) [], Streams (s_in w) (s_out w ++ [(fd, data)]))
  | _ => (Reply 0 [], w)
  end.

(** The bytes written to a descriptor. *)
Definition written (fd : Z) (w : streams) : list Z :=
  concat ((λ p, if p.1 =? fd then p.2 else []) <$> s_out w).

(** A read from a stream that has not ended. *)
Lemma stream_read_ok fd n c cs w :
  s_in w fd = c :: cs → c ≠ [] → 1 ≤ n → Forall (λ c, c ≠ []) cs →
  ∃ got rest w', stream_read fd n w = (Reply (Z.of_nat (length got)) got, w') ∧
    s_in w' fd = rest ∧ s_out w' = s_out w ∧ got ≠ [] ∧ Z.of_nat (length got) ≤ n ∧
    c ++ concat cs = got ++ concat rest ∧ Forall (λ c, c ≠ []) rest ∧
    ∀ fd', fd' ≠ fd → s_in w' fd' = s_in w fd'.
Proof.
  intros E Hc Hn Hcs. unfold stream_read. rewrite E.
  exists (take (Z.to_nat n) c), (if decide (drop (Z.to_nat n) c = []) then cs else drop (Z.to_nat n) c :: cs).
  eexists. split; [reflexivity|]. cbn. rewrite Z.eqb_refl. split_and!; try done.
  - destruct c as [|b c]; [done|]. replace (Z.to_nat n) with (S (Z.to_nat (n - 1))) by lia. done.
  - rewrite length_take. lia.
  - rewrite <- (take_drop (Z.to_nat n) c) at 1. rewrite <- app_assoc. f_equal.
    destruct (decide _) as [->|_]; done.
  - destruct (decide _); [done|]. by constructor.
  - intros fd' Hf. by rewrite (proj2 (Z.eqb_neq fd' fd)).
Qed.

Section steps.
  Context {W : Type} (answer : request → W → reply * W).

Lemma urun_uset {B} f (k : unit → U B) m w :
  urun answer (ubind (uset f) k m) w = urun answer (k tt (f m)) w.
Proof. done. Qed.
Lemma urun_uget {A B} (f : mem → A) (k : A → U B) m w :
  urun answer (ubind (uget f) k m) w = urun answer (k (f m) m) w.
Proof. done. Qed.
Lemma urun_uret {A B} (a : A) (k : A → U B) m w :
  urun answer (ubind (uret a) k m) w = urun answer (k a m) w.
Proof. done. Qed.
Lemma urun_ask_val {B} q (k : Z → U B) m w :
  urun answer (ubind (ask_val q) k m) w =
    let '(r, w) := answer q w in urun answer (k (r_val r) m) w.
Proof. done. Qed.
Lemma urun_ask_at {B} q a (k : Z → U B) m w :
  urun answer (ubind (ask_at q a) k m) w =
    let '(r, w) := answer q w in urun answer (k (r_val r) (store_bytes m a (r_data r))) w.
Proof. done. Qed.
End steps.

Lemma urun_write {B} fd a n (k : Z → U B) m w :
  let data := load_bytes m a (Z.to_nat n) in
  urun stream_answer (ubind (write fd a n) k m) w =
    urun stream_answer (k (Z.of_nat (length data)) m) (Streams (s_in w) (s_out w ++ [(fd, data)])).
Proof. done. Qed.
