(* ===== verification/Ulib.v ===== *)
(** * The user library ([user/ulib.c])

    The string and memory functions work on the process's memory, like those
    of the kernel in [Kstring], which implement the same interface with
    different code; [ulib_agrees] shows that the two agree.  A loop that runs
    to a NUL takes fuel and gives [None] when it meets none within it. *)

From S2P Require Import Base Mem Kstring User Sysfile.
Local Open Scope Z_scope.

Fixpoint strcpy_loop (m : mem) (s t : Z) (fuel : nat) : option mem :=
  match fuel with
  | O => None
  | S fuel =>
      let m' := st8 m s (ld8 m t) in
      if nonzero (ld8 m t) then strcpy_loop m' (s + 1) (t + 1) fuel else Some m'
  end.
Definition strcpy (m : mem) (s t : Z) (fuel : nat) : option mem := strcpy_loop m s t fuel.

Fixpoint strcmp (m : mem) (p q : Z) (fuel : nat) : option Z :=
  match fuel with
  | O => None
  | S fuel =>
      if nonzero (ld8 m p) && (ld8 m p =? ld8 m q) then strcmp m (p + 1) (q + 1) fuel
      else Some (ld8 m p - ld8 m q)
  end.

Fixpoint strlen_loop (m : mem) (s n : Z) (fuel : nat) : option Z :=
  match fuel with
  | O => None
  | S fuel => if nonzero (ld8 m (s + n)) then strlen_loop m s (n + 1) fuel else Some n
  end.
Definition strlen (m : mem) (s : Z) (fuel : nat) : option Z := strlen_loop m s 0 fuel.

Fixpoint memset_loop (m : mem) (cdst c i : Z) (n : nat) : mem :=
  match n with
  | O => m
  | S n => memset_loop (st8 m (cdst + i) c) cdst c (i + 1) n
  end.
Definition memset (m : mem) (dst c n : Z) : mem := memset_loop m dst c 0 (Z.to_nat (u32 n)).

Fixpoint strchr (m : mem) (s c : Z) (fuel : nat) : option Z :=
  match fuel with
  | O => None
  | S fuel =>
      if nonzero (ld8 m s) then (if ld8 m s =? u8 c then Some s else strchr m (s + 1) c fuel)
      else Some 0
  end.

(** [n] is an [int]: a count that is not positive copies nothing.  The two
    loops are those of the kernel's function. *)
Definition memmove (m : mem) (vdst vsrc n : Z) : mem :=
  if vsrc >? vdst then move_up m vdst vsrc (Z.to_nat n)
  else move_down m (vdst + n) (vsrc + n) (Z.to_nat n).

Fixpoint memcmp_loop (m : mem) (p1 p2 : Z) (n : nat) : Z :=
  match n with
  | O => 0
  | S n =>
      if negb (ld8 m p1 =? ld8 m p2) then ld8 m p1 - ld8 m p2
      else memcmp_loop m (p1 + 1) (p2 + 1) n
  end.
Definition memcmp (m : mem) (s1 s2 n : Z) : Z := memcmp_loop m s1 s2 (Z.to_nat (u32 n)).

Definition memcpy (m : mem) (dst src n : Z) : mem := memmove m dst src (i32 n).

(** The argument as a string; the digits at its beginning. *)
Fixpoint atoi_loop (n : Z) (s : list Z) : Z :=
  match s with
  | [] => n
  | c :: s => if (48 <=? c) && (c <=? 57) then atoi_loop (i32 (n * 10 + c - 48)) s else n
  end.
Definition atoi (s : list Z) : Z := atoi_loop 0 s.

(** ** Functions that call the kernel *)
Local Open Scope user_scope.

(** [c] is the address of the local variable the bytes are read into. *)
Fixpoint gets_loop (n : nat) (c buf i max : Z) : U Z :=
  match n with
  | O => uret i
  | S n =>
      if i + 1 <? max then
        cc ← read 0 c 1;
        if cc <? 1 then uret i else
        b ← uget (λ m, ld8 m c);
        uset (λ m, st8 m (buf + i) b) ;;
        if (b =? 10) || (b =? 13) then uret (i + 1)
        else gets_loop n c buf (i + 1) max
      else uret i
  end.
Definition gets (c buf max : Z) : U Z :=
  i ← gets_loop (Z.to_nat max) c buf 0 max;
  uset (λ m, st8 m (buf + i) 0) ;;
  uret buf.

Definition stat (n : list Z) (st : Z) : U Z :=
  fd ← open n O_RDONLY;
  if fd <? 0 then uret (-1) else
  r ← fstat fd st;
  close fd ;;
  uret r.

(** ** The library and the kernel compute the same *)
Lemma memset_loop_agree m dst c i n : memset_loop m dst c i n = Kstring.memset_loop m (dst + i) c n.
Proof.
  revert m i. induction n as [|n IH]; intros m i; simpl; [done|]. rewrite IH. f_equal. lia.
Qed.

Lemma memcmp_loop_agree m p q n : memcmp_loop m p q n = Kstring.memcmp_loop m p q n.
Proof. revert p q. induction n as [|n IH]; intros p q; simpl; [done|]. by rewrite IH. Qed.

Lemma strlen_loop_agree m s n fuel : strlen_loop m s n fuel = Kstring.strlen_loop m s n fuel.
Proof. revert n. induction fuel as [|fuel IH]; intros n; simpl; [done|]. by rewrite IH. Qed.

Lemma ld8_umemmove m dst src n a :
  ld8 (memmove m dst src n) a =
    if decide (dst ≤ a < dst + n) then ld8 m (src + (a - dst)) else ld8 m a.
Proof.
  unfold memmove. destruct (src >? dst) eqn:E; rewrite Z.gtb_ltb in E; bool_to_prop.
  - rewrite ld8_move_up by lia. repeat case_decide; try done; lia.
  - destruct (decide (src = dst)) as [->|Hne].
    + assert (∀ k d m, ld8 (move_down m d d k) a = ld8 m a) as ->.
      { induction k as [|k IH]; intros d m'; simpl; [done|]. rewrite IH.
        destruct (decide (a = d - 1)) as [->|?]; [|by rewrite ld8_st8_ne].
        rewrite ld8_st8_eq. apply u8_small, ld8_bound. }
      case_decide; [|done]. f_equal. lia.
    + rewrite ld8_move_down by lia. repeat case_decide; try done; try lia. f_equal. lia.
Qed.

(** [strcmp] stops at the first difference or NUL, as [strncmp] with a bound
    that is large enough does. *)
Lemma strcmp_strncmp m p q fuel r n :
  strcmp m p q fuel = Some r → (fuel ≤ n)%nat → Kstring.strncmp_loop m p q n = r.
Proof.
  revert p q n. induction fuel as [|fuel IH]; intros p q [|n] E Hn; simpl in *; try done; try lia.
  destruct (nonzero _ && _); [by apply IH; [|lia]|]. by injection E.
Qed.

(** The string functions of the user library and of the kernel, written
    independently, are equivalent.  Both [memmove]s, which choose the
    direction of the copy by different tests, equal the copy of the whole
    block at once, also when the ranges overlap; [memset], [memcmp] and
    [strlen] agree; and [strcmp] gives what [strncmp] gives for every bound
    beyond the first difference. *)
Theorem ulib_agrees m dst src c n fuel :
  0 ≤ n < 2 ^ 31 →
  (∀ a, ld8 (memmove m dst src n) a = (if decide (dst ≤ a < dst + n) then ld8 m (src + (a - dst)) else ld8 m a) ∧
        ld8 (Kstring.memmove m dst src n) a = ld8 (memmove m dst src n) a) ∧
  memset m dst c n = Kstring.memset m dst c n ∧
  memcmp m dst src n = Kstring.memcmp m dst src n ∧
  strlen m src fuel = Kstring.strlen m src fuel ∧
  ∀ r, strcmp m dst src fuel = Some r → Z.of_nat fuel ≤ n → Kstring.strncmp m dst src n = r.
Proof.
  intros Hn. split_and!.
  - intros a. split; [apply ld8_umemmove|]. rewrite ld8_umemmove. apply ld8_memmove. lia.
  - unfold memset. rewrite memset_loop_agree. rewrite Z.add_0_r. with_strategy transparent [Kstring.memset] reflexivity.
  - apply memcmp_loop_agree.
  - apply strlen_loop_agree.
  - intros r Hr Hf. unfold Kstring.strncmp. rewrite u32_small by lia.
    eapply strcmp_strncmp; [done|]. lia.
Qed.

Lemma ulib_agrees_witness :
  let m := store_bytes ∅ 100 [104; 101; 108; 108; 111; 0] in
  ld8 (memmove m 102 100 5) 104 = 108 ∧ Kstring.strncmp m 100 101 9 = 3.
Proof.
  intros m. destruct (ulib_agrees m 102 100 0 5 9) as (H & _); [lia|].
  destruct (ulib_agrees m 100 101 0 9 9) as (_ & _ & _ & _ & S); [lia|].
  split; [rewrite (proj1 (H 104)); reflexivity|]. apply S; [reflexivity|lia].
Defined.
