(* ===== verification/Uprintf.v ===== *)
(** * Formatted output of user programs ([user/printf.c])

    [vprintf] writes its characters one at a time.  [vprintf_renders]: the
    writes are those of the rendered format.  The arguments are those of the
    kernel's [printf]: [AInt] for an [int] or [uint], [APtr] for a [uint64],
    [AStr] for a string or a null pointer. *)

From S2P Require Import Base Mem Printf User.
Local Open Scope Z_scope.
Local Open Scope user_scope.

Definition putc (fd c : Z) : U unit := write_bytes fd [u8 c] ;; uret tt.

(** [digits[d]], in upper case. *)
Definition digit (d : Z) : Z := if d <? 10 then 48 + d else 65 + (d - 10).

Fixpoint putn (fd : Z) (l : list Z) : U unit :=
  match l with
  | [] => uret tt
  | c :: l => putc fd c ;; putn fd l
  end.

(** The [do ... while] of [printint]: the digits, least significant first. *)
Fixpoint print_digits (fuel : nat) (x base : Z) : list Z :=
  match fuel with
  | O => []
  | S fuel =>
      digit (x mod base) :: (if x / base =? 0 then [] else print_digits fuel (x / base) base)
  end.

(** [buf]; the parameter [xx] is an [int]. *)
Definition printint_buf (xx base : Z) (sgn : bool) : list Z :=
  let xx := i32 xx in
  let neg := sgn && (xx <? 0) in
  let x := if neg then u32 (- xx) else u32 xx in
  print_digits 32 x base ++ (if neg then [45] else []).

Definition printint (fd xx base : Z) (sgn : bool) : U unit :=
  putn fd (rev (printint_buf xx base sgn)).

Fixpoint printptr_loop (fd : Z) (n : nat) (x : Z) : U unit :=
  match n with
  | O => uret tt
  | S n => putc fd (digit (Z.shiftr x 60)) ;; printptr_loop fd n (u64 (Z.shiftl x 4))
  end.
Definition printptr (fd x : Z) : U unit := putc fd 48 ;; putc fd 120 ;; printptr_loop fd 16 x.

(** [state] is 0, or 37 after a percent sign.  A missing argument, or one of
    the wrong type, is undefined in C: no result. *)
Fixpoint vprintf_loop (fd : Z) (fmt : list Z) (ap : list parg) (state : Z) : U unit :=
  match fmt with
  | [] => uret tt
  | c :: fmt =>
      if state =? 0 then
        if c =? 37 then vprintf_loop fd fmt ap 37
        else putc fd c ;; vprintf_loop fd fmt ap state
      else if c =? 100 then
        match ap with
        | AInt x :: ap => printint fd x 10 true ;; vprintf_loop fd fmt ap 0
        | _ => out_of_fuel
        end
      else if c =? 108 then
        match ap with
        | APtr x :: ap => printint fd x 10 false ;; vprintf_loop fd fmt ap 0
        | _ => out_of_fuel
        end
      else if c =? 120 then
        match ap with
        | AInt x :: ap => printint fd x 16 false ;; vprintf_loop fd fmt ap 0
        | _ => out_of_fuel
        end
      else if c =? 112 then
        match ap with
        | APtr x :: ap => printptr fd x ;; vprintf_loop fd fmt ap 0
        | _ => out_of_fuel
        end
      else if c =? 115 then
        match ap with
        | AStr s :: ap =>
            putn fd (default [40; 110; 117; 108; 108; 41] s) ;; vprintf_loop fd fmt ap 0
        | _ => out_of_fuel
        end
      else if c =? 99 then
        match ap with
        | AInt x :: ap => putc fd x ;; vprintf_loop fd fmt ap 0
        | _ => out_of_fuel
        end
      else if c =? 37 then putc fd c ;; vprintf_loop fd fmt ap 0
      else putc fd 37 ;; putc fd c ;; vprintf_loop fd fmt ap 0
  end.
Definition vprintf (fd : Z) (fmt : list Z) (ap : list parg) : U unit := vprintf_loop fd fmt ap 0.
Definition fprintf (fd : Z) (fmt : list Z) (ap : list parg) : U unit := vprintf fd fmt ap.
Definition printf (fmt : list Z) (ap : list parg) : U unit := vprintf 1 fmt ap.

(** ** Rendering *)
Fixpoint ptr_digits (n : nat) (x : Z) : list Z :=
  match n with
  | O => []
  | S n => digit (Z.shiftr x 60) :: ptr_digits n (u64 (Z.shiftl x 4))
  end.

(** What a directive prints for an argument. *)
Definition render_arg (c : Z) (a : parg) : option (list Z) :=
  match a with
  | AInt x =>
      if c =? 100 then Some (rev (printint_buf x 10 true))
      else if c =? 120 then Some (rev (printint_buf x 16 false))
      else if c =? 99 then Some [x] else None
  | APtr x =>
      if c =? 108 then Some (rev (printint_buf x 10 false))
      else if c =? 112 then Some (48 :: 120 :: ptr_digits 16 x) else None
  | AStr s => if c =? 115 then Some (default [40; 110; 117; 108; 108; 41] s) else None
  end.
Definition takes_arg (c : Z) : bool := existsb (Z.eqb c) [100; 108; 120; 112; 115; 99].

(** The characters of a format; [None] when an argument is missing or wrong. *)
Fixpoint urender (fmt : list Z) (ap : list parg) (state : Z) : option (list Z) :=
  match fmt with
  | [] => Some []
  | c :: fmt =>
      if state =? 0 then
        if c =? 37 then urender fmt ap 37 else cons c <$> urender fmt ap 0
      else if takes_arg c then
        match ap with
        | a :: ap => l ← render_arg c a; app l <$> urender fmt ap 0
        | [] => None
        end
      else app (if c =? 37 then [37] else [37; c]) <$> urender fmt ap 0
  end%stdpp.

(** Two programs that behave the same in every world. *)
Definition same_run {A} (p q : U A) : Prop :=
  ∀ (W : Type) (answer : request → W → reply * W) m w, urun answer (p m) w = urun answer (q m) w.

Lemma same_run_bind {A B} (p q : U A) (f g : A → U B) :
  same_run p q → (∀ a, same_run (f a) (g a)) → same_run (ubind p f) (ubind q g).
Proof.
  intros H1 H2 W an m w. rewrite !urun_ubind, H1. destruct (urun an (q m) w) as [[a m'| |] w']; try done.
  apply H2.
Qed.

Lemma same_run_refl {A} (p : U A) : same_run p p.
Proof. done. Qed.

Lemma same_run_trans {A} (p q r : U A) : same_run p q → same_run q r → same_run p r.
Proof. intros H1 H2 W an m w. by rewrite H1, H2. Qed.

Lemma bind_assoc_run {A B C} (p : U A) (f : A → U B) (g : B → U C) :
  same_run (ubind (ubind p f) g) (ubind p (λ a, ubind (f a) g)).
Proof.
  intros W an m w. rewrite !urun_ubind. destruct (urun an (p m) w) as [[a m'| |] w']; try done.
  by rewrite !urun_ubind.
Qed.

Lemma putn_app fd l l' : same_run (putn fd l ;; putn fd l') (putn fd (l ++ l')).
Proof.
  induction l as [|c l IH]; simpl; [done|].
  eapply same_run_trans; [apply bind_assoc_run|]. by apply same_run_bind.
Qed.

Lemma printptr_loop_putn fd n x : same_run (printptr_loop fd n x) (putn fd (ptr_digits n x)).
Proof. revert x. induction n as [|n IH]; intros x; [done|]. by apply same_run_bind. Qed.

(** A piece of output, then the rest. *)
Lemma put_then fd (p q : U unit) l l' :
  same_run p (putn fd l) → same_run q (putn fd l') → same_run (p ;; q) (putn fd (l ++ l')).
Proof.
  intros H1 H2. eapply same_run_trans; [|apply putn_app]. by apply same_run_bind.
Qed.

Lemma putc_putn fd c : same_run (putc fd c) (putn fd [c]).
Proof.
  intros W an m w. change (putn fd [c] m) with (ubind (putc fd c) (λ _, uret tt) m).
  rewrite (urun_ubind an (putc fd c)). by destruct (urun an (putc fd c m) w) as [[[] ?| |] ?].
Qed.

#[local] Opaque printint_buf ptr_digits.
(** One directive with its argument. *)
Ltac directive c ap Hr IH :=
  let a := fresh "a" in let v := fresh "v" in let k := fresh "k" in
  let Hv := fresh "Hv" in let Hk := fresh "Hk" in
  match goal with |- context [c =? ?K] =>
    let E := fresh "E" in
    destruct (c =? K) eqn:E;
    [apply Z.eqb_eq in E; subst c; change (takes_arg K) with true in Hr; cbv iota in Hr;
     destruct ap as [|a ap]; [discriminate Hr|];
     apply bind_Some in Hr as (v & Hv & (k & Hk & ->)%fmap_Some);
     destruct a; try discriminate Hv; injection Hv as <-; apply put_then; [|by apply IH]|]
  end.

Lemma vprintf_renders fd fmt ap state l :
  urender fmt ap state = Some l → same_run (vprintf_loop fd fmt ap state) (putn fd l).
Proof.
  revert ap state l. induction fmt as [|c fmt IH]; intros ap state l Hr; [by injection Hr as <-|].
  cbn [urender vprintf_loop] in *. destruct (state =? 0) eqn:Es.
  { destruct (c =? 37); [by apply IH|]. apply fmap_Some in Hr as (k & Hk & ->).
    apply (put_then fd _ _ [c]); [apply putc_putn|]. apply IH. bool_to_prop. by subst. }
  directive c ap Hr IH; [apply same_run_refl|]. directive c ap Hr IH; [apply same_run_refl|].
  directive c ap Hr IH; [apply same_run_refl|]. directive c ap Hr IH.
  { apply (put_then fd _ _ [48]); [apply putc_putn|]. apply (put_then fd _ _ [120]); [apply putc_putn|].
    apply printptr_loop_putn. }
  directive c ap Hr IH; [apply same_run_refl|]. directive c ap Hr IH; [apply putc_putn|].
  assert (takes_arg c = false) as Et by (unfold takes_arg; cbn [existsb]; by rewrite E, E0, E1, E2, E3, E4).
  rewrite Et in Hr. apply fmap_Some in Hr as (k & Hk & ->).
  destruct (c =? 37) eqn:E5; bool_to_prop; subst.
  - apply (put_then fd _ _ [37]); [apply putc_putn|by apply IH].
  - apply (put_then fd _ _ [37]); [apply putc_putn|].
    apply (put_then fd _ _ [c]); [apply putc_putn|by apply IH].
Qed.
