(* ===== verification/Grep.v ===== *)
(** * grep ([user/grep.c])

    The matcher works on NUL-terminated strings, given as the bytes before
    the NUL; the loop works on the buffer in memory.  [match_language] relates
    the matcher to what a pattern means; [grep_filters] shows that the loop
    writes exactly the matching lines, however the input is cut into reads. *)

From S2P Require Import Base Mem Kstring Printf User Sysfile Ulib Uprintf.
Local Open Scope Z_scope.

(** ** The matcher *)

(** The loop of [matchstar]; [here] is [matchhere(re, ...)]. *)
Fixpoint star_loop (here : list Z → bool) (c : Z) (text : list Z) : bool :=
  here text ||
  match text with
  | [] => false
  | t :: text => ((t =? c) || (c =? 46)) && star_loop here c text
  end.

Fixpoint matchhere (re text : list Z) : bool :=
  match re with
  | [] => true
  | c :: re1 =>
      match re1 with
      | d :: re2 =>
          if d =? 42 then star_loop (matchhere re2) c text
          else match text with
               | [] => false
               | t :: text => ((c =? 46) || (c =? t)) && matchhere re1 text
               end
      | [] =>
          if c =? 36 then match text with [] => true | _ => false end
          else match text with
               | [] => false
               | t :: text => ((c =? 46) || (c =? t)) && matchhere re1 text
               end
      end
  end.

Definition matchstar (c : Z) (re text : list Z) : bool := star_loop (matchhere re) c text.

Fixpoint match_loop (re text : list Z) : bool :=
  matchhere re text || match text with [] => false | _ :: text => match_loop re text end.

Definition match_ (re text : list Z) : bool :=
  if default 0 (head re) =? 94 then matchhere (tail re) text else match_loop re text.

(** ** What a pattern means *)
Inductive item := One (c : Z) | Many (c : Z) | End.

Fixpoint items (re : list Z) : list item :=
  match re with
  | [] => []
  | c :: re1 =>
      match re1 with
      | d :: re2 => if d =? 42 then Many c :: items re2 else One c :: items re1
      | [] => if c =? 36 then [End] else [One c]
      end
  end.

(** [.] stands for every character. *)
Definition stands_for (c t : Z) : Prop := t = c ∨ c = 46.

(** [denotes is w rest]: the items match [w] when [rest] follows it. *)
Inductive denotes : list item → list Z → list Z → Prop :=
| D_nil rest : denotes [] [] rest
| D_one c t l w rest : stands_for c t → denotes l w rest → denotes (One c :: l) (t :: w) rest
| D_many c v l w rest : Forall (stands_for c) v → denotes l w rest → denotes (Many c :: l) (v ++ w) rest
| D_end l w : denotes l w [] → denotes (End :: l) w [].

(** A line matches when some part of it does; from its start, with [^]. *)
Definition language (re text : list Z) : Prop :=
  (∃ re', re = 94 :: re' ∧ ∃ w rest, text = w ++ rest ∧ denotes (items re') w rest) ∨
  (head re ≠ Some 94 ∧ ∃ before w rest, text = before ++ w ++ rest ∧ denotes (items re) w rest).

Lemma star_loop_iff (here : list Z → bool) c text :
  star_loop here c text = true ↔ ∃ v rest, text = v ++ rest ∧ Forall (stands_for c) v ∧ here rest = true.
Proof.
  induction text as [|t text IH]; simpl.
  - rewrite orb_false_r. split; [by exists [], []|]. intros (v & rest & E & _ & H).
    destruct v; [|done]. simpl in E. by subst.
  - rewrite orb_true_iff, andb_true_iff, IH, orb_true_iff, !Z.eqb_eq. split.
    + intros [H|[Hc (v & rest & -> & Hv & H)]]; [by exists [], (t :: text)|].
      exists (t :: v), rest. split_and!; try done. constructor; [|done].
      destruct Hc as [->| ->]; [by left|by right].
    + intros ([|t' v] & rest & E & Hv & H); simpl in E; [left; by subst|].
      injection E as <- ->. apply Forall_cons in Hv as [Hc Hv]. right.
      split; [destruct Hc; [left|right]; done|]. by exists v, rest.
Qed.

Lemma matchhere_one c re text :
  (match text with [] => false | t :: text => ((c =? 46) || (c =? t)) && matchhere re text end) = true ↔
  ∃ t text', text = t :: text' ∧ stands_for c t ∧ matchhere re text' = true.
Proof.
  destruct text as [|t text]; [split; [done|by intros (? & ? & [=] & _)]|].
  rewrite andb_true_iff, orb_true_iff, !Z.eqb_eq. unfold stands_for. split.
  - intros [H ?]. exists t, text. split_and!; try done. destruct H; [by right|by left].
  - intros (t' & text' & [= <- <-] & H & ?). split; [|done]. destruct H; [by right|by left].
Qed.

Lemma matchhere_denotes re : ∀ text,
  matchhere re text = true ↔ ∃ w rest, text = w ++ rest ∧ denotes (items re) w rest.
Proof.
  assert (∀ c re' text,
    (∀ text, matchhere re' text = true ↔ ∃ w rest, text = w ++ rest ∧ denotes (items re') w rest) →
    (∃ t text', text = t :: text' ∧ stands_for c t ∧ matchhere re' text' = true) ↔
    ∃ w rest, text = w ++ rest ∧ denotes (One c :: items re') w rest) as Hone.
  { intros c re' text IH. split.
    - intros (t & text' & -> & Hc & (w & rest & -> & D)%IH). exists (t :: w), rest. split; [done|]. by constructor.
    - intros (w & rest & -> & D). inversion D; subst. eexists _, _. split; [done|]. split; [done|].
      apply IH. by eexists _, _. }
  induction re as [re IH] using (well_founded_induction (well_founded_ltof _ (length (A:=Z)))).
  intros text. destruct re as [|c re1]; simpl.
  - split; [|done]. intros _. exists [], text. split; [done|constructor].
  - assert (IH1 := IH re1 ltac:(unfold ltof; simpl; lia)). destruct re1 as [|d re2].
    + destruct (c =? 36); [|by rewrite matchhere_one, Hone]. split.
      * destruct text; [|done]. intros _. exists [], []. split; [done|]. repeat constructor.
      * intros (w & rest & -> & D). inversion D as [| | |l w' D']; subst. by inversion D'.
    + destruct (d =? 42); [|by rewrite matchhere_one, Hone].
      assert (IH2 := IH re2 ltac:(unfold ltof; simpl; lia)). rewrite star_loop_iff. split.
      * intros (v & rest & -> & Hv & (w & rest' & -> & D)%IH2). exists (v ++ w), rest'.
        split; [by rewrite app_assoc|]. by constructor.
      * intros (w & rest & -> & D). inversion D as [| |c' v l w' rest' Hv D'|]; subst.
        exists v, (w' ++ rest). split; [by rewrite app_assoc|]. split; [done|]. apply IH2. by exists w', rest.
Qed.

Lemma match_loop_iff re text :
  match_loop re text = true ↔ ∃ before rest, text = before ++ rest ∧ matchhere re rest = true.
Proof.
  induction text as [|t text IH]; simpl.
  - rewrite orb_false_r. split; [by exists [], []|]. intros (b & r & E & H).
    destruct b; [|done]. simpl in E. by subst.
  - rewrite orb_true_iff, IH. split.
    + intros [H|(b & r & -> & H)]; [by exists [], (t :: text)|by exists (t :: b), r].
    + intros ([|t' b] & r & E & H); simpl in E; [left; by subst|].
      injection E as <- ->. right. by exists b, r.
Qed.

(** C26: The matcher of [grep], three mutually recursive functions that scan
    pattern and text, decides the language of the pattern: [^] and [$] anchor
    it, a character followed by [*] stands for any number of copies of it, [.]
    for any character, everything else for itself.  It ends on every input. *)
Theorem match_language re text : match_ re text = true ↔ language re text.
Proof.
  assert (match_loop re text = true ↔
    ∃ before w rest, text = before ++ w ++ rest ∧ denotes (items re) w rest) as Hl.
  { rewrite match_loop_iff. split.
    - intros (b & r & -> & (w & rest & -> & D)%matchhere_denotes). by exists b, w, rest.
    - intros (b & w & rest & -> & D). exists b, (w ++ rest). split; [done|].
      apply matchhere_denotes. by exists w, rest. }
  unfold match_, language. destruct (default 0 (head re) =? 94) eqn:E; bool_to_prop.
  - destruct re as [|c re]; simpl in E; [done|]. subst c. simpl. rewrite matchhere_denotes. split.
    + intros H. left. by exists re.
    + intros [(re' & [= <-] & H)|[H _]]; done.
  - rewrite Hl. split.
    + intros H. right. split; [|done]. intros E'. by rewrite E' in E.
    + intros [(re' & -> & _)|[_ H]]; [done|exact H].
Qed.

(** ** The program *)
Section grep.
  (** The address of the static buffer [buf[1024]]. *)
  Context (buf : Z).
  Local Open Scope user_scope.

(** The C string at [p]: at most the rest of the buffer. *)
Definition string_at (p : Z) (m : mem) : list Z := cstr (load_bytes m p 1024).

(** The inner loop: the complete lines from [p] on.  Returns the final [p]. *)
Fixpoint grep_lines (fuel : nat) (pattern : list Z) (p : Z) : U Z :=
  match fuel with
  | O => out_of_fuel
  | S fuel =>
      r ← uget (λ m, strchr m p 10 1024);
      match r with
      | None => out_of_fuel
      | Some q =>
          if q =? 0 then uret p else
          uset (λ m, st8 m q 0) ;;
          text ← uget (string_at p);
          (if match_ pattern text then
             uset (λ m, st8 m q 10) ;;
             write 1 p (q + 1 - p) ;;
             uret tt
           else uret tt) ;;
          grep_lines fuel pattern (q + 1)
      end
  end.

(** The outer loop; [fuel] bounds the number of reads. *)
Fixpoint grep_loop (fuel : nat) (pattern : list Z) (fd m : Z) : U unit :=
  match fuel with
  | O => out_of_fuel
  | S fuel =>
      n ← read fd (buf + m) (1024 - m - 1);
      if n <=? 0 then uret tt else
      let m := m + n in
      uset (λ s, st8 s (buf + m) 0) ;;
      p ← grep_lines 1024 pattern buf;
      if m >? 0 then
        let m := m - (p - buf) in
        uset (λ s, memmove s buf p m) ;;
        grep_loop fuel pattern fd m
      else grep_loop fuel pattern fd m
  end.
Definition grep (fuel : nat) (pattern : list Z) (fd : Z) : U unit := grep_loop fuel pattern fd 0.

(** The files of the command line. *)
Fixpoint grep_files (fuel : nat) (pattern : list Z) (files : list (list Z)) : U Z :=
  match files with
  | [] => exit 0
  | f :: files =>
      fd ← open f O_RDONLY;
      if fd <? 0 then
        printf (bytes_of "grep: cannot open %s" ++ [10]) [AStr (Some f)] ;;
        exit 1
      else
      grep fuel pattern fd ;;
      close fd ;;
      grep_files fuel pattern files
  end.

Definition grep_main (fuel : nat) (argv : list (list Z)) : U Z :=
  match argv with
  | [] | [_] => fprintf 2 (bytes_of "usage: grep pattern [file ...]" ++ [10]) [] ;; exit 1
  | [_; pattern] => grep fuel pattern 0 ;; exit 0
  | _ :: pattern :: files => grep_files fuel pattern files
  end.
End grep.

(** ** Lines *)

(** The complete lines of a text, and what follows the last newline. *)
Fixpoint chop (s : list Z) : list (list Z) * list Z :=
  match s with
  | [] => ([], [])
  | c :: s =>
      let '(ls, r) := chop s in
      if c =? 10 then ([] :: ls, r)
      else match ls with
           | [] => ([], c :: r)
           | l :: ls => ((c :: l) :: ls, r)
           end
  end.

Lemma chop_app a b :
  chop (a ++ b) =
    ((chop a).1 ++ (chop ((chop a).2 ++ b)).1, (chop ((chop a).2 ++ b)).2).
Proof.
  induction a as [|c a IH]; simpl; [by destruct (chop b)|].
  rewrite IH. destruct (chop a) as [ls r]. simpl. destruct (c =? 10) eqn:E; [done|].
  destruct ls as [|l ls]; simpl; [|done]. rewrite E.
  by destruct (chop (r ++ b)) as [[|l' ls'] r'].
Qed.

Lemma chop_no_newline s : 10 ∉ s → chop s = ([], s).
Proof.
  induction s as [|c s IH]; simpl; [done|]. rewrite not_elem_of_cons. intros [Hc Hs].
  rewrite IH by done. by rewrite (proj2 (Z.eqb_neq _ _)).
Qed.

Lemma chop_line l s : 10 ∉ l → chop (l ++ 10 :: s) = (l :: (chop s).1, (chop s).2).
Proof.
  induction l as [|c l IH]; simpl; [by destruct (chop s)|]. rewrite not_elem_of_cons. intros [Hc Hl].
  rewrite IH by done. simpl. by rewrite (proj2 (Z.eqb_neq _ _)).
Qed.

Lemma chop_rest s : 10 ∉ (chop s).2 ∧ (length (chop s).2 ≤ length s)%nat ∧ (length (chop s).1 ≤ length s)%nat.
Proof.
  induction s as [|c s IH]; simpl; [set_solver by lia|]. destruct (chop s) as [ls r].
  simpl in *. destruct (c =? 10) eqn:E; simpl; [split_and!; [tauto|lia|lia]|].
  destruct ls; simpl in *; bool_to_prop; [|split_and!; [tauto|lia|lia]].
  rewrite not_elem_of_cons. split_and!; [naive_solver|tauto|lia|lia].
Qed.

Lemma first_newline s : 10 ∉ s ∨ ∃ l s', s = l ++ 10 :: s' ∧ 10 ∉ l.
Proof.
  induction s as [|c s [IH|(l & s' & -> & Hl)]]; [left; set_solver| |];
    (destruct (decide (c = 10)) as [->|Hc]; [right; exists [], s || exists [], (l ++ 10 :: s'); set_solver|]).
  - left. set_solver.
  - right. exists (c :: l), s'. set_solver.
Qed.

Lemma chop_prefix a b :
  10 ∉ a → (length a ≤ length (chop (a ++ b)).2)%nat ∨
           ∃ l ls, (chop (a ++ b)).1 = l :: ls ∧ (length a ≤ length l)%nat.
Proof.
  intros Ha. destruct (first_newline b) as [Hb|(l & s & -> & Hl)].
  - left. rewrite chop_no_newline by set_solver. simpl. rewrite length_app. lia.
  - right. rewrite app_assoc, chop_line by set_solver. simpl. eexists _, _. split; [done|].
    rewrite length_app. lia.
Qed.

(** ** The inner loop *)
Definition text_ok (s : list Z) : Prop := Forall (λ b, 0 < b < 256) s.
Definition holds_text (m : mem) (p : Z) (s : list Z) : Prop :=
  load_bytes m p (length s) = s ∧ ld8 m (p + Z.of_nat (length s)) = 0.

(** What is written for the lines. *)
Definition line_writes (pattern : list Z) (ls : list (list Z)) : list (Z * list Z) :=
  (λ l, (1, l ++ [10])) <$> filter (λ l, match_ pattern l = true) ls.

Lemma strchr_found m p l fuel :
  load_bytes m p (length l) = l → ld8 m (p + Z.of_nat (length l)) = 10 → 10 ∉ l → text_ok l →
  (length l < fuel)%nat → strchr m p 10 fuel = Some (p + Z.of_nat (length l)).
Proof.
  revert p l. induction fuel as [|fuel IH]; intros p l Hm Hq Hn Ht Hf; [lia|].
  destruct l as [|c l]; cbn [strchr].
  - rewrite Z.add_0_r in *. by rewrite Hq.
  - cbn [length] in *. rewrite load_bytes_cons in Hm. injection Hm as Hc Hm.
    apply Forall_cons in Ht as [Hcr Ht]. rewrite not_elem_of_cons in Hn. destruct Hn as [Hne Hn].
    rewrite Hc. unfold nonzero. rewrite (proj2 (Z.eqb_neq c 0)) by lia. cbn [negb].
    change (u8 10) with 10. rewrite (proj2 (Z.eqb_neq c 10)) by done.
    rewrite (IH (p + 1) l); try done; [f_equal; lia| |lia].
    rewrite <- Hq. f_equal. lia.
Qed.

Lemma strchr_none m p l fuel :
  holds_text m p l → 10 ∉ l → text_ok l → (length l < fuel)%nat → strchr m p 10 fuel = Some 0.
Proof.
  unfold holds_text. revert p l. induction fuel as [|fuel IH]; intros p l [Hm Hq] Hn Ht Hf; [lia|].
  destruct l as [|c l]; cbn [strchr].
  - rewrite Z.add_0_r in *. by rewrite Hq.
  - cbn [length] in *. rewrite load_bytes_cons in Hm. injection Hm as Hc Hm.
    apply Forall_cons in Ht as [Hcr Ht]. rewrite not_elem_of_cons in Hn. destruct Hn as [Hne Hn].
    rewrite Hc. unfold nonzero. rewrite (proj2 (Z.eqb_neq c 0)) by lia. cbn [negb].
    change (u8 10) with 10. rewrite (proj2 (Z.eqb_neq c 10)) by done.
    apply (IH (p + 1) l); try done; [|lia]. split; [done|]. rewrite <- Hq. f_equal. lia.
Qed.

Lemma cstr_text l x : text_ok l → cstr (l ++ 0 :: x) = l.
Proof.
  induction 1 as [|c l Hc Hl IH]; simpl; [done|].
  unfold nonzero. rewrite (proj2 (Z.eqb_neq c 0)) by lia. simpl. by rewrite IH.
Qed.

Lemma string_at_text m p l :
  holds_text m p l → text_ok l → (length l < 1024)%nat → string_at p m = l.
Proof.
  intros [Hm Hq] Ht Hl. unfold string_at.
  replace 1024%nat with (length l + S (1023 - length l))%nat by lia.
  rewrite load_bytes_app, Hm, load_bytes_cons, Hq. by apply cstr_text.
Qed.

Lemma load_bytes_st8 m p l q b :
  load_bytes m p (length l) = l → ¬ (p ≤ q < p + Z.of_nat (length l)) →
  load_bytes (st8 m q b) p (length l) = l.
Proof.
  intros Hm Hq. etrans; [|exact Hm]. apply load_bytes_agree. intros a Ha. apply ld8_st8_ne. lia.
Qed.

(** One line: it is written if it matches, and only its newline changes. *)
Lemma grep_line_ok pattern l p m w :
  load_bytes m p (length l) = l → text_ok l → (length l < 1024)%nat →
  let q := p + Z.of_nat (length l) in
  ∃ b, urun stream_answer
    ((uset (λ m, st8 m q 0) ;;
      text ← uget (string_at p);
      if match_ pattern text then
        uset (λ m, st8 m q 10) ;; write 1 p (q + 1 - p) ;; uret tt
      else uret tt)%U m) w =
    (Returned tt (st8 m q b), Streams (s_in w) (s_out w ++ line_writes pattern [l])).
Proof.
  intros Hm Ht Hl q. rewrite urun_uset, urun_uget.
  rewrite (string_at_text _ _ l); [|split; [by apply load_bytes_st8; [|lia]|apply ld8_st8_eq]|done|done].
  unfold line_writes. rewrite filter_cons, filter_nil.
  destruct (match_ pattern l) eqn:E; [rewrite decide_True by done|rewrite decide_False by done].
  - exists 10. rewrite urun_uset, urun_write.
    replace (st8 (st8 m q 0) q 10) with (st8 m q 10) by (unfold st8; by rewrite insert_insert_eq).
    replace (Z.to_nat (q + 1 - p)) with (length l + 1)%nat by lia.
    rewrite load_bytes_app, load_bytes_st8 by (done || lia).
    change 1%nat with (S 0). rewrite load_bytes_cons. fold q. rewrite ld8_st8_eq. done.
  - exists 0. destruct w. cbn. by rewrite app_nil_r.
Qed.

Lemma grep_lines_ok fuel pattern s p m w :
  holds_text m p s → text_ok s → 0 < p → (length s < 1024)%nat → (length (chop s).1 < fuel)%nat →
  let r := (chop s).2 in
  let p' := p + Z.of_nat (length s) - Z.of_nat (length r) in
  ∃ m', urun stream_answer (grep_lines fuel pattern p m) w =
      (Returned p' m', Streams (s_in w) (s_out w ++ line_writes pattern (chop s).1)) ∧
    load_bytes m' p' (length r) = r.
Proof.
  revert s p m w. induction fuel as [|fuel IH]; intros s p m w [Hm Hz] Ht Hp Hl Hf; [lia|].
  cbn [grep_lines]. rewrite urun_uget.
  destruct (first_newline s) as [Hn|(l & s' & -> & Hn)].
  - rewrite (strchr_none m p s) by done. rewrite chop_no_newline by done. cbn.
    exists m. rewrite app_nil_r. destruct w. by replace (p + _ - _) with p by lia.
  - apply Forall_app in Ht as [Htl [_ Hts]%Forall_cons].
    rewrite length_app in *. cbn [length] in *.
    rewrite load_bytes_app, load_bytes_cons in Hm. apply app_inj_1 in Hm as [Hm1 [= Hm2 Hm3]];
      [|by rewrite load_bytes_length].
    rewrite (strchr_found m p l) by (done || lia).
    rewrite chop_line in * by done. cbn [fst snd length] in *.
    set (q := p + Z.of_nat (length l)) in *. rewrite (proj2 (Z.eqb_neq q 0)) by lia.
    destruct (grep_line_ok pattern l p m w Hm1 Htl ltac:(lia)) as [b E]. fold q in E.
    rewrite urun_uset in E |- *. rewrite urun_uget in E |- *. rewrite urun_ubind, E.
    destruct (IH s' (q + 1) (st8 m q b) (Streams (s_in w) (s_out w ++ line_writes pattern [l])))
      as (m' & E' & Hr); try done; try lia.
    + split; [apply load_bytes_st8; [done|lia]|]. rewrite ld8_st8_ne by lia. rewrite <- Hz. f_equal. lia.
    + exists m'. rewrite E'. cbn [s_in s_out].
      replace (p + Z.of_nat (length l + S (length s')) - Z.of_nat (length (chop s').2))
        with (q + 1 + Z.of_nat (length s') - Z.of_nat (length (chop s').2)) by lia.
      split; [|done]. rewrite <- app_assoc. unfold line_writes. rewrite <- fmap_app, <- filter_app. done.
Qed.

(** ** The outer loop *)

(** Lines short enough for the buffer. *)
Definition lines_fit (s : list Z) : Prop :=
  Forall (λ l, (length l ≤ 1022)%nat) (chop s).1 ∧ (length (chop s).2 ≤ 1022)%nat.

Lemma lines_fit_prefix a b : lines_fit (a ++ b) → 10 ∉ a → (length a ≤ 1022)%nat.
Proof.
  intros [H1 H2] Ha. destruct (chop_prefix a b Ha) as [H|(l & ls & E & H)]; [lia|].
  rewrite E in H1. apply Forall_cons in H1. lia.
Qed.

Lemma lines_fit_app a b : lines_fit (a ++ b) → lines_fit ((chop a).2 ++ b).
Proof. unfold lines_fit. rewrite chop_app. cbn. intros [[_ H]%Forall_app H']. done. Qed.

(** What a read of at least one byte returns. *)
Lemma chop_rest_in s b : b ∈ (chop s).2 → b ∈ s.
Proof.
  induction s as [|c s IH]; simpl; [done|]. destruct (chop s) as [ls r]. simpl in *.
  destruct (c =? 10); simpl; [set_solver|]. destruct ls; set_solver.
Qed.

Lemma u8_text s : text_ok s → u8 <$> s = s.
Proof.
  induction 1 as [|c s Hc Hs IH]; [done|]. rewrite fmap_cons, IH. by rewrite u8_small by lia.
Qed.

(** The buffer after a read behind the bytes [cur]. *)
Lemma fill_ok m buf cur got :
  load_bytes m buf (length cur) = cur → text_ok (cur ++ got) →
  holds_text (st8 (store_bytes m (buf + Z.of_nat (length cur)) got)
    (buf + (Z.of_nat (length cur) + Z.of_nat (length got))) 0) buf (cur ++ got).
Proof.
  intros Hm Ht. split.
  - apply load_bytes_st8; [|rewrite length_app; lia]. rewrite length_app, load_bytes_app. f_equal.
    + rewrite <- Hm at 3. apply load_bytes_agree. intros a Ha. apply ld8_store_bytes_out. lia.
    + rewrite load_store_bytes. apply u8_text. by apply Forall_app in Ht as [_ ?].
  - rewrite length_app. replace (Z.of_nat (length cur + length got))
      with (Z.of_nat (length cur) + Z.of_nat (length got)) by lia. apply ld8_st8_eq.
Qed.

Lemma load_bytes_umemmove m dst src n :
  load_bytes (memmove m dst src (Z.of_nat n)) dst n = load_bytes m src n.
Proof.
  apply list_eq_same_length with n; rewrite ?load_bytes_length; try done.
  intros i x y Hi. rewrite !load_bytes_lookup by done. intros [= <-] [= <-].
  rewrite ld8_umemmove, decide_True by lia. f_equal. lia.
Qed.

Section loop.
  Context (buf : Z) (Hbuf : 0 < buf).

Lemma grep_loop_ok fuel pattern fd cur chunks m w :
  s_in w fd = chunks → Forall (λ c, c ≠ []) chunks → text_ok (cur ++ concat chunks) → 10 ∉ cur →
  load_bytes m buf (length cur) = cur → lines_fit (cur ++ concat chunks) →
  (length (concat chunks) < fuel)%nat →
  ∃ m' w', urun stream_answer (grep_loop buf fuel pattern fd (Z.of_nat (length cur)) m) w =
      (Returned tt m', w') ∧
    s_out w' = s_out w ++ line_writes pattern (chop (cur ++ concat chunks)).1 ∧
    s_in w' fd = [] ∧ ∀ fd', fd' ≠ fd → s_in w' fd' = s_in w fd'.
Proof.
  revert cur chunks m w. induction fuel as [|fuel IH]; intros cur chunks m w Hin Hne Ht Hn Hm Hfit Hf; [lia|].
  cbn [grep_loop]. unfold read. rewrite urun_ask_at. cbn [stream_answer].
  pose proof (lines_fit_prefix _ _ Hfit Hn) as Hlen. destruct chunks as [|c cs].
  { unfold stream_read. rewrite Hin. cbn. exists m, w. rewrite app_nil_r, chop_no_newline by done.
    cbn. by rewrite app_nil_r. }
  apply Forall_cons in Hne as [Hc Hcs]. cbn [concat] in *.
  destruct (stream_read_ok fd (1024 - Z.of_nat (length cur) - 1) c cs w)
    as (got & rest & w1 & E & Hr & Ho & Hg & Hgl & Hcc & Hrne & Hoth); try done; [lia|].
  rewrite E. cbn [r_val r_data]. rewrite Hcc, app_assoc in *.
  assert (0 < length got)%nat as Hgp by (destruct got; [done|cbn; lia]).
  rewrite (proj2 (Z.leb_gt _ _)) by lia. rewrite urun_uset.
  apply Forall_app in Ht as [Ht Htr].
  pose proof (chop_rest (cur ++ got)) as (Hrn & Hrl & Hll). rewrite length_app in Hrl, Hll.
  destruct (grep_lines_ok 1024 pattern (cur ++ got) buf _ w1 (fill_ok m buf cur got Hm Ht) Ht Hbuf)
    as (m2 & E2 & Hr2); [rewrite length_app; lia|lia|].
  rewrite urun_ubind, E2. set (r := (chop (cur ++ got)).2) in *. rewrite length_app in *.
  rewrite (proj2 (Z.gtb_lt _ _)) by lia. rewrite urun_uset.
  set (p := buf + Z.of_nat (length cur + length got) - Z.of_nat (length r)) in *.
  replace (Z.of_nat (length cur) + Z.of_nat (length got) - (p - buf)) with (Z.of_nat (length r)) by lia.
  destruct (IH r rest (memmove m2 buf p (Z.of_nat (length r)))
    (Streams (s_in w1) (s_out w1 ++ line_writes pattern (chop (cur ++ got)).1)))
    as (m' & w' & E' & Ho' & Hi' & Hf'); try done.
  - apply Forall_app. split; [|done]. rewrite Forall_forall in Ht. apply Forall_forall.
    intros b Hb. by apply Ht, chop_rest_in.
  - by rewrite load_bytes_umemmove.
  - by apply lines_fit_app.
  - lia.
  - exists m', w'. split; [done|]. rewrite chop_app. fold r. cbn [fst]. split_and!; try done.
    + rewrite Ho'. cbn. rewrite Ho, <- app_assoc. f_equal. unfold line_writes.
      by rewrite <- fmap_app, <- filter_app.
    + intros fd' Hfd. rewrite Hf' by done. cbn. by apply Hoth.
Qed.
End loop.

(** C27: [grep] is a filter of lines.  However the system cuts the input into
    reads, it reads it to the end and writes, in order and each in one piece
    with its newline, exactly the lines that match, as long as no line is
    longer than 1022 bytes and there are no NUL bytes.  Text after the last
    newline is never written.  It ends: one read per byte is enough. *)
Theorem grep_filters buf fuel pattern fd m w :
  0 < buf → Forall (λ c, c ≠ []) (s_in w fd) →
  text_ok (concat (s_in w fd)) → lines_fit (concat (s_in w fd)) →
  (length (concat (s_in w fd)) < fuel)%nat →
  ∃ m' w', urun stream_answer (grep buf fuel pattern fd m) w = (Returned tt m', w') ∧
    s_in w' fd = [] ∧ (∀ fd', fd' ≠ fd → s_in w' fd' = s_in w fd') ∧
    s_out w' = s_out w ++
      ((λ l, (1, l ++ [10])) <$> filter (λ l, match_ pattern l = true) (chop (concat (s_in w fd))).1).
Proof.
  intros Hb Hne Ht Hfit Hf.
  destruct (grep_loop_ok buf Hb fuel pattern fd [] (s_in w fd) m w) as (m' & w' & E & Ho & Hi & Hx);
    try done; [set_solver|]. by exists m', w'.
Qed.

(** [b.*d] on three lines and a half, read in four pieces. *)
Definition ex_grep_in : list (list Z) :=
  [bytes_of "abc" ++ [10] ++ bytes_of "xb"; bytes_of "--"; bytes_of "d" ++ [10] ++ bytes_of "bd"; [10] ++ bytes_of "bad"].

Lemma grep_filters_witness : ∃ m' w',
  urun stream_answer (grep 4096 20 (bytes_of "b.*d") 0 ∅) (Streams (λ _, ex_grep_in) []) = (Returned tt m', w') ∧
  s_out w' = [(1, bytes_of "xb--d" ++ [10]); (1, bytes_of "bd" ++ [10])].
Proof.
  destruct (grep_filters 4096 20 (bytes_of "b.*d") 0 ∅ (Streams (λ _, ex_grep_in) []))
    as (m' & w' & E & _ & _ & Ho).
  - lia.
  - repeat constructor; discriminate.
  - vm_compute. repeat constructor; discriminate.
  - split; vm_compute; repeat constructor.
  - vm_compute. repeat constructor.
  - exists m', w'. split; [exact E|]. rewrite Ho. reflexivity.
Defined.
