(* ===== verification/Umalloc.v ===== *)
(** * The user memory allocator ([user/umalloc.c])

    The free blocks form a ring through the [ptr] field of their headers, in
    the order of their addresses, with the static [base] as its first member;
    [freep] points to one of them.  Headers are in memory: [ptr] at the address
    of the block, [size] 8 bytes further; sizes count units of 16 bytes.

    [sbrk] is what [sys_sbrk] and [growproc] of the kernel do with the size of
    the process; memory ends at [limit]. *)

From S2P Require Import Base Mem.
Local Open Scope Z_scope.
Local Open Scope kernel_scope.

(** [freep] is a static variable; [brk] is the size of the process. *)
Record heap := Heap { hp_mem : mem; freep : Z; brk : Z }.
Definition set_hp_mem (v : mem) (h : heap) : heap := Heap v (freep h) (brk h).
Definition set_freep (v : Z) (h : heap) : heap := Heap (hp_mem h) v (brk h).
Definition set_brk (v : Z) (h : heap) : heap := Heap (hp_mem h) (freep h) v.

(** [union header] *)
Definition sizeof_Header : Z := 16.
Definition hptr (p : Z) (h : heap) : Z := ld64 (hp_mem h) p.
Definition hsize (p : Z) (h : heap) : Z := ld32 (hp_mem h) (p + 8).
Definition put_ptr (p v : Z) : M heap unit := modify (λ h, set_hp_mem (st64 (hp_mem h) p v) h).
Definition put_size (p v : Z) : M heap unit := modify (λ h, set_hp_mem (st32 (hp_mem h) (p + 8) v) h).

Section umalloc.
  (** The address of [base], and the most memory the system gives. *)
  Context (base limit : Z).

(** The [for] loop of [free]: the block after which [bp] belongs. *)
Fixpoint free_find (fuel : nat) (bp p : Z) : M heap Z :=
  match fuel with
  | O => diverge
  | S fuel =>
      nx ← gets (hptr p);
      if (bp >? p) && (bp <? nx) then ret p
      else if (p >=? nx) && ((bp >? p) || (bp <? nx)) then ret p
      else free_find fuel bp nx
  end.

Definition free (fuel : nat) (ap : Z) : M heap unit :=
  let bp := ap - sizeof_Header in
  fp ← gets freep;
  p ← free_find fuel bp fp;
  nx ← gets (hptr p);
  sz ← gets (hsize bp);
  (if bp + sizeof_Header * sz =? nx then
     nsz ← gets (hsize nx);
     put_size bp (u32 (sz + nsz)) ;;
     nnx ← gets (hptr nx);
     put_ptr bp nnx
   else put_ptr bp nx) ;;
  psz ← gets (hsize p);
  (if p + sizeof_Header * psz =? bp then
     sz ← gets (hsize bp);
     put_size p (u32 (psz + sz)) ;;
     nx ← gets (hptr bp);
     put_ptr p nx
   else put_ptr p bp) ;;
  modify (set_freep p).

(** [growproc] with its [int] argument; -1 when there is no memory. *)
Definition sbrk (n : Z) : M heap Z :=
  old ← gets brk;
  if n >? 0 then
    if old + n <=? limit then modify (set_brk (old + n)) ;; ret old else ret (-1)
  else if n <? 0 then
    (if u64 (old + n) >=? old then ret old else modify (set_brk (u64 (old + n))) ;; ret old)
  else ret old.

Definition morecore (fuel : nat) (nu : Z) : M heap Z :=
  let nu := if nu <? 4096 then 4096 else nu in
  p ← sbrk (i32 (u64 (nu * sizeof_Header)));
  if p =? -1 then ret 0 else
  put_size p nu ;;
  free fuel (p + sizeof_Header) ;;
  gets freep.

(** Take [nunits] units from the block [p], which is large enough. *)
Definition take_units (prevp p nunits : Z) : M heap Z :=
  sz ← gets (hsize p);
  r ← (if sz =? nunits then
         nx ← gets (hptr p);
         put_ptr prevp nx ;;
         ret p
       else
         put_size p (u32 (sz - nunits)) ;;
         sz ← gets (hsize p);
         let p := p + sizeof_Header * sz in
         put_size p nunits ;;
         ret p);
  modify (set_freep prevp) ;;
  ret (r + sizeof_Header).

Fixpoint malloc_loop (fuel : nat) (prevp p nunits : Z) : M heap Z :=
  match fuel with
  | O => diverge
  | S fuel =>
      sz ← gets (hsize p);
      if sz >=? nunits then take_units prevp p nunits
      else
        fp ← gets freep;
        if p =? fp then
          p ← morecore fuel nunits;
          if p =? 0 then ret 0 else
          nx ← gets (hptr p);
          malloc_loop fuel p nx nunits
        else
          nx ← gets (hptr p);
          malloc_loop fuel p nx nunits
  end.

Definition units_of (nbytes : Z) : Z :=
  u32 (u64 (nbytes + sizeof_Header - 1) / sizeof_Header + 1).

Definition malloc (fuel : nat) (nbytes : Z) : M heap Z :=
  let nunits := units_of nbytes in
  fp ← gets freep;
  prevp ← (if fp =? 0 then
             put_ptr base base ;;
             modify (set_freep base) ;;
             put_size base 0 ;;
             ret base
           else ret fp);
  p ← gets (hptr prevp);
  malloc_loop fuel prevp p nunits.

(** More fuel does not change a result. *)
Lemma free_find_mono fuel k bp p h r h' :
  free_find fuel bp p h = Ok r h' → free_find (fuel + k) bp p h = Ok r h'.
Proof.
  revert p. induction fuel as [|fuel IH]; intros p; [done|]. cbn [plus free_find].
  rewrite !bind_gets. repeat case_if; auto.
Qed.

Lemma free_mono fuel k ap h r h' : free fuel ap h = Ok r h' → free (fuel + k) ap h = Ok r h'.
Proof.
  unfold free. rewrite !bind_gets. intros (p & h1 & E & K)%bind_inv.
  by rewrite (bind_ok _ _ _ _ _ (free_find_mono _ k _ _ _ _ _ E)).
Qed.

Lemma morecore_mono fuel k nu h r h' : morecore fuel nu h = Ok r h' → morecore (fuel + k) nu h = Ok r h'.
Proof.
  unfold morecore. intros (p & h1 & E & K)%bind_inv. rewrite (bind_ok _ _ _ _ _ E).
  destruct (p =? -1); [done|]. apply bind_inv in K as ([] & h2 & E2 & K). rewrite (bind_ok _ _ _ _ _ E2).
  apply bind_inv in K as ([] & h3 & E3 & K). by rewrite (bind_ok _ _ _ _ _ (free_mono _ k _ _ _ _ E3)).
Qed.

Lemma malloc_mono fuel k nbytes h r h' :
  malloc fuel nbytes h = Ok r h' → malloc (fuel + k) nbytes h = Ok r h'.
Proof.
  assert (∀ fuel prevp p n h, malloc_loop fuel prevp p n h = Ok r h' → malloc_loop (fuel + k) prevp p n h = Ok r h') as L.
  { clear fuel h. induction fuel as [|fuel IH]; intros prevp p n h; [done|]. cbn [plus malloc_loop].
    rewrite !bind_gets. case_if; [done|]. rewrite !bind_gets. case_if; [|rewrite !bind_gets; apply IH].
    intros (p1 & h1 & Em & K)%bind_inv. rewrite (bind_ok _ _ _ _ _ (morecore_mono _ k _ _ _ _ Em)).
    destruct (p1 =? 0); [done|]. rewrite bind_gets in *. by apply IH. }
  unfold malloc. rewrite !bind_gets. intros (p & h1 & E & K)%bind_inv. rewrite (bind_ok _ _ _ _ _ E).
  rewrite bind_gets in *. by apply L.
Qed.
End umalloc.

Example malloc_runs :
  match (p ← malloc 0x1000 0x100000 20 100; q ← malloc 0x1000 0x100000 20 5000;
         free 20 p ;; r ← malloc 0x1000 0x100000 20 50; ret (p, q, r)) (Heap ∅ 0 0x4000) with
  | Ok a _ => a = (0x4000 + 65536 - 112, 0x4000 + 65536 - 128 - 5008, 0x4000 + 65536 - 64)
  | _ => False
  end.
Proof. vm_compute. reflexivity. Qed.
