(* ===== verification/UmallocSpec.v ===== *)
(** * What the user allocator promises

    [heap_inv h bs]: [bs] are the free blocks besides [base], as addresses and
    sizes, in the order of their addresses; the headers in memory make them a
    ring with [base]; adjacent blocks are merged.  [free_ok] and [malloc_ok]
    say what the functions do to [bs]; [client_step] runs any sequence of them,
    mixed with stores of the client into the blocks it owns. *)

From S2P Require Import Base Mem Umalloc.
Local Open Scope Z_scope.
Local Open Scope kernel_scope.

Abbreviation node := (Z * Z)%type (only parsing).

(** The ring in memory: [l] linked in order, the last one to [e]. *)
Fixpoint chain (m : mem) (l : list node) (e : Z) : Prop :=
  match l with
  | [] => True
  | x :: l =>
      ld64 m x.1 = default e (fst <$> head l) ∧ ld32 m (x.1 + 8) = x.2 ∧ chain m l e
  end.

(** Addresses ascend, with a gap after each block. *)
Fixpoint apart (l : list node) : Prop :=
  match l with
  | x :: l =>
      match l with
      | y :: _ => x.1 + 16 * x.2 < y.1 ∧ x.1 + 16 ≤ y.1
      | [] => True
      end ∧ apart l
  | [] => True
  end.

(** ** Lists *)
Lemma chain_app m l l' e :
  chain m (l ++ l') e ↔ chain m l (default e (fst <$> head l')) ∧ chain m l' e.
Proof.
  induction l as [|x l IH]; simpl; [tauto|]. rewrite IH. destruct l; simpl; tauto.
Qed.

Lemma chain_agree m m' l e :
  (∀ x a, x ∈ l → x.1 ≤ a < x.1 + 16 → ld8 m' a = ld8 m a) → chain m l e → chain m' l e.
Proof.
  induction l as [|x l IH]; intros Hm Hc; [done|]. destruct Hc as (H1 & H2 & H3). simpl. split_and!.
  - rewrite <- H1. apply ld64_agree. intros b Hb. apply (Hm x); [left|lia].
  - rewrite <- H2. apply ld32_agree. intros b Hb. apply (Hm x); [left|lia].
  - apply IH; [|done]. intros y a Hy. apply Hm. by right.
Qed.

Lemma apart_app l x l' : apart (l ++ x :: l') ↔ apart (l ++ [x]) ∧ apart (x :: l').
Proof.
  induction l as [|y l IH]; simpl; [tauto|]. rewrite IH. destruct l; simpl; tauto.
Qed.

Lemma apart_lt x l y : apart (x :: l) → y ∈ l → 0 ≤ y.2 → Forall (λ z, 0 ≤ z.2) l →
  x.1 + 16 * x.2 < y.1 ∧ x.1 + 16 ≤ y.1.
Proof.
  revert x. induction l as [|z l IH]; intros x [Hz Ha] Hy Hy0 Hl; [set_solver|].
  apply Forall_cons in Hl as [Hz0 Hl]. apply elem_of_cons in Hy as [->|Hy]; [done|].
  specialize (IH z Ha Hy Hy0 Hl). lia.
Qed.

Lemma apart_mid l1 x l2 : apart (l1 ++ x :: l2) → Forall (λ z, 0 ≤ z.2) (l1 ++ x :: l2) →
  (∀ y, y ∈ l1 → y.1 + 16 * y.2 < x.1 ∧ y.1 + 16 ≤ x.1) ∧
  (∀ y, y ∈ l2 → x.1 + 16 * x.2 < y.1 ∧ x.1 + 16 ≤ y.1).
Proof.
  intros Ha Hn. split; intros y Hy.
  - apply list_elem_of_split in Hy as (k1 & k2 & ->). rewrite <- app_assoc in Ha, Hn. cbn in Ha, Hn.
    apply apart_app in Ha as [_ Ha]. apply Forall_app in Hn as [_ Hn]. apply Forall_cons in Hn as [_ Hn].
    apply (apart_lt y (k2 ++ x :: l2) x); [done|set_solver| |done].
    apply Forall_app in Hn as [_ Hn]. by apply Forall_cons in Hn as [Hn _].
  - apply apart_app in Ha as [_ Ha]. apply Forall_app in Hn as [_ Hn]. apply Forall_cons in Hn as [_ Hn].
    apply (apart_lt x l2 y); [done|done| |done]. by apply (proj1 (Forall_forall _ _) Hn).
Qed.

(** The address of the first block of [l]; [e] when there is none. *)
Definition first (l : list node) (e : Z) : Z := default e (fst <$> head l).

Lemma first_le l x l' e : apart (l ++ x :: l') → first (l ++ x :: l') e ≤ x.1.
Proof.
  induction l as [|y l IH]; cbn; [lia|]. intros [Hy Ha]. specialize (IH Ha).
  destruct l as [|z l]; cbn in *; lia.
Qed.

(** The position of an address among ascending blocks. *)
Lemma split_at x l bp :
  apart (x :: l) → x.1 < bp → (∀ y, y ∈ l → y.1 ≠ bp) →
  ∃ l1 p l2, x :: l = l1 ++ p :: l2 ∧ p.1 < bp ∧ ∀ y, y ∈ l2 → bp < y.1.
Proof.
  revert x. induction l as [|y l IH]; intros x [Hxy Ha] Hx Hl.
  - exists [], x, []. split; [done|]. split; [done|]. set_solver.
  - destruct (decide (y.1 < bp)) as [Hy|Hy].
    + destruct (IH y Ha Hy) as (l1 & p & l2 & E & H1 & H2); [set_solver|].
      exists (x :: l1), p, l2. rewrite E. done.
    + exists [], x, (y :: l). split; [done|]. split; [done|]. intros z Hz.
      assert (bp < y.1) by (specialize (Hl y ltac:(left)); lia).
      clear -Ha Hz H. revert y Ha Hz H. induction l as [|w l IH]; intros y [Hyw Ha] Hz Hb.
      * apply elem_of_cons in Hz as [->|Hz]; [done|set_solver].
      * apply elem_of_cons in Hz as [->|Hz]; [done|]. apply (IH w); [done|done|lia].
Qed.

(** ** Searching the ring *)
Lemma free_find_up h e bp l x l' fuel :
  chain (hp_mem h) (l ++ x :: l') e → apart (l ++ x :: l') → x.1 < bp →
  (∀ y, y ∈ l' → bp < y.1) → e ≤ x.1 →
  free_find (length l + S fuel) bp (first (l ++ x :: l') e) h = Ok x.1 h.
Proof.
  intros Hc Ha Hx Hl He. induction l as [|y l IH]; cbn [app length] in *.
  - destruct Hc as (Hp & _ & _). change (first (x :: l') e) with x.1.
    cbn [plus free_find]. rewrite bind_gets. unfold hptr. rewrite Hp.
    destruct l' as [|z l']; cbn.
    + rewrite (proj2 (Z.ltb_ge bp e)) by lia. rewrite andb_false_r.
      rewrite (proj2 (Z.geb_le x.1 e)), (proj2 (Z.gtb_lt bp x.1)) by lia. done.
    + specialize (Hl z ltac:(left)).
      rewrite (proj2 (Z.gtb_lt bp x.1)), (proj2 (Z.ltb_lt bp z.1)) by lia. done.
  - destruct Hc as (Hp & _ & Hc). destruct Ha as [Hy Ha].
    pose proof (first_le l x l' e Ha) as Hfl.
    assert (first (l ++ x :: l') e = default e (fst <$> head (l ++ x :: l'))) as Ef by done.
    assert (y.1 < first (l ++ x :: l') e) as Hyf by (destruct l; cbn in *; lia).
    cbn [plus free_find]. rewrite bind_gets. unfold hptr. change (first (y :: _) e) with y.1. rewrite Hp, <- Ef.
    rewrite (proj2 (Z.ltb_ge bp _)) by lia. rewrite andb_false_r, orb_false_r.
    rewrite Z.geb_leb. rewrite (proj2 (Z.leb_gt _ y.1)) by lia. cbn [andb]. apply IH; done.
Qed.

(** From a block behind the place of [bp], around to the start of the ring. *)
Lemma free_find_wrap h e bp l fuel :
  chain (hp_mem h) l e → apart l → (∀ y, y ∈ l → bp < y.1) → e < bp →
  free_find (length l + fuel) bp (first l e) h = free_find fuel bp e h.
Proof.
  intros Hc Ha Hl He. induction l as [|y l IH]; [done|].
  destruct Hc as (Hp & _ & Hc). destruct Ha as [Hy Ha]. pose proof (Hl y ltac:(left)) as Hby.
  cbn [length plus free_find]. rewrite bind_gets. unfold hptr. change (first (y :: l) e) with y.1. rewrite Hp.
  change (default e (fst <$> head l)) with (first l e).
  rewrite Z.gtb_ltb, (proj2 (Z.ltb_ge y.1 bp)) by lia. cbn [andb orb].
  assert ((y.1 >=? first l e) && (bp <? first l e) = false) as ->.
  { destruct l as [|z l]; cbn.
    - rewrite (proj2 (Z.ltb_ge bp e)) by lia. apply andb_false_r.
    - rewrite Z.geb_leb, (proj2 (Z.leb_gt _ _)) by lia. done. }
  apply IH; [done|done|]. set_solver.
Qed.

(** ** The invariant *)
Section spec.
  (** [lo]: where the heap begins, above the static variables.  The sizes are
      32-bit numbers of units, which covers [limit]. *)
  Context (base lo limit : Z).
  Context (Hbase : 0 < base) (Hlo : base + 16 ≤ lo) (Hlim : limit < 2 ^ 36).

Definition block_ok (top : Z) (x : node) : Prop := 1 ≤ x.2 ∧ lo ≤ x.1 ∧ x.1 + 16 * x.2 ≤ top.

Record heap_inv (h : heap) (bs : list node) : Prop := {
  hi_chain : chain (hp_mem h) ((base, 0) :: bs) base;
  hi_apart : apart ((base, 0) :: bs);
  hi_blocks : Forall (block_ok (brk h)) bs;
  hi_freep : freep h ∈ base :: bs.*1;
  hi_brk : lo ≤ brk h ≤ limit;
}.

(** The cells of the free blocks. *)
Definition in_free (l : list node) (a : Z) : Prop := ∃ x, x ∈ l ∧ x.1 ≤ a < x.1 + 16 * x.2.

Lemma in_free_cons x l a : in_free (x :: l) a ↔ x.1 ≤ a < x.1 + 16 * x.2 ∨ in_free l a.
Proof.
  unfold in_free. split.
  - intros (y & [->|Hy]%elem_of_cons & Ha); [by left|right; by exists y].
  - intros [Ha|(y & Hy & Ha)]; [exists x|exists y]; (split; [set_solver|done]).
Qed.

Lemma in_free_app l l' a : in_free (l ++ l') a ↔ in_free l a ∨ in_free l' a.
Proof.
  induction l as [|x l IH]; cbn [app]; [|rewrite !in_free_cons, IH; tauto].
  split; [by right|]. intros [(x & Hx & _)|?]; [set_solver|done].
Qed.

(** ** free *)

(** Putting the block [x] before [l], joined with its first block when they touch. *)
Definition join (x : node) (l : list node) : list node :=
  match l with
  | y :: l' => if x.1 + 16 * x.2 =? y.1 then (x.1, x.2 + y.2) :: l' else x :: l
  | [] => [x]
  end.

(** The first half of [free] links [bp] to what follows. *)
Definition free_up (bp p : Z) : M heap unit :=
  nx ← gets (hptr p);
  sz ← gets (hsize bp);
  if bp + sizeof_Header * sz =? nx then
    nsz ← gets (hsize nx);
    put_size bp (u32 (sz + nsz)) ;;
    nnx ← gets (hptr nx);
    put_ptr bp nnx
  else put_ptr bp nx.

(** The second half links [p] to [bp]. *)
Definition free_low (bp p : Z) : M heap unit :=
  psz ← gets (hsize p);
  if p + sizeof_Header * psz =? bp then
    sz ← gets (hsize bp);
    put_size p (u32 (psz + sz)) ;;
    nx ← gets (hptr bp);
    put_ptr p nx
  else put_ptr p bp.

Lemma free_halves fuel ap h p :
  free_find fuel (ap - sizeof_Header) (freep h) h = Ok p h →
  free fuel ap h = (free_up (ap - sizeof_Header) p ;; free_low (ap - sizeof_Header) p ;; modify (set_freep p)) h.
Proof.
  intros E. unfold free. rewrite bind_gets, (bind_ok _ _ _ _ _ E). unfold free_up, free_low.
  unfold bind, gets. cbn [res_bind]. repeat case_if; reflexivity.
Qed.

(** Memory changes only in the header at [a]. *)
Definition only_header (a : Z) (h h' : heap) : Prop :=
  freep h' = freep h ∧ brk h' = brk h ∧ ∀ b, ¬ (a ≤ b < a + 16) → ld8 (hp_mem h') b = ld8 (hp_mem h) b.

Lemma chain_only_header a h h' l e :
  only_header a h h' → (∀ x, x ∈ l → x.1 + 16 ≤ a ∨ a + 16 ≤ x.1) →
  chain (hp_mem h) l e → chain (hp_mem h') l e.
Proof.
  intros (_ & _ & Hm) Hl. apply chain_agree. intros x b Hx Hb. apply Hm. specialize (Hl x Hx). lia.
Qed.

Lemma put_ptr_header a v h : ∃ h', put_ptr a v h = Ok tt h' ∧ only_header a h h' ∧
  hptr a h' = u64 v ∧ hsize a h' = hsize a h.
Proof.
  eexists. split; [reflexivity|]. split; [split_and!; try done|].
  - intros b Hb. cbn. apply ld8_st64_ne. lia.
  - cbn. split; [apply ld64_st64_eq|]. apply ld32_agree. intros b Hb. apply ld8_st64_ne. lia.
Qed.

Lemma put_size_header a v h : ∃ h', put_size a v h = Ok tt h' ∧ only_header a h h' ∧
  hsize a h' = u32 v ∧ hptr a h' = hptr a h.
Proof.
  eexists. split; [reflexivity|]. split; [split_and!; try done|].
  - intros b Hb. cbn. apply ld8_st32_ne. lia.
  - cbn. split; [apply ld32_st32_eq|]. apply ld64_agree. intros b Hb. apply ld8_st32_ne. lia.
Qed.

Lemma only_header_trans a h1 h2 h3 : only_header a h1 h2 → only_header a h2 h3 → only_header a h1 h3.
Proof.
  intros (A1 & A2 & A3) (B1 & B2 & B3). split_and!; [congruence|congruence|].
  intros b Hb. by rewrite B3, A3.
Qed.

(** A header set to given values. *)
Lemma put_both a s v h :
  ∃ h', (put_size a s ;; put_ptr a v) h = Ok tt h' ∧ only_header a h h' ∧
    hptr a h' = u64 v ∧ hsize a h' = u32 s.
Proof.
  destruct (put_size_header a s h) as (h1 & E1 & O1 & S1 & P1).
  destruct (put_ptr_header a v h1) as (h2 & E2 & O2 & P2 & S2).
  exists h2. rewrite (bind_ok _ _ _ _ _ E1), E2. split_and!; try done; [by eapply only_header_trans|congruence].
Qed.

Lemma free_up_ok h bp s (p : node) l :
  chain (hp_mem h) (p :: l) base → hsize bp h = s → 1 ≤ s →
  base < bp → bp + 16 * s < 2 ^ 36 → Forall (λ y, bp + 16 * s ≤ y.1 ∧ 1 ≤ y.2 ∧ y.1 + 16 * y.2 < 2 ^ 36) l →
  ∃ h', free_up bp p.1 h = Ok tt h' ∧ only_header bp h h' ∧ chain (hp_mem h') (join (bp, s) l) base.
Proof.
  intros (Hp & _ & Hc) Hs Hs1 Hb Hbs Hl. unfold free_up. rewrite bind_gets.
  assert (hptr p.1 h = default base (fst <$> head l)) as -> by done. rewrite bind_gets, Hs.
  assert (∀ h', only_header bp h h' → Forall (λ y, bp + 16 * s ≤ y.1) l → chain (hp_mem h') l base) as Hk.
  { intros h' Ho Hl'. eapply chain_only_header; [done| |done]. rewrite Forall_forall in Hl'.
    intros x Hx. specialize (Hl' x Hx). lia. }
  assert (Forall (λ y, bp + 16 * s ≤ y.1) l) as Hl1 by (eapply Forall_impl; [exact Hl|]; simpl; lia).
  unfold join, sizeof_Header. destruct l as [|y l]; cbn [fst snd].
  - change (default base (fst <$> head [])) with base. rewrite (proj2 (Z.eqb_neq _ _)) by lia.
    destruct (put_ptr_header bp base h) as (h' & -> & O & P & S). exists h'. split; [done|]. split; [done|].
    cbn. unfold hptr, hsize in *. rewrite P, S, Hs. rewrite u64_small by lia. done.
  - change (default base (fst <$> head (y :: l))) with y.1.
    apply Forall_cons in Hl as [(Hy1 & Hy2 & Hy3) Hl]. destruct (bp + 16 * s =? y.1) eqn:E; bool_to_prop.
    + rewrite !bind_gets. destruct Hc as (Hyp & Hys & Hc). unfold hsize at 1. rewrite Hys.
      pose proof (put_size_header bp (u32 (s + y.2)) h) as (h1 & E1 & O1 & S1 & P1).
      rewrite (bind_ok _ _ _ _ _ E1), bind_gets.
      destruct (put_ptr_header bp (hptr y.1 h1) h1) as (h2 & -> & O2 & P2 & S2).
      exists h2. split; [done|]. assert (only_header bp h h2) as O by (by eapply only_header_trans).
      split; [done|]. cbn [chain fst snd]. unfold hptr, hsize in *.
      assert (ld64 (hp_mem h1) y.1 = ld64 (hp_mem h) y.1) as Ey.
      { apply ld64_agree. intros b Hb'. destruct O1 as (_ & _ & O1). apply O1. lia. }
      rewrite P2, S2, S1, Ey, Hyp. rewrite !u32_small by (rewrite ?u32_small by lia; lia).
      rewrite u64_small by (rewrite <- Hyp; apply ld64_bound). split_and!; try done.
      apply Forall_cons in Hl1 as [_ Hl1]. eapply chain_only_header; [done| |done].
      rewrite Forall_forall in Hl1. intros x Hx. specialize (Hl1 x Hx). lia.
    + destruct (put_ptr_header bp y.1 h) as (h' & -> & O & P & S). exists h'. split; [done|]. split; [done|].
      specialize (Hk h' O Hl1). unfold hptr, hsize in *.
      split; [etrans; [exact P|change (u64 y.1 = y.1); apply u64_small; lia]|].
      split; [etrans; [exact S|done]|done].
Qed.

Lemma free_low_ok h (p y : node) l :
  chain (hp_mem h) (y :: l) base → hsize p.1 h = p.2 → 0 ≤ p.2 → 1 ≤ y.2 →
  0 ≤ p.1 → p.1 + 16 * p.2 ≤ y.1 → p.1 + 16 ≤ y.1 → y.1 + 16 * y.2 < 2 ^ 36 →
  Forall (λ z, y.1 ≤ z.1) l →
  ∃ h', free_low y.1 p.1 h = Ok tt h' ∧ only_header p.1 h h' ∧
    chain (hp_mem h') (join p (y :: l)) base.
Proof.
  intros Hc Hs Hp0 Hy1 Hpp Hle Hle16 Hyl Hl. unfold free_low, sizeof_Header, join.
  rewrite bind_gets, Hs. destruct (p.1 + 16 * p.2 =? y.1) eqn:E; bool_to_prop.
  - destruct Hc as (Hyp & Hys & Hc). rewrite bind_gets. unfold hsize at 1. rewrite Hys.
    destruct (put_size_header p.1 (u32 (p.2 + y.2)) h) as (h1 & E1 & O1 & S1 & P1).
    rewrite (bind_ok _ _ _ _ _ E1), bind_gets.
    destruct (put_ptr_header p.1 (hptr y.1 h1) h1) as (h2 & -> & O2 & P2 & S2).
    exists h2. split; [done|]. assert (only_header p.1 h h2) as O by (by eapply only_header_trans).
    split; [done|]. cbn [chain fst snd]. unfold hptr, hsize in *.
    assert (ld64 (hp_mem h1) y.1 = ld64 (hp_mem h) y.1) as Ey.
    { apply ld64_agree. intros b Hb'. destruct O1 as (_ & _ & O1). apply O1. lia. }
    rewrite P2, S2, S1, Ey, Hyp. rewrite !u32_small by (rewrite ?u32_small by lia; lia).
    rewrite u64_small by (rewrite <- Hyp; apply ld64_bound). split_and!; try done.
    eapply chain_only_header; [done| |done]. rewrite Forall_forall in Hl.
    intros x Hx. specialize (Hl x Hx). lia.
  - destruct (put_ptr_header p.1 y.1 h) as (h' & -> & O & P & S). exists h'. split; [done|]. split; [done|].
    unfold hptr, hsize in *. split; [etrans; [exact P|change (u64 y.1 = y.1); apply u64_small; lia]|].
    split; [etrans; [exact S|done]|].
    apply (chain_only_header p.1 h h' (y :: l)); [done| |done]. rewrite Forall_forall in Hl.
    intros x [->|Hx]%elem_of_cons; [lia|]. specialize (Hl x Hx). lia.
Qed.

Lemma join_head x l : ∃ s l', join x l = (x.1, s) :: l' ∧ (0 ≤ x.2 → Forall (λ y, 0 ≤ y.2) l → x.2 ≤ s) ∧
  (length l' ≤ length l)%nat ∧ (l' = l ∨ ∃ y, l = y :: l').
Proof.
  destruct x as [b n]. unfold join. destruct l as [|y l]; [exists n, []; split_and!; try done; by left|].
  case_if; cbn [fst snd].
  - exists (n + y.2), l. split; [done|]. split; [|split; [simpl; lia|right; by exists y]].
    intros ? [? _]%Forall_cons. lia.
  - exists n, (y :: l). split_and!; try done. by left.
Qed.

Lemma join_big x l s : 0 ≤ x.2 → (∃ y, y ∈ l ∧ s ≤ y.2) → ∃ y, y ∈ join x l ∧ s ≤ y.2.
Proof.
  intros Hx (y & Hy & Hs). destruct l as [|z l]; [set_solver|]. unfold join. case_if.
  - apply elem_of_cons in Hy as [->|Hy]; [eexists; split; [left|cbn; lia]|exists y; set_solver].
  - exists y. set_solver.
Qed.

Lemma in_free_join x l a : 0 ≤ x.2 → Forall (λ y, 0 ≤ y.2) l →
  in_free (join x l) a ↔ x.1 ≤ a < x.1 + 16 * x.2 ∨ in_free l a.
Proof.
  intros Hx Hl. unfold join. destruct l as [|y l]; [by rewrite in_free_cons|].
  apply Forall_cons in Hl as [Hy _]. case_if; bool_to_prop; rewrite !in_free_cons; cbn [fst snd]; [|done].
  assert (∀ P, (x.1 ≤ a < x.1 + 16 * (x.2 + y.2) ∨ P) ↔
    (x.1 ≤ a < x.1 + 16 * x.2 ∨ y.1 ≤ a < y.1 + 16 * y.2 ∨ P)) as -> by (intros P; split; [|intros [?|[?|?]]];
    [intros [?|?]; [destruct (decide (a < y.1))|]|..]; try (by auto); try (left; lia); right; left; lia).
  done.
Qed.

Lemma apart_join x l :
  0 ≤ x.2 → Forall (λ y, x.1 + 16 * x.2 ≤ y.1 ∧ x.1 + 16 ≤ y.1 ∧ 1 ≤ y.2) l → apart l → apart (join x l).
Proof.
  intros Hx Hl Ha. unfold join. destruct l as [|y l]; [done|].
  apply Forall_cons in Hl as [(Hy1 & Hy2 & Hy3) _]. case_if; bool_to_prop.
  - destruct l as [|z l]; [done|]. destruct Ha as [[Hz1 Hz2] Ha]. split; cbn [fst snd]; [lia|done].
  - split; [lia|done].
Qed.

Lemma blocks_join top x l :
  block_ok top x → Forall (block_ok top) l → Forall (block_ok top) (join x l).
Proof.
  intros Hx Hl. unfold join. destruct l as [|y l]; [by apply Forall_singleton|]. case_if; bool_to_prop.
  - apply Forall_cons in Hl as [(Hy1 & Hy2 & Hy3) Hl]. apply Forall_cons. split; [|done].
    destruct Hx as (Hx1 & Hx2 & Hx3). split_and!; cbn [fst snd]; lia.
  - by apply Forall_cons.
Qed.

Lemma apart_head l x x' : x'.1 = x.1 → apart (l ++ [x]) → apart (l ++ [x']).
Proof.
  intros E. induction l as [|y l IH]; [done|]. intros [Hy Ha]. cbn [app apart]. split; [|by apply IH].
  destruct l; cbn in *; [by rewrite E|done].
Qed.

(** What lies in the ring. *)
Lemma ring_node h bs y : heap_inv h bs → y ∈ (base, 0) :: bs →
  y = (base, 0) ∨ (y ∈ bs ∧ block_ok (brk h) y).
Proof.
  intros Hi [->|Hy]%elem_of_cons; [by left|right]. split; [done|].
  by apply (proj1 (Forall_forall _ _) (hi_blocks _ _ Hi)).
Qed.

Lemma ring_nonneg h bs : heap_inv h bs → Forall (λ y, 0 ≤ y.2) ((base, 0) :: bs).
Proof.
  intros Hi. apply Forall_forall. intros y Hy.
  destruct (ring_node _ _ _ Hi Hy) as [->|[_ (? & ? & ?)]]; cbn; lia.
Qed.

Lemma freep_pos h bs : heap_inv h bs → 0 < freep h.
Proof.
  intros Hi. pose proof (hi_freep _ _ Hi) as Hin. change (base :: bs.*1) with (((base, 0) :: bs).*1) in Hin.
  apply list_elem_of_fmap in Hin as (x & -> & Hx).
  destruct (ring_node _ _ _ Hi Hx) as [->|[_ (? & ? & ?)]]; cbn; lia.
Qed.

(** The block [(bp, s)] is clear of the free ones. *)
Definition clear (bs : list node) (x : node) : Prop :=
  ∀ a, x.1 ≤ a < x.1 + 16 * x.2 → ¬ in_free bs a.

Lemma clear_side bs x y top : block_ok top x → block_ok top y → y ∈ bs → clear bs x →
  y.1 + 16 * y.2 ≤ x.1 ∨ x.1 + 16 * x.2 ≤ y.1.
Proof.
  intros (X1 & X2 & X3) (Y1 & Y2 & Y3) Hy Hc.
  destruct (decide (y.1 + 16 * y.2 ≤ x.1)); [by left|right].
  destruct (decide (x.1 + 16 * x.2 ≤ y.1)); [done|exfalso].
  apply (Hc (Z.max x.1 y.1)); [lia|]. exists y. split; [done|lia].
Qed.

Lemma ring_split h bs x : heap_inv h bs → block_ok (brk h) x → clear bs x →
  ∃ l1 p l2, (base, 0) :: bs = l1 ++ p :: l2 ∧ p.1 + 16 * p.2 ≤ x.1 ∧ p.1 + 16 ≤ x.1 ∧
    Forall (λ y, x.1 + 16 * x.2 ≤ y.1 ∧ 1 ≤ y.2 ∧ y.1 + 16 * y.2 < 2 ^ 36) l2.
Proof.
  intros Hi Hx Hc. pose proof Hx as (X1 & X2 & X3).
  assert (∀ y, y ∈ bs → y.1 + 16 * y.2 ≤ x.1 ∨ x.1 + 16 * x.2 ≤ y.1) as Hs.
  { intros y Hy. eapply clear_side; [done| |done|done].
    by apply (proj1 (Forall_forall _ _) (hi_blocks _ _ Hi)). }
  pose proof (hi_brk _ _ Hi) as Hbrk.
  destruct (split_at (base, 0) bs x.1) as (l1 & p & l2 & E & Hp & Hl).
  - apply Hi.
  - cbn. lia.
  - intros y Hy. destruct (ring_node _ _ y Hi ltac:(by right)) as [->|[_ (? & ? & ?)]]; [cbn; lia|].
    specialize (Hs y Hy). lia.
  - exists l1, p, l2. split; [done|].
    assert (p.1 + 16 * p.2 ≤ x.1 ∧ p.1 + 16 ≤ x.1) as [??].
    { destruct (ring_node _ _ p Hi) as [->|[Hin (? & ? & ?)]]; [rewrite E; set_solver|cbn; lia|].
      specialize (Hs p Hin). lia. }
    split_and!; try done. apply Forall_forall. intros y Hy. specialize (Hl y Hy).
    destruct (ring_node _ _ y Hi) as [->|[Hin (? & ? & ?)]]; [rewrite E; set_solver|cbn in *; lia|].
    specialize (Hs y Hin). lia.
Qed.

Lemma free_find_ok h bs l1 p l2 bp fuel : heap_inv h bs → (base, 0) :: bs = l1 ++ p :: l2 →
  p.1 < bp → Forall (λ y, bp < y.1) l2 → (2 * length bs + 2 ≤ fuel)%nat →
  free_find fuel bp (freep h) h = Ok p.1 h.
Proof.
  intros Hi E Hp Hl Hf. rewrite Forall_forall in Hl.
  pose proof (f_equal length E) as El. rewrite length_app in El. cbn [length] in El.
  pose proof (hi_chain _ _ Hi) as Hc. pose proof (hi_apart _ _ Hi) as Ha. rewrite E in Hc, Ha.
  assert (base ≤ p.1) as Hbp.
  { destruct (ring_node _ _ p Hi) as [->|[_ (? & ? & ?)]]; [rewrite E; set_solver|cbn; lia|lia]. }
  assert (first (l1 ++ p :: l2) base = base) as Ef by (by rewrite <- E).
  pose proof (hi_freep _ _ Hi) as Hin. change (base :: bs.*1) with (((base, 0) :: bs).*1) in Hin.
  apply list_elem_of_fmap in Hin as (x & Ex & Hx). rewrite E in Hx. rewrite Ex.
  assert (x ∈ l1 ++ [p] ∨ x ∈ l2) as [Hx1|Hx2] by set_solver.
  - apply list_elem_of_split in Hx1 as (k1 & k2 & Ek).
    assert (∃ k, x :: k2 = k ++ [p] ∧ l1 = k1 ++ k) as (k & Ek2 & ->).
    { destruct (exists_last (l := x :: k2)) as (k & q & Eq); [done|]. exists k. rewrite Eq in Ek.
      rewrite app_assoc in Ek. apply app_inj_tail in Ek as [-> ->]. done. }
    rewrite <- app_assoc in Hc, Ha.
    apply chain_app in Hc as [_ Hc].
    assert (apart (k ++ p :: l2)) as Ha'.
    { clear -Ha Ek2. destruct k as [|y k]; cbn [app] in *; by apply apart_app in Ha as [_ Ha]. }
    assert (x.1 = first (k ++ p :: l2) base) as ->.
    { destruct k as [|y k]; cbn in Ek2; by simplify_eq. }
    assert (length k ≤ length bs)%nat by (rewrite length_app in El; lia).
    replace fuel with (length k + S (fuel - length k - 1))%nat by lia. by apply free_find_up.
  - apply list_elem_of_split in Hx2 as (k1 & k2 & ->).
    rewrite length_app in El. cbn [length] in El.
    replace fuel with (length (x :: k2) + (length l1 + S (fuel - length (x :: k2) - length l1 - 1)))%nat
      by (cbn [length]; lia).
    change x.1 with (first (x :: k2) base). rewrite free_find_wrap.
    + rewrite <- Ef at 1. by apply free_find_up.
    + apply chain_app in Hc as [_ Hc]. change (p :: k1 ++ x :: k2) with ((p :: k1) ++ x :: k2) in Hc.
      by apply chain_app in Hc as [_ Hc].
    + apply apart_app in Ha as [_ Ha]. change (p :: k1 ++ x :: k2) with ((p :: k1) ++ x :: k2) in Ha.
      by apply apart_app in Ha as [_ Ha].
    + intros y Hy. apply Hl. set_solver.
    + lia.
Qed.

(** The headers [free] writes. *)
Lemma free_run h bs l1 p l2 x fuel : heap_inv h bs → (base, 0) :: bs = l1 ++ p :: l2 →
  hsize x.1 h = x.2 → block_ok (brk h) x → p.1 + 16 * p.2 ≤ x.1 → p.1 + 16 ≤ x.1 →
  Forall (λ y, x.1 + 16 * x.2 ≤ y.1 ∧ 1 ≤ y.2 ∧ y.1 + 16 * y.2 < 2 ^ 36) l2 → (2 * length bs + 2 ≤ fuel)%nat →
  ∃ h', free fuel (x.1 + 16) h = Ok tt h' ∧ freep h' = p.1 ∧ brk h' = brk h ∧
    chain (hp_mem h') (l1 ++ join p (join x l2)) base ∧
    ∀ a, ¬ (p.1 ≤ a < p.1 + 16) → ¬ (x.1 ≤ a < x.1 + 16) → ld8 (hp_mem h') a = ld8 (hp_mem h) a.
Proof.
  intros Hi E Hs (X1 & X2 & X3) Hp1 Hp2 Hl2 Hf. pose proof (hi_brk _ _ Hi) as Hbrk.
  assert (free_find fuel (x.1 + 16 - sizeof_Header) (freep h) h = Ok p.1 h) as Ef.
  { replace (x.1 + 16 - sizeof_Header) with x.1 by (unfold sizeof_Header; lia).
    eapply free_find_ok; [done|done|lia| |done]. eapply Forall_impl; [exact Hl2|]. simpl. lia. }
  rewrite (free_halves _ _ _ _ Ef). clear Ef.
  replace (x.1 + 16 - sizeof_Header) with x.1 by (unfold sizeof_Header; lia).
  pose proof (hi_chain _ _ Hi) as Hc. pose proof (hi_apart _ _ Hi) as Ha. rewrite E in Hc, Ha.
  pose proof (ring_nonneg _ _ Hi) as Hn. rewrite E in Hn. apply Forall_app in Hn as [_ Hn].
  apply Forall_cons in Hn as [Hp0 Hn].
  assert (0 ≤ p.1) as Hp1'.
  { destruct (ring_node _ _ p Hi) as [->|[_ (? & ? & ?)]]; [rewrite E; set_solver|cbn; lia|lia]. }
  apply chain_app in Hc as [Hc1 Hc2].
  destruct (free_up_ok h x.1 x.2 p l2 Hc2 Hs) as (h1 & E1 & O1 & C1); try done; try lia.
  rewrite (bind_ok _ _ _ _ _ E1). destruct x as [bp s]. cbn [fst snd] in *.
  destruct (join_head (bp, s) l2) as (s' & r & Ej & Hs' & Hr & Hrl). rewrite Ej in C1 |- *. cbn [fst snd] in *.
  assert (hsize p.1 h1 = p.2) as Hps.
  { destruct Hc2 as (_ & H & _). rewrite <- H. apply ld32_agree. intros b Hb. apply O1. lia. }
  assert (s ≤ s') as Hss by (apply Hs'; [lia|done]).
  assert (Forall (λ y, bp + 16 * s ≤ y.1) r) as Hrr.
  { assert (Forall (λ y, bp + 16 * s ≤ y.1) l2) as H by (eapply Forall_impl; [exact Hl2|]; simpl; lia).
    destruct Hrl as [->|(y & ->)]; [done|by apply Forall_cons in H as [_ H]]. }
  destruct (free_low_ok h1 p (bp, s') r C1 Hps) as (h2 & E2 & O2 & C2); cbn [fst snd]; try done; try lia.
  { destruct l2 as [|y l2]; unfold join in Ej; [simplify_eq; lia|].
    apply Forall_cons in Hl2 as [(H1 & H2 & H3) _]. cbn [fst snd] in Ej.
    destruct (bp + 16 * s =? y.1) eqn:Ey; bool_to_prop; simplify_eq; lia. }
  { eapply Forall_impl; [exact Hrr|]. simpl. lia. }
  cbn [fst] in E2. rewrite (bind_ok _ _ _ _ _ E2).
  exists (set_freep p.1 h2). split; [done|]. split; [done|].
  destruct O1 as (O11 & O12 & O13), O2 as (O21 & O22 & O23). cbn. split; [congruence|].
  assert (∀ a, ¬ (p.1 ≤ a < p.1 + 16) → ¬ (bp ≤ a < bp + 16) → ld8 (hp_mem h2) a = ld8 (hp_mem h) a) as Hm.
  { intros a H1 H2. by rewrite O23, O13. }
  split; [|done]. apply chain_app. split; [|done].
  replace (default base (fst <$> head (join p ((bp, s') :: r)))) with p.1
    by (destruct (join_head p ((bp, s') :: r)) as (? & ? & -> & _); done).
  revert Hc1. apply chain_agree. intros y a Hy Hya.
  assert (y.1 + 16 ≤ p.1).
  { pose proof (ring_nonneg _ _ Hi) as Hn'. rewrite E in Hn'. by apply (apart_mid _ _ _ Ha Hn'). }
  apply Hm; lia.
Qed.

(** The heap after [free]: the block is part of the free cells, and nothing else changes. *)
Record freed (h h' : heap) (bs bs' : list node) (x : node) : Prop := {
  fr_inv : heap_inv h' bs';
  fr_brk : brk h' = brk h;
  fr_cells : ∀ a, in_free bs' a ↔ in_free bs a ∨ x.1 ≤ a < x.1 + 16 * x.2;
  fr_mem : ∀ a, ¬ in_free bs' a → ¬ (base ≤ a < base + 16) → ld8 (hp_mem h') a = ld8 (hp_mem h) a;
  fr_big : ∃ y, y ∈ bs' ∧ x.2 ≤ y.2;
  fr_len : (length bs' ≤ S (length bs))%nat;
}.

Lemma free_ring h bs l1 p l2 x : heap_inv h bs → (base, 0) :: bs = l1 ++ p :: l2 →
  block_ok (brk h) x → p.1 + 16 * p.2 ≤ x.1 → p.1 + 16 ≤ x.1 →
  Forall (λ y, x.1 + 16 * x.2 ≤ y.1 ∧ 1 ≤ y.2 ∧ y.1 + 16 * y.2 < 2 ^ 36) l2 →
  ∃ bs', l1 ++ join p (join x l2) = (base, 0) :: bs' ∧ apart ((base, 0) :: bs') ∧ Forall (block_ok (brk h)) bs' ∧
    (∀ a, in_free bs' a ↔ in_free bs a ∨ x.1 ≤ a < x.1 + 16 * x.2) ∧
    (∃ y, y ∈ bs' ∧ x.2 ≤ y.2) ∧ p.1 ∈ base :: bs'.*1 ∧ (length bs' ≤ S (length bs))%nat.
Proof.
  intros Hi E Hx Hp1 Hp2 Hl2. pose proof Hx as (X1 & X2 & X3). pose proof (hi_blocks _ _ Hi) as Hb.
  pose proof (hi_apart _ _ Hi) as Ha. rewrite E in Ha. apply apart_app in Ha as [Ha1 Ha2].
  assert (Forall (λ y, 0 ≤ y.2) l2) as Hn by (eapply Forall_impl; [exact Hl2|]; simpl; lia).
  pose proof (ring_nonneg _ _ Hi) as Hp0. rewrite E, Forall_app, Forall_cons in Hp0. destruct Hp0 as (_ & Hp0 & _).
  assert (Forall (block_ok (brk h)) l2) as Hb2.
  { destruct l1 as [|b l1]; cbn in E; simplify_eq; [done|].
    apply Forall_app in Hb as [_ Hb]. by apply Forall_cons in Hb as [_ Hb]. }
  assert (apart (join x l2)) as Hax.
  { apply apart_join; [lia| |destruct Ha2; destruct l2; done].
    eapply Forall_impl; [exact Hl2|]. simpl. lia. }
  pose proof (blocks_join _ _ _ Hx Hb2) as Hbx.
  destruct (join_head x l2) as (s' & r & Ej & Hs' & Hr & Hrl). specialize (Hs' ltac:(lia) Hn).
  assert (Forall (λ y, 0 ≤ y.2) (join x l2)) as Hnx by (eapply Forall_impl; [exact Hbx|]; intros ? (? & ? & ?); lia).
  assert (apart (l1 ++ join p (join x l2))) as Hall.
  { destruct (join_head p (join x l2)) as (sp & rp & Ejp & _). rewrite Ejp. apply apart_app.
    split; [by eapply apart_head; [|exact Ha1]|]. rewrite <- Ejp. apply apart_join; [done| |done].
    rewrite Ej in Hbx |- *. apply Forall_cons in Hbx as [(? & ? & ?) Hbx]. apply Forall_cons. cbn [fst snd] in *.
    split; [lia|]. apply Forall_forall. intros y Hy. rewrite Forall_forall in Hl2. specialize (Hl2 y).
    assert (y ∈ l2) as Hy2 by (destruct Hrl as [->|(z & ->)]; set_solver). specialize (Hl2 Hy2). lia. }
  destruct l1 as [|b l1]; cbn [app] in E; simplify_eq; cbn [app fst snd] in *.
  - assert (join (base, 0) (join x l2) = (base, 0) :: join x l2) as Eb.
    { rewrite Ej. unfold join. cbn [fst snd]. by rewrite (proj2 (Z.eqb_neq _ _)) by lia. }
    exists (join x l2). rewrite Eb in Hall. split_and!; try done.
    + intros a. rewrite in_free_join by (done || lia). tauto.
    + exists (x.1, s'). rewrite Ej. split; [left|done].
    + left.
    + rewrite Ej. cbn. lia.
  - apply Forall_app in Hb as [Hb1 Hb]. apply Forall_cons in Hb as [Hbp Hb].
    exists (l1 ++ join p (join x l2)). split_and!; try done.
    + apply Forall_app. split; [done|]. by apply blocks_join.
    + intros a. rewrite !in_free_app, in_free_cons, !in_free_join by (done || lia). tauto.
    + destruct (join_big p (join x l2) x.2) as (y & Hy & Hyx); [done| |exists y; set_solver].
      exists (x.1, s'). rewrite Ej. split; [left|done].
    + destruct (join_head p (join x l2)) as (sp & rp & -> & _). rewrite fmap_app. set_solver.
    + rewrite !length_app. cbn. destruct (join_head p (join x l2)) as (sp & rp & -> & _ & Hl & _).
      rewrite Ej in Hl. cbn in *. lia.
Qed.

Lemma free_ok h bs x fuel : heap_inv h bs → hsize x.1 h = x.2 → block_ok (brk h) x → clear bs x →
  (2 * length bs + 2 ≤ fuel)%nat →
  ∃ h' bs', free fuel (x.1 + 16) h = Ok tt h' ∧ freed h h' bs bs' x.
Proof.
  intros Hi Hs Hx Hc Hf.
  destruct (ring_split _ _ _ Hi Hx Hc) as (l1 & p & l2 & E & Hp1 & Hp2 & Hl2).
  destruct (free_run _ _ _ _ _ _ _ Hi E Hs Hx Hp1 Hp2 Hl2 Hf) as (h' & Er & Hfp & Hbrk & Hch & Hm).
  destruct (free_ring _ _ _ _ _ _ Hi E Hx Hp1 Hp2 Hl2) as (bs' & Eb & Hap & Hbl & Hcells & Hbig & Hin & Hlen).
  exists h', bs'. split; [done|]. rewrite Eb in Hch. split; try done.
  - split; [done|done|by rewrite Hbrk|by rewrite Hfp|rewrite Hbrk; apply Hi].
  - intros a Hna Hnb. destruct Hx as (X1 & X2 & X3). apply Hm.
    + intros Hpa. destruct (ring_node _ _ p Hi) as [->|[Hpin (? & ? & ?)]]; [rewrite E; set_solver|done|].
      apply Hna, Hcells. left. exists p. split; [done|lia].
    + intros Hxa. apply Hna, Hcells. right. lia.
Qed.

(** ** malloc *)

(** The block before the ones that follow [T] in the ring. *)
Definition pred (T : list node) : Z := default base (fst <$> last T).

(** The heap after [n] units were taken from its free cells. *)
Record took (h h' : heap) (bs bs' : list node) (y : node) : Prop := {
  tk_inv : heap_inv h' bs';
  tk_brk : brk h' = brk h;
  tk_block : block_ok (brk h) y;
  tk_size : hsize y.1 h' = y.2;
  tk_from : ∀ a, y.1 ≤ a < y.1 + 16 * y.2 → in_free bs a;
  tk_cells : ∀ a, in_free bs' a ↔ in_free bs a ∧ ¬ (y.1 ≤ a < y.1 + 16 * y.2);
  tk_mem : ∀ a, ¬ in_free bs a → ¬ (base ≤ a < base + 16) → ld8 (hp_mem h') a = ld8 (hp_mem h) a;
}.

Lemma ring_last T : ∃ A q, (base, 0) :: T = A ++ [q] ∧ q.1 = pred T ∧ (q = (base, 0) ∨ q ∈ T).
Proof.
  destruct T as [|y T] using rev_ind; [exists [], (base, 0); split_and!; try done; by left|].
  exists ((base, 0) :: T), y. split; [done|]. unfold pred. rewrite last_snoc. split; [done|right; set_solver].
Qed.

Lemma in_free_mid T x B a : apart ((base, 0) :: T ++ x :: B) → Forall (λ y, 0 ≤ y.2) (T ++ x :: B) →
  in_free (T ++ B) a ↔ in_free (T ++ x :: B) a ∧ ¬ (x.1 ≤ a < x.1 + 16 * x.2).
Proof.
  intros Ha Hn.
  destruct (apart_mid ((base, 0) :: T) x B Ha ltac:(by apply Forall_cons)) as [H1 H2].
  rewrite !in_free_app, in_free_cons. split; [|tauto].
  rewrite Forall_app, Forall_cons in Hn. destruct Hn as (Hn1 & Hx & Hn2).
  intros [(y & Hy & Hya)|(y & Hy & Hya)].
  - split; [left; by exists y|]. specialize (H1 y ltac:(by right)). lia.
  - split; [right; right; by exists y|]. specialize (H2 y Hy). lia.
Qed.

(** Changes in the cells of one block leave the links of the others alone. *)
Lemma chain_around m m' l1 z l2 :
  apart (l1 ++ z :: l2) → Forall (λ y, 0 ≤ y.2) (l1 ++ z :: l2) →
  (∀ a, ¬ (z.1 ≤ a < z.1 + 16) → ¬ (z.1 ≤ a < z.1 + 16 * z.2) → ld8 m' a = ld8 m a) →
  (∀ e, chain m l1 e → chain m' l1 e) ∧ (∀ e, chain m l2 e → chain m' l2 e).
Proof.
  intros Ha Hn Hm. destruct (apart_mid _ _ _ Ha Hn) as [H1 H2]. rewrite Forall_app, Forall_cons in Hn.
  destruct Hn as (Hn1 & Hz & Hn2).
  split; intros e; apply chain_agree; intros y a Hy Hya; apply Hm; try specialize (H1 y Hy); try specialize (H2 y Hy);
    lia.
Qed.

Lemma apart_skip l1 q x l2 : apart (l1 ++ q :: x :: l2) → 0 ≤ x.2 → apart (l1 ++ q :: l2).
Proof.
  intros Ha Hx. apply apart_app in Ha as [H1 [Hq H2]]. apply apart_app. split; [done|].
  destruct l2 as [|y l2]; [done|]. destruct H2 as [Hy H2]. split; [lia|done].
Qed.

(** The whole block is taken. *)
Lemma take_all h T x B : heap_inv h (T ++ x :: B) →
  ∃ h', take_units (pred T) x.1 x.2 h = Ok (x.1 + 16) h' ∧ took h h' (T ++ x :: B) (T ++ B) x.
Proof.
  intros Hi. pose proof (hi_chain _ _ Hi) as Hc. pose proof (hi_apart _ _ Hi) as Ha.
  pose proof (hi_blocks _ _ Hi) as Hb. pose proof (ring_nonneg _ _ Hi) as Hn.
  destruct (ring_last T) as (A & q & Eq & Hq & Hqin).
  change ((base, 0) :: T ++ x :: B) with (((base, 0) :: T) ++ x :: B) in Hc, Ha, Hn.
  pose proof (apart_mid _ _ _ Ha Hn) as [H1 H2]. pose proof (in_free_mid T x B) as Hcells.
  specialize (λ a, Hcells a Ha (proj2 (proj1 (Forall_cons _ _ _) Hn))).
  rewrite Eq, <- app_assoc in Hc, Ha, Hn. cbn [app] in Hc, Ha, Hn.
  pose proof (apart_skip _ _ _ _ Ha) as Ha'.
  apply chain_app in Hc as [Hc1 (Hqp & Hqs & Hxp & Hxs & Hc2)].
  rewrite Forall_app, Forall_cons in Hb. destruct Hb as (Hb1 & Hx & Hb2).
  destruct (put_ptr_header q.1 (hptr x.1 h) h) as (h1 & E1 & O1 & P1 & S1). pose proof O1 as (_ & Hbrk & Hm).
  exists (set_freep q.1 h1). split.
  { unfold take_units. rewrite bind_gets. unfold hsize at 1. rewrite Hxs, Z.eqb_refl, <- Hq.
    rewrite (bind_ok _ _ h x.1 h1); [done|]. by rewrite bind_gets, (bind_ok _ _ _ _ _ E1). }
  destruct (chain_around (hp_mem h) (hp_mem h1) A q (x :: B) Ha Hn) as [K1 K2]; [by intros a Ha1 _; apply Hm|].
  assert (chain (hp_mem h1) (A ++ q :: B) base) as C.
  { apply chain_app. split; [by apply K1|]. split; [|split; [by etrans; [exact S1|]|]].
    - etrans; [exact P1|]. unfold hptr. rewrite Hxp. apply u64_small. rewrite <- Hxp. apply ld64_bound.
    - destruct (K2 base) as (_ & _ & K); [done|]. exact K. }
  assert (A ++ q :: B = (base, 0) :: T ++ B) as EA by (rewrite app_comm_cons, Eq, <- app_assoc; done).
  rewrite EA in C, Ha'. split; cbn [hp_mem brk set_freep].
  - split; cbn [hp_mem brk freep set_freep]; [done|apply Ha'; destruct Hx; lia|rewrite Hbrk; by apply Forall_app| |rewrite Hbrk; apply Hi].
    destruct Hqin as [->|Hqin]; [left|right]. rewrite fmap_app. apply elem_of_app. left. by apply list_elem_of_fmap_2.
  - done.
  - done.
  - destruct (K2 base) as (_ & K & _); done.
  - intros a Hxa. rewrite in_free_app, in_free_cons. tauto.
  - done.
  - intros a Hna Hnb. apply Hm. intros Hqa. destruct Hqin as [->|Hqin]; [done|]. apply Hna.
    rewrite Forall_forall in Hb1. destruct (Hb1 q Hqin) as (? & ? & ?). rewrite in_free_app. left.
    exists q. split; [done|lia].
Qed.

(** The tail of a larger block is taken. *)
Lemma take_part h T x B n : heap_inv h (T ++ x :: B) → 1 ≤ n < x.2 →
  ∃ h', take_units (pred T) x.1 n h = Ok (x.1 + 16 * (x.2 - n) + 16) h' ∧
    took h h' (T ++ x :: B) (T ++ (x.1, x.2 - n) :: B) (x.1 + 16 * (x.2 - n), n).
Proof.
  intros Hi Hn1. pose proof (hi_chain _ _ Hi) as Hc. pose proof (hi_apart _ _ Hi) as Ha.
  pose proof (hi_blocks _ _ Hi) as Hb. pose proof (ring_nonneg _ _ Hi) as Hn. pose proof (hi_brk _ _ Hi) as Hk.
  change ((base, 0) :: T ++ x :: B) with (((base, 0) :: T) ++ x :: B) in Hc, Ha, Hn.
  pose proof (apart_mid _ _ _ Ha Hn) as [H1 H2].
  apply chain_app in Hc as [Hc1 (Hxp & Hxs & Hc2)].
  pose proof Hb as Hb'. rewrite Forall_app, Forall_cons in Hb'. destruct Hb' as (Hb1 & (X1 & X2 & X3) & Hb2).
  set (y := x.1 + 16 * (x.2 - n)).
  destruct (put_size_header x.1 (u32 (x.2 - n)) h) as (h1 & E1 & O1 & S1 & P1).
  assert (hsize x.1 h1 = x.2 - n) as Hx1 by (rewrite S1, !u32_small by (rewrite ?u32_small by lia; lia); done).
  destruct (put_size_header y n h1) as (h2 & E2 & O2 & S2 & P2).
  pose proof O1 as (_ & Hbrk1 & Hm1). pose proof O2 as (_ & Hbrk2 & Hm2).
  assert (brk h2 = brk h) as Hbrk by congruence.
  exists (set_freep (pred T) h2). split.
  { unfold take_units. rewrite bind_gets. change (hsize x.1 h = x.2) in Hxs. rewrite Hxs, (proj2 (Z.eqb_neq _ _)) by lia.
    rewrite (bind_ok _ _ h y h2); [done|]. rewrite (bind_ok _ _ _ _ _ E1), bind_gets, Hx1.
    change (x.1 + sizeof_Header * (x.2 - n)) with y. by rewrite (bind_ok _ _ _ _ _ E2). }
  destruct (chain_around (hp_mem h) (hp_mem h2) ((base, 0) :: T) x B Ha Hn) as [K1 K2].
  { intros a Ha1 Ha2. rewrite Hm2 by lia. apply Hm1. lia. }
  pose proof (in_free_mid T x B) as Hcells. specialize (λ a, Hcells a Ha (proj2 (proj1 (Forall_cons _ _ _) Hn))).
  split; cbn [hp_mem brk set_freep fst snd].
  - split; cbn [hp_mem brk freep set_freep].
    + change ((base, 0) :: T ++ (x.1, x.2 - n) :: B) with (((base, 0) :: T) ++ (x.1, x.2 - n) :: B).
      apply chain_app. split; [by apply K1|]. cbn [chain fst snd]. split; [|split; [|by apply K2]].
      * rewrite <- Hxp. etrans; [|exact P1]. apply ld64_agree. intros b Hb'. apply Hm2. lia.
      * rewrite <- Hx1. apply ld32_agree. intros b Hb'. apply Hm2. lia.
    + change ((base, 0) :: T ++ (x.1, x.2 - n) :: B) with (((base, 0) :: T) ++ (x.1, x.2 - n) :: B).
      apply apart_app in Ha as [Ha1 Ha2]. apply apart_app. split; [by eapply apart_head; [|exact Ha1]|].
      destruct B as [|z B]; [done|]. destruct Ha2 as [Hz Ha2]. split; cbn [fst snd]; [lia|done].
    + rewrite Hbrk. apply Forall_app. split; [done|]. apply Forall_cons. split; [|done]. split_and!; cbn [fst snd]; lia.
    + destruct (ring_last T) as (A & q & _ & <- & [->|Hq]); [left|right]. rewrite fmap_app.
      apply elem_of_app. left. by apply list_elem_of_fmap_2.
    + by rewrite Hbrk.
  - done.
  - split_and!; cbn [fst snd]; lia.
  - etrans; [exact S2|]. apply u32_small. lia.
  - intros a Hya. rewrite in_free_app, in_free_cons. right. left. lia.
  - intros a. specialize (Hcells a). rewrite !in_free_app, !in_free_cons in *. cbn [fst snd].
    destruct (decide (x.1 ≤ a < x.1 + 16 * x.2)) as [Hin|Hin].
    + assert (¬ (in_free T a ∨ in_free B a)) as Hno by (intros Hor; by apply Hcells in Hor as [_ ?]).
      split; [|intros [_ ?]; right; left; lia].
      intros [?|[?|?]]; [by exfalso; auto| |by exfalso; auto]. split; [by right; left|lia].
    + split; [|intros [[?|[?|?]] _]; [by left|done|by right; right]].
      intros [?|[?|?]]; [split; [by left|lia]|lia|split; [by right; right|lia]].
  - intros a Hna Hnb. rewrite in_free_app, in_free_cons in Hna.
    assert (¬ (x.1 ≤ a < x.1 + 16 * x.2)) by tauto. rewrite Hm2 by lia. apply Hm1. lia.
Qed.

Lemma take_ok h T x B n : heap_inv h (T ++ x :: B) → 1 ≤ n ≤ x.2 →
  ∃ h' bs' y, take_units (pred T) x.1 n h = Ok (y.1 + 16) h' ∧ took h h' (T ++ x :: B) bs' y ∧ y.2 = n.
Proof.
  intros Hi Hn. destruct (decide (n = x.2)) as [->|Hne].
  - destruct (take_all h T x B Hi) as (h' & E & Ht). by exists h', (T ++ B), x.
  - destruct (take_part h T x B n Hi ltac:(lia)) as (h' & E & Ht). by eexists h', _, (_, n).
Qed.

(** The loop passes blocks that are too small. *)
Lemma mloop_skip h e n l fuel prevp :
  chain (hp_mem h) l e → Forall (λ y, y.2 < n ∧ y.1 ≠ freep h) l →
  malloc_loop limit (length l + fuel) prevp (first l e) n h =
  malloc_loop limit fuel (default prevp (fst <$> last l)) e n h.
Proof.
  revert prevp. induction l as [|x l IH]; intros prevp Hc Hl; [done|].
  destruct Hc as (Hp & Hs & Hc). apply Forall_cons in Hl as [[Hx Hfp] Hl].
  cbn [length plus malloc_loop]. change (first (x :: l) e) with x.1. rewrite bind_gets.
  change (hsize x.1 h = x.2) in Hs. rewrite Hs, Z.geb_leb, (proj2 (Z.leb_gt _ _)) by lia.
  rewrite bind_gets, (proj2 (Z.eqb_neq _ _)) by done. rewrite bind_gets.
  change (hptr x.1 h = first l e) in Hp. rewrite Hp, IH by done. destruct l; [done|].
  rewrite last_cons_cons. destruct (last (p :: l)) eqn:E; [done|]. by apply last_None in E.
Qed.

Lemma first_fit n (l : list node) :
  Forall (λ y, y.2 < n) l ∨ ∃ l1 x l2, l = l1 ++ x :: l2 ∧ Forall (λ y, y.2 < n) l1 ∧ n ≤ x.2.
Proof.
  induction l as [|x l [IH|(l1 & y & l2 & -> & H1 & H2)]]; [by left|..]; destruct (decide (n ≤ x.2)) as [Hx|Hx].
  - right. by exists [], x, l.
  - left. apply Forall_cons. split; [lia|done].
  - right. by exists [], x, (l1 ++ y :: l2).
  - right. exists (x :: l1), y, l2. split; [done|]. split; [|done]. apply Forall_cons. split; [lia|done].
Qed.

(** The ring from the block behind [freep] on, which is the order of the search. *)
Lemma ring_order h bs : heap_inv h bs → ∃ X f Y, (base, 0) :: bs = X ++ f :: Y ∧ f.1 = freep h ∧
  Forall (λ y, y.1 ≠ freep h) (Y ++ X) ∧ chain (hp_mem h) (Y ++ X) (freep h) ∧
  hptr (freep h) h = first (Y ++ X) (freep h) ∧ hsize (freep h) h = f.2.
Proof.
  intros Hi. pose proof (hi_freep _ _ Hi) as Hin. change (base :: bs.*1) with (((base, 0) :: bs).*1) in Hin.
  apply list_elem_of_fmap in Hin as (f & Ef & Hf). apply list_elem_of_split in Hf as (X & Y & E).
  exists X, f, Y. pose proof (hi_chain _ _ Hi) as Hc. pose proof (hi_apart _ _ Hi) as Ha.
  pose proof (ring_nonneg _ _ Hi) as Hn. rewrite E in Hc, Ha, Hn.
  destruct (apart_mid _ _ _ Ha Hn) as [H1 H2]. rewrite Forall_app, Forall_cons in Hn. destruct Hn as (_ & Hf0 & _).
  apply chain_app in Hc as [Hc1 (Hfp & Hfs & Hc2)]. rewrite Ef.
  assert (first (X ++ [f]) 0 = base) as Eb.
  { destruct X as [|b X]; cbn in E |- *; by simplify_eq. }
  split_and!; try done.
  - rewrite Forall_app, !Forall_forall. split; intros y Hy; [specialize (H2 y Hy)|specialize (H1 y Hy)]; lia.
  - apply chain_app. split; [|done]. destruct X as [|b X]; cbn in Eb |- *; by rewrite Eb.
  - unfold hptr. rewrite Hfp. destruct Y as [|y Y]; [|done]. destruct X as [|b X]; cbn in Eb |- *; by rewrite Eb.
Qed.

(** Where a block that fits is in the ring. *)
Lemma order_pred X f Y l1 x l2 bs n : (base, 0) :: bs = X ++ f :: Y → (Y ++ X) ++ [f] = l1 ++ x :: l2 →
  1 ≤ n ≤ x.2 → ∃ T B, bs = T ++ x :: B ∧ default f.1 (fst <$> last l1) = pred T.
Proof.
  intros E Eo Hn. rewrite <- app_assoc in Eo.
  assert (∀ z l, X ++ [f] = z :: l → z = (base, 0)) as Hhd by (intros z l; destruct X; cbn in E |- *; intros; by simplify_eq).
  assert ((base, 0) :: bs = (X ++ [f]) ++ Y) as E' by (rewrite <- app_assoc; exact E).
  apply app_eq_inv in Eo as [(k & -> & Ek)|(k & -> & Ek)].
  - destruct k as [|z k]; cbn in Ek.
    + symmetry in Ek. apply Hhd in Ek as ->. cbn in Hn. lia.
    + injection Ek as <- ->. 
      destruct X as [|b X]; cbn in E; injection E as <- ->.
      * exists l1, k. split; [done|]. done.
      * exists (X ++ f :: l1), k. split; [by rewrite <- app_assoc|]. unfold pred.
        rewrite last_app_cons. destruct (last l1) as [q|] eqn:El; [|by apply last_None in El as ->].
        destruct l1; [done|]. rewrite last_cons_cons, El. done.
  - destruct k as [|b k]; cbn in Ek; [apply Hhd in Ek as ->; cbn in Hn; lia|].
    pose proof (Hhd _ _ Ek) as ->. rewrite Ek in E'. cbn in E'. injection E' as ->.
    exists k, (l2 ++ Y). split; [by rewrite <- app_assoc|]. unfold pred. rewrite last_app_cons.
    destruct k as [|b k]; [done|]. rewrite last_cons_cons. destruct (last (b :: k)) eqn:El; [done|].
    by apply last_None in El.
Qed.

Lemma chain_size m l e x : chain m l e → x ∈ l → ld32 m (x.1 + 8) = x.2.
Proof.
  induction l as [|y l IH]; [set_solver|]. intros (_ & Hs & Hc) [->|Hx]%elem_of_cons; [done|by apply IH].
Qed.

Lemma search_hit h bs n fuel : heap_inv h bs → 1 ≤ n → (∃ x, x ∈ bs ∧ n ≤ x.2) → (length bs < fuel)%nat →
  ∃ h' bs' y, malloc_loop limit fuel (freep h) (hptr (freep h) h) n h = Ok (y.1 + 16) h' ∧
    took h h' bs bs' y ∧ y.2 = n.
Proof.
  intros Hi Hn (z & Hz & Hzn) Hf. destruct (ring_order _ _ Hi) as (X & f & Y & E & Ef & Hne & Hc & Hp & Hs).
  pose proof (f_equal length E) as El. rewrite length_app in El. cbn in El.
  destruct (first_fit n ((Y ++ X) ++ [f])) as [Hall|(l1 & x & l2 & Eo & Hl1 & Hx)].
  { rewrite Forall_forall in Hall. specialize (Hall z).
    assert (z ∈ (base, 0) :: bs) as Hz' by set_solver. rewrite E in Hz'. specialize (Hall ltac:(set_solver)). lia. }
  destruct (order_pred _ _ _ _ _ _ _ n E Eo ltac:(lia)) as (T & B & -> & Epred).
  destruct (exists_last (l := x :: l2)) as (k & f' & Ek); [done|].
  rewrite Ek, app_assoc in Eo. apply app_inj_tail in Eo as [Eo <-]. rewrite Eo in Hc, Hne.
  apply chain_app in Hc as [Hc1 _]. apply Forall_app in Hne as [Hne _].
  assert (first k (freep h) = x.1) as Ex by (destruct k; cbn in Ek; injection Ek as -> ->; cbn; done).
  assert (length l1 + length k < fuel)%nat as Hlf.
  { rewrite length_app in Hf. cbn in Hf. apply (f_equal length) in Eo. rewrite !length_app in Eo. rewrite length_app in El. cbn in El. lia. }
  replace fuel with (length l1 + S (fuel - length l1 - 1))%nat by lia. rewrite Hp, Eo.
  change (default (freep h) (fst <$> head k)) with (first k (freep h)) in Hc1. rewrite Ex in Hc1.
  replace (first (l1 ++ k) (freep h)) with (first l1 x.1) by (destruct l1; [by rewrite <- Ex|done]).
  rewrite mloop_skip; [|done|by apply Forall_and].
  rewrite <- Ef, Epred. cbn [malloc_loop]. rewrite bind_gets.
  assert (hsize x.1 h = x.2) as ->.
  { eapply chain_size; [apply (hi_chain _ _ Hi)|set_solver]. }
  rewrite Z.geb_leb, (proj2 (Z.leb_le _ _)) by lia. apply take_ok; [done|lia].
Qed.

Lemma search_miss h bs n fuel : heap_inv h bs → 1 ≤ n → Forall (λ x, x.2 < n) bs →
  malloc_loop limit (length bs + S fuel) (freep h) (hptr (freep h) h) n h =
  (p ← morecore limit fuel n;
   if p =? 0 then ret 0 else nx ← gets (hptr p); malloc_loop limit fuel p nx n) h.
Proof.
  intros Hi Hn Hall. destruct (ring_order _ _ Hi) as (X & f & Y & E & Ef & Hne & Hc & Hp & Hs).
  pose proof (f_equal length E) as El. rewrite length_app in El. cbn in El.
  assert (Forall (λ x, x.2 < n) ((base, 0) :: bs)) as Hr by (apply Forall_cons; split; [cbn; lia|done]).
  rewrite E, Forall_app, Forall_cons in Hr. destruct Hr as (Hr1 & Hr2 & Hr3).
  replace (length bs) with (length (Y ++ X)) by (rewrite length_app; lia).
  rewrite Hp, mloop_skip; [|done|apply Forall_and; split; [by apply Forall_app|done]].
  cbn [malloc_loop]. rewrite bind_gets, Hs, Z.geb_leb, (proj2 (Z.leb_gt _ _)) by lia.
  by rewrite bind_gets, Z.eqb_refl.
Qed.

(** [morecore] makes the memory the system gives a free block. *)
Lemma morecore_ok h bs n fuel : heap_inv h bs → 1 ≤ n → 16 * n < 2 ^ 31 → (2 * length bs + 2 ≤ fuel)%nat →
  let nu := Z.max n 4096 in
  (limit < brk h + 16 * nu ∧ morecore limit fuel n h = Ok 0 h) ∨
  ∃ h' bs', morecore limit fuel n h = Ok (freep h') h' ∧ heap_inv h' bs' ∧ brk h' = brk h + 16 * nu ∧
    (∀ a, in_free bs' a ↔ in_free bs a ∨ brk h ≤ a < brk h') ∧
    (∀ a, ¬ in_free bs' a → ¬ (base ≤ a < base + 16) → ld8 (hp_mem h') a = ld8 (hp_mem h) a) ∧
    (∃ y, y ∈ bs' ∧ nu ≤ y.2) ∧ (length bs' ≤ S (length bs))%nat.
Proof.
  intros Hi Hn H16 Hf nu. unfold morecore.
  replace (if n <? 4096 then 4096 else n) with nu by (unfold nu; case_if; bool_to_prop; lia).
  assert (1 ≤ nu ∧ 16 * nu < 2 ^ 31) as [Hnu1 Hnu2] by lia.
  assert (i32 (u64 (nu * sizeof_Header)) = 16 * nu) as ->.
  { unfold sizeof_Header. rewrite u64_small, i32_small; lia. }
  pose proof (hi_brk _ _ Hi) as Hk. unfold sbrk.
  destruct (decide (brk h + 16 * nu ≤ limit)) as [Hle|Hgt]; [right|left]; clearbody nu.
  2: { split; [lia|]. rewrite (bind_ok _ _ h (-1) h); [done|]. rewrite bind_gets.
       rewrite (proj2 (Z.gtb_lt _ _)), (proj2 (Z.leb_gt _ _)) by lia. done. }
  set (h1 := set_brk (brk h + 16 * nu) h).
  rewrite (bind_ok _ _ h (brk h) h1).
  2: { rewrite bind_gets. rewrite (proj2 (Z.gtb_lt _ _)), (proj2 (Z.leb_le _ _)) by lia. done. }
  rewrite (proj2 (Z.eqb_neq _ _)) by lia.
  destruct (put_size_header (brk h) nu h1) as (h2 & E2 & O2 & S2 & P2). rewrite (bind_ok _ _ _ _ _ E2).
  pose proof O2 as (Hfp2 & Hbrk2 & Hm2). cbn in Hfp2, Hbrk2.
  assert (heap_inv h2 bs) as Hi2.
  { destruct Hi as [Hic Hia Hib Hif Hik]. split; [|done|rewrite Hbrk2; eapply Forall_impl; [exact Hib|]|by rewrite Hfp2|lia].
    - eapply (chain_only_header (brk h) h1); [done| |exact Hic]. intros x [->|Hx]%elem_of_cons; [cbn; lia|].
      rewrite Forall_forall in Hib. destruct (Hib x Hx) as (? & ? & ?). lia.
    - intros x (? & ? & ?). split_and!; lia. }
  destruct (free_ok h2 bs (brk h, nu) fuel) as (h3 & bs' & E3 & [F1 F2 F3 F4 F5 F6]); cbn [fst snd]; try done.
  - rewrite S2. apply u32_small. lia.
  - split_and!; cbn [fst snd]; lia.
  - intros a Ha (x & Hx & Hxa). cbn [fst snd] in *. pose proof (hi_blocks _ _ Hi) as Hb. rewrite Forall_forall in Hb.
    destruct (Hb x Hx) as (? & ? & ?). lia.
  - exists h3, bs'. change (brk h + 16) with (brk h + sizeof_Header) in E3. rewrite (bind_ok _ _ _ _ _ E3).
    cbn [fst snd] in *. rewrite Hbrk2 in F2. rewrite F2. split_and!; try done.
    intros a Hna Hnb. rewrite F4 by done. apply Hm2. intros Hb. apply Hna, F3. right. lia.
Qed.

(** The heap before the first [malloc] has no ring yet. *)
Definition heap_ok (h : heap) (bs : list node) : Prop :=
  heap_inv h bs ∨ (freep h = 0 ∧ bs = [] ∧ lo ≤ brk h ≤ limit).

(** The heap after the block [y] was handed out, maybe with more memory. *)
Record got (h h' : heap) (bs bs' : list node) (y : node) : Prop := {
  gt_inv : heap_inv h' bs';
  gt_brk : brk h ≤ brk h';
  gt_block : block_ok (brk h') y;
  gt_size : hsize y.1 h' = y.2;
  gt_from : ∀ a, y.1 ≤ a < y.1 + 16 * y.2 → in_free bs a ∨ brk h ≤ a;
  gt_cells : ∀ a, in_free bs' a → (in_free bs a ∨ brk h ≤ a) ∧ ¬ (y.1 ≤ a < y.1 + 16 * y.2);
  gt_mem : ∀ a, ¬ in_free bs a → lo ≤ a < brk h → ld8 (hp_mem h') a = ld8 (hp_mem h) a;
}.

Lemma took_got h0 h h' bs0 bs bs' y :
  brk h0 ≤ brk h → (∀ a, in_free bs a → in_free bs0 a ∨ brk h0 ≤ a) →
  (∀ a, ¬ in_free bs0 a → lo ≤ a < brk h0 → ¬ in_free bs a ∧ ld8 (hp_mem h) a = ld8 (hp_mem h0) a) →
  took h h' bs bs' y → got h0 h' bs0 bs' y.
Proof.
  intros Hb Hf Hm [T1 T2 T3 T4 T5 T6 T7]. split; try done.
  - lia.
  - by rewrite T2.
  - intros a Ha. by apply Hf, T5.
  - intros a Ha. apply T6 in Ha as [Ha ?]. split; [by apply Hf|done].
  - intros a Hna Ha. destruct (Hm a Hna Ha) as [H1 <-]. apply T7; [done|lia].
Qed.

(** From an initialised heap: a block, or nothing when memory runs out. *)
Lemma malloc_from h bs n fuel : heap_inv h bs → 1 ≤ n → 16 * n < 2 ^ 31 → (3 * length bs + 5 ≤ fuel)%nat →
  let r := malloc_loop limit fuel (freep h) (hptr (freep h) h) n h in
  (r = Ok 0 h ∧ limit < brk h + 16 * Z.max n 4096) ∨
  ∃ h' bs' y, r = Ok (y.1 + 16) h' ∧ got h h' bs bs' y ∧ y.2 = n.
Proof.
  intros Hi Hn H16 Hf r. unfold r. clear r.
  destruct (first_fit n bs) as [Hall|(l1 & x & l2 & Eb & _ & Hx)].
  - replace fuel with (length bs + S (fuel - length bs - 1))%nat by lia. rewrite search_miss by done.
    destruct (morecore_ok h bs n (fuel - length bs - 1) Hi Hn H16 ltac:(lia))
      as [[Hlt E]|(h1 & bs1 & E & Hi1 & Hbrk & Hcells & Hmem & Hbig & Hlen)].
    { left. by rewrite (bind_ok _ _ _ _ _ E). }
    right. rewrite (bind_ok _ _ _ _ _ E).
    pose proof (freep_pos _ _ Hi1) as Hfp.
    rewrite (proj2 (Z.eqb_neq _ _)) by lia. rewrite bind_gets.
    destruct (search_hit h1 bs1 n (fuel - length bs - 1) Hi1 Hn) as (h' & bs' & y & E2 & Ht & Hy).
    { destruct Hbig as (y & Hy & Hge). exists y. split; [done|lia]. }
    { lia. }
    exists h', bs', y. split; [done|]. split; [|done]. eapply took_got; [..|exact Ht].
    + lia.
    + intros a [?|?]%Hcells; [by left|right; lia].
    + intros a Hna Ha. assert (¬ in_free bs1 a) as Hna1 by (intros [?|?]%Hcells; [done|lia]).
      split; [done|]. apply Hmem; [done|lia].
  - right. destruct (search_hit h bs n fuel Hi Hn) as (h' & bs' & y & E2 & Ht & Hy); [|lia|].
    { exists x. split; [rewrite Eb; set_solver|done]. }
    exists h', bs', y. split; [done|]. split; [|done]. eapply took_got; [..|exact Ht]; [done|by left|done].
Qed.

Lemma units_of_room nbytes : 0 ≤ nbytes ≤ 2 ^ 31 - 32 →
  1 ≤ units_of nbytes ∧ 16 * units_of nbytes < 2 ^ 31 ∧ nbytes + 16 ≤ 16 * units_of nbytes.
Proof.
  intros Hn. unfold units_of, sizeof_Header. rewrite u64_small by lia. rewrite u32_small by (split; [|]; zlia). zlia.
Qed.

(** The first [malloc] makes the ring of [base] alone. *)
Lemma malloc_init h : freep h = 0 → lo ≤ brk h ≤ limit → ∃ h1, heap_inv h1 [] ∧ brk h1 = brk h ∧
  (∀ a, ¬ (base ≤ a < base + 16) → ld8 (hp_mem h1) a = ld8 (hp_mem h) a) ∧
  ∀ fuel nbytes, malloc base limit fuel nbytes h =
    malloc_loop limit fuel (freep h1) (hptr (freep h1) h1) (units_of nbytes) h1.
Proof.
  intros Hfp Hbrk. destruct (put_ptr_header base base h) as (h1 & E1 & (A1 & A2 & A3) & P1 & S1).
  destruct (put_size_header base 0 (set_freep base h1)) as (h2 & E2 & (B1 & B2 & B3) & S2 & P2).
  cbn in B1, B2, B3. exists h2. split; [|split; [congruence|split]].
  - split; [|done|done|rewrite B1; left|congruence]. cbn [chain]. split; [|split; [exact S2|done]].
    etrans; [exact P2|]. etrans; [exact P1|]. apply u64_small. cbn. lia.
  - intros a Ha. by rewrite B3, A3.
  - intros fuel nbytes. unfold malloc. rewrite bind_gets, Hfp. cbn [Z.eqb].
    rewrite (bind_ok _ _ h base h2); [by rewrite bind_gets, B1|].
    rewrite (bind_ok _ _ _ _ _ E1), bind_modify, (bind_ok _ _ _ _ _ E2). done.
Qed.

(** What [malloc] does. *)
Lemma malloc_ok h bs nbytes fuel : heap_ok h bs → 0 ≤ nbytes ≤ 2 ^ 31 - 32 → (3 * length bs + 5 ≤ fuel)%nat →
  (∃ h', malloc base limit fuel nbytes h = Ok 0 h' ∧ heap_inv h' bs ∧ brk h' = brk h ∧
     limit < brk h + 16 * Z.max (units_of nbytes) 4096 ∧
     ∀ a, lo ≤ a → ld8 (hp_mem h') a = ld8 (hp_mem h) a) ∨
  ∃ h' bs' y, malloc base limit fuel nbytes h = Ok (y.1 + 16) h' ∧ got h h' bs bs' y ∧ y.2 = units_of nbytes.
Proof.
  intros Hok Hn Hf. destruct (units_of_room nbytes Hn) as (H1 & H2 & H3). destruct Hok as [Hi|(Hfp & -> & Hbrk)].
  - assert (malloc base limit fuel nbytes h = malloc_loop limit fuel (freep h) (hptr (freep h) h) (units_of nbytes) h) as ->.
    { pose proof (freep_pos _ _ Hi) as Hfp. unfold malloc. rewrite bind_gets, (proj2 (Z.eqb_neq _ _)) by lia. by rewrite bind_ret, bind_gets. }
    destruct (malloc_from h bs (units_of nbytes) fuel Hi H1 H2 Hf) as [[-> Hlt]|(h' & bs' & y & -> & Hg & Hy)].
    + left. by exists h.
    + right. by exists h', bs', y.
  - destruct (malloc_init h Hfp Hbrk) as (h1 & Hi & Hb1 & Hm & E). rewrite E.
    destruct (malloc_from h1 [] (units_of nbytes) fuel Hi H1 H2 Hf) as [[-> Hlt]|(h' & bs' & y & -> & Hg & Hy)].
    + left. exists h1. rewrite Hb1 in Hlt. split_and!; try done. intros a Ha. apply Hm. lia.
    + right. exists h', bs', y. split; [done|]. split; [|done]. destruct Hg as [G1 G2 G3 G4 G5 G6 G7].
      rewrite Hb1 in *. split; try done. intros a Hna Ha. rewrite G7 by done. apply Hm. lia.
Qed.

(** ** A program that allocates *)

(** [owned]: the allocations the program holds, as the addresses [malloc]
    returned and the sizes it asked for; [stored]: what it last stored there. *)
Record client := Client { cl_heap : heap; owned : list node; stored : Z → option Z }.

(** The block behind an allocation. *)
Definition block_of (p : node) : node := (p.1 - 16, units_of p.2).

Inductive client_step : client → client → Prop :=
  | client_malloc fuel nbytes r h h' o st :
      0 ≤ nbytes ≤ 2 ^ 31 - 32 → malloc base limit fuel nbytes h = Ok r h' → r ≠ 0 →
      client_step (Client h o st)
        (Client h' ((r, nbytes) :: o) (λ a, if (r <=? a) && (a <? r + nbytes) then None else st a))
  | client_malloc_fails fuel nbytes h h' o st :
      0 ≤ nbytes ≤ 2 ^ 31 - 32 → malloc base limit fuel nbytes h = Ok 0 h' →
      client_step (Client h o st) (Client h' o st)
  | client_free fuel p h h' o o' st :
      free fuel p.1 h = Ok tt h' →
      client_step (Client h (o ++ p :: o') st) (Client h' (o ++ o') st)
  | client_store p a v h o st :
      p ∈ o → p.1 ≤ a < p.1 + p.2 →
      client_step (Client h o st)
        (Client (set_hp_mem (st8 (hp_mem h) a v) h) o (λ b, if b =? a then Some (u8 v) else st b)).

(** A program starts with no heap. *)
Definition client_init (c : client) : Prop :=
  freep (cl_heap c) = 0 ∧ lo ≤ brk (cl_heap c) ≤ limit ∧ owned c = [] ∧ ∀ a, stored c a = None.

Definition reached (c : client) : Prop := ∃ c0, client_init c0 ∧ rtc client_step c0 c.

(** Two blocks, or two allocations of [w]-byte units, side by side. *)
Definition beside (w : Z) (x y : node) : Prop := x.1 + w * x.2 ≤ y.1 ∨ y.1 + w * y.2 ≤ x.1.
Fixpoint separate (w : Z) (l : list node) : Prop :=
  match l with x :: l => Forall (beside w x) l ∧ separate w l | [] => True end.

Lemma separate_mid w l x l' : separate w (l ++ x :: l') ↔ separate w (l ++ l') ∧ Forall (beside w x) (l ++ l').
Proof.
  induction l as [|y l IH]; cbn; [tauto|]. rewrite !Forall_app, !Forall_cons, IH, Forall_app.
  assert (beside w y x ↔ beside w x y) by (unfold beside; tauto). tauto.
Qed.

Record client_inv (c : client) (bs : list node) : Prop := {
  ci_heap : heap_ok (cl_heap c) bs;
  ci_fresh : freep (cl_heap c) = 0 → owned c = [];
  ci_req : Forall (λ p, 0 ≤ p.2 ≤ 2 ^ 31 - 32) (owned c);
  ci_blocks : Forall (λ p, block_ok (brk (cl_heap c)) (block_of p)) (owned c);
  ci_clear : Forall (λ p, clear bs (block_of p)) (owned c);
  ci_sizes : Forall (λ p, hsize (p.1 - 16) (cl_heap c) = units_of p.2) (owned c);
  ci_apart : separate 16 (block_of <$> owned c);
  ci_stored : ∀ p a v, p ∈ owned c → p.1 ≤ a < p.1 + p.2 → stored c a = Some v → ld8 (hp_mem (cl_heap c)) a = v;
}.

Lemma payload p : 0 ≤ p.2 ≤ 2 ^ 31 - 32 → p.1 + p.2 ≤ (block_of p).1 + 16 * (block_of p).2.
Proof. intros H. destruct (units_of_room _ H) as (? & ? & ?). cbn. lia. Qed.

(** The invariant is about the free cells and the cells of the blocks the program holds. *)
Lemma client_inv_keep h h' o st bs bs' st' :
  client_inv (Client h o st) bs → heap_inv h' bs' → brk h ≤ brk h' →
  (∀ p a, p ∈ o → (block_of p).1 ≤ a < (block_of p).1 + 16 * (block_of p).2 →
     ¬ in_free bs' a ∧ ld8 (hp_mem h') a = ld8 (hp_mem h) a) →
  (∀ p a, p ∈ o → p.1 ≤ a < p.1 + p.2 → st' a = st a) →
  client_inv (Client h' o st') bs'.
Proof.
  intros [C1 C0 C2 C3 C4 C5 C6 C7] Hi Hb Hin Hst. pose proof (freep_pos _ _ Hi).
  cbn [cl_heap owned stored] in *. rewrite !Forall_forall in *.
  split; cbn [cl_heap owned stored]; rewrite ?Forall_forall; try done; [by left|lia|..].
  - intros p Hp. destruct (C3 p Hp) as (? & ? & ?). split_and!; lia.
  - intros p Hp a Ha. by apply (Hin p a).
  - intros p Hp. rewrite <- (C5 p Hp). apply ld32_agree. intros b Hb'. apply (Hin p); [done|].
    destruct (C3 p Hp) as (? & _). cbn in *. lia.
  - intros p a v Hp Ha Hs. destruct (Hin p a Hp) as [_ ->].
    + pose proof (payload p (C2 p Hp)). cbn in *. lia.
    + apply (C7 p a v Hp Ha). by rewrite <- (Hst p a Hp Ha).
Qed.

Lemma separate_elem w l x y : separate w l → x ∈ l → y ∈ l → x = y ∨ beside w x y.
Proof.
  induction l as [|z l IH]; [set_solver|]. intros [Hz Hl]. rewrite Forall_forall in Hz. unfold beside in *.
  intros [->|Hx]%elem_of_cons [->|Hy]%elem_of_cons; [by left| | |by auto];
    right; [specialize (Hz y Hy)|specialize (Hz x Hx)]; tauto.
Qed.

Lemma client_malloc_inv fuel nbytes r h h' o st bs :
  client_inv (Client h o st) bs → 0 ≤ nbytes ≤ 2 ^ 31 - 32 → malloc base limit fuel nbytes h = Ok r h' →
  ∃ bs', if r =? 0 then client_inv (Client h' o st) bs'
    else client_inv (Client h' ((r, nbytes) :: o)
      (λ a, if (r <=? a) && (a <? r + nbytes) then None else st a)) bs'.
Proof.
  intros Hc Hn E. apply (malloc_mono _ _ _ (3 * length bs + 5)) in E.
  pose proof Hc as [C1 C0 C2 C3 C4 C5 C6 C7]. cbn [cl_heap owned stored] in *. rewrite !Forall_forall in *.
  destruct (malloc_ok h bs nbytes (fuel + (3 * length bs + 5)) C1 Hn ltac:(lia))
    as [(h1 & E1 & Hi & Hb & _ & Hm)|(h1 & bs' & [b n] & E1 & [G1 G2 G3 G4 G5 G6 G7] & Hy)];
    rewrite E in E1; injection E1 as -> ->.
  - exists bs. change (0 =? 0) with true. eapply client_inv_keep; [done|done|lia| |done]. intros p a Hp Ha.
    destruct (C3 p Hp) as (? & ? & ?). split; [by apply (C4 p Hp)|]. apply Hm. lia.
  - exists bs'. cbn [fst snd] in *. rewrite Hy in G3, G4, G5, G6. pose proof G3 as (? & ? & ?). cbn [fst snd] in *.
    rewrite (proj2 (Z.eqb_neq _ _)) by lia.
    assert (∀ p a, p ∈ o → (block_of p).1 ≤ a < (block_of p).1 + 16 * (block_of p).2 →
      ¬ in_free bs a ∧ lo ≤ a < brk h) as Hold.
    { intros p a Hp Ha. destruct (C3 p Hp) as (? & ? & ?). split; [by apply (C4 p Hp)|lia]. }
    assert (∀ p a, p ∈ o → (block_of p).1 ≤ a < (block_of p).1 + 16 * (block_of p).2 →
      ¬ (b ≤ a < b + 16 * units_of nbytes)) as Hdis.
    { intros p a Hp Ha Hba. destruct (Hold p a Hp Ha). destruct (G5 a Hba); [done|lia]. }
    destruct (units_of_room nbytes Hn) as (U1 & U2 & U3).
    destruct (client_inv_keep h h1 o st bs bs' (λ a, if (b + 16 <=? a) && (a <? b + 16 + nbytes) then None else st a) Hc G1)
      as [D1 D0 D2 D3 D4 D5 D6 D7]; try done.
    { intros p a Hp Ha. destruct (Hold p a Hp Ha) as [Hf Hr]. split; [|by apply G7]. intros [[?|?] _]%G6; [done|lia]. }
    { intros p a Hp Ha. pose proof (payload p (C2 p Hp)) as Hpay. pose proof (Hdis p a Hp) as Hd. cbn [block_of fst snd] in Hd, Hpay.
      rewrite (proj2 (andb_false_iff _ _)); [done|]. rewrite Z.leb_gt, Z.ltb_ge. lia. }
    assert (block_of (b + 16, nbytes) = (b, units_of nbytes)) as Eb by (unfold block_of; cbn [fst snd]; f_equal; lia).
    cbn [cl_heap owned stored] in *. split; cbn [cl_heap owned stored]; rewrite ?Forall_cons; try done.
    + pose proof (freep_pos _ _ G1). lia.
    + by rewrite Eb.
    + split; [|done]. rewrite Eb. intros a Ha [_ ?]%G6. done.
    + split; [|done]. cbn [fst snd]. by replace (b + 16 - 16) with b by lia.
    + rewrite fmap_cons. split; [|done]. rewrite Eb. apply Forall_fmap, Forall_forall. intros p Hp.
      pose proof (Hdis p (Z.max b (p.1 - 16)) Hp) as Hd. destruct (C3 p Hp) as (? & ? & ?).
      unfold beside, compose. cbn [block_of fst snd] in *. lia.
    + intros p a v [->|Hp]%elem_of_cons Ha; [|by eapply D7]. cbn [fst snd] in Ha.
      rewrite (proj2 (Z.leb_le _ _)), (proj2 (Z.ltb_lt _ _)) by lia. done.
Qed.

Lemma client_free_inv fuel p h h' o o' st bs :
  client_inv (Client h (o ++ p :: o') st) bs → free fuel p.1 h = Ok tt h' →
  ∃ bs', client_inv (Client h' (o ++ o') st) bs'.
Proof.
  intros [C1 C0 C2 C3 C4 C5 C6 C7] E. cbn [cl_heap owned stored] in *. apply (free_mono _ (2 * length bs + 2)) in E.
  destruct C1 as [Hi|(Hfp & _)]; [|specialize (C0 Hfp); by destruct o].
  rewrite fmap_app, fmap_cons, separate_mid, <- fmap_app in C6. destruct C6 as [C6 Hap]. rewrite Forall_fmap in Hap.
  rewrite Forall_app, Forall_cons in C2, C3, C4, C5.
  destruct C2 as (? & Hp2 & ?), C3 as (? & Hp3 & ?), C4 as (? & Hp4 & ?), C5 as (? & Hp5 & ?).
  destruct (free_ok h bs (block_of p) (fuel + (2 * length bs + 2)) Hi Hp5 Hp3 Hp4 ltac:(lia))
    as (h1 & bs' & E1 & [F1 F2 F3 F4 F5 F6]).
  replace ((block_of p).1 + 16) with p.1 in E1 by (cbn [block_of fst snd]; lia). rewrite E in E1. injection E1 as <-.
  exists bs'. apply (client_inv_keep h h' (o ++ o') st bs bs' st); [|done|lia| |done].
  - split; cbn [cl_heap owned stored]; rewrite ?Forall_app; try done; [by left| |set_solver].
    intros Hz. pose proof (freep_pos _ _ Hi). lia.
  - intros q a Hq Ha. rewrite Forall_forall in Hap. specialize (Hap q Hq). unfold beside, compose in Hap.
    assert (clear bs (block_of q) ∧ block_ok (brk h) (block_of q)) as [Hcl (? & ? & ?)].
    { rewrite Forall_forall in *. apply elem_of_app in Hq as [Hq|Hq]; auto. }
    assert (¬ in_free bs' a) as Hna by (intros [?|?]%F3; [by eapply Hcl|lia]).
    split; [done|]. apply F4; [done|lia].
Qed.

Lemma client_store_inv p a v h o st bs :
  client_inv (Client h o st) bs → p ∈ o → p.1 ≤ a < p.1 + p.2 →
  client_inv (Client (set_hp_mem (st8 (hp_mem h) a v) h) o (λ b, if b =? a then Some (u8 v) else st b)) bs.
Proof.
  intros [C1 C0 C2 C3 C4 C5 C6 C7] Hp Ha. cbn [cl_heap owned stored] in *.
  assert (∀ b, b ≠ a → ld8 (st8 (hp_mem h) a v) b = ld8 (hp_mem h) b) as Hne by (intros; by apply ld8_st8_ne).
  rewrite !Forall_forall in *. pose proof (payload p (C2 p Hp)) as Hpay. pose proof (C3 p Hp) as Hb.
  split; cbn [cl_heap owned stored]; rewrite ?Forall_forall; try done.
  - destruct C1 as [[I1 I2 I3 I4 I5]|?]; [left|by right]. split; try done. cbn [hp_mem set_hp_mem].
    eapply chain_agree; [|exact I1]. intros x b Hx Hxb. apply Hne. intros ->.
    destruct (ring_node h bs x) as [->|[Hin (? & ? & ?)]]; [by split|done|..].
    + destruct Hb as (? & ? & ?). cbn [block_of fst snd] in *. lia.
    + apply (C4 p Hp a); [cbn [block_of fst snd] in *; lia|]. exists x. split; [done|lia].
  - intros q Hq. rewrite <- (C5 q Hq). apply ld32_agree. intros b Hb'. apply Hne.
    destruct (separate_elem 16 _ _ _ C6 (list_elem_of_fmap_2 block_of _ _ Hp) (list_elem_of_fmap_2 block_of _ _ Hq)) as [Eq|Hs].
    + injection Eq as Eq _. lia.
    + destruct (C3 q Hq) as (? & ? & ?). unfold beside in Hs. cbn [block_of fst snd] in *. lia.
  - intros q b w Hq Hqb. destruct (b =? a) eqn:E; bool_to_prop.
    + intros [= <-]. rewrite E. apply ld8_st8_eq.
    + intros Hs. rewrite Hne by done. by apply (C7 q).
Qed.

Lemma reached_inv c : reached c → ∃ bs, client_inv c bs.
Proof.
  intros (c0 & (I1 & I2 & I3 & I4) & Hr). assert (∃ bs, client_inv c0 bs) as Hc0.
  { exists []. split; rewrite ?I3; try done; [by right|set_solver]. }
  clear I1 I2 I3 I4. induction Hr as [c|c1 c2 c3 Hst Hr IH]; [done|]. apply IH. clear IH Hr.
  destruct Hc0 as [bs Hc]. destruct Hst as [fuel nb r h h' o st Hn E Hr|fuel nb h h' o st Hn E|fuel p h h' o o' st E|p a v h o st Hp Ha].
  - destruct (client_malloc_inv _ _ _ _ _ _ _ _ Hc Hn E) as [bs' H]. rewrite (proj2 (Z.eqb_neq _ _)) in H by done. by exists bs'.
  - destruct (client_malloc_inv _ _ _ _ _ _ _ _ Hc Hn E) as [bs' H]. by exists bs'.
  - by eapply client_free_inv.
  - exists bs. by eapply client_store_inv.
Qed.

Lemma separate_payload o : Forall (λ p, 0 ≤ p.2 ≤ 2 ^ 31 - 32) o → separate 16 (block_of <$> o) → separate 1 o.
Proof.
  induction o as [|p o IH]; [done|]. intros [Hp Ho]%Forall_cons [Hs1 Hs2]. split; [|by apply IH].
  rewrite Forall_fmap, Forall_forall in Hs1. rewrite Forall_forall in *. intros q Hq.
  specialize (Hs1 q Hq). pose proof (payload p Hp). pose proof (payload q (Ho q Hq)).
  unfold beside, compose in *. cbn [block_of fst snd] in *. lia.
Qed.

(** C17: [malloc] and [free] isolate allocations.  However a program mixes calls
    of [malloc], calls of [free] for what it holds, and stores into what it
    holds, the allocations it holds never overlap, they lie inside the memory
    of the process, and each byte of them has the value last stored there:
    neither the bookkeeping nor a later allocation changes it. *)
Theorem malloc_isolates c : reached c →
  separate 1 (owned c) ∧
  Forall (λ p, lo + 16 ≤ p.1 ∧ p.1 + p.2 ≤ brk (cl_heap c)) (owned c) ∧
  ∀ p a v, p ∈ owned c → p.1 ≤ a < p.1 + p.2 → stored c a = Some v → ld8 (hp_mem (cl_heap c)) a = v.
Proof.
  intros (bs & [C1 C0 C2 C3 C4 C5 C6 C7])%reached_inv. split_and!; [by apply separate_payload| |done].
  rewrite Forall_forall in *. intros p Hp. destruct (C3 p Hp) as (? & ? & ?). pose proof (payload p (C2 p Hp)).
  cbn [block_of fst snd] in *. lia.
Qed.

(** C18: the loops of [malloc] and [free] end.  In every state a program can
    reach, [free] of an allocation it holds returns; [malloc] of up to
    [2^31 - 32] bytes returns, and returns 0 only when the process would grow
    over the limit.  [3 n + 5] turns are enough with [n] free blocks. *)
Theorem malloc_returns c : reached c → ∃ turns, ∀ fuel, (turns ≤ fuel)%nat →
  (∀ nbytes, 0 ≤ nbytes ≤ 2 ^ 31 - 32 → ∃ r h', malloc base limit fuel nbytes (cl_heap c) = Ok r h' ∧
     (r = 0 → limit < brk (cl_heap c) + 16 * Z.max (units_of nbytes) 4096)) ∧
  ∀ p, p ∈ owned c → ∃ h', free fuel p.1 (cl_heap c) = Ok tt h'.
Proof.
  intros (bs & [C1 C0 C2 C3 C4 C5 C6 C7])%reached_inv. exists (3 * length bs + 5)%nat. intros fuel Hf. split.
  - intros nb Hn. destruct (malloc_ok _ _ nb fuel C1 Hn Hf) as [(h' & E & _ & _ & Hl & _)|(h' & bs' & y & E & Hg & _)].
    + eauto.
    + exists (y.1 + 16), h'. split; [done|]. pose proof (gt_block _ _ _ _ _ Hg) as (? & ? & ?). lia.
  - intros p Hp. destruct C1 as [Hi|(Hfp & _)]; [|specialize (C0 Hfp); rewrite C0 in Hp; set_solver].
    rewrite Forall_forall in *.
    destruct (free_ok _ bs (block_of p) fuel Hi (C5 p Hp) (C3 p Hp) (C4 p Hp) ltac:(lia)) as (h' & bs' & E & _).
    exists h'. rewrite <- E. f_equal. cbn [block_of fst snd]. lia.
Qed.
(** A block of 4 GiB linked behind [base]: only headers are touched. *)
Lemma free_huge h fuel : limit < 2 ^ 35 → heap_inv h [] → hsize (brk h) h = 2 ^ 28 → (2 ≤ fuel)%nat →
  ∃ h', free fuel (brk h + 16) h = Ok tt h' ∧ freep h' = base ∧ brk h' = brk h ∧
    chain (hp_mem h') [(base, 0); (brk h, 2 ^ 28)] base.
Proof.
  intros Hl Hi Hs Hf. pose proof (hi_brk _ _ Hi) as Hk. pose proof (hi_chain _ _ Hi) as Hc.
  assert (free_find fuel (brk h + 16 - sizeof_Header) (freep h) h = Ok base h) as E0.
  { eapply (free_find_ok h [] [] (base, 0) []); [done|done|unfold sizeof_Header; cbn; lia|done|done]. }
  rewrite (free_halves _ _ _ _ E0). replace (brk h + 16 - sizeof_Header) with (brk h) by (unfold sizeof_Header; lia).
  destruct (free_up_ok h (brk h) (2 ^ 28) (base, 0) [] Hc Hs) as (h1 & E1 & O1 & C1); [lia..|done|].
  cbn [fst] in E1. rewrite (bind_ok _ _ _ _ _ E1). pose proof O1 as (P1 & P2 & P3).
  destruct (free_low_ok h1 (base, 0) (brk h, 2 ^ 28) [] C1) as (h2 & E2 & O2 & C2); cbn [fst snd]; try done; try lia.
  { destruct Hc as (_ & Hc & _). etrans; [|exact Hc]. apply ld32_agree. intros b Hb. apply P3. cbn in Hb. lia. }
  cbn [fst snd] in E2. rewrite (bind_ok _ _ _ _ _ E2). exists (set_freep base h2). split; [done|].
  split; [done|]. split; [destruct O2 as (_ & O2 & _); cbn; congruence|].
  unfold join in C2. cbn [fst snd] in C2. by rewrite (proj2 (Z.eqb_neq _ _)) in C2 by lia.
Qed.

End spec.

(** *** Witnesses *)
Definition ex_client : client :=
  match malloc 0x1000 0x100000 20 100 (Heap ∅ 0 0x4000) with
  | Ok p h => Client (set_hp_mem (st8 (hp_mem h) p 7) h) [(p, 100)]
                (λ b, if b =? p then Some (u8 7) else
                      if (p <=? b) && (b <? p + 100) then None else None)
  | _ => Client (Heap ∅ 0 0x4000) [] (λ _, None)
  end.

Lemma ex_client_reached : reached 0x1000 0x2000 0x100000 ex_client.
Proof.
  exists (Client (Heap ∅ 0 0x4000) [] (λ _, None)). split; [by split_and!|].
  unfold ex_client. destruct (malloc 0x1000 0x100000 20 100 (Heap ∅ 0 0x4000)) as [p h| | |] eqn:E; [|apply rtc_refl..].
  assert (p = 0x4000 + 65536 - 112) as Ep.
  { assert (match malloc 0x1000 0x100000 20 100 (Heap ∅ 0 0x4000) with Ok q _ => q | _ => 0 end = 0x4000 + 65536 - 112) as Q
      by (vm_compute; reflexivity). by rewrite E in Q. }
  eapply rtc_l; [eapply (client_malloc _ _ 20 100 p); [lia|exact E|lia]|].
  eapply rtc_l; [eapply (client_store _ _ (p, 100) p 7); [left|cbn; lia]|]. apply rtc_refl.
Qed.

Lemma malloc_isolates_witness : separate 1 (owned ex_client).
Proof.
  apply (malloc_isolates 0x1000 0x2000 0x100000 ltac:(lia) ltac:(lia) ltac:(lia) ex_client ex_client_reached).
Defined.

Lemma malloc_returns_witness : ∃ turns, ∀ fuel, (turns ≤ fuel)%nat →
  ∀ p, p ∈ owned ex_client → ∃ h', free fuel p.1 (cl_heap ex_client) = Ok tt h'.
Proof.
  destruct (malloc_returns 0x1000 0x2000 0x100000 ltac:(lia) ltac:(lia) ltac:(lia) ex_client ex_client_reached)
    as [turns H].
  exists turns. intros fuel Hf. apply (H fuel Hf).
Defined.

