(* ===== verification/Sh.v ===== *)
(** * The shell ([user/sh.c])

    The parser works on positions in the line: [s] and [es] are indices, and
    the strings of a command are pairs of positions, its first byte and the
    byte behind it.  [panic] in the parser is the result [PPanic]; [PLoop] is
    used-up fuel.  [nulterminate] and everything after it work on the process's
    memory, where the line is. *)

From S2P Require Import Base Mem Kstring Printf Sysfile User Ulib Uprintf.
Local Open Scope Z_scope.

Definition MAXARGS : nat := 10.

(** [struct cmd] and its variants; [T] is the type of strings. *)
Inductive cmd (T : Type) : Type :=
| EXEC (argv : list T)
| REDIR (c : cmd T) (file : T) (mode fd : Z)
| PIPE (left right : cmd T)
| LIST (left right : cmd T)
| BACK (c : cmd T).
Arguments EXEC {T}.
Arguments REDIR {T}.
Arguments PIPE {T}.
Arguments LIST {T}.
Arguments BACK {T}.

Definition span : Type := nat * nat.

(** The constructors; the memory [malloc] gives them is not shared. *)
Definition execcmd {T} : cmd T := EXEC [].
Definition redircmd {T} (subcmd : cmd T) (file : T) (mode fd : Z) : cmd T := REDIR subcmd file mode fd.
Definition pipecmd {T} (left right : cmd T) : cmd T := PIPE left right.
Definition listcmd {T} (left right : cmd T) : cmd T := LIST left right.
Definition backcmd {T} (subcmd : cmd T) : cmd T := BACK subcmd.

(** ** Lexing *)
Definition whitespace : list Z := [32; 9; 13; 10; 11].
(** The characters [<|>&;()]. *)
Definition symbols : list Z := [60; 124; 62; 38; 59; 40; 41].

(** [strchr] of [ulib.c] as a test; it does not find the NUL. *)
Definition one_of (toks : list Z) (c : Z) : bool := existsb (Z.eqb c) toks.

(** Advance [s] while [f] holds of the byte there; [rest] are the bytes from
    [s] on. *)
Fixpoint skip (f : Z → bool) (rest : list Z) (s : nat) : nat :=
  match rest with
  | [] => s
  | c :: rest => if f c then skip f rest (S s) else s
  end.

(** [parseexec]'s [cmd->argv[argc] = q], where [cmd] is the [EXEC] node that
    [ret] has been wrapped around by [parseredirs]. *)
Fixpoint add_arg {T} (ret : cmd T) (q : T) : cmd T :=
  match ret with
  | EXEC argv => EXEC (argv ++ [q])
  | REDIR c file mode fd => REDIR (add_arg c q) file mode fd
  | c => c
  end.

Inductive pres (A : Type) : Type :=
| PDone (a : A) (s : nat)
| PPanic (msg : string)
| PLoop.
Arguments PDone {A}.
Arguments PPanic {A}.
Arguments PLoop {A}.

Definition pbind {A B} (r : pres A) (f : A → nat → pres B) : pres B :=
  match r with
  | PDone a s => f a s
  | PPanic msg => PPanic msg
  | PLoop => PLoop
  end.

Section parse.
  (** The line, without its NUL. *)
  Context (line : list Z).

Definition at_ (s : nat) : Z := default 0 (line !! s).
Definition skip_space (s : nat) : nat := skip (one_of whitespace) (drop s line) s.

(** The token, its span, and where the next one begins. *)
Definition gettoken (s : nat) : Z * span * nat :=
  let q := skip_space s in
  let '(ret, s) :=
    let c := at_ q in
    if c =? 0 then (0, q)
    else if one_of [124; 40; 41; 59; 38; 60] c then (c, S q)
    else if c =? 62 then (if at_ (S q) =? 62 then (43, S (S q)) else (c, S q))
    else (97, skip (λ c, negb (one_of whitespace c) && negb (one_of symbols c)) (drop q line) q) in
  (ret, (q, s), skip_space s).

Definition peek (s : nat) (toks : list Z) : bool * nat :=
  let s := skip_space s in
  (negb (at_ s =? 0) && one_of toks (at_ s), s).

(** ** Parsing *)
Fixpoint parseredirs (fuel : nat) (c : cmd span) (s : nat) : pres (cmd span) :=
  match fuel with
  | O => PLoop
  | S fuel =>
      let '(more, s) := peek s [60; 62] in
      if more then
        let '(tok, _, s) := gettoken s in
        let '(tok2, q, s) := gettoken s in
        if negb (tok2 =? 97) then PPanic "missing file for redirection"
        else if tok =? 60 then parseredirs fuel (redircmd c q O_RDONLY 0) s
        else if tok =? 62 then
          parseredirs fuel (redircmd c q (Z.lor O_WRONLY (Z.lor O_CREATE O_TRUNC)) 1) s
        else if tok =? 43 then parseredirs fuel (redircmd c q (Z.lor O_WRONLY O_CREATE) 1) s
        else parseredirs fuel c s
      else PDone c s
  end.

(** The [while] loop of [parseexec]. *)
Fixpoint exec_loop (fuel : nat) (ret : cmd span) (argc : nat) (s : nat) : pres (cmd span) :=
  match fuel with
  | O => PLoop
  | S fuel =>
      let '(stop, s) := peek s [124; 41; 38; 59] in
      if stop then PDone ret s else
      let '(tok, q, s) := gettoken s in
      if tok =? 0 then PDone ret s
      else if negb (tok =? 97) then PPanic "syntax"
      else if Nat.leb MAXARGS (S argc) then PPanic "too many args"
      else pbind (parseredirs fuel (add_arg ret q) s) (λ ret s, exec_loop fuel ret (S argc) s)
  end.

(** The [while] loop of [parseline]. *)
Fixpoint back_loop (fuel : nat) (c : cmd span) (s : nat) : pres (cmd span) :=
  match fuel with
  | O => PLoop
  | S fuel =>
      let '(more, s) := peek s [38] in
      if more then let '(_, _, s) := gettoken s in back_loop fuel (backcmd c) s
      else PDone c s
  end.

Fixpoint parseline (fuel : nat) (s : nat) : pres (cmd span) :=
  match fuel with
  | O => PLoop
  | S fuel =>
      pbind (parsepipe fuel s) (λ c s,
      pbind (back_loop fuel c s) (λ c s,
      let '(more, s) := peek s [59] in
      if more then
        let '(_, _, s) := gettoken s in
        pbind (parseline fuel s) (λ r s, PDone (listcmd c r) s)
      else PDone c s))
  end
with parsepipe (fuel : nat) (s : nat) : pres (cmd span) :=
  match fuel with
  | O => PLoop
  | S fuel =>
      pbind (parseexec fuel s) (λ c s,
      let '(more, s) := peek s [124] in
      if more then
        let '(_, _, s) := gettoken s in
        pbind (parsepipe fuel s) (λ r s, PDone (pipecmd c r) s)
      else PDone c s)
  end
with parseblock (fuel : nat) (s : nat) : pres (cmd span) :=
  match fuel with
  | O => PLoop
  | S fuel =>
      let '(open, s) := peek s [40] in
      if negb open then PPanic "parseblock" else
      let '(_, _, s) := gettoken s in
      pbind (parseline fuel s) (λ c s,
      let '(close, s) := peek s [41] in
      if negb close then PPanic "syntax - missing )" else
      let '(_, _, s) := gettoken s in
      parseredirs fuel c s)
  end
with parseexec (fuel : nat) (s : nat) : pres (cmd span) :=
  match fuel with
  | O => PLoop
  | S fuel =>
      let '(block, s) := peek s [40] in
      if block then parseblock fuel s else
      pbind (parseredirs fuel execcmd s) (λ ret s, exec_loop fuel ret 0 s)
  end.

(** [parsecmd] up to [nulterminate]; the position is where the line is not a
    command any more. *)
Definition parse (fuel : nat) : pres (cmd span) :=
  pbind (parseline fuel 0) (λ c s,
  let '(_, s) := peek s [] in PDone c s).
End parse.

(** ** Running commands *)
Section shell.
  (** The addresses of [buf], of [p] in [runcmd], and of [c] in [gets]. *)
  Context (buf parr cvar : Z).
  Local Open Scope user_scope.

(** The C string at a position of the line; [buf] has 100 bytes. *)
Definition text_at (q : nat) (m : mem) : list Z := cstr (load_bytes m (buf + Z.of_nat q) 100).

Definition panic {A} (s : string) : U A :=
  fprintf 2 (bytes_of "%s" ++ [10]) [AStr (Some (bytes_of s))] ;; exit 1.

Definition fork1 : U Z :=
  pid ← fork;
  if pid =? -1 then panic "fork" else uret pid.

Fixpoint nul_args (argv : list span) : U unit :=
  match argv with
  | [] => uret tt
  | q :: argv => uset (λ m, st8 m (buf + Z.of_nat q.2) 0) ;; nul_args argv
  end.

Fixpoint nulterminate (c : cmd span) : U unit :=
  match c with
  | EXEC argv => nul_args argv
  | REDIR c q _ _ => nulterminate c ;; uset (λ m, st8 m (buf + Z.of_nat q.2) 0)
  | PIPE l r => nulterminate l ;; nulterminate r
  | LIST l r => nulterminate l ;; nulterminate r
  | BACK c => nulterminate c
  end.

(** The parser calls itself at most four times per byte. *)
Definition parsecmd : U (cmd span) :=
  line ← uget (text_at 0);
  match parse line (4 * length line + 4) with
  | PLoop => out_of_fuel
  | PPanic msg => panic msg
  | PDone c s =>
      if negb (Nat.eqb s (length line)) then
        rest ← uget (text_at s);
        fprintf 2 (bytes_of "leftovers: %s" ++ [10]) [AStr (Some rest)] ;;
        panic "syntax"
      else nulterminate c ;; uret c
  end.

Fixpoint texts_at (l : list span) (m : mem) : list (list Z) :=
  match l with [] => [] | q :: l => text_at q.1 m :: texts_at l m end.

Fixpoint runcmd (c : cmd span) : U unit :=
  match c with
  | EXEC argv =>
      match argv with
      | [] => exit 1
      | q :: _ =>
          args ← uget (texts_at argv);
          prog ← uget (text_at q.1);
          exec prog args ;;
          fprintf 2 (bytes_of "exec %s failed" ++ [10]) [AStr (Some prog)]
      end
  | REDIR c q mode fd =>
      close fd ;;
      file ← uget (text_at q.1);
      r ← open file mode;
      if r <? 0 then
        fprintf 2 (bytes_of "open %s failed" ++ [10]) [AStr (Some file)] ;; exit 1
      else runcmd c
  | LIST l r =>
      pid ← fork1;
      (if pid =? 0 then runcmd l else uret tt) ;;
      wait ;;
      runcmd r
  | PIPE l r =>
      x ← pipe parr;
      if x <? 0 then panic "pipe" else
      p0 ← uget (λ m, i32 (ld32 m parr));
      p1 ← uget (λ m, i32 (ld32 m (parr + 4)));
      pid ← fork1;
      (if pid =? 0 then close 1 ;; dup p1 ;; close p0 ;; close p1 ;; runcmd l else uret tt) ;;
      pid ← fork1;
      (if pid =? 0 then close 0 ;; dup p0 ;; close p0 ;; close p1 ;; runcmd r else uret tt) ;;
      close p0 ;;
      close p1 ;;
      wait ;;
      wait ;;
      uret tt
  | BACK c =>
      pid ← fork1;
      if pid =? 0 then runcmd c else uret tt
  end ;;
  exit 0.

Definition getcmd (nbuf : Z) : U Z :=
  write_bytes 2 [36; 32] ;;
  uset (λ m, memset m buf 0 nbuf) ;;
  gets cvar buf nbuf ;;
  b ← uget (λ m, ld8 m buf);
  if b =? 0 then uret (-1) else uret 0.

(** The first loop of [main]: three descriptors are open. *)
Fixpoint open_console (fuel : nat) : U unit :=
  match fuel with
  | O => out_of_fuel
  | S fuel =>
      fd ← open (bytes_of "console") O_RDWR;
      if fd >=? 0 then
        if fd >=? 3 then close fd ;; uret tt else open_console fuel
      else uret tt
  end.

(** The command loop; [fuel] bounds the number of lines. *)
Fixpoint command_loop (fuel : nat) : U unit :=
  match fuel with
  | O => out_of_fuel
  | S fuel =>
      r ← getcmd 100;
      if r >=? 0 then
        b0 ← uget (λ m, ld8 m buf);
        b1 ← uget (λ m, ld8 m (buf + 1));
        b2 ← uget (λ m, ld8 m (buf + 2));
        if (b0 =? 99) && (b1 =? 100) && (b2 =? 32) then
          len ← uget (λ m, strlen m buf 100);
          match len with
          | None => out_of_fuel
          | Some n =>
              uset (λ m, st8 m (buf + (n - 1)) 0) ;;
              dir ← uget (text_at 3);
              r ← chdir dir;
              (if r <? 0 then
                 fprintf 2 (bytes_of "cannot cd %s" ++ [10]) [AStr (Some dir)]
               else uret tt) ;;
              command_loop fuel
          end
        else
          pid ← fork1;
          (if pid =? 0 then c ← parsecmd; runcmd c else uret tt) ;;
          wait ;;
          command_loop fuel
      else uret tt
  end.

Definition sh_main (fuel : nat) : U unit :=
  open_console 4 ;;
  command_loop fuel ;;
  exit 0.
End shell.
