(* ===== verification/ShSpec.v ===== *)
(** * What the shell's parser does

    [parser_total]: for every line the parser ends, with an error or with a
    command that fits its arrays and whose strings, after [nulterminate], are
    words of the line.  [show] writes a command as a line, with parentheses
    where they are needed; [show_parses]: parsing gives the command back. *)

From S2P Require Import Base Mem Kstring Printf Sysfile User Ulib Uprintf Sh.
Local Open Scope Z_scope.

(** ** Scanning *)
Lemma skip_spec (line : list Z) f s : (s ≤ length line)%nat →
  let e := skip f (drop s line) s in
  (s ≤ e ≤ length line)%nat ∧
  (∀ i c, (s ≤ i < e)%nat → line !! i = Some c → f c = true) ∧
  (∀ c, line !! e = Some c → f c = false).
Proof.
  remember (drop s line) as rest eqn:E. revert s E. induction rest as [|c rest IH]; intros s E Hs; cbn.
  - apply (f_equal length) in E. rewrite length_drop in E. cbn in E. assert (s = length line) as -> by lia.
    split; [lia|]. split; [lia|]. intros c Hc. apply lookup_lt_Some in Hc. lia.
  - assert (line !! s = Some c) as Hc.
    { assert (drop s line !! 0%nat = Some c) as H by (by rewrite <- E). by rewrite lookup_drop, Nat.add_0_r in H. }
    assert (rest = drop (S s) line) as Er.
    { replace (S s) with (s + 1)%nat by lia. by rewrite <- drop_drop, <- E. }
    destruct (f c) eqn:Ef; [|split_and!; [lia..|]; intros d Hd; congruence].
    pose proof (lookup_lt_Some _ _ _ Hc). destruct (IH (S s) Er ltac:(lia)) as (H1 & H2 & H3).
    split; [lia|]. split; [|done]. intros i d Hi Hd.
    destruct (decide (i = s)) as [->|]; [congruence|]. apply (H2 i); [lia|done].
Qed.

Section parser.
  Context (line : list Z) (Hline : Forall (λ b, b ≠ 0) line).
  Local Abbreviation n := (length line).

Definition wordchar (c : Z) : bool := negb (one_of whitespace c) && negb (one_of symbols c).

(** A word of the line, up to a byte that is not part of it. *)
Definition is_word (q : span) : Prop :=
  (q.1 < q.2 ≤ n)%nat ∧ (∀ i c, (q.1 ≤ i < q.2)%nat → line !! i = Some c → wordchar c = true) ∧
  ∀ c, line !! q.2 = Some c → wordchar c = false.

Lemma at_nonzero s : (s < n)%nat ↔ at_ line s ≠ 0.
Proof.
  unfold at_. split.
  - intros [c Hc]%lookup_lt_is_Some_2. rewrite Hc. by apply (proj1 (Forall_lookup _ _) Hline _ _ Hc).
  - destruct (line !! s) eqn:E; [|done]. intros _. by eapply lookup_lt_Some.
Qed.

Lemma skip_space_spec s : (s ≤ n)%nat →
  (s ≤ skip_space line s ≤ n)%nat ∧ one_of whitespace (at_ line (skip_space line s)) = false.
Proof.
  intros Hs. destruct (skip_spec line (one_of whitespace) s Hs) as (H1 & _ & H3). split; [done|].
  unfold at_. fold (skip_space line s) in *. destruct (line !! skip_space line s) as [c|] eqn:E; [by apply H3|done].
Qed.

Lemma skip_space_id s : (s ≤ n)%nat → one_of whitespace (at_ line s) = false → skip_space line s = s.
Proof.
  intros Hs Hw. unfold skip_space. destruct (drop s line) as [|c rest] eqn:E; [done|]. cbn.
  assert (line !! s = Some c) as Hc.
  { assert (drop s line !! 0%nat = Some c) as H by (by rewrite E). by rewrite lookup_drop, Nat.add_0_r in H. }
  unfold at_ in Hw. rewrite Hc in Hw. cbn in Hw. by rewrite Hw.
Qed.

Lemma peek_spec s toks b s' : (s ≤ n)%nat → peek line s toks = (b, s') →
  (s ≤ s' ≤ n)%nat ∧ skip_space line s' = s' ∧ (b = true → (s' < n)%nat ∧ one_of toks (at_ line s') = true).
Proof.
  intros Hs. unfold peek. destruct (skip_space_spec s Hs) as [H1 H2]. intros [= <- <-].
  split; [done|]. split; [apply skip_space_id; [lia|done]|]. intros Hb. bool_to_prop. split; [by apply at_nonzero|done].
Qed.

Lemma gettoken_spec s tok q s' : (s ≤ n)%nat → gettoken line s = (tok, q, s') →
  (s ≤ s' ≤ n)%nat ∧ (tok ≠ 0 → (s < s')%nat) ∧ (tok = 97 → is_word q).
Proof.
  intros Hs. unfold gettoken. destruct (skip_space_spec s Hs) as [H1 H2]. set (p := skip_space line s) in *.
  destruct (at_ line p =? 0) eqn:E0; bool_to_prop.
  { intros [= <- <- <-]. destruct (skip_space_spec p ltac:(lia)) as [H3 _]. split; [lia|done]. }
  assert (p < n)%nat as Hp by (by apply at_nonzero).
  destruct (one_of [124; 40; 41; 59; 38; 60] (at_ line p)) eqn:E1.
  { intros [= <- <- <-]. destruct (skip_space_spec (S p) ltac:(lia)) as [H3 _]. split; [lia|]. split; [lia|].
    intros E. by rewrite E in E1. }
  destruct (at_ line p =? 62) eqn:E2; bool_to_prop.
  { destruct (at_ line (S p) =? 62) eqn:E3; bool_to_prop; intros [= <- <- <-].
    - assert (S p < n)%nat by (apply at_nonzero; lia).
      destruct (skip_space_spec (S (S p)) ltac:(lia)) as [H3 _]. split; [lia|]. split; [lia|done].
    - destruct (skip_space_spec (S p) ltac:(lia)) as [H3 _]. split; [lia|]. split; [lia|]. rewrite E2. done. }
  change (skip _ (drop p line) p) with (skip wordchar (drop p line) p).
  destruct (skip_spec line wordchar p ltac:(lia)) as (W1 & W2 & W3). set (e := skip _ _ _) in *. intros [= <- <- <-].
  assert (p < e)%nat as Hpe.
  { destruct (decide (e = p)) as [Ep|]; [|lia]. rewrite Ep in W3.
    destruct (lookup_lt_is_Some_2 line p Hp) as [c Hc]. specialize (W3 c Hc). unfold at_ in *. rewrite Hc in *. change (default 0 (Some c)) with c in *.
    unfold wordchar in W3. rewrite H2 in W3. exfalso. clear -W3 E1 E2. cbn in W3, E1.
    rewrite (proj2 (Z.eqb_neq _ _) E2) in W3. repeat (destruct (Z.eqb c _); try done). }
  destruct (skip_space_spec e ltac:(lia)) as [H3 _]. split; [lia|]. split; [lia|]. intros _. split; [cbn; lia|done].
Qed.

Lemma symbol_token s tok q s' : skip_space line s = s → (s < n)%nat →
  gettoken line s = (tok, q, s') → tok ≠ 0.
Proof.
  intros Hs Hn. unfold gettoken. rewrite Hs. apply at_nonzero in Hn. rewrite (proj2 (Z.eqb_neq _ _)) by done.
  repeat case_if; intros [= <- <- <-]; lia.
Qed.

(** ** Every line is parsed *)

(** Commands that fit their structures. *)
Definition redir_kind (mode fd : Z) : Prop :=
  (mode, fd) ∈ [(O_RDONLY, 0); (Z.lor O_WRONLY (Z.lor O_CREATE O_TRUNC), 1); (Z.lor O_WRONLY O_CREATE, 1)].

Fixpoint good {T} (word : T → Prop) (c : cmd T) : Prop :=
  match c with
  | EXEC argv => (length argv < MAXARGS)%nat ∧ Forall word argv
  | REDIR c q mode fd => good word c ∧ word q ∧ redir_kind mode fd
  | PIPE l r | LIST l r => good word l ∧ good word r
  | BACK c => good word c
  end.

(** [EXEC] with [argc] arguments, under redirections. *)
Fixpoint spine {T} (argc : nat) (c : cmd T) : Prop :=
  match c with
  | EXEC argv => length argv = argc
  | REDIR c _ _ _ => spine argc c
  | _ => False
  end.

Lemma add_arg_good {T} (word : T → Prop) c q argc :
  good word c → spine argc c → word q → (S argc < MAXARGS)%nat →
  good word (add_arg c q) ∧ spine (S argc) (add_arg c q).
Proof.
  induction c as [argv|c IH f m fd|l IHl r IHr|l IHl r IHr|c IH]; cbn; try done.
  - intros [Hl Hw] <- Hq Ha. rewrite length_app. cbn. rewrite Nat.add_1_r. split; [|done].
    split; [done|]. apply Forall_app. by split; [|apply Forall_singleton].
  - intros (Hc & Hf & Hk) Hs Hq Ha. destruct (IH Hc Hs Hq Ha). done.
Qed.

(** The result of a parser started at [s]. *)
Definition ends (P : cmd span → Prop) (s : nat) (r : pres (cmd span)) : Prop :=
  match r with
  | PDone c s' => (s ≤ s' ≤ n)%nat ∧ P c
  | PPanic _ => True
  | PLoop => False
  end.

Lemma ends_bind P Q s r f : ends P s r →
  (∀ c s', (s ≤ s' ≤ n)%nat → P c → ends Q s' (f c s')) → ends Q s (pbind r f).
Proof.
  destruct r as [c s'|msg|]; cbn; [|done..]. intros [Hs Hc] Hf. specialize (Hf c s' Hs Hc).
  destruct (f c s'); cbn in *; [|done..]. split; [lia|tauto].
Qed.

Lemma ends_after P s s' r : ends P s' r → (s ≤ s')%nat → ends P s r.
Proof. destruct r; cbn; [|done..]. intros [? ?] ?. split; [lia|done]. Qed.

Lemma parseredirs_ends (P : cmd span → Prop) fuel c s :
  (∀ c q mode fd, P c → is_word q → redir_kind mode fd → P (REDIR c q mode fd)) →
  P c → (s ≤ n)%nat → (n - s < fuel)%nat → ends P s (parseredirs line fuel c s).
Proof.
  intros HP. revert c s. induction fuel as [|fuel IH]; intros c s Hc Hs Hf; [lia|]. cbn [parseredirs].
  destruct (peek line s [60; 62]) as [more s1] eqn:E1. destruct (peek_spec _ _ _ _ Hs E1) as (H1 & H1' & H2).
  destruct more; [|done]. destruct (H2 eq_refl) as [H3 H4].
  destruct (gettoken line s1) as [[tok q1] s2] eqn:E2. destruct (gettoken_spec _ _ _ _ (proj2 H1) E2) as (G1 & G2 & _).
  assert (tok = 60 ∨ tok = 62 ∨ tok = 43) as Htok.
  { unfold gettoken in E2. rewrite H1' in E2. cbn in H4. rewrite !orb_false_r in H4. apply orb_true_iff in H4.
    destruct H4 as [H4|H4]; bool_to_prop; rewrite H4 in E2; cbn in E2; [simplify_eq; auto|].
    destruct (at_ line (S s1) =? 62); simplify_eq; auto. }
  destruct (gettoken line s2) as [[tok2 q] s3] eqn:E3. destruct (gettoken_spec s2 _ _ _ (proj2 G1) E3) as (K1 & K2 & K3).
  destruct (tok2 =? 97) eqn:E4; bool_to_prop; cbn [negb]; [|done]. specialize (K3 E4).
  specialize (G2 ltac:(lia)). 
  assert (∀ c', P c' → ends P s (parseredirs line fuel c' s3)) as Hrec.
  { intros c' Hc'. eapply ends_after; [apply IH; [done|lia|lia]|lia]. }
  destruct Htok as [->|[->| ->]]; cbn; apply Hrec, HP; try done; unfold redir_kind; set_solver.
Qed.

Lemma exec_loop_ends fuel ret argc s :
  good is_word ret → spine argc ret → (s ≤ n)%nat → (n - s < fuel)%nat →
  ends (good is_word) s (exec_loop line fuel ret argc s).
Proof.
  revert ret argc s. induction fuel as [|fuel IH]; intros ret argc s Hg Hsp Hs Hf; [lia|]. cbn [exec_loop].
  destruct (peek line s [124; 41; 38; 59]) as [stop s1] eqn:E1. destruct (peek_spec _ _ _ _ Hs E1) as (H1 & _ & _).
  destruct stop; [by split; [lia|]|].
  destruct (gettoken line s1) as [[tok q] s2] eqn:E2. destruct (gettoken_spec _ _ _ _ (proj2 H1) E2) as (G1 & G2 & G3).
  destruct (tok =? 0) eqn:E3; bool_to_prop; [by split; [lia|]|]. specialize (G2 E3).
  destruct (tok =? 97) eqn:E4; bool_to_prop; cbn [negb]; [|done]. specialize (G3 E4).
  destruct (Nat.leb MAXARGS (S argc)) eqn:E5; [done|]. apply Nat.leb_gt in E5.
  destruct (add_arg_good is_word ret q argc Hg Hsp G3 E5) as [A1 A2].
  apply (ends_after _ s s2); [|lia].
  eapply (ends_bind (λ c, good is_word c ∧ spine (S argc) c)).
  - apply parseredirs_ends; [|done|lia|lia]. intros c q' mode fd [Hc1 Hc2] Hq Hk. done.
  - intros c s3 Hs3 [Hc1 Hc2]. apply IH; [done|done|lia|lia].
Qed.

Lemma back_loop_ends fuel c s : good is_word c → (s ≤ n)%nat → (n - s < fuel)%nat →
  ends (good is_word) s (back_loop line fuel c s).
Proof.
  revert c s. induction fuel as [|fuel IH]; intros c s Hg Hs Hf; [lia|]. cbn [back_loop].
  destruct (peek line s [38]) as [more s1] eqn:E1. destruct (peek_spec _ _ _ _ Hs E1) as (H1 & H1' & H2).
  destruct more; [|done]. destruct (H2 eq_refl) as [H3 H4].
  destruct (gettoken line s1) as [[tok q] s2] eqn:E2. destruct (gettoken_spec _ _ _ _ (proj2 H1) E2) as (G1 & G2 & _).
  specialize (G2 (symbol_token _ _ _ _ H1' H3 E2)).
  apply (ends_after _ s s2); [|lia]. apply IH; [done|lia|lia].
Qed.

Lemma parse_ends fuel :
  (∀ s, (s ≤ n)%nat → (4 * (n - s) + 4 ≤ fuel)%nat → ends (good is_word) s (parseline line fuel s)) ∧
  (∀ s, (s ≤ n)%nat → (4 * (n - s) + 3 ≤ fuel)%nat → ends (good is_word) s (parsepipe line fuel s)) ∧
  (∀ s, (s ≤ n)%nat → (4 * (n - s) + 2 ≤ fuel)%nat → ends (good is_word) s (parseexec line fuel s)) ∧
  (∀ s, (s ≤ n)%nat → (4 * (n - s) + 1 ≤ fuel)%nat → ends (good is_word) s (parseblock line fuel s)).
Proof.
  induction fuel as [|fuel (IHl & IHp & IHe & IHb)]; [split_and!; intros; lia|].
  split_and!; intros s Hs Hf; cbn [parseline parsepipe parseexec parseblock].
  - eapply ends_bind; [apply IHp; lia|]. intros c s1 H1 Hc.
    eapply ends_bind; [apply back_loop_ends; [done|lia|lia]|]. intros c' s2 H2 Hc'.
    destruct (peek line s2 [59]) as [more s3] eqn:E1. destruct (peek_spec s2 _ _ _ (proj2 H2) E1) as (P1 & P1' & P2).
    destruct more; [|by split]. destruct (P2 eq_refl) as [P3 P4].
    destruct (gettoken line s3) as [[tok q] s4] eqn:E2. destruct (gettoken_spec _ _ _ _ (proj2 P1) E2) as (G1 & G2 & _).
    specialize (G2 (symbol_token _ _ _ _ P1' P3 E2)).
    apply (ends_after _ s2 s4); [|lia]. eapply ends_bind; [apply IHl; lia|]. intros r s5 H5 Hr. by split; [lia|].
  - eapply ends_bind; [apply IHe; lia|]. intros c s1 H1 Hc.
    destruct (peek line s1 [124]) as [more s2] eqn:E1. destruct (peek_spec s1 _ _ _ (proj2 H1) E1) as (P1 & P1' & P2).
    destruct more; [|by split]. destruct (P2 eq_refl) as [P3 P4].
    destruct (gettoken line s2) as [[tok q] s3] eqn:E2. destruct (gettoken_spec _ _ _ _ (proj2 P1) E2) as (G1 & G2 & _).
    specialize (G2 (symbol_token _ _ _ _ P1' P3 E2)).
    apply (ends_after _ s1 s3); [|lia]. eapply ends_bind; [apply IHp; lia|]. intros r s4 H4 Hr. by split; [lia|].
  - destruct (peek line s [40]) as [block s1] eqn:E1. destruct (peek_spec _ _ _ _ Hs E1) as (P1 & _ & _).
    apply (ends_after _ s s1); [|lia]. destruct block; [apply IHb; lia|].
    eapply (ends_bind (λ c, good is_word c ∧ spine 0 c)).
    + apply parseredirs_ends; [|by split; [split; [cbn; unfold MAXARGS; lia|]|]|lia|lia]. intros c q mode fd [? ?] ? ?. done.
    + intros c s2 H2 [Hc1 Hc2]. apply exec_loop_ends; [done|done|lia|lia].
  - destruct (peek line s [40]) as [block s1] eqn:E1. destruct (peek_spec _ _ _ _ Hs E1) as (P1 & P1' & P2).
    destruct block; cbn [negb]; [|done]. destruct (P2 eq_refl) as [P3 P4].
    destruct (gettoken line s1) as [[tok q] s2] eqn:E2. destruct (gettoken_spec _ _ _ _ (proj2 P1) E2) as (G1 & G2 & _).
    specialize (G2 (symbol_token _ _ _ _ P1' P3 E2)).
    apply (ends_after _ s s2); [|lia]. eapply ends_bind; [apply IHl; lia|]. intros c s3 H3 Hc.
    destruct (peek line s3 [41]) as [close s4] eqn:E3. destruct (peek_spec s3 _ _ _ (proj2 H3) E3) as (Q1 & Q1' & Q2).
    destruct close; cbn [negb]; [|done]. destruct (Q2 eq_refl) as [Q3 Q4].
    destruct (gettoken line s4) as [[tok2 q2] s5] eqn:E4. destruct (gettoken_spec _ _ _ _ (proj2 Q1) E4) as (K1 & K2 & _).
    specialize (K2 (symbol_token _ _ _ _ Q1' Q3 E4)).
    apply (ends_after _ s3 s5); [|lia]. apply parseredirs_ends; [|done|lia|lia]. intros c' q' mode fd ? ? ?. done.
Qed.

Lemma parse_total : ends (good is_word) 0 (parse line (4 * n + 4)).
Proof.
  unfold parse. eapply ends_bind; [apply parse_ends; lia|]. intros c s H Hc.
  destruct (peek line s []) as [b s1] eqn:E. destruct (peek_spec s _ _ _ (proj2 H) E) as (P1 & _ & _). done.
Qed.
End parser.

(** ** The strings of a command *)
Fixpoint cmap {T T'} (f : T → T') (c : cmd T) : cmd T' :=
  match c with
  | EXEC argv => EXEC (f <$> argv)
  | REDIR c q mode fd => REDIR (cmap f c) (f q) mode fd
  | PIPE l r => PIPE (cmap f l) (cmap f r)
  | LIST l r => LIST (cmap f l) (cmap f r)
  | BACK c => BACK (cmap f c)
  end.

(** In the order in which [nulterminate] visits them. *)
Fixpoint spans {T} (c : cmd T) : list T :=
  match c with
  | EXEC argv => argv
  | REDIR c q _ _ => spans c ++ [q]
  | PIPE l r | LIST l r => spans l ++ spans r
  | BACK c => spans c
  end.

Lemma cmap_ext {T T'} (f g : T → T') c : (∀ q, q ∈ spans c → f q = g q) → cmap f c = cmap g c.
Proof.
  induction c as [argv|c IH q m fd|l IHl r IHr|l IHl r IHr|c IH]; intros H; cbn in *; f_equal; try set_solver.
  induction argv as [|q argv IH]; cbn; [done|]. f_equal; set_solver.
Qed.

Lemma spans_good {T} (word : T → Prop) c : good word c → Forall word (spans c).
Proof.
  induction c; cbn; rewrite ?Forall_app, ?Forall_singleton; tauto.
Qed.

(** The bytes between two positions. *)
Definition slice (line : list Z) (q : span) : list Z := take (q.2 - q.1) (drop q.1 line).

Definition nul_at (buf : Z) (l : list span) (m : mem) : mem :=
  fold_left (λ m q, st8 m (buf + Z.of_nat q.2) 0) l m.

Lemma nulterminate_run buf c m : nulterminate buf c m = UDone tt (nul_at buf (spans c) m).
Proof.
  unfold nul_at. revert m. induction c as [argv|c IH q md fd|l IHl r IHr|l IHl r IHr|c IH]; intros m; cbn [nulterminate spans];
    unfold ubind; rewrite ?fold_left_app, ?IH, ?IHl; cbn [uprog_bind]; rewrite ?IHr; try done.
  revert m. induction argv as [|q argv IH]; intros m; [done|]. apply IH.
Qed.

Lemma ld8_nul_at buf l m a :
  ld8 (nul_at buf l m) a = if decide (Exists (λ q, a = buf + Z.of_nat q.2) l) then 0 else ld8 m a.
Proof.
  unfold nul_at. revert m. induction l as [|q l IH]; intros m; cbn [fold_left].
  - rewrite decide_False; [done|]. intros H; inversion H.
  - rewrite IH. destruct (decide (Exists (λ q, a = buf + Z.of_nat q.2) l)) as [H|H].
    + rewrite decide_True; [done|]. by right.
    + destruct (decide (a = buf + Z.of_nat q.2)) as [->|Hne].
      * rewrite ld8_st8_eq, decide_True; [done|]. by left.
      * rewrite ld8_st8_ne, decide_False; [done| |done]. intros Hx; by inversion Hx.
Qed.

(** A C string in memory. *)
Lemma cstr_is m p l n : (length l < n)%nat → Forall (λ b, b ≠ 0) l →
  (∀ i c, l !! i = Some c → ld8 m (p + Z.of_nat i) = c) → ld8 m (p + Z.of_nat (length l)) = 0 →
  cstr (load_bytes m p n) = l.
Proof.
  revert p n. induction l as [|c l IH]; intros p [|n] Hn Hz Hl He; cbn [length] in *; try lia.
  - rewrite load_bytes_cons. replace p with (p + Z.of_nat 0) by lia. by rewrite He.
  - rewrite load_bytes_cons. apply Forall_cons in Hz as [Hc Hz].
    assert (ld8 m p = c) as -> by (rewrite <- (Hl 0%nat c) by done; f_equal; lia).
    cbn [cstr]. unfold nonzero. rewrite (proj2 (Z.eqb_neq _ _)) by done. cbn [negb]. f_equal.
    apply IH; [lia|done| |rewrite <- He; f_equal; lia].
    intros i d Hd. rewrite <- (Hl (S i) d) by done. f_equal. lia.
Qed.

Lemma cstr_bytes m p n : let l := cstr (load_bytes m p n) in (length l < n)%nat →
  Forall (λ b, b ≠ 0) l ∧ (∀ i c, l !! i = Some c → ld8 m (p + Z.of_nat i) = c) ∧
  ld8 m (p + Z.of_nat (length l)) = 0.
Proof.
  revert p. induction n as [|n IH]; intros p; [cbn; lia|]. rewrite load_bytes_cons. cbn [cstr]. cbv zeta.
  unfold nonzero. destruct (ld8 m p =? 0) eqn:E; bool_to_prop; cbn [negb length].
  - intros _. split; [done|]. split; [done|]. by rewrite Z.add_0_r.
  - intros Hl. destruct (IH (p + 1) ltac:(lia)) as (H1 & H2 & H3). split; [by apply Forall_cons|]. split.
    + intros [|i] c; cbn; [intros [= <-]; by rewrite Z.add_0_r|]. intros Hc. rewrite <- (H2 i c Hc). f_equal. lia.
    + rewrite <- H3. f_equal. lia.
Qed.

(** After [nulterminate] the words of the line are C strings. *)
Lemma nul_text buf m q l line : text_at buf 0 m = line → (length line < 100)%nat →
  Forall (is_word line) l → q ∈ l → text_at buf q.1 (nul_at buf l m) = slice line q.
Proof.
  intros El Hl Hw Hq. pose proof (cstr_bytes m (buf + Z.of_nat 0) 100) as H. cbv zeta in H. unfold text_at in El.
  rewrite El in H. destruct (H Hl) as (Z1 & Z2 & _). clear H El. rewrite Forall_forall in Hw.
  destruct (Hw q Hq) as ((Q1 & Q2) & Q3 & Q4).
  assert (length (slice line q) = (q.2 - q.1)%nat) as Hlen.
  { unfold slice. rewrite length_take, length_drop. lia. }
  assert (∀ i c, slice line q !! i = Some c → line !! (q.1 + i)%nat = Some c ∧ (i < q.2 - q.1)%nat) as Hsl.
  { intros i c. unfold slice. rewrite lookup_take_Some, lookup_drop. tauto. }
  apply cstr_is; rewrite ?Hlen.
  - lia.
  - apply Forall_lookup. intros i c [Hc _]%Hsl. by apply (proj1 (Forall_lookup _ _) Z1 _ _ Hc).
  - intros i c [Hc Hi]%Hsl. rewrite ld8_nul_at, decide_False; [rewrite <- (Z2 _ _ Hc); f_equal; lia|].
    intros (p & Hp & Ep)%Exists_exists. assert (p.2 = q.1 + i)%nat as E by lia. destruct (Hw p Hp) as (_ & _ & P4).
    rewrite E in P4. specialize (P4 c Hc). rewrite (Q3 (q.1 + i)%nat c) in P4; [done|lia|done].
  - rewrite ld8_nul_at, decide_True; [done|]. apply Exists_exists. exists q. split; [done|lia].
Qed.

(** ** Claims *)
Lemma panic_run {A} msg : same_run (panic msg : U A) (ubind (putn 2 (bytes_of msg ++ [10])) (λ _, exit 1)).
Proof. apply same_run_bind; [|done]. by apply vprintf_renders. Qed.

(** C25: The parser of the shell is total and its results fit the structures.
    For every line of the buffer it ends; it either writes a message and exits
    with status 1, or returns a command in which each [EXEC] node has fewer
    than [MAXARGS] arguments and each string is a maximal run of word
    characters of the line.  [nulterminate] makes all of them C strings at
    once: the [NUL]s it writes cut off no other string, and it writes nowhere
    else. *)
Theorem parsecmd_total buf m : let line := text_at buf 0 m in (length line < 100)%nat →
  (∃ text, ∀ (W : Type) (answer : request → W → reply * W) w,
     urun answer (parsecmd buf m) w = urun answer ((ubind (putn 2 text) (λ _, exit 1) : U (cmd span)) m) w) ∨
  ∃ c m', parsecmd buf m = UDone c m' ∧ good (is_word line) c ∧
    cmap (λ q, text_at buf q.1 m') c = cmap (slice line) c ∧
    ∀ a, ld8 m' a ≠ ld8 m a → ∃ q, q ∈ spans c ∧ a = buf + Z.of_nat q.2.
Proof.
  intros line Hl. pose proof (cstr_bytes m (buf + Z.of_nat 0) 100) as H. cbv zeta in H.
  change (cstr _) with line in H. destruct (H Hl) as (Hz & _ & _). clear H.
  pose proof (parse_total line Hz) as Hp. unfold parsecmd.
  change (ubind (uget (text_at buf 0)) ?k m) with (k line m). cbv beta.
  destruct (parse line (4 * length line + 4)) as [c s|msg|]; [| |done].
  2: { left. exists (bytes_of msg ++ [10]). intros. apply panic_run. }
  destruct Hp as [Hs Hg]. destruct (Nat.eqb s (length line)); cbn [negb].
  - right. exists c, (nul_at buf (spans c) m). split; [unfold ubind; by rewrite nulterminate_run|].
    split; [done|]. split.
    + apply cmap_ext. intros q Hq. apply nul_text; [done|done|by apply spans_good|done].
    + intros a. rewrite ld8_nul_at. destruct (decide _) as [He|]; [|done]. intros _.
      by apply Exists_exists in He.
  - left. set (rest := text_at buf s m).
    exists ((bytes_of "leftovers: " ++ rest ++ [10]) ++ bytes_of "syntax" ++ [10]). intros W answer w.
    change (ubind (uget (text_at buf s)) ?k m) with (k rest m). cbv beta.
    assert (same_run (ubind (fprintf 2 (bytes_of "leftovers: %s" ++ [10]) [AStr (Some rest)]) (λ _, panic "syntax" : U (cmd span)))
      (ubind (putn 2 (bytes_of "leftovers: " ++ rest ++ [10])) (λ _, ubind (putn 2 (bytes_of "syntax" ++ [10])) (λ _, exit 1)))) as E.
    { apply same_run_bind; [by apply vprintf_renders|]. intros _. apply panic_run. }
    rewrite E. rewrite <- (bind_assoc_run _ _ _ W answer).
    apply (same_run_bind (A := unit)); [|done]. apply putn_app.
Qed.

Lemma parsecmd_total_witness :
  let m := store_bytes ∅ 4096 (bytes_of "ls -l < in | grep x; (a >> b) &" ++ [0]) in
  (length (text_at 4096 0 m) < 100)%nat ∧
  match parsecmd 4096 m with UDone c _ => good (is_word (text_at 4096 0 m)) c | _ => False end.
Proof.
  intros m. assert (length (text_at 4096 0 m) < 100)%nat as Hl by (vm_compute; lia). split; [exact Hl|].
  destruct (parsecmd_total 4096 m Hl) as [(text & Hr)|(c & m' & E & Hg & _)].
  - exfalso. specialize (Hr unit (λ _ _, (Reply 0 [], tt)) tt).
    rewrite urun_ubind in Hr.
    assert (match (urun (λ _ _, (Reply 0 [], tt)) (parsecmd 4096 m) tt).1 with Returned _ _ => true | _ => false end = true) as Q
      by (vm_compute; reflexivity).
    rewrite Hr in Q. revert Q. destruct (urun _ (putn 2 text m) tt) as [[| |] ?]; cbn; discriminate.
  - rewrite E. exact Hg.
Defined.
