(* ===== verification/ShShow.v ===== *)
(** * The shell's parser inverts printing

    [show] writes a command as the tokens of a line, with parentheses around
    lists, background commands and pipes where the grammar needs them.
    [show_parses]: [parsecmd] gives the command back. *)

From S2P Require Import Base Mem Kstring Printf Sysfile User Ulib Uprintf Sh ShSpec.
Local Open Scope Z_scope.

(** ** Tokens *)
Inductive token := Word (w : list Z) | Sym (c : Z) | Append.

Definition tok_text (t : token) : list Z :=
  match t with Word w => w | Sym c => [c] | Append => [62; 62] end.
Definition tok_code (t : token) : Z :=
  match t with Word _ => 97 | Sym c => c | Append => 43 end.
Definition tok_char (t : token) : Z := default 0 (head (tok_text t)).

(** Each token is followed by a blank. *)
Definition print (ts : list token) : list Z := concat ((λ t, tok_text t ++ [32]) <$> ts).

Definition word_ok (w : list Z) : Prop := w ≠ [] ∧ Forall (λ b, wordchar b = true ∧ b ≠ 0) w.
Definition tok_ok (t : token) : Prop :=
  match t with Word w => word_ok w | Sym c => one_of symbols c = true | Append => True end.

(** ** Printing *)
Definition paren (b : bool) (ts : list token) : list token := if b then Sym 40 :: ts ++ [Sym 41] else ts.

Definition redir_tok (mode : Z) : token :=
  if mode =? O_RDONLY then Sym 60
  else if mode =? Z.lor O_WRONLY (Z.lor O_CREATE O_TRUNC) then Sym 62 else Append.

(** [p]: 0 for a line, 1 for an operand of [;], 2 for one of [&], 3 for one of [|]. *)
Fixpoint show (p : nat) (c : cmd (list Z)) : list token :=
  match c with
  | EXEC argv => Word <$> argv
  | REDIR c f mode _ => show 3 c ++ [redir_tok mode; Word f]
  | PIPE l r => paren (Nat.ltb 2 p) (show 3 l ++ Sym 124 :: show 2 r)
  | BACK c => paren (Nat.ltb 1 p) (show 1 c ++ [Sym 38])
  | LIST l r => paren (Nat.ltb 0 p) (show 1 l ++ Sym 59 :: show 0 r)
  end.

Lemma print_app ts ts' : print (ts ++ ts') = print ts ++ print ts'.
Proof. unfold print. by rewrite fmap_app, concat_app. Qed.

Lemma print_cons t ts : print (t :: ts) = tok_text t ++ 32 :: print ts.
Proof. unfold print. cbn. by rewrite <- app_assoc. Qed.

Lemma show_ok p c : good word_ok c → Forall tok_ok (show p c).
Proof.
  assert (∀ b ts, Forall tok_ok ts → Forall tok_ok (paren b ts)) as Hpar.
  { intros [] ts H; [|done]. unfold paren. rewrite Forall_cons, Forall_app, Forall_singleton. done. }
  revert p. induction c as [argv|c IH f m fd|l IHl r IHr|l IHl r IHr|c IH]; intros p Hg; cbn in *.
  - destruct Hg as [_ Hg]. by rewrite Forall_fmap.
  - destruct Hg as (Hc & Hf & _). rewrite Forall_app, Forall_cons, Forall_singleton. split; [by apply IH|].
    split; [|done]. unfold redir_tok. by repeat case_if.
  - apply Hpar. rewrite Forall_app, Forall_cons. split; [apply IHl|split; [|apply IHr]]; try tauto. done.
  - apply Hpar. rewrite Forall_app, Forall_cons. split; [apply IHl|split; [|apply IHr]]; try tauto. done.
  - apply Hpar. rewrite Forall_app, Forall_singleton. by split; [apply IH|].
Qed.

Lemma skip_app f a b s : Forall (λ c, f c = true) a → (∀ c, head b = Some c → f c = false) →
  skip f (a ++ b) s = (s + length a)%nat.
Proof.
  revert s. induction a as [|c a IH]; intros s Ha Hb; cbn.
  - rewrite Nat.add_0_r. destruct b as [|c b]; [done|]. cbn. by rewrite Hb.
  - apply Forall_cons in Ha as [-> Ha]. rewrite IH by done. lia.
Qed.

Section line.
  Context (line : list Z).
  Local Abbreviation n := (length line).

(** The rest of the line from [s] on is [ts]. *)
Definition here (s : nat) (ts : list token) : Prop :=
  (s ≤ n)%nat ∧ drop s line = print ts ∧ Forall tok_ok ts.

Lemma here_len s ts : here s ts → (n - s = length (print ts))%nat.
Proof. intros (Hs & E & _). rewrite <- E, length_drop. done. Qed.

Lemma here_lt s t ts s' : here s (t :: ts) → here s' ts → (n - s' < n - s)%nat.
Proof.
  intros H H'. rewrite (here_len _ _ H), (here_len _ _ H'), print_cons, length_app. cbn. lia.
Qed.

Lemma tok_text_cons t : tok_ok t → ∃ r, tok_text t = tok_char t :: r.
Proof.
  destruct t as [w|c|]; cbn; [|by eauto..]. intros [Hw _]. destruct w as [|c w]; [done|]. by exists w.
Qed.

Lemma tok_char_space t : tok_ok t → one_of whitespace (tok_char t) = false ∧ tok_char t ≠ 0.
Proof.
  destruct t as [w|c|]; unfold tok_char; cbn -[one_of whitespace]; [| |done].
  - intros [Hw Hf]. destruct w as [|c w]; [done|]. apply Forall_cons in Hf as [[Hc Hz] _]. cbn -[one_of whitespace].
    split; [|done]. unfold wordchar in Hc. by destruct (one_of whitespace c).
  - intros Hc. unfold one_of, symbols in Hc. cbn in Hc. rewrite orb_false_r in Hc.
    repeat (apply orb_true_iff in Hc as [Hc|Hc]; bool_to_prop; [by subst|]). bool_to_prop. by subst.
Qed.

Lemma at_here s t ts : here s (t :: ts) → at_ line s = tok_char t ∧ (s < n)%nat.
Proof.
  intros (Hs & E & Ho). apply Forall_cons in Ho as [Ho _]. destruct (tok_text_cons t Ho) as [r Er].
  rewrite print_cons, Er in E. cbn in E.
  assert (line !! s = Some (tok_char t)) as H.
  { assert (drop s line !! 0%nat = Some (tok_char t)) as H by (by rewrite E). by rewrite lookup_drop, Nat.add_0_r in H. }
  unfold at_. rewrite H. split; [done|]. by eapply lookup_lt_Some.
Qed.

Lemma at_end s : here s [] → at_ line s = 0 ∧ s = n.
Proof.
  intros (Hs & E & _). apply (f_equal length) in E. rewrite length_drop in E. cbn in E. assert (s = n) as -> by lia.
  split; [|done]. unfold at_. by rewrite lookup_ge_None_2.
Qed.

Lemma skip_space_here s ts : here s ts → skip_space line s = s.
Proof.
  intros (Hs & E & Ho). unfold skip_space. rewrite E. destruct ts as [|t ts]; [done|].
  apply Forall_cons in Ho as [Ho _]. destruct (tok_text_cons t Ho) as [r Er].
  rewrite print_cons, Er. cbn [app skip]. by rewrite (proj1 (tok_char_space t Ho)).
Qed.

(** After a token of [k] bytes comes the next one. *)
Lemma next_here s t ts : here s (t :: ts) →
  here (skip_space line (s + length (tok_text t))) ts ∧ slice line (s, (s + length (tok_text t))%nat) = tok_text t.
Proof.
  intros (Hs & E & Ho). rewrite print_cons in E. apply Forall_cons in Ho as [_ Ho].
  set (k := length (tok_text t)) in *. split.
  - assert (drop (s + k) line = 32 :: print ts) as Ed.
    { rewrite <- drop_drop, E, drop_app_ge by lia. unfold k. by rewrite Nat.sub_diag. }
    assert (drop (S (s + k)) line = print ts) as Ed1.
    { replace (S (s + k)) with (s + k + 1)%nat by lia. by rewrite <- drop_drop, Ed. }
    assert (S (s + k) ≤ n)%nat as Hn.
    { apply (f_equal length) in Ed. rewrite length_drop in Ed. cbn in Ed. lia. }
    assert (here (S (s + k)) ts) as Hh by done.
    assert (skip_space line (s + k) = S (s + k)) as ->; [|done].
    etrans; [|apply (skip_space_here _ _ Hh)]. unfold skip_space. rewrite Ed, Ed1. done.
  - unfold slice. cbn [fst snd]. rewrite E. replace (s + k - s)%nat with k by lia. unfold k.
    apply take_app_length.
Qed.

Lemma gettoken_here s t ts : here s (t :: ts) →
  ∃ q s', gettoken line s = (tok_code t, q, s') ∧ here s' ts ∧ slice line q = tok_text t.
Proof.
  intros H. pose proof (next_here _ _ _ H) as [N1 N2]. pose proof (at_here _ _ _ H) as [Ha Hn].
  exists (s, (s + length (tok_text t))%nat), (skip_space line (s + length (tok_text t))). split; [|done].
  unfold gettoken. rewrite (skip_space_here _ _ H), Ha. pose proof H as (_ & E & Ho). apply Forall_cons in Ho as [Ho _].
  rewrite (proj2 (Z.eqb_neq _ _)) by apply (tok_char_space t Ho).
  assert (∀ k, at_ line (s + k) = default 0 (print (t :: ts) !! k)) as Hat.
  { intros k. unfold at_. by rewrite <- E, lookup_drop. }
  destruct t as [w|c|]; cbn [tok_code tok_text length] in *.
  - destruct w as [|c w]; [by destruct Ho|]. change (tok_char (Word (c :: w))) with c.
    destruct Ho as [_ Hw]. pose proof (proj1 (proj1 (Forall_cons _ _ _) Hw)) as [Hc _].
    assert (one_of symbols c = false) as Hs.
    { unfold wordchar in Hc. apply andb_true_iff in Hc as [_ Hc]. by apply negb_true_iff. }
    assert (one_of [124; 40; 41; 59; 38; 60] c = false ∧ (c =? 62) = false) as [-> ->].
    { unfold one_of, symbols in *. cbn [existsb] in *. destruct (c =? 62), (c =? 124), (c =? 40), (c =? 41), (c =? 59), (c =? 38), (c =? 60); done. }
    change (skip _ (drop s line) s) with (skip wordchar (drop s line) s). rewrite E, print_cons, skip_app; [done| |].
    + eapply Forall_impl; [exact Hw|]. by intros ? [? _].
    + by intros ? [= <-].
  - change (tok_char (Sym c)) with c. rewrite Nat.add_1_r.
    specialize (Hat 1%nat). rewrite Nat.add_1_r in Hat. cbn in Hat.
    destruct (one_of [124; 40; 41; 59; 38; 60] c) eqn:E1; [done|].
    assert (c = 62) as ->; [|by rewrite Hat].
    unfold one_of, symbols in *. cbn [existsb tok_ok] in *. unfold one_of in Ho. cbn [existsb symbols] in Ho.
    destruct (c =? 62) eqn:E2; [by bool_to_prop|]. exfalso.
    destruct (c =? 124), (c =? 40), (c =? 41), (c =? 59), (c =? 38), (c =? 60); done.
  - change (tok_char Append) with 62. specialize (Hat 1%nat). rewrite Nat.add_1_r in Hat. cbn in Hat.
    cbn -[skip_space at_]. rewrite Hat. cbn -[skip_space].
    by replace (s + 2)%nat with (S (S s)) by lia.
Qed.

(** The first byte of the next token; 0 at the end of the line. *)
Definition nextc (ts : list token) : Z := match ts with [] => 0 | t :: _ => tok_char t end.

Lemma peek_here s ts toks : here s ts → one_of toks 0 = false →
  peek line s toks = (one_of toks (nextc ts), s).
Proof.
  intros H H0. unfold peek. rewrite (skip_space_here _ _ H). f_equal. destruct ts as [|t ts]; cbn [nextc].
  - rewrite (proj1 (at_end _ H)). by rewrite H0.
  - rewrite (proj1 (at_here _ _ _ H)). destruct H as (_ & _ & Ho). apply Forall_cons in Ho as [Ho _].
    by rewrite (proj2 (Z.eqb_neq _ _)) by apply (tok_char_space t Ho).
Qed.

Lemma word_next w ts toks : word_ok w → Forall (λ c, one_of symbols c = true) toks → one_of toks (nextc (Word w :: ts)) = false.
Proof.
  intros [Hw Hf] Ht. destruct w as [|c w]; [done|]. apply Forall_cons in Hf as [[Hc _] _].
  change (nextc _) with c. destruct (one_of toks c) eqn:E; [|done]. exfalso.
  unfold one_of in E. apply existsb_exists in E as (d & Hd & E). bool_to_prop. subst d.
  rewrite Forall_forall in Ht. specialize (Ht c (proj2 (list_elem_of_In _ _) Hd)). unfold wordchar in Hc.
  rewrite Ht in Hc. by rewrite andb_false_r in Hc.
Qed.

(** *** Redirections *)
Definition wrap {T} (rs : list (T * Z * Z)) (c : cmd T) : cmd T :=
  fold_left (λ c r, REDIR c r.1.1 r.1.2 r.2) rs c.
Definition show_redirs (rs : list (list Z * Z * Z)) : list token :=
  rs ≫= λ r, [redir_tok r.1.2; Word r.1.1].
Definition redirs_ok (rs : list (list Z * Z * Z)) : Prop :=
  Forall (λ r, word_ok r.1.1 ∧ redir_kind r.1.2 r.2) rs.
Definition slices (rs : list (span * Z * Z)) : list (list Z * Z * Z) :=
  (λ r, (slice line r.1.1, r.1.2, r.2)) <$> rs.

Lemma cmap_wrap rs c : cmap (slice line) (wrap rs c) = wrap (slices rs) (cmap (slice line) c).
Proof. revert c. induction rs as [|r rs IH]; intros c; [done|]. apply IH. Qed.

Lemma parseredirs_here rs : ∀ fuel c s ts, redirs_ok rs → here s (show_redirs rs ++ ts) →
  one_of [60; 62] (nextc ts) = false → (n - s < fuel)%nat →
  ∃ rs' s', parseredirs line fuel c s = PDone (wrap rs' c) s' ∧ here s' ts ∧ slices rs' = rs.
Proof.
  induction rs as [|[[f mode] fd] rs IH]; intros fuel c s ts Hok H Ht Hf; (destruct fuel as [|fuel]; [lia|]); cbn [parseredirs].
  - rewrite (peek_here _ _ _ H) by done. cbn [show_redirs mbind list_bind app] in *. rewrite Ht. by exists [], s.
  - apply Forall_cons in Hok as [[Hw Hk] Hok]. cbn [fst snd] in Hw, Hk.
    change (show_redirs ((f, mode, fd) :: rs) ++ ts) with (redir_tok mode :: Word f :: show_redirs rs ++ ts) in H.
    rewrite (peek_here _ _ _ H) by done.
    destruct (gettoken_here _ _ _ H) as (q1 & s1 & E1 & H1 & _).
    destruct (gettoken_here _ _ _ H1) as (q2 & s2 & E2 & H2 & S2).
    assert (n - s2 < fuel)%nat as Hf2.
    { pose proof (here_lt _ _ _ _ H H1). pose proof (here_lt _ _ _ _ H1 H2). lia. }
    assert (∃ rs' s', parseredirs line fuel (REDIR c q2 mode fd) s2 = PDone (wrap rs' (REDIR c q2 mode fd)) s' ∧
      here s' ts ∧ slices rs' = rs) as (rs' & s' & E & Hs' & Hr) by (by apply IH).
    exists ((q2, mode, fd) :: rs'), s'. rewrite <- Hr. split; [|split; [done|cbn; by rewrite S2]].
    change (wrap ((q2, mode, fd) :: rs') c) with (wrap rs' (REDIR c q2 mode fd)). rewrite <- E.
    unfold redir_kind in Hk. rewrite !elem_of_cons in Hk.
    destruct Hk as [[= -> ->]|[[= -> ->]|[[= -> ->]|Hk%elem_of_nil]]]; [..|done];
      cbn [nextc redir_tok] in *; change (one_of [60; 62] (tok_char _)) with true; cbv iota; rewrite E1, E2; reflexivity.
Qed.

(** *** Simple commands *)
Fixpoint add_args {T} (c : cmd T) (ws : list T) : cmd T :=
  match ws with [] => c | w :: ws => add_args (add_arg c w) ws end.

Lemma add_arg_wrap {T} rs (c : cmd T) q : add_arg (wrap rs c) q = wrap rs (add_arg c q).
Proof. revert c. induction rs as [|r rs IH]; intros c; [done|]. exact (IH (REDIR c _ _ _)). Qed.

Lemma add_args_wrap {T} rs (c : cmd T) ws : add_args (wrap rs c) ws = wrap rs (add_args c ws).
Proof. revert c. induction ws as [|w ws IH]; intros c; [done|]. cbn. by rewrite add_arg_wrap, IH. Qed.

Lemma add_args_exec {T} (a ws : list T) : add_args (EXEC a) ws = EXEC (a ++ ws).
Proof.
  revert a. induction ws as [|w ws IH]; intros a; cbn; [by rewrite app_nil_r|]. by rewrite IH, <- app_assoc.
Qed.

Lemma cmap_add_arg c q : cmap (slice line) (add_arg c q) = add_arg (cmap (slice line) c) (slice line q).
Proof. induction c; cbn; try done; [by rewrite fmap_app|by rewrite IHc]. Qed.

(** What can follow a simple command, a pipe, a line. *)
Definition follow (toks : list Z) (ts : list token) : Prop := nextc ts ∈ 0 :: toks.

Ltac follows H := unfold follow in H; rewrite !elem_of_cons in H; destruct_or! H; try (by apply elem_of_nil in H); rewrite H.

(** The redirections at the end come after the last word. *)
Lemma exec_loop_here ws : ∀ fuel ret argc s rs ts, redirs_ok rs → Forall word_ok ws →
  here s ((Word <$> ws) ++ show_redirs rs ++ ts) → (ws = [] → rs = []) → follow [124; 41; 38; 59] ts →
  (argc + length ws < MAXARGS)%nat → (n - s < fuel)%nat →
  ∃ c s', exec_loop line fuel ret argc s = PDone c s' ∧ here s' ts ∧
    cmap (slice line) c = wrap rs (add_args (cmap (slice line) ret) ws).
Proof.
  induction ws as [|w ws IH]; intros fuel ret argc s rs ts Hr Hw H H0 Ht Ha Hf; (destruct fuel as [|fuel]; [lia|]); cbn [exec_loop].
  - rewrite H0 in * by done. cbn in H. rewrite (peek_here _ _ _ H) by done. destruct ts as [|t ts].
    + change (one_of _ (nextc [])) with false. cbv iota. unfold gettoken.
      rewrite (skip_space_here _ _ H), (proj1 (at_end _ H)). cbn -[skip_space].
      exists ret, s. by rewrite (skip_space_here _ _ H).
    + destruct H as (? & ? & Ho). pose proof (proj2 (tok_char_space t (proj1 (proj1 (Forall_cons _ _ _) Ho)))) as Hz.
      exists ret, s. split; [|done]. follows Ht; [done|..]; reflexivity.
  - apply Forall_cons in Hw as [Hw Hws]. cbn [fmap list_fmap app] in H.
    rewrite (peek_here _ _ _ H), word_next by (done || by repeat constructor).
    destruct (gettoken_here _ _ _ H) as (q & s1 & E1 & H1 & S1). rewrite E1. cbn [tok_code tok_text] in *.
    change (97 =? 0) with false. change (97 =? 97) with true. cbn [negb].
    cbn [length] in Ha. rewrite (proj2 (Nat.leb_gt _ _)) by lia.
    pose proof (here_lt _ _ _ _ H H1) as Hlt.
    assert (∃ rs1 rs2, rs = rs1 ++ rs2 ∧ (ws = [] → rs2 = []) ∧ (ws ≠ [] → rs1 = []) ) as (rs1 & rs2 & -> & R2 & R1).
    { destruct ws; [exists rs, []|exists [], rs]; by rewrite ?app_nil_r. }
    apply Forall_app in Hr as [Hr1 Hr2].
    assert (show_redirs (rs1 ++ rs2) = show_redirs rs1 ++ show_redirs rs2) as Es by (unfold show_redirs; by rewrite bind_app).
    assert (here s1 (show_redirs rs1 ++ (Word <$> ws) ++ show_redirs rs2 ++ ts)) as H1'.
    { rewrite Es in H1. destruct ws as [|w2 ws]; [|by rewrite R1 in * by done].
      rewrite R2 in * by done. cbn [fmap list_fmap app] in *. by rewrite <- app_assoc in H1. }
    destruct (parseredirs_here rs1 fuel (add_arg ret q) s1 ((Word <$> ws) ++ show_redirs rs2 ++ ts) Hr1 H1') as (rs1' & s2 & E2 & H2 & S2).
    { destruct ws as [|w2 ws]; [|cbn [fmap list_fmap app]; apply word_next; [by apply Forall_cons in Hws as [? _]|by repeat constructor]].
      rewrite R2 by done. cbn. follows Ht; done. }
    { lia. }
    rewrite E2. cbn [pbind].
    destruct (IH fuel (wrap rs1' (add_arg ret q)) (S argc) s2 rs2 ts Hr2 Hws H2 R2 Ht) as (c & s' & E & Hs' & Ec).
    { lia. }
    { assert (n - s2 ≤ n - s1)%nat; [|lia]. rewrite (here_len _ _ H1'), (here_len _ _ H2), !print_app, !length_app. lia. }
    exists c, s'. split; [done|]. split; [done|]. rewrite Ec, cmap_wrap, S2, cmap_add_arg, S1, add_args_wrap.
    cbn [add_args]. unfold wrap. by rewrite fold_left_app.
Qed.

Lemma here_le s a ts s' : here s (a ++ ts) → here s' ts → (n - s' ≤ n - s)%nat.
Proof. intros H H'. rewrite (here_len _ _ H), (here_len _ _ H'), print_app, length_app. lia. Qed.

(** *** The four levels of the grammar *)
Definition parses3 (c : cmd (list Z)) : Prop := ∀ fuel s rs ts,
  redirs_ok rs → here s (show 3 c ++ show_redirs rs ++ ts) → follow [124; 41; 38; 59] ts → (4 * (n - s) + 2 ≤ fuel)%nat →
  ∃ c' s', parseexec line fuel s = PDone c' s' ∧ here s' ts ∧ cmap (slice line) c' = wrap rs c.
Definition parses2 (c : cmd (list Z)) : Prop := ∀ fuel s ts,
  here s (show 2 c ++ ts) → follow [41; 38; 59] ts → (4 * (n - s) + 3 ≤ fuel)%nat →
  ∃ c' s', parsepipe line fuel s = PDone c' s' ∧ here s' ts ∧ cmap (slice line) c' = c.
Definition parses1 (c : cmd (list Z)) : Prop := ∀ fuel s ts,
  here s (show 1 c ++ ts) → follow [41; 38; 59] ts → (4 * (n - s) + 3 ≤ fuel)%nat →
  ∃ c' s' k, pbind (parsepipe line fuel s) (back_loop line fuel) = back_loop line k c' s' ∧
    here s' ts ∧ cmap (slice line) c' = c ∧ (n - s' < k)%nat.
Definition parses0 (c : cmd (list Z)) : Prop := ∀ fuel s ts,
  here s (show 0 c ++ ts) → follow [41] ts → (4 * (n - s) + 4 ≤ fuel)%nat →
  ∃ c' s', parseline line fuel s = PDone c' s' ∧ here s' ts ∧ cmap (slice line) c' = c.

Lemma parses3_exec argv : good word_ok (EXEC argv) → parses3 (EXEC argv).
Proof.
  intros [Hl Hw] fuel s rs ts Hr H Ht Hf. destruct fuel as [|fuel]; [lia|]. cbn [parseexec show] in *.
  assert (one_of [40] (nextc ((Word <$> argv) ++ show_redirs rs ++ ts)) = false) as Hp.
  { destruct argv as [|w argv]; [|apply word_next; [by apply Forall_cons in Hw as [? _]|by repeat constructor]].
    destruct rs as [|[[f mode] fd] rs]; [cbn; follows Ht; done|]. cbn. unfold redir_tok. by repeat case_if. }
  rewrite (peek_here _ _ _ H), Hp by done.
  assert (∃ rs1 rs2, rs = rs1 ++ rs2 ∧ (argv = [] → rs2 = []) ∧ (argv ≠ [] → rs1 = [])) as (rs1 & rs2 & -> & R2 & R1).
  { destruct argv; [exists rs, []|exists [], rs]; by rewrite ?app_nil_r. }
  apply Forall_app in Hr as [Hr1 Hr2].
  assert (here s (show_redirs rs1 ++ (Word <$> argv) ++ show_redirs rs2 ++ ts)) as H1'.
  { unfold show_redirs in *. rewrite bind_app in H. destruct argv as [|w2 ws]; [|by rewrite R1 in * by done].
    rewrite R2 in * by done. cbn [fmap list_fmap app] in *. by rewrite <- app_assoc in H. }
  destruct (parseredirs_here rs1 fuel (EXEC []) s ((Word <$> argv) ++ show_redirs rs2 ++ ts) Hr1 H1') as (rs1' & s2 & E2 & H2 & S2).
  { destruct argv as [|w2 ws]; [|cbn [fmap list_fmap app]; apply word_next; [by apply Forall_cons in Hw as [? _]|by repeat constructor]].
    rewrite R2 by done. cbn. follows Ht; done. }
  { lia. }
  unfold execcmd; rewrite E2. cbn [pbind].
  destruct (exec_loop_here argv fuel (wrap rs1' (EXEC [])) 0 s2 rs2 ts Hr2 Hw H2 R2 Ht) as (c & s' & E & Hs' & Ec).
  { cbn. lia. }
  { pose proof (here_le _ _ _ _ H1' H2). lia. }
  exists c, s'. split; [done|]. split; [done|]. rewrite Ec, cmap_wrap, S2, add_args_wrap. cbn [cmap fmap list_fmap].
  rewrite add_args_exec. unfold wrap. by rewrite fold_left_app.
Qed.

Lemma parses3_redir c f mode fd : word_ok f → redir_kind mode fd → parses3 c → parses3 (REDIR c f mode fd).
Proof.
  intros Hf Hk IH fuel s rs ts Hr H Ht Hfu. apply (IH fuel s ((f, mode, fd) :: rs) ts); try done.
  - by apply Forall_cons.
  - cbn [show] in H. by rewrite <- app_assoc in H.
Qed.

Lemma parses3_block c : parses0 c → show 3 c = Sym 40 :: show 0 c ++ [Sym 41] → parses3 c.
Proof.
  intros IH Es fuel s rs ts Hr H Ht Hf. rewrite Es in H. cbn [app] in H. rewrite <- app_assoc in H. cbn [app] in H.
  destruct fuel as [|[|fuel]]; [lia..|]. cbn [parseexec]. rewrite (peek_here _ _ _ H) by done.
  change (one_of [40] (nextc _)) with true. cbv iota. cbn [parseblock]. rewrite (peek_here _ _ _ H) by done.
  change (one_of [40] (nextc _)) with true. cbn [negb].
  destruct (gettoken_here _ _ _ H) as (q & s1 & E1 & H1 & _). rewrite E1.
  pose proof (here_lt _ _ _ _ H H1) as L1.
  destruct (IH fuel s1 (Sym 41 :: show_redirs rs ++ ts) H1) as (c' & s2 & E2 & H2 & Ec); [right; by left|lia|].
  rewrite E2. cbn [pbind]. rewrite (peek_here _ _ _ H2) by done. change (one_of [41] (nextc _)) with true. cbn [negb].
  destruct (gettoken_here _ _ _ H2) as (q2 & s3 & E3 & H3 & _). rewrite E3.
  pose proof (here_lt _ _ _ _ H2 H3) as L3. pose proof (here_le _ _ _ _ H1 H2) as L2.
  destruct (parseredirs_here rs fuel c' s3 ts Hr H3) as (rs' & s' & E & Hs' & Hrs); [follows Ht; done|lia|].
  exists (wrap rs' c'), s'. split; [done|]. split; [done|]. by rewrite cmap_wrap, Hrs, Ec.
Qed.

Lemma parses2_of_3 c : parses3 c → show 2 c = show 3 c → parses2 c.
Proof.
  intros IH Es fuel s ts H Ht Hf. rewrite Es in H. destruct fuel as [|fuel]; [lia|]. cbn [parsepipe].
  destruct (IH fuel s [] ts) as (c' & s' & E & Hs' & Ec); [by apply Forall_nil|done|unfold follow in *; set_solver|lia|].
  rewrite E. cbn [pbind]. rewrite (peek_here _ _ _ Hs') by done. exists c', s'. split; [|done].
  by follows Ht.
Qed.

Lemma parses2_pipe l r : parses3 l → parses2 r → parses2 (PIPE l r).
Proof.
  intros IHl IHr fuel s ts H Ht Hf. change (show 2 (PIPE l r)) with (show 3 l ++ Sym 124 :: show 2 r) in H. rewrite <- app_assoc in H. cbn [app] in H.
  destruct fuel as [|fuel]; [lia|]. cbn [parsepipe].
  destruct (IHl fuel s [] (Sym 124 :: show 2 r ++ ts)) as (c1 & s1 & E1 & H1 & Ec1); [by apply Forall_nil|done|right; by left|lia|].
  rewrite E1. cbn [pbind]. rewrite (peek_here _ _ _ H1) by done. change (one_of [124] (nextc _)) with true. cbv iota.
  destruct (gettoken_here _ _ _ H1) as (q & s2 & E2 & H2 & _). rewrite E2.
  pose proof (here_le _ _ _ _ H H1) as Hle. pose proof (here_lt _ _ _ _ H1 H2) as Hlt.
  destruct (IHr fuel s2 ts H2 Ht) as (c2 & s3 & E3 & H3 & Ec2); [lia|]. rewrite E3. cbn [pbind].
  exists (PIPE c1 c2), s3. cbn [cmap]. by rewrite Ec1, Ec2.
Qed.

Lemma parses1_of_2 c : parses2 c → show 1 c = show 2 c → parses1 c.
Proof.
  intros IH Es fuel s ts H Ht Hf. rewrite Es in H. destruct (IH fuel s ts H Ht Hf) as (c' & s' & E & Hs' & Ec).
  exists c', s', fuel. rewrite E. split_and!; try done. pose proof (here_le _ _ _ _ H Hs'). lia.
Qed.

Lemma parses1_back c : parses1 c → parses1 (BACK c).
Proof.
  intros IH fuel s ts H Ht Hf. change (show 1 (BACK c)) with (show 1 c ++ [Sym 38]) in H. rewrite <- app_assoc in H. cbn [app] in H.
  destruct (IH fuel s (Sym 38 :: ts) H) as (c1 & s1 & k0 & E1 & H1 & Ec1 & Hl); [right; right; by left|done|].
  rewrite E1. destruct k0 as [|k0]; [lia|]. cbn [back_loop]. rewrite (peek_here _ _ _ H1) by done.
  change (one_of [38] (nextc _)) with true. cbv iota. destruct (gettoken_here _ _ _ H1) as (q & s2 & E2 & H2 & _). rewrite E2.
  pose proof (here_lt _ _ _ _ H1 H2). exists (BACK c1), s2, k0. cbn [cmap]. rewrite Ec1. split_and!; try done. lia.
Qed.

(** A line up to its [;]. *)
Lemma parseline_operand c fuel s ts : parses1 c → here s (show 1 c ++ ts) → follow [41; 59] ts → (4 * (n - s) + 3 ≤ fuel)%nat →
  ∃ c' s', (∀ k : cmd span → nat → pres (cmd span),
      pbind (parsepipe line fuel s) (λ c s, pbind (back_loop line fuel c s) k) = k c' s') ∧
    here s' ts ∧ cmap (slice line) c' = c.
Proof.
  intros IH H Ht Hf.
  destruct (IH fuel s ts H) as (c1 & s1 & k0 & E1 & H1 & Ec1 & Hl); [unfold follow in *; set_solver|lia|].
  exists c1, s1. split; [|done]. intros k. transitivity (pbind (pbind (parsepipe line fuel s) (back_loop line fuel)) k).
  { by destruct (parsepipe line fuel s). }
  rewrite E1. destruct k0 as [|k0]; [lia|]. cbn [back_loop]. rewrite (peek_here _ _ _ H1) by done. by follows Ht.
Qed.

Lemma parses0_of_1 c : parses1 c → show 0 c = show 1 c → parses0 c.
Proof.
  intros IH Es fuel s ts H Ht Hf. rewrite Es in H. destruct fuel as [|fuel]; [lia|]. cbn [parseline].
  destruct (parseline_operand c fuel s ts IH H) as (c1 & s1 & E1 & H1 & Ec1); [unfold follow in *; set_solver|lia|].
  rewrite E1, (peek_here _ _ _ H1) by done. exists c1, s1. split; [|done]. by follows Ht.
Qed.

Lemma parses0_list l r : parses1 l → parses0 r → parses0 (LIST l r).
Proof.
  intros IHl IHr fuel s ts H Ht Hf. change (show 0 (LIST l r)) with (show 1 l ++ Sym 59 :: show 0 r) in H. rewrite <- app_assoc in H. cbn [app] in H.
  destruct fuel as [|fuel]; [lia|]. cbn [parseline].
  destruct (parseline_operand l fuel s (Sym 59 :: show 0 r ++ ts) IHl H) as (c1 & s1 & E1 & H1 & Ec1); [right; right; by left|lia|].
  rewrite E1, (peek_here _ _ _ H1) by done. change (one_of [59] (nextc _)) with true. cbv iota.
  destruct (gettoken_here _ _ _ H1) as (q & s2 & E2 & H2 & _). rewrite E2.
  pose proof (here_le _ _ _ _ H H1) as Hle. pose proof (here_lt _ _ _ _ H1 H2) as Hlt.
  destruct (IHr fuel s2 ts H2 Ht) as (c2 & s3 & E3 & H3 & Ec2); [lia|]. rewrite E3. cbn [pbind].
  exists (LIST c1 c2), s3. cbn [cmap]. by rewrite Ec1, Ec2.
Qed.

Lemma show_parse c : good word_ok c → parses0 c ∧ parses1 c ∧ parses2 c ∧ parses3 c.
Proof.
  induction c as [argv|c IH f m fd|l IHl r IHr|l IHl r IHr|c IH]; intros Hg; cbn [good] in Hg.
  - pose proof (parses3_exec argv Hg) as P3. pose proof (parses2_of_3 _ P3 eq_refl) as P2.
    pose proof (parses1_of_2 _ P2 eq_refl) as P1. by pose proof (parses0_of_1 _ P1 eq_refl).
  - destruct Hg as (Hc & Hf & Hk). destruct (IH Hc) as (_ & _ & _ & I3).
    pose proof (parses3_redir c f m fd Hf Hk I3) as P3. pose proof (parses2_of_3 _ P3 eq_refl) as P2.
    pose proof (parses1_of_2 _ P2 eq_refl) as P1. by pose proof (parses0_of_1 _ P1 eq_refl).
  - destruct (IHl (proj1 Hg)) as (_ & _ & _ & I3), (IHr (proj2 Hg)) as (_ & _ & I2 & _).
    pose proof (parses2_pipe l r I3 I2) as P2. pose proof (parses1_of_2 _ P2 eq_refl) as P1.
    pose proof (parses0_of_1 _ P1 eq_refl) as P0. by pose proof (parses3_block _ P0 eq_refl).
  - destruct (IHl (proj1 Hg)) as (_ & I1 & _ & _), (IHr (proj2 Hg)) as (I0 & _ & _ & _).
    pose proof (parses0_list l r I1 I0) as P0. pose proof (parses3_block _ P0 eq_refl) as P3.
    pose proof (parses2_of_3 _ P3 eq_refl) as P2. by pose proof (parses1_of_2 _ P2 eq_refl).
  - destruct (IH Hg) as (_ & I1 & _ & _). pose proof (parses1_back c I1) as P1.
    pose proof (parses0_of_1 _ P1 eq_refl) as P0. pose proof (parses3_block _ P0 eq_refl) as P3.
    by pose proof (parses2_of_3 _ P3 eq_refl).
Qed.
End line.

(** C24: Parsing a printed command gives the command.  Every command, with words
    of word characters, redirections of the three kinds and fewer than
    [MAXARGS] arguments per program, however pipes, lists, background commands
    and redirections are nested, is read back from its line: same structure,
    and each string, as [exec] and [open] get it, is the word printed. *)
Theorem show_parses buf m c :
  good word_ok c → text_at buf 0 m = print (show 0 c) → (length (print (show 0 c)) < 100)%nat →
  ∃ c' m', parsecmd buf m = UDone c' m' ∧ cmap (λ q, text_at buf q.1 m') c' = c.
Proof.
  intros Hg El Hl. set (line := print (show 0 c)) in *.
  pose proof (cstr_bytes m (buf + Z.of_nat 0) 100) as H. cbv zeta in H. change (cstr _) with (text_at buf 0 m) in H.
  rewrite El in H. destruct (H Hl) as (Hz & _ & _). clear H.
  pose proof (parse_total line Hz) as Hp.
  destruct (show_parse line c Hg) as (P0 & _). unfold parsecmd.
  change (ubind (uget (text_at buf 0)) ?k m) with (k (text_at buf 0 m) m). cbv beta. rewrite El.
  destruct (P0 (4 * length line + 4)%nat 0%nat []) as (c' & s' & E & Hs & Ec); [|by left|lia|].
  { rewrite app_nil_r. split; [lia|]. split; [done|by apply show_ok]. }
  assert (parse line (4 * length line + 4) = PDone c' s') as Ep.
  { unfold parse. rewrite E. cbn [pbind]. by rewrite (peek_here _ _ _ _ Hs). }
  rewrite Ep in Hp |- *. destruct Hp as [_ Hw]. rewrite (proj2 (at_end _ _ Hs)), Nat.eqb_refl. cbn [negb].
  exists c', (nul_at buf (spans c') m). split; [unfold ubind; by rewrite nulterminate_run|].
  rewrite <- Ec. apply cmap_ext. intros q Hq. apply nul_text; [done|done|by apply spans_good|done].
Qed.

Definition ex_cmd : cmd (list Z) :=
  LIST (PIPE (REDIR (EXEC [bytes_of "cat"]) (bytes_of "in") O_RDONLY 0)
             (BACK (LIST (EXEC [bytes_of "grep"; bytes_of "x"]) (EXEC [bytes_of "ls"]))))
       (REDIR (EXEC [bytes_of "wc"]) (bytes_of "out") (Z.lor O_WRONLY O_CREATE) 1).

Lemma show_parses_witness :
  let m := store_bytes ∅ 4096 (print (show 0 ex_cmd) ++ [0]) in
  print (show 0 ex_cmd) = bytes_of "cat < in | ( ( grep x ; ls ) & ) ; wc >> out " ∧
  ∃ c' m', parsecmd 4096 m = UDone c' m' ∧ cmap (λ q, text_at 4096 q.1 m') c' = ex_cmd.
Proof.
  intros m. split; [vm_compute; reflexivity|].
  apply (show_parses 4096 m ex_cmd).
  - cbn [ex_cmd good]. unfold MAXARGS, redir_kind, word_ok.
    repeat split; try (cbn; lia); try (repeat constructor; done); try discriminate.
  - vm_compute. reflexivity.
  - vm_compute. lia.
Defined.
