(* ===== verification/Programs.v ===== *)
(** * Small user programs ([user/cat.c], [echo.c], [wc.c], [ls.c], [kill.c],
    [ln.c], [mkdir.c], [rm.c], [trace.c], [zombie.c], [init.c])

    [argv] is the list of the argument strings.  [fuel] bounds the number of
    reads, or of turns of an endless loop. *)

From S2P Require Import Base Riscv Mem Kstring Printf FsState Fs File Sysfile User Ulib Uprintf.
Local Open Scope Z_scope.
Local Open Scope user_scope.

Definition nl (s : string) : list Z := bytes_of s ++ [10].

(** ** cat *)
Section cat.
  (** The address of the static [buf[512]]. *)
  Context (buf : Z).

Fixpoint cat (fuel : nat) (fd : Z) : U unit :=
  match fuel with
  | O => out_of_fuel
  | S fuel =>
      n ← read fd buf 512;
      if n >? 0 then
        k ← write 1 buf n;
        if negb (k =? n) then fprintf 2 (nl "cat: write error") [] ;; exit 1
        else cat fuel fd
      else if n <? 0 then fprintf 2 (nl "cat: read error") [] ;; exit 1
      else uret tt
  end.

Fixpoint cat_files (fuel : nat) (files : list (list Z)) : U unit :=
  match files with
  | [] => exit 0
  | f :: files =>
      fd ← open f O_RDONLY;
      if fd <? 0 then fprintf 2 (nl "cat: cannot open %s") [AStr (Some f)] ;; exit 1
      else cat fuel fd ;; close fd ;; cat_files fuel files
  end.

Definition cat_main (fuel : nat) (argv : list (list Z)) : U unit :=
  match argv with
  | [] | [_] => cat fuel 0 ;; exit 0
  | _ :: files => cat_files fuel files
  end.
End cat.

(** ** echo *)
Fixpoint echo_args (args : list (list Z)) : U unit :=
  match args with
  | [] => uret tt
  | a :: args =>
      write_bytes 1 a ;;
      (match args with
       | _ :: _ => write_bytes 1 [32]
       | [] => write_bytes 1 [10]
       end) ;;
      echo_args args
  end.
Definition echo_main (argv : list (list Z)) : U unit := echo_args (tail argv) ;; exit 0.

(** ** wc *)
Section wc.
  Context (buf : Z).

Record counts := Counts { wc_l : Z; wc_w : Z; wc_c : Z; inword : bool }.

(** One turn of the inner loop; the counters are [int]s. *)
Definition wc_byte (k : counts) (b : Z) : counts :=
  let c := i32 (wc_c k + 1) in
  let l := if b =? 10 then i32 (wc_l k + 1) else wc_l k in
  if existsb (Z.eqb b) [32; 13; 9; 10; 11] then Counts l (wc_w k) c false
  else if inword k then Counts l (wc_w k) c true
  else Counts l (i32 (wc_w k + 1)) c true.

Fixpoint wc_loop (fuel : nat) (fd : Z) (k : counts) : U (Z * counts) :=
  match fuel with
  | O => out_of_fuel
  | S fuel =>
      n ← read fd buf 512;
      if n >? 0 then
        bs ← uget (λ m, load_bytes m buf (Z.to_nat n));
        wc_loop fuel fd (fold_left wc_byte bs k)
      else uret (n, k)
  end.

Definition wc (fuel : nat) (fd : Z) (name : list Z) : U unit :=
  r ← wc_loop fuel fd (Counts 0 0 0 false);
  if r.1 <? 0 then printf (nl "wc: read error") [] ;; exit 1
  else printf (nl "%d %d %d %s") [AInt (wc_l r.2); AInt (wc_w r.2); AInt (wc_c r.2); AStr (Some name)].

Fixpoint wc_files (fuel : nat) (files : list (list Z)) : U unit :=
  match files with
  | [] => exit 0
  | f :: files =>
      fd ← open f O_RDONLY;
      if fd <? 0 then printf (nl "wc: cannot open %s") [AStr (Some f)] ;; exit 1
      else wc fuel fd f ;; close fd ;; wc_files fuel files
  end.

Definition wc_main (fuel : nat) (argv : list (list Z)) : U unit :=
  match argv with
  | [] | [_] => wc fuel 0 [] ;; exit 0
  | _ :: files => wc_files fuel files
  end.
End wc.

(** ** ls *)
Section ls.
  (** The addresses of [st] and [de]. *)
  Context (st de : Z).

(** The scan for the last slash, from the end of the path. *)
Fixpoint back_to_slash (r : list Z) : list Z :=
  match r with
  | [] => []
  | c :: r => if c =? 47 then [] else c :: back_to_slash r
  end.
Definition after_slash (path : list Z) : list Z := rev (back_to_slash (rev path)).

Definition fmtname (path : list Z) : list Z :=
  let p := after_slash path in
  if Z.of_nat (length p) >=? DIRSIZ then p
  else p ++ repeat 32 (Z.to_nat DIRSIZ - length p).

(** [struct stat] in memory. *)
Definition us_ino (m : mem) : Z := ld32 m (st + 4).
Definition us_type (m : mem) : Z := i16 (ldle m (st + 8) 2).
Definition us_size (m : mem) : Z := ld64 m (st + 16).

(** The entries of a directory; [buf] is the path and a slash. *)
Fixpoint ls_entries (fuel : nat) (fd : Z) (buf : list Z) : U unit :=
  match fuel with
  | O => out_of_fuel
  | S fuel =>
      n ← read fd de 16;
      if n =? 16 then
        inum ← uget (λ m, ldle m de 2);
        if inum =? 0 then ls_entries fuel fd buf else
        name ← uget (λ m, cstr (load_bytes m (de + 2) (Z.to_nat DIRSIZ)));
        r ← stat (buf ++ name) st;
        if r <? 0 then
          printf (nl "ls: cannot stat %s") [AStr (Some (buf ++ name))] ;; ls_entries fuel fd buf
        else
        ty ← uget us_type;
        ino ← uget us_ino;
        sz ← uget us_size;
        printf (nl "%s %d %d %d") [AStr (Some (fmtname (buf ++ name))); AInt ty; AInt ino; AInt sz] ;;
        ls_entries fuel fd buf
      else uret tt
  end.

Definition ls (fuel : nat) (path : list Z) : U unit :=
  fd ← open path O_RDONLY;
  if fd <? 0 then fprintf 2 (nl "ls: cannot open %s") [AStr (Some path)] else
  r ← fstat fd st;
  if r <? 0 then
    fprintf 2 (nl "ls: cannot stat %s") [AStr (Some path)] ;; close fd ;; uret tt
  else
  ty ← uget us_type;
  (if (ty =? T_DEVICE) || (ty =? T_FILE) then
     ino ← uget us_ino;
     sz ← uget us_size;
     printf (nl "%s %d %d %l") [AStr (Some (fmtname path)); AInt ty; AInt ino; APtr sz]
   else if ty =? T_DIR then
     if Z.of_nat (length path) + 1 + DIRSIZ + 1 >? 512 then printf (nl "ls: path too long") []
     else ls_entries fuel fd (path ++ [47])
   else uret tt) ;;
  close fd ;;
  uret tt.

Fixpoint ls_args (fuel : nat) (args : list (list Z)) : U unit :=
  match args with
  | [] => uret tt
  | a :: args => ls fuel a ;; ls_args fuel args
  end.

Definition ls_main (fuel : nat) (argv : list (list Z)) : U unit :=
  match argv with
  | [] | [_] => ls fuel [46] ;; exit 0
  | _ :: args => ls_args fuel args ;; exit 0
  end.
End ls.

(** ** kill, ln, mkdir, rm *)
Fixpoint kill_args (args : list (list Z)) : U unit :=
  match args with
  | [] => uret tt
  | a :: args => kill (atoi a) ;; kill_args args
  end.
Definition kill_main (argv : list (list Z)) : U unit :=
  match argv with
  | [] | [_] => fprintf 2 (nl "usage: kill pid...") [] ;; exit 1
  | _ :: args => kill_args args ;; exit 0
  end.

Definition ln_main (argv : list (list Z)) : U unit :=
  match argv with
  | [_; old; new] =>
      r ← link old new;
      (if r <? 0 then fprintf 2 (nl "link %s %s: failed") [AStr (Some old); AStr (Some new)]
       else uret tt) ;;
      exit 0
  | _ => fprintf 2 (nl "Usage: ln old new") [] ;; exit 1
  end.

Fixpoint mkdir_args (args : list (list Z)) : U unit :=
  match args with
  | [] => uret tt
  | a :: args =>
      r ← mkdir a;
      if r <? 0 then fprintf 2 (nl "mkdir: %s failed to create") [AStr (Some a)]
      else mkdir_args args
  end.
Definition mkdir_main (argv : list (list Z)) : U unit :=
  match argv with
  | [] | [_] => fprintf 2 (nl "Usage: mkdir files...") [] ;; exit 1
  | _ :: args => mkdir_args args ;; exit 0
  end.

Fixpoint rm_args (args : list (list Z)) : U unit :=
  match args with
  | [] => uret tt
  | a :: args =>
      r ← unlink a;
      if r <? 0 then fprintf 2 (nl "rm: %s failed to delete") [AStr (Some a)]
      else rm_args args
  end.
Definition rm_main (argv : list (list Z)) : U unit :=
  match argv with
  | [] | [_] => fprintf 2 (nl "Usage: rm files...") [] ;; exit 1
  | _ :: args => rm_args args ;; exit 0
  end.

(** ** trace

    [nargv] is not initialised: behind the copied arguments it holds what the
    stack held, [junk] up to the first null pointer. *)
Definition trace_main (junk : list (list Z)) (argv : list (list Z)) : U unit :=
  match argv with
  | name :: mask :: cmd :: args =>
      let c := default 0 (head mask) in
      if (c <? 48) || (c >? 57) then
        fprintf 2 (nl "Usage: %s mask command") [AStr (Some name)] ;; exit 1
      else
      r ← trace (atoi mask);
      if r <? 0 then fprintf 2 (nl "%s: trace failed") [AStr (Some name)] ;; exit 1
      else exec cmd (take (Z.to_nat MAXARG - 2) (cmd :: args) ++ junk) ;; exit 0
  | _ => fprintf 2 (nl "Usage: %s mask command") [AStr (head argv)] ;; exit 1
  end.

(** ** zombie *)
Definition zombie_main : U unit :=
  pid ← fork;
  (if pid >? 0 then sleep 5 ;; uret tt else uret tt) ;;
  exit 0.

(** ** init *)

(** The inner loop: until the shell [pid] has exited. *)
Fixpoint init_wait (fuel : nat) (pid : Z) : U unit :=
  match fuel with
  | O => out_of_fuel
  | S fuel =>
      wpid ← wait;
      if wpid =? pid then uret tt
      else if wpid <? 0 then printf (nl "init: wait returned an error") [] ;; exit 1
      else init_wait fuel pid
  end.

Fixpoint init_loop (fuel : nat) : U unit :=
  match fuel with
  | O => out_of_fuel
  | S fuel =>
      printf (nl "init: starting sh") [] ;;
      pid ← fork;
      if pid <? 0 then printf (nl "init: fork failed") [] ;; exit 1
      else if pid =? 0 then
        exec (bytes_of "sh") [bytes_of "sh"] ;;
        printf (nl "init: exec sh failed") [] ;; exit 1
      else init_wait fuel pid ;; init_loop fuel
  end.

Definition init_main (fuel : nat) : U unit :=
  fd ← open (bytes_of "console") O_RDWR;
  (if fd <? 0 then
     mknod (bytes_of "console") CONSOLE 0 ;; open (bytes_of "console") O_RDWR ;; uret tt
   else uret tt) ;;
  dup 0 ;;
  dup 0 ;;
  init_loop fuel.

(** ** cat copies *)
Lemma written_snoc fd w fd' l : written fd (Streams (s_in w) (s_out w ++ [(fd', l)])) = written fd w ++ (if fd' =? fd then l else []).
Proof. unfold written. cbn [s_out]. rewrite fmap_app, concat_app. cbn. by rewrite app_nil_r. Qed.

Lemma load_stored m a l : Forall (λ b, 0 ≤ b < 256) l → load_bytes (store_bytes m a l) a (length l) = l.
Proof.
  intros Hl. rewrite load_store_bytes. induction Hl as [|b l Hb Hl IH]; cbn; [done|].
  by rewrite IH, u8_small.
Qed.

(** [cat] writes exactly what it reads, however the input arrives in pieces. *)
Lemma cat_copies buf fuel fd m w :
  Forall (λ c, c ≠ []) (s_in w fd) → Forall (λ b, 0 ≤ b < 256) (concat (s_in w fd)) →
  (length (concat (s_in w fd)) < fuel)%nat →
  ∃ m' w', urun stream_answer (cat buf fuel fd m) w = (Returned tt m', w') ∧ s_in w' fd = [] ∧
    (∀ fd', written fd' w' = written fd' w ++ (if fd' =? 1 then concat (s_in w fd) else [])).
Proof.
  revert m w. induction fuel as [|fuel IH]; intros m w Hne Hb Hf; [lia|]. cbn [cat]. unfold read. rewrite urun_ask_at. cbn [stream_answer].
  destruct (s_in w fd) as [|c cs] eqn:Ein.
  { unfold stream_read. rewrite Ein. cbn. exists m, w. split_and!; try done. intros fd'. by case_if; rewrite app_nil_r. }
  apply Forall_cons in Hne as [Hc Hcs].
  destruct (stream_read_ok fd 512 c cs w Ein Hc ltac:(lia) Hcs) as (got & rest & w1 & E1 & E2 & E3 & Hg & Hlg & Ecat & Hr & _).
  rewrite E1. cbn [r_val r_data]. assert (0 < length got)%nat as Hpos by (destruct got; [done|cbn; lia]).
  rewrite (proj2 (Z.gtb_lt _ _)) by lia. cbn [concat] in Hb, Hf |- *. rewrite Ecat in Hb, Hf |- *.
  apply Forall_app in Hb as [Hb1 Hb2]. rewrite length_app in Hf.
  rewrite urun_write, Nat2Z.id, load_stored, Z.eqb_refl by done. cbn [negb].
  destruct (IH (store_bytes m buf got) (Streams (s_in w1) (s_out w1 ++ [(1, got)]))) as (m' & w' & E & Hin & Hout); cbn; rewrite ?E2; try done.
  { lia. }
  exists m', w'. split; [exact E|]. split; [done|]. intros fd'. rewrite Hout, written_snoc. cbn [s_in]. rewrite E2.
  unfold written. rewrite E3, (Z.eqb_sym 1 fd'). case_if; [by rewrite <- app_assoc|by rewrite !app_nil_r].
Qed.

(** ** wc counts *)
Definition is_space (b : Z) : bool := existsb (Z.eqb b) [32; 13; 9; 10; 11].

(** The words of a text: maximal runs of bytes that are not white space. *)
Fixpoint words (text : list Z) (in_word : bool) : Z :=
  match text with
  | [] => 0
  | b :: text => if is_space b then words text false else (if in_word then 0 else 1) + words text true
  end.

Lemma i32_add_l x y : i32 (i32 x + y) = i32 (x + y).
Proof. ilia. Qed.

(** The counters after a text are the numbers of lines, words and bytes, as [int]s. *)
Lemma wc_fold text : ∀ l w c b,
  let k := fold_left wc_byte text (Counts (i32 l) (i32 w) (i32 c) b) in
  wc_l k = i32 (l + Z.of_nat (length (filter (λ x, x = 10) text))) ∧
  wc_w k = i32 (w + words text b) ∧
  wc_c k = i32 (c + Z.of_nat (length text)).
Proof.
  induction text as [|x text IH]; intros l w c b; cbv zeta; cbn [fold_left].
  - cbn. by rewrite !Z.add_0_r.
  - assert (wc_byte (Counts (i32 l) (i32 w) (i32 c) b) x =
      Counts (i32 (l + if x =? 10 then 1 else 0)) (i32 (w + if is_space x then 0 else if b then 0 else 1)) (i32 (c + 1))
        (negb (is_space x))) as ->.
    { unfold wc_byte. cbn [wc_l wc_w wc_c inword]. fold (is_space x).
      destruct (x =? 10), (is_space x), b; rewrite ?i32_add_l, ?Z.add_0_r; done. }
    destruct (IH (l + if x =? 10 then 1 else 0) (w + if is_space x then 0 else if b then 0 else 1) (c + 1) (negb (is_space x))) as (E1 & E2 & E3).
    rewrite E1, E2, E3. cbn [words length]. split_and!; f_equal.
    + rewrite filter_cons. destruct (decide (x = 10)) as [->|Hx]; [cbn; lia|].
      rewrite (proj2 (Z.eqb_neq _ _)) by done. lia.
    + destruct (is_space x), b; cbn [negb]; lia.
    + lia.
Qed.

Lemma wc_loop_reads buf fuel fd m w k :
  Forall (λ c, c ≠ []) (s_in w fd) → Forall (λ b, 0 ≤ b < 256) (concat (s_in w fd)) →
  (length (concat (s_in w fd)) < fuel)%nat →
  ∃ m' w', urun stream_answer (wc_loop buf fuel fd k m) w =
    (Returned (0, fold_left wc_byte (concat (s_in w fd)) k) m', w') ∧ s_in w' fd = [] ∧ s_out w' = s_out w.
Proof.
  revert m w k. induction fuel as [|fuel IH]; intros m w k Hne Hb Hf; [lia|]. cbn [wc_loop]. unfold read. rewrite urun_ask_at. cbn [stream_answer].
  destruct (s_in w fd) as [|c cs] eqn:Ein.
  { unfold stream_read. rewrite Ein. cbn. by exists m, w. }
  apply Forall_cons in Hne as [Hc Hcs].
  destruct (stream_read_ok fd 512 c cs w Ein Hc ltac:(lia) Hcs) as (got & rest & w1 & E1 & E2 & E3 & Hg & Hlg & Ecat & Hr & _).
  rewrite E1. cbn [r_val r_data]. assert (0 < length got)%nat as Hpos by (destruct got; [done|cbn; lia]).
  rewrite (proj2 (Z.gtb_lt _ _)) by lia. cbn [concat] in Hb, Hf |- *. rewrite Ecat in Hb, Hf |- *.
  apply Forall_app in Hb as [Hb1 Hb2]. rewrite length_app in Hf. rewrite urun_uget, Nat2Z.id, load_stored by done.
  destruct (IH (store_bytes m buf got) w1 (fold_left wc_byte got k)) as (m' & w' & E & Hin & Hout); rewrite ?E2; try done.
  { lia. }
  exists m', w'. rewrite E, E2, fold_left_app. split; [done|]. split; [done|congruence].
Qed.
